(* ===== verification/_CoqProject ===== *)
-Q . S2P
Prelude.v
JsRuntime.v
InstallerApi.v
ControlScript.v
ComponentScript.v
IPAddress.v
QtJson.v
InterfaceConfig.v
Daemon.v
DaemonSpec.v
LineProtocol.v
QtText.v
SecureSettings.v
LocalSocket.v
LocalSocketSpec.v
SplitTunnel.v
SplitTunnelSpec.v
Containers.v
JsonEquiv.v
ServerSettings.v
ServersModel.v
ServersSpec.v
ServersCorrect.v
PacketFilter.v
LinuxFirewall.v
LinuxFirewallSpec.v
WireguardLinux.v
SimLinux.v
WireguardLinuxSpec.v
LinuxDaemon.v
IpcServer.v
KillSwitch.v
KillSwitchCorrect.v
Router.v
Connection.v
ConnectionSpec.v
OpenVpn.v
OpenVpnSpec.v
RemoteServer.v
RemoteSpec.v
SimRemote.v
RemoteCorrect.v
WgConfigurator.v
Clients.v
WgAddresses.v
ClientsSpec.v
ClientsCorrect.v
Cxx.v
ReedSolomon.v
QrSegment.v
QrCode.v
QrMatrix.v
QrDraw.v
QrLayout.v
QrCapacity.v
QrPenalty.v
QrBlocks.v
QrSymbol.v
QrText.v
QrSvg.v
QrSeries.v
