(* ===== verification/Prelude.v ===== *)
(** * AmneziaVPN: verification library

    The program is the AmneziaVPN client.  Its parts, and how they meet:

    - The installer is a Qt Installer Framework package driven by two scripts,
      the control script (the wizard) and the component script (the package).
    - The application runs without privileges.  To bring up a WireGuard tunnel
      its [LocalSocketController] connects to a local socket and writes JSON
      requests, one per line.
    - The daemon runs with privileges.  A [DaemonLocalServerConnection] reads
      the requests and calls the [Daemon], which parses the request into an
      [InterfaceConfig], drives the platform (interface, peers, routes,
      resolvers) and signals when a peer's handshake has completed.
    - [IPAddress] computes the networks that are routed through the tunnel.
    - The user's settings, kept by [SecureQSettings] with the list of servers
      encrypted, say which sites and applications use the tunnel.  The user edits
      them through list models, and [VpnConnection] adds them to the VPN
      configuration the [LocalSocketController] sends.
    - The settings also hold the list of servers, each with its containers (the
      installed services).  [ServersModel] and [ContainersModel] show it.
    - The [ConnectionController] of the main thread starts and stops connections.
      [VpnConnection] serves its requests in another thread: it makes a protocol
      object, passes its states on and has the routes of the sites set.  The object of
      OpenVPN starts its process and reads the lines it writes to a management socket.
    - The [ServerController] installs containers on the user's servers: it runs
      scripts over SSH and copies files into containers.  The configurators use it to
      add a client to a container, [ClientManagementModel] to list, rename and revoke
      the clients.
    - On Linux the daemon's back end drives a tunnel process, the routes of the
      kernel and the firewall that is the kill switch.  The privileged service has
      a kill switch of its own and a table of added routes for the other protocols.
    - A configuration moves to another device as a series of QR codes: the
      [ExportController] splits it into chunks and shows each as a symbol of the
      library [qrcodegen], and the [ImportController] of the other device puts
      the scanned chunks together.

    ** Files

    - [Prelude]: the state, error and log monad [M] of the development, its
      weakest precondition [wp] and the predicates [emits], [keeps] and
      [converges] on programs; a state [Sys] of program variables and an
      outside world; lemmas on strings; the hint database [logm].
    - [JsRuntime], [InstallerApi]: the ECMAScript built-ins the scripts use, and
      the framework's objects as the class [InstallerApi] over a world.
    - [ControlScript] models [src/deploy/installer/config/controlscript.js]; its
      global variables are the record [Ctl].
    - [ComponentScript] models [componentscript.js] of the package.
    - [IPAddress] models [src/client/mozilla/shared/ipaddress.cpp].
    - [QtJson]: [QString] and Qt's JSON values.
    - [InterfaceConfig] models [src/client/daemon/interfaceconfig.cpp] and
      [Daemon::parseConfig].
    - [Daemon] models [src/client/daemon/daemon.cpp]; its members are the record
      [Daemon], its platform the class [Platform].  [DaemonSpec] holds the
      transition system of the daemon and its properties.
    - [LineProtocol] models [readData] and the writing of messages at both ends.
    - [LocalSocket] models [daemonlocalserverconnection.cpp] (Section [Server])
      and [src/client/mozilla/localsocketcontroller.cpp] (Sections [Request] and
      [Client]).  [LocalSocketSpec] holds their properties.
    - [QtText]: searching, splitting and replacing in Qt's strings, with their lemmas.
    - [SecureSettings] models [src/client/secure_qsettings.cpp]; its members are
      the record [Secure].
    - [SplitTunnel] models the split-tunnel part of [src/client/settings.cpp]
      (Module [Settings]), [sites_model.cpp] and [appSplitTunnelingModel.cpp] of
      [src/client/ui/models] (Modules [Sites] and [Apps]), the address checks of
      [src/client/core/networkUtilities.cpp], and the functions of
      [src/client/vpnconnection.cpp] that complete the configuration (Module
      [VpnConnection]).  [SplitTunnelSpec] holds their properties.
    - [Containers] models the tables of [containers_defs.cpp] and
      [protocols_defs.cpp], and the factory of [vpnprotocol.cpp].
    - [ServerSettings] models the servers of [src/client/settings.cpp],
      [ServersModel] the models [servers_model.cpp] and [containers_model.cpp] of
      [src/client/ui/models].  [JsonEquiv] has the equivalence of JSON values their
      properties are stated with, [ServersSpec] the lemmas, [ServersCorrect] the
      properties.
    - [PacketFilter]: the command [iptables] and the kernel's walk over its chains.
      [LinuxFirewall] models [linuxfirewall.cpp], [WireguardLinux] models
      [wireguardutilslinux.cpp] and [linuxroutemonitor.cpp], [LinuxDaemon] models
      [linuxdaemon.h], all of [src/client/platforms/linux/daemon]; [IpcServer]
      models the kill switch of [src/ipc/ipcserver.cpp].  [LinuxFirewallSpec]
      describes the chains they make, [KillSwitch] what the kernel then does to
      packets, [KillSwitchCorrect] and [WireguardLinuxSpec] hold the properties, and
      [SimLinux] is a concrete host.
    - [Router] models [src/service/server/router_linux.cpp] and the parts of networks
      of [networkUtilities.cpp].
    - [Connection] models [vpnconnection.cpp] (Module [Conn]), the states of
      [vpnprotocol.cpp] and [wireguardprotocol.cpp], and
      [src/client/ui/controllers/connectionController.cpp] (Module [Controller]); the
      two threads with the queues between them are the relation [step].
      [ConnectionSpec] holds their properties.
    - [OpenVpn] models [src/client/protocols/openvpnprotocol.cpp] and
      [src/client/managementserver.cpp]; its members are the record [OpenVpn], and it is
      an instance of the class [ProtocolEnv] the connection is written over.
      [OpenVpnSpec] holds its properties.
    - [RemoteServer] models [src/client/core/controllers/serverController.cpp] (Module
      [ServerCtrl]; its members are the record [Server]) and the names of scripts of
      [src/client/core/scripts_registry.cpp]; libssh is the class [Ssh].  [RemoteSpec]
      says what the commands of the program do to the containers of a server (the class
      [MachineLaws] over the state [View]) and has the logic of programs that run them,
      [SimRemote] is a server that carries the commands out, and [RemoteCorrect] holds
      the properties.
    - [WgConfigurator] models [wireguard_configurator.cpp], [awg_configurator.cpp] and
      [configurator_base.cpp] of [src/client/configurators], [Clients] models
      [src/client/ui/models/clientManagementModel.cpp], whose table is the state.
      [WgAddresses] has the lemmas on the text of the configuration file, [ClientsSpec]
      the invariant of the file, [ClientsCorrect] the properties.
    - [src/client/3rd/qrcodegen/qrcodegen.cpp] is modelled by four files over
      [Cxx], a monad [exc] of C++ exceptions with its loops and checked vectors:
      [ReedSolomon] (the error correction code, its algebra and its distance),
      [QrSegment] (the class of that name), [QrCode] (the class of that name) and
      [QrSvg] ([toSvgString]).  What [QrCode] does is proved in [QrMatrix] (grids
      of modules), [QrDraw] (the zigzag scan), [QrLayout] (the patterns of the
      standard), [QrCapacity] (the modules left for data), [QrPenalty],
      [QrBlocks] (codewords and their blocks), [QrSymbol] (the constructor) and
      [QrText] (encoding, and a reader of symbols).
    - [QrSeries] models the series of QR codes of [exportController.cpp] and
      [importController.cpp] in [src/client/ui/controllers].

    ** Conventions

    A function of the source is a definition of the same name.  What a function
    does to the outside is logged as events, in order.  Code outside the
    repository (Qt, the installer framework, the operating system) is a class of
    operations over an abstract world; what its documentation promises is a
    separate class of laws ([QtLaws], [PlatformLaws], [JsonTextLaws],
    [SecretLaws], [QtBytesLaws], [ArrayTextLaws], [ServerControllerLaws],
    [PacketFilterLaws], [SplittingLaws], [DestLaws], [LinuxHostLaws],
    [RouteTableLaws], [ProtocolLaws], [MachineLaws], [KeyLaws], [NumberLaws]), and the
    modules whose names begin with [Sim], the files [SimLinux] and [SimRemote] and the
    instance [SimBytes] are concrete instances on which the definitions run.  Two
    classes single out well-behaved servers: [WholeLines], whose output arrives in whole
    lines, and [Dependable], whose connection does not break.  Log output is left out, and [Q_ASSERT] has no effect, as in a release build.  In
    [qrcodegen] an [assert] that fails and an access outside a vector are
    exceptions of their own, so that a theorem that a result is returned also
    shows that neither occurs.

    ** What the theorems show

    - Daemon ([DaemonSpec]): activation always returns and ends in a recorded
      connection with a running timer or in the failure signal; the order of a
      successful activation; what deactivation undoes; the reference counts of
      excluded addresses equal the exclusions of the active connections in every
      healthy run; the handshake poll and the status report.
    - Local socket ([LocalSocketSpec]): however the bytes are split each message
      is handled once and in order; an activation request is answered; the
      configuration the daemon parses is the one the user asked for; the
      initial status exchange; the bound on connection attempts.
    - Networks ([IPAddress]): containment, masks and halving mean what they say
      on the sets of addresses, and subtraction gives exactly the difference,
      one network from another in parts that do not overlap.
    - Configuration ([InterfaceConfig]): which requests are accepted, the round
      trip through JSON, and the lines of the WireGuard configuration.
    - Settings ([SecureSettings]): nothing under the key of the server list is
      ever written in the clear, what is written is read back by this run and the
      next, and the settings of old versions are converted without loss.
    - Split tunnelling ([SplitTunnelSpec]): the choices in the settings are those
      of the daemon's configuration, and the list on the screen is the list in the
      settings.
    - Servers ([ServersCorrect]): the models show the servers of the settings after
      every operation; the default server survives a removal at its new place, the
      default container is installed or none; containers and protocols are read back
      as they were set; the server of an old version is imported.
    - Linux ([KillSwitchCorrect], [WireguardLinuxSpec]): with the kill switch on no
      packet leaves outside the tunnel but those the configuration allows; the daemon
      with this back end puts the firewall in place and takes it away; the messages
      to the kernel fit their buffer; the answers of the tunnel process are read back.
    - Connections ([ConnectionSpec]): in every interleaving of both threads the button
      requests what its state calls for, and the flags and text are those of the state;
      what connecting with WireGuard asks of the daemon and shows; no route that was
      added for a session is left behind by its end, by composition with [Router].
    - OpenVPN ([OpenVpnSpec]): what the lines of the process make of the routes, the kill
      switch and the state of the connection; every reading of the socket ends.
    - Servers over SSH ([RemoteCorrect]): which commands a script becomes; files are read
      back from a container as they were put there; the wait for the package manager is
      bounded.
    - Clients ([ClientsCorrect]): a new client gets a free address and its section on the
      server, a revoked one loses it and no other does; in every sequence of these
      operations, failures included, the addresses are distinct.
    - Installer ([ControlScript], [ComponentScript]): an old installation is
      removed only after the user's consent, the wizard goes on only when the
      application is not running, termination, the operations of each platform
      and the span of the administrator rights.
    - QR codes: the arithmetic is that of a field, so that blocks of the code
      differ in more places than they have error correction codewords
      ([ReedSolomon], [QrBlocks]); function patterns and capacities are those of
      the standard in all 40 versions ([QrLayout], [QrCapacity]); the constructor
      returns a well-formed symbol with the mask of lowest penalty on every valid
      input and throws the documented exceptions on the others ([QrSymbol]); a
      reader of the standard gets the text back from the symbol, which has the
      smallest version possible ([QrText]); the image shows the symbol ([QrSvg]);
      and a configuration exported as a series is imported unchanged, in whatever
      order its codes are scanned ([QrSeries]).
    - Some theorems record behaviour that departs from what the code intends: a
      server switch keeps an excluded network's route, subtracting a network
      with host bits set does not end, the exit status of the 32-bit uninstaller
      is ignored, one resolver is not checked before it is written, a controller
      that meets a tunnel awaiting its handshake never reports being
      initialised, an IPv6 site without a prefix length becomes a /32, a failed
      conversion of old settings is marked as done, a site whose address
      changes is listed twice, an import loses the server when the key storage
      refuses, the resolvers of the wrong server are used, the kill switch of the
      privileged service changes nothing, deleting a route inserts one, a failed
      attempt to connect blocks the button, edits of the sites do not reach the
      routes of a WireGuard connection, stopping OpenVPN does not signal its process, a
      line the socket splits is lost, text that is appended to a file of a container
      stays in its temporary directory, an address is given twice when output is not cut
      at line ends, and revoking a client without an id removes the interface.

    ** Fuel

    Loops that are not structural take fuel and return [OutOfFuel] without it.
    [activate] calls itself at most once, so 2 is enough, as
    is proved.  Subtracting a network halves at most once per bit of prefix, so
    128 is enough for every network inside another,
    host bits clear; with host bits set in the excluded network the source's
    loop does not end.  The readers take at most one
    step per byte and chunk, the reader of the management socket included.  The search
    for its port ends after 100 tries and the wait for the package manager after 30, as
    in the source.  In [QrCode] the columns of a symbol, the padding
    bytes and the search for a version are bounded by the size, the capacity and
    the number of versions; the chunks of a series by the bytes; the results
    above are proved of these bounds, so none is ever reached.  The search for a free
    name of a server needs one step more than there are servers.  The kernel's walk
    over the chains takes a depth, which the tree of the firewall never exceeds; the
    two loops that wait for the tunnel process end with their timer, after any number
    [timerPasses] of passes.  The clock loop of [sleep] and
    the Retry loop of the installer end when the clock advances and the user
    stops retrying.

    ** Not modelled

    The platform back ends for macOS and Windows and the rest of the privileged service
    are system calls; the SSH client and the API controller wrap libssh and HTTP.  The
    protocol classes but [WireguardProtocol] and [OpenVpnProtocol] start further
    processes, and the connection meets them through the class [ProtocolEnv].  The
    Android and Apple clients wrap the systems' VPN interfaces; the QML pages, the
    translation catalogues and the server scripts are declarative data or shell code.
    The configurators but those of WireGuard and AmneziaWG make certificates with OpenSSL
    or fill a template with what one command printed.  The serialization of links, and
    the import of files and links that rests on it, is written in terms of [QUrl] and
    [QUrlQuery]: with these as parameters little of the code is left to prove.  The
    controllers of the user interface connect its pages with the models and the server
    controller and are left out, and so is [migrations.cpp], which moves the files of
    earlier versions.  The event
    loops the code runs while it waits (for the tunnel process, for a configuration)
    serve no other events in the model.  The progress bar of the QR code scanner is a
    floating-point number and is left out; its text is modelled. *)

From stdpp Require Import prelude strings gmap list_numbers.
From Stdlib Require Import ZArith Lia.

#[global] Arguments String.append _ _ : simpl nomatch.

(** The string contains the character. *)
Fixpoint has_char (c : Ascii.ascii) (s : string) : bool :=
  match s with
  | EmptyString => false
  | String d s => Ascii.eqb c d || has_char c s
  end.

(** ** Strings *)

Lemma sapp_nil_r s : s +:+ "" = s.
Proof. induction s; simpl; congruence. Qed.
Lemma sapp_assoc s1 s2 s3 : (s1 +:+ s2) +:+ s3 = s1 +:+ (s2 +:+ s3).
Proof. induction s1; simpl; congruence. Qed.
Lemma sapp_length s1 s2 : String.length (s1 +:+ s2) = (String.length s1 + String.length s2)%nat.
Proof. induction s1; simpl; lia. Qed.

Lemma has_char_app c s1 s2 : has_char c (s1 +:+ s2) = has_char c s1 || has_char c s2.
Proof. induction s1 as [|d s1 IH]; [done|]. simpl. by rewrite IH, orb_assoc. Qed.

(** ** Bytes *)

Definition byte (b : Z) : Prop := (0 <= b < 256)%Z.

Definition bytes : list Z := seqZ 0 256.

(** A property of bytes that can be evaluated holds if it does on all of them. *)
Lemma bytes_spec (P : Z → bool) x : byte x → forallb P bytes = true → P x = true.
Proof.
  unfold byte, bytes. intros Hx HP. rewrite forallb_forall in HP. apply HP.
  rewrite <- list_elem_of_In, elem_of_seqZ. lia.
Qed.

(** ** Results of effectful code *)

(** [Ok] is a normal return, [Err] an exception that leaves the function, and
    [OutOfFuel] a loop that was cut off by its bound. *)
Inductive res (E A : Type) : Type :=
| Ok (a : A)
| Err (e : E)
| OutOfFuel.
Arguments Ok {E A} a.
Arguments Err {E A} e.
Arguments OutOfFuel {E A}.

(** ** A state, exception and event-log monad

    [M St Ev E A] is code that reads and writes a state [St], performs the
    externally visible actions [Ev] in order and returns a [res E A].  The log
    of a run lists only the actions of that run, oldest first. *)
Definition M (St Ev E A : Type) : Type := St → res E A * St * list Ev.

Section LogMonad.
  Context {St Ev E : Type}.

#[global] Instance M_ret : MRet (M St Ev E) := λ A a s, (Ok a, s, []).

#[global] Instance M_bind : MBind (M St Ev E) := λ A B k m s,
  match m s with
  | (Ok a, s1, t1) => match k a s1 with (r, s2, t2) => (r, s2, t1 ++ t2) end
  | (Err e, s1, t1) => (Err e, s1, t1)
  | (OutOfFuel, s1, t1) => (OutOfFuel, s1, t1)
  end.

Definition gets {A} (f : St → A) : M St Ev E A := λ s, (Ok (f s), s, []).
Definition modify (f : St → St) : M St Ev E unit := λ s, (Ok tt, f s, []).
Definition emit (e : Ev) : M St Ev E unit := λ s, (Ok tt, s, [e]).
Definition throw {A} (e : E) : M St Ev E A := λ s, (Err e, s, []).
Definition out_of_fuel {A} : M St Ev E A := λ s, (OutOfFuel, s, []).

(** [when b m] is an [if] statement without an [else]. *)
Definition when (b : bool) (m : M St Ev E unit) : M St Ev E unit :=
  if b then m else mret tt.

(** A [for] loop over the elements of a list, in order. *)
Fixpoint for_each {A} (l : list A) (f : A → M St Ev E unit) : M St Ev E unit :=
  match l with
  | [] => mret tt
  | x :: l => f x ≫= λ _, for_each l f
  end.

Definition result_of {A} (x : res E A * St * list Ev) : res E A := x.1.1.
Definition state_of {A} (x : res E A * St * list Ev) : St := x.1.2.
Definition log_of {A} (x : res E A * St * list Ev) : list Ev := x.2.

(** *** Weakest preconditions *)

Definition wp {A} (m : M St Ev E A) (Q : res E A → St → list Ev → Prop) (s : St) : Prop :=
  match m s with (r, s', t) => Q r s' t end.

(** What follows a bind, given the outcome of its first part. *)
Definition after {A B} (k : A → M St Ev E B) (Q : res E B → St → list Ev → Prop)
    (r : res E A) (s : St) (t : list Ev) : Prop :=
  match r with
  | Ok a => wp (k a) (λ r' s' t', Q r' s' (t ++ t')) s
  | Err e => Q (Err e) s t
  | OutOfFuel => Q OutOfFuel s t
  end.

Lemma wp_bind {A B} (m : M St Ev E A) (k : A → M St Ev E B) Q s :
  wp m (after k Q) s → wp (m ≫= k) Q s.
Proof.
  unfold wp, after, mbind, M_bind. destruct (m s) as [[[a|e|] s1] t1]; auto.
  unfold wp. destruct (k a s1) as [[r2 s2] t2]. auto.
Qed.

Lemma wp_mono {A} (m : M St Ev E A) (Q Q' : res E A → St → list Ev → Prop) s :
  wp m Q s → (∀ r s' t, Q r s' t → Q' r s' t) → wp m Q' s.
Proof. unfold wp. destruct (m s) as [[r s'] t]. auto. Qed.

Lemma wp_ret {A} (a : A) (Q : res E A → St → list Ev → Prop) s : Q (Ok a) s [] → wp (mret a) Q s.
Proof. done. Qed.
Lemma wp_gets_bind {A B} (f : St → A) (k : A → M St Ev E B) Q s :
  wp (k (f s)) Q s → wp (gets f ≫= k) Q s.
Proof. intros H. by apply wp_bind. Qed.
Lemma wp_modify_bind {B} (f : St → St) (k : unit → M St Ev E B) Q s :
  wp (k tt) Q (f s) → wp (modify f ≫= k) Q s.
Proof. intros H. by apply wp_bind. Qed.

(** The first part of a bind, known only through what it guarantees. *)
Lemma wp_bind_spec {A B} (P : St → list Ev → Prop) (m : M St Ev E A) (k : A → M St Ev E B) Q s :
  wp m (λ r s' t, match r with Ok _ => P s' t | Err e => Q (Err e) s' t | OutOfFuel => Q OutOfFuel s' t end) s →
  (∀ a s' t, P s' t → wp (k a) (λ r' s'' t', Q r' s'' (t ++ t')) s') →
  wp (m ≫= k) Q s.
Proof. intros Hm Hk. apply wp_bind. eapply wp_mono; [exact Hm|]. intros [a|e|] s' t; simpl; auto. Qed.

Lemma wp_any {A} (m : M St Ev E A) (Q : res E A → St → list Ev → Prop) s :
  (∀ r s' t, Q r s' t) → wp m Q s.
Proof. intros H. unfold wp. by destruct (m s) as [[r s'] t]. Qed.

Lemma wp_and {A} (m : M St Ev E A) (Q1 Q2 : res E A → St → list Ev → Prop) s :
  wp m Q1 s → wp m Q2 s → wp m (λ r s' t, Q1 r s' t ∧ Q2 r s' t) s.
Proof. unfold wp. destruct (m s) as [[r s'] t]. auto. Qed.

(** A run of known parts. *)
Lemma run_bind {A B} (m : M St Ev E A) (k : A → M St Ev E B) s a s1 t1 r s2 t2 :
  m s = (Ok a, s1, t1) → k a s1 = (r, s2, t2) → (m ≫= k) s = (r, s2, t1 ++ t2).
Proof. unfold mbind, M_bind. intros -> E2. by rewrite E2. Qed.

(** *** Total correctness: the run returns, with [Q] of the value and the state *)

Definition gives {A} (m : M St Ev E A) (Q : A → St → Prop) (s : St) : Prop :=
  wp m (λ r s' _, ∃ a, r = Ok a ∧ Q a s') s.

Lemma gives_run {A} (m : M St Ev E A) Q s : gives m Q s ↔ ∃ a s' t, m s = (Ok a, s', t) ∧ Q a s'.
Proof.
  unfold gives, wp. destruct (m s) as [[r s1] t1]. split.
  - intros (a & -> & H). by exists a, s1, t1.
  - intros (a & s' & t & [= -> -> ->] & H). by exists a.
Qed.

Lemma gives_mono {A} (m : M St Ev E A) (Q Q' : A → St → Prop) s :
  gives m Q s → (∀ a s', Q a s' → Q' a s') → gives m Q' s.
Proof. intros H HQ. eapply wp_mono; [exact H|]. intros r s' t (a & -> & Ha). exists a. auto. Qed.

Lemma gives_bind {A B} (m : M St Ev E A) (k : A → M St Ev E B) Q s :
  gives m (λ a s', gives (k a) Q s') s → gives (m ≫= k) Q s.
Proof.
  intros H. apply wp_bind. eapply wp_mono; [exact H|]. intros r s' t (a & -> & Ha). cbn.
  eapply wp_mono; [exact Ha|]. by intros r' s'' t' ?.
Qed.

Lemma gives_ret {A} (a : A) (Q : A → St → Prop) s : Q a s → gives (mret a) Q s.
Proof. intros H. by exists a. Qed.
Lemma gives_gets {A} (f : St → A) (Q : A → St → Prop) s : Q (f s) s → gives (gets f) Q s.
Proof. intros H. by exists (f s). Qed.
Lemma gives_modify (f : St → St) (Q : unit → St → Prop) s : Q tt (f s) → gives (modify f) Q s.
Proof. intros H. by exists tt. Qed.
Lemma gives_emit e (Q : unit → St → Prop) s : Q tt s → gives (emit e) Q s.
Proof. intros H. by exists tt. Qed.
Lemma gives_when (b : bool) (m : M St Ev E unit) (Q : unit → St → Prop) s :
  (b = true → gives m Q s) → (b = false → Q tt s) → gives (when b m) Q s.
Proof. destruct b; cbn; [auto|]. intros _ H. apply gives_ret. auto. Qed.

(** *** Every action of a run satisfies [P] *)

Definition emits {A} (P : Ev → Prop) (m : M St Ev E A) : Prop :=
  ∀ s, Forall P (log_of (m s)).

Lemma emits_ret {A} P (a : A) : emits P (mret a : M St Ev E A).
Proof. intros s. constructor. Qed.

Lemma emits_bind {A B} P (m : M St Ev E A) (k : A → M St Ev E B) :
  emits P m → (∀ a, emits P (k a)) → emits P (m ≫= k).
Proof.
  intros Hm Hk s. unfold log_of, mbind, M_bind. specialize (Hm s). unfold log_of in Hm.
  destruct (m s) as [[[a|e|] s1] t1]; simpl in *; auto.
  specialize (Hk a s1). unfold log_of in Hk. destruct (k a s1) as [[r s2] t2]; simpl in *.
  by apply Forall_app.
Qed.

Lemma emits_gets {A} P (f : St → A) : emits P (gets f).
Proof. intros s. constructor. Qed.
Lemma emits_modify P (f : St → St) : emits P (modify f).
Proof. intros s. constructor. Qed.
Lemma emits_emit (P : Ev → Prop) e : P e → emits P (emit e).
Proof. intros H s. by repeat constructor. Qed.
Lemma emits_throw {A} P e : emits P (throw e : M St Ev E A).
Proof. intros s. constructor. Qed.
Lemma emits_oof {A} P : emits P (out_of_fuel : M St Ev E A).
Proof. intros s. constructor. Qed.
Lemma emits_if {A} P (b : bool) (m1 m2 : M St Ev E A) :
  emits P m1 → emits P m2 → emits P (if b then m1 else m2).
Proof. destruct b; simpl; auto. Qed.
Lemma emits_when P (b : bool) (m : M St Ev E unit) : emits P m → emits P (when b m).
Proof. destruct b; simpl; [done|]. intros _. apply emits_ret. Qed.
Lemma emits_for_each {A} P (l : list A) (f : A → M St Ev E unit) :
  (∀ x, emits P (f x)) → emits P (for_each l f).
Proof. intros Hf. induction l; simpl; [apply emits_ret | by apply emits_bind]. Qed.

(** *** A run keeps a state predicate, whatever its outcome *)

Definition keeps {A} (I : St → Prop) (m : M St Ev E A) : Prop :=
  ∀ s, I s → I (state_of (m s)).

Lemma keeps_ret {A} I (a : A) : keeps I (mret a : M St Ev E A).
Proof. by intros s. Qed.
Lemma keeps_bind {A B} I (m : M St Ev E A) (k : A → M St Ev E B) :
  keeps I m → (∀ a, keeps I (k a)) → keeps I (m ≫= k).
Proof.
  intros Hm Hk s HI. unfold state_of, mbind, M_bind. specialize (Hm s HI). unfold state_of in Hm.
  destruct (m s) as [[[a|e|] s1] t1]; simpl in *; auto.
  specialize (Hk a s1 Hm). unfold state_of in Hk. by destruct (k a s1) as [[r s2] t2].
Qed.
Lemma keeps_gets {A} I (f : St → A) : keeps I (gets f).
Proof. by intros s. Qed.
Lemma keeps_emit I e : keeps I (emit e).
Proof. by intros s. Qed.
Lemma keeps_if {A} I (b : bool) (m1 m2 : M St Ev E A) :
  keeps I m1 → keeps I m2 → keeps I (if b then m1 else m2).
Proof. destruct b; simpl; auto. Qed.
Lemma keeps_when I (b : bool) (m : M St Ev E unit) : keeps I m → keeps I (when b m).
Proof. destruct b; simpl; [done|]. intros _. apply keeps_ret. Qed.
Lemma keeps_for_each {A} I (l : list A) (f : A → M St Ev E unit) :
  (∀ x, keeps I (f x)) → keeps I (for_each l f).
Proof. intros Hf. induction l; simpl; [apply keeps_ret | by apply keeps_bind]. Qed.

(** *** Convergence of fuelled code

    From some bound on, more fuel changes nothing and the run is complete; [Q]
    holds of the value and state of a normal return. *)
Definition converges {A} (m : nat → M St Ev E A) (Q : A → St → Prop) (s : St) : Prop :=
  ∃ x n0, result_of x ≠ OutOfFuel ∧ (∀ n, (n0 ≤ n)%nat → m n s = x) ∧
    ∀ a, result_of x = Ok a → Q a (state_of x).

Lemma converges_bind {A B} (m : nat → M St Ev E A) (k : nat → A → M St Ev E B) Q R s :
  converges m Q s → (∀ a s', Q a s' → converges (λ n, k n a) R s') →
  converges (λ n, m n ≫= k n) R s.
Proof.
  intros ([[r s1] t1] & n1 & Hr & Hm & HQ) Hk. destruct r as [a|e|]; [|exists (Err e, s1, t1), n1|done].
  - destruct (Hk a s1 (HQ a eq_refl)) as ([[r2 s2] t2] & n2 & Hr2 & Hm2 & HR).
    exists (r2, s2, t1 ++ t2), (n1 `max` n2)%nat. split_and!; [done| |done].
    intros n Hn. unfold mbind, M_bind. rewrite Hm, Hm2 by lia. done.
  - split_and!; [done| |done]. intros n Hn. unfold mbind, M_bind. by rewrite Hm.
Qed.

Lemma converges_mono {A} (m : nat → M St Ev E A) (Q Q' : A → St → Prop) s :
  converges m Q s → (∀ a s', Q a s' → Q' a s') → converges m Q' s.
Proof. intros (x & n0 & ? & ? & ?) HQ. exists x, n0. eauto. Qed.

(** One unit of fuel more does not matter. *)
Lemma converges_shift {A} (m : nat → M St Ev E A) Q s :
  converges (λ n, m (S n)) Q s → converges m Q s.
Proof.
  intros (x & n0 & ? & Hm & ?). exists x, (S n0). split_and!; [done| |done].
  intros [|n] Hn; [lia|]. apply Hm. lia.
Qed.

Lemma converges_const {A} (m : M St Ev E A) (Q : A → St → Prop) s :
  wp m (λ r s' _, match r with Ok a => Q a s' | Err _ => True | OutOfFuel => False end) s →
  converges (λ _, m) Q s.
Proof.
  unfold wp. intros H. exists (m s), O. destruct (m s) as [[r s'] t]. unfold result_of, state_of; simpl.
  split_and!; [by intros -> | done | by intros a ->].
Qed.

Lemma wp_keeps {A} I (m : M St Ev E A) s : keeps I m → I s → wp m (λ _ s' _, I s') s.
Proof. intros H HI. specialize (H s HI). unfold wp, state_of in *. by destruct (m s) as [[r s'] t]. Qed.

Lemma wp_emits {A} P (m : M St Ev E A) s : emits P m → wp m (λ _ _ t, Forall P t) s.
Proof. intros H. specialize (H s). unfold wp, log_of in *. by destruct (m s) as [[r s'] t]. Qed.

End LogMonad.

(** ** Code that runs against an outside world *)

(** The state of such code: its own variables [G] and the world [W]. *)
Record Sys (G W : Type) := mkSys { globals : G; world : W }.
Arguments mkSys {G W} globals world.
Arguments globals {G W} s.
Arguments world {G W} s.

Section World.
  Context {G W Ev E : Type}.

(** A read of the world, an action on it, and an action that answers. *)
Definition query {A} (f : W → A) : M (Sys G W) Ev E A := gets (λ s, f (world s)).
Definition act (f : W → W) (e : Ev) : M (Sys G W) Ev E unit := λ s,
  (Ok tt, mkSys (globals s) (f (world s)), [e]).
Definition ask {A} (f : W → A * W) (e : A → Ev) : M (Sys G W) Ev E A := λ s,
  let '(a, w) := f (world s) in (Ok a, mkSys (globals s) w, [e a]).

(** Calls that only answer queries or act as told leave the globals alone. *)
Lemma keeps_query {A} (I : G → Prop) (f : W → A) : keeps (λ s, I (globals s)) (query f).
Proof. by intros s. Qed.
Lemma keeps_act (I : G → Prop) f e : keeps (λ s, I (globals s)) (act f e).
Proof. by intros s. Qed.
Lemma keeps_ask {A} (I : G → Prop) (f : W → A * W) e : keeps (λ s, I (globals s)) (ask f e).
Proof. intros s HI. unfold state_of, ask. by destruct (f (world s)). Qed.

Lemma emits_query {A} P (f : W → A) : emits P (query f).
Proof. intros s. constructor. Qed.
Lemma emits_act (P : Ev → Prop) f e : P e → emits P (act f e).
Proof. intros H s. by repeat constructor. Qed.
Lemma emits_ask {A} (P : Ev → Prop) (f : W → A * W) e : (∀ a, P (e a)) → emits P (ask f e).
Proof. intros H s. unfold log_of, ask. destruct (f (world s)). simpl. by repeat constructor. Qed.

Lemma wp_query_bind {A B} (f : W → A) (k : A → M (Sys G W) Ev E B) Q s :
  wp (k (f (world s))) Q s → wp (query f ≫= k) Q s.
Proof. intros H. by apply wp_bind. Qed.
Lemma wp_act_bind {B} f e (k : unit → M (Sys G W) Ev E B) Q s :
  wp (k tt) (λ r s' t, Q r s' (e :: t)) (mkSys (globals s) (f (world s))) → wp (act f e ≫= k) Q s.
Proof. intros H. by apply wp_bind. Qed.
Lemma wp_ask_bind {A B} (f : W → A * W) e (k : A → M (Sys G W) Ev E B) Q s :
  (∀ a w, f (world s) = (a, w) → wp (k a) (λ r s' t, Q r s' (e a :: t)) (mkSys (globals s) w)) →
  wp (ask f e ≫= k) Q s.
Proof.
  intros H. apply wp_bind. unfold wp at 1, ask. destruct (f (world s)) as [a w] eqn:Hf.
  by apply H.
Qed.

End World.

Create HintDb logm.
#[export] Hint Resolve emits_ret emits_bind emits_gets emits_modify emits_throw emits_oof
  emits_if emits_when emits_for_each : logm.
#[export] Hint Resolve keeps_ret keeps_bind keeps_gets keeps_emit keeps_if keeps_when
  keeps_for_each : logm.

(** Runs the monad on a concrete or partly concrete state. *)
Ltac run_m := unfold mbind, mret, M_bind, M_ret, gets, modify, emit, throw, out_of_fuel, when; simpl.
Tactic Notation "run_m" "in" "*" :=
  unfold mbind, mret, M_bind, M_ret, gets, modify, emit, throw, out_of_fuel, when in *; simpl in *.
