(* ===== verification/JsRuntime.v ===== *)
(** * The ECMAScript built-ins used by the installer scripts

    The scripts under [src/deploy/installer] use a handful of string methods
    and the [Number] conversion.  They are written out here as the language
    defines them; a string is a sequence of code units and the units the
    scripts inspect (white space, digits, newlines, slashes) are ASCII.
    Numbers are exact decimals: rounding to binary64 is not modelled. *)

From stdpp Require Import prelude strings pretty.
From Stdlib Require Import ZArith Lia Ascii String.
From S2P Require Import Prelude.

(** ** Searching *)

Fixpoint sdrop (n : nat) (s : string) : string :=
  match n, s with
  | O, _ => s
  | S _, EmptyString => EmptyString
  | S n, String _ s => sdrop n s
  end.

(** First occurrence of [search] in the tail [s] that starts at [pos]. *)
Fixpoint find_at (search s : string) (pos : nat) : option nat :=
  if String.prefix search s then Some pos
  else match s with
       | EmptyString => None
       | String _ s' => find_at search s' (S pos)
       end.

(** [str.indexOf(search, from)] *)
Definition js_indexOf (s search : string) (from : Z) : Z :=
  let start := Z.to_nat (Z.min (Z.max from 0) (Z.of_nat (String.length s))) in
  match find_at search (sdrop start s) start with
  | Some i => Z.of_nat i
  | None => -1
  end.

(** ** Trimming, splitting and replacing *)

Definition is_js_space (c : ascii) : bool :=
  let n := nat_of_ascii c in
  ((9 <=? n) && (n <=? 13) || (n =? 32) || (n =? 160))%nat.

Fixpoint trim_start (s : string) : string :=
  match s with
  | String c s' => if is_js_space c then trim_start s' else s
  | EmptyString => EmptyString
  end.

Fixpoint trim_end (s : string) : string :=
  match s with
  | EmptyString => EmptyString
  | String c s' =>
      match trim_end s' with
      | EmptyString => if is_js_space c then EmptyString else String c EmptyString
      | r => String c r
      end
  end.

(** [str.trim()] *)
Definition js_trim (s : string) : string := trim_end (trim_start s).

Definition newline : ascii := "010"%char.

(** [str.split(/\n+/)]: [skip] holds inside a run of newlines. *)
Fixpoint split_lines_go (s cur : string) (skip : bool) : list string :=
  match s with
  | EmptyString => [cur]
  | String c s' =>
      if Ascii.eqb c newline then
        if skip then split_lines_go s' cur true
        else cur :: split_lines_go s' EmptyString true
      else split_lines_go s' (cur +:+ String c EmptyString) false
  end.
Definition js_split_lines (s : string) : list string := split_lines_go s EmptyString false.

(** [str.replace(/a/g, b)] for single code units. *)
Fixpoint js_replace_all (a b : ascii) (s : string) : string :=
  match s with
  | EmptyString => EmptyString
  | String c s' => String (if Ascii.eqb c a then b else c) (js_replace_all a b s')
  end.

(** ** Numbers *)

(** [Dec m e] is the finite number [m * 10^e]. *)
Inductive jsnum :=
| NaN
| PosInf
| NegInf
| Dec (m e : Z).

Definition digit_of (c : ascii) : option Z :=
  let n := nat_of_ascii c in
  if ((48 <=? n) && (n <=? 57))%nat then Some (Z.of_nat n - 48)%Z else None.

Definition hex_digit_of (c : ascii) : option Z :=
  let n := nat_of_ascii c in
  if ((48 <=? n) && (n <=? 57))%nat then Some (Z.of_nat n - 48)%Z
  else if ((65 <=? n) && (n <=? 70))%nat then Some (Z.of_nat n - 55)%Z
  else if ((97 <=? n) && (n <=? 102))%nat then Some (Z.of_nat n - 87)%Z
  else None.

(** Reads a run of decimal digits: value, number of digits, rest. *)
Fixpoint read_digits (s : string) (acc : Z) (k : nat) : Z * nat * string :=
  match s with
  | String c s' =>
      match digit_of c with
      | Some d => read_digits s' (acc * 10 + d)%Z (S k)
      | None => (acc, k, s)
      end
  | EmptyString => (acc, k, s)
  end.

(** All of [s] as digits below [base]. *)
Fixpoint read_radix (base : Z) (s : string) (acc : Z) : option Z :=
  match s with
  | EmptyString => Some acc
  | String c s' =>
      match hex_digit_of c with
      | Some d => if (d <? base)%Z then read_radix base s' (acc * base + d)%Z else None
      | None => None
      end
  end.

(** The optional exponent part, which ends the literal. *)
Definition read_exponent (s : string) : option Z :=
  match s with
  | EmptyString => Some 0%Z
  | String c s' =>
      if Ascii.eqb c "e" || Ascii.eqb c "E" then
        let '(sign, s'') :=
          match s' with
          | String "-" r => ((-1)%Z, r)
          | String "+" r => (1%Z, r)
          | _ => (1%Z, s')
          end in
        match read_digits s'' 0 0 with
        | (v, S _, EmptyString) => Some (sign * v)%Z
        | _ => None
        end
      else None
  end.

(** A decimal literal without sign. *)
Definition read_decimal (s : string) : jsnum :=
  let '(ip, k, rest) := read_digits s 0 0 in
  let '(m, f, total, rest) :=
    match rest with
    | String "." r => let '(m, f, r') := read_digits r ip 0 in (m, f, (k + f)%nat, r')
    | _ => (ip, O, k, rest)
    end in
  match total, read_exponent rest with
  | S _, Some e => Dec m (e - Z.of_nat f)
  | _, _ => NaN
  end.

Definition negate (x : jsnum) : jsnum :=
  match x with NaN => NaN | PosInf => NegInf | NegInf => PosInf | Dec m e => Dec (- m) e end.

Definition read_unsigned (s : string) : jsnum :=
  if String.eqb s "Infinity" then PosInf else read_decimal s.

Definition of_radix (base : Z) (s : string) : jsnum :=
  match s, read_radix base s 0 with
  | String _ _, Some v => Dec v 0
  | _, _ => NaN
  end.

(** [Number(str)] *)
Definition js_Number (s : string) : jsnum :=
  match js_trim s with
  | EmptyString => Dec 0 0
  | String "0" (String "x" r) | String "0" (String "X" r) => of_radix 16 r
  | String "0" (String "o" r) | String "0" (String "O" r) => of_radix 8 r
  | String "0" (String "b" r) | String "0" (String "B" r) => of_radix 2 r
  | String "+" r => read_unsigned r
  | String "-" r => negate (read_unsigned r)
  | r => read_unsigned r
  end.

(** [x >= k], [x > k] and [x === k] for an integer constant. *)
Definition num_cmp (x : jsnum) (k : Z) : option comparison :=
  match x with
  | NaN => None
  | PosInf => Some Gt
  | NegInf => Some Lt
  | Dec m e =>
      Some (if (0 <=? e)%Z then (m * 10 ^ e ?= k)%Z else (m ?= k * 10 ^ (- e))%Z)
  end.
Definition num_geb (x : jsnum) (k : Z) : bool :=
  match num_cmp x k with Some Lt | None => false | _ => true end.
Definition num_gtb (x : jsnum) (k : Z) : bool :=
  match num_cmp x k with Some Gt => true | _ => false end.
Definition num_eqb (x : jsnum) (k : Z) : bool :=
  match num_cmp x k with Some Eq => true | _ => false end.

(** Decimal digits of a positive integer, and their number. *)
Definition digits_of (m : Z) : string := pretty (Z.to_N m).

(** Removes the factors of ten of [m], moving them to the exponent. *)
Fixpoint strip_zeros (fuel : nat) (m e : Z) : Z * Z :=
  match fuel with
  | O => (m, e)
  | S fuel => if (m mod 10 =? 0)%Z then strip_zeros fuel (m / 10) (e + 1) else (m, e)
  end.

Fixpoint zeros (n : nat) : string :=
  match n with O => "" | S n => String "0" (zeros n) end.

Definition stake (n : nat) (s : string) : string := String.substring 0 n s.

(** [Number.prototype.toString] for a positive finite number. *)
Definition show_positive (m e : Z) : string :=
  let '(m, e) := strip_zeros (String.length (digits_of m)) m e in
  let ds := digits_of m in
  let k := Z.of_nat (String.length ds) in
  let n := (k + e)%Z in
  if ((k <=? n) && (n <=? 21))%Z then ds +:+ zeros (Z.to_nat (n - k))
  else if ((0 <? n) && (n <=? 21))%Z then stake (Z.to_nat n) ds +:+ "." +:+ sdrop (Z.to_nat n) ds
  else if ((-6 <? n) && (n <=? 0))%Z then "0." +:+ zeros (Z.to_nat (- n)) +:+ ds
  else
    let ex := (if (0 <=? n - 1)%Z then "+" else "-") +:+ digits_of (Z.abs (n - 1)) in
    if (k =? 1)%Z then ds +:+ "e" +:+ ex
    else stake 1 ds +:+ "." +:+ sdrop 1 ds +:+ "e" +:+ ex.

Definition show_num (x : jsnum) : string :=
  match x with
  | NaN => "NaN"
  | PosInf => "Infinity"
  | NegInf => "-Infinity"
  | Dec m e =>
      if (m =? 0)%Z then "0"
      else if (m <? 0)%Z then "-" +:+ show_positive (- m) e
      else show_positive m e
  end.

Example show_num_pid : show_num (js_Number "1234") = "1234".
Proof. reflexivity. Qed.
Example show_num_frac : show_num (js_Number " 12.50e-1 ") = "1.25".
Proof. reflexivity. Qed.
Example show_num_big : show_num (js_Number "0x10") = "16" ∧ show_num (js_Number "1e22") = "1e+22".
Proof. split; reflexivity. Qed.

(** ** Facts about strings *)

Lemma prefix_app p s : String.prefix p s = true ↔ ∃ r, s = p +:+ r.
Proof.
  revert s. induction p as [|c p IH]; intros s; simpl.
  - split; [eauto | by destruct s].
  - destruct s as [|d s]; simpl.
    + split; [done | by intros [r ?]].
    + destruct (ascii_dec c d) as [->|Hne].
      * rewrite IH. split; intros [r Hr]; exists r; congruence.
      * split; [done | intros [r ?]; congruence].
Qed.

Lemma sdrop_app p s : sdrop (String.length p) (p +:+ s) = s.
Proof. induction p; simpl; auto. Qed.

Lemma sdrop_split n s : (n ≤ String.length s)%nat → ∃ p, s = p +:+ sdrop n s ∧ String.length p = n.
Proof.
  revert s. induction n as [|n IH]; intros s Hn; simpl.
  - by exists "".
  - destruct s as [|c s]; simpl in *; [lia|].
    destruct (IH s) as (p & Hp & Hl); [lia|]. exists (String c p). simpl. split; congruence.
Qed.

(** [find_at] succeeds exactly when the searched string occurs. *)
Lemma find_at_Some search s pos :
  is_Some (find_at search s pos) ↔ ∃ p r, s = p +:+ search +:+ r.
Proof.
  revert pos. induction s as [|c s IH]; intros pos; cbn [find_at].
  - destruct (String.prefix search "") eqn:Hp.
    + apply prefix_app in Hp as [r Hr]. split; [intros _; by exists "", r | intros _; by eexists].
    + split; [by intros [? ?] |]. intros (p & r & H).
      destruct p; [|done]. simpl in H. rewrite (proj2 (prefix_app _ _)) in Hp; [done | eauto].
  - destruct (String.prefix search (String c s)) eqn:Hp.
    + apply prefix_app in Hp as [r Hr]. split; [intros _; by exists "", r | intros _; by eexists].
    + rewrite IH. split.
      * intros (p & r & ->). by exists (String c p), r.
      * intros (p & r & H). destruct p as [|d p]; simpl in H.
        { rewrite (proj2 (prefix_app _ _)) in Hp; [done | eauto]. }
        injection H as -> H. eauto.
Qed.

(** [str.indexOf(search, 0) !== -1] is the substring test. *)
Lemma js_indexOf_spec s search from :
  (js_indexOf s search from ≠ -1)%Z ↔
  ∃ p r, sdrop (Z.to_nat (Z.min (Z.max from 0) (Z.of_nat (String.length s)))) s = p +:+ search +:+ r.
Proof.
  unfold js_indexOf. set (start := Z.to_nat _). rewrite <- (find_at_Some search _ start).
  destruct (find_at _ _ _) as [i|]; split.
  - intros _. by eexists.
  - intros _. lia.
  - done.
  - by intros [? ?].
Qed.

(** ** Facts about digit strings *)

Fixpoint sforall (P : ascii → bool) (s : string) : bool :=
  match s with EmptyString => true | String c s => P c && sforall P s end.

Definition is_digit (c : ascii) : bool := match digit_of c with Some _ => true | None => false end.

Lemma digit_not_space c : is_digit c = true → is_js_space c = false.
Proof. by destruct c as [[] [] [] [] [] [] [] []]. Qed.
Lemma digit_not_newline c : is_digit c = true → Ascii.eqb c newline = false.
Proof. by destruct c as [[] [] [] [] [] [] [] []]. Qed.

Lemma trim_end_nonspace s c : is_js_space c = false → trim_end (s +:+ String c "") = s +:+ String c "".
Proof.
  intros Hc. induction s as [|d s IH]; simpl; [by rewrite Hc|].
  rewrite IH. by destruct s.
Qed.

Lemma trim_end_space s c : is_js_space c = true → trim_end (s +:+ String c "") = trim_end s.
Proof. intros Hc. induction s as [|d s IH]; simpl; [by rewrite Hc|]. by rewrite IH. Qed.

Lemma sforall_snoc P s : s ≠ "" → sforall P s = true →
  ∃ s' c, s = s' +:+ String c "" ∧ P c = true.
Proof.
  induction s as [|c s IH]; simpl; intros Hne H; [done|].
  apply andb_prop in H as [Hc Hs]. destruct s as [|d s].
  - by exists "", c.
  - destruct IH as (s' & c' & Heq & Hc'); [done..|].
    exists (String c s'), c'. simpl. by rewrite Heq.
Qed.

Lemma trim_digits s : s ≠ "" → sforall is_digit s = true → js_trim s = s.
Proof.
  intros Hne Hs. unfold js_trim.
  assert (trim_start s = s) as ->.
  { destruct s as [|c s]; [done|]. simpl in *. apply andb_prop in Hs as [Hc _].
    by rewrite (digit_not_space _ Hc). }
  destruct (sforall_snoc _ _ Hne Hs) as (s' & c & -> & Hc).
  apply trim_end_nonspace. by apply digit_not_space.
Qed.

(** The value a digit string denotes, most significant digit first. *)
Fixpoint digits_value (s : string) (acc : Z) : Z :=
  match s with
  | EmptyString => acc
  | String c s => digits_value s (acc * 10 + default 0 (digit_of c))%Z
  end.

Lemma read_digits_all s acc k :
  sforall is_digit s = true →
  read_digits s acc k = (digits_value s acc, (k + String.length s)%nat, "").
Proof.
  revert acc k. induction s as [|c s IH]; intros acc k; simpl.
  - intros _. by rewrite Nat.add_0_r.
  - unfold is_digit at 1. intros H. apply andb_prop in H as [Hc Hs].
    destruct (digit_of c); [|done]. simpl. rewrite IH by done. do 2 f_equal. lia.
Qed.

(** [Number] of a non-empty digit string is its value. *)
Lemma js_Number_digits s :
  s ≠ "" → sforall is_digit s = true → js_Number s = Dec (digits_value s 0) 0.
Proof.
  intros Hne Hs. unfold js_Number. rewrite trim_digits by done.
  assert (read_unsigned s = Dec (digits_value s 0) 0) as Hread.
  { unfold read_unsigned, read_decimal. rewrite read_digits_all by done.
    destruct (String.eqb_spec s "Infinity") as [->|_]; [done|].
    destruct s as [|c s]; [done|]. reflexivity. }
  destruct s as [|c s]; [done|]. simpl in Hs. apply andb_prop in Hs as [Hc Hs].
  destruct c as [[] [] [] [] [] [] [] []]; try discriminate Hc; try exact Hread.
  destruct s as [|d s]; [exact Hread|]. simpl in Hs. apply andb_prop in Hs as [Hd Hs].
  destruct d as [[] [] [] [] [] [] [] []]; try discriminate Hd; exact Hread.
Qed.

(** ** Output made of decimal lines *)

Lemma pretty_N_char_digit x : (x < 10)%N → digit_of (pretty_N_char x) = Some (Z.of_N x).
Proof.
  intros Hx. assert (x = 0 ∨ x = 1 ∨ x = 2 ∨ x = 3 ∨ x = 4 ∨ x = 5 ∨ x = 6 ∨ x = 7 ∨ x = 8 ∨ x = 9)%N
    as Hc by lia. by repeat destruct Hc as [->|Hc]; [..|subst].
Qed.

Lemma pretty_N_go_digits x s :
  sforall is_digit s = true →
  sforall is_digit (pretty_N_go x s) = true ∧
  digits_value (pretty_N_go x s) 0 = digits_value s (Z.of_N x) ∧
  (x ≠ 0%N ∨ s ≠ "" → pretty_N_go x s ≠ "").
Proof.
  revert s. induction (N.lt_wf_0 x) as [x _ IH]; intros s Hs.
  destruct (decide (x = 0)%N) as [->|Hx].
  { rewrite pretty_N_go_0. split_and!; [done..|]. by intros [?|?]. }
  rewrite pretty_N_go_step by lia.
  pose proof (pretty_N_char_digit (x `mod` 10) ltac:(apply N.mod_lt; lia)) as Hd.
  destruct (IH (x `div` 10)%N ltac:(apply N.div_lt; lia) (String (pretty_N_char (x `mod` 10)) s))
    as (H1 & H2 & H3).
  { simpl. unfold is_digit at 1. by rewrite Hd. }
  split_and!; [done| |intros _; apply H3; by right].
  rewrite H2. simpl. rewrite Hd. simpl. f_equal.
  rewrite (N.div_mod x 10) at 3 by lia. lia.
Qed.

Lemma pretty_N_digits (n : N) :
  sforall is_digit (pretty n) = true ∧ digits_value (pretty n) 0 = Z.of_N n ∧ pretty n ≠ "".
Proof.
  unfold pretty, pretty_N. case_decide as Hn; [by subst|].
  destruct (pretty_N_go_digits n "" eq_refl) as (H1 & H2 & H3). split_and!; auto.
Qed.

Lemma js_Number_pretty (n : N) : js_Number (pretty n) = Dec (Z.of_N n) 0.
Proof. destruct (pretty_N_digits n) as (H1 & H2 & H3). by rewrite js_Number_digits, H2. Qed.

(** What a program that lists process numbers, one per line, prints. *)
Fixpoint pid_lines (ps : list N) : string :=
  match ps with
  | [] => ""
  | p :: ps => pretty p +:+ String newline (pid_lines ps)
  end.

Lemma split_lines_head d r cur :
  sforall is_digit d = true →
  split_lines_go (d +:+ r) cur false = split_lines_go r (cur +:+ d) false.
Proof.
  revert cur. induction d as [|c d IH]; intros cur; simpl; [by rewrite sapp_nil_r|].
  intros H. apply andb_prop in H as [Hc Hd]. rewrite (digit_not_newline _ Hc), IH by done.
  by rewrite sapp_assoc.
Qed.

(** The trimmed output, without the newline that ends it. *)
Fixpoint pid_join (p : N) (ps : list N) : string :=
  match ps with
  | [] => pretty p
  | q :: ps => pretty p +:+ String newline (pid_join q ps)
  end.

Lemma pid_lines_join p ps : pid_lines (p :: ps) = pid_join p ps +:+ String newline "".
Proof.
  revert p. induction ps as [|q ps IH]; intros p; [done|].
  change (pretty p +:+ String newline (pid_lines (q :: ps)) =
    (pretty p +:+ String newline (pid_join q ps)) +:+ String newline "").
  rewrite IH, sapp_assoc. done.
Qed.

Lemma pid_join_last p ps : ∃ s c, pid_join p ps = s +:+ String c "" ∧ is_digit c = true.
Proof.
  revert p. induction ps as [|q ps IH]; intros p; simpl.
  - destruct (pretty_N_digits p) as (? & _ & ?). by apply sforall_snoc.
  - destruct (IH q) as (s & c & -> & Hc). exists (pretty p +:+ String newline s), c.
    by rewrite sapp_assoc.
Qed.

Lemma trim_pid_lines p ps : js_trim (pid_lines (p :: ps)) = pid_join p ps.
Proof.
  unfold js_trim.
  assert (trim_start (pid_lines (p :: ps)) = pid_lines (p :: ps)) as ->.
  { simpl. destruct (pretty_N_digits p) as (Hd & _ & Hne).
    destruct (pretty p) as [|c s]; [done|]. simpl in *. apply andb_prop in Hd as [Hc _].
    by rewrite (digit_not_space _ Hc). }
  rewrite pid_lines_join, trim_end_space by done.
  destruct (pid_join_last p ps) as (s & c & -> & Hc).
  apply trim_end_nonspace. by apply digit_not_space.
Qed.

(** The first line of a listing of process numbers is its first number. *)
Lemma first_pid_line p ps :
  ∃ rest, js_split_lines (js_trim (pid_lines (p :: ps))) = pretty p :: rest.
Proof.
  rewrite trim_pid_lines. unfold js_split_lines. destruct (pretty_N_digits p) as (Hd & _).
  destruct ps as [|q ps]; simpl.
  - exists []. rewrite <- (sapp_nil_r (pretty p)), split_lines_head by done.
    by rewrite sapp_nil_r.
  - rewrite split_lines_head by done. simpl. eauto.
Qed.
