(* ===== verification/InstallerApi.v ===== *)
(** * The Qt Installer Framework objects the scripts talk to

    The [installer], [gui], [component], [systemInfo] and [QMessageBox]
    objects belong to the Qt Installer Framework, which is not part of the
    repository.  Their methods are the fields of the class [InstallerApi] over
    an abstract world [W]; what the scripts do to it is logged as [Event]s. *)

From stdpp Require Import prelude strings.
From Stdlib Require Import ZArith.
From S2P Require Import Prelude.

(** The pages, buttons and statuses the scripts name. *)
Inductive Page :=
| IntroductionPage | TargetDirectory | ComponentSelection | LicenseCheck
| StartMenuSelection | StartMenuDirectoryPage | ReadyForInstallation
| PerformInstallation | FinishedPage.

Inductive Button := NextButton | FinishButton | CancelButton | CommitButton.

(** Answers of a message box; [OtherAnswer] is any button the script does not
    compare with (closing the box included). *)
Inductive Answer := AnsOk | AnsCancel | AnsRetry | AnsAbort | AnsYes | AnsNo | OtherAnswer.

#[global] Instance Answer_eq_dec : EqDecision Answer.
Proof. solve_decision. Defined.

(** [installer.execute] returns an empty array when the program cannot be
    started, and the array [output, exit code] otherwise. *)
Definition ExecResult : Type := option (string * Z).

(** An argument of an installer operation: a string or an array of strings. *)
Inductive OpArg := OpStr (s : string) | OpList (l : list string).

Inductive Event :=
| EvExecute (prog : string) (args : list string) (r : ExecResult)
| EvExecuteDetached (prog : string) (args : list string) (dir : string)
| EvFileExists (path : option string) (b : bool)
| EvInformation (title text : string) (a : Answer)
| EvWarning (title text : string) (a : Answer)
| EvSetPageVisible (p : Page) (b : bool)
| EvClick (b : Button)
| EvSetCancelled
| EvSetValue (key v : string)
| EvAutoAnswer (box : string) (a : Answer)
| EvAutoAccept
| EvNextOnInstallationFinished
| EvDisconnectBrowse
| EvConnectBrowse
| EvHideChild (name : string)
| EvSetTargetText (text : string)
| EvGainAdminRights (ok : bool)
| EvDropAdminRights
| EvDefaultOperations
| EvAddOperation (elevated : bool) (args : list OpArg)
| EvConnect (signal handler : string).

(** JavaScript raises a TypeError on a property of [undefined] or [null]; a
    signal raises one too when it is disconnected from a function it was not
    connected to. *)
Inductive JsError := TypeError.

Class InstallerApi (W : Type) := {
  api_value : W → string → string;
  api_setValue : string → string → W → W;
  api_isInstaller : W → bool;
  api_isUpdater : W → bool;
  api_isUninstaller : W → bool;
  api_success : W → bool;                        (* installer.status === QInstaller.Success *)
  api_fileExists : W → option string → bool;
  api_execute : string → list string → W → ExecResult * W;
  api_undefined : string;                        (* undefined passed where a string is expected *)
  api_executeDetached : string → list string → string → W → W;
  api_getTime : W → Z * W;                       (* new Date().getTime() *)
  api_information : string → string → W → Answer * W;
  api_warning : string → string → W → Answer * W;
  api_qsTr : W → string → string;
  api_setDefaultPageVisible : Page → bool → W → W;
  api_clickButton : Button → W → W;
  api_setCancelled : W → W;
  api_setMessageBoxAutomaticAnswer : string → Answer → W → W;
  api_autoAcceptMessageBoxes : W → W;
  api_connectInstallationFinished : W → W;
  api_pageById : W → Page → bool;                (* the page's widget is not null *)
  api_currentPageWidget : W → bool;
  api_findChild : W → string → bool;
  api_setChildVisible : string → bool → W → W;
  api_disconnectBrowse : W → bool * W;           (* false: raises a TypeError *)
  api_connectBrowse : W → W;
  api_targetText : W → string;                   (* TargetDirectoryLineEdit.text *)
  api_setTargetText : string → W → W;
  api_kernelType : W → string;                   (* systemInfo.kernelType *)
  api_cpuArchitecture : W → string;              (* systemInfo.currentCpuArchitecture *)
  api_findPath : W → string → list string → string;
  api_desktopLocation : W → string;
  api_gainAdminRights : W → bool * W;
  api_dropAdminRights : W → W;
  api_createDefaultOperations : W → W;
  api_addOperation : bool → list OpArg → W → W;
  api_connect : string → string → W → W;
}.

Section Calls.
  Context {G W : Type} {api : InstallerApi W}.

Definition JS (A : Type) : Type := M (Sys G W) Event JsError A.

Definition value (key : string) : JS string := query (λ w, api_value w key).
Definition setValue (k v : string) : JS unit := act (api_setValue k v) (EvSetValue k v).
Definition qsTr (text : string) : JS string := query (λ w, api_qsTr w text).
Definition isInstaller : JS bool := query api_isInstaller.
Definition isUpdater : JS bool := query api_isUpdater.
Definition isUninstaller : JS bool := query api_isUninstaller.
Definition statusSuccess : JS bool := query api_success.
Definition fileExists (p : option string) : JS bool :=
  ask (λ w, (api_fileExists w p, w)) (EvFileExists p).
Definition execute (prog : string) (args : list string) : JS ExecResult :=
  ask (api_execute prog args) (EvExecute prog args).
Definition executeDetached (prog : string) (args : list string) (dir : string) : JS unit :=
  act (api_executeDetached prog args dir) (EvExecuteDetached prog args dir).
Definition getTime : JS Z := λ s,
  let '(t, w) := api_getTime (world s) in (Ok t, mkSys (globals s) w, []).
Definition information (title text : string) : JS Answer :=
  ask (api_information title text) (EvInformation title text).
Definition warning (title text : string) : JS Answer :=
  ask (api_warning title text) (EvWarning title text).
Definition setDefaultPageVisible (p : Page) (b : bool) : JS unit :=
  act (api_setDefaultPageVisible p b) (EvSetPageVisible p b).
Definition clickButton (b : Button) : JS unit := act (api_clickButton b) (EvClick b).
Definition setCancelled : JS unit := act api_setCancelled EvSetCancelled.
Definition setMessageBoxAutomaticAnswer (box : string) (a : Answer) : JS unit :=
  act (api_setMessageBoxAutomaticAnswer box a) (EvAutoAnswer box a).
Definition autoAcceptMessageBoxes : JS unit := act api_autoAcceptMessageBoxes EvAutoAccept.


End Calls.

#[global] Arguments api_undefined W {InstallerApi}.

#[export] Hint Resolve keeps_query keeps_act keeps_ask emits_query emits_act emits_ask : logm.

(** ** A concrete world

    Used to show that the hypotheses of the theorems about the scripts can be
    met: a value table, a file list, a clock that ticks at every reading, a
    queue of answers for the message boxes and a function that runs programs,
    which may remove files. *)
Module Sim.

Record World := mkWorld {
  values : list (string * string);
  mode : nat;                       (* 0 installer, 1 updater, 2 uninstaller *)
  files : list string;
  clock : Z;
  answers : list Answer;
  programs : string → list string → ExecResult * (string → bool);
  success : bool;
  admin : bool;
  text : string;
}.

Fixpoint lookup_value (l : list (string * string)) (k : string) : string :=
  match l with
  | [] => ""
  | (k', v) :: l => if String.eqb k k' then v else lookup_value l k
  end.

Definition pop_answer (w : World) : Answer * World :=
  match answers w with
  | [] => (OtherAnswer, w)
  | a :: l => (a, mkWorld (values w) (mode w) (files w) (clock w) l (programs w)
                    (success w) (admin w) (text w))
  end.

Definition set_value (k v : string) (w : World) : World :=
  mkWorld ((k, v) :: values w) (mode w) (files w) (clock w) (answers w) (programs w)
    (success w) (admin w) (text w).

Definition run (prog : string) (args : list string) (w : World) : ExecResult * World :=
  let '(r, keep) := programs w prog args in
  (r, mkWorld (values w) (mode w) (filter (λ f, keep f = true) (files w)) (clock w)
        (answers w) (programs w) (success w) (admin w) (text w)).

Definition tick (w : World) : Z * World :=
  (clock w, mkWorld (values w) (mode w) (files w) (clock w + 30) (answers w) (programs w)
              (success w) (admin w) (text w)).

#[global] Instance api : InstallerApi World := {
  api_value w k := lookup_value (values w) k;
  api_setValue := set_value;
  api_isInstaller w := (mode w =? 0)%nat;
  api_isUpdater w := (mode w =? 1)%nat;
  api_isUninstaller w := (mode w =? 2)%nat;
  api_success := success;
  api_fileExists w p := match p with Some p => bool_decide (p ∈ files w) | None => false end;
  api_execute := run;
  api_undefined := "";
  api_executeDetached _ _ _ w := w;
  api_getTime := tick;
  api_information _ _ := pop_answer;
  api_warning _ _ := pop_answer;
  api_qsTr _ t := t;
  api_setDefaultPageVisible _ _ w := w;
  api_clickButton _ w := w;
  api_setCancelled w := w;
  api_setMessageBoxAutomaticAnswer _ _ w := w;
  api_autoAcceptMessageBoxes w := w;
  api_connectInstallationFinished w := w;
  api_pageById _ _ := true;
  api_currentPageWidget _ := true;
  api_findChild _ _ := true;
  api_setChildVisible _ _ w := w;
  api_disconnectBrowse w := (true, w);
  api_connectBrowse w := w;
  api_targetText := text;
  api_setTargetText t w := mkWorld (values w) (mode w) (files w) (clock w) (answers w)
                             (programs w) (success w) (admin w) t;
  api_kernelType w := lookup_value (values w) "kernelType";
  api_cpuArchitecture w := lookup_value (values w) "currentCpuArchitecture";
  api_findPath w f _ := lookup_value (values w) f;
  api_desktopLocation _ := "C:/Users/Public/Desktop";
  api_gainAdminRights w := (admin w, w);
  api_dropAdminRights w := w;
  api_createDefaultOperations w := w;
  api_addOperation _ _ w := w;
  api_connect _ _ w := w;
}.

End Sim.
