(* ===== verification/ControlScript.v ===== *)
(** * The installer's control script

    Models [src/deploy/installer/config/controlscript.js]: the global
    variables are the record [Ctl], every function of the script is a
    definition of the same name, and the page callbacks drop the
    [Controller.prototype] prefix.  [console.log] output is left out (the
    calls made to build it are kept).  The two loops that the environment can
    keep alive, the clock loop of [sleep] and the Retry loop, take fuel. *)

From stdpp Require Import prelude strings pretty.
From Stdlib Require Import ZArith Lia Ascii String.
From S2P Require Import Prelude JsRuntime InstallerApi.

Record Ctl := mkCtl {
  requestToQuitFromApp : bool;
  updaterCompleted : Z;
  desktopAppProcessRunning : bool;
  appInstalledUninstallerPath : option string;      (* None: undefined *)
  appInstalledUninstallerPath_x86 : option string;
}.

(** The initial values of the globals. *)
Definition initialCtl : Ctl := mkCtl false 0 false None None.

Definition set_requestToQuit (b : bool) (c : Ctl) : Ctl :=
  mkCtl b (updaterCompleted c) (desktopAppProcessRunning c)
    (appInstalledUninstallerPath c) (appInstalledUninstallerPath_x86 c).
Definition set_updaterCompleted (z : Z) (c : Ctl) : Ctl :=
  mkCtl (requestToQuitFromApp c) z (desktopAppProcessRunning c)
    (appInstalledUninstallerPath c) (appInstalledUninstallerPath_x86 c).
Definition set_running (b : bool) (c : Ctl) : Ctl :=
  mkCtl (requestToQuitFromApp c) (updaterCompleted c) b
    (appInstalledUninstallerPath c) (appInstalledUninstallerPath_x86 c).
Definition set_path (p : option string) (c : Ctl) : Ctl :=
  mkCtl (requestToQuitFromApp c) (updaterCompleted c) (desktopAppProcessRunning c)
    p (appInstalledUninstallerPath_x86 c).
Definition set_path_x86 (p : option string) (c : Ctl) : Ctl :=
  mkCtl (requestToQuitFromApp c) (updaterCompleted c) (desktopAppProcessRunning c)
    (appInstalledUninstallerPath c) p.

Definition dquote : string := String "034"%char "".
Definition nl : string := String newline "".

(** [str.indexOf(suffix, str.length - suffix.length) !== -1] *)
Definition endsWith (str suffix : string) : bool :=
  negb (js_indexOf str suffix (Z.of_nat (String.length str) - Z.of_nat (String.length suffix)) =? -1)%Z.

Lemma endsWith_iff str suffix : endsWith str suffix = true ↔ ∃ p, str = p +:+ suffix.
Proof.
  unfold endsWith. rewrite negb_true_iff, Z.eqb_neq, js_indexOf_spec.
  set (start := Z.to_nat _).
  assert (start ≤ String.length str)%nat as Hstart by lia.
  destruct (sdrop_split start str Hstart) as (q & Hq & Hlen). split.
  - intros (p & r & Hr). pose proof (f_equal String.length Hr) as Hl.
    pose proof (f_equal String.length Hq) as Hl'. rewrite !sapp_length in *.
    assert (String.length p = 0 ∧ String.length r = 0)%nat as [Hp0 Hr0] by lia.
    destruct p; [|done]. destruct r; [|done]. rewrite sapp_nil_r in Hr. simpl in Hr.
    exists q. congruence.
  - intros [p Hp]. exists "", "". rewrite sapp_nil_r. simpl. subst str.
    assert (start = String.length p) as -> by (subst start; rewrite sapp_length; lia).
    apply sdrop_app.
Qed.

Section ControlScript.
  Context {W : Type} {api : InstallerApi W}.

Abbreviation Script A := (JS (G := Ctl) (W := W) A).

(** Reads and writes of the script's globals. *)
Definition getG {A} (f : Ctl → A) : Script A := gets (λ s, f (globals s)).
Definition setG (f : Ctl → Ctl) : Script unit := modify (λ s, mkSys (f (globals s)) (world s)).

Definition appName : Script string := value "Name".

Definition runningOnWindows : Script bool :=
  os ← value "os"; mret (String.eqb os "win").

Definition runningOnMacOS : Script bool :=
  os ← value "os"; mret (String.eqb os "mac").

Definition runningOnLinux : Script bool :=
  os ← value "os"; os' ← value "os";
  mret (String.eqb os "linux" || String.eqb os' "x11").

Definition appExecutableFileName : Script string :=
  win ← runningOnWindows;
  name ← appName;
  mret (if (win : bool) then name +:+ ".exe" else name).

Definition appInstalled : Script bool :=
  win ← runningOnWindows;
  mac ← runningOnMacOS;
  linux ← runningOnLinux;
  root ← value "RootDir";
  name ← appName;
  (if (win : bool) then
     setG (set_path (Some (root +:+ "Program Files/AmneziaVPN/maintenancetool.exe"))) ≫= λ _,
     setG (set_path_x86 (Some (root +:+ "Program Files (x86)/AmneziaVPN/maintenancetool.exe")))
   else if (mac : bool) then
     setG (set_path (Some ("/Applications/" +:+ name +:+ ".app/maintenancetool.app/Contents/MacOS/maintenancetool")))
   else when linux (setG (set_path (Some ("/opt/" +:+ name +:+ "/maintenancetool")))));;
  p ← getG appInstalledUninstallerPath;
  e ← fileExists p;
  if (e : bool) then mret true
  else (p86 ← getG appInstalledUninstallerPath_x86; fileExists p86).

(** [while (currentTime + milliseconds >= new Date().getTime()) {}] *)
Fixpoint sleep_loop (fuel : nat) (deadline : Z) : Script unit :=
  match fuel with
  | O => out_of_fuel
  | S fuel => t ← getTime; if (t <=? deadline)%Z then sleep_loop fuel deadline else mret tt
  end.

Definition sleep (fuel : nat) (milliseconds : Z) : Script unit :=
  currentTime ← getTime; sleep_loop fuel (currentTime + milliseconds).

Definition raiseInstallerWindow : Script unit :=
  mac ← runningOnMacOS;
  if negb mac then mret tt
  else
    name ← appName;
    result ← execute "/bin/bash" ["-c"; "ps -A | grep -m1 '" +:+ name +:+ "' | awk '{print $1}'"];
    let pid := match result with Some (out, _) => js_Number out | None => NaN end in
    when (num_gtb pid 0)
      (execute "osascript" ["-e";
         "tell application " +:+ dquote +:+ "System Events" +:+ dquote +:+ " " +:+
         nl +:+ "      set frontmost of the first process whose unix id is " +:+ show_num pid +:+ " to true " +:+
         nl +:+ "      end tell" +:+ nl +:+ "       "] ≫= λ _, mret tt).

(** [result[0].trim()] raises a TypeError when the shell was not started. *)
Definition checkProcessIsRunning (arg : string) : Script bool :=
  result ← execute "/bin/bash" ["-c"; arg];
  match result with
  | None => throw TypeError
  | Some (out, _) =>
      match js_split_lines (js_trim out) with
      | line :: _ => mret (num_geb (js_Number line) 2)
      | [] => mret false
      end
  end.

Definition appProcessIsRunning : Script bool :=
  win ← runningOnWindows;
  if (win : bool) then
    result ← execute "tasklist" [];
    match result with
    | Some (out, code) =>
        if (code =? 0)%Z then
          exe ← appExecutableFileName;
          mret (negb (js_indexOf out exe 0 =? -1)%Z)
        else mret false
    | None => mret false
    end
  else
    name ← appName;
    checkProcessIsRunning ("pgrep -x '" +:+ name +:+ "'").

Definition requestToQuit : Script unit :=
  setG (set_requestToQuit true);;
  setDefaultPageVisible IntroductionPage false;;
  setDefaultPageVisible TargetDirectory false;;
  setDefaultPageVisible ComponentSelection false;;
  setDefaultPageVisible LicenseCheck false;;
  setDefaultPageVisible StartMenuSelection false;;
  setDefaultPageVisible ReadyForInstallation false;;
  setDefaultPageVisible PerformInstallation false;;
  setDefaultPageVisible FinishedPage false;;
  clickButton NextButton;;
  clickButton FinishButton;;
  clickButton CancelButton;;
  win ← runningOnWindows;
  when win setCancelled.

(** ** Page callbacks *)

Definition PerformInstallationPageCallback : Script unit := clickButton NextButton.
Definition LicenseAgreementPageCallback : Script unit := clickButton NextButton.

Definition FinishedPageCallback : Script unit :=
  running ← getG desktopAppProcessRunning;
  if (running : bool) then clickButton FinishButton
  else
    upd ← isUpdater;
    when upd (autoAcceptMessageBoxes;; clickButton FinishButton).

Definition RestartPageCallback : Script unit :=
  setG (set_updaterCompleted 1);; clickButton FinishButton.

Definition StartMenuDirectoryPageCallback : Script unit := clickButton NextButton.
Definition ComponentSelectionPageCallback : Script unit := clickButton NextButton.

Definition ReadyForInstallationPageCallback : Script unit :=
  upd ← isUpdater; when upd (clickButton CommitButton).

Definition TargetDirectoryPageCallback : Script unit :=
  present ← query (λ w, api_pageById w TargetDirectory);
  when present (
    ok ← ask api_disconnectBrowse (λ _, EvDisconnectBrowse);
    if negb ok then throw TypeError
    else act api_connectBrowse EvConnectBrowse;; clickButton NextButton).

(** [widget.findChild(name).visible = false] *)
Definition hideChild (name : string) : Script unit :=
  found ← query (λ w, api_findChild w name);
  if negb found then throw TypeError
  else act (api_setChildVisible name false) (EvHideChild name).

Definition IntroductionPageCallback : Script unit :=
  widget ← query api_currentPageWidget;
  upd ← isUpdater;
  completed ← getG updaterCompleted;
  if upd && (completed =? 1)%Z then clickButton FinishButton;; clickButton CancelButton
  else
    uninst ← isUninstaller;
    when uninst (when widget (hideChild "PackageManagerRadioButton";; hideChild "UpdaterRadioButton"));;
    upd' ← isUpdater;
    when upd' (clickButton NextButton).

Definition onBrowseButtonClicked : Script unit :=
  present ← query (λ w, api_pageById w TargetDirectory);
  when present (
    win ← runningOnWindows;
    when win (
      targetDir ← query api_targetText;
      name ← appName;
      setValue "TargetDir"
        (if negb (endsWith targetDir name) then targetDir +:+ "\" +:+ name else targetDir);;
      dir ← value "TargetDir";
      act (api_setTargetText dir) (EvSetTargetText dir))).

Definition onNextButtonClicked : Script unit :=
  present ← query (λ w, api_pageById w TargetDirectory);
  when present (
    text ← query api_targetText;
    setValue "APP_BUNDLE_TARGET_DIR" text).

(** ** The constructor *)

(** [for (var i = 0; i < n; i++) { running = appProcessIsRunning(); if (!running) break; }] *)
Fixpoint pollUntilStopped (n : nat) : Script unit :=
  match n with
  | O => mret tt
  | S n =>
      r ← appProcessIsRunning;
      setG (set_running r);;
      if negb r then mret tt else pollUntilStopped n
  end.

Definition warningText (name : string) : string :=
  name +:+ " is active. Close the app and press " +:+ dquote +:+ "Retry" +:+ dquote +:+
  " button to continue installation. Press " +:+ dquote +:+ "Abort" +:+ dquote +:+
  " button to abort the installer and exit.".

Fixpoint isDesktopAppProcessRunningMessageLoop (fuel : nat) : Script unit :=
  match fuel with
  | O => out_of_fuel
  | S fuel =>
      quit ← getG requestToQuitFromApp;
      if (quit : bool) then mret tt
      else
        upd ← isUpdater;
        when upd (pollUntilStopped 400);;
        r ← appProcessIsRunning;
        setG (set_running r);;
        when r (
          name ← appName;
          result ← warning (name +:+ " installer") (warningText name);
          if bool_decide (result = AnsRetry) then isDesktopAppProcessRunningMessageLoop fuel
          else setG (set_requestToQuit true))
  end.

(** [for (var i = 0; i < n; i++) { sleep(100); if (!fileExists(path)) break; }] *)
Fixpoint waitForRemoval (fuel n : nat) : Script unit :=
  match n with
  | O => mret tt
  | S n =>
      sleep fuel 100;;
      p ← getG appInstalledUninstallerPath;
      e ← fileExists p;
      if negb e then mret tt else waitForRemoval fuel n
  end.

(** Starts the uninstaller at [path] if it is there; [undefined] is passed on
    as it is. The result is the last started uninstaller's. *)
Definition runUninstaller (path : option string) (before : ExecResult) : Script ExecResult :=
  e ← fileExists path;
  if (e : bool) then execute (default (api_undefined W) path) [] else mret before.

(** The body of the inner [if (appInstalled())]; true when the constructor
    returns because the uninstallation did not succeed. *)
Definition removeOldInstallation (fuel : nat) : Script bool :=
  again ← appInstalled;
  if negb again then mret false
  else
    p86 ← getG appInstalledUninstallerPath_x86;
    r1 ← runUninstaller p86 None;
    p ← getG appInstalledUninstallerPath;
    r2 ← runUninstaller p r1;
    if match r2 with Some (_, code) => negb (code =? 0)%Z | None => true end then
      setCancelled;; mret true
    else waitForRemoval fuel 300;; mret false.

Definition installedQuestion : Script string :=
  t1 ← qsTr "The application is already installed.";
  t2 ← qsTr "We need to remove the old installation first. Do you wish to proceed?";
  mret (t1 +:+ " " +:+ t2).

(** The branch of the constructor for a fresh installation. *)
Definition controllerInstaller (fuel : nat) : Script unit :=
  setDefaultPageVisible ComponentSelection false;;
  setDefaultPageVisible TargetDirectory false;;
  setDefaultPageVisible StartMenuDirectoryPage false;;
  setDefaultPageVisible LicenseCheck false;;
  isDesktopAppProcessRunningMessageLoop fuel;;
  quit ← getG requestToQuitFromApp;
  if (quit : bool) then requestToQuit
  else
    mac ← runningOnMacOS;
    when mac (setMessageBoxAutomaticAnswer "OverwriteTargetDirectory" AnsYes);;
    installed ← appInstalled;
    when installed (
      name ← appName;
      text ← installedQuestion;
      answer ← information name text;
      if bool_decide (answer = AnsOk) then
        stop ← removeOldInstallation fuel;
        when (negb stop) raiseInstallerWindow
      else setCancelled).

Definition controllerUninstaller (fuel : nat) : Script unit :=
  isDesktopAppProcessRunningMessageLoop fuel;;
  quit ← getG requestToQuitFromApp;
  when quit requestToQuit.

Definition Controller (fuel : nat) : Script unit :=
  inst ← isInstaller;
  upd ← isUpdater;
  when (inst || upd) (appInstalled ≫= λ _, mret tt);;
  win ← runningOnWindows;
  when win (setValue "AllUsers" "true");;
  inst' ← isInstaller;
  if (inst' : bool) then controllerInstaller fuel
  else
    uninst ← isUninstaller;
    if (uninst : bool) then controllerUninstaller fuel
    else
      upd' ← isUpdater;
      when upd' (
        setMessageBoxAutomaticAnswer "cancelInstallation" AnsNo;;
        act api_connectInstallationFinished EvNextOnInstallationFinished).

(** ** Which actions a part of the script performs *)

(** The program is a maintenance tool, that is, an uninstaller. *)
Definition is_uninstaller (prog : string) : bool :=
  endsWith prog "maintenancetool" || endsWith prog "maintenancetool.exe".

Definition runs_uninstaller (e : Event) : bool :=
  match e with EvExecute prog _ _ => is_uninstaller prog | _ => false end.

Definition confirms (e : Event) : bool :=
  match e with EvInformation _ _ AnsOk => true | _ => false end.

(** Scans a log: an uninstaller may run only after the user's Ok. *)
Fixpoint uninstall_guarded (confirmed : bool) (t : list Event) : bool :=
  match t with
  | [] => true
  | e :: t => (negb (runs_uninstaller e) || confirmed) && uninstall_guarded (confirmed || confirms e) t
  end.

Definition quiet (e : Event) : Prop := runs_uninstaller e = false.

Lemma uninstall_guarded_true t : uninstall_guarded true t = true.
Proof. induction t as [|e t IH]; simpl; [done|]. by rewrite orb_true_r. Qed.

Lemma uninstall_guarded_quiet t1 t2 :
  Forall quiet t1 → uninstall_guarded false t2 = true → uninstall_guarded false (t1 ++ t2) = true.
Proof.
  intros H1 H2. induction H1 as [|e t He Ht IH]; simpl; [done|].
  rewrite He. simpl. destruct (confirms e); [apply uninstall_guarded_true | done].
Qed.

Definition guarded {A} (m : Script A) : Prop := ∀ s, uninstall_guarded false (log_of (m s)) = true.

Lemma guarded_quiet {A} (m : Script A) : emits quiet m → guarded m.
Proof. intros H s. rewrite <- (app_nil_r (log_of (m s))). by apply uninstall_guarded_quiet. Qed.

Lemma guarded_bind {A B} (m : Script A) (k : A → Script B) :
  emits quiet m → (∀ a, guarded (k a)) → guarded (m ≫= k).
Proof.
  intros Hm Hk s. unfold log_of, mbind, M_bind. specialize (Hm s). unfold log_of in Hm.
  destruct (m s) as [[[a|e|] s1] t1]; simpl in *.
  - specialize (Hk a s1). unfold log_of in Hk. destruct (k a s1) as [[r s2] t2]; simpl in *.
    by apply uninstall_guarded_quiet.
  - rewrite <- (app_nil_r t1). by apply uninstall_guarded_quiet.
  - rewrite <- (app_nil_r t1). by apply uninstall_guarded_quiet.
Qed.

Lemma guarded_when b (m : Script unit) : guarded m → guarded (when b m).
Proof. by destruct b. Qed.

(** After the confirmation box only the other answers need care. *)
Lemma guarded_information {B} title text (k : Answer → Script B) :
  (∀ a, a ≠ AnsOk → guarded (k a)) → guarded (information title text ≫= k).
Proof.
  intros Hk s. unfold log_of, mbind, M_bind, information, ask.
  destruct (api_information title text (world s)) as [a w].
  pose proof (Hk a) as Hka. destruct (k a _) as [[r s2] t2] eqn:Hrun; simpl.
  destruct (decide (a = AnsOk)) as [->|Hne]; [apply uninstall_guarded_true|].
  assert (confirms (EvInformation title text a) = false) as Hc by by destruct a.
  simpl in Hc. rewrite Hc. specialize (Hka Hne (mkSys (globals s) w)). unfold log_of in Hka.
  by rewrite Hrun in Hka.
Qed.

Lemma emits_getTime P : emits P (getTime : Script Z).
Proof. intros s. unfold log_of, getTime. destruct (api_getTime (world s)). constructor. Qed.

(** Unfolds the functions of the script down to calls of the framework. *)
Ltac quiet_step := first
  [ progress intros | assumption
  | apply emits_bind | apply emits_when | apply emits_if | apply emits_ret | apply emits_gets
  | apply emits_modify | apply emits_throw | apply emits_oof | apply emits_query
  | apply emits_getTime
  | apply emits_act; reflexivity | apply emits_ask; reflexivity
  | match goal with |- emits _ (match ?x with _ => _ end) => destruct x end ].
Ltac quiet_tac := repeat quiet_step.

Lemma quiet_appInstalled : emits quiet appInstalled.
Proof. quiet_tac. Qed.
Lemma quiet_appProcessIsRunning : emits quiet appProcessIsRunning.
Proof. quiet_tac. Qed.

Lemma quiet_pollUntilStopped n : emits quiet (pollUntilStopped n).
Proof.
  induction n as [|n IH]; simpl; [apply emits_ret|].
  apply emits_bind; [apply quiet_appProcessIsRunning|]. quiet_tac.
Qed.

Lemma quiet_messageLoop fuel : emits quiet (isDesktopAppProcessRunningMessageLoop fuel).
Proof.
  induction fuel as [|fuel IH]; [apply emits_oof|]. cbn [isDesktopAppProcessRunningMessageLoop].
  generalize 400%nat; intros polls. repeat first [apply quiet_pollUntilStopped | quiet_step].
Qed.

Lemma quiet_requestToQuit : emits quiet requestToQuit.
Proof. quiet_tac. Qed.

(** [C37] Whatever the environment answers, the constructor never starts an
    uninstaller (a maintenance tool) before the user has answered Ok to the
    question whether the old installation is to be removed. *)
Theorem Controller_uninstall_confirmed (fuel : nat) (s : Sys Ctl W) :
  uninstall_guarded false (log_of (Controller fuel s)) = true.
Proof.
  assert (guarded (Controller fuel)) as H; [|exact (H s)].
  unfold Controller. apply guarded_bind; [quiet_tac|intros inst].
  apply guarded_bind; [quiet_tac|intros upd].
  apply guarded_bind; [quiet_tac|intros _].
  apply guarded_bind; [quiet_tac|intros win].
  apply guarded_bind; [quiet_tac|intros _].
  apply guarded_bind; [quiet_tac|intros inst'].
  destruct inst'.
  - unfold controllerInstaller. do 4 (apply guarded_bind; [quiet_tac|intros _]).
    apply guarded_bind; [apply quiet_messageLoop|intros _].
    apply guarded_bind; [quiet_tac|intros quit].
    destruct quit; [apply guarded_quiet, quiet_requestToQuit|].
    apply guarded_bind; [quiet_tac|intros mac]. apply guarded_bind; [quiet_tac|intros _].
    apply guarded_bind; [apply quiet_appInstalled|intros installed]. apply guarded_when.
    apply guarded_bind; [quiet_tac|intros name]. apply guarded_bind; [quiet_tac|intros text].
    apply guarded_information. intros a Ha. rewrite bool_decide_false by done.
    apply guarded_quiet. quiet_tac.
  - apply guarded_quiet. unfold controllerUninstaller.
    quiet_tac. apply quiet_messageLoop.
Qed.

(** ** Reads *)

Definition on_windows (w : W) : bool := String.eqb (api_value w "os") "win".
Definition on_mac (w : W) : bool := String.eqb (api_value w "os") "mac".
Definition on_linux (w : W) : bool :=
  String.eqb (api_value w "os") "linux" || String.eqb (api_value w "os") "x11".

Lemma wp_windows {B} (k : bool → Script B) Q s :
  wp (k (on_windows (world s))) Q s → wp (runningOnWindows ≫= k) Q s.
Proof. apply (wp_query_bind on_windows). Qed.
Lemma wp_mac {B} (k : bool → Script B) Q s :
  wp (k (on_mac (world s))) Q s → wp (runningOnMacOS ≫= k) Q s.
Proof. apply (wp_query_bind on_mac). Qed.
Lemma wp_linux {B} (k : bool → Script B) Q s :
  wp (k (on_linux (world s))) Q s → wp (runningOnLinux ≫= k) Q s.
Proof. apply (wp_query_bind on_linux). Qed.
Lemma wp_value {B} key (k : string → Script B) Q s :
  wp (k (api_value (world s) key)) Q s → wp (value key ≫= k) Q s.
Proof. apply (wp_query_bind (λ w, api_value w key)). Qed.
Lemma wp_getG {A B} (f : Ctl → A) (k : A → Script B) Q s :
  wp (k (f (globals s))) Q s → wp (getG f ≫= k) Q s.
Proof. apply (wp_gets_bind (λ s, f (globals s))). Qed.
Lemma wp_setG {B} (f : Ctl → Ctl) (k : unit → Script B) Q s :
  wp (k tt) Q (mkSys (f (globals s)) (world s)) → wp (setG f ≫= k) Q s.
Proof. apply (wp_modify_bind (λ s, mkSys (f (globals s)) (world s))). Qed.

(** ** The Retry loop *)

(** When the Retry loop returns, either quitting was requested or the
    last check found the application not running. *)
Lemma messageLoop_post (fuel : nat) (s : Sys Ctl W) :
  wp (isDesktopAppProcessRunningMessageLoop fuel)
    (λ r s' _, match r with
               | Ok _ => requestToQuitFromApp (globals s') = true ∨ desktopAppProcessRunning (globals s') = false
               | _ => True
               end) s.
Proof.
  revert s. induction fuel as [|fuel IH]; intros s; [done|].
  cbn [isDesktopAppProcessRunningMessageLoop]. generalize 400%nat; intros polls.
  apply wp_getG. destruct (requestToQuitFromApp (globals s)) eqn:Hq.
  { apply wp_ret. by left. }
  apply (wp_query_bind api_isUpdater).
  apply (wp_bind_spec (λ _ _, True)); [apply wp_any; by intros [] ? ?|]. intros _ s1 t1 _.
  apply (wp_bind_spec (λ _ _, True)); [apply wp_any; by intros [] ? ?|]. intros r s2 t2 _.
  apply wp_setG. destruct r; [|apply wp_ret; by right].
  apply wp_value. apply wp_ask_bind. intros a w _. case_bool_decide.
  - eapply wp_mono; [apply IH|]. by intros [] ? ?.
  - apply wp_ret. by left.
Qed.

(** ** Readiness *)

(** Quitting was requested, or the application is not running. *)
Definition quit_or_stopped (c : Ctl) : Prop :=
  requestToQuitFromApp c = true ∨ desktopAppProcessRunning c = false.

Lemma keeps_setG (I : Ctl → Prop) f : (∀ c, I c → I (f c)) → keeps (λ s, I (globals s)) (setG f).
Proof. intros Hf s HI. simpl. auto. Qed.
Lemma keeps_getTime (I : Ctl → Prop) : keeps (λ s, I (globals s)) (getTime : Script Z).
Proof. intros s HI. unfold state_of, getTime. by destruct (api_getTime (world s)). Qed.
Lemma keeps_throw {A} (I : Sys Ctl W → Prop) e : keeps I (throw e : Script A).
Proof. by intros s. Qed.
Lemma keeps_oof {A} (I : Sys Ctl W → Prop) : keeps I (out_of_fuel : Script A).
Proof. by intros s. Qed.

Ltac keeps_step := first
  [ progress intros | assumption
  | apply keeps_bind | apply keeps_when | apply keeps_if | apply keeps_ret | apply keeps_gets
  | apply keeps_setG; solve [unfold quit_or_stopped; intros ? [?|?]; simpl; auto]
  | apply keeps_throw | apply keeps_oof | apply keeps_getTime | apply keeps_query
  | apply keeps_act | apply keeps_ask
  | match goal with |- keeps _ (match ?x with _ => _ end) => destruct x end ].
Ltac keeps_tac := repeat keeps_step.

Abbreviation ready := (λ s : Sys Ctl W, quit_or_stopped (globals s)).

Lemma keeps_sleep fuel ms : keeps ready (sleep fuel ms).
Proof.
  apply keeps_bind; [apply keeps_getTime|]. intros t. generalize (t + ms)%Z. intros d.
  induction fuel as [|fuel IH]; [apply keeps_oof|]. cbn [sleep_loop]. keeps_tac.
Qed.

Lemma keeps_waitForRemoval fuel n : keeps ready (waitForRemoval fuel n).
Proof.
  induction n as [|n IH]; [apply keeps_ret|]. cbn [waitForRemoval].
  apply keeps_bind; [apply keeps_sleep|]. keeps_tac.
Qed.

Lemma keeps_removeOldInstallation fuel : keeps ready (removeOldInstallation fuel).
Proof.
  unfold removeOldInstallation. generalize 300%nat; intros polls.
  repeat first [apply keeps_waitForRemoval | keeps_step].
Qed.

Lemma ready_rest (m : Script unit) s :
  keeps ready m → ready s → wp m (λ r s' _, match r with Ok _ => ready s' | _ => True end) s.
Proof.
  intros Hm Hs. eapply wp_mono; [by apply (wp_keeps ready)|]. by intros [] ? ?.
Qed.

(** The installer and the uninstaller go on only when no instance of the
    application is running: when the constructor returns normally in one of
    these modes, quitting was requested or the last check found no running
    instance, whatever happened while the old installation was removed. *)
Theorem Controller_ready (fuel : nat) (s : Sys Ctl W) :
  wp (controllerInstaller fuel) (λ r s' _, match r with Ok _ => ready s' | _ => True end) s ∧
  wp (controllerUninstaller fuel) (λ r s' _, match r with Ok _ => ready s' | _ => True end) s.
Proof.
  split.
  - unfold controllerInstaller. do 4 apply wp_act_bind.
    apply (wp_bind_spec (λ s' _, ready s')).
    { eapply wp_mono; [apply messageLoop_post|]. by intros [] ? ?. }
    intros _ s1 t1 H1. apply ready_rest; [|done].
    repeat first [apply keeps_removeOldInstallation | keeps_step].
  - unfold controllerUninstaller. apply (wp_bind_spec (λ s' _, ready s')).
    { eapply wp_mono; [apply messageLoop_post|]. by intros [] ? ?. }
    intros _ s1 t1 H1. apply ready_rest; [|done]. keeps_tac.
Qed.

(** ** Removing the old installation *)

(** The outcome of the last program started in a log, if any was started. *)
Fixpoint last_exec (t : list Event) : option ExecResult :=
  match t with
  | [] => None
  | e :: t =>
      match last_exec t, e with
      | Some r, _ => Some r
      | None, EvExecute _ _ r => Some r
      | None, _ => None
      end
  end.

Lemma last_exec_app t1 t2 :
  last_exec (t1 ++ t2) = match last_exec t2 with Some r => Some r | None => last_exec t1 end.
Proof.
  induction t1 as [|e t1 IH]; simpl; [by destruct (last_exec t2)|].
  rewrite IH. destruct (last_exec t2); [done|]. done.
Qed.

(** Neither starts a program nor cancels. *)
Definition passive (e : Event) : Prop :=
  match e with EvExecute _ _ _ | EvSetCancelled => False | _ => True end.

Lemma passive_last_exec t : Forall passive t → last_exec t = None.
Proof. induction 1 as [|e t He _ IH]; simpl; [done|]. rewrite IH. by destruct e. Qed.
Lemma passive_not_cancelled t : Forall passive t → EvSetCancelled ∉ t.
Proof. intros H Hin. rewrite Forall_forall in H. exact (H _ Hin). Qed.

Ltac passive_step := first
  [ progress intros | assumption
  | apply emits_bind | apply emits_when | apply emits_if | apply emits_ret | apply emits_gets
  | apply emits_modify | apply emits_oof | apply emits_query | apply emits_getTime
  | apply emits_act; exact I | apply emits_ask; intros; exact I ].

Lemma passive_appInstalled : emits passive appInstalled.
Proof. repeat passive_step. Qed.

Lemma passive_sleep fuel ms : emits passive (sleep fuel ms).
Proof.
  apply emits_bind; [apply emits_getTime|]. intros t. generalize (t + ms)%Z. intros d.
  induction fuel as [|fuel IH]; [apply emits_oof|]. cbn [sleep_loop]. repeat passive_step.
Qed.

Lemma passive_waitForRemoval fuel n : emits passive (waitForRemoval fuel n).
Proof.
  induction n as [|n IH]; [apply emits_ret|]. cbn [waitForRemoval].
  apply emits_bind; [apply passive_sleep|]. repeat passive_step.
Qed.

(** Starting an uninstaller that is there replaces the remembered result. *)
Lemma runUninstaller_spec path before s :
  wp (runUninstaller path before)
    (λ r _ t, (EvSetCancelled ∉ t) ∧
      match r with
      | Ok r' => match last_exec t with Some r'' => r'' = r' | None => r' = before end
      | _ => False
      end) s.
Proof.
  unfold runUninstaller. apply wp_ask_bind. intros e w _. destruct e.
  - unfold wp, execute, ask. simpl. destruct (api_execute _ _ w) as [r w'].
    split; [|done]. by rewrite !elem_of_cons, elem_of_nil; intros [|[|[]]].
  - apply wp_ret. split; [|done]. by rewrite elem_of_cons, elem_of_nil; intros [|[]].
Qed.

(** The exit status the constructor accepts. *)
Definition exited_zero (r : option ExecResult) : Prop := ∃ out, r = Some (Some (out, 0%Z)).

(** Removing the old installation: the constructor goes on exactly when
    nothing had to be removed or the uninstaller started last exited with
    status 0; in every other case the installation is cancelled. *)
Theorem removeOldInstallation_status (fuel : nat) (s : Sys Ctl W) :
  wp (removeOldInstallation fuel)
    (λ r _ t, match r with
              | Ok true => EvSetCancelled ∈ t ∧ ¬ exited_zero (last_exec t)
              | Ok false => (EvSetCancelled ∉ t) ∧ (last_exec t = None ∨ exited_zero (last_exec t))
              | _ => True
              end) s.
Proof.
  unfold removeOldInstallation. generalize 300%nat; intros polls. apply wp_bind.
  eapply wp_mono; [apply (wp_emits passive), passive_appInstalled|].
  intros [again|e|] s1 t1 H1; simpl; try done.
  destruct again; simpl; last first.
  { apply wp_ret. rewrite app_nil_r. split; [by apply passive_not_cancelled|].
    left. by apply passive_last_exec. }
  apply wp_getG, wp_bind. eapply wp_mono; [apply runUninstaller_spec|].
  intros [r1|e|] s2 t2 [Hn2 H2]; simpl; try done.
  apply wp_getG, wp_bind. eapply wp_mono; [apply runUninstaller_spec|].
  intros [r2|e|] s3 t3 [Hn3 H3]; simpl; try done.
  assert (last_exec (t1 ++ t2 ++ t3) = None ∧ r2 = None ∨ last_exec (t1 ++ t2 ++ t3) = Some r2) as Hlast.
  { rewrite !last_exec_app, (passive_last_exec t1) by done.
    destruct (last_exec t3); simplify_eq; [by right|]. destruct (last_exec t2); simplify_eq; auto. }
  destruct r2 as [[out code]|]; simpl; last first.
  { apply wp_act_bind, wp_ret. simpl. rewrite !(assoc_L (++)). split; [set_solver|].
    rewrite last_exec_app, <- !(assoc_L (++)). simpl. intros [o Ho].
    destruct Hlast as [[Hl _]|Hl]; rewrite Hl in Ho; discriminate. }
  destruct Hlast as [[_ ?]|Hlast]; [done|].
  destruct (Z.eqb_spec code 0) as [->|Hcode]; simpl.
  - apply wp_bind. eapply wp_mono; [apply (wp_emits passive), passive_waitForRemoval|].
    intros [u|e|] s4 t4 H4; simpl; try done. apply wp_ret. rewrite app_nil_r, !(assoc_L (++)).
    split.
    + pose proof (passive_not_cancelled _ H1). pose proof (passive_not_cancelled _ H4). set_solver.
    + right. exists out. rewrite last_exec_app, passive_last_exec by done.
      by rewrite <- !(assoc_L (++)).
  - apply wp_act_bind, wp_ret. simpl. rewrite !(assoc_L (++)). split; [set_solver|].
    rewrite last_exec_app, <- !(assoc_L (++)). simpl. rewrite Hlast. intros [o Ho]. congruence.
Qed.

(** ** Loops the environment keeps alive *)

(** The world after [n] readings of the clock, and the reading that follows. *)
Fixpoint ticks (n : nat) (w : W) : W :=
  match n with O => w | S n => ticks n (api_getTime w).2 end.
Definition reading (n : nat) (w : W) : Z := (api_getTime (ticks n w)).1.

(** The clock passes every point in time sooner or later. *)
Definition clock_progresses : Prop := ∀ w d, ∃ n, (d < reading n w)%Z.

Lemma sleep_loop_spec n d g w :
  (d < reading n w)%Z → (∀ i, (i < n)%nat → (reading i w <= d)%Z) →
  ∀ fuel, (n < fuel)%nat → sleep_loop fuel d (mkSys g w) = (Ok tt, mkSys g (ticks (S n) w), []).
Proof.
  revert w. induction n as [|n IH]; intros w Hn Hlt [|fuel] Hf; try lia; cbn [sleep_loop];
    unfold mbind, M_bind, getTime; simpl; unfold reading in *; simpl in *.
  - destruct (api_getTime w) as [t w'] eqn:Ht; simpl in *.
    destruct (Z.leb_spec t d); [lia|]. done.
  - pose proof (Hlt O ltac:(lia)) as H0. simpl in H0.
    destruct (api_getTime w) as [t w'] eqn:Ht; simpl in *.
    destruct (Z.leb_spec t d); [|lia].
    rewrite (IH w'); [done..| |lia]. intros i Hi.
    pose proof (Hlt (S i) ltac:(lia)) as Hi'. simpl in Hi'. by rewrite Ht in Hi'.
Qed.

(** The first reading beyond a point in time. *)
Lemma first_reading d w n :
  (d < reading n w)%Z → ∃ k, (d < reading k w)%Z ∧ ∀ i, (i < k)%nat → (reading i w <= d)%Z.
Proof.
  induction n as [n IH] using lt_wf_ind. intros Hn.
  destruct (decide (Exists (λ i, (d < reading i w)%Z) (seq 0 n))) as [Hex|Hno].
  - apply Exists_exists in Hex as (i & Hi & Hd). apply elem_of_seq in Hi. apply (IH i); [lia|done].
  - exists n. split; [done|]. intros i Hi. destruct (Z.le_gt_cases (reading i w) d); [done|].
    exfalso. apply Hno, Exists_exists. exists i. split; [apply elem_of_seq; lia|lia].
Qed.

Lemma sleep_returns ms g w : clock_progresses →
  ∃ n, (reading 0 w + ms < reading (S n) w)%Z ∧
    (∀ i, (i < n)%nat → (reading (S i) w <= reading 0 w + ms)%Z) ∧
    ∀ fuel, (n < fuel)%nat → sleep fuel ms (mkSys g w) = (Ok tt, mkSys g (ticks (S (S n)) w), []).
Proof.
  intros Hclock.
  set (w' := (api_getTime w).2). destruct (Hclock w' (reading 0 w + ms)%Z) as [n0 Hn0].
  destruct (first_reading _ _ _ Hn0) as (n & Hn & Hlt). exists n. split_and!; [done..|].
  intros fuel Hf. unfold sleep, mbind, M_bind, getTime. simpl. unfold reading in *. simpl in *. subst w'.
  destruct (api_getTime w) as [t w'] eqn:Ht; simpl in *.
  by rewrite (sleep_loop_spec n _ g w' Hn Hlt).
Qed.

(** [sleep(ms)] returns as soon as, and not before, a reading of the clock
    lies more than [ms] beyond the first one; a clock that progresses makes it
    return. *)
Theorem sleep_terminates (ms : Z) (g : Ctl) (w : W) (Hclock : clock_progresses) :
  ∃ n, (reading 0 w + ms < reading (S n) w)%Z ∧
    (∀ i, (i < n)%nat → (reading (S i) w <= reading 0 w + ms)%Z) ∧
    ∀ fuel, (n < fuel)%nat → sleep fuel ms (mkSys g w) = (Ok tt, mkSys g (ticks (S (S n)) w), []).
Proof. by apply sleep_returns. Qed.

(** A user who presses Retry only finitely often: [mu] counts how often at
    most, and running programs does not add to it. *)
Definition patient (mu : W → nat) : Prop :=
  (∀ title text w w', api_warning title text w = (AnsRetry, w') → (mu w' < mu w)%nat) ∧
  (∀ prog args w, (mu (api_execute prog args w).2 ≤ mu w)%nat).

Section Termination.
  Context (Hclock : clock_progresses) (mu : W → nat) (Hmu : patient mu).

Abbreviation within b := (λ s : Sys Ctl W, (mu (world s) ≤ b)%nat).

Lemma keeps_execute prog args b : keeps (within b) (execute prog args : Script ExecResult).
Proof.
  intros s Hs. unfold state_of, execute, ask. pose proof (proj2 Hmu prog args (world s)) as H.
  destruct (api_execute prog args (world s)); simpl in *. lia.
Qed.

(** Code that neither loops nor adds to the user's patience. *)
Definition settles {A} (m : Script A) : Prop :=
  ∀ b s, within b s → wp m (λ r s' _, r ≠ OutOfFuel ∧ within b s') s.

Lemma settles_bind {A B} (m : Script A) (k : A → Script B) :
  settles m → (∀ a, settles (k a)) → settles (m ≫= k).
Proof.
  intros Hm Hk b s Hs. apply wp_bind. eapply wp_mono; [by apply Hm|].
  intros [a|e|] s' t [Hr Hs']; simpl; [|done..]. by apply Hk.
Qed.
Lemma settles_gets {A} (f : Sys Ctl W → A) : settles (gets f).
Proof. by intros b s Hs. Qed.
Lemma settles_ret {A} (a : A) : settles (mret a).
Proof. by intros b s Hs. Qed.
Lemma settles_throw {A} e : settles (throw e : Script A).
Proof. by intros b s Hs. Qed.
Lemma settles_setG f : settles (setG f).
Proof. by intros b s Hs. Qed.
Lemma settles_execute prog args : settles (execute prog args).
Proof.
  intros b s Hs. pose proof (keeps_execute prog args b s Hs) as H. unfold wp, state_of, execute, ask in *.
  by destruct (api_execute prog args (world s)).
Qed.
Lemma settles_when b (m : Script unit) : settles m → settles (when b m).
Proof. by destruct b. Qed.
Lemma settles_if {A} (b : bool) (m1 m2 : Script A) : settles m1 → settles m2 → settles (if b then m1 else m2).
Proof. by destruct b. Qed.

Ltac settles_step := first
  [ progress intros | assumption | apply settles_bind | apply settles_when | apply settles_if
  | apply settles_ret | apply settles_gets | apply settles_setG | apply settles_throw
  | apply settles_execute
  | match goal with |- settles (match ?x with _ => _ end) => destruct x end ].

Lemma settles_appProcessIsRunning : settles appProcessIsRunning.
Proof. repeat settles_step. Qed.
Lemma settles_pollUntilStopped n : settles (pollUntilStopped n).
Proof.
  induction n as [|n IH]; [apply settles_ret|]. cbn [pollUntilStopped].
  apply settles_bind; [apply settles_appProcessIsRunning|]. repeat settles_step.
Qed.

Lemma settles_converges {A} (m : Script A) b s :
  settles m → within b s → converges (λ _, m) (λ _ s', within b s') s.
Proof.
  intros Hm Hs. apply converges_const. eapply wp_mono; [by apply (Hm b)|].
  intros [a|e|] s' t [Hr Hw]; simpl in *; done.
Qed.

Lemma messageLoop_converges s :
  converges isDesktopAppProcessRunningMessageLoop (λ _ _, True) s.
Proof.
  remember (mu (world s)) as b eqn:Hb. assert (within b s) as Hs by (simpl; lia). clear Hb.
  revert s Hs. induction b as [b IH] using lt_wf_ind. intros s Hs.
  apply converges_shift. cbn [isDesktopAppProcessRunningMessageLoop]. generalize 400%nat; intros polls.
  eapply converges_bind; [by eapply settles_converges; [apply settles_gets|]|].
  intros quit s1 H1. destruct quit; [by apply converges_const|].
  eapply converges_bind; [by eapply settles_converges; [apply settles_gets|]|].
  intros upd s2 H2. eapply converges_bind.
  { by eapply settles_converges; [apply settles_when, settles_pollUntilStopped|]. }
  intros [] s3 H3. eapply converges_bind.
  { by eapply settles_converges; [apply settles_appProcessIsRunning|]. }
  intros r s4 H4. eapply converges_bind; [by eapply settles_converges; [apply settles_setG|]|].
  intros [] s5 H5. destruct r; [|by apply converges_const]. simpl.
  eapply converges_bind; [by eapply settles_converges; [apply settles_gets|]|].
  intros name s6 H6. eapply (converges_bind _ _ (λ a s', a = AnsRetry → (mu (world s') < b)%nat)).
  { apply converges_const. unfold wp, warning, ask. destruct (api_warning _ _ _) as [a w'] eqn:Ha.
    intros ->. pose proof (proj1 Hmu _ _ _ _ Ha). simpl in *. lia. }
  intros a s7 H7. case_bool_decide as Ha.
  - eapply (IH (mu (world s7))); [by apply H7 | simpl; lia].
  - by apply converges_const.
Qed.

Definition conv {A} (m : nat → Script A) : Prop := ∀ s, converges m (λ _ _, True) s.

Lemma conv_bind {A B} (m : nat → Script A) (k : nat → A → Script B) :
  conv m → (∀ a, conv (λ n, k n a)) → conv (λ n, m n ≫= k n).
Proof. intros Hm Hk s. eapply converges_bind; [apply Hm|]. intros a s' _. apply Hk. Qed.
Lemma conv_when b (m : nat → Script unit) : conv m → conv (λ n, when b (m n)).
Proof. destruct b; [done|]. intros _ s. by apply converges_const. Qed.
Lemma conv_if {A} (b : bool) (m1 m2 : nat → Script A) :
  conv m1 → conv m2 → conv (λ n, if b then m1 n else m2 n).
Proof. by destruct b. Qed.
Lemma conv_gets {A} (f : Sys Ctl W → A) : conv (λ _, gets f).
Proof. intros s. by apply converges_const. Qed.
Lemma conv_ret {A} (a : A) : conv (λ _, mret a).
Proof. intros s. by apply converges_const. Qed.
Lemma conv_setG f : conv (λ _, setG f).
Proof. intros s. by apply converges_const. Qed.
Lemma conv_act f e : conv (λ _, act f e).
Proof. intros s. by apply converges_const. Qed.
Lemma conv_ask {A} (f : W → A * W) e : conv (λ _, ask f e).
Proof. intros s. apply converges_const. unfold wp, ask. by destruct (f (world s)). Qed.

Ltac conv_step := first
  [ progress intros | assumption | apply conv_bind | apply conv_when | apply conv_if
  | apply conv_ret | apply conv_gets | apply conv_setG | apply conv_act | apply conv_ask ].

Lemma conv_sleep ms : conv (λ n, sleep n ms).
Proof.
  intros [g w]. destruct (sleep_returns ms g w Hclock) as (n & _ & _ & Hn).
  exists (Ok tt, mkSys g (ticks (S (S n)) w), []), (S n). split_and!; [done| |done].
  intros fuel Hf. apply Hn. lia.
Qed.

Lemma conv_waitForRemoval polls : conv (λ n, waitForRemoval n polls).
Proof.
  induction polls as [|polls IH]; [apply conv_ret|]. cbn [waitForRemoval].
  apply conv_bind; [apply conv_sleep|]. repeat conv_step.
Qed.

Lemma conv_removeOldInstallation : conv removeOldInstallation.
Proof.
  unfold removeOldInstallation. generalize 300%nat; intros polls.
  repeat first [apply conv_waitForRemoval | conv_step].
Qed.

Lemma conv_controllerInstaller : conv controllerInstaller.
Proof.
  unfold controllerInstaller. do 4 (apply conv_bind; [apply conv_act|intros _]).
  apply conv_bind; [exact messageLoop_converges|]. intros _.
  repeat first [apply conv_removeOldInstallation | conv_step].
Qed.

Lemma conv_controllerUninstaller : conv controllerUninstaller.
Proof.
  unfold controllerUninstaller. apply conv_bind; [exact messageLoop_converges|]. repeat conv_step.
Qed.

End Termination.

(** [C38] The constructor returns: if the clock progresses and the user presses
    Retry only finitely often, then from some amount of fuel on the run is
    complete and does not depend on the fuel. *)
Theorem Controller_terminates (mu : W → nat) (s : Sys Ctl W)
    (Hclock : clock_progresses) (Hmu : patient mu) :
  ∃ x n0, result_of x ≠ OutOfFuel ∧ ∀ fuel, (n0 ≤ fuel)%nat → Controller fuel s = x.
Proof.
  assert (conv Controller) as H.
  { unfold Controller.
    repeat first [ apply (conv_controllerInstaller Hclock mu Hmu)
                 | apply (conv_controllerUninstaller mu Hmu)
                 | apply conv_bind | apply conv_when | apply conv_if | apply conv_ret | apply conv_gets
                 | apply conv_setG | apply conv_act | apply conv_ask | progress intros ]. }
  destruct (H s) as (x & n0 & Hx & Hrun & _). eauto.
Qed.

(** ** The target directory *)

(** The directory the Browse handler settles on. *)
Definition browse_dir (text name : string) : string :=
  if negb (endsWith text name) then text +:+ "\" +:+ name else text.

Lemma browse_dir_ends text name : ∃ p, browse_dir text name = p +:+ name.
Proof.
  unfold browse_dir. destruct (endsWith text name) eqn:He; simpl.
  - by apply endsWith_iff in He.
  - exists (text +:+ "\"). by rewrite sapp_assoc.
Qed.

(** The Browse handler acts only on Windows with the page present; it then
    stores a target directory that ends with the application's name, extends
    the chosen path only if it does not end so already, leaves a path it has
    produced unchanged when it runs again, and shows the stored value. *)
Theorem onBrowse_target_dir (s : Sys Ctl W) :
  let name := api_value (world s) "Name" in
  let dir := browse_dir (api_targetText (world s)) name in
  (∃ p, dir = p +:+ name) ∧ browse_dir dir name = dir ∧
  result_of (onBrowseButtonClicked s) = Ok tt ∧
  log_of (onBrowseButtonClicked s) =
    if api_pageById (world s) TargetDirectory && on_windows (world s)
    then [EvSetValue "TargetDir" dir;
          EvSetTargetText (api_value (api_setValue "TargetDir" dir (world s)) "TargetDir")]
    else [].
Proof.
  intros name dir. split_and!.
  - apply browse_dir_ends.
  - unfold browse_dir at 1. by rewrite (proj2 (endsWith_iff dir name) (browse_dir_ends _ _)).
  - unfold onBrowseButtonClicked. run_m. destruct (api_pageById _ _); [|done].
    by destruct (String.eqb _ "win").
  - unfold onBrowseButtonClicked, on_windows. run_m. destruct (api_pageById _ _); [|done].
    by destruct (String.eqb _ "win").
Qed.

(** ** Detecting the running application *)

(** Outside Windows the application counts as running exactly when
    [pgrep], which prints process numbers line by line, prints one and the
    first of them is at least 2; if the shell cannot be started the check
    raises a TypeError. *)
Theorem checkProcess_pgrep (arg : string) (s : Sys Ctl W) (w : W) (r : option (list N * Z))
    (Hexec : api_execute "/bin/bash" ["-c"; arg] (world s) =
      (match r with Some (pids, code) => Some (pid_lines pids, code) | None => None end, w)) :
  result_of (checkProcessIsRunning arg s) =
    match r with
    | None => Err TypeError
    | Some ([], _) => Ok false
    | Some (p :: _, _) => Ok (2 <=? p)%N
    end.
Proof.
  unfold checkProcessIsRunning, execute, ask, mbind, M_bind. rewrite Hexec.
  destruct r as [[[|p ps] code]|]; [done| |done].
  destruct (first_pid_line p ps) as [rest ->]. unfold result_of; simpl. f_equal.
  rewrite js_Number_pretty. unfold num_geb, num_cmp. simpl.
  rewrite Z.mul_1_r. destruct (N.leb_spec 2 p) as [H|H].
  - assert (Z.of_N p ?= 2 = Eq ∨ Z.of_N p ?= 2 = Gt)%Z as [->| ->]; [|done..].
    rewrite Z.compare_eq_iff, Z.compare_gt_iff. lia.
  - assert (Z.of_N p ?= 2 = Lt)%Z as -> by (apply Z.compare_lt_iff; lia). done.
Qed.

(** ** Where an installation is looked for *)

Definition uninstaller_paths (w : W) (c : Ctl) : option string * option string :=
  if on_windows w then
    (Some (api_value w "RootDir" +:+ "Program Files/AmneziaVPN/maintenancetool.exe"),
     Some (api_value w "RootDir" +:+ "Program Files (x86)/AmneziaVPN/maintenancetool.exe"))
  else
    (if on_mac w then
       Some ("/Applications/" +:+ api_value w "Name" +:+ ".app/maintenancetool.app/Contents/MacOS/maintenancetool")
     else if on_linux w then Some ("/opt/" +:+ api_value w "Name" +:+ "/maintenancetool")
     else appInstalledUninstallerPath c,
     appInstalledUninstallerPath_x86 c).

(** [appInstalled] remembers the platform's maintenance-tool paths (the
    second one only on Windows), changes nothing else, and answers whether one
    of them exists. *)
Theorem appInstalled_spec (s : Sys Ctl W) :
  let p := (uninstaller_paths (world s) (globals s)).1 in
  let p86 := (uninstaller_paths (world s) (globals s)).2 in
  result_of (appInstalled s) = Ok (api_fileExists (world s) p || api_fileExists (world s) p86) ∧
  state_of (appInstalled s) = mkSys (set_path_x86 p86 (set_path p (globals s))) (world s).
Proof.
  destruct s as [[q u d p p86] w].
  unfold uninstaller_paths, appInstalled, runningOnWindows, runningOnMacOS, runningOnLinux,
    on_windows, on_mac, on_linux, fileExists, ask, setG, getG, set_path, set_path_x86, value, query.
  run_m. unfold result_of, state_of.
  destruct (String.eqb (api_value w "os") "win"); run_m;
    [|destruct (String.eqb (api_value w "os") "mac"); run_m;
      [|destruct (String.eqb (api_value w "os") "linux" || String.eqb (api_value w "os") "x11"); run_m]];
    by destruct (api_fileExists w _).
Qed.

(** ** The pages after a restart *)

(** Once the updater has shown its restart page, the introduction page
    ends the wizard instead of starting over: the two callbacks press Finish,
    Finish and Cancel and never Next. *)
Theorem restart_ends_wizard (s : Sys Ctl W)
    (Hupd : api_isUpdater (api_clickButton FinishButton (world s)) = true) :
  result_of ((RestartPageCallback;; IntroductionPageCallback) s) = Ok tt ∧
  log_of ((RestartPageCallback;; IntroductionPageCallback) s) =
    [EvClick FinishButton; EvClick FinishButton; EvClick CancelButton].
Proof.
  destruct s as [c w]. unfold RestartPageCallback, IntroductionPageCallback, clickButton, act,
    setG, getG, isUpdater, query. run_m. simpl in Hupd. rewrite Hupd. done.
Qed.

End ControlScript.

(** ** Concrete runs *)

(** A Windows machine with a 64-bit and a 32-bit installation: the 32-bit
    uninstaller is aborted (status 1, nothing removed), the other succeeds. *)
Definition two_installations : Sim.World :=
  Sim.mkWorld [("os", "win"); ("Name", "AmneziaVPN"); ("RootDir", "C:/")] 0
    ["C:/Program Files/AmneziaVPN/maintenancetool.exe";
     "C:/Program Files (x86)/AmneziaVPN/maintenancetool.exe"]
    0 [AnsOk]
    (λ prog _,
       if String.eqb prog "C:/Program Files (x86)/AmneziaVPN/maintenancetool.exe"
       then (Some ("", 1%Z), λ _, true)
       else if String.eqb prog "C:/Program Files/AmneziaVPN/maintenancetool.exe"
       then (Some ("", 0%Z), λ f, negb (String.eqb f prog))
       else (Some ("explorer.exe", 0%Z), λ _, true))
    true true "".

(** A Linux machine on which the application runs until the second check. *)
Definition linux_machine (out : string) : Sim.World :=
  Sim.mkWorld [("os", "linux"); ("Name", "AmneziaVPN")] 0 [] 0 [AnsRetry; AnsAbort]
    (λ _ _, (Some (out, 0%Z), λ _, true)) true true "".

(** When both the 32-bit and the 64-bit program are installed, the exit
    status of the 32-bit uninstaller is overwritten by the other one: here the
    user aborts the 32-bit uninstallation (status 1), its files stay, and the
    installer goes on as if both had been removed. *)
Theorem x86_uninstaller_status_ignored :
  ∃ s' t, Controller 20 (mkSys initialCtl two_installations) = (Ok tt, s', t) ∧
    EvExecute "C:/Program Files (x86)/AmneziaVPN/maintenancetool.exe" [] (Some ("", 1%Z)) ∈ t ∧
    (EvSetCancelled ∉ t) ∧
    Sim.files (world s') = ["C:/Program Files (x86)/AmneziaVPN/maintenancetool.exe"].
Proof.
  eexists _, _. split; [vm_compute; reflexivity|]. split_and!; [|by set_solver|done].
  repeat (apply elem_of_cons; first [by left | right]).
Qed.

Lemma sim_reading n w : reading n w = (Sim.clock w + 30 * Z.of_nat n)%Z.
Proof.
  revert w. induction n as [|n IH]; intros w; unfold reading in *; simpl in *; [lia|].
  rewrite IH. simpl. lia.
Qed.

Lemma sim_clock_progresses : clock_progresses (W := Sim.World).
Proof. intros w d. exists (Z.to_nat (d - Sim.clock w + 1)). rewrite sim_reading. lia. Qed.

Lemma sim_patient : patient (W := Sim.World) (λ w, List.length (Sim.answers w)).
Proof.
  split.
  - intros title text w w' H. simpl in H. unfold Sim.pop_answer in H.
    destruct (Sim.answers w) as [|a l] eqn:Ha; simplify_eq. simpl. lia.
  - intros prog args w. simpl. unfold Sim.run. by destruct (Sim.programs w prog args).
Qed.

Lemma sleep_terminates_witness :
  ∃ n, (reading 0 two_installations + 100 < reading (S n) two_installations)%Z ∧
    (∀ i, (i < n)%nat → (reading (S i) two_installations <= reading 0 two_installations + 100)%Z) ∧
    ∀ fuel, (n < fuel)%nat → sleep fuel 100 (mkSys initialCtl two_installations) =
      (Ok tt, mkSys initialCtl (ticks (S (S n)) two_installations), []).
Proof. exact (sleep_terminates 100 initialCtl two_installations sim_clock_progresses). Defined.

Lemma Controller_terminates_witness :
  ∃ x n0, result_of x ≠ OutOfFuel ∧
    ∀ fuel, (n0 ≤ fuel)%nat → Controller fuel (mkSys initialCtl (linux_machine "17")) = x.
Proof.
  exact (Controller_terminates _ (mkSys initialCtl (linux_machine "17")) sim_clock_progresses sim_patient).
Defined.

Lemma checkProcess_pgrep_witness :
  result_of (checkProcessIsRunning "pgrep -x 'AmneziaVPN'"
    (mkSys initialCtl (linux_machine (pid_lines [812; 4711]%N)))) = Ok true.
Proof.
  exact (checkProcess_pgrep "pgrep -x 'AmneziaVPN'" (mkSys initialCtl (linux_machine (pid_lines [812; 4711]%N)))
    _ (Some ([812; 4711]%N, 0%Z)) eq_refl).
Defined.

Lemma restart_ends_wizard_witness :
  log_of ((RestartPageCallback;; IntroductionPageCallback)
    (mkSys initialCtl (Sim.mkWorld [] 1 [] 0 [] (λ _ _, (None, λ _, true)) true true ""))) =
    [EvClick FinishButton; EvClick FinishButton; EvClick CancelButton].
Proof.
  exact (proj2 (restart_ends_wizard
    (mkSys initialCtl (Sim.mkWorld [] 1 [] 0 [] (λ _ _, (None, λ _, true)) true true "")) eq_refl)).
Defined.
