(* ===== verification/ComponentScript.v ===== *)
(** * The package's component script

    Models [src/deploy/installer/packages/org.amneziavpn.package/meta/componentscript.js]:
    which operations the package adds on each platform, and what happens when
    the finish button is pressed.  The script keeps no global state;
    [console.log] output is left out. *)

From stdpp Require Import prelude strings.
From Stdlib Require Import ZArith Lia Ascii String.
From S2P Require Import Prelude JsRuntime InstallerApi.

Module Component.
Section ComponentScript.
  Context {W : Type} {api : InstallerApi W}.

Abbreviation Script A := (JS (G := unit) (W := W) A).

Definition appName : Script string := value "Name".

Definition serviceName : Script string := name ← appName; mret (name +:+ "-service").

Definition runningOnWindows : Script bool := query (λ w, String.eqb (api_kernelType w) "winnt").
Definition runningOnMacOS : Script bool := query (λ w, String.eqb (api_kernelType w) "darwin").
Definition runningOnLinux : Script bool := query (λ w, String.eqb (api_kernelType w) "linux").

Definition appExecutableFileName : Script string :=
  win ← runningOnWindows;
  name ← appName;
  mret (if (win : bool) then name +:+ ".exe" else name).

Definition vcRuntimeIsInstalled : Script bool :=
  root ← value "RootDir";
  path ← query (λ w, api_findPath w "msvcp140.dll" [root +:+ "\Windows\System32\"]);
  mret (negb (String.length path =? 0)%nat).

(** The constructor connects the component's handlers. *)
Definition Component : Script unit :=
  act (api_connect "component.loaded" "componentLoaded")
    (EvConnect "component.loaded" "componentLoaded");;
  act (api_connect "installer.installationFinished" "installationFinishedPageIsShown")
    (EvConnect "installer.installationFinished" "installationFinishedPageIsShown");;
  act (api_connect "installer.finishButtonClicked" "installationFinished")
    (EvConnect "installer.finishButtonClicked" "installationFinished").

Definition componentLoaded : Script unit := mret tt.

Definition installationFinishedPageIsShown : Script unit :=
  inst ← isInstaller;
  ok ← statusSuccess;
  when (inst && ok) (clickButton FinishButton).

Definition addOperation (args : list OpArg) : Script unit :=
  act (api_addOperation false args) (EvAddOperation false args).
Definition addElevatedOperation (args : list OpArg) : Script unit :=
  act (api_addOperation true args) (EvAddOperation true args).

(** The arguments of the two shortcut operations. *)
Definition shortcutArgs (exe link : string) : list OpArg :=
  OpStr <$> ["CreateShortcut"; "@TargetDir@/" +:+ exe; link;
             "workingDirectory=@TargetDir@"; "iconPath=@TargetDir@\" +:+ exe; "iconId=0"].

Definition vcRedistArgs (file : string) : list OpArg :=
  OpStr <$> ["Execute"; "@TargetDir@\" +:+ file; "/install"; "/quiet"; "/norestart"; "/log"; "vc_redist.log"].

(** [installer.value("TargetDir").replace(/\//g, '\\') + "\\"] *)
Definition puPath (targetDir : string) : string := js_replace_all "/" "\" targetDir +:+ "\".

Definition serviceArgs (pu service : string) : list OpArg :=
  [OpStr "Execute";
   OpList ["sc"; "create"; service; "binpath="; pu +:+ service +:+ ".exe";
           "start="; "auto"; "depend="; "BFE/nsi"];
   OpStr "UNDOEXECUTE"; OpStr "cmd"; OpStr "/c"; OpStr (pu +:+ "post_uninstall.cmd")].

Definition createWindowsOperations : Script unit :=
  exe ← appExecutableFileName;
  name ← appName;
  desktop ← query api_desktopLocation;
  addOperation (shortcutArgs exe (desktop +:+ "/" +:+ name +:+ ".lnk"));;
  exe' ← appExecutableFileName;
  name' ← appName;
  menu ← value "AllUsersStartMenuProgramsPath";
  addElevatedOperation (shortcutArgs exe' (menu +:+ "/" +:+ name' +:+ ".lnk"));;
  vc ← vcRuntimeIsInstalled;
  when (negb vc) (
    arch ← query api_cpuArchitecture;
    addElevatedOperation (vcRedistArgs
      (if (js_indexOf arch "64" 0 <? 0)%Z then "vc_redist.x86.exe" else "vc_redist.x64.exe")));;
  dir ← value "TargetDir";
  service ← serviceName;
  addElevatedOperation (serviceArgs (puPath dir) service);;
  addElevatedOperation (OpStr <$> ["Execute"; "cmd"; "/c"; puPath dir +:+ "post_install.cmd"]).

Definition createOperations : Script unit :=
  act api_createDefaultOperations EvDefaultOperations;;
  win ← runningOnWindows;
  if (win : bool) then createWindowsOperations
  else
    mac ← runningOnMacOS;
    if (mac : bool) then
      addElevatedOperation (OpStr <$> ["Execute"; "@TargetDir@/post_install.sh";
                                       "UNDOEXECUTE"; "@TargetDir@/post_uninstall.sh"])
    else
      linux ← runningOnLinux;
      when linux
        (addElevatedOperation (OpStr <$> ["Execute"; "bash"; "@TargetDir@/post_install.sh";
                                          "UNDOEXECUTE"; "bash"; "@TargetDir@/post_uninstall.sh"])).

(** The platform part of the finish handler: the command to start. *)
Definition launchCommand : Script string :=
  win ← runningOnWindows;
  if (win : bool) then
    exe ← appExecutableFileName;
    service ← serviceName;
    execute "net" ["start"; service];;
    service' ← serviceName;
    execute "sc" ["failure"; service'; "reset="; "100"; "actions="; "restart/2000/restart/2000/restart/2000"];;
    mret ("@TargetDir@/" +:+ exe)
  else
    mac ← runningOnMacOS;
    name ← appName;
    if (mac : bool) then mret ("/Applications/" +:+ name +:+ ".app/Contents/MacOS/" +:+ name)
    else
      linux ← runningOnLinux;
      mret (if (linux : bool) then "@TargetDir@/client/" +:+ name else "").

Definition installationFinished : Script unit :=
  ok ← statusSuccess;
  inst ← isInstaller;
  upd ← isUpdater;
  when (ok && (inst || upd)) (
    gained ← ask api_gainAdminRights EvGainAdminRights;
    when gained (
      command ← launchCommand;
      act api_dropAdminRights EvDropAdminRights;;
      dir ← value "TargetDir";
      executeDetached command [] dir)).

(** ** Privileges *)

(** Follows the administrator rights through a log: service commands need
    them, the application must be started without them.  [None] is a
    violation. *)
Fixpoint admin_check (admin : bool) (t : list Event) : option bool :=
  match t with
  | [] => Some admin
  | e :: t =>
      match e with
      | EvGainAdminRights b => admin_check (admin || b) t
      | EvDropAdminRights => admin_check false t
      | EvExecute _ _ _ => if admin then admin_check admin t else None
      | EvExecuteDetached _ _ _ => if admin then None else admin_check admin t
      | _ => admin_check admin t
      end
  end.

(** What the finish handler starts: the platform's client binary. *)
Definition launch_target (w : W) : string :=
  if String.eqb (api_kernelType w) "winnt" then "@TargetDir@/" +:+ api_value w "Name" +:+ ".exe"
  else if String.eqb (api_kernelType w) "darwin" then
    "/Applications/" +:+ api_value w "Name" +:+ ".app/Contents/MacOS/" +:+ api_value w "Name"
  else if String.eqb (api_kernelType w) "linux" then "@TargetDir@/client/" +:+ api_value w "Name"
  else "".

Definition detached (e : Event) : option string :=
  match e with EvExecuteDetached prog _ _ => Some prog | _ => None end.

Lemma launchCommand_spec s :
  wp launchCommand (λ r s' t,
    r = Ok (launch_target (world s)) ∧ omap detached t = [] ∧
    ∀ rest, admin_check true (t ++ rest) = admin_check true rest) s.
Proof.
  unfold launchCommand, launch_target, runningOnWindows, runningOnMacOS, runningOnLinux,
    appExecutableFileName, runningOnWindows, serviceName, execute, ask, value, query, wp.
  destruct s as [u w]. run_m. destruct (String.eqb (api_kernelType w) "winnt") eqn:Hk; run_m.
  - destruct (api_execute "net" _ w) as [r1 w1]; simpl.
    destruct (api_execute "sc" _ w1) as [r2 w2]. simpl. rewrite Hk. done.
  - destruct (String.eqb (api_kernelType w) "darwin"); run_m; [done|].
    by destruct (String.eqb (api_kernelType w) "linux").
Qed.

(** [C40] Pressing Finish after a successful installation or update: service
    commands run only with administrator rights, the rights are given up
    before the application is started and at the end in every case, and the
    platform's client is started exactly once if the rights were gained and
    not at all otherwise. *)
Theorem installationFinished_privileges (s : Sys unit W) :
  let w := world s in
  let go := api_success w && (api_isInstaller w || api_isUpdater w) in
  admin_check false (log_of (installationFinished s)) = Some false ∧
  result_of (installationFinished s) = Ok tt ∧
  omap detached (log_of (installationFinished s)) =
    if go && (api_gainAdminRights w).1 then [launch_target (api_gainAdminRights w).2] else [].
Proof.
  destruct s as [u w]. unfold installationFinished, statusSuccess, isInstaller, isUpdater, ask, act,
    executeDetached, value, query. run_m.
  destruct (api_success w && (api_isInstaller w || api_isUpdater w)); run_m; [|done].
  destruct (api_gainAdminRights w) as [[] w1]; run_m; [|done].
  pose proof (launchCommand_spec (mkSys u w1)) as H. unfold wp in H. simpl in H.
  destruct (launchCommand (mkSys u w1)) as [[r s'] t]. destruct H as (-> & Ht & Hadm).
  simpl. unfold log_of; simpl. rewrite Hadm, omap_app, Ht. done.
Qed.

(** ** Operations *)

Definition has_undo (e : Event) : bool :=
  match e with
  | EvAddOperation true (OpStr "Execute" :: args) =>
      existsb (λ a, match a with OpStr s => String.eqb s "UNDOEXECUTE" | _ => false end) args
  | _ => false
  end.

(** The redistributable operations of a log. *)
Definition redist (e : Event) : option string :=
  match e with
  | EvAddOperation true (OpStr "Execute" :: OpStr file :: OpStr "/install" :: _) => Some file
  | _ => None
  end.

(** Adding an operation only appends to the component's operation list: what
    the framework answers to the script's questions stays the same. *)
Definition operations_keep_reads : Prop :=
  ∀ b args (w : W),
    api_kernelType (api_addOperation b args w) = api_kernelType w ∧
    api_cpuArchitecture (api_addOperation b args w) = api_cpuArchitecture w ∧
    (∀ k, api_value (api_addOperation b args w) k = api_value w k) ∧
    (∀ f l, api_findPath (api_addOperation b args w) f l = api_findPath w f l).

Definition vc_runtime_missing (w : W) : bool :=
  String.eqb (api_findPath w "msvcp140.dll" [api_value w "RootDir" +:+ "\Windows\System32\"]) "".

Lemma post_install_not_keyword pu : String.eqb (pu +:+ "post_install.cmd") "UNDOEXECUTE" = false.
Proof.
  apply String.eqb_neq. intros H. apply (f_equal String.length) in H.
  rewrite sapp_length in H. simpl in H. lia.
Qed.

Lemma reads_vc (Hreads : operations_keep_reads) b args w :
  vc_runtime_missing (api_addOperation b args w) = vc_runtime_missing w.
Proof. unfold vc_runtime_missing. destruct (Hreads b args w) as (_ & _ & Hv & Hf). by rewrite Hf, Hv. Qed.
Lemma reads_arch (Hreads : operations_keep_reads) b args w :
  api_cpuArchitecture (api_addOperation b args w) = api_cpuArchitecture w.
Proof. by destruct (Hreads b args w) as (_ & H & _). Qed.

Lemma createWindowsOperations_spec s :
  operations_keep_reads →
  wp createWindowsOperations (λ _ _ t,
    List.length (List.filter has_undo t) = 1%nat ∧
    omap redist t =
      if vc_runtime_missing (world s) then
        ["@TargetDir@\" +:+ (if (js_indexOf (api_cpuArchitecture (world s)) "64" 0 <? 0)%Z
                             then "vc_redist.x86.exe" else "vc_redist.x64.exe")]
      else []) s.
Proof.
  intros Hreads. destruct s as [u w]. unfold createWindowsOperations.
  apply (wp_query_bind (λ w, if String.eqb (api_kernelType w) "winnt" then api_value w "Name" +:+ ".exe"
                             else api_value w "Name")).
  apply (wp_query_bind (λ w, api_value w "Name")), (wp_query_bind api_desktopLocation).
  apply wp_act_bind.
  apply (wp_query_bind (λ w, if String.eqb (api_kernelType w) "winnt" then api_value w "Name" +:+ ".exe"
                             else api_value w "Name")).
  apply (wp_query_bind (λ w, api_value w "Name")).
  apply (wp_query_bind (λ w, api_value w "AllUsersStartMenuProgramsPath")).
  apply wp_act_bind.
  apply (wp_query_bind (λ w, negb (String.length
    (api_findPath w "msvcp140.dll" [api_value w "RootDir" +:+ "\Windows\System32\"]) =? 0)%nat)).
  cbn [world globals].
  set (w2 := api_addOperation true _ _).
  assert (vc_runtime_missing w2 = vc_runtime_missing w ∧ api_cpuArchitecture w2 = api_cpuArchitecture w)
    as [Hvc Harch].
  { subst w2. by rewrite !(reads_vc Hreads), !(reads_arch Hreads). }
  clearbody w2. rewrite <- Hvc, <- Harch. unfold vc_runtime_missing.
  destruct (api_findPath w2 _ _) as [|c path]; cbn [negb String.length Nat.eqb String.eqb]; run_m;
    unfold wp; run_m; unfold serviceName, value, query; run_m; rewrite post_install_not_keyword; done.
Qed.

(** The package's operations: the framework's defaults come first; on
    each of the three platforms exactly one elevated operation is added that
    also says how to undo it, on any other none; and the Visual C++
    redistributable is installed exactly on a Windows machine without the
    runtime, in the 64-bit variant when the architecture's name has a 64. *)
Theorem createOperations_spec (s : Sys unit W) (Hreads : operations_keep_reads) :
  let w := api_createDefaultOperations (world s) in
  let k := api_kernelType w in
  let t := log_of (createOperations s) in
  head t = Some EvDefaultOperations ∧
  List.length (List.filter has_undo t) =
    (if String.eqb k "winnt" || String.eqb k "darwin" || String.eqb k "linux" then 1 else 0)%nat ∧
  omap redist t =
    if String.eqb k "winnt" && vc_runtime_missing w then
      ["@TargetDir@\" +:+
       (if (js_indexOf (api_cpuArchitecture w) "64" 0 <? 0)%Z then "vc_redist.x86.exe" else "vc_redist.x64.exe")]
    else [].
Proof.
  destruct s as [u w0]. simpl. set (w := api_createDefaultOperations w0).
  unfold createOperations, runningOnWindows, runningOnMacOS, runningOnLinux, addElevatedOperation,
    act, query. run_m. fold w.
  destruct (String.eqb (api_kernelType w) "winnt") eqn:Hk; run_m; last first.
  { destruct (String.eqb (api_kernelType w) "darwin"); run_m; [done|].
    by destruct (String.eqb (api_kernelType w) "linux"). }
  pose proof (createWindowsOperations_spec (mkSys u w) Hreads) as H. unfold wp in H. simpl in H.
  destruct (createWindowsOperations (mkSys u w)) as [[r s'] t]. unfold log_of. simpl.
  destruct H as [H1 H2]. split_and!; [done | exact H1 | exact H2].
Qed.

End ComponentScript.

Lemma createOperations_spec_witness :
  let s := mkSys tt (Sim.mkWorld [("kernelType", "winnt"); ("currentCpuArchitecture", "x86_64");
    ("Name", "AmneziaVPN"); ("TargetDir", "C:/Program Files/AmneziaVPN")] 0 [] 0 []
    (λ _ _, (None, λ _, true)) true true "") in
  omap redist (log_of (createOperations s)) = ["@TargetDir@\vc_redist.x64.exe"].
Proof.
  intros s. exact (proj2 (proj2 (createOperations_spec s
    (λ b args w, conj eq_refl (conj eq_refl (conj (λ k, eq_refl) (λ f l, eq_refl))))))).
Defined.

End Component.
