(* ===== verification/IPAddress.v ===== *)
(** * IP networks

    Models the class [IPAddress] of [src/client/mozilla/shared/ipaddress.cpp]
    and [ipaddress.h]: an address with a prefix length, its masks, the
    containment tests and the subtraction of networks.  An IPv4 address is a
    32-bit unsigned integer, an IPv6 address the array of 16 bytes the code
    works on.  [Q_ASSERT] is compiled out, as in a release build, so a failed
    assertion has no effect of its own.  [QHostAddress] is Qt's: its three
    kinds are modelled (scope ids are not), its text parsers are parameters. *)

From stdpp Require Import prelude strings list gmap countable.
From Stdlib Require Import ZArith Lia Ascii.
From S2P Require Import Prelude.

Local Open Scope Z_scope.

(** [QHostAddress]: null, IPv4 or IPv6. *)
Inductive QHostAddress :=
| NullAddress
| IPv4 (a : Z)
| IPv6 (b : list Z).

#[global] Instance QHostAddress_eq_dec : EqDecision QHostAddress.
Proof. solve_decision. Defined.

(** [QAbstractSocket::NetworkLayerProtocol] *)
Inductive Protocol := UnknownProtocol | IPv4Protocol | IPv6Protocol.

#[global] Instance Protocol_eq_dec : EqDecision Protocol.
Proof. solve_decision. Defined.

Definition protocol (h : QHostAddress) : Protocol :=
  match h with NullAddress => UnknownProtocol | IPv4 _ => IPv4Protocol | IPv6 _ => IPv6Protocol end.

Record IPAddress := mkIP { address : QHostAddress; prefixLength : Z }.

(** [operator==] *)
#[global] Instance IPAddress_eq_dec : EqDecision IPAddress.
Proof. solve_decision. Defined.

(** ** Constructors *)

(** [IPAddress(const QString&)]; the parsers are [QHostAddress(QString)] and
    [QHostAddress::parseSubnet]. *)
Definition fromString (parseAddress : string → QHostAddress)
    (parseSubnet : string → QHostAddress * Z) (ip : string) : IPAddress :=
  let '(a, p) := if has_char "/"%char ip then parseSubnet ip
                 else (parseAddress ip, 999999) in
  mkIP a (match protocol a with
          | IPv4Protocol => if 32 <=? p then 32 else p
          | IPv6Protocol => if 128 <=? p then 128 else p
          | UnknownProtocol => p
          end).

(** [IPAddress(const QHostAddress&)] *)
Definition fromHost (a : QHostAddress) : IPAddress :=
  mkIP a (match protocol a with IPv4Protocol => 32 | _ => 128 end).

(** ** Masks *)

(** [memset(&l[off], v, n)] inside the array. *)
Definition memset (l : list Z) (off n : nat) (v : Z) : list Z :=
  take off l ++ replicate n v ++ drop (off + n) l.

Definition zeros16 : list Z := replicate 16 0.

Definition netmask (ip : IPAddress) : QHostAddress :=
  let p := prefixLength ip in
  match address ip with
  | IPv6 _ =>
      let raw := memset zeros16 0 (Z.to_nat (p / 8)) 255 in
      IPv6 (if negb (p mod 8 =? 0)
            then <[Z.to_nat (p / 8) := Z.lxor 255 (Z.shiftr 255 (p mod 8))]> raw else raw)
  | IPv4 _ =>
      IPv4 (if p <? 32 then Z.lxor 4294967295 (Z.shiftr 4294967295 p) else 4294967295)
  | NullAddress => NullAddress
  end.

Definition hostmask (ip : IPAddress) : QHostAddress :=
  let p := prefixLength ip in
  match address ip with
  | IPv6 _ =>
      let offset := Z.to_nat ((p + 7) / 8) in
      let raw := memset zeros16 offset (16 - offset) 255 in
      IPv6 (if negb (p mod 8 =? 0) then <[Z.to_nat (p / 8) := Z.shiftr 255 (p mod 8)]> raw else raw)
  | IPv4 _ => IPv4 (if p <? 32 then Z.shiftr 4294967295 p else 0)
  | NullAddress => NullAddress
  end.

Definition broadcastAddress (ip : IPAddress) : QHostAddress :=
  let p := prefixLength ip in
  match address ip with
  | IPv6 b =>
      let offset := Z.to_nat ((p + 7) / 8) in
      let raw := memset b offset (16 - offset) 255 in
      IPv6 (if negb (p mod 8 =? 0)
            then <[Z.to_nat (p / 8) := Z.lor (default 0 (raw !! Z.to_nat (p / 8))) (Z.shiftr 255 (p mod 8))]> raw
            else raw)
  | IPv4 a => IPv4 (if p <? 32 then Z.lor a (Z.shiftr 4294967295 p) else a)
  | NullAddress => NullAddress
  end.

(** ** Containment *)

Definition contains (ip : IPAddress) (x : QHostAddress) : bool :=
  let p := prefixLength ip in
  if negb (bool_decide (protocol x = protocol (address ip))) then false
  else if p =? 0 then true
  else
    match address ip, x with
    | IPv6 a, IPv6 b =>
        let bytes := Z.to_nat (p / 8) in
        if (0 <? bytes)%nat && negb (bool_decide (take bytes a = take bytes b)) then false
        else if negb (p mod 8 =? 0) then
          Z.shiftr (Z.lxor (default 0 (a !! bytes)) (default 0 (b !! bytes))) (8 - p mod 8) =? 0
        else true
    | IPv4 a, IPv4 b =>
        let diff := Z.lxor a b in
        (if p <? 32 then Z.shiftr diff (32 - p) else diff) =? 0
    | _, _ => false
    end.

Definition overlaps (ip other : IPAddress) : bool :=
  if prefixLength ip <? prefixLength other then contains ip (address other)
  else contains other (address ip).

Definition subnetOf (ip other : IPAddress) : bool :=
  if negb (bool_decide (protocol (address other) = protocol (address ip))) then false
  else if prefixLength ip <? prefixLength other then false
  else contains other (address ip).

(** ** Splitting and subtraction *)

(** [QHostAddress::toIPv6Address], all zero for a null address. *)
Definition toIPv6Address (h : QHostAddress) : list Z :=
  match h with IPv6 b => b | _ => zeros16 end.

Definition subnets (ip : IPAddress) : list IPAddress :=
  let p := prefixLength ip in
  match address ip with
  | IPv4 a =>
      if 32 <=? p then [ip]
      else [mkIP (IPv4 a) (p + 1); mkIP (IPv4 (Z.lor a (Z.shiftr 2147483648 p))) (p + 1)]
  | h =>
      if 128 <=? p then [ip]
      else
        let b := toIPv6Address h in
        [mkIP (IPv6 b) (p + 1);
         mkIP (IPv6 (<[Z.to_nat (p / 8) :=
           Z.lor (default 0 (b !! Z.to_nat (p / 8))) (Z.shiftr 128 (p mod 8))]> b)) (p + 1)]
  end.

(** Reading [sn[1]] of a list with one element is out of range. *)
Inductive IPError := IndexOutOfRange.

(** The loop of [excludeAddresses(const IPAddress&)]: [result] is the list
    built so far. *)
Fixpoint exclude_loop (fuel : nat) (sn : list IPAddress) (ip : IPAddress) (result : list IPAddress)
    : res IPError (list IPAddress) :=
  match fuel with
  | O => OutOfFuel
  | S fuel =>
      match sn with
      | s0 :: s1 :: _ =>
          if negb (bool_decide (s0 = ip)) && negb (bool_decide (s1 = ip)) then
            if subnetOf ip s0 then exclude_loop fuel (subnets s0) ip (result ++ [s1])
            else if subnetOf ip s1 then exclude_loop fuel (subnets s1) ip (result ++ [s0])
            else exclude_loop fuel sn ip result
          else if bool_decide (s0 = ip) then Ok (result ++ [s1])
          else if bool_decide (s1 = ip) then Ok (result ++ [s0])
          else Ok result
      | _ => Err IndexOutOfRange
      end
  end.

Definition excludeAddress (fuel : nat) (self ip : IPAddress) : res IPError (list IPAddress) :=
  exclude_loop fuel (subnets self) ip [].

(** The inner loop of the static [excludeAddresses]. *)
Fixpoint exclude_from (fuel : nat) (results : list IPAddress) (exclude : IPAddress)
    : res IPError (list IPAddress) :=
  match results with
  | [] => Ok []
  | ip :: rest =>
      let here :=
        if negb (overlaps ip exclude) then Ok [ip]
        else if subnetOf exclude ip && negb (bool_decide (exclude = ip)) then excludeAddress fuel ip exclude
        else Ok [] in
      match here with
      | Ok l => match exclude_from fuel rest exclude with Ok l' => Ok (l ++ l') | r => r end
      | r => r
      end
  end.

Fixpoint excludeAddresses (fuel : nat) (sourceList excludeList : list IPAddress)
    : res IPError (list IPAddress) :=
  match excludeList with
  | [] => Ok sourceList
  | e :: es =>
      match exclude_from fuel sourceList e with
      | Ok l => excludeAddresses fuel l es
      | r => r
      end
  end.

(** ** Addresses as numbers *)

(** The big-endian value of a byte array. *)
Fixpoint be_val (l : list Z) : Z :=
  match l with [] => 0 | b :: l => b * 256 ^ Z.of_nat (length l) + be_val l end.

Definition width (h : QHostAddress) : Z := match h with IPv6 _ => 128 | _ => 32 end.
Definition host_val (h : QHostAddress) : Z :=
  match h with NullAddress => 0 | IPv4 a => a | IPv6 b => be_val b end.

(** A proper address of its family. *)
Definition wf_host (h : QHostAddress) : Prop :=
  match h with
  | NullAddress => False
  | IPv4 a => 0 <= a < 2 ^ 32
  | IPv6 b => length b = 16%nat ∧ Forall byte b
  end.

Definition wf_ip (ip : IPAddress) : Prop :=
  wf_host (address ip) ∧ 0 <= prefixLength ip <= width (address ip).

(** The reference definition of "lies in the network": same family and equal
    leading bits. *)
Definition in_net (ip : IPAddress) (x : QHostAddress) : Prop :=
  protocol x = protocol (address ip) ∧
  host_val x / 2 ^ (width (address ip) - prefixLength ip) =
  host_val (address ip) / 2 ^ (width (address ip) - prefixLength ip).

(** A network with no host bits set. *)
Definition normalised (ip : IPAddress) : Prop :=
  host_val (address ip) mod 2 ^ (width (address ip) - prefixLength ip) = 0.

(** The result of halving a network. *)
Record halves (ip s0 s1 : IPAddress) : Prop := {
  halves_subnets : subnets ip = [s0; s1];
  halves_wf0 : wf_ip s0; halves_wf1 : wf_ip s1;
  halves_norm0 : normalised s0; halves_norm1 : normalised s1;
  halves_proto0 : protocol (address s0) = protocol (address ip);
  halves_proto1 : protocol (address s1) = protocol (address ip);
  halves_len0 : prefixLength s0 = prefixLength ip + 1;
  halves_len1 : prefixLength s1 = prefixLength ip + 1;
  halves_cover : ∀ x, in_net ip x ↔ in_net s0 x ∨ in_net s1 x;
  halves_disjoint : ∀ x, ¬ (in_net s0 x ∧ in_net s1 x);
}.

(** Vocabulary for the subtraction of networks. *)
Definition good (n : IPAddress) : Prop := wf_ip n ∧ normalised n.
Definition covers (l : list IPAddress) (x : QHostAddress) : Prop := ∃ n, n ∈ l ∧ in_net n x.
Definition apart (n m : IPAddress) : Prop := ∀ x, ¬ (in_net n x ∧ in_net m x).

(** What subtracting [ip] from [N] has to return. *)
Record difference (N ip : IPAddress) (l : list IPAddress) : Prop := {
  diff_good : Forall good l;
  diff_covers : ∀ x, covers l x ↔ in_net N x ∧ ¬ in_net ip x;
  diff_apart : ForallOrdPairs apart l;
  diff_length : Z.of_nat (length l) = prefixLength ip - prefixLength N;
}.

Lemma pow256 n : 256 ^ Z.of_nat n = 2 ^ (8 * Z.of_nat n).
Proof. change 256 with (2 ^ 8). rewrite <- Z.pow_mul_r by lia. done. Qed.

Lemma be_val_bound l : Forall byte l → 0 <= be_val l < 256 ^ Z.of_nat (length l).
Proof.
  induction 1 as [|b l Hb _ IH]; simpl; [lia|].
  rewrite Nat2Z.inj_succ, Z.pow_succ_r by lia. unfold byte in Hb. nia.
Qed.

Lemma host_val_bound h : wf_host h → 0 <= host_val h < 2 ^ width h.
Proof.
  destruct h as [|a|b]; simpl; [done|done|]. intros [Hl Hb].
  pose proof (be_val_bound b Hb) as H. rewrite Hl in H. exact H.
Qed.

(** Dividing a composed number by a power that cuts its lower part. *)
Lemma div_compose x v m q :
  0 <= q <= m → 0 <= v < 2 ^ m → (x * 2 ^ m + v) / 2 ^ (m - q) = x * 2 ^ q + v / 2 ^ (m - q).
Proof.
  intros Hq Hv. replace (2 ^ m) with (2 ^ q * 2 ^ (m - q)) by (rewrite <- Z.pow_add_r; [f_equal|..]; lia).
  rewrite Z.mul_assoc, Z.div_add_l by (apply Z.pow_nonzero; lia). done.
Qed.

(** The bytes compared by [contains] decide equality of the leading bits. *)
Lemma bytes_prefix a b p :
  Forall byte a → Forall byte b → length a = length b →
  0 <= p <= 8 * Z.of_nat (length a) →
  (be_val a / 2 ^ (8 * Z.of_nat (length a) - p) = be_val b / 2 ^ (8 * Z.of_nat (length a) - p)) ↔
  take (Z.to_nat (p / 8)) a = take (Z.to_nat (p / 8)) b ∧
  (p mod 8 ≠ 0 →
    default 0 (a !! Z.to_nat (p / 8)) / 2 ^ (8 - p mod 8) =
    default 0 (b !! Z.to_nat (p / 8)) / 2 ^ (8 - p mod 8)).
Proof.
  intros Ha. revert b p. induction Ha as [|x a Hx Ha IH]; intros [|y b] p Hb Hlen Hp; try discriminate Hlen.
  { cbn [length] in Hp. assert (p = 0) as -> by lia. done. }
  apply Forall_cons_1 in Hb as [Hy Hb]. injection Hlen as Hlen.
  cbn [be_val length]. rewrite <- Hlen, !pow256.
  set (m := 8 * Z.of_nat (length a)) in *.
  assert (8 * Z.of_nat (S (length a)) = m + 8) as -> by lia.
  pose proof (be_val_bound a Ha) as Ba. pose proof (be_val_bound b Hb) as Bb.
  rewrite <- Hlen in Bb. rewrite pow256 in Ba, Bb. fold m in Ba, Bb.
  cbn [length] in Hp. unfold byte in *.
  destruct (Z.lt_ge_cases p 8) as [Hp8|Hp8].
  - rewrite (Z.div_small p 8), (Z.mod_small p 8) by lia. simpl.
    assert (∀ z v, 0 <= v < 2 ^ m → (z * 2 ^ m + v) / 2 ^ (m + 8 - p) = z / 2 ^ (8 - p)) as Hdiv.
    { intros z v Hv. replace (m + 8 - p) with (m + (8 - p)) by lia.
      rewrite Z.pow_add_r by lia. rewrite <- Z.div_div by lia.
      rewrite Z.div_add_l, (Z.div_small v) by lia. f_equal. lia. }
    rewrite !Hdiv by done. split; [intros H; split; [done|auto]|].
    intros [_ H]. destruct (Z.eq_dec p 0) as [->|]; [|by apply H].
    rewrite !Z.div_small by (change (2 ^ (8 - 0)) with 256; lia). done.
  - assert (p / 8 = (p - 8) / 8 + 1 ∧ p mod 8 = (p - 8) mod 8) as [-> ->].
    { replace p with (p - 8 + 1 * 8) at 1 3 by lia. rewrite Z.div_add, Z.mod_add by lia. done. }
    assert (0 <= (p - 8) / 8) by (apply Z.div_pos; lia).
    rewrite Z2Nat.inj_add by lia. rewrite Nat.add_comm. simpl.
    replace (m + 8 - p) with (m - (p - 8)) by lia. rewrite !div_compose by lia.
    assert (∀ v, 0 <= v < 2 ^ m → 0 <= v / 2 ^ (m - (p - 8)) < 2 ^ (p - 8)) as Hq.
    { intros v Hv. split; [apply Z.div_pos; lia|]. apply Z.div_lt_upper_bound; [lia|].
      rewrite <- Z.pow_add_r by lia. replace (m - (p - 8) + (p - 8)) with m by lia. lia. }
    pose proof (Hq _ Ba) as Qa. pose proof (Hq _ Bb) as Qb.
    specialize (IH b (p - 8) Hb Hlen ltac:(lia)). split.
    + intros Heq. assert (x = y) as -> by nia. assert (be_val a / 2 ^ (m - (p - 8)) = be_val b / 2 ^ (m - (p - 8))) as H' by lia.
      apply IH in H' as [-> H']. done.
    + intros [Ht Hd]. injection Ht as -> Ht. rewrite (proj2 IH (conj Ht Hd)). done.
Qed.

Lemma xor_shift_zero a b k : 0 <= k → (Z.shiftr (Z.lxor a b) k =? 0) = true ↔ a / 2 ^ k = b / 2 ^ k.
Proof.
  intros Hk. rewrite Z.eqb_eq, Z.shiftr_lxor, Z.lxor_eq_0_iff, !Z.shiftr_div_pow2 by done. done.
Qed.

(** [contains] decides [in_net], for both families. *)
Lemma contains_iff ip x : wf_ip ip → wf_host x → contains ip x = true ↔ in_net ip x.
Proof.
  destruct ip as [h p]. unfold wf_ip, contains, in_net; cbn [address prefixLength]. intros [Hh Hp] Hx.
  case_bool_decide as Hproto; cbn [negb]; last first.
  { split; [done|by intros [? _]]. }
  destruct (Z.eqb_spec p 0) as [->|Hp0].
  { rewrite Z.sub_0_r. split; [|done]. intros _. split; [done|].
    pose proof (host_val_bound h Hh). pose proof (host_val_bound x Hx) as Hb.
    assert (width x = width h) as Hw by (destruct x, h; done). rewrite Hw in Hb.
    rewrite !Z.div_small by lia. done. }
  destruct h as [|a|a], x as [|b|b]; try done; cbn [width host_val] in *.
  - assert (∀ d, (if p <? 32 then Z.shiftr d (32 - p) else d) = Z.shiftr d (32 - p)) as ->.
    { intros d. destruct (Z.ltb_spec p 32); [done|]. assert (p = 32) as -> by lia. done. }
    rewrite xor_shift_zero by lia. split; [by intros ->|by intros [_ ->]].
  - destruct Hh as [La Ba], Hx as [Lb Bb].
    pose proof (bytes_prefix a b p Ba Bb ltac:(lia) ltac:(lia)) as Hpre.
    rewrite La in Hpre. change (8 * Z.of_nat 16) with 128 in Hpre.
    trans (take (Z.to_nat (p / 8)) a = take (Z.to_nat (p / 8)) b ∧
      (p mod 8 ≠ 0 →
        default 0 (a !! Z.to_nat (p / 8)) / 2 ^ (8 - p mod 8) =
        default 0 (b !! Z.to_nat (p / 8)) / 2 ^ (8 - p mod 8))).
    2:{ rewrite <- Hpre. split; [intros ->; done|intros [_ ->]; done]. }
    pose proof (Z.mod_pos_bound p 8 ltac:(lia)) as Hmod.
    assert ((0 <? Z.to_nat (p / 8))%nat && negb (bool_decide (take (Z.to_nat (p / 8)) a = take (Z.to_nat (p / 8)) b)) = false
      ↔ take (Z.to_nat (p / 8)) a = take (Z.to_nat (p / 8)) b) as Hcmp.
    { destruct (Nat.ltb_spec 0 (Z.to_nat (p / 8))) as [H|H]; simpl.
      - rewrite negb_false_iff, bool_decide_eq_true. done.
      - assert (Z.to_nat (p / 8) = O) as -> by lia. done. }
    destruct (_ && _).
    { split; [done|]. intros [H _]. apply Hcmp in H. done. }
    pose proof (proj1 Hcmp eq_refl) as E. rewrite E.
    destruct (Z.eqb_spec (p mod 8) 0) as [H0|H0]; cbn [negb]; [by split|].
    rewrite xor_shift_zero by lia. naive_solver.
Qed.

(** ** Networks with no host bits set *)

Lemma in_net_self ip : wf_ip ip → in_net ip (address ip).
Proof. done. Qed.

(** ** Setting one bit *)

Lemma lor_pow2 x k : 0 <= k →
  Z.lor x (2 ^ k) = if Z.testbit x k then x else x + 2 ^ k.
Proof.
  intros Hk. destruct (Z.testbit x k) eqn:Hb.
  - apply Z.bits_inj'. intros n Hn. rewrite Z.lor_spec, Z.pow2_bits_eqb by done.
    destruct (Z.eqb_spec k n) as [->|]; [by rewrite Hb|]. by rewrite orb_false_r.
  - rewrite Z.add_nocarry_lxor.
    + apply Z.bits_inj'. intros n Hn. rewrite Z.lor_spec, Z.lxor_spec, Z.pow2_bits_eqb by done.
      destruct (Z.eqb_spec k n) as [->|]; [by rewrite Hb|]. by destruct (Z.testbit x n).
    + apply Z.bits_inj'. intros n Hn. rewrite Z.land_spec, Z.pow2_bits_eqb, Z.bits_0 by done.
      destruct (Z.eqb_spec k n) as [->|]; [by rewrite Hb|]. apply andb_false_r.
Qed.

Lemma lor_bound a b n : 0 <= n → 0 <= a < 2 ^ n → 0 <= b < 2 ^ n → 0 <= Z.lor a b < 2 ^ n.
Proof.
  intros Hn Ha Hb. assert (Z.lor a b = Z.lor a b mod 2 ^ n) as ->.
  { rewrite <- Z.land_ones, Z.land_lor_distr_l, !Z.land_ones, !Z.mod_small by lia. done. }
  apply Z.mod_pos_bound. lia.
Qed.

Lemma shiftr_pow2 n k : 0 <= k <= n → Z.shiftr (2 ^ n) k = 2 ^ (n - k).
Proof. intros H. rewrite Z.shiftr_div_pow2 by lia. symmetry. apply Z.pow_sub_r; lia. Qed.

Lemma be_val_testbit l i j :
  Forall byte l → (i < length l)%nat → 0 <= j < 8 →
  Z.testbit (be_val l) (8 * (Z.of_nat (length l) - 1 - Z.of_nat i) + j) =
  Z.testbit (default 0 (l !! i)) j.
Proof.
  intros Hl. revert i. induction Hl as [|x l Hx Hl IH]; intros i Hi Hj; [simpl in Hi; lia|].
  pose proof (be_val_bound l Hl) as Hb. rewrite pow256 in Hb. cbn [be_val length] in *. rewrite pow256.
  set (m := 8 * Z.of_nat (length l)) in *. destruct i as [|i]; simpl.
  - replace (8 * (Z.of_nat (S (length l)) - 1 - Z.of_nat 0) + j) with (j + m) by lia.
    rewrite <- (Z.shiftr_spec (_ + be_val l)), Z.shiftr_div_pow2 by lia.
    rewrite Z.div_add_l, Z.div_small, Z.add_0_r by lia. done.
  - rewrite <- (IH i) by lia.
    replace (8 * (Z.of_nat (S (length l)) - 1 - Z.of_nat (S i)) + j)
      with (8 * (Z.of_nat (length l) - 1 - Z.of_nat i) + j) by lia.
    rewrite <- (Z.mod_pow2_bits_low (_ + _) m) by lia.
    rewrite Z.add_comm, Z.mod_add, Z.mod_small by lia. done.
Qed.

Lemma be_val_insert l i y :
  (i < length l)%nat →
  be_val (<[i := y]> l) =
  be_val l + (y - default 0 (l !! i)) * 256 ^ (Z.of_nat (length l) - 1 - Z.of_nat i).
Proof.
  revert i. induction l as [|x l IH]; intros i Hi; [simpl in Hi; lia|].
  destruct i as [|i]; cbn [length] in *.
  - simpl. replace (Z.of_nat (S (length l)) - 1 - Z.of_nat 0) with (Z.of_nat (length l)) by lia. lia.
  - change (<[S i := y]> (x :: l)) with (x :: <[i := y]> l). cbn [be_val].
    rewrite length_insert, IH by lia. simpl.
    replace (Z.of_nat (S (length l)) - 1 - Z.of_nat (S i)) with (Z.of_nat (length l) - 1 - Z.of_nat i) by lia.
    lia.
Qed.

(** Setting bit [p] (from the left) of an array is setting it in its value. *)
Lemma be_val_set_bit b p :
  length b = 16%nat → Forall byte b → 0 <= p < 128 →
  let b' := <[Z.to_nat (p / 8) := Z.lor (default 0 (b !! Z.to_nat (p / 8))) (Z.shiftr 128 (p mod 8))]> b in
  be_val b' = Z.lor (be_val b) (2 ^ (127 - p)) ∧ length b' = 16%nat ∧ Forall byte b'.
Proof.
  intros Hl Hb Hp b'. subst b'. set (i := Z.to_nat (p / 8)).
  pose proof (Z.mod_pos_bound p 8 ltac:(lia)) as Hr. pose proof (Z.div_mod p 8 ltac:(lia)) as Hdm.
  assert (0 <= p / 8 < 16) as Hdiv by (split; [apply Z.div_pos | apply Z.div_lt_upper_bound]; lia).
  assert (Z.of_nat i = p / 8) as Hi by (unfold i; lia).
  change 128 with (2 ^ 7). rewrite shiftr_pow2 by lia.
  destruct (lookup_lt_is_Some_2 b i ltac:(lia)) as [x Hx]. rewrite Hx. simpl.
  assert (byte x) as Hbx by (eapply Forall_lookup_1; eauto).
  split_and!.
  - rewrite be_val_insert, Hx by lia. simpl. rewrite !lor_pow2 by lia.
    pose proof (be_val_testbit b i (7 - p mod 8) Hb ltac:(lia) ltac:(lia)) as Hbit.
    rewrite Hx, Hl in Hbit. simpl in Hbit.
    replace (8 * (Z.of_nat 16 - 1 - Z.of_nat i) + (7 - p mod 8)) with (127 - p) in Hbit by lia.
    rewrite Hbit, Hl. destruct (Z.testbit x (7 - p mod 8)); [lia|].
    replace (Z.of_nat 16 - 1 - Z.of_nat i) with (15 - p / 8) by lia.
    change 256 with (2 ^ 8). rewrite <- Z.pow_mul_r by lia.
    replace (x + 2 ^ (7 - p mod 8) - x) with (2 ^ (7 - p mod 8)) by lia.
    rewrite <- Z.pow_add_r by lia. do 2 f_equal. lia.
  - by rewrite length_insert.
  - apply Forall_insert; [done|]. unfold byte in *. apply (lor_bound _ _ 8); [lia..|].
    split; [apply Z.pow_nonneg; lia|]. apply Z.pow_lt_mono_r; lia.
Qed.

(** The two halves of a network as the code computes them. *)
Lemma subnets_spec ip :
  wf_ip ip → prefixLength ip < width (address ip) →
  ∃ s0 s1, subnets ip = [s0; s1] ∧ wf_ip s0 ∧ wf_ip s1 ∧
    protocol (address s0) = protocol (address ip) ∧ protocol (address s1) = protocol (address ip) ∧
    prefixLength s0 = prefixLength ip + 1 ∧ prefixLength s1 = prefixLength ip + 1 ∧
    host_val (address s0) = host_val (address ip) ∧
    host_val (address s1) =
      Z.lor (host_val (address ip)) (2 ^ (width (address ip) - 1 - prefixLength ip)).
Proof.
  destruct ip as [[|a|b] p]; unfold wf_ip, subnets; cbn [address prefixLength width]; [by intros [[] _]|..].
  - intros [Ha Hp] Hlt. destruct (Z.leb_spec 32 p); [lia|].
    eexists _, _. split; [done|]. cbn [address prefixLength width protocol host_val].
    change 2147483648 with (2 ^ 31). rewrite shiftr_pow2 by lia.
    split_and!; try done; try lia.
    unfold wf_host. apply lor_bound; [lia|done|]. split; [apply Z.pow_nonneg; lia|].
    apply Z.pow_lt_mono_r; lia.
  - intros [[Hl Hb] Hp] Hlt. destruct (Z.leb_spec 128 p); [lia|].
    destruct (be_val_set_bit b p Hl Hb ltac:(lia)) as (Hv & Hl' & Hb').
    eexists _, _. split; [done|]. cbn [address prefixLength width protocol host_val toIPv6Address] in *.
    split_and!; try done; lia.
Qed.

(** ** Halving a network *)

Lemma width_protocol h h' : protocol h = protocol h' → wf_host h → width h = width h'.
Proof. by destruct h, h'. Qed.

Lemma be_val_inj a b : Forall byte a → Forall byte b → length a = length b → be_val a = be_val b → a = b.
Proof.
  intros Ha Hb Hl Hv.
  assert (take (length a) a = take (length a) b) as Ht; last first.
  { rewrite (firstn_all a), Hl, firstn_all in Ht. done. }
  pose proof (bytes_prefix a b (8 * Z.of_nat (length a)) Ha Hb Hl ltac:(lia)) as H.
  rewrite Hv in H. destruct (proj1 H eq_refl) as [Ht _].
  rewrite (Z.mul_comm 8), Z.div_mul, Nat2Z.id in Ht by lia. done.
Qed.

Lemma host_val_inj h h' :
  wf_host h → wf_host h' → protocol h = protocol h' → host_val h = host_val h' → h = h'.
Proof.
  destruct h as [|a|a], h' as [|b|b]; cbn [wf_host protocol host_val]; try done.
  - by intros _ _ _ ->.
  - intros [La Ba] [Lb Bb] _ Hv. f_equal. apply be_val_inj; [done..|lia|done].
Qed.

(** Two normalised networks of the same size that meet are equal. *)
Lemma net_eq n m :
  wf_ip n → wf_ip m → normalised n → normalised m → prefixLength n = prefixLength m →
  in_net n (address m) → n = m.
Proof.
  destruct n as [h p], m as [h' p']. unfold wf_ip, normalised, in_net; cbn [address prefixLength].
  intros [Hh Hp] [Hh' Hp'] Hn Hm <- [Hproto Hdiv]. f_equal.
  apply host_val_inj; [done..|].
  pose proof (width_protocol _ _ Hproto Hh') as Hw. rewrite Hw in Hm.
  assert (2 ^ (width h - p) ≠ 0) as Hnz by (apply Z.pow_nonzero; lia).
  rewrite (Z.div_mod (host_val h) _ Hnz), (Z.div_mod (host_val h') _ Hnz), Hn, Hm, Hdiv. done.
Qed.

Lemma half_arith v x k :
  0 <= k → v mod 2 ^ (k + 1) = 0 →
  Z.testbit v k = false ∧ v mod 2 ^ k = 0 ∧ (v + 2 ^ k) mod 2 ^ k = 0 ∧
  (x / 2 ^ (k + 1) = v / 2 ^ (k + 1) ↔ x / 2 ^ k = v / 2 ^ k ∨ x / 2 ^ k = (v + 2 ^ k) / 2 ^ k) ∧
  v / 2 ^ k ≠ (v + 2 ^ k) / 2 ^ k.
Proof.
  intros Hk Hv. rewrite Z.pow_add_r in * by lia. change (2 ^ 1) with 2 in *.
  assert (0 < 2 ^ k) as Hpos by lia.
  apply Z.mod_divide in Hv as [c Hc]; [|lia].
  assert (v / 2 ^ k = 2 * c) as Hq.
  { replace v with (2 * c * 2 ^ k) by lia. apply Z.div_mul. lia. }
  assert ((v + 2 ^ k) / 2 ^ k = 2 * c + 1) as Hq'.
  { replace (v + 2 ^ k) with ((2 * c + 1) * 2 ^ k) by lia. apply Z.div_mul. lia. }
  rewrite Hq, Hq'. split_and!.
  - rewrite Z.testbit_false, Hq, Z.mul_comm by done. apply Z.mod_mul. lia.
  - replace v with (2 * c * 2 ^ k) by lia. apply Z.mod_mul. lia.
  - replace (v + 2 ^ k) with ((2 * c + 1) * 2 ^ k) by lia. apply Z.mod_mul. lia.
  - rewrite <- (Z.div_div x), <- (Z.div_div v), Hq by lia. rewrite (Z.mul_comm 2 c), Z.div_mul by lia.
    pose proof (Z.div_mod (x / 2 ^ k) 2 ltac:(lia)). pose proof (Z.mod_pos_bound (x / 2 ^ k) 2 ltac:(lia)). lia.
  - lia.
Qed.

(** A normalised network splits into two disjoint normalised halves. *)
Lemma halves_of ip :
  wf_ip ip → normalised ip → prefixLength ip < width (address ip) → ∃ s0 s1, halves ip s0 s1.
Proof.
  intros Hwf Hn Hlt. destruct (subnets_spec ip Hwf Hlt) as
    (s0 & s1 & Hs & W0 & W1 & P0 & P1 & L0 & L1 & V0 & V1). exists s0, s1.
  destruct Hwf as [Hh Hp].
  pose proof (width_protocol _ _ P0 (proj1 W0)) as Wd0. pose proof (width_protocol _ _ P1 (proj1 W1)) as Wd1.
  set (k := width (address ip) - 1 - prefixLength ip) in *.
  assert (width (address ip) - prefixLength ip = k + 1) as Hk1 by lia.
  assert (width (address ip) - (prefixLength ip + 1) = k) as Hk by lia.
  unfold normalised in Hn. rewrite Hk1 in Hn.
  pose proof (λ x, half_arith (host_val (address ip)) x k ltac:(lia) Hn) as Har.
  destruct (Har 0) as (Hbit & M0 & M1 & _ & Hne). rewrite lor_pow2, Hbit in V1 by lia.
  constructor; try done; unfold normalised, in_net; rewrite ?Wd0, ?Wd1, ?L0, ?L1, ?Hk, ?Hk1, ?V0, ?V1; try done.
  - intros x. destruct (Har (host_val x)) as (_ & _ & _ & Hx & _).
    rewrite P0, P1, Hx. tauto.
  - intros x [[_ H0] [_ H1]]. congruence.
Qed.

Lemma subnetOf_iff ip o :
  wf_ip ip → wf_ip o →
  subnetOf ip o = true ↔ prefixLength o <= prefixLength ip ∧ in_net o (address ip).
Proof.
  intros Hi Ho. unfold subnetOf. case_bool_decide as Hp; cbn [negb]; last first.
  { split; [done|]. intros [_ [H _]]. congruence. }
  destruct (Z.ltb_spec (prefixLength ip) (prefixLength o)).
  - split; [done|lia].
  - rewrite contains_iff by (done || apply Hi). split; [|tauto]. intros; split; [lia|done].
Qed.

(** ** Subtracting networks *)

(** A network inside one of two half networks. *)
Lemma covers_cons n l x : covers (n :: l) x ↔ in_net n x ∨ covers l x.
Proof. unfold covers. setoid_rewrite elem_of_cons. naive_solver. Qed.

Lemma in_net_sub ip o x :
  wf_ip ip → wf_ip o → prefixLength o <= prefixLength ip → in_net o (address ip) →
  in_net ip x → in_net o x.
Proof.
  unfold in_net. intros [Hi Bi] [Ho Bo] Hle [Hp Hd] [Hpx Hdx]. split; [congruence|].
  pose proof (width_protocol _ _ Hp Hi) as Hw. rewrite Hw in *.
  replace (width (address o) - prefixLength o)
    with ((width (address o) - prefixLength ip) + (prefixLength ip - prefixLength o)) in * by lia.
  rewrite Z.pow_add_r, <- !Z.div_div in * by lia. by rewrite Hdx.
Qed.

(** The half that holds [ip] and the one that does not. *)
Lemma difference_step N s s' ip l :
  wf_ip N → wf_ip s → wf_ip ip → good s' →
  (∀ x, in_net N x ↔ in_net s x ∨ in_net s' x) → apart s s' →
  prefixLength s = prefixLength N + 1 → prefixLength s <= prefixLength ip → in_net s (address ip) →
  difference s ip l → difference N ip (s' :: l).
Proof.
  intros HN Hs Hip Hs' Hcov Hap Hlen Hle Hin [Hg Hc Ha Hl]. constructor.
  - by constructor.
  - intros x. rewrite covers_cons, Hc, Hcov. split.
    + intros [Hx|[Hx Hn]]; [|tauto]. split; [tauto|]. intros Hix.
      apply (Hap x). split; [by apply (in_net_sub ip)|done].
    + tauto.
  - constructor; [|done]. apply Forall_forall. intros n Hn x [Hx' Hnx].
    apply (Hap x). split; [|done]. apply Hc. exists n. split; [by apply list_elem_of_In | done].
  - cbn [length]. lia.
Qed.

(** The base case: the two halves are [ip] and the rest. *)
Lemma difference_last N s s' ip :
  s = ip → good s' → (∀ x, in_net N x ↔ in_net s x ∨ in_net s' x) → apart s s' →
  prefixLength s = prefixLength N + 1 → difference N ip [s'].
Proof.
  intros -> Hs' Hcov Hap Hlen. constructor.
  - constructor; [done|constructor].
  - intros x. rewrite covers_cons, Hcov. unfold covers. setoid_rewrite elem_of_nil.
    split; [|naive_solver]. intros [Hx|[n [[] _]]]. split; [tauto|]. intros Hi. by apply (Hap x).
  - constructor; constructor.
  - cbn [length]. lia.
Qed.

Lemma apart_sym n m : apart n m → apart m n.
Proof. intros H x [? ?]. by apply (H x). Qed.

Lemma exclude_loop_correct d N ip acc fuel :
  good N → good ip → in_net N (address ip) →
  prefixLength ip = prefixLength N + Z.of_nat (S d) → (d < fuel)%nat →
  ∃ l, exclude_loop fuel (subnets N) ip acc = Ok (acc ++ l) ∧ difference N ip l.
Proof.
  revert N acc fuel. induction d as [|d IH]; intros N acc [|fuel] [WN NN] [Wi Ni] Hin Hlen Hf; try lia;
    assert (prefixLength N < width (address N)) as Hlt
      by (pose proof (width_protocol _ _ (proj1 Hin) (proj1 Wi)); destruct Wi as [_ ?]; lia);
    destruct (halves_of N WN NN Hlt) as (s0 & s1 & [Hs W0 W1 N0 N1 P0 P1 L0 L1 Hc Hd]);
    rewrite Hs; cbn [exclude_loop]; pose proof (proj1 (Hc _) Hin) as Hside.
  - destruct Hside as [Hin0|Hin1].
    + assert (s0 = ip) as Heq by (apply net_eq; [done..|lia|done]).
      rewrite (bool_decide_true (s0 = ip)) by done. simpl. exists [s1]. split; [done|].
      by apply (difference_last N s0 s1).
    + assert (s1 = ip) as Heq by (apply net_eq; [done..|lia|done]).
      assert (s0 ≠ ip) as Hne.
      { intros ->. apply (Hd (address ip)). split; [by apply in_net_self|done]. }
      rewrite (bool_decide_true (s1 = ip)), (bool_decide_false (s0 = ip)) by done. simpl.
      exists [s0]. split; [done|]. apply (difference_last N s1 s0); [done..| |by apply apart_sym|lia].
      intros x. rewrite Hc. tauto.
  - assert (s0 ≠ ip ∧ s1 ≠ ip) as [Hne0 Hne1] by (split; intros ->; lia).
    rewrite (bool_decide_false (s0 = ip)), (bool_decide_false (s1 = ip)) by done. cbn [negb andb].
    destruct Hside as [Hin0|Hin1].
    + assert (subnetOf ip s0 = true) as -> by (apply subnetOf_iff; [done..|split; [lia|done]]).
      destruct (IH s0 (acc ++ [s1]) fuel) as (l & -> & Hl); [done..|lia|lia|].
      exists (s1 :: l). rewrite <- (assoc_L (++)). split; [done|].
      apply (difference_step N s0 s1); done || lia.
    + destruct (subnetOf ip s0) eqn:Hsub.
      { apply subnetOf_iff in Hsub as [_ Hin0]; [|done..]. exfalso. by apply (Hd (address ip)). }
      assert (subnetOf ip s1 = true) as -> by (apply subnetOf_iff; [done..|split; [lia|done]]).
      destruct (IH s1 (acc ++ [s0]) fuel) as (l & -> & Hl); [done..|lia|lia|].
      exists (s0 :: l). rewrite <- (assoc_L (++)). split; [done|].
      apply (difference_step N s1 s0); try done; [|by apply apart_sym|lia]. intros x. rewrite Hc. tauto.
Qed.

Lemma exclude_one self ip fuel :
  good self → good ip → subnetOf ip self = true → ip ≠ self →
  prefixLength ip - prefixLength self <= Z.of_nat fuel →
  ∃ l, excludeAddress fuel self ip = Ok l ∧ difference self ip l.
Proof.
  intros Hself Hip Hsub Hne Hfuel. apply subnetOf_iff in Hsub as [Hle Hin]; [|apply Hip|apply Hself].
  assert (prefixLength self ≠ prefixLength ip) as Hlen.
  { intros Heq. apply Hne. symmetry. apply net_eq; (apply Hself || apply Hip || done). }
  destruct (exclude_loop_correct (Z.to_nat (prefixLength ip - prefixLength self - 1)) self ip [] fuel)
    as (l & Hl & Hd); [done..|lia|lia|]. eauto.
Qed.

(** *** Lists of networks *)

Lemma in_net_meet a b x :
  wf_ip a → wf_ip b → prefixLength a <= prefixLength b → in_net a x → in_net b x → in_net a (address b).
Proof.
  unfold in_net. intros [Ha Ba] [Hb Bb] Hle [Hp Hd] [Hpx Hdx].
  assert (protocol (address b) = protocol (address a)) as Hpp by congruence. split; [done|].
  pose proof (width_protocol _ _ Hpp Hb) as Hw. rewrite Hw in *.
  replace (width (address a) - prefixLength a)
    with ((width (address a) - prefixLength b) + (prefixLength b - prefixLength a)) in * by lia.
  rewrite Z.pow_add_r, <- !Z.div_div in * by lia. by rewrite <- Hdx.
Qed.

Lemma overlaps_false a b : wf_ip a → wf_ip b → overlaps a b = false → apart a b.
Proof.
  intros Ha Hb Hov x [Hxa Hxb]. unfold overlaps in Hov.
  destruct (Z.ltb_spec (prefixLength a) (prefixLength b)) as [Hlt|Hge].
  - rewrite (proj2 (contains_iff a (address b) Ha (proj1 Hb))) in Hov; [done|].
    by apply (in_net_meet a b x); [..|lia|done|done].
  - rewrite (proj2 (contains_iff b (address a) Hb (proj1 Ha))) in Hov; [done|].
    by apply (in_net_meet b a x).
Qed.

Lemma overlaps_true a b : wf_ip a → wf_ip b → overlaps a b = true → ∃ y, in_net a y ∧ in_net b y.
Proof.
  intros Ha Hb. unfold overlaps. destruct (Z.ltb_spec (prefixLength a) (prefixLength b)) as [Hlt|Hge]; intros H.
  - exists (address b). apply contains_iff in H; [|done|apply Hb]. done.
  - exists (address a). apply contains_iff in H; [|done|apply Ha]. done.
Qed.

(** An overlapping network that does not properly contain the excluded one
    lies inside it. *)
Lemma overlaps_inside a e x :
  wf_ip a → wf_ip e → overlaps a e = true → ¬ (subnetOf e a = true ∧ e ≠ a) → in_net a x → in_net e x.
Proof.
  intros Ha He Hov Hno Hx. unfold overlaps in Hov.
  destruct (Z.ltb_spec (prefixLength a) (prefixLength e)) as [Hlt|Hge].
  - exfalso. apply Hno. split; [|intros ->; lia].
    apply subnetOf_iff; [done..|]. split; [lia|]. apply contains_iff; [done|apply He|done].
  - apply contains_iff in Hov; [|done|apply Ha]. by apply (in_net_sub a).
Qed.

Lemma exclude_from_correct fuel l e :
  (128 ≤ fuel)%nat → Forall good l → good e →
  ∃ l', exclude_from fuel l e = Ok l' ∧ Forall good l' ∧
    ∀ x, covers l' x ↔ covers l x ∧ ¬ in_net e x.
Proof.
  intros Hfuel Hl He. induction Hl as [|a l Ha Hl (l' & Hl' & Hg & Hc)]; cbn [exclude_from].
  { exists []. split_and!; [done..|]. intros x. unfold covers. setoid_rewrite elem_of_nil. naive_solver. }
  assert (∃ h, (if negb (overlaps a e) then Ok [a]
                else if subnetOf e a && negb (bool_decide (e = a)) then excludeAddress fuel a e
                else Ok []) = Ok h ∧ Forall good h ∧ ∀ x, covers h x ↔ in_net a x ∧ ¬ in_net e x)
    as (h & -> & Hgh & Hch); last first.
  { rewrite Hl'. exists (h ++ l'). split_and!; [done|by apply Forall_app|]. intros x.
    assert (covers (h ++ l') x ↔ covers h x ∨ covers l' x) as ->
      by (unfold covers; setoid_rewrite elem_of_app; naive_solver).
    rewrite Hch, Hc, covers_cons. tauto. }
  destruct Ha as [Wa Na], He as [We Ne]. destruct (overlaps a e) eqn:Hov; cbn [negb]; last first.
  { exists [a]. split_and!; [done|constructor; [done|constructor]|]. intros x.
    rewrite covers_cons. pose proof (overlaps_false a e Wa We Hov x).
    unfold covers. setoid_rewrite elem_of_nil. naive_solver. }
  destruct (decide (subnetOf e a = true ∧ e ≠ a)) as [[Hs Hne]|Hno].
  - rewrite Hs, bool_decide_false by done. cbn [negb andb].
    destruct (exclude_one a e fuel) as (h & Hh & [Dg Dc _ _]); [done..| |eauto].
    destruct We as [_ Be], Wa as [_ Ba]. assert (width (address e) <= 128) by (by destruct (address e)). lia.
  - assert (subnetOf e a && negb (bool_decide (e = a)) = false) as ->.
    { destruct (subnetOf e a); [|done]. case_bool_decide; naive_solver. }
    exists []. split_and!; [done..|]. intros x. pose proof (overlaps_inside a e x Wa We Hov Hno).
    unfold covers. setoid_rewrite elem_of_nil. naive_solver.
Qed.

(** *** Host bits *)

Lemma exclude_loop_stuck fuel s0 s1 ip acc :
  s0 ≠ ip → s1 ≠ ip → prefixLength ip < prefixLength s0 → prefixLength ip < prefixLength s1 →
  exclude_loop fuel [s0; s1] ip acc = OutOfFuel.
Proof.
  intros H0 H1 L0 L1. induction fuel as [|fuel IH]; [done|]. cbn [exclude_loop].
  rewrite (bool_decide_false (s0 = ip)), (bool_decide_false (s1 = ip)) by done. cbn [negb andb].
  unfold subnetOf. destruct (Z.ltb_spec (prefixLength ip) (prefixLength s0)); [|lia].
  destruct (Z.ltb_spec (prefixLength ip) (prefixLength s1)); [|lia].
  by destruct (negb _), (negb _).
Qed.

Lemma exclude_loop_diverges fuel N ip acc :
  good N → wf_ip ip → ¬ normalised ip → in_net N (address ip) → prefixLength N <= prefixLength ip →
  exclude_loop fuel (subnets N) ip acc = OutOfFuel.
Proof.
  intros HN Wi Hnot. revert N acc HN.
  assert (prefixLength ip < width (address ip)) as Hlt.
  { destruct Wi as [_ Hb]. destruct (Z.eq_dec (prefixLength ip) (width (address ip))) as [Heq|]; [|lia].
    exfalso. apply Hnot. unfold normalised. rewrite Heq, Z.sub_diag. apply Z.mod_1_r. }
  induction fuel as [|fuel IH]; intros N acc [WN NN] Hin Hle; [done|].
  pose proof (width_protocol _ _ (proj1 Hin) (proj1 Wi)) as Hw.
  destruct (halves_of N WN NN ltac:(lia)) as (s0 & s1 & [Hs W0 W1 N0 N1 P0 P1 L0 L1 Hc Hd]). rewrite Hs.
  assert (s0 ≠ ip ∧ s1 ≠ ip) as [H0 H1] by (split; intros ->; done).
  destruct (Z.lt_ge_cases (prefixLength N) (prefixLength ip)) as [Hsm|Hbig]; last first.
  { apply exclude_loop_stuck; [done..|lia|lia]. }
  cbn [exclude_loop]. rewrite (bool_decide_false (s0 = ip)), (bool_decide_false (s1 = ip)) by done.
  cbn [negb andb]. destruct (subnetOf ip s0) eqn:E0.
  { apply subnetOf_iff in E0 as [? ?]; [|done..]. apply IH; [done..|lia]. }
  destruct (subnetOf ip s1) eqn:E1.
  { apply subnetOf_iff in E1 as [? ?]; [|done..]. apply IH; [done..|lia]. }
  exfalso. apply Hc in Hin as [Hin|Hin].
  - rewrite (proj2 (subnetOf_iff ip s0 Wi W0)) in E0; [done|]. split; [lia|done].
  - rewrite (proj2 (subnetOf_iff ip s1 Wi W1)) in E1; [done|]. split; [lia|done].
Qed.

(** ** Masks as numbers *)

Lemma be_val_app a b : be_val (a ++ b) = be_val a * 256 ^ Z.of_nat (length b) + be_val b.
Proof.
  induction a as [|x a IH]; simpl; [done|].
  rewrite IH, length_app, Nat2Z.inj_add, Z.pow_add_r by lia. ring.
Qed.

Lemma be_val_ff n : be_val (replicate n 255) = 256 ^ Z.of_nat n - 1.
Proof.
  induction n as [|n IH]; [done|]. simpl replicate. cbn [be_val]. rewrite IH, length_replicate.
  rewrite Nat2Z.inj_succ, Z.pow_succ_r by lia. lia.
Qed.

Lemma be_val_zeros n : be_val (replicate n 0) = 0.
Proof. induction n as [|n IH]; [done|]. simpl. by rewrite IH. Qed.

Lemma shiftr_255 r : 0 <= r <= 8 → Z.shiftr 255 r = 2 ^ (8 - r) - 1.
Proof.
  intros Hr. assert (r = 0 ∨ r = 1 ∨ r = 2 ∨ r = 3 ∨ r = 4 ∨ r = 5 ∨ r = 6 ∨ r = 7 ∨ r = 8) as H by lia.
  by repeat destruct H as [->|H]; [..|subst].
Qed.

(** Filling the low bits. *)
Lemma lor_ones x k : 0 <= k → Z.lor x (2 ^ k - 1) = x / 2 ^ k * 2 ^ k + (2 ^ k - 1).
Proof.
  intros Hk. replace (2 ^ k - 1) with (Z.ones k) by (rewrite Z.ones_equiv; lia).
  rewrite <- Z.shiftl_mul_pow2, <- Z.shiftr_div_pow2 by lia.
  rewrite Z.add_nocarry_lxor.
  - apply Z.bits_inj'. intros n Hn. rewrite Z.lor_spec, Z.lxor_spec, Z.shiftl_spec by done.
    destruct (Z.lt_ge_cases n k).
    + rewrite Z.ones_spec_low, (Z.testbit_neg_r _ (n - k)) by lia. by rewrite orb_true_r.
    + rewrite Z.ones_spec_high, Z.shiftr_spec by lia. rewrite orb_false_r, xorb_false_r. f_equal. lia.
  - apply Z.bits_inj'. intros n Hn. rewrite Z.land_spec, Z.shiftl_spec, Z.bits_0 by done.
    destruct (Z.lt_ge_cases n k).
    + by rewrite (Z.testbit_neg_r _ (n - k)) by lia.
    + rewrite Z.ones_spec_high by lia. apply andb_false_r.
Qed.

Lemma memset_tail l off : length l = 16%nat → (off ≤ 16)%nat →
  memset l off (16 - off) 255 = take off l ++ replicate (16 - off) 255.
Proof.
  intros Hl Ho. unfold memset. rewrite (drop_ge l) by lia. by rewrite app_nil_r.
Qed.

(** How the byte offsets of a prefix length relate. *)
Lemma prefix_bytes p : 0 <= p <= 128 →
  0 <= p / 8 <= 16 ∧ 0 <= p mod 8 < 8 ∧ p = 8 * (p / 8) + p mod 8 ∧
  (p + 7) / 8 = (if p mod 8 =? 0 then p / 8 else p / 8 + 1).
Proof.
  intros Hp. pose proof (Z.div_mod p 8 ltac:(lia)). pose proof (Z.mod_pos_bound p 8 ltac:(lia)).
  split_and!; [apply Z.div_pos; lia|apply Z.div_le_upper_bound; lia|lia..|].
  destruct (Z.eqb_spec (p mod 8) 0).
  - symmetry. apply Z.div_unique with 7; lia.
  - symmetry. apply Z.div_unique with (p mod 8 - 1); lia.
Qed.

Lemma hostmask_v6 b p : 0 <= p <= 128 → host_val (hostmask (mkIP (IPv6 b) p)) = 2 ^ (128 - p) - 1.
Proof.
  intros Hp. destruct (prefix_bytes p Hp) as (Hq & Hr & Hpq & Hoff).
  unfold hostmask; cbn [address prefixLength host_val]. rewrite Hoff.
  destruct (Z.eqb_spec (p mod 8) 0) as [H0|H0]; cbn [negb].
  - rewrite memset_tail by (done || lia). rewrite be_val_app, be_val_ff, length_replicate.
    assert (take (Z.to_nat (p / 8)) zeros16 = replicate (Z.to_nat (p / 8)) 0) as ->.
    { unfold zeros16. rewrite take_replicate, Nat.min_l by lia. done. }
    rewrite be_val_zeros, Z.mul_0_l, Z.add_0_l, pow256. do 2 f_equal. lia.
  - assert (p / 8 < 16) as Hq' by lia.
    rewrite memset_tail by (done || lia).
    assert (take (Z.to_nat (p / 8 + 1)) zeros16 = replicate (Z.to_nat (p / 8 + 1)) 0) as ->.
    { unfold zeros16. rewrite take_replicate, Nat.min_l by lia. done. }
    rewrite be_val_insert by (rewrite length_app, !length_replicate; lia).
    rewrite lookup_app_l, lookup_replicate_2 by (rewrite ?length_replicate; lia). simpl default.
    rewrite be_val_app, be_val_zeros, be_val_ff, length_app, !length_replicate, shiftr_255 by lia.
    replace (Z.of_nat (Z.to_nat (p / 8 + 1) + (16 - Z.to_nat (p / 8 + 1))) - 1 - Z.of_nat (Z.to_nat (p / 8)))
      with (15 - p / 8) by lia.
    replace (Z.of_nat (16 - Z.to_nat (p / 8 + 1))) with (15 - p / 8) by lia.
    change 256 with (2 ^ 8). rewrite <- Z.pow_mul_r by lia.
    replace (128 - p) with ((8 - p mod 8) + 8 * (15 - p / 8)) by lia.
    rewrite (Z.pow_add_r 2 (8 - p mod 8)) by lia. lia.
Qed.

Lemma lxor_255 r : 0 <= r <= 8 → Z.lxor 255 (Z.shiftr 255 r) = 256 - 2 ^ (8 - r).
Proof.
  intros Hr. assert (r = 0 ∨ r = 1 ∨ r = 2 ∨ r = 3 ∨ r = 4 ∨ r = 5 ∨ r = 6 ∨ r = 7 ∨ r = 8) as H by lia.
  by repeat destruct H as [->|H]; [..|subst].
Qed.

Lemma netmask_v6 b p : 0 <= p <= 128 → host_val (netmask (mkIP (IPv6 b) p)) = 2 ^ 128 - 2 ^ (128 - p).
Proof.
  intros Hp. destruct (prefix_bytes p Hp) as (Hq & Hr & Hpq & _).
  unfold netmask; cbn [address prefixLength host_val].
  assert (memset zeros16 0 (Z.to_nat (p / 8)) 255 =
    replicate (Z.to_nat (p / 8)) 255 ++ replicate (16 - Z.to_nat (p / 8)) 0) as ->.
  { unfold memset, zeros16. by rewrite drop_replicate. }
  destruct (Z.eqb_spec (p mod 8) 0) as [H0|H0]; cbn [negb].
  - rewrite be_val_app, be_val_ff, be_val_zeros, length_replicate, !pow256.
    replace (8 * Z.of_nat (Z.to_nat (p / 8))) with p by lia.
    replace (8 * Z.of_nat (16 - Z.to_nat (p / 8))) with (128 - p) by lia.
    replace 128 with (p + (128 - p)) at 2 by lia. rewrite (Z.pow_add_r 2 p) by lia. lia.
  - assert (p / 8 < 16) as Hq' by lia.
    rewrite be_val_insert by (rewrite length_app, !length_replicate; lia).
    rewrite lookup_app_r, lookup_replicate_2 by (rewrite ?length_replicate; lia). simpl default.
    rewrite be_val_app, be_val_ff, be_val_zeros, length_app, !length_replicate, lxor_255 by lia.
    replace (Z.of_nat (Z.to_nat (p / 8) + (16 - Z.to_nat (p / 8))) - 1 - Z.of_nat (Z.to_nat (p / 8)))
      with (15 - p / 8) by lia.
    replace (Z.of_nat (16 - Z.to_nat (p / 8))) with (1 + (15 - p / 8)) by lia.
    replace (Z.of_nat (Z.to_nat (p / 8))) with (p / 8) by lia.
    rewrite (Z.pow_add_r 256 1) by lia. change 256 with (2 ^ 8). rewrite <- !Z.pow_mul_r by lia.
    replace (2 ^ 128) with (2 ^ (8 * (p / 8)) * 2 ^ (8 * 1) * 2 ^ (8 * (15 - p / 8)))
      by (rewrite <- !Z.pow_add_r by lia; f_equal; lia).
    replace (128 - p) with ((8 - p mod 8) + 8 * (15 - p / 8)) by lia.
    rewrite (Z.pow_add_r 2 (8 - p mod 8)) by lia. change (2 ^ (8 * 1)) with (2 ^ 8). lia.
Qed.

Lemma broadcast_v6 b p : wf_host (IPv6 b) → 0 <= p <= 128 →
  host_val (broadcastAddress (mkIP (IPv6 b) p)) =
  be_val b / 2 ^ (128 - p) * 2 ^ (128 - p) + (2 ^ (128 - p) - 1).
Proof.
  intros [Hl Hb] Hp. destruct (prefix_bytes p Hp) as (Hq & Hr & Hpq & Hoff).
  unfold broadcastAddress; cbn [address prefixLength host_val]. rewrite Hoff.
  assert (∀ o, (o ≤ 16)%nat → be_val b / 256 ^ Z.of_nat (16 - o) = be_val (take o b)) as Htake.
  { intros o Ho. rewrite <- (take_drop o b) at 1. rewrite be_val_app, length_drop, Hl.
    assert (Forall byte (drop o b)) as Hd by (by apply Forall_drop).
    pose proof (be_val_bound _ Hd) as Hbd. rewrite length_drop, Hl in Hbd.
    rewrite Z.div_add_l, (Z.div_small (be_val (drop o b))) by lia. lia. }
  destruct (Z.eqb_spec (p mod 8) 0) as [H0|H0]; cbn [negb].
  - rewrite memset_tail by (done || lia). rewrite be_val_app, be_val_ff, length_replicate.
    rewrite <- Htake, pow256 by lia. replace (8 * Z.of_nat (16 - Z.to_nat (p / 8))) with (128 - p) by lia. lia.
  - assert (p / 8 < 16) as Hq' by lia. rewrite memset_tail by (done || lia).
    set (i := Z.to_nat (p / 8)). assert (Z.to_nat (p / 8 + 1) = S i) as -> by lia.
    destruct (lookup_lt_is_Some_2 b i ltac:(lia)) as [x Hx].
    rewrite be_val_insert by (rewrite length_app, length_take, length_replicate; lia).
    rewrite lookup_app_l, lookup_take, Hx by (rewrite length_take; lia).
    rewrite decide_True by lia. simpl default.
    rewrite be_val_app, be_val_ff, length_app, length_take, !length_replicate, Hl.
    rewrite shiftr_255, lor_ones by lia.
    rewrite (take_S_r b i x Hx), be_val_app. cbn [be_val length].
    replace (Z.of_nat (S i `min` 16 + (16 - S i)) - 1 - Z.of_nat i) with (15 - p / 8) by lia.
    replace (Z.of_nat (16 - S i)) with (15 - p / 8) by lia.
    set (k := 8 - p mod 8). set (m := 15 - p / 8).
    replace (128 - p) with (8 * m + k) by lia.
    assert (be_val b / 2 ^ (8 * m + k) = (be_val (take i b) * 256 + x) / 2 ^ k) as ->.
    { rewrite Z.pow_add_r, <- Z.div_div by lia. f_equal.
      replace (2 ^ (8 * m)) with (256 ^ Z.of_nat (16 - S i)) by (rewrite pow256; f_equal; lia).
      rewrite Htake by lia. rewrite (take_S_r b i x Hx), be_val_app. cbn [be_val length]. lia. }
    replace (be_val (take i b) * 256) with (be_val (take i b) * 2 ^ (8 - k) * 2 ^ k)
      by (rewrite <- Z.mul_assoc, <- Z.pow_add_r by lia; replace (8 - k + k) with 8 by lia; lia).
    rewrite Z.div_add_l by lia. change 256 with (2 ^ 8). rewrite <- !Z.pow_mul_r by lia.
    rewrite (Z.pow_add_r 2 (8 * m)) by lia.
    replace (2 ^ (8 * Z.of_nat 1)) with (2 ^ (8 - k) * 2 ^ k) by (rewrite <- Z.pow_add_r by lia; f_equal; lia).
    change (Z.of_nat 0) with 0. rewrite Z.mul_0_r, Z.pow_0_r. ring.
Qed.

(** The two 32-bit masks, checked at each of the 33 prefix lengths. *)
Lemma masks_v4 p : 0 <= p <= 32 →
  Z.shiftr 4294967295 p = 2 ^ (32 - p) - 1 ∧
  Z.lxor 4294967295 (Z.shiftr 4294967295 p) = 2 ^ 32 - 2 ^ (32 - p).
Proof.
  intros Hp.
  assert (forallb (λ p, (Z.shiftr 4294967295 p =? 2 ^ (32 - p) - 1) &&
    (Z.lxor 4294967295 (Z.shiftr 4294967295 p) =? 2 ^ 32 - 2 ^ (32 - p))) (seqZ 0 33) = true) as H
    by (vm_compute; reflexivity).
  rewrite forallb_forall in H. specialize (H p). rewrite <- list_elem_of_In, elem_of_seqZ in H.
  specialize (H ltac:(lia)). apply andb_prop in H as [H1 H2]. by apply Z.eqb_eq in H1, H2.
Qed.

Lemma netmask_val ip : wf_ip ip →
  host_val (netmask ip) = 2 ^ width (address ip) - 2 ^ (width (address ip) - prefixLength ip).
Proof.
  destruct ip as [[|a|b] p]; intros [Hh Hp]; cbn [address prefixLength width] in *; [done| |by apply netmask_v6].
  destruct (masks_v4 p Hp) as [_ H]. unfold netmask; cbn [address prefixLength host_val].
  destruct (Z.ltb_spec p 32); [done|]. assert (p = 32) as -> by lia. done.
Qed.

Lemma hostmask_val ip : wf_ip ip →
  host_val (hostmask ip) = 2 ^ (width (address ip) - prefixLength ip) - 1.
Proof.
  destruct ip as [[|a|b] p]; intros [Hh Hp]; cbn [address prefixLength width] in *; [done| |by apply hostmask_v6].
  destruct (masks_v4 p Hp) as [H _]. unfold hostmask; cbn [address prefixLength host_val].
  destruct (Z.ltb_spec p 32); [done|]. assert (p = 32) as -> by lia. done.
Qed.

Lemma broadcast_val ip : wf_ip ip → let h := 2 ^ (width (address ip) - prefixLength ip) in
  host_val (broadcastAddress ip) = host_val (address ip) / h * h + (h - 1).
Proof.
  destruct ip as [[|a|b] p]; intros [Hh Hp]; cbn [address prefixLength width] in *; [done| |by apply broadcast_v6].
  destruct (masks_v4 p Hp) as [H _]. unfold broadcastAddress; cbn [address prefixLength host_val].
  destruct (Z.ltb_spec p 32); [by rewrite H, lor_ones by lia|]. assert (p = 32) as -> by lia.
  change (2 ^ (32 - 32)) with 1. rewrite Z.div_1_r. lia.
Qed.

Lemma broadcast_protocol ip : protocol (broadcastAddress ip) = protocol (address ip).
Proof. unfold broadcastAddress. by destruct ip as [[| |] p]. Qed.

(** ** Properties *)

(** [C39] Containment, for both families: [contains] holds exactly of the
    addresses of the network's family that agree with it in the leading
    [prefixLength] bits, [subnetOf] exactly when every member of one network
    is a member of the other and the prefix is no shorter, and [overlaps]
    exactly when the two networks share an address. *)
Theorem containment_spec (ip other : IPAddress) (x : QHostAddress)
    (Hip : wf_ip ip) (Hother : wf_ip other) (Hx : wf_host x) :
  (contains ip x = true ↔ in_net ip x) ∧
  (subnetOf other ip = true ↔
    prefixLength ip <= prefixLength other ∧ ∀ y, in_net other y → in_net ip y) ∧
  (overlaps ip other = true ↔ ∃ y, in_net ip y ∧ in_net other y).
Proof.
  split; [by apply contains_iff|]. split.
  - rewrite subnetOf_iff by done. split; intros [Hle H]; (split; [done|]).
    + intros y. by apply in_net_sub.
    + by apply H, in_net_self.
  - split; [by apply overlaps_true|]. intros (y & H1 & H2).
    destruct (overlaps ip other) eqn:Hov; [done|]. exfalso. by apply (overlaps_false ip other Hip Hother Hov y).
Qed.

Lemma containment_spec_witness :
  let n := mkIP (IPv4 167772160) 8 in
  let m := mkIP (IPv4 167837696) 16 in
  overlaps n m = true ↔ ∃ y, in_net n y ∧ in_net m y.
Proof.
  intros n m. apply (containment_spec n m (IPv4 1)); repeat split; simpl; lia.
Defined.

(** [subnets] of a network with no host bits set that is not a single
    address: exactly two networks, each one bit longer and without host bits,
    that partition it. *)
Theorem subnets_partition (ip : IPAddress) (Hip : good ip)
    (Hlt : prefixLength ip < width (address ip)) :
  ∃ s0 s1, subnets ip = [s0; s1] ∧ good s0 ∧ good s1 ∧
    prefixLength s0 = prefixLength ip + 1 ∧ prefixLength s1 = prefixLength ip + 1 ∧
    (∀ x, in_net ip x ↔ in_net s0 x ∨ in_net s1 x) ∧ apart s0 s1.
Proof.
  destruct Hip as [Hw Hn]. destruct (halves_of ip Hw Hn Hlt) as (s0 & s1 & []).
  exists s0, s1. split_and!; done || by split.
Qed.

Lemma subnets_partition_witness :
  let ip := mkIP (IPv6 zeros16) 61 in
  ∃ s0 s1, subnets ip = [s0; s1] ∧ good s0 ∧ good s1 ∧
    prefixLength s0 = prefixLength ip + 1 ∧ prefixLength s1 = prefixLength ip + 1 ∧
    (∀ x, in_net ip x ↔ in_net s0 x ∨ in_net s1 x) ∧ apart s0 s1.
Proof.
  intros ip. apply (subnets_partition ip); [|simpl; lia].
  repeat split; [repeat constructor; done|simpl; lia..].
Defined.

(** The masks of a network, for both families: the net mask has the
    prefix bits and nothing else, the host mask the other bits, and the
    broadcast address is the network's largest member. *)
Theorem masks_spec (ip : IPAddress) (Hwf : wf_ip ip) :
  let w := width (address ip) in
  let h := 2 ^ (w - prefixLength ip) in
  host_val (netmask ip) = 2 ^ w - h ∧
  host_val (hostmask ip) = h - 1 ∧
  in_net ip (broadcastAddress ip) ∧
  ∀ x, in_net ip x → host_val x <= host_val (broadcastAddress ip).
Proof.
  intros w h. pose proof (broadcast_val ip Hwf) as Hb. cbn zeta in Hb. fold w h in Hb.
  assert (0 < h) as Hh by (apply Z.pow_pos_nonneg; destruct Hwf as [_ Hp]; lia).
  split; [by apply netmask_val|]. split; [by apply hostmask_val|]. split.
  - split; [apply broadcast_protocol|]. fold w h. rewrite Hb, Z.div_add_l, (Z.div_small (h - 1)) by lia. lia.
  - intros x [_ Hx]. fold w h in Hx. rewrite Hb, <- Hx.
    pose proof (Z.div_mod (host_val x) h ltac:(lia)). pose proof (Z.mod_pos_bound (host_val x) h Hh). lia.
Qed.

Lemma masks_spec_witness :
  let ip := mkIP (IPv4 3232235777) 24 in
  host_val (netmask ip) = 4294967040 ∧ ∀ x, in_net ip x → host_val x <= host_val (broadcastAddress ip).
Proof.
  intros ip. destruct (masks_spec ip) as (H & _ & _ & Hx); [repeat split; simpl; lia|].
  split; [exact H|exact Hx].
Defined.

(** [C4] Subtracting a network from one that properly contains it, both with
    no host bits set: the loop ends after at most as many rounds as the
    prefixes differ, and returns pairwise disjoint networks, as many as the
    prefixes differ, that cover exactly the addresses of the larger network
    outside the smaller one. *)
Theorem excludeAddress_correct (self ip : IPAddress) (fuel : nat)
    (Hself : good self) (Hip : good ip)
    (Hsub : subnetOf ip self = true) (Hne : ip ≠ self)
    (Hfuel : prefixLength ip - prefixLength self <= Z.of_nat fuel) :
  ∃ l, excludeAddress fuel self ip = Ok l ∧ difference self ip l.
Proof. by apply exclude_one. Qed.

Lemma excludeAddress_correct_witness :
  let n := mkIP (IPv4 167772160) 8 in
  let m := mkIP (IPv4 167837696) 16 in
  ∃ l, excludeAddress 8 n m = Ok l ∧ difference n m l.
Proof.
  intros n m. apply (excludeAddress_correct n m 8); [repeat split; simpl; lia..|reflexivity|discriminate|simpl; lia].
Defined.

(** Subtracting a list of networks from another, all with no host bits
    set: 128 rounds of fuel always suffice, and the result covers exactly the
    addresses covered by the sources and by none of the excluded networks. *)
Theorem excludeAddresses_correct (fuel : nat) (sources excludes : list IPAddress)
    (Hfuel : (128 ≤ fuel)%nat) (Hsrc : Forall good sources) (Hexc : Forall good excludes) :
  ∃ l, excludeAddresses fuel sources excludes = Ok l ∧ Forall good l ∧
    ∀ x, covers l x ↔ covers sources x ∧ ¬ covers excludes x.
Proof.
  revert sources Hsrc. induction Hexc as [|e es He Hes IH]; intros src Hsrc; cbn [excludeAddresses].
  { exists src. split_and!; [done..|]. intros x. unfold covers. setoid_rewrite elem_of_nil. naive_solver. }
  destruct (exclude_from_correct fuel src e Hfuel Hsrc He) as (l1 & -> & Hg1 & Hc1).
  destruct (IH l1 Hg1) as (l & -> & Hg & Hc). exists l. split_and!; [done..|].
  intros x. rewrite Hc, Hc1, covers_cons. tauto.
Qed.

Lemma excludeAddresses_correct_witness :
  let n := mkIP (IPv4 0) 0 in
  let m := [mkIP (IPv4 167837696) 16; mkIP (IPv4 3232235520) 16] in
  ∃ l, excludeAddresses 128 [n] m = Ok l ∧ Forall good l ∧
    ∀ x, covers l x ↔ covers [n] x ∧ ¬ covers m x.
Proof.
  intros n m. apply (excludeAddresses_correct 128 [n] m); [lia|..];
    repeat (constructor; [repeat split; simpl; lia|]); constructor.
Defined.

(** If the network to be excluded has host bits set (as in 10.0.0.5/8),
    the loop never ends, however much fuel it is given: it passes the network
    it looks for without recognising it. *)
Theorem excludeAddress_diverges (self ip : IPAddress) (fuel : nat)
    (Hself : good self) (Hip : wf_ip ip) (Hbits : ¬ normalised ip) (Hsub : subnetOf ip self = true) :
  excludeAddress fuel self ip = OutOfFuel.
Proof.
  apply subnetOf_iff in Hsub as [Hle Hin]; [|done|apply Hself]. by apply exclude_loop_diverges.
Qed.

Lemma excludeAddress_diverges_witness :
  excludeAddress 1000 (mkIP (IPv4 0) 0) (mkIP (IPv4 167772165) 8) = OutOfFuel.
Proof.
  apply (excludeAddress_diverges (mkIP (IPv4 0) 0) (mkIP (IPv4 167772165) 8) 1000);
    [repeat split; simpl; lia..|intros H; vm_compute in H; discriminate H|reflexivity].
Defined.
