(* ===== verification/QtJson.v ===== *)
(** * Qt's strings and JSON values

    The parts of [QString], [QJsonValue], [QJsonObject] and [QJsonArray] the
    client and its daemon use.  A [QString] is null or a text; the comparison
    operators do not tell null from empty, [isNull] does.  A JSON object is an
    association list with at most one entry per key; reading an absent key
    gives the undefined value and inserting the undefined value removes the
    key, as Qt documents. *)

From stdpp Require Import prelude strings list.
From Stdlib Require Import ZArith Lia Ascii.
From S2P Require Import Prelude.

Local Open Scope Z_scope.

(** ** [QString] *)

Definition QString := option string.

Definition isNull (q : QString) : bool := match q with None => true | Some _ => false end.
Definition qtext (q : QString) : string := default "" q.

(** [operator==] *)
Definition qeqb (a b : QString) : bool := String.eqb (qtext a) (qtext b).

(** [QString::split(QChar)] *)
Fixpoint qsplit (c : ascii) (s : string) : list string :=
  match s with
  | EmptyString => [EmptyString]
  | String d s =>
      let r := qsplit c s in
      if Ascii.eqb c d then EmptyString :: r
      else match r with h :: t => String d h :: t | [] => [String d EmptyString] end
  end.

(** [QStringList::join] *)
Fixpoint join (sep : string) (l : list string) : string :=
  match l with
  | [] => ""
  | [s] => s
  | s :: l => s +:+ sep +:+ join sep l
  end.

Lemma join_snoc sep l x : l ≠ [] → join sep (l ++ [x]) = join sep l +:+ sep +:+ x.
Proof.
  induction l as [|y l IH]; intros H; [done|]. destruct l as [|z l]; [done|].
  change (join sep ((y :: z :: l) ++ [x])) with (y +:+ sep +:+ join sep ((z :: l) ++ [x])). rewrite IH by done.
  change (join sep (y :: z :: l)) with (y +:+ sep +:+ join sep (z :: l)). by rewrite !sapp_assoc.
Qed.

(** ** [QJsonValue]

    [JDouble m e] is the finite double [m * 2^e]. *)
Inductive QJson :=
| JUndefined
| JNull
| JBool (b : bool)
| JDouble (m e : Z)
| JString (s : string)
| JArray (l : list QJson)
| JObject (l : list (string * QJson)).

Definition QJsonObject := list (string * QJson).

Definition JInt (n : Z) : QJson := JDouble n 0.

(** [QJsonValue(const QString&)] *)
Definition JText (q : QString) : QJson := JString (qtext q).

Definition isUndefined (v : QJson) : bool := match v with JUndefined => true | _ => false end.
Definition isJNull (v : QJson) : bool := match v with JNull => true | _ => false end.
Definition isString (v : QJson) : bool := match v with JString _ => true | _ => false end.
Definition isDouble (v : QJson) : bool := match v with JDouble _ _ => true | _ => false end.
Definition isBool (v : QJson) : bool := match v with JBool _ => true | _ => false end.
Definition isArray (v : QJson) : bool := match v with JArray _ => true | _ => false end.
Definition isObject (v : QJson) : bool := match v with JObject _ => true | _ => false end.

(** [toString()]: null unless the value is a string. *)
Definition toQString (v : QJson) : QString := match v with JString s => Some s | _ => None end.
Definition toBool (v : QJson) : bool := match v with JBool b => b | _ => false end.
Definition toArray (v : QJson) : list QJson := match v with JArray l => l | _ => [] end.
Definition toObject (v : QJson) : QJsonObject := match v with JObject o => o | _ => [] end.

Definition int_min : Z := - 2 ^ 31.
Definition int_max : Z := 2 ^ 31 - 1.

(** The double as an integer, when it is one. *)
Definition double_integer (m e : Z) : option Z :=
  if 0 <=? e then Some (m * 2 ^ e)
  else if m mod 2 ^ (- e) =? 0 then Some (m / 2 ^ (- e)) else None.

(** [toInt()]: 0 unless the value is a number with an integral value in the
    range of [int]. *)
Definition toInt (v : QJson) : Z :=
  match v with
  | JDouble m e =>
      match double_integer m e with
      | Some n => if (int_min <=? n) && (n <=? int_max) then n else 0
      | None => 0
      end
  | _ => 0
  end.

(** The conversion of [toDouble()] to [int]: towards zero.  (C++ leaves values
    outside [int] undefined; they are kept as they are.) *)
Definition double_to_int (v : QJson) : Z :=
  match v with
  | JDouble m e => if 0 <=? e then m * 2 ^ e else Z.quot m (2 ^ (- e))
  | _ => 0
  end.

(** ** [QJsonObject] *)

Fixpoint value (o : QJsonObject) (k : string) : QJson :=
  match o with
  | [] => JUndefined
  | (k', v) :: o => if String.eqb k' k then v else value o k
  end.

Fixpoint contains_key (o : QJsonObject) (k : string) : bool :=
  match o with
  | [] => false
  | (k', _) :: o => String.eqb k' k || contains_key o k
  end.

Definition remove (o : QJsonObject) (k : string) : QJsonObject :=
  List.filter (λ kv, negb (String.eqb kv.1 k)) o.

Definition insert_key (o : QJsonObject) (k : string) (v : QJson) : QJsonObject :=
  if isUndefined v then remove o k else remove o k ++ [(k, v)].

(** An object built by a sequence of [insert] calls. *)
Definition inserts (o : QJsonObject) (l : list (string * QJson)) : QJsonObject :=
  foldl (λ o kv, insert_key o kv.1 kv.2) o l.

(** ** [QJsonArray] *)

(** [append]: an undefined value becomes null. *)
Definition array_item (v : QJson) : QJson := if isUndefined v then JNull else v.

(** No value inside the object is undefined. *)
Definition defined_object (o : QJsonObject) : Prop := Forall (λ kv, kv.2 ≠ JUndefined) o.

(** ** Splitting and joining *)

Lemma qsplit_app c s t : has_char c s = false → qsplit c (s +:+ String c t) = s :: qsplit c t.
Proof.
  induction s as [|d s IH]; simpl; [by rewrite Ascii.eqb_refl|].
  intros H. apply orb_false_iff in H as [Hd Hs]. rewrite Hd, IH by done. done.
Qed.

Lemma qsplit_none c s : has_char c s = false → qsplit c s = [s].
Proof.
  induction s as [|d s IH]; simpl; [done|].
  intros H. apply orb_false_iff in H as [Hd Hs]. rewrite Hd, IH by done. done.
Qed.

Lemma qsplit_join c l :
  l ≠ [] → Forall (λ s, has_char c s = false) l → qsplit c (join (String c "") l) = l.
Proof.
  intros Hne Hl. induction Hl as [|s l Hs Hl IH]; [done|].
  destruct l as [|s' l]; [by apply qsplit_none|].
  change (join _ (s :: s' :: l)) with (s +:+ String c (join (String c "") (s' :: l))).
  rewrite qsplit_app by done. by rewrite IH.
Qed.

Lemma has_char_join c sep l :
  has_char c sep = false → Forall (λ s, has_char c s = false) l → has_char c (join sep l) = false.
Proof.
  intros Hsep Hl. induction Hl as [|s l Hs Hl IH]; [done|]. destruct l as [|s' l]; [done|].
  change (join _ (s :: s' :: l)) with (s +:+ (sep +:+ join sep (s' :: l))).
  by rewrite !has_char_app, Hs, Hsep, IH.
Qed.

(** ** Reading after writing *)

Lemma value_remove_same o k : value (remove o k) k = JUndefined.
Proof.
  induction o as [|[k' v] o IH]; [done|]. simpl. destruct (String.eqb k' k) eqn:E; [done|].
  simpl. by rewrite E.
Qed.

Lemma value_remove_other o k k' : k ≠ k' → value (remove o k) k' = value o k'.
Proof.
  intros Hne. induction o as [|[j v] o IH]; [done|]. simpl.
  destruct (String.eqb_spec j k) as [->|]; simpl; [|by rewrite IH].
  by destruct (String.eqb_spec k k').
Qed.

Lemma value_app o o' k : contains_key o k = false → value (o ++ o') k = value o' k.
Proof.
  induction o as [|[j v] o IH]; [done|]. simpl. by destruct (String.eqb j k).
Qed.

Lemma contains_remove o k k' :
  contains_key (remove o k) k' = negb (String.eqb k k') && contains_key o k'.
Proof.
  induction o as [|[j v] o IH]; simpl; [by destruct (String.eqb k k')|].
  destruct (String.eqb_spec j k) as [->|Hj]; simpl; rewrite IH.
  - by destruct (String.eqb k k').
  - destruct (String.eqb_spec j k') as [->|]; simpl; [|done].
    destruct (String.eqb_spec k k'); [congruence|done].
Qed.

Lemma value_app_other o k v k' : k ≠ k' → value (o ++ [(k, v)]) k' = value o k'.
Proof.
  intros Hne. induction o as [|[j u] o IH]; simpl.
  - by destruct (String.eqb_spec k k').
  - by rewrite IH.
Qed.

(** [value] after [insert], undefined values included. *)
Lemma value_insert o k v k' :
  value (insert_key o k v) k' = if String.eqb k k' then v else value o k'.
Proof.
  unfold insert_key. destruct (String.eqb_spec k k') as [<-|Hne].
  - destruct v; simpl; try apply value_remove_same;
      (rewrite value_app by (by rewrite contains_remove, String.eqb_refl)); simpl; by rewrite String.eqb_refl.
  - destruct (isUndefined v); [by apply value_remove_other|].
    by rewrite value_app_other, value_remove_other.
Qed.

Lemma contains_key_app o k v k' :
  contains_key (o ++ [(k, v)]) k' = contains_key o k' || String.eqb k k'.
Proof.
  induction o as [|[j u] o IH]; simpl; [by rewrite orb_false_r|]. by rewrite IH, orb_assoc.
Qed.

(** A key is present exactly when its value is defined. *)
Lemma contains_key_value o k :
  defined_object o → contains_key o k = negb (isUndefined (value o k)).
Proof.
  induction 1 as [|[j v] o Hv _ IH]; [done|]. simpl in *.
  destruct (String.eqb j k); [by destruct v|done].
Qed.

Lemma contains_insert o k v k' :
  contains_key (insert_key o k v) k' =
    if String.eqb k k' then negb (isUndefined v) else contains_key o k'.
Proof.
  unfold insert_key. destruct (isUndefined v); rewrite ?contains_key_app, contains_remove;
    destruct (String.eqb k k'); simpl; rewrite ?orb_false_r; done.
Qed.

Lemma insert_defined o k v : defined_object o → defined_object (insert_key o k v).
Proof.
  intros Ho. assert (defined_object (remove o k)) as Hr.
  { unfold defined_object in *. rewrite Forall_forall in *. intros kv Hkv.
    apply list_elem_of_In, filter_In in Hkv as [Hkv _]. apply Ho. by apply list_elem_of_In. }
  unfold insert_key. destruct v; simpl; [done|..]; apply Forall_app; (split; [done|]); by constructor.
Qed.

(** The value a sequence of insertions leaves under a key: the last one. *)
Definition last_value (l : list (string * QJson)) (k : string) : option QJson :=
  foldl (λ r kv, if String.eqb kv.1 k then Some kv.2 else r) None l.

Lemma last_value_acc l k r :
  foldl (λ r kv, if String.eqb kv.1 k then Some kv.2 else r) r l =
  match last_value l k with Some v => Some v | None => r end.
Proof.
  revert r. unfold last_value. induction l as [|[j v] l IH]; intros r; [done|]. simpl.
  rewrite IH. rewrite (IH (if String.eqb j k then Some v else None)).
  destruct (foldl _ None l); [done|]. by destruct (String.eqb j k).
Qed.

Lemma value_inserts o l k :
  value (inserts o l) k = match last_value l k with Some v => v | None => value o k end.
Proof.
  unfold inserts. revert o. induction l as [|[j v] l IH]; intros o; [done|]. simpl.
  rewrite IH, value_insert. unfold last_value at 2. simpl. rewrite last_value_acc.
  destruct (last_value l k); [done|]. by destruct (String.eqb j k).
Qed.

Lemma contains_inserts o l k :
  contains_key (inserts o l) k =
    match last_value l k with Some v => negb (isUndefined v) | None => contains_key o k end.
Proof.
  unfold inserts. revert o. induction l as [|[j v] l IH]; intros o; [done|]. simpl.
  rewrite IH, contains_insert. unfold last_value at 2. simpl. rewrite last_value_acc.
  destruct (last_value l k); [done|]. by destruct (String.eqb j k).
Qed.

(** An integer sent as a double is read back unchanged. *)
Lemma toInt_JInt n : int_min <= n <= int_max → toInt (JInt n) = n.
Proof.
  intros H. simpl. rewrite Z.mul_1_r. destruct (Z.leb_spec int_min n), (Z.leb_spec n int_max); try lia. done.
Qed.

Lemma double_to_int_JInt n : double_to_int (JInt n) = n.
Proof. simpl. lia. Qed.
