(* ===== verification/InterfaceConfig.v ===== *)
(** * The configuration of the daemon's interface

    Models [src/client/daemon/interfaceconfig.h] and [interfaceconfig.cpp], and
    the parser [Daemon::parseConfig] of [daemon.cpp] that builds such a record
    from the JSON object a client sends.  The Qt services used (address texts,
    number texts, enumerator names, [std::sort]) are the fields of the class
    [QtEnv]; what Qt and C++ document of them is the class [QtLaws]. *)

From stdpp Require Import prelude strings list pretty sorting.
From Stdlib Require Import ZArith Lia Ascii.
From S2P Require Import Prelude JsRuntime IPAddress QtJson.

Local Open Scope Z_scope.

(** ** Data *)

Inductive HopType := SingleHop | MultiHopEntry | MultiHopExit.

#[global] Instance HopType_eq_dec : EqDecision HopType.
Proof. solve_decision. Defined.

Record InterfaceConfig := mkConfig {
  m_hopType : HopType;
  m_privateKey : QString;
  m_deviceIpv4Address : QString;
  m_deviceIpv6Address : QString;
  m_serverIpv4Gateway : QString;
  m_serverIpv6Gateway : QString;
  m_serverPublicKey : QString;
  m_serverIpv4AddrIn : QString;
  m_serverPskKey : QString;
  m_serverIpv6AddrIn : QString;
  m_dnsServer : QString;
  m_serverPort : Z;
  m_deviceMTU : Z;
  m_allowedIPAddressRanges : list IPAddress;
  m_excludedAddresses : list string;
  m_vpnDisabledApps : list string;
  m_killSwitchEnabled : bool;
  m_junkPacketCount : QString;
  m_junkPacketMinSize : QString;
  m_junkPacketMaxSize : QString;
  m_initPacketJunkSize : QString;
  m_responsePacketJunkSize : QString;
  m_initPacketMagicHeader : QString;
  m_responsePacketMagicHeader : QString;
  m_underloadPacketMagicHeader : QString;
  m_transportPacketMagicHeader : QString;
}.

(** [InterfaceConfig()].  The constructor leaves [m_hopType] and
    [m_killSwitchEnabled] uninitialised: they are arguments. *)
Definition defaultConfig (hop : HopType) (kill : bool) : InterfaceConfig :=
  {| m_hopType := hop; m_privateKey := None; m_deviceIpv4Address := None; m_deviceIpv6Address := None;
     m_serverIpv4Gateway := None; m_serverIpv6Gateway := None; m_serverPublicKey := None;
     m_serverIpv4AddrIn := None; m_serverPskKey := None; m_serverIpv6AddrIn := None; m_dnsServer := None;
     m_serverPort := 0; m_deviceMTU := 1420; m_allowedIPAddressRanges := []; m_excludedAddresses := [];
     m_vpnDisabledApps := []; m_killSwitchEnabled := kill;
     m_junkPacketCount := None; m_junkPacketMinSize := None; m_junkPacketMaxSize := None;
     m_initPacketJunkSize := None; m_responsePacketJunkSize := None; m_initPacketMagicHeader := None;
     m_responsePacketMagicHeader := None; m_underloadPacketMagicHeader := None;
     m_transportPacketMagicHeader := None |}.

(** ** Qt's services *)

Class QtEnv := {
  parseAddress : string → QHostAddress;          (* QHostAddress(const QString&) *)
  parseSubnet : string → QHostAddress * Z;       (* QHostAddress::parseSubnet *)
  addressText : QHostAddress → string;           (* QHostAddress::toString *)
  textToInt : string → Z;                        (* QString::toInt *)
  keyToValue : string → option HopType;          (* QMetaEnum::keyToValue *)
  sortRanges : list IPAddress → list IPAddress;  (* std::sort by decreasing prefix length *)
  onWindows : bool;                              (* Q_OS_WINDOWS *)
}.

(** [QMetaEnum::valueToKey] *)
Definition valueToKey (h : HopType) : string :=
  match h with
  | SingleHop => "SingleHop"
  | MultiHopEntry => "MultiHopEntry"
  | MultiHopExit => "MultiHopExit"
  end.

(** The comparator of the sort, reflexively closed. *)
Definition longer (a b : IPAddress) : Prop := prefixLength b <= prefixLength a.

Class QtLaws (env : QtEnv) := {
  parse_text h : wf_host h → parseAddress (addressText h) = h;
  textToInt_empty : textToInt "" = 0;
  keyToValue_name h : keyToValue (valueToKey h) = Some h;
  sort_permutation l : sortRanges l ≡ₚ l;
  sort_sorted l : Sorted longer (sortRanges l);
}.

(** ** An executable environment

    A stand-in that satisfies the laws: IPv4 addresses as dotted decimals, IPv6
    addresses as sixteen two-digit bytes separated by colons. *)
Module SimQt.

Definition hex_digits : list ascii :=
  ["0"; "1"; "2"; "3"; "4"; "5"; "6"; "7"; "8"; "9"; "a"; "b"; "c"; "d"; "e"; "f"]%char.

Definition hex2 (b : Z) : string :=
  String (nth (Z.to_nat (b / 16)) hex_digits "0"%char)
    (String (nth (Z.to_nat (b mod 16)) hex_digits "0"%char) "").

(** The byte with the given text. *)
Definition read_byte (show : Z → string) (s : string) : option Z :=
  snd <$> list_find (λ b, show b = s) bytes.

Definition address_text (h : QHostAddress) : string :=
  match h with
  | NullAddress => ""
  | IPv4 a => join "." (map pretty [a / 2 ^ 24; a / 2 ^ 16 mod 256; a / 2 ^ 8 mod 256; a mod 256])
  | IPv6 b => join ":" (map hex2 b)
  end.

Definition parse_address (s : string) : QHostAddress :=
  match qsplit "." s with
  | [_; _; _; _] as l =>
      match mapM (read_byte pretty) l with
      | Some l => IPv4 (be_val l)
      | None => NullAddress
      end
  | [_] =>
      match mapM (read_byte hex2) (qsplit ":" s) with
      | Some l => if bool_decide (length l = 16%nat) then IPv6 l else NullAddress
      | None => NullAddress
      end
  | _ => NullAddress
  end.

(** Decimal digits only; everything else reads as 0. *)
Fixpoint read_decimal (s : string) (acc : Z) : Z :=
  match s with
  | EmptyString => acc
  | String c s =>
      let n := Z.of_nat (Ascii.nat_of_ascii c) - 48 in
      if (0 <=? n) && (n <=? 9) then read_decimal s (10 * acc + n) else 0
  end.

Definition parse_subnet (s : string) : QHostAddress * Z :=
  match qsplit "/" s with
  | [a; p] => (parse_address a, read_decimal p 0)
  | _ => (NullAddress, -1)
  end.

Definition insert_range (a : IPAddress) : list IPAddress → list IPAddress :=
  fix go l := match l with
              | [] => [a]
              | b :: l => if prefixLength b <=? prefixLength a then a :: b :: l else b :: go l
              end.

#[global] Instance env : QtEnv := {
  parseAddress := parse_address;
  parseSubnet := parse_subnet;
  addressText := address_text;
  textToInt s := read_decimal s 0;
  keyToValue s := snd <$> list_find (λ h, valueToKey h = s) [SingleHop; MultiHopEntry; MultiHopExit];
  sortRanges := foldr insert_range [];
  onWindows := false;
}.

Lemma read_byte_pretty x : byte x →
  read_byte pretty (pretty x) = Some x ∧ has_char "." (pretty x) = false.
Proof.
  intros Hx.
  pose proof (bytes_spec (λ x, bool_decide (read_byte pretty (pretty x) = Some x) &&
    negb (has_char "." (pretty x))) x Hx) as H.
  specialize (H ltac:(vm_compute; reflexivity)). apply andb_prop in H as [H1 H2].
  apply bool_decide_eq_true in H1. by apply negb_true_iff in H2.
Qed.

Lemma read_byte_hex2 x : byte x →
  read_byte hex2 (hex2 x) = Some x ∧ has_char "." (hex2 x) = false ∧ has_char ":" (hex2 x) = false.
Proof.
  intros Hx.
  pose proof (bytes_spec (λ x, bool_decide (read_byte hex2 (hex2 x) = Some x) &&
    (negb (has_char "." (hex2 x)) && negb (has_char ":" (hex2 x)))) x Hx) as H.
  specialize (H ltac:(vm_compute; reflexivity)). apply andb_prop in H as [H1 H2].
  apply andb_prop in H2 as [H2 H3]. apply bool_decide_eq_true in H1. by apply negb_true_iff in H2, H3.
Qed.

Lemma mapM_read show l :
  Forall (λ x, read_byte show (show x) = Some x) l → mapM (read_byte show) (map show l) = Some l.
Proof. induction 1 as [|x l Hx _ IH]; [done|]. simpl. by rewrite Hx; simpl; rewrite IH. Qed.

Lemma parse_address_text h : wf_host h → parse_address (address_text h) = h.
Proof.
  destruct h as [|a|b]; [done|..]; intros Hwf; unfold parse_address, address_text.
  - set (l := [a / 2 ^ 24; a / 2 ^ 16 mod 256; a / 2 ^ 8 mod 256; a mod 256]).
    assert (Forall byte l) as Hl.
    { repeat constructor; try (apply Z.mod_pos_bound; lia); simpl in Hwf;
        [apply Z.div_pos; lia|apply Z.div_lt_upper_bound; lia]. }
    assert (Forall (λ x, read_byte pretty (pretty x) = Some x ∧ has_char "." (pretty x) = false) l) as Hp
      by (eapply Forall_impl; [exact Hl|apply read_byte_pretty]).
    rewrite qsplit_join; [|done|by apply Forall_fmap, (Forall_impl _ _ _ Hp); intros ? []].
    change (map pretty l) with [pretty (a / 2 ^ 24); pretty (a / 2 ^ 16 mod 256);
      pretty (a / 2 ^ 8 mod 256); pretty (a mod 256)] at 1. cbv iota beta.
    assert (mapM (read_byte pretty) (map pretty l) = Some l) as HM
      by (apply mapM_read; eapply Forall_impl; [exact Hp|by intros ? []]).
    unfold l in HM at 1. cbn [map] in HM. rewrite HM.
    f_equal. unfold l. cbn [be_val length]. change (2 ^ 24) with (2 ^ 8 * 2 ^ 16). change (2 ^ 16) with (2 ^ 8 * 2 ^ 8).
    rewrite <- !Z.div_div by lia. change (2 ^ 8) with 256. 
    pose proof (Z.div_mod a 256 ltac:(lia)). pose proof (Z.div_mod (a / 256) 256 ltac:(lia)).
    pose proof (Z.div_mod (a / 256 / 256) 256 ltac:(lia)). simpl. lia.
  - destruct Hwf as [Hlen Hb].
    assert (Forall (λ x, read_byte hex2 (hex2 x) = Some x ∧ has_char "." (hex2 x) = false ∧
      has_char ":" (hex2 x) = false) b) as Hp by (eapply Forall_impl; [exact Hb|apply read_byte_hex2]).
    rewrite (qsplit_none "."); last first.
    { apply has_char_join; [done|]. apply Forall_fmap, (Forall_impl _ _ _ Hp). by intros ? (_ & ? & _). }
    rewrite (qsplit_join ":"); [|by destruct b|].
    2:{ apply Forall_fmap, (Forall_impl _ _ _ Hp). by intros ? (_ & _ & ?). }
    rewrite mapM_read by (eapply Forall_impl; [exact Hp|by intros ? []]).
    by rewrite bool_decide_true.
Qed.

Lemma insert_range_perm a l : insert_range a l ≡ₚ a :: l.
Proof.
  induction l as [|b l IH]; simpl; [done|]. destruct (_ <=? _); [done|].
  rewrite IH. apply Permutation_swap.
Qed.

Lemma insert_range_sorted a l : Sorted longer l → Sorted longer (insert_range a l).
Proof.
  induction 1 as [|b l Hs IH Hhd]; simpl; [by repeat constructor|].
  destruct (Z.leb_spec (prefixLength b) (prefixLength a)) as [Hle|Hlt].
  - constructor; [by constructor|]. by constructor.
  - constructor; [done|]. assert (longer b a) by (unfold longer; lia).
    destruct l as [|c l]; simpl; [by constructor|]. inversion Hhd; subst.
    by destruct (_ <=? _); constructor.
Qed.

#[global] Instance laws : QtLaws env.
Proof.
  split.
  - exact parse_address_text.
  - done.
  - by intros [].
  - intros l. simpl. induction l as [|a l IH]; [done|]. simpl. by rewrite insert_range_perm, IH.
  - intros l. simpl. induction l as [|a l IH]; [constructor|]. simpl. by apply insert_range_sorted.
Qed.

End SimQt.

Section Config.
  Context {env : QtEnv}.

(** [IPAddress::toString] *)
Definition ip_toString (ip : IPAddress) : string :=
  addressText (address ip) +:+ "/" +:+ pretty (prefixLength ip).

(** ** Writing *)

Definition rangeToJson (i : IPAddress) : QJson :=
  JObject (inserts []
    [("address", JString (addressText (address i)));
     ("range", JInt (prefixLength i));
     ("isIpv6", JBool (bool_decide (protocol (address i) = IPv6Protocol)))]).

Definition toJson (c : InterfaceConfig) : QJsonObject :=
  let json := inserts []
    [("hopType", JString (valueToKey (m_hopType c)));
     ("privateKey", JText (m_privateKey c));
     ("deviceIpv4Address", JText (m_deviceIpv4Address c));
     ("deviceIpv6Address", JText (m_deviceIpv6Address c));
     ("serverPublicKey", JText (m_serverPublicKey c));
     ("serverPskKey", JText (m_serverPskKey c));
     ("serverIpv4AddrIn", JText (m_serverIpv4AddrIn c));
     ("serverIpv6AddrIn", JText (m_serverIpv6AddrIn c));
     ("serverPort", JInt (m_serverPort c));
     ("deviceMTU", JInt (m_deviceMTU c))] in
  let json :=
    match m_hopType c with
    | MultiHopExit | SingleHop =>
        inserts json
          [("serverIpv4Gateway", JText (m_serverIpv4Gateway c));
           ("serverIpv6Gateway", JText (m_serverIpv6Gateway c));
           ("dnsServer", JText (m_dnsServer c))]
    | MultiHopEntry => json
    end in
  inserts json
    [("allowedIPAddressRanges", JArray (map rangeToJson (m_allowedIPAddressRanges c)));
     ("excludedAddresses", JArray (map JString (m_excludedAddresses c)));
     ("vpnDisabledApps", JArray (map JString (m_vpnDisabledApps c)))].

Definition nl : string := String (Ascii.ascii_of_nat 10) EmptyString.

(** [out << key << " = " << value << "\n"] *)
Definition line (key val : string) : string := key +:+ " = " +:+ val +:+ nl.

(** [if (!value.isNull()) out << ...] *)
Definition optline (key : string) (v : QString) : string :=
  if isNull v then "" else line key (qtext v).

(** [extra] lists the map's entries in key order. *)
Definition toWgConf (extra : list (string * string)) (c : InterfaceConfig) : string :=
  if existsb (λ v, has_char (Ascii.ascii_of_nat 10) (qtext v))
       [m_privateKey c; m_deviceIpv4Address c; m_deviceIpv6Address c; m_serverIpv4Gateway c;
        m_serverIpv6Gateway c; m_serverPublicKey c; m_serverIpv4AddrIn c; m_serverIpv6AddrIn c]
  then ""
  else
    let addresses := (if isNull (m_deviceIpv4Address c) then [] else [qtext (m_deviceIpv4Address c)]) ++
                     (if isNull (m_deviceIpv6Address c) then [] else [qtext (m_deviceIpv6Address c)]) in
    if bool_decide (addresses = []) then ""
    else
      "[Interface]" +:+ nl +:+
      line "PrivateKey" (qtext (m_privateKey c)) +:+
      line "Address" (join ", " addresses) +:+
      (if m_deviceMTU c =? 0 then "" else line "MTU" (pretty (m_deviceMTU c))) +:+
      (if isNull (m_dnsServer c) then ""
       else line "DNS" (join ", " ([qtext (m_dnsServer c)] ++
              if qeqb (m_dnsServer c) (m_serverIpv4Gateway c) then [qtext (m_serverIpv6Gateway c)] else []))) +:+
      optline "Jc" (m_junkPacketCount c) +:+
      optline "JMin" (m_junkPacketMinSize c) +:+
      optline "JMax" (m_junkPacketMaxSize c) +:+
      optline "S1" (m_initPacketJunkSize c) +:+
      optline "S2" (m_responsePacketJunkSize c) +:+
      optline "H1" (m_initPacketMagicHeader c) +:+
      optline "H2" (m_responsePacketMagicHeader c) +:+
      optline "H3" (m_underloadPacketMagicHeader c) +:+
      optline "H4" (m_transportPacketMagicHeader c) +:+
      String.concat "" (map (λ kv, line kv.1 kv.2) extra) +:+
      nl +:+ "[Peer]" +:+ nl +:+
      line "PublicKey" (qtext (m_serverPublicKey c)) +:+
      line "Endpoint" (qtext (m_serverIpv4AddrIn c) +:+ ":" +:+ pretty (m_serverPort c)) +:+
      line "AllowedIPs" (join ", " (map ip_toString (m_allowedIPAddressRanges c))).

(** ** Reading *)

(** [Daemon::parseStringList]: the strings appended, [None] for [false]. *)
Fixpoint all_strings (l : list QJson) : option (list string) :=
  match l with
  | [] => Some []
  | JString s :: l => l' ← all_strings l; Some (s :: l')
  | _ :: _ => None
  end.

Definition parseStringList (obj : QJsonObject) (name : string) : option (list string) :=
  if contains_key obj name then
    match value obj name with
    | JArray l => all_strings l
    | _ => None
    end
  else Some [].

(** [GETVALUE(name, where, String)] and [GETVALUE(name, where, Double)] *)
Definition getString (obj : QJsonObject) (name : string) : option QString :=
  if negb (contains_key obj name) then None
  else if negb (isString (value obj name)) then None
  else Some (toQString (value obj name)).

Definition getDouble (obj : QJsonObject) (name : string) : option Z :=
  if negb (contains_key obj name) then None
  else if negb (isDouble (value obj name)) then None
  else Some (double_to_int (value obj name)).

Definition parseMTU (obj : QJsonObject) : Z :=
  let n := textToInt (qtext (toQString (value obj "deviceMTU"))) in
  if negb (contains_key obj "deviceMTU") || (n =? 0) then 1420
  else if onWindows && (n <? 1280) then 1280 else n.

Definition parseDns (obj : QJsonObject) : option QString :=
  if negb (contains_key obj "dnsServer") then Some None
  else if negb (isString (value obj "dnsServer")) then None
  else Some (toQString (value obj "dnsServer")).

Definition parseHopType (obj : QJsonObject) : option HopType :=
  if negb (contains_key obj "hopType") then Some SingleHop
  else match value obj "hopType" with
       | JString s => keyToValue s
       | _ => None
       end.

(** One entry of [allowedIPAddressRanges]. *)
Definition parseRange (i : QJson) : option IPAddress :=
  if negb (isObject i) then None
  else
    let ipObj := toObject i in
    let address := value ipObj "address" in
    let range := value ipObj "range" in
    let isIpv6 := value ipObj "isIpv6" in
    if negb (isString address) then None
    else if negb (isDouble range) then None
    else if negb (isBool isIpv6) then None
    else Some (mkIP (parseAddress (qtext (toQString address))) (toInt range)).

Fixpoint parseRangeList (l : list QJson) : option (list IPAddress) :=
  match l with
  | [] => Some []
  | i :: l => ip ← parseRange i; l' ← parseRangeList l; Some (ip :: l')
  end.

(** The ranges are appended to those of [config] and the whole list sorted. *)
Definition parseRanges (obj : QJsonObject) (before : list IPAddress) : option (list IPAddress) :=
  if negb (contains_key obj "allowedIPAddressRanges") then None
  else match value obj "allowedIPAddressRanges" with
       | JArray l => ips ← parseRangeList l; Some (sortRanges (before ++ ips))
       | _ => None
       end.

Definition lower (c : ascii) : ascii :=
  let n := Ascii.nat_of_ascii c in
  if (65 <=? n)%nat && (n <=? 90)%nat then Ascii.ascii_of_nat (n + 32) else c.

Fixpoint toLower (s : string) : string :=
  match s with EmptyString => EmptyString | String c s => String (lower c) (toLower s) end.

(** [QVariant(const QString&).toBool()] *)
Definition variantToBool (q : QString) : bool :=
  let s := toLower (qtext q) in
  negb (String.eqb s "" || String.eqb s "0" || String.eqb s "false").

(** [if (!obj.value(k).isNull()) field = obj.value(k).toString();] *)
Definition orKeep (obj : QJsonObject) (k : string) (old : QString) : QString :=
  if isJNull (value obj k) then old else toQString (value obj k).

(** [Daemon::parseConfig]: [None] for [false], the filled record for [true]. *)
Definition parseConfig (obj : QJsonObject) (config : InterfaceConfig) : option InterfaceConfig :=
  privateKey ← getString obj "privateKey";
  serverPublicKey ← getString obj "serverPublicKey";
  serverPort ← getDouble obj "serverPort";
  let str k := toQString (value obj k) in
  if isNull (str "deviceIpv4Address") && isNull (str "deviceIpv6Address") then None
  else if isNull (str "serverIpv4AddrIn") && isNull (str "serverIpv6AddrIn") then None
  else
    dnsServer ← parseDns obj;
    hopType ← parseHopType obj;
    ranges ← parseRanges obj (m_allowedIPAddressRanges config);
    excluded ← parseStringList obj "excludedAddresses";
    apps ← parseStringList obj "vpnDisabledApps";
    Some {| m_hopType := hopType;
            m_privateKey := privateKey;
            m_deviceIpv4Address := str "deviceIpv4Address";
            m_deviceIpv6Address := str "deviceIpv6Address";
            m_serverIpv4Gateway := str "serverIpv4Gateway";
            m_serverIpv6Gateway := str "serverIpv6Gateway";
            m_serverPublicKey := serverPublicKey;
            m_serverIpv4AddrIn := str "serverIpv4AddrIn";
            m_serverPskKey := str "serverPskKey";
            m_serverIpv6AddrIn := str "serverIpv6AddrIn";
            m_dnsServer := dnsServer;
            m_serverPort := serverPort;
            m_deviceMTU := parseMTU obj;
            m_allowedIPAddressRanges := ranges;
            m_excludedAddresses := m_excludedAddresses config ++ excluded;
            m_vpnDisabledApps := m_vpnDisabledApps config ++ apps;
            m_killSwitchEnabled := variantToBool (str "killSwitchOption");
            m_junkPacketCount := orKeep obj "Jc" (m_junkPacketCount config);
            m_junkPacketMinSize := orKeep obj "Jmin" (m_junkPacketMinSize config);
            m_junkPacketMaxSize := orKeep obj "Jmax" (m_junkPacketMaxSize config);
            m_initPacketJunkSize := orKeep obj "S1" (m_initPacketJunkSize config);
            m_responsePacketJunkSize := orKeep obj "S2" (m_responsePacketJunkSize config);
            m_initPacketMagicHeader := orKeep obj "H1" (m_initPacketMagicHeader config);
            m_responsePacketMagicHeader := orKeep obj "H2" (m_responsePacketMagicHeader config);
            m_underloadPacketMagicHeader := orKeep obj "H3" (m_underloadPacketMagicHeader config);
            m_transportPacketMagicHeader := orKeep obj "H4" (m_transportPacketMagicHeader config) |}.

(** What a receiver of [toJson] gets: texts are no longer null, the ranges are
    sorted, and what [toJson] leaves out has its default. *)
Definition received (c : InterfaceConfig) : InterfaceConfig :=
  let text (q : QString) : QString := Some (qtext q) in
  let outer (q : QString) : QString := match m_hopType c with MultiHopEntry => None | _ => text q end in
  {| m_hopType := m_hopType c;
     m_privateKey := text (m_privateKey c);
     m_deviceIpv4Address := text (m_deviceIpv4Address c);
     m_deviceIpv6Address := text (m_deviceIpv6Address c);
     m_serverIpv4Gateway := outer (m_serverIpv4Gateway c);
     m_serverIpv6Gateway := outer (m_serverIpv6Gateway c);
     m_serverPublicKey := text (m_serverPublicKey c);
     m_serverIpv4AddrIn := text (m_serverIpv4AddrIn c);
     m_serverPskKey := text (m_serverPskKey c);
     m_serverIpv6AddrIn := text (m_serverIpv6AddrIn c);
     m_dnsServer := outer (m_dnsServer c);
     m_serverPort := m_serverPort c;
     m_deviceMTU := 1420;
     m_allowedIPAddressRanges := sortRanges (m_allowedIPAddressRanges c);
     m_excludedAddresses := m_excludedAddresses c;
     m_vpnDisabledApps := m_vpnDisabledApps c;
     m_killSwitchEnabled := false;
     m_junkPacketCount := None; m_junkPacketMinSize := None; m_junkPacketMaxSize := None;
     m_initPacketJunkSize := None; m_responsePacketJunkSize := None; m_initPacketMagicHeader := None;
     m_responsePacketMagicHeader := None; m_underloadPacketMagicHeader := None;
     m_transportPacketMagicHeader := None |}.

(** The fields [toWgConf] checks for newlines, and the other texts it writes. *)
Definition checked (c : InterfaceConfig) : list QString :=
  [m_privateKey c; m_deviceIpv4Address c; m_deviceIpv6Address c; m_serverIpv4Gateway c;
   m_serverIpv6Gateway c; m_serverPublicKey c; m_serverIpv4AddrIn c; m_serverIpv6AddrIn c].
Definition unchecked (extra : list (string * string)) (c : InterfaceConfig) : list string :=
  qtext (m_dnsServer c) ::
  map qtext [m_junkPacketCount c; m_junkPacketMinSize c; m_junkPacketMaxSize c; m_initPacketJunkSize c;
   m_responsePacketJunkSize c; m_initPacketMagicHeader c; m_responsePacketMagicHeader c;
   m_underloadPacketMagicHeader c; m_transportPacketMagicHeader c] ++
  map fst extra ++ map snd extra ++ map ip_toString (m_allowedIPAddressRanges c).

Definition clean (s : string) : Prop := has_char (Ascii.ascii_of_nat 10) s = false.

(** A configuration with a line break in a checked field, or without a device
    address. *)
Definition refused (c : InterfaceConfig) : bool :=
  existsb (λ v, has_char (Ascii.ascii_of_nat 10) (qtext v)) (checked c) ||
  (isNull (m_deviceIpv4Address c) && isNull (m_deviceIpv6Address c)).

(** The lines of the file, as a list. *)
Definition wgLines (extra : list (string * string)) (c : InterfaceConfig) : list string :=
  let entry k v := k +:+ " = " +:+ v in
  let opt k v := if isNull v then [] else [entry k (qtext v)] in
  let addresses := (if isNull (m_deviceIpv4Address c) then [] else [qtext (m_deviceIpv4Address c)]) ++
                   (if isNull (m_deviceIpv6Address c) then [] else [qtext (m_deviceIpv6Address c)]) in
  ["[Interface]"; entry "PrivateKey" (qtext (m_privateKey c)); entry "Address" (join ", " addresses)] ++
  (if m_deviceMTU c =? 0 then [] else [entry "MTU" (pretty (m_deviceMTU c))]) ++
  (if isNull (m_dnsServer c) then []
   else [entry "DNS" (join ", " ([qtext (m_dnsServer c)] ++
          if qeqb (m_dnsServer c) (m_serverIpv4Gateway c) then [qtext (m_serverIpv6Gateway c)] else []))]) ++
  opt "Jc" (m_junkPacketCount c) ++ opt "JMin" (m_junkPacketMinSize c) ++
  opt "JMax" (m_junkPacketMaxSize c) ++ opt "S1" (m_initPacketJunkSize c) ++
  opt "S2" (m_responsePacketJunkSize c) ++ opt "H1" (m_initPacketMagicHeader c) ++
  opt "H2" (m_responsePacketMagicHeader c) ++ opt "H3" (m_underloadPacketMagicHeader c) ++
  opt "H4" (m_transportPacketMagicHeader c) ++
  map (λ kv, entry kv.1 kv.2) extra ++
  [""; "[Peer]"; entry "PublicKey" (qtext (m_serverPublicKey c));
   entry "Endpoint" (qtext (m_serverIpv4AddrIn c) +:+ ":" +:+ pretty (m_serverPort c));
   entry "AllowedIPs" (join ", " (map ip_toString (m_allowedIPAddressRanges c)))].

Fixpoint unlines (l : list string) : string :=
  match l with [] => "" | s :: l => s +:+ nl +:+ unlines l end.

(** ** Lemmas *)

Lemma all_strings_map l : all_strings (map JString l) = Some l.
Proof. induction l as [|s l IH]; [done|]. simpl. by rewrite IH. Qed.

Lemma wf_prefix_int ip : wf_ip ip → int_min <= prefixLength ip <= int_max.
Proof.
  intros [_ H]. assert (width (address ip) <= 128) by (by destruct (address ip)).
  unfold int_min, int_max. lia.
Qed.

Lemma parseRange_written {laws : QtLaws env} ip : wf_ip ip → parseRange (rangeToJson ip) = Some ip.
Proof.
  intros Hip. change (parseRange (rangeToJson ip)) with
    (Some (mkIP (parseAddress (addressText (address ip))) (toInt (JInt (prefixLength ip))))).
  rewrite parse_text by apply Hip. rewrite toInt_JInt by (by apply wf_prefix_int). by destruct ip.
Qed.

Lemma parseRangeList_written {laws : QtLaws env} l :
  Forall wf_ip l → parseRangeList (map rangeToJson l) = Some l.
Proof.
  induction 1 as [|ip l Hip _ IH]; [done|]. cbn [map parseRangeList].
  rewrite parseRange_written by done. simpl. by rewrite IH.
Qed.

Lemma getString_Some obj k q : getString obj k = Some q → ∃ s, value obj k = JString s ∧ q = Some s.
Proof.
  unfold getString. destruct (negb (contains_key obj k)); [done|].
  destruct (value obj k); try done. simpl. intros [= <-]. eauto.
Qed.

Lemma getDouble_Some obj k n :
  getDouble obj k = Some n → ∃ m e, value obj k = JDouble m e ∧ n = double_to_int (JDouble m e).
Proof.
  unfold getDouble. destruct (negb (contains_key obj k)); [done|].
  destruct (value obj k); try done. intros [= <-]. eauto.
Qed.

Lemma parseRangeList_Some l ips :
  parseRangeList l = Some ips → Forall2 (λ j ip, parseRange j = Some ip) l ips.
Proof.
  revert ips. induction l as [|j l IH]; intros ips; [by intros [= <-]|]. cbn [parseRangeList].
  intros H. apply bind_Some in H as (ip & Hip & H). apply bind_Some in H as (ips' & Hl & H).
  injection H as <-. constructor; auto.
Qed.

Lemma parseRanges_Some {laws : QtLaws env} obj ranges : parseRanges obj [] = Some ranges →
  ∃ l ips, value obj "allowedIPAddressRanges" = JArray l ∧
    Forall2 (λ j ip, parseRange j = Some ip) l ips ∧ ranges ≡ₚ ips ∧ Sorted longer ranges.
Proof.
  unfold parseRanges. destruct (negb _); [done|]. destruct (value _ _); try done.
  intros H. apply bind_Some in H as (ips & Hl & H). injection H as <-.
  exists l, ips. split_and!; [done|by apply parseRangeList_Some|apply sort_permutation|apply sort_sorted].
Qed.

Lemma all_strings_Some l strs : all_strings l = Some strs → l = map JString strs.
Proof.
  revert strs. induction l as [|j l IH]; intros strs; [by intros [= <-]|]. destruct j; try done.
  cbn [all_strings]. intros H. apply bind_Some in H as (strs' & Hl & H). injection H as <-.
  simpl. by rewrite (IH strs').
Qed.

Lemma parseStringList_Some obj k strs :
  parseStringList obj k = Some strs → contains_key obj k = true → value obj k = JArray (map JString strs).
Proof.
  unfold parseStringList. intros H Hin. rewrite Hin in H. destruct (value obj k); try done.
  by rewrite (all_strings_Some _ _ H).
Qed.

Lemma parseMTU_spec obj : parseMTU obj ≠ 0 ∧ (onWindows = true → 1280 <= parseMTU obj).
Proof.
  unfold parseMTU. set (n := textToInt _). destruct (negb _); simpl; [lia|].
  destruct (Z.eqb_spec n 0); [lia|]. destruct onWindows; simpl; [|by split].
  destruct (Z.ltb_spec n 1280); lia.
Qed.

(** *** The WireGuard file *)

Lemma unlines_app l1 l2 : unlines (l1 ++ l2) = unlines l1 +:+ unlines l2.
Proof. induction l1 as [|s l1 IH]; [done|]. simpl. by rewrite IH, !sapp_assoc. Qed.

Lemma qsplit_unlines l : Forall clean l → qsplit (Ascii.ascii_of_nat 10) (unlines l) = l ++ [""].
Proof.
  induction 1 as [|s l Hs _ IH]; [done|]. cbn [unlines app]. unfold nl.
  change (String (Ascii.ascii_of_nat 10) "" +:+ unlines l) with (String (Ascii.ascii_of_nat 10) (unlines l)).
  by rewrite qsplit_app, IH.
Qed.

Lemma unlines_line k v l : unlines ((k +:+ " = " +:+ v) :: l) = line k v +:+ unlines l.
Proof. unfold line. cbn [unlines]. by rewrite !sapp_assoc. Qed.

Lemma unlines_optline k v :
  unlines (if isNull v then [] else [k +:+ " = " +:+ qtext v]) = optline k v.
Proof. unfold optline. destruct (isNull v); [done|]. by rewrite unlines_line, sapp_nil_r. Qed.

Lemma unlines_extra extra :
  unlines (map (λ kv, kv.1 +:+ " = " +:+ kv.2) extra) = String.concat "" (map (λ kv, line kv.1 kv.2) extra).
Proof.
  induction extra as [|kv extra IH]; [done|]. cbn [map]. rewrite unlines_line, IH.
  destruct extra; simpl; [by rewrite sapp_nil_r|done].
Qed.

(** [toWgConf] either refuses or writes the lines of [wgLines]. *)
Lemma toWgConf_unlines extra c :
  toWgConf extra c =
    if refused c then "" else unlines (wgLines extra c).
Proof.
  unfold toWgConf, refused. fold (checked c). destruct (existsb _ (checked c)); [done|]. cbn [orb].
  assert (bool_decide ((if isNull (m_deviceIpv4Address c) then [] else [qtext (m_deviceIpv4Address c)]) ++
    (if isNull (m_deviceIpv6Address c) then [] else [qtext (m_deviceIpv6Address c)]) = []) =
    isNull (m_deviceIpv4Address c) && isNull (m_deviceIpv6Address c)) as ->
    by (destruct (isNull (m_deviceIpv4Address c)), (isNull (m_deviceIpv6Address c)); done).
  destruct (isNull _ && isNull _); [done|]. unfold wgLines.
  rewrite !unlines_app, !unlines_optline, unlines_extra.
  destruct (m_deviceMTU c =? 0), (isNull (m_dnsServer c)); cbn [unlines]; unfold line;
    rewrite !sapp_assoc; rewrite ?sapp_nil_r; reflexivity.
Qed.

Lemma clean_app s1 s2 : clean s1 → clean s2 → clean (s1 +:+ s2).
Proof. unfold clean. intros H1 H2. by rewrite has_char_app, H1, H2. Qed.

Lemma clean_pretty (z : Z) : clean (pretty z).
Proof.
  assert (∀ n : N, clean (pretty n)) as HN.
  { intros n. unfold clean. destruct (pretty_N_digits n) as (H & _ & _). revert H. generalize (pretty n).
    intros s. induction s as [|c s IH]; [done|]. cbn [sforall has_char].
    intros H. apply andb_prop in H as [Hc Hs]. rewrite (IH Hs), orb_false_r.
    pose proof (digit_not_newline c Hc) as Hn. unfold newline in Hn. by rewrite Ascii.eqb_sym. }
  destruct z as [|p|p]; [done|apply HN|]. exact (HN (N.pos p)).
Qed.

Lemma clean_join l : Forall clean l → clean (join ", " l).
Proof. by apply has_char_join. Qed.

Lemma clean_entry k v : clean k → clean v → clean (k +:+ " = " +:+ v).
Proof. intros. by repeat apply clean_app. Qed.

Lemma clean_opt k (v : QString) :
  clean k → clean (qtext v) → Forall clean (if isNull v then [] else [k +:+ " = " +:+ qtext v]).
Proof. intros. destruct (isNull v); repeat constructor. by apply clean_entry. Qed.

Lemma clean_pairs (extra : list (string * string)) :
  Forall clean (map fst extra) → Forall clean (map snd extra) →
  Forall clean (map (λ kv, kv.1 +:+ " = " +:+ kv.2) extra).
Proof.
  induction extra as [|kv extra IH]; simpl; [constructor|].
  intros [H1 ?]%Forall_cons_1 [H2 ?]%Forall_cons_1. constructor; [by apply clean_entry|auto].
Qed.

Lemma clean_singleton b s : clean s → Forall clean (if b : bool then [] else [s]).
Proof. intros. destruct b; by repeat constructor. Qed.

Lemma wgLines_clean extra c :
  refused c = false → Forall clean (unchecked extra c) → Forall clean (wgLines extra c).
Proof.
  unfold refused, checked, unchecked. intros [Hch _]%orb_false_iff Hun. cbn [existsb] in Hch.
  repeat match goal with H : _ || _ = false |- _ => apply orb_false_iff in H as [? H] end.
  cbn [map app] in Hun.
  repeat match goal with H : Forall clean (_ :: _) |- _ => apply Forall_cons_1 in H as [? H] end.
  apply Forall_app in Hun as [? [? ?]%Forall_app]. unfold wgLines.
  repeat (apply Forall_app; split);
    repeat first [ by apply clean_opt | by apply clean_pairs | apply clean_singleton
                 | apply Forall_cons_2 | apply Forall_nil_2 | apply clean_entry; [done|]
                 | apply clean_pretty | apply clean_join | apply Forall_app; split
                 | apply clean_app | done | case_match ].
Qed.

(** ** Properties *)

(** Round trip of the configuration: the parser accepts what [toJson]
    writes, for every configuration with proper ranges, and returns exactly the
    same hop type, keys, addresses, port, exclusions and applications, and the
    same ranges sorted; the device MTU, written as a number where the parser
    reads a text, is the one written field that is lost: the receiver always
    uses 1420. *)
Theorem parseConfig_toJson {laws : QtLaws env} (c : InterfaceConfig) (hop : HopType) (kill : bool)
    (Hranges : Forall wf_ip (m_allowedIPAddressRanges c)) :
  parseConfig (toJson c) (defaultConfig hop kill) = Some (received c).
Proof.
  destruct c as [hop']. cbn in Hranges. unfold parseConfig, parseRanges, parseStringList, parseMTU, parseHopType.
  unfold received, toJson, orKeep.
  pose proof (keyToValue_name hop') as Hhop.
  destruct hop'; simpl in Hhop |- *; rewrite Hhop; simpl; rewrite parseRangeList_written by done; simpl;
    rewrite !all_strings_map; simpl; by rewrite textToInt_empty, Z.mul_1_r.
Qed.

(** What an accepted configuration guarantees.  The private key, the
    server key and the port were present with their types, at least one device
    address and one server address are strings, every listed range was an
    object with an address, a number and a flag, the ranges used are those of
    the list sorted by decreasing prefix length, every exclusion was a string,
    the MTU is not 0 and on Windows at least 1280, and the result does not
    depend on the fields the record's constructor leaves uninitialised. *)
Theorem parseConfig_accepts {laws : QtLaws env} (obj : QJsonObject) (hop : HopType) (kill : bool)
    (c : InterfaceConfig) (Hc : parseConfig obj (defaultConfig hop kill) = Some c) :
  (∃ key pub m e, value obj "privateKey" = JString key ∧ value obj "serverPublicKey" = JString pub ∧
     value obj "serverPort" = JDouble m e ∧ m_privateKey c = Some key ∧ m_serverPublicKey c = Some pub ∧
     m_serverPort c = double_to_int (JDouble m e)) ∧
  (isNull (m_deviceIpv4Address c) && isNull (m_deviceIpv6Address c) = false) ∧
  (isNull (m_serverIpv4AddrIn c) && isNull (m_serverIpv6AddrIn c) = false) ∧
  (∃ l ips, value obj "allowedIPAddressRanges" = JArray l ∧
     Forall2 (λ j ip, parseRange j = Some ip) l ips ∧
     m_allowedIPAddressRanges c ≡ₚ ips ∧ Sorted longer (m_allowedIPAddressRanges c)) ∧
  (contains_key obj "excludedAddresses" = true →
     value obj "excludedAddresses" = JArray (map JString (m_excludedAddresses c))) ∧
  m_deviceMTU c ≠ 0 ∧ (onWindows = true → 1280 <= m_deviceMTU c) ∧
  (∀ hop' kill', parseConfig obj (defaultConfig hop' kill') = Some c).
Proof.
  assert (∀ hop' kill', parseConfig obj (defaultConfig hop' kill') = Some c) as Hany by (intros; exact Hc).
  unfold parseConfig in Hc. apply bind_Some in Hc as (key & Hkey & Hc).
  apply bind_Some in Hc as (pub & Hpub & Hc). apply bind_Some in Hc as (port & Hport & Hc).
  destruct (isNull (toQString (value obj "deviceIpv4Address")) && _) eqn:Hdev; [done|].
  destruct (isNull (toQString (value obj "serverIpv4AddrIn")) && _) eqn:Hsrv; [done|].
  apply bind_Some in Hc as (dns & Hdns & Hc). apply bind_Some in Hc as (hop1 & Hhop & Hc).
  apply bind_Some in Hc as (ranges & Hranges & Hc). apply bind_Some in Hc as (excl & Hexcl & Hc).
  apply bind_Some in Hc as (apps & Happs & Hc). injection Hc as <-. cbn.
  apply getString_Some in Hkey as (k1 & Hk1 & ->). apply getString_Some in Hpub as (k2 & Hk2 & ->).
  apply getDouble_Some in Hport as (m & e & Hme & ->).
  split_and!; try done.
  - by eauto 10.
  - by apply parseRanges_Some in Hranges.
  - intros Hin. by apply parseStringList_Some in Hexcl.
  - apply parseMTU_spec.
  - apply parseMTU_spec.
Qed.

(** The WireGuard file.  If the texts [toWgConf] does not check (DNS server,
    junk parameters, extra settings, ranges) are free of line breaks, the file
    is empty for a configuration with a line break in one of the eight checked
    fields or without a device address, and consists otherwise of the lines of
    [wgLines], one setting each: no field smuggles in a setting of its own. *)
Theorem toWgConf_lines (extra : list (string * string)) (c : InterfaceConfig)
    (Hclean : Forall clean (unchecked extra c)) :
  qsplit (Ascii.ascii_of_nat 10) (toWgConf extra c) =
    if refused c then [""] else wgLines extra c ++ [""].
Proof.
  rewrite toWgConf_unlines. destruct (refused c) eqn:Hr; [done|]. by apply qsplit_unlines, wgLines_clean.
Qed.

End Config.

(** ** Examples *)

(** A configuration as a client sends it, with the given DNS server. *)
Definition sampleConfig (dns : QString) : InterfaceConfig :=
  {| m_hopType := SingleHop; m_privateKey := Some "cHJpdmF0ZQ=="; m_deviceIpv4Address := Some "10.8.1.2";
     m_deviceIpv6Address := Some "fd58:baa6:dead::1"; m_serverIpv4Gateway := Some "203.0.113.7";
     m_serverIpv6Gateway := None; m_serverPublicKey := Some "cHVibGlj"; m_serverIpv4AddrIn := Some "203.0.113.7";
     m_serverPskKey := None; m_serverIpv6AddrIn := None; m_dnsServer := dns; m_serverPort := 51820;
     m_deviceMTU := 1376; m_allowedIPAddressRanges := [mkIP (IPv4 0) 0; mkIP (IPv4 167772160) 8];
     m_excludedAddresses := ["203.0.113.7"]; m_vpnDisabledApps := []; m_killSwitchEnabled := true;
     m_junkPacketCount := None; m_junkPacketMinSize := None; m_junkPacketMaxSize := None;
     m_initPacketJunkSize := None; m_responsePacketJunkSize := None; m_initPacketMagicHeader := None;
     m_responsePacketMagicHeader := None; m_underloadPacketMagicHeader := None;
     m_transportPacketMagicHeader := None |}.

Lemma parseConfig_toJson_witness :
  parseConfig (toJson (sampleConfig (Some "1.1.1.1"))) (defaultConfig MultiHopExit true) =
    Some (received (sampleConfig (Some "1.1.1.1"))).
Proof.
  apply (parseConfig_toJson (sampleConfig (Some "1.1.1.1")) MultiHopExit true).
  simpl; repeat (constructor; [repeat split; simpl; lia|]); constructor.
Defined.

Lemma parseConfig_accepts_witness :
  m_deviceMTU (received (sampleConfig (Some "1.1.1.1"))) ≠ 0.
Proof.
  apply (parseConfig_accepts (toJson (sampleConfig (Some "1.1.1.1"))) SingleHop false).
  vm_compute. reflexivity.
Defined.

Lemma toWgConf_lines_witness :
  qsplit (Ascii.ascii_of_nat 10) (toWgConf [("Table", "off")] (sampleConfig (Some "1.1.1.1"))) =
    wgLines [("Table", "off")] (sampleConfig (Some "1.1.1.1")) ++ [""].
Proof.
  apply (toWgConf_lines [("Table", "off")] (sampleConfig (Some "1.1.1.1"))).
  repeat constructor.
Defined.

(** The DNS server is not among the checked fields: a configuration that
    passes the checks, with a line break in its DNS server, adds a line of the
    sender's choice to the interface section. *)
Theorem toWgConf_dns_unchecked :
  let c := sampleConfig (Some ("1.1.1.1" +:+ nl +:+ "PostUp = cmd /c x")) in
  refused c = false ∧
  "PostUp = cmd /c x" ∈ qsplit (Ascii.ascii_of_nat 10) (toWgConf [] c).
Proof. cbn zeta. split; [reflexivity|]. apply (bool_decide_unpack _). vm_compute. exact I. Qed.
