(* ===== verification/Daemon.v ===== *)
(** * The VPN daemon

    Models the class [Daemon] of [src/client/daemon/daemon.cpp] and [daemon.h]:
    activation and deactivation of the WireGuard interface, switching between
    servers, the reference counts of the excluded addresses and the polling for
    handshakes.  The platform's services ([WireguardUtils], [IPUtils],
    [DnsUtils] and the virtual functions of [Daemon]) are the operations of the
    class [Platform] over a world [W]; every call is logged with its result,
    as are the daemon's signals and the starts of its timer.

    [m_connections] is a [QMap], iterated in the order of its keys;
    [m_excludedAddrSet] is a [QHash], whose order of iteration Qt leaves open:
    it is the function [hashOrder]. *)

From Stdlib Require Import ZArith Lia.
From stdpp Require Import prelude strings list gmap countable.
From S2P Require Import Prelude IPAddress QtJson InterfaceConfig.

Local Open Scope Z_scope.

#[global] Instance QHostAddress_countable : Countable QHostAddress.
Proof.
  refine (inj_countable'
    (λ h, match h with NullAddress => inl tt | IPv4 a => inr (inl a) | IPv6 b => inr (inr b) end)
    (λ x, match x with inl _ => NullAddress | inr (inl a) => IPv4 a | inr (inr b) => IPv6 b end) _).
  by intros [].
Defined.

#[global] Instance IPAddress_countable : Countable IPAddress.
Proof.
  refine (inj_countable' (λ ip, (address ip, prefixLength ip)) (λ x, mkIP x.1 x.2) _). by intros [].
Defined.

#[global] Instance HopType_countable : Countable HopType.
Proof.
  refine (inj_countable'
    (λ h, match h with SingleHop => 0%nat | MultiHopEntry => 1%nat | MultiHopExit => 2%nat end)
    (λ n, match n with 0%nat => SingleHop | 1%nat => MultiHopEntry | _ => MultiHopExit end) _).
  by intros [].
Defined.

(** ** The platform *)

Inductive Op := Up | Down | Switch.

Inductive Call :=
| InterfaceExists
| AddInterface (c : InterfaceConfig)
| DeleteInterface
| UpdatePeer (c : InterfaceConfig)
| DeletePeer (c : InterfaceConfig)
| UpdateRoutePrefix (ip : IPAddress)
| DeleteRoutePrefix (ip : IPAddress)
| AddExclusionRoute (ip : IPAddress)
| DeleteExclusionRoute (ip : IPAddress)
| AddInterfaceIPs (c : InterfaceConfig)
| SetMTUAndUp (c : InterfaceConfig)
| UpdateResolvers (ifname : string) (resolvers : list QHostAddress)
| RestoreResolvers
| Run (op : Op) (c : InterfaceConfig)
| PrepareActivation (c : InterfaceConfig).

(** [WireguardUtils::PeerStatus] *)
Record PeerStatus := mkPeer {
  m_pubkey : QString; m_handshake : Z; m_rxBytes : Z; m_txBytes : Z }.

Class Platform (W : Type) := {
  call : Call → W → bool * W;
  getPeerStatus : W → list PeerStatus * W;
  interfaceName : W → string;
  supportIPUtils : bool;
  supportDnsUtils : bool;
  dateText : option Z → string;                    (* QDateTime::toString *)
  hashOrder : gmap IPAddress Z → list IPAddress;   (* the keys of a QHash, as iterated *)
}.

(** Iterating a hash visits each key once. *)
Class PlatformLaws {W} (p : Platform W) := {
  hashOrder_keys (m : gmap IPAddress Z) : hashOrder m ≡ₚ (map_to_list m).*1;
}.

(** ** State *)

(** [ConnectionState]: an invalid [QDateTime] is [None], a valid one its
    milliseconds since the epoch. *)
Record ConnectionState := mkConn { m_date : option Z; m_config : InterfaceConfig }.

Definition newConnection (c : InterfaceConfig) : ConnectionState := mkConn None c.

Record Daemon := mkDaemon {
  m_connections : gmap HopType ConnectionState;
  m_excludedAddrSet : gmap IPAddress Z;
  m_handshakeTimer : bool;                         (* the single-shot timer is running *)
}.

Definition initialDaemon : Daemon := mkDaemon ∅ ∅ false.

Inductive DEvent :=
| EvCall (c : Call) (ok : bool)
| EvTimerStart (msec : Z)
| EvConnected (pubkey : QString)
| EvActivationFailure
| EvDisconnected.

Definition setConnection (h : HopType) (st : ConnectionState) (d : Daemon) : Daemon :=
  mkDaemon (<[h := st]> (m_connections d)) (m_excludedAddrSet d) (m_handshakeTimer d).
Definition setExcluded (m : gmap IPAddress Z) (d : Daemon) : Daemon :=
  mkDaemon (m_connections d) m (m_handshakeTimer d).
Definition clearConnections (d : Daemon) : Daemon :=
  mkDaemon ∅ (m_excludedAddrSet d) (m_handshakeTimer d).
Definition setTimer (b : bool) (d : Daemon) : Daemon :=
  mkDaemon (m_connections d) (m_excludedAddrSet d) b.

(** The map's entries in key order, and [first()]. *)
Definition hops : list HopType := [SingleHop; MultiHopEntry; MultiHopExit].
Definition connectionList (m : gmap HopType ConnectionState) : list ConnectionState :=
  omap (λ h, m !! h) hops.

Definition HANDSHAKE_POLL_MSEC : Z := 250.

Section Daemon.
  Context {W : Type} {platform : Platform W} {env : QtEnv}.

Definition DM (A : Type) : Type := M (Sys Daemon W) DEvent Empty_set A.

Definition getD {A} (f : Daemon → A) : DM A := gets (λ s, f (globals s)).
Definition setD (f : Daemon → Daemon) : DM unit := modify (λ s, mkSys (f (globals s)) (world s)).
Definition doCall (c : Call) : DM bool := ask (call c) (EvCall c).

Definition peerStatus : DM (list PeerStatus) := λ s,
  let '(p, w) := getPeerStatus (world s) in (Ok p, mkSys (globals s) w, []).

(** [if (!m) return false; k] *)
Definition require (m k : DM bool) : DM bool := b ← m; if b : bool then k else mret false.

(** [m_handshakeTimer.start(HANDSHAKE_POLL_MSEC)] *)
Definition startTimer : DM unit := setD (setTimer true);; emit (EvTimerStart HANDSHAKE_POLL_MSEC).

(** ** Excluded addresses *)

Definition addExclusionRoute (prefix : IPAddress) : DM bool :=
  m ← getD m_excludedAddrSet;
  match m !! prefix with
  | Some n => setD (setExcluded (<[prefix := n + 1]> m));; mret true
  | None =>
      ok ← doCall (AddExclusionRoute prefix);
      if ok : bool then setD (setExcluded (<[prefix := 1]> m));; mret true else mret false
  end.

(** [m_excludedAddrSet[prefix]] of an absent key inserts 0, which the removal
    takes out again. *)
Definition delExclusionRoute (prefix : IPAddress) : DM bool :=
  m ← getD m_excludedAddrSet;
  let n := default 0 (m !! prefix) in
  if 1 <? n then setD (setExcluded (<[prefix := n - 1]> m));; mret true
  else setD (setExcluded (delete prefix m));; doCall (DeleteExclusionRoute prefix).

(** [IPAddress(i)] of an element of [m_excludedAddresses]. *)
Definition exclusion (i : string) : IPAddress := fromString parseAddress parseSubnet i.

(** ** Resolvers *)

Definition resolversOf (config : InterfaceConfig) : list QHostAddress :=
  parseAddress (qtext (m_dnsServer config)) ::
  if qeqb (m_dnsServer config) (m_serverIpv4Gateway config)
  then [parseAddress (qtext (m_serverIpv6Gateway config))] else [].

Definition maybeUpdateResolvers (config : InterfaceConfig) : DM bool :=
  if negb supportDnsUtils then mret true
  else
    match m_hopType config with
    | MultiHopExit | SingleHop =>
        name ← query interfaceName;
        require (doCall (UpdateResolvers name (resolversOf config))) (mret true)
    | MultiHopEntry => mret true
    end.

(** ** Switching servers *)

(** The comparison of [supportServerSwitching]. *)
Definition sameTunnel (current config : InterfaceConfig) : bool :=
  qeqb (m_privateKey current) (m_privateKey config) &&
  qeqb (m_deviceIpv4Address current) (m_deviceIpv4Address config) &&
  qeqb (m_deviceIpv6Address current) (m_deviceIpv6Address config) &&
  qeqb (m_serverIpv4Gateway current) (m_serverIpv4Gateway config) &&
  qeqb (m_serverIpv6Gateway current) (m_serverIpv6Gateway config).

Definition supportServerSwitching (config : InterfaceConfig) : DM bool :=
  m ← getD m_connections;
  mret match m !! m_hopType config with
       | None => false
       | Some st => sameTunnel (m_config st) config
       end.

(** The route loop of [switchServer] stops at the first failure. *)
Fixpoint updateRoutes (l : list IPAddress) : DM bool :=
  match l with
  | [] => mret true
  | ip :: l => require (doCall (UpdateRoutePrefix ip)) (updateRoutes l)
  end.

(** [m_connections.value(h)] of an absent key is a default-constructed state. *)
Definition lastConfigOf (m : gmap HopType ConnectionState) (config : InterfaceConfig) : InterfaceConfig :=
  match m !! m_hopType config with
  | Some st => m_config st
  | None => defaultConfig (m_hopType config) false
  end.

Definition switchServer (config : InterfaceConfig) : DM bool :=
  m ← getD m_connections;
  let lastConfig := lastConfigOf m config in
  for_each (m_excludedAddresses config) (λ i, addExclusionRoute (exclusion i);; mret tt);;
  require (doCall (UpdatePeer config))
   (updateRoutes (m_allowedIPAddressRanges config);;
    for_each (m_excludedAddresses lastConfig) (λ i, delExclusionRoute (fromHost (parseAddress i));; mret tt);;
    for_each (m_allowedIPAddressRanges lastConfig) (λ ip,
      when (negb (bool_decide (ip ∈ m_allowedIPAddressRanges config)))
        (doCall (DeleteRoutePrefix ip);; mret tt));;
    require
     (if negb (qeqb (m_serverPublicKey config) (m_serverPublicKey lastConfig))
      then doCall (DeletePeer lastConfig) else mret true)
     (setD (setConnection (m_hopType config) (newConnection config));; mret true)).

(** ** Deactivation *)

Definition restoreResolvers : DM bool :=
  if supportDnsUtils then doCall RestoreResolvers else mret true.

Definition deactivate (emitSignals : bool) : DM bool :=
  m ← getD m_connections;
  require (match connectionList m with
           | state :: _ => doCall (Run Down (m_config state))
           | [] => mret true
           end)
   (when emitSignals (emit EvDisconnected);;
    require restoreResolvers
    (require (doCall InterfaceExists)
     (for_each (connectionList m) (λ state,
        for_each (m_allowedIPAddressRanges (m_config state))
          (λ ip, doCall (DeleteRoutePrefix ip);; mret tt);;
        doCall (DeletePeer (m_config state));; mret tt);;
      excluded ← getD m_excludedAddrSet;
      for_each (hashOrder excluded) (λ ip, doCall (DeleteExclusionRoute ip);; mret tt);;
      setD (setExcluded ∅);;
      require (doCall DeleteInterface) (setD clearConnections;; mret true)))).

(** ** Activation *)

(** The scope guard of [activate]: the failure signal unless dismissed. *)
Definition failureGuard (m : DM bool) : DM bool :=
  b ← m; when (negb b) (emit EvActivationFailure);; mret b.

(** The last lines of both successful paths. *)
Definition finishActivation (config : InterfaceConfig) (op : Op) : DM bool :=
  require (doCall (Run op config))
   (setD (setConnection (m_hopType config) (newConnection config));; startTimer;; mret true).

(** The first scenario: the VPN is off. *)
Definition activateFresh (config : InterfaceConfig) : DM bool :=
  doCall (PrepareActivation config);;
  require (ex ← doCall InterfaceExists; if ex : bool then mret true else doCall (AddInterface config))
   (for_each (m_excludedAddresses config) (λ i, addExclusionRoute (exclusion i);; mret tt);;
    require (doCall (UpdatePeer config))
    (require (maybeUpdateResolvers config)
     (require (if supportIPUtils
               then require (doCall (AddInterfaceIPs config)) (doCall (SetMTUAndUp config))
               else mret true)
      (require (updateRoutes (m_allowedIPAddressRanges config))
       (finishActivation config Up))))).

(** The third scenario: the VPN is on and the server is switched. *)
Definition activateSwitch (config : InterfaceConfig) : DM bool :=
  require (switchServer config)
   (require restoreResolvers
    (require (maybeUpdateResolvers config)
     (finishActivation config Switch))).

(** [fuel] bounds the recursion of the second scenario. *)
Fixpoint activate (fuel : nat) (config : InterfaceConfig) : DM bool :=
  match fuel with
  | O => out_of_fuel
  | S fuel =>
      failureGuard
       (m ← getD m_connections;
        match m !! m_hopType config with
        | Some _ =>
            sw ← supportServerSwitching config;
            if sw : bool then activateSwitch config
            else require (deactivate false) (activate fuel config)
        | None => activateFresh config
        end)
  end.

(** ** Handshakes *)

(** The inner loop of [checkHandshake] for one connection. *)
Fixpoint awaitHandshake (config : InterfaceConfig) (peers : list PeerStatus) (date : option Z) : DM (option Z) :=
  match peers with
  | [] => mret date
  | status :: peers =>
      if negb (qeqb (m_serverPublicKey config) (m_pubkey status)) then awaitHandshake config peers date
      else if m_handshake status =? 0 then awaitHandshake config peers date
      else emit (EvConnected (m_pubkey status));; awaitHandshake config peers (Some (m_handshake status))
  end.

(** The outer loop, over the connections present; the number still pending. *)
Fixpoint checkConnections (peers : list PeerStatus) (l : list HopType) : DM nat :=
  match l with
  | [] => mret 0%nat
  | h :: l =>
      m ← getD m_connections;
      match m !! h with
      | None => checkConnections peers l
      | Some connection =>
          match m_date connection with
          | Some _ => checkConnections peers l
          | None =>
              date ← awaitHandshake (m_config connection) peers None;
              setD (setConnection h (mkConn date (m_config connection)));;
              n ← checkConnections peers l;
              mret (match date with None => S n | Some _ => n end)
          end
      end
  end.

Definition checkHandshake : DM unit :=
  peers ← peerStatus;
  n ← checkConnections peers hops;
  when (0 <? n)%nat startTimer.

(** The timer is single-shot: it has stopped when its slot runs. *)
Definition timeout : DM unit := setD (setTimer false);; checkHandshake.

(** ** Status *)

Fixpoint statusOf (connection : ConnectionState) (peers : list PeerStatus) : QJsonObject :=
  match peers with
  | [] => inserts [] [("connected", JBool false)]
  | status :: peers =>
      if negb (qeqb (m_pubkey status) (m_serverPublicKey (m_config connection))) then statusOf connection peers
      else inserts []
        [("connected", JBool true);
         ("serverIpv4Gateway", JText (m_serverIpv4Gateway (m_config connection)));
         ("deviceIpv4Address", JText (m_deviceIpv4Address (m_config connection)));
         ("date", JString (dateText (m_date connection)));
         ("txBytes", JInt (m_txBytes status));
         ("rxBytes", JInt (m_rxBytes status))]
  end.

Definition getStatus : DM QJsonObject :=
  ex ← doCall InterfaceExists;
  m ← getD m_connections;
  match connectionList m with
  | connection :: _ =>
      if negb ex then mret (inserts [] [("connected", JBool false)])
      else
        peers ← peerStatus;
        mret (statusOf connection peers)
  | [] => mret (inserts [] [("connected", JBool false)])
  end.

(** ** Vocabulary of the specifications *)

(** The run returns, whatever the state. *)
Definition total {A} (m : DM A) : Prop := ∀ s, ∃ a s' t, m s = (Ok a, s', t).

(** The platform calls of a log, in order. *)
Definition calls_of (t : list DEvent) : list Call :=
  omap (λ e, match e with EvCall c _ => Some c | _ => None end) t.

Definition is_call (e : DEvent) : Prop := match e with EvCall _ _ => True | _ => False end.

(** The clean-up calls for one connection. *)
Definition cleanup (st : ConnectionState) : list Call :=
  map DeleteRoutePrefix (m_allowedIPAddressRanges (m_config st)) ++ [DeletePeer (m_config st)].

(** The calls of a complete deactivation; [ks] are the excluded addresses. *)
Definition teardown (d : Daemon) (ks : list IPAddress) : list Call :=
  match connectionList (m_connections d) with st :: _ => [Run Down (m_config st)] | [] => [] end ++
  (if supportDnsUtils then [RestoreResolvers] else []) ++ [InterfaceExists] ++
  flat_map cleanup (connectionList (m_connections d)) ++ map DeleteExclusionRoute ks ++ [DeleteInterface].

(** The run only makes the given calls and leaves the daemon's state alone. *)
Definition quiet {A} (m : DM A) (cs : list Call) : Prop :=
  ∀ s, ∃ a w t, m s = (Ok a, mkSys (globals s) w, t) ∧ Forall is_call t ∧ calls_of t = cs.

(** The reference count of an address. *)
Definition count (m : gmap IPAddress Z) (p : IPAddress) : Z := default 0 (m !! p).

Definition counts_positive (m : gmap IPAddress Z) : Prop := map_Forall (λ _ n, 1 <= n) m.

(** How often a connection excludes an address, and how often all do. *)
Definition occurrences (l : list IPAddress) (p : IPAddress) : Z :=
  Z.of_nat (length (filter (λ q, q = p) l)).
Definition exclusions (c : InterfaceConfig) : list IPAddress := map exclusion (m_excludedAddresses c).
Definition wanted (m : gmap HopType ConnectionState) (p : IPAddress) : Z :=
  foldr Z.add 0 (map (λ h, match m !! h with
                           | Some st => occurrences (exclusions (m_config st)) p
                           | None => 0
                           end) hops).

(** The reference counts are exactly what the active connections ask for. *)
Definition balanced (d : Daemon) : Prop :=
  counts_positive (m_excludedAddrSet d) ∧
  ∀ p, count (m_excludedAddrSet d) p = wanted (m_connections d) p.

(** Every excluded address is a plain address, not a network: reading it as an
    [IPAddress] and as a [QHostAddress] gives the same route. *)
Definition plain (c : InterfaceConfig) : Prop :=
  Forall (λ i, exclusion i = fromHost (parseAddress i)) (m_excludedAddresses c).

(** Adding an exclusion route never fails. *)
Definition exclusions_succeed : Prop := ∀ p w, (call (AddExclusionRoute p) w).1 = true.

(** The peers that report a handshake for a configuration. *)
Definition shaken (peers : list PeerStatus) (c : InterfaceConfig) : list PeerStatus :=
  List.filter (λ st, qeqb (m_serverPublicKey c) (m_pubkey st) && negb (m_handshake st =? 0)) peers.

(** The time of the last of them, [date] if there is none. *)
Definition lastHandshake (l : list PeerStatus) (date : option Z) : option Z :=
  foldl (λ _ st, Some (m_handshake st)) date l.

(** A connection after a poll, and the signals the poll sends for it. *)
Definition polled (peers : list PeerStatus) (cn : ConnectionState) : ConnectionState :=
  match m_date cn with
  | Some _ => cn
  | None => mkConn (lastHandshake (shaken peers (m_config cn)) None) (m_config cn)
  end.
Definition announced (peers : list PeerStatus) (cn : ConnectionState) : list DEvent :=
  match m_date cn with
  | Some _ => []
  | None => map (λ st, EvConnected (m_pubkey st)) (shaken peers (m_config cn))
  end.

Definition waiting (cn : ConnectionState) : bool :=
  match m_date cn with None => true | Some _ => false end.

(** The connections of a list of hops. *)
Definition entries (m : gmap HopType ConnectionState) (l : list HopType) : list ConnectionState :=
  omap (λ h, m !! h) l.

(** ** Runs that always return *)

Lemma total_ret {A} (a : A) : total (mret a).
Proof. intros s. by eexists _, _, _. Qed.
Lemma total_gets {A} (f : Sys Daemon W → A) : total (gets f).
Proof. intros s. by eexists _, _, _. Qed.
Lemma total_getD {A} (f : Daemon → A) : total (getD f).
Proof. intros s. by eexists _, _, _. Qed.
Lemma total_setD f : total (setD f).
Proof. intros s. by eexists _, _, _. Qed.
Lemma total_emit e : total (emit e).
Proof. intros s. by eexists _, _, _. Qed.
Lemma total_doCall c : total (doCall c).
Proof. intros s. unfold doCall, ask. destruct (call c (world s)). by eexists _, _, _. Qed.
Lemma total_query {A} (f : W → A) : total (query f).
Proof. intros s. by eexists _, _, _. Qed.
Lemma total_peerStatus : total peerStatus.
Proof. intros s. unfold peerStatus. destruct (getPeerStatus (world s)). by eexists _, _, _. Qed.
Lemma total_bind {A B} (m : DM A) (k : A → DM B) : total m → (∀ a, total (k a)) → total (m ≫= k).
Proof.
  intros Hm Hk s. unfold mbind, M_bind. destruct (Hm s) as (a & s1 & t1 & ->).
  destruct (Hk a s1) as (b & s2 & t2 & ->). by eexists _, _, _.
Qed.
Lemma total_if {A} (b : bool) (m1 m2 : DM A) : total m1 → total m2 → total (if b then m1 else m2).
Proof. by destruct b. Qed.
Lemma total_when b m : total m → total (when b m).
Proof. intros. unfold when. destruct b; [done|apply total_ret]. Qed.
Lemma total_for_each {A} (l : list A) f : (∀ x, total (f x)) → total (for_each l f).
Proof. intros Hf. induction l; simpl; [apply total_ret|]. by apply total_bind. Qed.

Lemma total_require m k : total m → total k → total (require m k).
Proof. intros. apply total_bind; [done|]. intros []; [done|apply total_ret]. Qed.

Ltac total_step :=
  first [ assumption | apply total_ret | apply total_gets | apply total_getD | apply total_setD | apply total_emit
        | apply total_doCall | apply total_query | apply total_peerStatus
        | apply total_require | apply total_bind; [|intros ?] | apply total_if | apply total_when
        | apply total_for_each; intros ? | case_match ].
Ltac solve_total := repeat total_step.

Lemma total_addExclusionRoute ip : total (addExclusionRoute ip).
Proof. unfold addExclusionRoute. solve_total. Qed.
Lemma total_delExclusionRoute ip : total (delExclusionRoute ip).
Proof. unfold delExclusionRoute. solve_total. Qed.
Lemma total_updateRoutes l : total (updateRoutes l).
Proof. induction l; simpl; solve_total. Qed.
Lemma total_maybeUpdateResolvers c : total (maybeUpdateResolvers c).
Proof. unfold maybeUpdateResolvers. solve_total. Qed.
Lemma total_restoreResolvers : total restoreResolvers.
Proof. unfold restoreResolvers. solve_total. Qed.
Lemma total_deactivate e : total (deactivate e).
Proof. unfold deactivate. pose proof total_restoreResolvers. solve_total. Qed.
Lemma total_finishActivation c op : total (finishActivation c op).
Proof. unfold finishActivation, startTimer. solve_total. Qed.
Lemma total_activateFresh c : total (activateFresh c).
Proof.
  pose proof (total_finishActivation c Up). pose proof (total_maybeUpdateResolvers c).
  pose proof (total_updateRoutes (m_allowedIPAddressRanges c)). pose proof total_addExclusionRoute as Hadd.
  unfold activateFresh. repeat first [apply Hadd | total_step].
Qed.
Lemma total_switchServer c : total (switchServer c).
Proof.
  pose proof (total_updateRoutes (m_allowedIPAddressRanges c)).
  pose proof total_addExclusionRoute as Hadd. pose proof total_delExclusionRoute as Hdel.
  unfold switchServer. repeat first [apply Hadd | apply Hdel | total_step].
Qed.
Lemma total_activateSwitch c : total (activateSwitch c).
Proof.
  pose proof (total_finishActivation c Switch). pose proof (total_maybeUpdateResolvers c).
  pose proof total_restoreResolvers. pose proof (total_switchServer c). unfold activateSwitch. solve_total.
Qed.

(** *** Taking a successful run apart *)

Lemma bind_returns {A B} (m : DM A) (k : A → DM B) s b s' t :
  (m ≫= k) s = (Ok b, s', t) →
  ∃ a s1 t1 t2, m s = (Ok a, s1, t1) ∧ k a s1 = (Ok b, s', t2) ∧ t = t1 ++ t2.
Proof.
  unfold mbind, M_bind. destruct (m s) as [[[a|[]|] s1] t1]; [|done].
  destruct (k a s1) as [[r s2] t2] eqn:Hk. intros [= -> -> <-]. eauto 10.
Qed.

Lemma require_Ok m k s b s' t :
  require m k s = (Ok b, s', t) →
  (∃ s1 t1 t2, m s = (Ok true, s1, t1) ∧ k s1 = (Ok b, s', t2) ∧ t = t1 ++ t2) ∨
  (b = false ∧ m s = (Ok false, s', t)).
Proof.
  intros ([] & s1 & t1 & t2 & Hm & Hk & ->)%bind_returns; [left; eauto 10|right].
  injection Hk as <- <- <-. by rewrite app_nil_r.
Qed.

Lemma require_true m k s s' t :
  require m k s = (Ok true, s', t) →
  ∃ s1 t1 t2, m s = (Ok true, s1, t1) ∧ k s1 = (Ok true, s', t2) ∧ t = t1 ++ t2.
Proof. intros [H|[? _]]%require_Ok; done. Qed.

Lemma doCall_Ok c s b s' t :
  doCall c s = (Ok b, s', t) → globals s' = globals s ∧ t = [EvCall c b].
Proof. unfold doCall, ask. destruct (call c (world s)) as [b' w]. by intros [= <- <- <-]. Qed.

Lemma calls_of_app t1 t2 : calls_of (t1 ++ t2) = calls_of t1 ++ calls_of t2.
Proof. apply omap_app. Qed.

Lemma quiet_ret {A} (a : A) : quiet (mret a) [].
Proof. intros [d w]. exists a, w, []. by repeat constructor. Qed.
Lemma quiet_doCall c : quiet (doCall c) [c].
Proof.
  intros [d w]. unfold doCall, ask. simpl. destruct (call c w) as [b w'].
  exists b, w', [EvCall c b]. by repeat constructor.
Qed.
Lemma quiet_bind {A B} (m : DM A) (k : A → DM B) c1 c2 :
  quiet m c1 → (∀ a, quiet (k a) c2) → quiet (m ≫= k) (c1 ++ c2).
Proof.
  intros Hm Hk s. destruct (Hm s) as (a & w1 & t1 & Hm1 & F1 & C1).
  destruct (Hk a (mkSys (globals s) w1)) as (b & w2 & t2 & Hk2 & F2 & C2).
  exists b, w2, (t1 ++ t2). unfold mbind, M_bind. rewrite Hm1, Hk2. simpl.
  rewrite calls_of_app, C1, C2. split_and!; [done|by apply Forall_app|done].
Qed.
Lemma quiet_for_each {A} (l : list A) f g :
  (∀ x, quiet (f x) (g x)) → quiet (for_each l f) (flat_map g l).
Proof.
  intros Hf. induction l as [|x l IH]; [apply quiet_ret|]. cbn [for_each flat_map].
  apply quiet_bind; [apply Hf|done].
Qed.

Lemma quiet_call_unit c : quiet (doCall c;; mret tt) [c].
Proof. apply (quiet_bind _ _ [c] []); [apply quiet_doCall|intros; apply quiet_ret]. Qed.

Lemma quiet_calls {A} (l : list A) (c : A → Call) :
  quiet (for_each l (λ x, doCall (c x);; mret tt)) (map c l).
Proof.
  assert (map c l = flat_map (λ x, [c x]) l) as -> by (induction l; simpl; congruence).
  apply quiet_for_each. intros. apply quiet_call_unit.
Qed.

(** The clean-up of one connection. *)
Lemma quiet_cleanup st :
  quiet (for_each (m_allowedIPAddressRanges (m_config st)) (λ ip, doCall (DeleteRoutePrefix ip);; mret tt);;
         doCall (DeletePeer (m_config st));; mret tt) (cleanup st).
Proof. apply quiet_bind; [apply quiet_calls|]. intros. apply quiet_call_unit. Qed.

(** *** Deactivation *)

(** What [deactivate] guarantees of its outcome [b], the states before and
    after and the log. *)
Definition deactivated (e : bool) (d : Daemon) (b : bool) (d' : Daemon) (t : list DEvent) : Prop :=
  (if b then d' = mkDaemon ∅ ∅ (m_handshakeTimer d) ∧
             ∃ ks, ks ≡ₚ (map_to_list (m_excludedAddrSet d)).*1 ∧ calls_of t = teardown d ks
   else d' = d ∨ (d' = setExcluded ∅ d ∧ ∃ t', t = t' ++ [EvCall DeleteInterface false])) ∧
  Forall (λ ev, is_call ev ∨ (e = true ∧ ev = EvDisconnected)) t.

Lemma quiet_Ok {A} (m : DM A) cs s a s' t :
  quiet m cs → m s = (Ok a, s', t) → globals s' = globals s ∧ Forall is_call t ∧ calls_of t = cs.
Proof. intros Hq H. destruct (Hq s) as (a' & w & t' & H' & ? & ?). rewrite H in H'. by injection H' as <- -> <-. Qed.

Lemma quiet_restoreResolvers : quiet restoreResolvers (if supportDnsUtils then [RestoreResolvers] else []).
Proof. unfold restoreResolvers. destruct supportDnsUtils; [apply quiet_doCall|apply quiet_ret]. Qed.

Lemma quiet_runDown d :
  quiet (match connectionList (m_connections d) with
         | state :: _ => doCall (Run Down (m_config state)) | [] => mret true end)
    (match connectionList (m_connections d) with st :: _ => [Run Down (m_config st)] | [] => [] end).
Proof. destruct (connectionList _); [apply quiet_ret|apply quiet_doCall]. Qed.

(** The part of [deactivate] after its last early return. *)
Lemma deactivate_cleanup {laws : PlatformLaws platform} d w b s' t :
  (for_each (connectionList (m_connections d)) (λ state,
     for_each (m_allowedIPAddressRanges (m_config state)) (λ ip, doCall (DeleteRoutePrefix ip);; mret tt);;
     doCall (DeletePeer (m_config state));; mret tt);;
   excluded ← getD m_excludedAddrSet;
   for_each (hashOrder excluded) (λ ip, doCall (DeleteExclusionRoute ip);; mret tt);;
   setD (setExcluded ∅);;
   require (doCall DeleteInterface) (setD clearConnections;; mret true)) (mkSys d w) = (Ok b, s', t) →
  Forall is_call t ∧ (∃ t', t = t' ++ [EvCall DeleteInterface b]) ∧
  globals s' = (if b then mkDaemon ∅ ∅ (m_handshakeTimer d) else setExcluded ∅ d) ∧
  ∃ ks, ks ≡ₚ (map_to_list (m_excludedAddrSet d)).*1 ∧
    calls_of t = flat_map cleanup (connectionList (m_connections d)) ++ map DeleteExclusionRoute ks ++ [DeleteInterface].
Proof.
  intros (u1 & s1 & t1 & t1' & H1 & H & ->)%bind_returns.
  apply (quiet_Ok _ _ _ _ _ _ (quiet_for_each _ _ _ quiet_cleanup)) in H1 as (G1 & F1 & C1).
  apply bind_returns in H as (ex & s2 & t2 & t2' & [= <- <- <-] & H & ->). rewrite G1 in H. simpl in H.
  apply bind_returns in H as (u3 & s3 & t3 & t3' & H3 & H & ->).
  apply (quiet_Ok _ _ _ _ _ _ (quiet_calls _ _)) in H3 as (G3 & F3 & C3).
  apply bind_returns in H as ([] & s4 & t4 & t4' & [= <- <-] & H & ->).
  assert (globals s3 = d) as Gd by (by rewrite G3, G1). clear G1 G3.
  apply require_Ok in H as [(s5 & t5 & t6 & H5 & H & ->)|[-> H5]];
    apply doCall_Ok in H5 as [G5 ->]; simpl in G5; rewrite Gd in G5.
  - injection H as <- <- <-. rewrite app_nil_r. split_and!.
    + by repeat (apply Forall_app; split); repeat constructor.
    + exists (t1 ++ [] ++ t3 ++ []). simpl. by rewrite app_nil_r, <- app_assoc.
    + simpl. by rewrite G5.
    + exists (hashOrder (m_excludedAddrSet d)). split; [apply hashOrder_keys|].
      by rewrite !calls_of_app, C1, C3.
  - split_and!.
    + by repeat (apply Forall_app; split); repeat constructor.
    + exists (t1 ++ [] ++ t3 ++ []). simpl. by rewrite app_nil_r, <- app_assoc.
    + by rewrite G5.
    + exists (hashOrder (m_excludedAddrSet d)). split; [apply hashOrder_keys|].
      by rewrite !calls_of_app, C1, C3.
Qed.

Lemma deactivate_run {laws : PlatformLaws platform} e s b s' t :
  deactivate e s = (Ok b, s', t) → deactivated e (globals s) b (globals s') t.
Proof.
  destruct s as [d w]. unfold deactivate. intros (m & s0 & t0 & t1 & [= <- <- <-] & H & ->)%bind_returns. simpl in *.
  assert (∀ l : list DEvent, Forall is_call l → Forall (λ ev, is_call ev ∨ (e = true ∧ ev = EvDisconnected)) l) as Hcall
    by (intros l Hl; induction Hl; constructor; auto).
  apply require_Ok in H as [(s1 & t2 & t3 & H1 & H & ->)|[-> H1]];
    apply (quiet_Ok _ _ _ _ _ _ (quiet_runDown d)) in H1 as (G1 & F1 & C1); simpl in G1; last by (split; [by left|by apply Hcall]).
  apply bind_returns in H as (u & s2 & t4 & t5 & H2 & H & ->).
  assert (globals s2 = d ∧ Forall (λ ev, is_call ev ∨ (e = true ∧ ev = EvDisconnected)) t4 ∧ calls_of t4 = [])
    as (G2 & F2 & C2).
  { destruct e; injection H2 as <- <- <-; (split_and!; [done| |done]);
      [constructor; [by right|constructor]|constructor]. }
  apply require_Ok in H as [(s3 & t6 & t7 & H3 & H & ->)|[-> H3]];
    apply (quiet_Ok _ _ _ _ _ _ quiet_restoreResolvers) in H3 as (G3 & F3 & C3); rewrite G2 in G3;
    last by (split; [by left|]; repeat (apply Forall_app; split); auto).
  apply require_Ok in H as [(s4 & t8 & t9 & H4 & H & ->)|[-> H4]]; apply doCall_Ok in H4 as [G4 ->]; rewrite G3 in G4;
    last by (split; [by left|]; repeat (apply Forall_app; split); auto; repeat constructor; by left).
  destruct s4 as [d4 w4]. simpl in G4; subst d4.
  apply deactivate_cleanup in H as (F5 & (t' & ->) & G5 & ks & Hks & C5). split.
  - destruct b.
    + split; [done|]. exists ks. split; [done|]. unfold teardown. by rewrite !calls_of_app, C1, C2, C3, <- C5, calls_of_app.
    + right. split; [done|]. exists (t2 ++ t4 ++ t6 ++ [EvCall InterfaceExists true] ++ t'). by rewrite <- !app_assoc.
  - repeat (apply Forall_app; split); auto; repeat constructor; try by left.
    apply Hcall. by apply Forall_app in F5 as [? _].
Qed.

(** *** Activation *)

Lemma emits_doCall (P : DEvent → Prop) c : (∀ b, P (EvCall c b)) → emits P (doCall c).
Proof. apply emits_ask. Qed.
Lemma emits_peerStatus P : emits P peerStatus.
Proof. intros s. unfold log_of, peerStatus. destruct (getPeerStatus (world s)). constructor. Qed.
Lemma emits_require P m k : emits P m → emits P k → emits P (require m k).
Proof. intros. apply emits_bind; [done|]. intros []; [done|apply emits_ret]. Qed.

Ltac emits_step :=
  first [ assumption | apply emits_ret | apply emits_gets | apply emits_modify | apply emits_peerStatus
        | apply emits_emit; done | apply emits_doCall; done | apply emits_query
        | apply emits_require | apply emits_bind; [|intros ?] | apply emits_if | apply emits_when
        | apply emits_for_each; intros ? | case_match ].

Abbreviation no_failure := (λ e, e ≠ EvActivationFailure).

Lemma emits_addExclusionRoute ip : emits no_failure (addExclusionRoute ip).
Proof. unfold addExclusionRoute, getD, setD. repeat emits_step. Qed.
Lemma emits_delExclusionRoute ip : emits no_failure (delExclusionRoute ip).
Proof. unfold delExclusionRoute, getD, setD. repeat emits_step. Qed.
Lemma emits_updateRoutes l : emits no_failure (updateRoutes l).
Proof. induction l; simpl; repeat emits_step. Qed.
Lemma emits_maybeUpdateResolvers c : emits no_failure (maybeUpdateResolvers c).
Proof. unfold maybeUpdateResolvers. repeat emits_step. Qed.
Lemma emits_restoreResolvers : emits no_failure restoreResolvers.
Proof. unfold restoreResolvers. repeat emits_step. Qed.
Lemma emits_finishActivation c op : emits no_failure (finishActivation c op).
Proof. unfold finishActivation, startTimer, setD. repeat emits_step. Qed.
Lemma emits_deactivate e : emits no_failure (deactivate e).
Proof. pose proof emits_restoreResolvers. unfold deactivate, getD, setD. repeat emits_step. Qed.
Lemma emits_switchServer c : emits no_failure (switchServer c).
Proof.
  pose proof (emits_updateRoutes (m_allowedIPAddressRanges c)).
  pose proof emits_addExclusionRoute as Hadd. pose proof emits_delExclusionRoute as Hdel.
  unfold switchServer, getD, setD. repeat first [apply Hadd | apply Hdel | emits_step].
Qed.
Lemma emits_activateSwitch c : emits no_failure (activateSwitch c).
Proof.
  pose proof (emits_finishActivation c Switch). pose proof (emits_maybeUpdateResolvers c).
  pose proof emits_restoreResolvers. pose proof (emits_switchServer c). unfold activateSwitch. repeat emits_step.
Qed.
Lemma emits_activateFresh c : emits no_failure (activateFresh c).
Proof.
  pose proof (emits_finishActivation c Up). pose proof (emits_maybeUpdateResolvers c).
  pose proof (emits_updateRoutes (m_allowedIPAddressRanges c)). pose proof emits_addExclusionRoute as Hadd.
  unfold activateFresh. repeat first [apply Hadd | emits_step].
Qed.

Lemma emits_Ok {A} P (m : DM A) s a s' t : emits P m → m s = (Ok a, s', t) → Forall P t.
Proof. intros He H. specialize (He s). unfold log_of in He. by rewrite H in He. Qed.

(** A successful activation has recorded its connection, awaiting a handshake,
    and started the timer. *)
Definition recorded (c : InterfaceConfig) (d : Daemon) : Prop :=
  m_connections d !! m_hopType c = Some (newConnection c) ∧ m_handshakeTimer d = true.

Lemma finishActivation_true c op s s' t :
  finishActivation c op s = (Ok true, s', t) → recorded c (globals s').
Proof.
  intros (s1 & t1 & t2 & _ & H & ->)%require_true. injection H as <- _.
  split; [apply lookup_insert_eq|done].
Qed.

Lemma activateFresh_true c s s' t : activateFresh c s = (Ok true, s', t) → recorded c (globals s').
Proof.
  intros (u0 & s0 & t0 & t0' & _ & H & _)%bind_returns.
  apply require_true in H as (s1 & t1 & t1' & _ & H & _). apply bind_returns in H as (u2 & s2 & t2 & t2' & _ & H & _).
  do 4 (apply require_true in H as (? & ? & ? & _ & H & _)). by apply finishActivation_true in H.
Qed.

Lemma activateSwitch_true c s s' t : activateSwitch c s = (Ok true, s', t) → recorded c (globals s').
Proof.
  intros H. do 3 (apply require_true in H as (? & ? & ? & _ & H & _)). by apply finishActivation_true in H.
Qed.

(** The outcome of an activation step, before the scope guard has run. *)
Definition attempted (c : InterfaceConfig) (r : res Empty_set bool * Sys Daemon W * list DEvent) : Prop :=
  ∃ b s' t, r = (Ok b, s', t) ∧
    (b = true → EvActivationFailure ∉ t ∧ recorded c (globals s')).

Lemma attempted_total c (m : DM bool) s :
  total m → emits no_failure m → (∀ s' t, m s = (Ok true, s', t) → recorded c (globals s')) →
  attempted c (m s).
Proof.
  intros Ht He Hrec. destruct (Ht s) as (b & s' & t & H). exists b, s', t. split; [done|]. intros ->.
  split; [|by eapply Hrec]. pose proof (emits_Ok _ _ _ _ _ _ He H) as Hf. rewrite Forall_forall in Hf.
  intros Hin%list_elem_of_In. by apply (Hf _ Hin).
Qed.

Lemma guard_attempted c (m : DM bool) s :
  attempted c (m s) →
  ∃ b s' t, failureGuard m s = (Ok b, s', t) ∧
    if b then (EvActivationFailure ∉ t) ∧ recorded c (globals s')
    else ∃ t', t = t' ++ [EvActivationFailure].
Proof.
  intros (b & s' & t & H & Hrec). exists b, s', (if b then t else t ++ [EvActivationFailure]).
  unfold failureGuard, mbind, M_bind. rewrite H. destruct b; simpl; [rewrite app_nil_r; auto|eauto].
Qed.

(** Without a connection of its kind the activation does not recurse. *)
Lemma activate_off fuel c s :
  m_connections (globals s) !! m_hopType c = None →
  activate (S fuel) c s = failureGuard (activateFresh c) s.
Proof.
  intros Hnone. cbn [activate]. unfold failureGuard, mbind, M_bind, getD, gets. simpl. rewrite Hnone.
  by destruct (activateFresh c s) as [[[]] ?].
Qed.

(** With one, it switches or starts again after deactivating. *)
Lemma activate_on fuel c s st :
  m_connections (globals s) !! m_hopType c = Some st →
  activate (S fuel) c s =
    failureGuard (if sameTunnel (m_config st) c then activateSwitch c
                  else require (deactivate false) (activate fuel c)) s.
Proof.
  intros Hsome. cbn [activate]. generalize (require (deactivate false) (activate fuel c)); intros m.
  unfold failureGuard, supportServerSwitching, mbind, M_bind, getD, gets. simpl. rewrite Hsome. simpl. rewrite Hsome.
  set (r := (if sameTunnel (m_config st) c then activateSwitch c else m) s).
  by destruct r as [[[]] ?].
Qed.

Lemma fresh_attempted c s : attempted c (activateFresh c s).
Proof.
  apply attempted_total; [apply total_activateFresh|apply emits_activateFresh|].
  intros s' t. apply activateFresh_true.
Qed.

Lemma activate_outcome {laws : PlatformLaws platform} fuel c s :
  (2 ≤ fuel)%nat → ∃ b s' t, activate fuel c s = (Ok b, s', t) ∧
    if b then (EvActivationFailure ∉ t) ∧ recorded c (globals s')
    else ∃ t', t = t' ++ [EvActivationFailure].
Proof.
  intros Hf. destruct fuel as [|[|fuel]]; [lia..|].
  destruct (m_connections (globals s) !! m_hopType c) as [st|] eqn:Hconn; last first.
  { rewrite activate_off by done. apply guard_attempted, fresh_attempted. }
  rewrite (activate_on _ _ _ st) by done. apply guard_attempted. destruct (sameTunnel (m_config st) c).
  - apply attempted_total; [apply total_activateSwitch|apply emits_activateSwitch|].
    intros s' t. apply activateSwitch_true.
  - unfold require, mbind, M_bind. destruct (total_deactivate false s) as (b & s1 & t1 & H). rewrite H.
    destruct b; cbv beta iota; last by (eexists false, s1, _).
    pose proof (emits_Ok _ _ _ _ _ _ (emits_deactivate false) H) as Hnf.
    apply deactivate_run in H as [[Hd _] _].
    rewrite activate_off by (by rewrite Hd).
    destruct (guard_attempted c (activateFresh c) s1 (fresh_attempted c s1)) as (b & s2 & t2 & -> & Hb).
    exists b, s2, (t1 ++ t2). split; [done|]. intros ->. destruct Hb as [Hno Hrec]. split; [|done].
    rewrite elem_of_app. intros [Hin%list_elem_of_In|]; [|done]. rewrite Forall_forall in Hnf. by apply (Hnf _ Hin).
Qed.

(** *** Reference counts *)

Lemma keeps_doCall (I : Daemon → Prop) c : keeps (λ s, I (globals s)) (doCall c).
Proof. apply keeps_ask. Qed.
Lemma keeps_getD {A} (I : Daemon → Prop) (f : Daemon → A) : keeps (λ s, I (globals s)) (getD f).
Proof. by intros s. Qed.
Lemma keeps_require I m k : keeps I m → keeps I k → keeps I (require m k).
Proof. intros. apply keeps_bind; [done|]. intros []; [done|apply keeps_ret]. Qed.

Ltac keeps_step :=
  first [ assumption | apply keeps_ret | apply keeps_gets | apply keeps_getD | apply keeps_emit
        | apply keeps_doCall | apply keeps_query
        | apply keeps_require | apply keeps_bind; [|intros ?] | apply keeps_if | apply keeps_when
        | apply keeps_for_each; intros ? | case_match ].

Lemma keeps_updateRoutes (I : Daemon → Prop) l : keeps (λ s, I (globals s)) (updateRoutes l).
Proof. induction l; cbn [updateRoutes]; repeat keeps_step. Qed.
Lemma keeps_maybeUpdateResolvers (I : Daemon → Prop) c : keeps (λ s, I (globals s)) (maybeUpdateResolvers c).
Proof. unfold maybeUpdateResolvers. repeat keeps_step. Qed.
Lemma keeps_restoreResolvers (I : Daemon → Prop) : keeps (λ s, I (globals s)) restoreResolvers.
Proof. unfold restoreResolvers. repeat keeps_step. Qed.

Lemma keeps_Ok {A} (I : Daemon → Prop) (m : DM A) s a s' t :
  keeps (λ s, I (globals s)) m → m s = (Ok a, s', t) → I (globals s) → I (globals s').
Proof. intros Hk H HI. specialize (Hk s HI). unfold state_of in Hk. by rewrite H in Hk. Qed.

Lemma addExclusionRoute_run p s b s' t :
  addExclusionRoute p s = (Ok b, s', t) →
  globals s' = (if b then setExcluded (<[p := count (m_excludedAddrSet (globals s)) p + 1]>
                            (m_excludedAddrSet (globals s))) (globals s)
                else globals s) ∧
  (exclusions_succeed → b = true).
Proof.
  destruct s as [d w]. unfold addExclusionRoute. intros (m & s0 & t0 & t1 & [= <- <- <-] & H & ->)%bind_returns.
  simpl in *. unfold count. destruct (m_excludedAddrSet d !! p) as [n|] eqn:Hp.
  - by injection H as <- <- <-.
  - apply bind_returns in H as (ok & s1 & t2 & t3 & H1 & H & ->). unfold doCall, ask in H1. simpl in H1.
    destruct (call (AddExclusionRoute p) w) as [b' w'] eqn:Hcall. injection H1 as <- <- <-.
    destruct b'; injection H as <- <- <-; (split; [done|]); [done|].
    intros Hs. specialize (Hs p w). by rewrite Hcall in Hs.
Qed.

Lemma delExclusionRoute_run p s b s' t :
  delExclusionRoute p s = (Ok b, s', t) →
  let m := m_excludedAddrSet (globals s) in
  globals s' = setExcluded (if 1 <? count m p then <[p := count m p - 1]> m else delete p m) (globals s).
Proof.
  destruct s as [d w]. unfold delExclusionRoute, count. intros (m & s0 & t0 & t1 & [= <- <- <-] & H & ->)%bind_returns.
  simpl in *. destruct (1 <? _).
  - by injection H as <- <- <-.
  - apply bind_returns in H as ([] & s1 & t2 & t3 & [= <- <-] & H & ->). apply doCall_Ok in H as [-> _]. done.
Qed.

Lemma count_insert m p n q : count (<[p := n]> m) q = if bool_decide (p = q) then n else count m q.
Proof.
  unfold count. case_bool_decide as Hq; [subst; by rewrite lookup_insert_eq|by rewrite lookup_insert_ne].
Qed.
Lemma count_delete m p q : count (delete p m) q = if bool_decide (p = q) then 0 else count m q.
Proof.
  unfold count. case_bool_decide as Hq; [subst; by rewrite lookup_delete_eq|by rewrite lookup_delete_ne].
Qed.
Lemma occurrences_cons q l p :
  occurrences (q :: l) p = (if bool_decide (q = p) then 1 else 0) + occurrences l p.
Proof.
  unfold occurrences. rewrite filter_cons. case_bool_decide; [rewrite decide_True by done|rewrite decide_False by done];
    cbn [length]; lia.
Qed.
Lemma occurrences_nonneg l p : 0 <= occurrences l p.
Proof. unfold occurrences. lia. Qed.

Lemma count_nonneg m p : counts_positive m → 0 <= count m p.
Proof. intros Hm. unfold count. destruct (m !! p) eqn:Hp; [|done]. apply Hm in Hp. simpl. lia. Qed.

Lemma setExcluded_twice m m' d : setExcluded m (setExcluded m' d) = setExcluded m d.
Proof. done. Qed.

(** The loop that adds the exclusions of a configuration. *)
Lemma add_loop l s s' t :
  exclusions_succeed → counts_positive (m_excludedAddrSet (globals s)) →
  for_each l (λ i, addExclusionRoute (exclusion i);; mret tt) s = (Ok tt, s', t) →
  ∃ m', globals s' = setExcluded m' (globals s) ∧ counts_positive m' ∧
    ∀ p, count m' p = count (m_excludedAddrSet (globals s)) p + occurrences (map exclusion l) p.
Proof.
  intros Hs. revert s s' t. induction l as [|i l IH]; intros s s' t Hpos H.
  { injection H as <- <-. exists (m_excludedAddrSet (globals s)). split; [by destruct s as [[] ?]|].
    split; [done|]. intros p. unfold occurrences. simpl. lia. }
  cbn [for_each] in H. apply bind_returns in H as ([] & s1 & t1 & t2 & H1 & H & ->).
  apply bind_returns in H1 as (b & s0 & t3 & t4 & H0 & [= <- <-] & ->).
  apply addExclusionRoute_run in H0 as [Hg Hb]. rewrite (Hb Hs) in Hg.
  apply IH in H as (m' & Hm' & Hpos' & Hc); last first.
  { rewrite Hg. simpl. apply map_Forall_insert_2; [|done].
    pose proof (count_nonneg (m_excludedAddrSet (globals s)) (exclusion i) Hpos). lia. }
  exists m'. rewrite Hm', Hg, setExcluded_twice. split_and!; [done..|]. intros p. rewrite Hc, Hg. simpl.
  rewrite count_insert, occurrences_cons. case_bool_decide; subst; lia.
Qed.

(** The loop that removes the exclusions of the previous server. *)
Lemma del_loop l s s' t :
  counts_positive (m_excludedAddrSet (globals s)) →
  Forall (λ i, exclusion i = fromHost (parseAddress i)) l →
  (∀ p, occurrences (map exclusion l) p <= count (m_excludedAddrSet (globals s)) p) →
  for_each l (λ i, delExclusionRoute (fromHost (parseAddress i));; mret tt) s = (Ok tt, s', t) →
  ∃ m', globals s' = setExcluded m' (globals s) ∧ counts_positive m' ∧
    ∀ p, count m' p = count (m_excludedAddrSet (globals s)) p - occurrences (map exclusion l) p.
Proof.
  intros Hpos Hplain. revert s s' t Hpos. induction Hplain as [|i l Hi _ IH]; intros s s' t Hpos Hle H.
  { injection H as <- <-. exists (m_excludedAddrSet (globals s)). split; [by destruct s as [[] ?]|].
    split; [done|]. intros p. unfold occurrences. simpl. lia. }
  cbn [for_each] in H. apply bind_returns in H as ([] & s1 & t1 & t2 & H1 & H & ->).
  apply bind_returns in H1 as (b & s0 & t3 & t4 & H0 & [= <- <-] & ->).
  apply delExclusionRoute_run in H0. cbn zeta in H0. rewrite <- Hi in H0.
  set (m := m_excludedAddrSet (globals s)) in *. set (e := exclusion i) in *.
  assert (1 <= count m e) as Hone.
  { specialize (Hle e). cbn [map] in Hle. rewrite occurrences_cons, bool_decide_true in Hle by done.
    pose proof (occurrences_nonneg (map exclusion l) e). lia. }
  assert (∀ q, count (if 1 <? count m e then <[e := count m e - 1]> m else delete e m) q =
    count m q - (if bool_decide (e = q) then 1 else 0)) as Hstep.
  { intros q. destruct (Z.ltb_spec 1 (count m e)); rewrite ?count_insert, ?count_delete;
      case_bool_decide; subst; lia. }
  apply IH in H as (m' & Hm' & Hpos' & Hc); rewrite ?H0 in *; cbn [m_excludedAddrSet setExcluded] in *.
  - exists m'. split_and!; [done..|]. intros p. rewrite Hc, Hstep. cbn [map]. rewrite occurrences_cons. fold e. lia.
  - destruct (Z.ltb_spec 1 (count m e)).
    + apply map_Forall_insert_2; [lia|done].
    + by apply map_Forall_delete.
  - intros p. specialize (Hle p). cbn [map] in Hle. rewrite occurrences_cons in Hle. fold e in Hle.
    rewrite Hstep. lia.
Qed.

Lemma wanted_insert m c p :
  wanted (<[m_hopType c := newConnection c]> m) p =
    wanted m p - (if m !! m_hopType c is Some st then occurrences (exclusions (m_config st)) p else 0)
    + occurrences (exclusions c) p.
Proof.
  unfold wanted, hops. cbn [map foldr]. destruct (m_hopType c); rewrite lookup_insert_eq;
    rewrite !lookup_insert_ne by done; simpl; destruct (m !! _); lia.
Qed.

Lemma finishActivation_run c op s s' t :
  finishActivation c op s = (Ok true, s', t) →
  globals s' = setTimer true (setConnection (m_hopType c) (newConnection c) (globals s)).
Proof.
  intros (s1 & t1 & t2 & H1 & H & ->)%require_true. apply doCall_Ok in H1 as [<- _]. by injection H as <- _.
Qed.

(** A frame rule: code that keeps every predicate of the daemon's state keeps
    the state. *)
Lemma frame {A} (m : DM A) s a s' t :
  (∀ I : Daemon → Prop, keeps (λ s, I (globals s)) m) → m s = (Ok a, s', t) → globals s' = globals s.
Proof. intros Hk H. by apply (keeps_Ok (λ d, d = globals s) m s a s' t (Hk _) H). Qed.

Lemma fresh_balanced c s s' t :
  exclusions_succeed → balanced (globals s) → m_connections (globals s) !! m_hopType c = None →
  activateFresh c s = (Ok true, s', t) → balanced (globals s').
Proof.
  intros Hs [Hpos Hbal] Hnone (b0 & s0 & t0 & t0' & H0 & H & _)%bind_returns. apply doCall_Ok in H0 as [G0 _].
  apply require_true in H as (s1 & t1 & t1' & H1 & H & _). apply frame in H1; [|intros I; repeat keeps_step].
  apply bind_returns in H as ([] & s2 & t2 & t2' & H2 & H & _). rewrite <- G0, <- H1 in *. clear G0 H1.
  apply add_loop in H2 as (m' & G2 & Hpos' & Hc); [|done..].
  apply require_true in H as (s3 & ? & ? & H3 & H & _). apply doCall_Ok in H3 as [G3 _].
  apply require_true in H as (s4 & ? & ? & H4 & H & _). apply frame in H4; [|intros I; apply keeps_maybeUpdateResolvers].
  apply require_true in H as (s5 & ? & ? & H5 & H & _). apply frame in H5; [|intros I; repeat keeps_step].
  apply require_true in H as (s6 & ? & ? & H6 & H & _). apply frame in H6; [|intros I; apply keeps_updateRoutes].
  apply finishActivation_run in H. rewrite H6, H5, H4, G3, G2 in H. rewrite H. split; [done|]. intros p. simpl.
  rewrite wanted_insert, Hnone, Hc, Hbal. unfold exclusions. lia.
Qed.

Lemma switch_balanced c s s' t :
  exclusions_succeed → balanced (globals s) → plain (lastConfigOf (m_connections (globals s)) c) →
  is_Some (m_connections (globals s) !! m_hopType c) →
  switchServer c s = (Ok true, s', t) →
  balanced (globals s') ∧ m_connections (globals s') !! m_hopType c = Some (newConnection c).
Proof.
  intros Hs [Hpos Hbal] Hplain [st Hst] H. unfold switchServer in H.
  apply bind_returns in H as (m & s0 & t0 & t0' & [= <- <- <-] & H & _).
  unfold lastConfigOf in *. rewrite Hst in *.
  apply bind_returns in H as ([] & s1 & t1 & t1' & H1 & H & _).
  apply add_loop in H1 as (m1 & G1 & Hpos1 & Hc1); [|done..].
  apply require_true in H as (s2 & ? & ? & H2 & H & _). apply doCall_Ok in H2 as [G2 _].
  apply bind_returns in H as (b3 & s3 & ? & ? & H3 & H & _). apply frame in H3; [|intros I; apply keeps_updateRoutes].
  apply bind_returns in H as ([] & s4 & ? & ? & H4 & H & _). rewrite G1 in G2. rewrite G2 in H3.
  assert (∀ p, occurrences (exclusions (m_config st)) p <= count (m_excludedAddrSet (globals s)) p) as Hin.
  { intros p. rewrite Hbal. unfold wanted, hops. cbn [map foldr].
    assert (∀ h, 0 <= match m_connections (globals s) !! h with
      | Some st => occurrences (exclusions (m_config st)) p | None => 0 end)
      by (intros h; destruct (_ !! h); [apply occurrences_nonneg|lia]).
    pose proof (H0 SingleHop). pose proof (H0 MultiHopEntry). pose proof (H0 MultiHopExit).
    destruct (m_hopType c); rewrite Hst in *; lia. }
  apply del_loop in H4 as (m2 & G4 & Hpos2 & Hc2).
  2:{ by rewrite H3. }
  2:{ done. }
  2:{ intros p. rewrite H3. simpl. rewrite Hc1. specialize (Hin p). unfold exclusions in Hin.
      pose proof (occurrences_nonneg (map exclusion (m_excludedAddresses c)) p). lia. }
  apply bind_returns in H as ([] & s5 & ? & ? & H5 & H & _). apply frame in H5; [|intros I; repeat keeps_step].
  apply require_true in H as (s6 & ? & ? & H6 & H & _). apply frame in H6; [|intros I; repeat keeps_step].
  injection H as <- _. rewrite H6, H5, G4, H3 in *. simpl. split; [split; [done|]|apply lookup_insert_eq].
  intros p. simpl. rewrite wanted_insert, Hst, Hc2. simpl. rewrite Hc1, Hbal. unfold exclusions. lia.
Qed.

(** Recording the same connection again does not unbalance. *)
Lemma rerecord_balanced c d :
  balanced d → m_connections d !! m_hopType c = Some (newConnection c) →
  balanced (setTimer true (setConnection (m_hopType c) (newConnection c) d)).
Proof.
  intros [Hpos Hbal] Hc. split; [done|]. intros p. simpl. rewrite wanted_insert, Hc, Hbal. simpl. lia.
Qed.

(** *** Handshakes *)

Lemma awaitHandshake_run c peers date s :
  awaitHandshake c peers date s =
    (Ok (lastHandshake (shaken peers c) date), s, map (λ st, EvConnected (m_pubkey st)) (shaken peers c)).
Proof.
  revert date. induction peers as [|st peers IH]; intros date; [done|]. cbn [awaitHandshake shaken List.filter].
  destruct (qeqb (m_serverPublicKey c) (m_pubkey st)); cbn [negb andb]; [|apply IH].
  destruct (m_handshake st =? 0); cbn [negb]; [apply IH|].
  unfold mbind, M_bind, emit. by rewrite IH.
Qed.

Lemma entries_insert m h st l : h ∉ l → entries (<[h := st]> m) l = entries m l.
Proof.
  intros Hh. apply list_omap_ext, Forall_Forall2_diag, Forall_forall.
  intros h' Hin%list_elem_of_In. apply lookup_insert_ne. by intros ->.
Qed.

Lemma checkConnections_run peers l s :
  NoDup l → ∃ m',
    checkConnections peers l s =
      (Ok (length (List.filter waiting (map (polled peers) (entries (m_connections (globals s)) l)))),
       mkSys (mkDaemon m' (m_excludedAddrSet (globals s)) (m_handshakeTimer (globals s))) (world s),
       flat_map (announced peers) (entries (m_connections (globals s)) l)) ∧
    ∀ h, m' !! h = if bool_decide (h ∈ l) then polled peers <$> (m_connections (globals s) !! h)
                   else m_connections (globals s) !! h.
Proof.
  revert s. induction l as [|h l IH]; intros [[m ex tm] w] Hnd; cbn [checkConnections].
  { exists m. split; [done|]. intros h. by rewrite bool_decide_false by apply not_elem_of_nil. }
  inversion_clear Hnd as [|?? Hh Hnd']. rename Hnd' into Hnd. unfold mbind at 1, M_bind at 1, getD, gets. cbn [globals m_connections].
  change (entries m (h :: l)) with (match m !! h with Some y => y :: entries m l | None => entries m l end).
  assert (∀ m' : gmap HopType ConnectionState, (∀ h', m' !! h' = if bool_decide (h' ∈ l) then polled peers <$> (m !! h') else m !! h') →
    polled peers <$> (m !! h) = m !! h →
    ∀ h', m' !! h' = if bool_decide (h' ∈ h :: l) then polled peers <$> (m !! h') else m !! h') as Hskip.
  { intros m' Hm' Heq h'. rewrite Hm'. destruct (decide (h' = h)) as [->|Hne].
    - rewrite bool_decide_false by done. rewrite bool_decide_true by (by left). done.
    - by rewrite (bool_decide_ext (h' ∈ h :: l) (h' ∈ l)) by (rewrite elem_of_cons; naive_solver). }
  destruct (m !! h) as [[date c]|] eqn:Hm; [destruct date as [z|]|]; cbn [m_date m_config].
  - destruct (IH (mkSys (mkDaemon m ex tm) w) Hnd) as (m' & -> & Hm'). exists m'. split; [done|]. by apply Hskip.
  - unfold mbind at 1, M_bind at 1. rewrite awaitHandshake_run. cbv iota beta.
    set (st := mkConn (lastHandshake (shaken peers c) None) c).
    destruct (IH (mkSys (mkDaemon (<[h := st]> m) ex tm) w) Hnd) as (m' & HIH & Hm'). cbn [globals m_connections] in *.
    unfold setD, modify, mbind, M_bind. cbn [globals world]. unfold setConnection; cbn [m_connections m_excludedAddrSet m_handshakeTimer].
    unfold mbind, M_bind in HIH. rewrite HIH. exists m'. rewrite entries_insert by done. split.
    + cbn [map flat_map List.filter]. change (polled peers (mkConn None c)) with st.
      unfold st; cbn [waiting m_date].
      destruct (lastHandshake (shaken peers c) None); simpl; by rewrite app_nil_r.
    + intros h'. rewrite Hm'. destruct (decide (h' = h)) as [->|Hne].
      * rewrite bool_decide_false, lookup_insert_eq by done. rewrite bool_decide_true by (by left). by rewrite Hm.
      * rewrite lookup_insert_ne by done.
        by rewrite (bool_decide_ext (h' ∈ h :: l) (h' ∈ l)) by (rewrite elem_of_cons; naive_solver).
  - destruct (IH (mkSys (mkDaemon m ex tm) w) Hnd) as (m' & -> & Hm'). exists m'. split; [done|]. by apply Hskip.
Qed.

(** The state, result and log of a poll. *)
Lemma checkHandshake_run s :
  let d := globals s in
  let peers := (getPeerStatus (world s)).1 in
  let pending := existsb waiting (connectionList (polled peers <$> m_connections d)) in
  checkHandshake s =
    (Ok tt,
     mkSys (mkDaemon (polled peers <$> m_connections d) (m_excludedAddrSet d) (pending || m_handshakeTimer d))
       (getPeerStatus (world s)).2,
     flat_map (announced peers) (connectionList (m_connections d)) ++
     (if pending then [EvTimerStart HANDSHAKE_POLL_MSEC] else [])).
Proof.
  destruct s as [d w]. cbn zeta. unfold checkHandshake, mbind at 1, M_bind at 1, peerStatus. cbn [globals world].
  destruct (getPeerStatus w) as [peers w']. cbn [fst snd].
  destruct (checkConnections_run peers hops (mkSys d w')) as (m' & Hrun & Hm').
  { apply (bool_decide_unpack _). done. }
  assert (m' = polled peers <$> m_connections d) as ->.
  { apply map_eq. intros h. rewrite Hm', lookup_fmap, bool_decide_true; [done|]. destruct h; set_solver. }
  unfold mbind, M_bind. unfold mbind, M_bind in Hrun. rewrite Hrun. cbn [globals world].
  assert (map (polled peers) (entries (m_connections d) hops) = connectionList (polled peers <$> m_connections d)) as ->.
  { unfold entries, connectionList. cbn [omap list_omap hops]. rewrite !lookup_fmap.
    destruct (_ !! SingleHop), (_ !! MultiHopEntry), (_ !! MultiHopExit); done. }
  change (entries (m_connections d) hops) with (connectionList (m_connections d)).
  set (l := connectionList (polled peers <$> m_connections d)).
  assert ((0 <? length (List.filter waiting l))%nat = existsb waiting l) as ->.
  { induction l as [|x l IH]; [done|]. simpl. by destruct (waiting x). }
  by destruct (existsb waiting l).
Qed.

(** *** Invariants *)

Lemma keeps_setD (I : Daemon → Prop) f :
  (∀ d, I d → I (f d)) → keeps (λ s, I (globals s)) (setD f).
Proof. intros H s HI. by apply H. Qed.

Lemma keeps_run {A} (I : Daemon → Prop) (m : DM A) :
  total m → (∀ s a s' t, m s = (Ok a, s', t) → I (globals s) → I (globals s')) → keeps (λ s, I (globals s)) m.
Proof.
  intros Ht H s HI. destruct (Ht s) as (a & s' & t & Hm). unfold state_of. rewrite Hm. by eapply H.
Qed.

(** The counts are positive and every connection satisfies [P]. *)
Definition wf_daemon (P : HopType → ConnectionState → Prop) (d : Daemon) : Prop :=
  counts_positive (m_excludedAddrSet d) ∧ map_Forall P (m_connections d).

Section Invariant.
  Context (P : HopType → ConnectionState → Prop).

Abbreviation keeps_wf m := (keeps (λ s : Sys Daemon W, wf_daemon P (globals s)) m).

Lemma wf_addExclusionRoute p : keeps_wf (addExclusionRoute p).
Proof.
  apply keeps_run; [apply total_addExclusionRoute|]. intros s b s' t [Hg _]%addExclusionRoute_run [Hpos Hk].
  rewrite Hg. destruct b; [|done]. split; [|done]. apply map_Forall_insert_2; [|done].
  pose proof (count_nonneg (m_excludedAddrSet (globals s)) p Hpos). lia.
Qed.

Lemma wf_delExclusionRoute p : keeps_wf (delExclusionRoute p).
Proof.
  apply keeps_run; [apply total_delExclusionRoute|]. intros s b s' t Hg%delExclusionRoute_run [Hpos Hk].
  cbn zeta in Hg. rewrite Hg. split; [|done]. simpl. destruct (Z.ltb_spec 1 (count (m_excludedAddrSet (globals s)) p)).
  - apply map_Forall_insert_2; [lia|done].
  - by apply map_Forall_delete.
Qed.

Lemma wf_record c d :
  P (m_hopType c) (newConnection c) → wf_daemon P d → wf_daemon P (setConnection (m_hopType c) (newConnection c) d).
Proof. intros Hc [Hpos Hk]. split; [done|]. by apply map_Forall_insert_2. Qed.

Ltac wf_step :=
  first [ assumption | apply keeps_setD; intros ? Hwf; first [by apply wf_record | by destruct Hwf; split]
        | apply wf_addExclusionRoute | apply wf_delExclusionRoute | keeps_step ].

Lemma wf_deactivate e : keeps_wf (deactivate e).
Proof.
  pose proof (keeps_restoreResolvers (wf_daemon P)). unfold deactivate.
  repeat wf_step.
Qed.
Lemma wf_finishActivation c op : P (m_hopType c) (newConnection c) → keeps_wf (finishActivation c op).
Proof. intros Hc. unfold finishActivation, startTimer. repeat wf_step. Qed.
Lemma wf_switchServer c : P (m_hopType c) (newConnection c) → keeps_wf (switchServer c).
Proof.
  intros Hc.  pose proof (keeps_updateRoutes (wf_daemon P) (m_allowedIPAddressRanges c)). unfold switchServer. repeat wf_step.
Qed.
Lemma wf_activate fuel c : P (m_hopType c) (newConnection c) → keeps_wf (activate fuel c).
Proof.
  intros Hc.  pose proof (keeps_restoreResolvers (wf_daemon P)). pose proof (keeps_maybeUpdateResolvers (wf_daemon P) c).
  pose proof (keeps_updateRoutes (wf_daemon P) (m_allowedIPAddressRanges c)). pose proof (wf_switchServer c Hc).
  pose proof (λ op, wf_finishActivation c op Hc) as Hfin. pose proof (wf_deactivate false).
  induction fuel as [|fuel IH]; cbn [activate]; [by intros s|].
  unfold failureGuard, supportServerSwitching, activateSwitch, activateFresh.
  repeat first [apply Hfin | wf_step].
Qed.

End Invariant.

End Daemon.

#[global] Arguments DM W A : clear implicits.
