(* ===== verification/DaemonSpec.v ===== *)
(** * Properties of the daemon

    The daemon as a transition system ([dstep]: activations, deactivations and
    time-outs of the handshake timer), its invariants by induction over runs,
    and the properties of the operations of [Daemon.v].  The module [SimDaemon]
    is a small concrete platform on which they are exercised. *)

From Stdlib Require Import ZArith Lia.
From stdpp Require Import prelude strings list gmap.
From S2P Require Import Prelude IPAddress QtJson InterfaceConfig Daemon.

Local Open Scope Z_scope.

Section Spec.
  Context {W : Type} {platform : Platform W} {env : QtEnv}.

(** ** Runs *)

(** The recursion of [activate] needs at most two levels. *)
Inductive dstep : Sys Daemon W → Sys Daemon W → Prop :=
| step_activate c b s s' t : activate 2 c s = (Ok b, s', t) → dstep s s'
| step_deactivate e b s s' t : deactivate e s = (Ok b, s', t) → dstep s s'
| step_timeout s s' t :
    m_handshakeTimer (globals s) = true → timeout s = (Ok tt, s', t) → dstep s s'.

(** Runs in which every activation and deactivation succeeds, and every
    exclusion is a plain address. *)
Inductive hstep : Sys Daemon W → Sys Daemon W → Prop :=
| healthy_activate c s s' t : plain c → activate 2 c s = (Ok true, s', t) → hstep s s'
| healthy_deactivate e s s' t : deactivate e s = (Ok true, s', t) → hstep s s'
| healthy_timeout s s' t :
    m_handshakeTimer (globals s) = true → timeout s = (Ok tt, s', t) → hstep s s'.

(** Every connection is recorded under its own hop type; in healthy runs its
    exclusions are plain addresses. *)
Definition keyed (h : HopType) (cn : ConnectionState) : Prop := m_hopType (m_config cn) = h.
Definition keyed_plain (h : HopType) (cn : ConnectionState) : Prop := keyed h cn ∧ plain (m_config cn).

(** The reference counts match the connections, and while a connection awaits
    its handshake the timer is running. *)
Definition healthy (d : Daemon) : Prop :=
  wf_daemon keyed_plain d ∧ balanced d ∧
  (existsb waiting (connectionList (m_connections d)) = true → m_handshakeTimer d = true).

(** The calls that set the resolvers. *)
Definition resolver_log (c : InterfaceConfig) (name : string) : list DEvent :=
  if supportDnsUtils then
    match m_hopType c with
    | MultiHopEntry => []
    | _ => [EvCall (UpdateResolvers name (resolversOf c)) true]
    end
  else [].

(** The log of a successful activation when the VPN is off.  [texcl] are the
    calls for the excluded addresses. *)
Definition activation_log (c : InterfaceConfig) (b0 ex : bool) (texcl : list DEvent) (name : string) : list DEvent :=
  [EvCall (PrepareActivation c) b0; EvCall InterfaceExists ex] ++
  (if ex then [] else [EvCall (AddInterface c) true]) ++ texcl ++
  [EvCall (UpdatePeer c) true] ++ resolver_log c name ++
  (if supportIPUtils then [EvCall (AddInterfaceIPs c) true; EvCall (SetMTUAndUp c) true] else []) ++
  map (λ ip, EvCall (UpdateRoutePrefix ip) true) (m_allowedIPAddressRanges c) ++
  [EvCall (Run Up c) true; EvTimerStart HANDSHAKE_POLL_MSEC].

(** A call for one of the configuration's exclusions. *)
Definition exclusion_call (c : InterfaceConfig) (ev : DEvent) : Prop :=
  ∃ p b, p ∈ exclusions c ∧ ev = EvCall (AddExclusionRoute p) b.

(** ** Lemmas *)

Lemma guard_true (m : DM W bool) s s' t :
  failureGuard m s = (Ok true, s', t) → m s = (Ok true, s', t).
Proof.
  unfold failureGuard. intros (b & s1 & t1 & t2 & Hm & H & ->)%bind_returns.
  destruct b; injection H as ?; subst; [by rewrite app_nil_r|done].
Qed.

Lemma updateRoutes_true l s s' t :
  updateRoutes l s = (Ok true, s', t) → t = map (λ ip, EvCall (UpdateRoutePrefix ip) true) l.
Proof.
  revert s s' t. induction l as [|ip l IH]; intros s s' t H; [by injection H as _ <-|].
  cbn [updateRoutes] in H. apply require_true in H as (s1 & t1 & t2 & H1 & H & ->).
  apply doCall_Ok in H1 as [_ ->]. apply IH in H as ->. done.
Qed.

Lemma maybeUpdateResolvers_true c s s' t :
  maybeUpdateResolvers c s = (Ok true, s', t) → ∃ name, t = resolver_log c name.
Proof.
  unfold maybeUpdateResolvers, resolver_log. destruct supportDnsUtils; cbn [negb];
    [|intros [= _ <-]; by exists ""].
  destruct (m_hopType c); [|intros [= _ <-]; by exists ""|];
    intros (name & s1 & t1 & t2 & [= <- <- <-] & H & ->)%bind_returns;
    apply require_true in H as (s2 & t3 & t4 & H2 & [= _ <-] & ->); apply doCall_Ok in H2 as [_ ->]; by eexists.
Qed.

Lemma exclusion_loop_log c l s s' t :
  l ⊆ m_excludedAddresses c →
  for_each l (λ i, addExclusionRoute (exclusion i);; mret tt) s = (Ok tt, s', t) →
  Forall (exclusion_call c) t.
Proof.
  revert s s' t. induction l as [|i l IH]; intros s s' t Hsub H; [injection H as _ <-; constructor|].
  cbn [for_each] in H. apply bind_returns in H as ([] & s1 & t1 & t2 & H1 & H & ->).
  apply bind_returns in H1 as (b & s0 & t3 & t4 & H0 & [= _ <-] & ->). rewrite app_nil_r. apply Forall_app. split.
  - unfold addExclusionRoute in H0. apply bind_returns in H0 as (m & s2 & t5 & t6 & [= _ _ <-] & H0 & ->).
    destruct (m !! exclusion i); [injection H0 as _ _ <-; constructor|].
    apply bind_returns in H0 as (ok & s3 & t7 & t8 & H2 & H0 & ->). apply doCall_Ok in H2 as [_ ->].
    assert (t8 = []) as -> by (destruct ok; by injection H0 as _ _ <-).
    constructor; [|constructor]. exists (exclusion i), ok. split; [|done].
    apply list_elem_of_In, in_map, list_elem_of_In. set_solver.
  - eapply IH; [|done]. set_solver.
Qed.

Lemma activateFresh_log c s s' t :
  activateFresh c s = (Ok true, s', t) →
  ∃ b0 ex texcl name, t = activation_log c b0 ex texcl name ∧ Forall (exclusion_call c) texcl.
Proof.
  intros (b0 & s0 & t0 & t0' & H0 & H & ->)%bind_returns. apply doCall_Ok in H0 as [_ ->].
  apply require_true in H as (s1 & t1 & t1' & H1 & H & ->).
  apply bind_returns in H1 as (ex & s2 & t2 & t2' & H2 & H1 & ->). apply doCall_Ok in H2 as [_ ->].
  assert (t2' = if ex then [] else [EvCall (AddInterface c) true]) as ->
    by (destruct ex; [by injection H1 as _ <-|by apply doCall_Ok in H1 as [_ ->]]).
  apply bind_returns in H as ([] & s3 & t3 & t3' & H3 & H & ->). apply (exclusion_loop_log c) in H3; [|done].
  apply require_true in H as (s4 & t4 & t4' & H4 & H & ->). apply doCall_Ok in H4 as [_ ->].
  apply require_true in H as (s5 & t5 & t5' & H5 & H & ->). apply maybeUpdateResolvers_true in H5 as [name ->].
  apply require_true in H as (s6 & t6 & t6' & H6 & H & ->).
  assert (t6 = if supportIPUtils then [EvCall (AddInterfaceIPs c) true; EvCall (SetMTUAndUp c) true] else []) as ->.
  { destruct supportIPUtils; [|by injection H6 as _ <-].
    apply require_true in H6 as (s7 & t7 & t7' & H7 & H6 & ->).
    apply doCall_Ok in H7 as [_ ->]. by apply doCall_Ok in H6 as [_ ->]. }
  apply require_true in H as (s8 & t8 & t8' & H8 & H & ->). apply updateRoutes_true in H8 as ->.
  apply require_true in H as (s9 & t9 & t9' & H9 & H & ->). apply doCall_Ok in H9 as [_ ->].
  injection H as _ <-. exists b0, ex, t3, name. split; [|done]. unfold activation_log. by rewrite <- !app_assoc.
Qed.

Lemma timeout_run s :
  let d := globals s in
  let peers := (getPeerStatus (world s)).1 in
  let pending := existsb waiting (connectionList (polled peers <$> m_connections d)) in
  timeout s =
    (Ok tt, mkSys (mkDaemon (polled peers <$> m_connections d) (m_excludedAddrSet d) pending)
       (getPeerStatus (world s)).2,
     flat_map (announced peers) (connectionList (m_connections d)) ++
     (if pending then [EvTimerStart HANDSHAKE_POLL_MSEC] else [])).
Proof.
  destruct s as [d w]. cbn zeta. unfold timeout, mbind, M_bind, setD, modify. cbn [globals world].
  rewrite checkHandshake_run. cbn [globals world setTimer m_connections m_excludedAddrSet m_handshakeTimer].
  by rewrite orb_false_r.
Qed.

Lemma polled_config peers cn : m_config (polled peers cn) = m_config cn.
Proof. unfold polled. by destruct (m_date cn). Qed.

Lemma polled_wf (P : HopType → ConnectionState → Prop) peers d b :
  (∀ h cn, P h cn → P h (polled peers cn)) →
  wf_daemon P d → wf_daemon P (mkDaemon (polled peers <$> m_connections d) (m_excludedAddrSet d) b).
Proof.
  intros HP [Hpos Hk]. split; [done|]. intros h cn. simpl. rewrite lookup_fmap, fmap_Some.
  intros (cn' & Hcn & ->). by apply HP, Hk.
Qed.

Lemma polled_wanted peers m p : wanted (polled peers <$> m) p = wanted m p.
Proof.
  unfold wanted, hops. cbn [map]. rewrite !lookup_fmap.
  destruct (m !! SingleHop), (m !! MultiHopEntry), (m !! MultiHopExit); simpl; by rewrite ?polled_config.
Qed.

Lemma connectionList_Some (m : gmap HopType ConnectionState) cn :
  In cn (connectionList m) ↔ ∃ h, m !! h = Some cn.
Proof.
  rewrite <- list_elem_of_In. unfold connectionList. rewrite list_elem_of_omap. split.
  - intros (h & _ & Hh). eauto.
  - intros [h Hh]. exists h. split; [destruct h; set_solver|done].
Qed.

(** A successful activation, by its three scenarios. *)
Lemma activate_cases {laws : PlatformLaws platform} c s s' t :
  activate 2 c s = (Ok true, s', t) →
  (m_connections (globals s) !! m_hopType c = None ∧ activateFresh c s = (Ok true, s', t)) ∨
  (is_Some (m_connections (globals s) !! m_hopType c) ∧ activateSwitch c s = (Ok true, s', t)) ∨
  (∃ s1 t2, globals s1 = mkDaemon ∅ ∅ (m_handshakeTimer (globals s)) ∧ activateFresh c s1 = (Ok true, s', t2)).
Proof.
  destruct (m_connections (globals s) !! m_hopType c) as [cn|] eqn:Hc.
  - rewrite (activate_on _ _ _ _ Hc). intros H%guard_true. right. destruct (sameTunnel (m_config cn) c); [by left; eauto|].
    right. apply require_true in H as (s1 & t1 & t2 & H1 & H & ->). apply deactivate_run in H1 as [[Hd _] _].
    rewrite activate_off in H by (by rewrite Hd). apply guard_true in H. eauto.
  - rewrite (activate_off _ _ _ Hc). intros H%guard_true. by left.
Qed.

Lemma healthy_empty b : healthy (mkDaemon ∅ ∅ b).
Proof.
  split; [split; apply map_Forall_empty|]. split; [|done]. split; [apply map_Forall_empty|done].
Qed.

Lemma activate_balanced {laws : PlatformLaws platform} c s s' t :
  exclusions_succeed → balanced (globals s) → wf_daemon keyed_plain (globals s) →
  activate 2 c s = (Ok true, s', t) → balanced (globals s').
Proof.
  intros Hs Hb [_ Hpl] [[Hn H]|[[Hsome H]|(s1 & t2 & G1 & H)]]%activate_cases.
  - by apply fresh_balanced in H.
  - apply require_true in H as (s1 & t1 & t2 & H1 & H & ->).
    apply switch_balanced in H1 as [Hb1 Hc]; [|done..| |done]; last first.
    { unfold lastConfigOf. destruct Hsome as [cn Hcn]. rewrite Hcn. by apply (Hpl _ _ Hcn). }
    apply require_true in H as (s2 & ? & ? & H2 & H & _). apply frame in H2; [|intros I; apply keeps_restoreResolvers].
    apply require_true in H as (s3 & ? & ? & H3 & H & _).
    apply frame in H3; [|intros I; apply keeps_maybeUpdateResolvers].
    apply finishActivation_run in H. rewrite H, H3, H2. by apply rerecord_balanced.
  - apply fresh_balanced in H; [done|done| |by rewrite G1]. rewrite G1. apply healthy_empty.
Qed.

Lemma healthy_step {laws : PlatformLaws platform} s s' :
  exclusions_succeed → hstep s s' → healthy (globals s) → healthy (globals s').
Proof.
  intros Hs Hstep (Hwf & Hb & Htm). destruct Hstep as [c s s' t Hpl H|e s s' t H|s s' t _ H].
  - split; [|split].
    + eapply (keeps_Ok _ _ _ _ _ _ (wf_activate keyed_plain 2 c _) H Hwf).
    + by eapply activate_balanced.
    + destruct (activate_outcome 2 c s) as (b & s1 & t1 & H1 & Hout); [lia|]. rewrite H1 in H. injection H as -> -> ->.
      by destruct Hout as [_ [_ ?]].
  - apply deactivate_run in H as [[-> _] _]. apply healthy_empty.
  - rewrite timeout_run in H. injection H as <- _. split_and!; cbn [globals].
    + apply polled_wf; [|done]. intros h cn. unfold keyed_plain, keyed. by rewrite polled_config.
    + destruct Hb as [Hpos Hbal]. split; [done|]. intros p. simpl. by rewrite polled_wanted.
    + done.
  Unshelve. done.
Qed.

(** ** Properties *)

(** [C2] Every call of [activate] returns (two levels of recursion suffice) and
    tells its outcome: a successful one sends no failure signal, has recorded
    the configuration under its hop type awaiting a handshake, and the
    handshake timer is running; a failed one ends with the failure signal. *)
Theorem activate_signals {laws : PlatformLaws platform} (fuel : nat) (c : InterfaceConfig)
    (s : Sys Daemon W) (Hfuel : (2 ≤ fuel)%nat) :
  ∃ b s' t, activate fuel c s = (Ok b, s', t) ∧
    if b then (EvActivationFailure ∉ t) ∧
              m_connections (globals s') !! m_hopType c = Some (newConnection c) ∧
              m_handshakeTimer (globals s') = true
    else ∃ t', t = t' ++ [EvActivationFailure].
Proof. by apply activate_outcome. Qed.

(** The order of a successful activation when no connection of its kind
    exists: preparation, the interface (created only if missing), the excluded
    addresses, the peer, the resolvers (of single hops and exits only), the
    interface's addresses and MTU, then a route for every allowed range in the
    order of the list, and only then the platform's Up hook and the timer; every
    call but the preparation and the exclusions has succeeded. *)
Theorem activation_sequence (fuel : nat) (c : InterfaceConfig) (s s' : Sys Daemon W) (t : list DEvent)
    (Hoff : m_connections (globals s) !! m_hopType c = None)
    (H : activate (S fuel) c s = (Ok true, s', t)) :
  ∃ b0 ex texcl name, t = activation_log c b0 ex texcl name ∧ Forall (exclusion_call c) texcl.
Proof. rewrite activate_off in H by done. apply guard_true in H. by apply activateFresh_log in H. Qed.

(** [C3] Every call of [deactivate] returns.  A successful one has run the Down
    hook of the first connection, restored the resolvers, deleted the routes and
    the peer of every connection, every excluded address once and the interface,
    in this order, and left no connection and no reference count.  A failed one
    keeps every connection, and the reference counts too unless it was the
    deletion of the interface that failed. *)
Theorem deactivate_spec {laws : PlatformLaws platform} (e : bool) (s : Sys Daemon W) :
  ∃ b s' t, deactivate e s = (Ok b, s', t) ∧ deactivated e (globals s) b (globals s') t.
Proof.
  destruct (total_deactivate e s) as (b & s' & t & H). exists b, s', t. split; [done|]. by apply deactivate_run.
Qed.

(** In every reachable state every reference count is at least 1 and every
    connection is recorded under its own hop type, whatever the platform
    answers. *)
Theorem reachable_wf (w : W) (s : Sys Daemon W) (Hrun : rtc dstep (mkSys initialDaemon w) s) :
  wf_daemon keyed (globals s).
Proof.
  apply (rtc_ind_r (R := dstep) (λ s, wf_daemon keyed (globals s)) (mkSys initialDaemon w)); [| |exact Hrun].
  - split; apply map_Forall_empty.
  - intros s1 s2 _ Hstep Hwf. destruct Hstep as [c b s1 s2 t H|e b s1 s2 t H|s1 s2 t _ H].
    + by apply (keeps_Ok _ _ _ _ _ _ (wf_activate keyed 2 c eq_refl) H).
    + by apply (keeps_Ok _ _ _ _ _ _ (wf_deactivate keyed e) H).
    + rewrite timeout_run in H. injection H as <- _. apply polled_wf; [|done].
      intros h cn. unfold keyed. by rewrite polled_config.
Qed.


(** One poll for handshakes: every connection that was waiting takes the
    time of the last peer of its key that reports a handshake, the connected
    signal is sent for exactly these peers and never again for a connection that
    has its time, the counts stay, and the timer runs again exactly if some
    connection is still waiting. *)
Theorem handshake_poll (s : Sys Daemon W) :
  let d := globals s in
  let peers := (getPeerStatus (world s)).1 in
  let pending := existsb waiting (connectionList (polled peers <$> m_connections d)) in
  timeout s =
    (Ok tt, mkSys (mkDaemon (polled peers <$> m_connections d) (m_excludedAddrSet d) pending)
       (getPeerStatus (world s)).2,
     flat_map (announced peers) (connectionList (m_connections d)) ++
     (if pending then [EvTimerStart HANDSHAKE_POLL_MSEC] else [])).
Proof. apply timeout_run. Qed.

(** The status report changes nothing and says connected exactly if the
    interface exists, there is a connection, and the platform reports a peer with
    the server key of the first connection (in the order single hop, entry,
    exit), a completed handshake not being required; it then carries that
    connection's addresses and date and the byte counts of the first such
    peer. *)
Theorem getStatus_spec (s : Sys Daemon W) :
  let '(ex, w1) := call InterfaceExists (world s) in
  let peers := (getPeerStatus w1).1 in
  ∃ obj s' t, getStatus s = (Ok obj, s', t) ∧ globals s' = globals s ∧
    match connectionList (m_connections (globals s)) with
    | cn :: _ =>
        match List.filter (λ st, qeqb (m_pubkey st) (m_serverPublicKey (m_config cn))) peers with
        | st :: _ =>
            value obj "connected" = JBool ex ∧
            value obj "date" = (if ex then JString (dateText (m_date cn)) else JUndefined) ∧
            value obj "serverIpv4Gateway" = (if ex then JText (m_serverIpv4Gateway (m_config cn)) else JUndefined) ∧
            value obj "txBytes" = (if ex then JInt (m_txBytes st) else JUndefined) ∧
            value obj "rxBytes" = (if ex then JInt (m_rxBytes st) else JUndefined)
        | [] => value obj "connected" = JBool false
        end
    | [] => value obj "connected" = JBool false
    end.
Proof.
  destruct s as [d w]. simpl. destruct (call InterfaceExists w) as [ex w1] eqn:Hex. cbn zeta.
  unfold getStatus, mbind, M_bind, doCall, ask, getD, gets. simpl. rewrite Hex. simpl.
  destruct (connectionList (m_connections d)) as [|cn l]; [by eexists _, _, _|].
  destruct ex; simpl; last first.
  { eexists _, _, _. split; [done|]. split; [done|]. by destruct (List.filter _ _). }
  unfold peerStatus. simpl. destruct (getPeerStatus w1) as [peers w2]. simpl.
  eexists _, _, _. split; [done|]. split; [done|].
  induction peers as [|st peers IH]; [done|]. cbn [List.filter statusOf].
  destruct (qeqb (m_pubkey st) _); [done|]. cbn [negb]. exact IH.
Qed.

End Spec.

(** ** A concrete platform *)

Module SimDaemon.

(** The interface, the calls that fail, and what the peers report. *)
Record World := mkWorld { up : bool; fails : Call → bool; peers : list PeerStatus }.

#[global] Instance platform : Platform World := {
  call c w :=
    match c with
    | InterfaceExists => (up w, w)
    | AddInterface _ => if fails w c then (false, w) else (true, mkWorld true (fails w) (peers w))
    | DeleteInterface => if fails w c then (false, w) else (true, mkWorld false (fails w) (peers w))
    | AddExclusionRoute _ => (true, w)
    | _ => (negb (fails w c), w)
    end;
  getPeerStatus w := (peers w, w);
  interfaceName _ := "amn0";
  supportIPUtils := true;
  supportDnsUtils := true;
  dateText d := match d with None => "" | Some _ => "Mon Jan 1 00:00:00 2024" end;
  hashOrder m := (map_to_list m).*1;
}.

#[global] Instance laws : PlatformLaws platform.
Proof. by split. Qed.

(** A machine on which everything works and no peer has answered. *)
Definition quiet_world : World := mkWorld false (λ _, false) [].

(** The configuration of the examples, with the given exclusions. *)
Definition withExclusions (l : list string) : InterfaceConfig :=
  let c := sampleConfig (Some "1.1.1.1") in
  {| m_hopType := m_hopType c; m_privateKey := m_privateKey c; m_deviceIpv4Address := m_deviceIpv4Address c;
     m_deviceIpv6Address := m_deviceIpv6Address c; m_serverIpv4Gateway := m_serverIpv4Gateway c;
     m_serverIpv6Gateway := m_serverIpv6Gateway c; m_serverPublicKey := m_serverPublicKey c;
     m_serverIpv4AddrIn := m_serverIpv4AddrIn c; m_serverPskKey := m_serverPskKey c;
     m_serverIpv6AddrIn := m_serverIpv6AddrIn c; m_dnsServer := m_dnsServer c; m_serverPort := m_serverPort c;
     m_deviceMTU := m_deviceMTU c; m_allowedIPAddressRanges := m_allowedIPAddressRanges c;
     m_excludedAddresses := l; m_vpnDisabledApps := []; m_killSwitchEnabled := true;
     m_junkPacketCount := None; m_junkPacketMinSize := None; m_junkPacketMaxSize := None;
     m_initPacketJunkSize := None; m_responsePacketJunkSize := None; m_initPacketMagicHeader := None;
     m_responsePacketMagicHeader := None; m_underloadPacketMagicHeader := None;
     m_transportPacketMagicHeader := None |}.

End SimDaemon.

Import SimDaemon.

Definition simStart : Sys Daemon World := mkSys initialDaemon quiet_world.

(** A run and what it leads to. *)
Definition simActivated (l : list string) : Sys Daemon World :=
  state_of (activate 2 (withExclusions l) simStart).

Lemma activate_signals_witness :
  ∃ b s' t, activate 2 (withExclusions ["203.0.113.7"]) simStart = (Ok b, s', t) ∧
    if b then (EvActivationFailure ∉ t) ∧
              m_connections (globals s') !! SingleHop = Some (newConnection (withExclusions ["203.0.113.7"])) ∧
              m_handshakeTimer (globals s') = true
    else ∃ t', t = t' ++ [EvActivationFailure].
Proof. apply (activate_signals 2 (withExclusions ["203.0.113.7"]) simStart). lia. Defined.

Lemma activation_sequence_witness :
  ∃ b0 ex texcl name,
    log_of (activate 1 (withExclusions ["203.0.113.7"]) simStart) =
      activation_log (withExclusions ["203.0.113.7"]) b0 ex texcl name ∧
    Forall (exclusion_call (withExclusions ["203.0.113.7"])) texcl.
Proof.
  apply (activation_sequence 0 (withExclusions ["203.0.113.7"]) simStart
    (state_of (activate 1 (withExclusions ["203.0.113.7"]) simStart))); reflexivity.
Defined.

Lemma deactivate_spec_witness :
  ∃ b s' t, deactivate true (simActivated ["203.0.113.7"]) = (Ok b, s', t) ∧
    deactivated true (globals (simActivated ["203.0.113.7"])) b (globals s') t.
Proof. exact (deactivate_spec true (simActivated ["203.0.113.7"])). Defined.

Lemma reachable_wf_witness : wf_daemon keyed (globals (simActivated ["203.0.113.7"])).
Proof.
  apply (reachable_wf quiet_world (simActivated ["203.0.113.7"])).
  eapply rtc_once, (step_activate (withExclusions ["203.0.113.7"])). reflexivity.
Defined.

(** An activation followed by a switch to other exclusions. *)
Definition simSwitched : Sys Daemon World :=
  state_of (activate 2 (withExclusions ["198.51.100.9"]) (simActivated ["203.0.113.7"; "203.0.113.7"])).


(** The same does not hold for networks: the server switch looks the old
    exclusion up as a plain address.  After a successful activation that excludes
    10.1.0.0/16 and a successful switch to a configuration without exclusions,
    the network's reference count is still 1 and its route was not deleted; the
    switch deleted a route for the null address instead. *)
Theorem switch_keeps_network :
  let net := mkIP (IPv4 167837696) 16 in
  let r := activate 2 (withExclusions []) (simActivated ["10.1.0.0/16"]) in
  result_of r = Ok true ∧
  m_excludedAddrSet (globals (state_of r)) !! net = Some 1 ∧
  wanted (m_connections (globals (state_of r))) net = 0 ∧
  List.filter (λ c, match c with DeleteExclusionRoute _ => true | _ => false end) (calls_of (log_of r)) =
    [DeleteExclusionRoute (mkIP NullAddress 128)].
Proof. cbn zeta. split_and!; vm_compute; reflexivity. Qed.
