(* ===== verification/LineProtocol.v ===== *)
(** * Messages over the local socket

    Client and daemon exchange JSON objects, one per line.  This file models
    how both ends cut the byte stream into commands: [readData] of
    [src/client/daemon/daemonlocalserverconnection.cpp] and of
    [src/client/mozilla/localsocketcontroller.cpp], over any handler of the
    commands, and the writing of a message.  A [Reader] holds the buffer
    [m_buffer], the chunks the socket's [readAll] is going to return, and the
    state of the handler. *)

From Stdlib Require Import ZArith Lia Ascii.
From stdpp Require Import prelude strings list countable pretty.
From S2P Require Import Prelude JsRuntime QtJson.

Definition newline_char : ascii := Ascii.ascii_of_nat 10.

(** ** Bytes *)

(** [indexOf("\n")], [left(pos)] and [remove(0, pos + 1)]: the first line and
    what follows it. *)
Fixpoint cut (s : string) : option (string * string) :=
  match s with
  | EmptyString => None
  | String c s =>
      if Ascii.eqb newline_char c then Some (EmptyString, s)
      else match cut s with Some (l, r) => Some (String c l, r) | None => None end
  end.

(** The white space of [QByteArray::trimmed]. *)
Definition is_space (c : ascii) : bool :=
  let n := Ascii.nat_of_ascii c in (n =? 32)%nat || ((9 <=? n)%nat && (n <=? 13)%nat).

Fixpoint trim_left (s : string) : string :=
  match s with
  | EmptyString => EmptyString
  | String c s' => if is_space c then trim_left s' else s
  end.

Fixpoint trim_right (s : string) : string :=
  match s with
  | EmptyString => EmptyString
  | String c s' =>
      match trim_right s' with
      | EmptyString => if is_space c then EmptyString else String c EmptyString
      | r => String c r
      end
  end.

Definition trimmed (s : string) : string := trim_right (trim_left s).

(** ** Reading *)

Record Reader (St : Type) := mkReader {
  m_buffer : string;
  incoming : list string;
  inner : St;
}.
Arguments mkReader {St} m_buffer incoming inner.
Arguments m_buffer {St} r.
Arguments incoming {St} r.
Arguments inner {St} r.

Section Reading.
  Context {St Ev E : Type} (parseCommand : string → M St Ev E unit).

Definition RM (A : Type) : Type := M (Reader St) Ev E A.

Definition setBuffer (b : string) (r : Reader St) : Reader St := mkReader b (incoming r) (inner r).

(** [m_socket->readAll()]: empty when nothing is left. *)
Definition readAll : RM string := λ r,
  match incoming r with
  | [] => (Ok "", r, [])
  | c :: cs => (Ok c, mkReader (m_buffer r) cs (inner r), [])
  end.

(** A command is handled without touching the buffer. *)
Definition handle (command : string) : RM unit := λ r,
  let '(res, s, t) := parseCommand command (inner r) in (res, mkReader (m_buffer r) (incoming r) s, t).

(** One line of either loop. *)
Definition handleLine (line rest : string) : RM unit :=
  modify (setBuffer rest);;
  let command := trimmed line in
  if String.eqb command "" then mret tt else handle command.

(** The loop of the client: lines until the buffer holds none. *)
Fixpoint drain (fuel : nat) : RM unit :=
  match fuel with
  | O => out_of_fuel
  | S fuel =>
      b ← gets m_buffer;
      match cut b with
      | None => mret tt
      | Some (line, rest) => handleLine line rest;; drain fuel
      end
  end.

(** [LocalSocketController::readData] *)
Definition clientReadData (fuel : nat) : RM unit :=
  input ← readAll;
  modify (λ r, setBuffer (m_buffer r +:+ input) r);;
  drain fuel.

(** [DaemonLocalServerConnection::readData]: reads again whenever the buffer
    holds no line, until the socket is empty. *)
Fixpoint serverReadData (fuel : nat) : RM unit :=
  match fuel with
  | O => out_of_fuel
  | S fuel =>
      b ← gets m_buffer;
      match cut b with
      | None =>
          input ← readAll;
          if String.eqb input "" then mret tt
          else modify (λ r, setBuffer (m_buffer r +:+ input) r);; serverReadData fuel
      | Some (line, rest) => handleLine line rest;; serverReadData fuel
      end
  end.

(** [readData] of the client, once per signal of the socket. *)
Fixpoint clientReads (fuel n : nat) : RM unit :=
  match n with
  | O => mret tt
  | S n => clientReadData fuel;; clientReads fuel n
  end.

End Reading.

(** ** Writing *)

(** [QJsonDocument::toJson(Compact)] and [QJsonDocument::fromJson]. *)
Class JsonText := {
  toText : QJsonObject → string;
  fromText : string → option QJsonObject;       (* an object, or nothing *)
}.

(** Absent keys, truth values and texts. *)
Definition scalar (v : QJson) : bool :=
  match v with JUndefined | JBool _ | JString _ => true | _ => false end.

(** What Qt documents: compact text reads back (as far as needed here), is not
    empty, and has no line break and no white space at its ends. *)
Class JsonTextLaws (jt : JsonText) := {
  text_parses o : ∃ o', fromText (toText o) = Some o' ∧ ∀ k, scalar (value o k) = true → value o' k = value o k;
  text_no_newline o : has_char newline_char (toText o) = false;
  text_trimmed o : trimmed (toText o) = toText o;
  text_nonempty o : toText o ≠ "";
}.

(** [write]: the object's text and a line break. *)
Definition written {jt : JsonText} (o : QJsonObject) : string := toText o +:+ String newline_char "".

(** ** Specification *)

(** The complete lines of a text, the commands among them, and the last line,
    which is not complete yet. *)
Definition lines (s : string) : list string := removelast (qsplit newline_char s).
Definition commands (s : string) : list string :=
  List.filter (λ c, negb (String.eqb c "")) (map trimmed (lines s)).
Definition partial (s : string) : string := List.last (qsplit newline_char s) "".

(** The text of a sequence of chunks. *)
Definition joined (chunks : list string) : string := foldr String.append "" chunks.

(** The handler returns, whatever the command and its state. *)
Definition handler_total {St Ev E} (h : string → M St Ev E unit) : Prop :=
  ∀ c s, ∃ s' t, h c s = (Ok tt, s', t).

(** ** Lemmas *)

#[local] Arguments Ascii.eqb _ _ : simpl never.

Lemma qsplit_nonempty c s : qsplit c s ≠ [].
Proof. destruct s as [|d s]; simpl; [done|]. destruct (Ascii.eqb c d); [done|]. by destruct (qsplit c s). Qed.

Lemma cut_None s : cut s = None → lines s = [] ∧ partial s = s.
Proof.
  unfold lines, partial. induction s as [|c s IH]; [done|]. simpl.
  destruct (Ascii.eqb newline_char c); [done|]. destruct (cut s) as [[]|]; [done|]. intros _.
  destruct (IH eq_refl) as [Hl Hp]. destruct (qsplit newline_char s) as [|h [|h' t]] eqn:Hq; simpl in *; by subst.
Qed.

Lemma cut_Some s l r : cut s = Some (l, r) →
  lines s = l :: lines r ∧ partial s = partial r ∧ (String.length r < String.length s)%nat.
Proof.
  unfold lines, partial. revert l. induction s as [|c s IH]; intros l; [done|]. simpl.
  destruct (Ascii.eqb newline_char c).
  - intros [= <- <-]. pose proof (qsplit_nonempty newline_char s).
    destruct (qsplit newline_char s) as [|h t]; [done|]. simpl. split_and!; [done..|lia].
  - destruct (cut s) as [[l' r']|]; [|done]. intros [= <- <-].
    destruct (IH l' eq_refl) as (Hl & Hp & Hlen). pose proof (qsplit_nonempty newline_char s).
    destruct (qsplit newline_char s) as [|h [|h' t]]; [done|done|]. simpl in *. injection Hl as -> Hl.
    split_and!; [by rewrite Hl|done|lia].
Qed.

Lemma commands_cut s l r : cut s = Some (l, r) →
  commands s = (if String.eqb (trimmed l) "" then [] else [trimmed l]) ++ commands r.
Proof.
  intros (Hl & _ & _)%cut_Some. unfold commands. rewrite Hl. simpl. by destruct (String.eqb (trimmed l) "").
Qed.

Lemma commands_None s : cut s = None → commands s = [].
Proof. intros [Hl _]%cut_None. unfold commands. by rewrite Hl. Qed.

(** Cutting a text that arrives in two pieces. *)
Lemma cut_app s t l r : cut s = Some (l, r) → cut (s +:+ t) = Some (l, r +:+ t).
Proof.
  revert l. induction s as [|c s IH]; intros l; [done|]. simpl.
  destruct (Ascii.eqb newline_char c); [by intros [= <- <-]|].
  destruct (cut s) as [[l' r']|]; [|done]. intros [= <- <-]. by rewrite (IH l').
Qed.

Lemma commands_app s t :
  commands (s +:+ t) = commands s ++ commands (partial s +:+ t) ∧
  partial (s +:+ t) = partial (partial s +:+ t).
Proof.
  remember (String.length s) as n eqn:Hn. revert s Hn. induction (lt_wf n) as [n _ IH]. intros s ->.
  destruct (cut s) as [[l r]|] eqn:Hc.
  - pose proof (cut_Some _ _ _ Hc) as (_ & Hp & Hlen). pose proof (cut_app _ t _ _ Hc) as Hc'.
    destruct (IH _ Hlen r eq_refl) as [Hcmd Hpart].
    rewrite (commands_cut _ _ _ Hc'), (commands_cut _ _ _ Hc), Hcmd, Hp.
    pose proof (cut_Some _ _ _ Hc') as (_ & -> & _). by rewrite <- app_assoc.
  - rewrite (commands_None _ Hc). pose proof (cut_None _ Hc) as [_ ->]. done.
Qed.

Lemma partial_length s : (String.length (partial s) ≤ String.length s)%nat.
Proof.
  remember (String.length s) as n eqn:Hn. revert s Hn. induction (lt_wf n) as [n _ IH]. intros s ->.
  destruct (cut s) as [[l r]|] eqn:Hc.
  - pose proof (cut_Some _ _ _ Hc) as (_ & -> & Hlen). specialize (IH _ Hlen r eq_refl). lia.
  - by pose proof (cut_None _ Hc) as [_ ->].
Qed.

Lemma partial_cut s : partial s = s → cut s = None.
Proof.
  intros Hs. destruct (cut s) as [[l r]|] eqn:Hc; [|done].
  pose proof (cut_Some _ _ _ Hc) as (_ & Hp & Hlen). pose proof (partial_length r). rewrite <- Hp, Hs in H. lia.
Qed.

Lemma partial_idem s : partial (partial s) = partial s.
Proof. pose proof (commands_app s "") as [_ H]. by rewrite !sapp_nil_r in H. Qed.

Section Runs.
  Context {St Ev E : Type} (h : string → M St Ev E unit) (Hh : handler_total h).

Lemma for_each_total l s : ∃ s' t, for_each l h s = (Ok tt, s', t).
Proof.
  revert s. induction l as [|c l IH]; intros s; [by eexists _, _|]. cbn [for_each]. unfold mbind, M_bind.
  destruct (Hh c s) as (s1 & t1 & ->). destruct (IH s1) as (s2 & t2 & ->). by eexists _, _.
Qed.

Lemma for_each_app_run l1 l2 s s1 t1 s2 t2 :
  for_each l1 h s = (Ok tt, s1, t1) → for_each l2 h s1 = (Ok tt, s2, t2) →
  for_each (l1 ++ l2) h s = (Ok tt, s2, t1 ++ t2).
Proof.
  revert s s1 t1. induction l1 as [|c l1 IH]; intros s s1 t1; [by intros [= <- <-]|].
  cbn [for_each app]. unfold mbind, M_bind. destruct (Hh c s) as (s' & t' & ->).
  destruct (for_each_total l1 s') as (s'' & t'' & Hl). rewrite Hl. intros [= <- <-] H2.
  rewrite (IH _ _ _ Hl H2). by rewrite app_assoc.
Qed.

(** Handling one line is handling the command it holds, if any. *)
Lemma handleLine_run line rest b inc s :
  ∃ s' t, for_each (if String.eqb (trimmed line) "" then [] else [trimmed line]) h s = (Ok tt, s', t) ∧
    handleLine h line rest (mkReader b inc s) = (Ok tt, mkReader rest inc s', t).
Proof.
  unfold handleLine, mbind, M_bind, modify. simpl. destruct (String.eqb (trimmed line) "").
  - by eexists _, _.
  - unfold handle. simpl. unfold mbind, M_bind. destruct (Hh (trimmed line) s) as (s' & t & ->).
    exists s', t. simpl. by rewrite app_nil_r.
Qed.

Lemma drain_run fuel b inc s :
  (String.length b < fuel)%nat →
  ∃ s' t, for_each (commands b) h s = (Ok tt, s', t) ∧
    drain h fuel (mkReader b inc s) = (Ok tt, mkReader (partial b) inc s', t).
Proof.
  revert b s. induction fuel as [|fuel IH]; intros b s Hf; [lia|]. cbn [drain].
  unfold mbind at 1, M_bind at 1, gets. cbn [m_buffer]. destruct (cut b) as [[l r]|] eqn:Hc.
  - pose proof (cut_Some _ _ _ Hc) as (_ & Hp & Hlen).
    destruct (handleLine_run l r b inc s) as (s1 & t1 & Hl & Hrun).
    destruct (IH r s1 ltac:(lia)) as (s2 & t2 & Hr & Hd). exists s2, (t1 ++ t2). split.
    + rewrite (commands_cut _ _ _ Hc). by eapply for_each_app_run.
    + unfold mbind, M_bind. rewrite Hrun, Hd, Hp. done.
  - rewrite (commands_None _ Hc). pose proof (cut_None _ Hc) as [_ ->]. by eexists _, _.
Qed.

Lemma clientReads_run fuel b chunks s :
  (String.length b + String.length (joined chunks) < fuel)%nat → partial b = b →
  ∃ s' t, for_each (commands (b +:+ joined chunks)) h s = (Ok tt, s', t) ∧
    clientReads h fuel (length chunks) (mkReader b chunks s) =
      (Ok tt, mkReader (partial (b +:+ joined chunks)) [] s', t).
Proof.
  revert b s. induction chunks as [|c chunks IH]; intros b s Hf Hb.
  { simpl. rewrite sapp_nil_r, Hb, (commands_None _ (partial_cut _ Hb)). by eexists _, _. }
  cbn [joined foldr] in *. fold (joined chunks) in *. rewrite sapp_length in Hf. rewrite <- sapp_assoc.
  destruct (drain_run fuel (b +:+ c) chunks s) as (s1 & t1 & H1 & Hd); [rewrite sapp_length; lia|].
  pose proof (partial_length (b +:+ c)) as Hlen. rewrite sapp_length in Hlen.
  destruct (IH (partial (b +:+ c)) s1) as (s2 & t2 & H2 & Hr); [lia|apply partial_idem|].
  destruct (commands_app (b +:+ c) (joined chunks)) as [-> ->]. exists s2, (t1 ++ t2). split.
  - by eapply for_each_app_run.
  - cbn [clientReads length]. unfold clientReadData, mbind, M_bind, readAll, modify, setBuffer. simpl.
    rewrite Hd. simpl. unfold mbind, M_bind in Hr. by rewrite Hr.
Qed.

Lemma serverReadData_run fuel b chunks s :
  (String.length b + String.length (joined chunks) + length chunks < fuel)%nat →
  Forall (λ c, c ≠ "") chunks →
  ∃ s' t, for_each (commands (b +:+ joined chunks)) h s = (Ok tt, s', t) ∧
    serverReadData h fuel (mkReader b chunks s) =
      (Ok tt, mkReader (partial (b +:+ joined chunks)) [] s', t).
Proof.
  revert b chunks s. induction fuel as [|fuel IH]; intros b chunks s Hf Hne; [lia|]. cbn [serverReadData].
  unfold mbind at 1, M_bind at 1, gets. cbn [m_buffer]. destruct (cut b) as [[l r]|] eqn:Hc.
  - pose proof (cut_Some _ _ _ Hc) as (_ & _ & Hlen). pose proof (cut_app _ (joined chunks) _ _ Hc) as Hc'.
    destruct (handleLine_run l r b chunks s) as (s1 & t1 & Hl & Hrun).
    destruct (IH r chunks s1 ltac:(lia) Hne) as (s2 & t2 & Hr & Hd). exists s2, (t1 ++ t2).
    pose proof (cut_Some _ _ _ Hc') as (_ & -> & _). rewrite (commands_cut _ _ _ Hc'). split.
    + by eapply for_each_app_run.
    + unfold mbind, M_bind in *. by rewrite Hrun, Hd.
  - destruct chunks as [|c chunks].
    + simpl. rewrite sapp_nil_r, (commands_None _ Hc). pose proof (cut_None _ Hc) as [_ ->]. by eexists _, _.
    + apply Forall_cons_1 in Hne as [Hc0 Hne]. cbn [joined foldr length] in *. fold (joined chunks) in *.
      rewrite sapp_length in Hf. rewrite <- sapp_assoc.
      destruct (IH (b +:+ c) chunks s ltac:(rewrite sapp_length; lia) Hne) as (s1 & t1 & H1 & Hr).
      exists s1, t1. split; [done|]. unfold mbind, M_bind, readAll, modify, setBuffer. simpl.
      destruct (String.eqb_spec c ""); [done|]. simpl. unfold mbind, M_bind in Hr. by rewrite Hr.
Qed.

End Runs.

(** A written message is one line with one command. *)
Lemma commands_written {jt : JsonText} {laws : JsonTextLaws jt} msgs :
  commands (joined (map written msgs)) = map toText msgs ∧ partial (joined (map written msgs)) = "".
Proof.
  induction msgs as [|o msgs [IH1 IH2]]; [done|]. cbn [map joined foldr]. fold (joined (map written msgs)).
  unfold written at 1 3. rewrite sapp_assoc.
  change (String newline_char "" +:+ joined (map written msgs)) with (String newline_char (joined (map written msgs))).
  assert (∀ s t, has_char newline_char s = false → cut (s +:+ String newline_char t) = Some (s, t)) as Hcut.
  { intros s t. induction s as [|c s IH]; intros Hc; [reflexivity|].
    change (String c s +:+ String newline_char t) with (String c (s +:+ String newline_char t)).
    cbn [cut has_char] in *. apply orb_false_iff in Hc as [-> Hc]. by rewrite IH. }
  specialize (Hcut (toText o) (joined (map written msgs)) (text_no_newline o)).
  rewrite (commands_cut _ _ _ Hcut). pose proof (cut_Some _ _ _ Hcut) as (_ & -> & _).
  rewrite text_trimmed, IH1. split; [|done].
  destruct (String.eqb_spec (toText o) ""); [by apply text_nonempty in e|done].
Qed.

Lemma written_nonempty {jt : JsonText} {laws : JsonTextLaws jt} o : written o ≠ "".
Proof. unfold written. pose proof (text_nonempty o). by destruct (toText o). Qed.

(** ** A concrete text for JSON

    Objects as decimal numbers: not the format of the program, but one that
    satisfies the laws. *)
Module SimJson.

Definition leaf : Type := bool + (Z * Z) + string.

Fixpoint to_tree (v : QJson) : gen_tree leaf :=
  match v with
  | JUndefined => GenNode 0 []
  | JNull => GenNode 1 []
  | JBool b => GenLeaf (inl (inl b))
  | JDouble m e => GenLeaf (inl (inr (m, e)))
  | JString s => GenLeaf (inr s)
  | JArray l => GenNode 2 (map to_tree l)
  | JObject l => GenNode 3 (flat_map (λ kv, [GenLeaf (inr kv.1); to_tree kv.2]) l)
  end.

(** Keys and values alternate. *)
Fixpoint pair_up (l : list QJson) : QJsonObject :=
  match l with
  | JString k :: v :: l => (k, v) :: pair_up l
  | _ => []
  end.

Fixpoint of_tree (t : gen_tree leaf) : QJson :=
  match t with
  | GenLeaf (inl (inl b)) => JBool b
  | GenLeaf (inl (inr (m, e))) => JDouble m e
  | GenLeaf (inr s) => JString s
  | GenNode 0 _ => JUndefined
  | GenNode 1 _ => JNull
  | GenNode 2 l => JArray (map of_tree l)
  | GenNode _ l => JObject (pair_up (map of_tree l))
  end.

Fixpoint of_to (v : QJson) : of_tree (to_tree v) = v.
Proof.
  destruct v as [| | | | |l|l]; try reflexivity; cbn [to_tree of_tree]; f_equal.
  - induction l as [|v l IH]; [done|]. cbn [map]. rewrite of_to, IH. reflexivity.
  - induction l as [|[k v] l IH]; [done|]. cbn [flat_map map app fst snd of_tree pair_up]. rewrite of_to, IH. reflexivity.
Qed.

Definition number (o : QJsonObject) : positive := encode (to_tree (JObject o)).

#[global] Instance text : JsonText := {
  toText o := pretty (N.pos (number o));
  fromText s :=
    match js_Number s with
    | Dec z _ =>
        match of_tree <$> decode (Z.to_pos z) with
        | Some (JObject o) => Some o
        | _ => None
        end
    | _ => None
    end;
}.

Lemma digits_no_newline s : sforall is_digit s = true → has_char newline_char s = false.
Proof.
  induction s as [|c s IH]; [done|]. cbn [sforall has_char]. intros [Hc Hs]%andb_prop.
  rewrite IH by done. rewrite Ascii.eqb_sym. change newline_char with newline. by rewrite digit_not_newline.
Qed.

Lemma digit_not_space' c : is_digit c = true → is_space c = false.
Proof. destruct c as [[] [] [] [] [] [] [] []]; vm_compute; congruence. Qed.

Lemma digits_trimmed s : sforall is_digit s = true → trimmed s = s.
Proof.
  assert (∀ s, sforall is_digit s = true → trim_right s = s) as Hr.
  { intros s'. induction s' as [|c s' IH]; [done|]. cbn [sforall trim_right]. intros [Hc Hs]%andb_prop.
    rewrite IH by done. destruct s'; [by rewrite digit_not_space'|done]. }
  intros Hs. unfold trimmed. destruct s as [|c s]; [done|]. cbn [trim_left].
  cbn [sforall] in Hs. pose proof (andb_prop _ _ Hs) as [Hc _]. rewrite digit_not_space' by done. by apply Hr.
Qed.

Lemma roundtrip o : fromText (toText o) = Some o.
Proof.
  simpl. rewrite js_Number_pretty. cbn [Z.of_N Z.to_pos]. unfold number. rewrite decode_encode.
  unfold fmap, option_fmap, option_map. by rewrite of_to.
Qed.

#[global] Instance laws : JsonTextLaws text.
Proof.
  split; intros o; try destruct (pretty_N_digits (N.pos (number o))) as (Hd & _ & Hne).
  - exists o. split; [apply roundtrip|done].
  - by apply digits_no_newline.
  - by apply digits_trimmed.
  - done.
Qed.

End SimJson.
