(* ===== verification/QtText.v ===== *)
(** * Texts

    The functions of [QString] that search, split and replace texts, with the lemmas about
    texts made of known parts: an occurrence of a pattern does not reach across a part
    that shares no character with it. *)

From stdpp Require Import prelude strings list.
From Stdlib Require Import ZArith Lia Ascii.
From S2P Require Import Prelude QtJson InterfaceConfig LineProtocol.

(** ** Functions *)

(** [contains(QString)] *)
Fixpoint containsText (p s : string) : bool :=
  String.prefix p s || match s with EmptyString => false | String _ s => containsText p s end.

(** Puts a character in front of the first part. *)
Definition cons_part (a : ascii) (l : list string) : list string :=
  match l with x :: l => String a x :: l | [] => [String a ""] end.

(** [split(QString)] for a separator that is not empty; the next [skip] characters belong to
    a separator already found. *)
Fixpoint split_from (sep : string) (skip : nat) (s : string) : list string :=
  match s with
  | EmptyString => [""]
  | String a s' =>
      match skip with
      | S n => split_from sep n s'
      | O => if String.prefix sep s then "" :: split_from sep (String.length sep - 1) s' else cons_part a (split_from sep 0 s')
      end
  end.
Definition splitText (sep s : string) : list string := split_from sep 0 s.

(** [Qt::SkipEmptyParts] *)
Definition skipEmpty (l : list string) : list string := List.filter (λ x, negb (String.eqb x "")) l.

(** [replace(QString, QString)] *)
Definition replaceText (before after s : string) : string := join after (splitText before s).

(** [simplified] *)
Fixpoint words (s : string) : list string :=
  match s with
  | EmptyString => [""]
  | String a s => if is_space a then "" :: words s else cons_part a (words s)
  end.
Definition simplified (s : string) : string := join " " (skipEmpty (words s)).

(** ** Characters of texts *)

Fixpoint all_chars (P : ascii → bool) (s : string) : bool :=
  match s with EmptyString => true | String a s => P a && all_chars P s end.

Lemma all_chars_app P s t : all_chars P (s +:+ t) = all_chars P s && all_chars P t.
Proof. induction s as [|a s IH]; [done|]. cbn. by rewrite IH, andb_assoc. Qed.

Lemma all_chars_impl P Q s : (∀ a, P a = true → Q a = true) → all_chars P s = true → all_chars Q s = true.
Proof. intros H. induction s as [|a s IH]; [done|]. cbn. intros [? ?]%andb_prop. rewrite H by done. by apply IH. Qed.

Lemma all_chars_has P c s : P c = false → all_chars P s = true → has_char c s = false.
Proof.
  intros Hc. induction s as [|a s IH]; [done|]. cbn. intros [Ha Hs]%andb_prop. rewrite IH by done.
  destruct (Ascii.eqb_spec c a) as [->|]; [congruence|done].
Qed.

(** Texts without a character in common. *)
Definition apart (s t : string) : bool := all_chars (λ a, negb (has_char a s)) t.

(** ** Searching *)

Lemma prefix_spec p s : String.prefix p s = true ↔ ∃ t, s = p +:+ t.
Proof.
  revert s. induction p as [|a p IH]; intros s; [split; [intros _; by exists s|intros _; by destruct s]|]. destruct s as [|b s]; cbn; [split; [done|by intros [t [=]]]|].
  destruct (ascii_dec a b) as [->|Hne]; [|split; [done|intros [t Ht]; congruence]]. rewrite IH. split; intros [t Ht]; exists t; [by rewrite Ht|by injection Ht].
Qed.

Lemma contains_spec p s : containsText p s = true ↔ ∃ u v, s = u +:+ p +:+ v.
Proof.
  induction s as [|a s IH]; cbn [containsText]; rewrite orb_true_iff, prefix_spec.
  - split; [|intros (u & v & H)].
    + intros [[t Ht]|[=]]. by exists "", t.
    + destruct u; [|done]. left. by exists v.
  - rewrite IH. split.
    + intros [[t ->]|(u & v & ->)]; [by exists "", t|]. by exists (String a u), v.
    + intros (u & v & H). destruct u as [|b u]; [left; by exists v|]. injection H as -> ->. right. by exists u, v.
Qed.

Lemma sapp_inv s1 s2 t1 t2 : s1 +:+ s2 = t1 +:+ t2 → (∃ u, t1 = s1 +:+ u ∧ s2 = u +:+ t2) ∨ (∃ u, s1 = t1 +:+ u ∧ t2 = u +:+ s2).
Proof.
  revert t1. induction s1 as [|a s1 IH]; intros t1 H; [left; by exists t1|]. destruct t1 as [|b t1]; [right; by exists (String a s1)|].
  injection H as -> H. destruct (IH t1 H) as [(u & -> & ->)|(u & -> & ->)]; [left|right]; by exists u.
Qed.

Lemma contains_app_l p s t : containsText p s = true → containsText p (s +:+ t) = true.
Proof. rewrite !contains_spec. intros (u & v & ->). exists u, (v +:+ t). by rewrite !sapp_assoc. Qed.
Lemma contains_app_r p s t : containsText p t = true → containsText p (s +:+ t) = true.
Proof. rewrite !contains_spec. intros (u & v & ->). exists (s +:+ u), v. by rewrite !sapp_assoc. Qed.

(** An occurrence lies on one side of a part without its characters. *)
Lemma contains_around p s g t : g ≠ "" → p ≠ "" → apart p g = true → containsText p (s +:+ g +:+ t) = containsText p s || containsText p t.
Proof.
  intros Hg Hp Hapart. destruct (containsText p s || containsText p t) eqn:E.
  - apply orb_true_iff in E as [E|E]; [by apply contains_app_l|by apply contains_app_r, contains_app_r].
  - apply orb_false_iff in E as [E1 E2]. apply not_true_is_false. rewrite contains_spec. intros (u & v & H).
    assert (∀ x a g', g = x +:+ String a g' → has_char a p = false) as Hno.
    { intros x a g' ->. unfold apart in Hapart. rewrite all_chars_app in Hapart. cbn in Hapart. by apply andb_prop in Hapart as [_ [?%negb_true_iff _]%andb_prop]. }
    assert (∀ x a y, p = x +:+ String a y → has_char a p = true) as Hyes.
    { intros x a y ->. rewrite has_char_app. cbn. by rewrite Ascii.eqb_refl, orb_true_r. }
    apply sapp_inv in H as [(x & -> & H)|(x & -> & H)].
    + (* begins in or after [g] *)
      apply sapp_inv in H as [(y & -> & ->)|(y & -> & H)].
      * assert (containsText p (y +:+ p +:+ v) = true) by (apply contains_spec; eauto). congruence.
      * destruct y as [|a y].
        { rewrite sapp_nil_r in *. cbn in H. assert (containsText p t = true); [|congruence]. rewrite <- H. by apply (contains_app_l p p v), contains_spec; exists "", ""; rewrite sapp_nil_r. }
        destruct p as [|b p]; [done|]. injection H as Hab _. subst b.
        pose proof (Hno x a y eq_refl) as H1. pose proof (Hyes "" a p eq_refl) as H2. congruence.
    + (* begins in [s] *)
      apply sapp_inv in H as [(y & -> & ->)|(y & -> & H)].
      * assert (containsText p (u +:+ p +:+ y) = true) by (apply contains_spec; eauto). congruence.
      * destruct y as [|a y].
        { rewrite sapp_nil_r in *. assert (containsText x (u +:+ x) = true); [|congruence]. apply contains_spec. exists u, "". by rewrite sapp_nil_r. }
        destruct g as [|b g]; [done|]. injection H as Hab _. subst b.
        pose proof (Hno "" a g eq_refl) as H1. pose proof (Hyes x a y eq_refl) as H2. congruence.
Qed.

(** A part of a pattern that does not occur. *)
Lemma contains_part p0 p s : containsText p0 p = true → containsText p0 s = false → containsText p s = false.
Proof.
  intros H0 Hs. apply not_true_is_false. rewrite contains_spec. intros (u & v & ->).
  by rewrite (contains_app_r p0 u (p +:+ v)) in Hs by (by apply contains_app_l).
Qed.

(** ** Tidy texts: single blanks between words *)

Fixpoint tidy (blank : bool) (s : string) : bool :=
  match s with
  | EmptyString => negb blank
  | String a s => if Ascii.eqb a " " then negb blank && tidy true s else negb (is_space a) && tidy false s
  end.

Definition blackChars : string → bool := all_chars (λ a, negb (is_space a)).

Lemma tidy_word b w s : w ≠ "" → blackChars w = true → tidy b (w +:+ s) = tidy false s.
Proof.
  revert b. induction w as [|a w IH]; intros b Hw Hb; [done|]. cbn in Hb. apply andb_prop in Hb as [Ha Hb]. cbn.
  destruct (Ascii.eqb_spec a " ") as [->|]; [done|]. rewrite Ha. destruct w as [|c w]; [done|]. by apply IH.
Qed.

Lemma skipEmpty_cons h l : h ≠ "" → skipEmpty (h :: l) = h :: skipEmpty l.
Proof. intros H. unfold skipEmpty. cbn [List.filter]. by rewrite (proj2 (String.eqb_neq h "") H). Qed.

Lemma tidy_words b s e : tidy b s = true → e = "" ∨ e = nl →
  ∃ h l, words (s +:+ e) = h :: l ∧ join " " (h :: skipEmpty l) = s ∧ (b = true → h ≠ "").
Proof.
  intros Hs He. revert b Hs. induction s as [|a s IH]; intros b Hs; cbn in Hs.
  { destruct b; [done|]. destruct He as [->| ->]; [by exists "", []|by exists "", [""]]. }
  cbn [String.append words]. destruct (Ascii.eqb_spec a " ") as [->|Hne].
  - apply andb_prop in Hs as [Hb Hs]. destruct (IH true Hs) as (h & l & E & Hj & Hh). specialize (Hh eq_refl).
    exists "", (h :: l). cbn [is_space]. rewrite E. split; [done|]. split; [|by destruct b]. rewrite skipEmpty_cons by done.
    change (join " " ("" :: h :: skipEmpty l)) with (String " " (join " " (h :: skipEmpty l))). by rewrite Hj.
  - apply andb_prop in Hs as [Ha Hs]. apply negb_true_iff in Ha. rewrite Ha. destruct (IH false Hs) as (h & l & E & Hj & _). rewrite E.
    exists (String a h), l. split; [done|]. split; [|done]. rewrite <- Hj. by destruct (skipEmpty l).
Qed.

Lemma simplified_tidy s e : tidy true s = true → e = "" ∨ e = nl → simplified (s +:+ e) = s.
Proof.
  intros Hs He. destruct (tidy_words true s e Hs He) as (h & l & E & Hj & Hh). specialize (Hh eq_refl). unfold simplified.
  by rewrite E, skipEmpty_cons.
Qed.

(** ** Splitting *)

Lemma split_apart sep s t : sep ≠ "" → containsText sep s = false → (∀ u v x, sep = u +:+ v → s = x +:+ u → u = "" ∨ v = "") →
  splitText sep (s +:+ sep +:+ t) = s :: splitText sep t.
Proof.
  intros Hsep. unfold splitText. assert (∀ x, split_from sep (String.length x) (x +:+ t) = split_from sep 0 t) as Hskip by (by induction x).
  induction s as [|a s IH]; intros Hc Hcross.
  - cbn [String.append]. destruct sep as [|b sep]; [done|]. cbn [String.append split_from].
    assert (String.prefix (String b sep) (String b (sep +:+ t)) = true) as -> by (apply prefix_spec; by exists t).
    cbn [String.length Nat.sub]. by rewrite Nat.sub_0_r, Hskip.
  - cbn [String.append split_from]. cbn [containsText] in Hc. apply orb_false_iff in Hc as [Hp Hc].
    destruct (String.prefix sep (String a (s +:+ sep +:+ t))) eqn:E.
    + exfalso. apply prefix_spec in E as [y Hy]. change (String a (s +:+ sep +:+ t)) with (String a s +:+ sep +:+ t) in Hy. apply sapp_inv in Hy as [(u & Hu & Hv)|(u & Hu & Hv)].
      * destruct (Hcross (String a s) u "" Hu eq_refl) as [[=]| ->]. rewrite sapp_nil_r in Hu. apply not_true_iff_false in Hp. apply Hp, prefix_spec. exists "". by rewrite sapp_nil_r.
      * apply not_true_iff_false in Hp. apply Hp, prefix_spec. by exists u.
    + rewrite IH; [done|done|]. intros u v x H1 ->. apply (Hcross u v (String a x)); done.
Qed.

Lemma split_none sep s : containsText sep s = false → splitText sep s = [s].
Proof.
  unfold splitText. induction s as [|a s IH]; intros Hc; [done|]. cbn [containsText] in Hc. apply orb_false_iff in Hc as [Hp Hc]. cbn [split_from]. by rewrite Hp, IH.
Qed.

(** ** Patterns and their first character *)

Lemma prefix_head a p s : has_char a s = false → String.prefix (String a p) s = false.
Proof. destruct s as [|b s]; [done|]. cbn. intros [Hb _]%orb_false_iff. destruct (ascii_dec a b) as [->|]; [|done]. by rewrite Ascii.eqb_refl in Hb. Qed.

Lemma prefix_differs a b p s : a ≠ b → String.prefix (String a p) (String b s) = false.
Proof. intros H. cbn. by destruct (ascii_dec a b). Qed.

Lemma has_char_cons c a s : has_char c (String a s) = false → c ≠ a ∧ has_char c s = false.
Proof. cbn. intros [Ha Hs]%orb_false_iff. split; [|done]. intros ->. by rewrite Ascii.eqb_refl in Ha. Qed.

Lemma contains_skip a p s t : has_char a s = false → containsText (String a p) (s +:+ t) = containsText (String a p) t.
Proof.
  induction s as [|b s IH]; [done|]. intros [Hb Hs]%has_char_cons. change (String b s +:+ t) with (String b (s +:+ t)). cbn [containsText].
  by rewrite prefix_differs, IH.
Qed.

Lemma contains_absent a p s : has_char a s = false → containsText (String a p) s = false.
Proof. intros H. rewrite <- (sapp_nil_r s). by rewrite contains_skip. Qed.

Lemma split_skip a p s t : has_char a s = false → splitText (String a p) (s +:+ String a p +:+ t) = s :: splitText (String a p) t.
Proof.
  intros Hs. apply split_apart; [done|by apply contains_absent|]. intros u v x Hu ->. destruct u as [|b u]; [by left|].
  injection Hu as <- _. rewrite has_char_app in Hs. cbn in Hs. by rewrite Ascii.eqb_refl, orb_true_r in Hs.
Qed.

Lemma replace_absent before after s : containsText before s = false → replaceText before after s = s.
Proof. intros H. unfold replaceText. by rewrite split_none. Qed.

Lemma replace_once a p after s t : has_char a s = false → containsText (String a p) t = false →
  replaceText (String a p) after (s +:+ String a p +:+ t) = s +:+ after +:+ t.
Proof. intros Hs Ht. unfold replaceText. by rewrite split_skip, split_none. Qed.

(** Patterns that differ where both have a character. *)
Definition diverge (p q : string) : bool := negb (String.prefix p q) && negb (String.prefix q p).

Lemma prefix_diverge p q t : diverge p q = true → String.prefix p (q +:+ t) = false.
Proof.
  unfold diverge. rewrite andb_true_iff, !negb_true_iff. intros [H1 H2]. apply not_true_is_false. rewrite prefix_spec. intros [u Hu].
  apply not_true_iff_false in H1, H2. rewrite prefix_spec in H1, H2. apply sapp_inv in Hu as [(x & -> & _)|(x & -> & _)]; eauto.
Qed.

Lemma split_join a ws : ws ≠ [] → Forall (λ w, has_char a w = false) ws → splitText (String a "") (join (String a "") ws) = ws.
Proof.
  intros Hne. induction 1 as [|w ws Hw Hws IH]; [done|]. destruct ws as [|w' ws].
  - cbn [join]. apply split_none. by apply contains_absent.
  - change (join (String a "") (w :: w' :: ws)) with (w +:+ String a "" +:+ join (String a "") (w' :: ws)). rewrite split_skip by done. by rewrite IH.
Qed.

(** ** Texts in lines *)

Lemma split_char_app a s t : splitText (String a "") (s +:+ String a t) = splitText (String a "") s ++ splitText (String a "") t.
Proof.
  unfold splitText. assert (∀ b x, String.prefix (String a "") (String b x) = Ascii.eqb a b) as Hp.
  { intros b x. cbn. destruct (ascii_dec a b) as [->|Hne]; [by rewrite Ascii.eqb_refl; destruct x|]. symmetry. by apply Ascii.eqb_neq. }
  induction s as [|b s IH]; cbn [String.append split_from]; rewrite ?Hp; [by rewrite Ascii.eqb_refl|].
  destruct (Ascii.eqb a b); cbn [String.length Nat.sub]; rewrite IH; [done|].
  assert (split_from (String a "") 0 s ≠ []) as Hne.
  { clear. induction s as [|c s IH]; [done|]. cbn [split_from]. case_match; [done|]. by destruct (split_from _ 0 s). }
  by destruct (split_from (String a "") 0 s).
Qed.

(** The replacement, without the parts in between. *)
Fixpoint replace_from (before after : string) (skip : nat) (s : string) : string :=
  match s with
  | EmptyString => ""
  | String a s' =>
      match skip with
      | S n => replace_from before after n s'
      | O => if String.prefix before s then after +:+ replace_from before after (String.length before - 1) s' else String a (replace_from before after 0 s')
      end
  end.

Lemma split_from_ne sep k s : split_from sep k s ≠ [].
Proof.
  revert k. induction s as [|a s IH]; intros k; [done|]. cbn [split_from]. destruct k as [|k]; [|apply IH]. case_match; [done|].
  specialize (IH 0). by destruct (split_from sep 0 s).
Qed.

Lemma replace_from_spec before after k s : join after (split_from before k s) = replace_from before after k s.
Proof.
  revert k. induction s as [|a s IH]; intros k; [done|]. cbn [split_from replace_from]. destruct k as [|k]; [|apply IH].
  destruct (String.prefix before (String a s)).
  - rewrite <- IH. pose proof (split_from_ne before (String.length before - 1) s). by destruct (split_from before _ s).
  - rewrite <- IH. pose proof (split_from_ne before 0 s). destruct (split_from before 0 s) as [|x [|y l]]; done.
Qed.

Lemma prefix_app_char c p s t : has_char c p = false → String.prefix p (s +:+ String c t) = String.prefix p s.
Proof.
  revert s. induction p as [|a p IH]; intros s Hp; [by destruct s|]. apply has_char_cons in Hp as [Hca Hp]. destruct s as [|b s]; cbn.
  - destruct (ascii_dec a c); congruence.
  - by destruct (ascii_dec a b); [apply IH|].
Qed.

Lemma prefix_length p s : String.prefix p s = true → (String.length p ≤ String.length s)%nat.
Proof. rewrite prefix_spec. intros [t ->]. rewrite sapp_length. lia. Qed.

(** A pattern is not found across a character it does not have. *)
Lemma replace_from_app before after k s c t : before ≠ "" → has_char c before = false → (k ≤ String.length s)%nat →
  replace_from before after k (s +:+ String c t) = replace_from before after k s +:+ String c (replace_from before after 0 t).
Proof.
  intros Hne Hc. revert k. induction s as [|a s IH]; intros k Hk; cbn [String.append].
  - destruct k as [|k]; [|cbn in Hk; lia]. cbn [replace_from]. assert (String.prefix before (String c t) = false) as ->; [|done].
    destruct before as [|b before]; [done|]. apply has_char_cons in Hc as [Hcb _]. apply prefix_differs. congruence.
  - cbn [replace_from]. cbn in Hk. destruct k as [|k]; [|apply IH; lia].
    change (String a (s +:+ String c t)) with (String a s +:+ String c t). rewrite prefix_app_char by done.
    destruct (String.prefix before (String a s)) eqn:E; [|by rewrite IH by lia].
    apply prefix_length in E. cbn in E. rewrite IH by (destruct before; cbn in *; lia). by rewrite sapp_assoc.
Qed.

Lemma replace_app before after s c t : before ≠ "" → has_char c before = false →
  replaceText before after (s +:+ String c t) = replaceText before after s +:+ String c (replaceText before after t).
Proof. intros. unfold replaceText, splitText. rewrite !replace_from_spec. apply replace_from_app; [done|done|lia]. Qed.

(** ** Numerals *)

(** Numbers and IPv4 addresses. *)
Definition numchar (a : ascii) : bool := Ascii.eqb a "." || ((48 <=? nat_of_ascii a)%nat && (nat_of_ascii a <=? 57)%nat).
Definition numeral (s : string) : bool := negb (String.eqb s "") && all_chars numchar s.

Lemma numeral_nonempty s : numeral s = true → s ≠ "".
Proof. intros [H _]%andb_prop ->. done. Qed.

Lemma numeral_lacks P s : numeral s = true → (∀ a, numchar a = true → P a = true) → all_chars P s = true.
Proof. intros [_ H]%andb_prop HP. by apply (all_chars_impl numchar). Qed.

Lemma numeral_char c s : numeral s = true → numchar c = false → has_char c s = false.
Proof. intros [_ H]%andb_prop Hc. by apply (all_chars_has numchar). Qed.

(** ** Patterns and lengths *)

Lemma contains_long p s : (String.length s < String.length p)%nat → containsText p s = false.
Proof. intros H. apply not_true_is_false. rewrite contains_spec. intros (u & v & ->). rewrite !sapp_length in H. lia. Qed.

Lemma contains_same p s : String.length p = String.length s → containsText p s = String.eqb p s.
Proof.
  intros H. destruct (String.eqb_spec p s) as [->|Hne]; [apply contains_spec; exists "", ""; by rewrite sapp_nil_r|].
  apply not_true_is_false. rewrite contains_spec. intros (u & v & ->). rewrite !sapp_length in H. destruct u; [|cbn in H; lia].
  destruct v; [|cbn in H; lia]. by rewrite sapp_nil_r in Hne.
Qed.

Lemma contains_sep c p s t : p ≠ "" → has_char c p = false → containsText p (s +:+ String c t) = containsText p s || containsText p t.
Proof. intros Hp Hc. apply (contains_around p s (String c "") t); [done|done|]. unfold apart. cbn. by rewrite Hc. Qed.

Lemma contains_short c p s t : (String.length s < String.length p)%nat → has_char c p = false → containsText p (s +:+ String c t) = containsText p t.
Proof. intros Hl Hc. rewrite contains_sep by (done || (intros ->; cbn in Hl; lia)). by rewrite contains_long. Qed.
