(* ===== verification/SecureSettings.v ===== *)
(** * The application's settings store

    Models the class [SecureQSettings] of [src/client/secure_qsettings.cpp] and
    [secure_qsettings.h]: a cache over [QSettings] in which the list of servers,
    with its keys and passwords, is kept encrypted under a key from the system's
    key storage.  [QSettings] is a map of variants; what a restart of the program
    makes of a variant is the parameter [reload].  The cipher (QSimpleCrypto), the
    key storage (QtKeychain), [QDataStream] and the JSON conversions of
    [QVariant] are the fields of the class [SecretEnv]. *)

From stdpp Require Import prelude strings list gmap pretty countable.
From Stdlib Require Import ZArith Lia Ascii.
From S2P Require Import Prelude JsRuntime IPAddress QtJson InterfaceConfig LineProtocol.

(** ** Variants *)

Inductive QVariant :=
| VInvalid
| VBool (b : bool)
| VInt (n : Z)
| VString (s : string)
| VBytes (b : string)
| VMap (m : list (string * QVariant))
| VJson (l : list QJson).

(** [QVariant::toBool] *)
Definition variantBool (v : QVariant) : bool :=
  match v with
  | VBool b => b
  | VInt n => negb (n =? 0)%Z
  | VString s | VBytes s => variantToBool (Some s)
  | _ => false
  end.

(** ** What the class uses *)

Class SecretEnv (W : Type) := {
  linuxDesktop : bool;                              (* Q_OS_LINUX and not Q_OS_ANDROID *)
  readPassword : string → W → string * W;           (* ReadPasswordJob, empty on error *)
  writePassword : string → string → W → W;          (* WritePasswordJob *)
  generateSalt : Z → W → string * W;                (* QBlockCipher::generatePrivateSalt *)
  encryptAes : string → string → string → string;   (* text, key, iv *)
  decryptAes : string → string → string → string;
  serialize : QVariant → string;                    (* QDataStream << *)
  deserialize : string → QVariant;                  (* QDataStream >> *)
  fromVariant : QVariant → QJson;                   (* QJsonValue::fromVariant *)
  toVariant : QJson → QVariant;                     (* QJsonValue::toVariant *)
  backupText : QJsonObject → string;                (* QJsonDocument::toJson *)
  restoreText : string → QJsonObject;               (* QJsonDocument::fromJson, empty on error *)
  reload : QVariant → QVariant;                     (* written by one run, read by the next *)
}.

(** The secret the key storage holds under a tag. *)
Definition secret {W} {env : SecretEnv W} (tag : string) (w : W) : string := (readPassword tag w).1.

Class SecretLaws {W} (env : SecretEnv W) := {
  decrypt_encrypt d k i : k ≠ "" → i ≠ "" → decryptAes (encryptAes d k i) k i = d;
  deserialize_serialize v : deserialize (serialize v) = v;
  read_keeps t t' w : secret t (readPassword t' w).2 = secret t w;
  write_keeps t t' d w : t ≠ t' → secret t (writePassword t' d w) = secret t w;
  salt_keeps t n w : secret t (generateSalt n w).2 = secret t w;
  reload_bytes b : reload (VBytes b) = VBytes b;
}.

(** ** State *)

Record Secure := mkSecure {
  stored : gmap string QVariant;     (* the QSettings *)
  m_cache : gmap string QVariant;
  m_key : string;
  m_iv : string;
}.

Inductive SEvent :=
| SStore (key : string) (v : QVariant)
| SRemove (key : string)
| SClear
| SSync
| SKeychain (tag data : string).

(** Behaviour C++ leaves undefined. *)
Inductive Undefined := UndefinedBehaviour.

Definition settingsKeyTag : string := "settingsKeyTag".
Definition settingsIvTag : string := "settingsIvTag".
Definition magicString : string := "EncData".
Definition encryptedKeys : list string := ["Servers/serversList"].
Definition m_fieldsToBackup : list string := ["Conf/"; "Servers/"].

Definition setStored (f : gmap string QVariant → gmap string QVariant) (c : Secure) : Secure :=
  mkSecure (f (stored c)) (m_cache c) (m_key c) (m_iv c).
Definition setCache (f : gmap string QVariant → gmap string QVariant) (c : Secure) : Secure :=
  mkSecure (stored c) (f (m_cache c)) (m_key c) (m_iv c).
Definition setKey (k : string) (c : Secure) : Secure := mkSecure (stored c) (m_cache c) k (m_iv c).
Definition setIv (i : string) (c : Secure) : Secure := mkSecure (stored c) (m_cache c) (m_key c) i.

(** [mid(0, magicString.size()) == magicString] of a byte array. *)
Definition marked (v : QVariant) : bool :=
  match v with VBytes b => String.prefix magicString b | _ => false end.

(** [mid(magicString.size())] *)
Definition unmark (b : string) : string :=
  String.substring (String.length magicString) (String.length b - String.length magicString) b.

Module SecureQSettings.
Section SecureQSettings.
  Context {W : Type} {env : SecretEnv W}.

Definition SM (A : Type) : Type := M (Sys Secure W) SEvent Undefined A.

Definition getS {A} (f : Secure → A) : SM A := gets (λ s, f (globals s)).
Definition setS (f : Secure → Secure) : SM unit := modify (λ s, mkSys (f (globals s)) (world s)).

Definition encryptionRequired : bool := negb linuxDesktop.

(** [encryptionRequired() && encryptedKeys.contains(key)] *)
Definition secretKey (key : string) : bool := encryptionRequired && bool_decide (key ∈ encryptedKeys).

(** [m_settings.setValue] *)
Definition store (key : string) (v : QVariant) : SM unit :=
  setS (setStored (insert key v));; emit (SStore key v).

Definition cache (key : string) (v : QVariant) : SM unit := setS (setCache (insert key v)).

(** *** Secrets *)

Definition getSecTag (tag : string) : SM string := λ s,
  let '(b, w) := readPassword tag (world s) in (Ok b, mkSys (globals s) w, []).

Definition setSecTag (tag data : string) : SM unit := act (writePassword tag data) (SKeychain tag data).

Definition generatePrivateSalt (n : Z) : SM string := λ s,
  let '(b, w) := generateSalt n (world s) in (Ok b, mkSys (globals s) w, []).

(** The common body of [getEncKey] and [getEncIv], which differ in the tag and
    the member they set. *)
Definition loadSecret (tag : string) (set : string → Secure → Secure) : SM string :=
  k ← getSecTag tag;
  setS (set k);;
  if String.eqb k "" then
    key ← generatePrivateSalt 32;
    setSecTag tag key;;
    k' ← getSecTag tag;
    setS (set k');;
    mret (if String.eqb key k' then k' else "")
  else mret k.

Definition getEncKey : SM string := loadSecret settingsKeyTag setKey.
Definition getEncIv : SM string := loadSecret settingsIvTag setIv.

(** [!getEncKey().isEmpty() && !getEncIv().isEmpty()] *)
Definition haveSecrets : SM bool :=
  k ← getEncKey;
  if String.eqb k "" then mret false
  else i ← getEncIv; mret (negb (String.eqb i "")).

Definition encryptText (text : string) : SM string :=
  k ← getEncKey; i ← getEncIv; mret (encryptAes text k i).
Definition decryptText (text : string) : SM string :=
  k ← getEncKey; i ← getEncIv; mret (decryptAes text k i).

(** *** Values *)

Definition value (key : string) (defaultValue : QVariant) : SM QVariant :=
  c ← getS m_cache;
  match c !! key with
  | Some v => mret v
  | None =>
      st ← getS stored;
      match st !! key with
      | None => mret defaultValue
      | Some v =>
          match v with
          | VBytes b =>
              if marked v then
                ok ← haveSecrets;
                if ok : bool then
                  text ← decryptText (unmark b);
                  cache key (deserialize text);; mret (deserialize text)
                else mret VInvalid
              else cache key v;; mret v
          | _ => cache key v;; mret v
          end
      end
  end.

Definition setValue (key : string) (v : QVariant) : SM unit :=
  if secretKey key then
    ok ← haveSecrets;
    if ok : bool then
      e ← encryptText (serialize v);
      store key (VBytes (magicString +:+ e));;
      cache key v;; emit SSync
    else mret tt
  else store key v;; cache key v;; emit SSync.

Definition remove (key : string) : SM unit :=
  setS (setStored (delete key));; emit (SRemove key);; setS (setCache (delete key));; emit SSync.

Definition clearSettings : SM unit :=
  setS (setStored (λ _, ∅));; emit SClear;; setS (setCache (λ _, ∅));; emit SSync.

(** The keys of the store; the loops over them do not depend on their order. *)
Definition allKeys (m : gmap string QVariant) : list string := (map_to_list m).*1.

(** The constructor, on a store another run has left. *)
Definition construct : SM unit :=
  st ← getS stored;
  let encrypted := variantBool (default VInvalid (st !! "Conf/encrypted")) in
  when (encryptionRequired && negb encrypted)
   (for_each (allKeys st) (λ key,
      when (bool_decide (key ∈ encryptedKeys)) (v ← value key VInvalid; setValue key v));;
    store "Conf/encrypted" (VBool true);; emit SSync).

(** *** Backups *)

Definition needToBackup (key : string) : bool :=
  negb (String.eqb key "Conf/installationUuid") && existsb (λ item, String.prefix item key) m_fieldsToBackup.

Fixpoint backupKeys (keys : list string) (cfg : QJsonObject) : SM QJsonObject :=
  match keys with
  | [] => mret cfg
  | key :: keys =>
      if negb (needToBackup key) then backupKeys keys cfg
      else v ← value key VInvalid; backupKeys keys (insert_key cfg key (fromVariant v))
  end.

Definition backupAppConfig : SM string :=
  st ← getS stored;
  cfg ← backupKeys (allKeys st) [];
  mret (backupText cfg).

Definition restoreAppConfig (json : string) : SM bool :=
  let cfg := restoreText json in
  match cfg with
  | [] => mret false
  | _ =>
      for_each (map fst cfg) (λ key,
        if String.eqb key "Conf/installationUuid" then mret tt
        else setValue key (toVariant (QtJson.value cfg key)));;
      emit SSync;; mret true
  end.

End SecureQSettings.
End SecureQSettings.
#[global] Arguments SecureQSettings.SM W A : clear implicits.

(** ** Vocabulary *)

Section Vocabulary.
  Context {W : Type} {env : SecretEnv W}.

(** The key storage answers both requests. *)
Definition unlocked (w : W) : Prop := secret settingsKeyTag w ≠ "" ∧ secret settingsIvTag w ≠ "".

Definition sameSecrets (w w' : W) : Prop :=
  secret settingsKeyTag w' = secret settingsKeyTag w ∧ secret settingsIvTag w' = secret settingsIvTag w.

(** A marked cipher text, made with a key and an initialisation vector. *)
Definition sealed (v : QVariant) : Prop :=
  ∃ text k i, k ≠ "" ∧ i ≠ "" ∧ v = VBytes (magicString +:+ encryptAes text k i).

Definition sealedEvent (e : SEvent) : Prop :=
  match e with SStore key v => SecureQSettings.secretKey key = true → sealed v | _ => True end.

Definition sealedStore (c : Secure) : Prop :=
  ∀ key v, SecureQSettings.secretKey key = true → stored c !! key = Some v → sealed v.

(** The next run of the program starts with what was stored. *)
Definition restarted (c : Secure) : Secure := mkSecure (reload <$> stored c) ∅ "" "".

(** The operations of the class. *)
Inductive SOp :=
| OpConstruct
| OpValue (key : string) (defaultValue : QVariant)
| OpSetValue (key : string) (v : QVariant)
| OpRemove (key : string)
| OpClear
| OpBackup
| OpRestore (json : string).

Definition perform (op : SOp) : SecureQSettings.SM W unit :=
  match op with
  | OpConstruct => SecureQSettings.construct
  | OpValue key d => SecureQSettings.value key d;; mret tt
  | OpSetValue key v => SecureQSettings.setValue key v
  | OpRemove key => SecureQSettings.remove key
  | OpClear => SecureQSettings.clearSettings
  | OpBackup => SecureQSettings.backupAppConfig;; mret tt
  | OpRestore json => SecureQSettings.restoreAppConfig json;; mret tt
  end.

(** Only the copies of the secrets differ. *)
Definition sameValues (c c' : Secure) : Prop := stored c' = stored c ∧ m_cache c' = m_cache c.

End Vocabulary.

(** ** Marking *)

Lemma substring_all s : String.substring 0 (String.length s) s = s.
Proof. induction s; simpl; congruence. Qed.

Lemma substring_app a b : String.substring (String.length a) (String.length (a +:+ b) - String.length a) (a +:+ b) = b.
Proof.
  rewrite sapp_length. replace (_ + _ - _)%nat with (String.length b) by lia.
  induction a as [|c a IH]; [apply substring_all|exact IH].
Qed.

Lemma unmark_mark e : unmark (magicString +:+ e) = e.
Proof. apply substring_app. Qed.

Lemma marked_mark e : marked (VBytes (magicString +:+ e)) = true.
Proof. unfold marked, magicString. cbn. by destruct e. Qed.

(** ** Secrets *)

Section Lemmas.
  Context {W : Type} {env : SecretEnv W} {laws : SecretLaws env}.
  Import SecureQSettings.

Lemma loadSecret_spec tag set s :
  (∀ k c, sameValues c (set k c)) →
  wp (loadSecret tag set) (λ r s' t, ∃ k, r = Ok k ∧ sameValues (globals s) (globals s') ∧
    Forall sealedEvent t ∧ (k ≠ "" → secret tag (world s') = k) ∧
    (∀ tag', tag' ≠ tag → secret tag' (world s') = secret tag' (world s)) ∧
    (secret tag (world s) ≠ "" → k = secret tag (world s) ∧ t = [])) s.
Proof.
  intros Hset. destruct s as [c w]. pose proof (λ t, read_keeps t tag w) as HR.
  assert (secret tag w = (readPassword tag w).1) as Hw by done.
  unfold loadSecret, getSecTag, setSecTag, generatePrivateSalt, setS, act, wp. run_m.
  destruct (readPassword tag w) as [k w1]. simpl in *. rewrite Hw.
  destruct (String.eqb_spec k "") as [->|Hk]; simpl; last first.
  { exists k. do 2 (split; [auto|]). split; [constructor|]. rewrite HR. auto. }
  pose proof (λ t, salt_keeps t 32 w1) as HS. destruct (generateSalt 32 w1) as [key w2]. simpl in *.
  pose proof (λ t, read_keeps t tag (writePassword tag key w2)) as HR2.
  pose proof (λ t (H : t ≠ tag), write_keeps t tag key w2 H) as HW.
  assert (secret tag (writePassword tag key w2) = (readPassword tag (writePassword tag key w2)).1) as Hsec by done.
  destruct (readPassword tag (writePassword tag key w2)) as [k' w3]. simpl in *.
  exists (if String.eqb key k' then k' else ""). split; [done|]. split.
  { destruct (Hset k' (set "" c)), (Hset "" c). split; congruence. }
  split; [by repeat constructor|]. split.
  { destruct (String.eqb_spec key k'); [|done]. intros _. by rewrite HR2. }
  split; [|done]. intros t Ht. by rewrite HR2, HW, HS, HR.
Qed.

Lemma sameValues_trans c1 c2 c3 : sameValues c1 c2 → sameValues c2 c3 → sameValues c1 c3.
Proof. unfold sameValues. intros [] []. split; congruence. Qed.

Lemma haveSecrets_spec s :
  wp haveSecrets (λ r s' t, ∃ b, r = Ok b ∧ sameValues (globals s) (globals s') ∧ Forall sealedEvent t ∧
    (b = true → unlocked (world s')) ∧
    (unlocked (world s) → b = true ∧ t = [] ∧ sameSecrets (world s) (world s'))) s.
Proof.
  unfold haveSecrets. apply wp_bind. eapply wp_mono; [by apply (loadSecret_spec settingsKeyTag setKey)|].
  intros r s1 t1 (k & -> & Hv1 & Ht1 & Hk & Ho1 & Hu1). simpl.
  destruct (String.eqb_spec k "") as [->|Hne].
  { apply wp_ret. exists false. rewrite app_nil_r. split_and!; [done..|].
    intros [Hkey _]. destruct (Hu1 Hkey) as [Heq _]. congruence. }
  apply wp_bind. eapply wp_mono; [by apply (loadSecret_spec settingsIvTag setIv)|].
  intros r s2 t2 (i & -> & Hv2 & Ht2 & Hi & Ho2 & Hu2). simpl. apply wp_ret.
  exists (negb (String.eqb i "")). rewrite app_nil_r. split; [done|]. split; [by eapply sameValues_trans|].
  split; [by apply Forall_app|]. rewrite (Ho1 settingsIvTag) in Hu2 by done.
  assert (secret settingsKeyTag (world s2) = k) as Hk2 by (rewrite Ho2; auto).
  split.
  - destruct (String.eqb_spec i ""); [done|]. intros _. split; [congruence|rewrite Hi; auto].
  - intros [Hkey Hiv]. destruct (Hu1 Hkey) as [-> ->]. destruct (Hu2 Hiv) as [-> ->].
    split; [by destruct (String.eqb_spec (secret settingsIvTag (world s)) "")|]. split; [done|].
    split; [done|]. by apply Hi.
Qed.

(** With the secrets at hand a cipher call uses them and changes nothing. *)
Lemma cipher_spec (f : string → string → string → string) text s :
  unlocked (world s) →
  wp (k ← getEncKey; i ← getEncIv; mret (f text k i) : SM W string) (λ r s' t,
    r = Ok (f text (secret settingsKeyTag (world s)) (secret settingsIvTag (world s))) ∧
    sameValues (globals s) (globals s') ∧ t = [] ∧ sameSecrets (world s) (world s')) s.
Proof.
  intros [Hkey Hiv]. apply wp_bind. eapply wp_mono; [by apply (loadSecret_spec settingsKeyTag setKey)|].
  intros r s1 t1 (k & -> & Hv1 & _ & Hk & Ho1 & Hu1). destruct (Hu1 Hkey) as [-> ->]. simpl.
  apply wp_bind. eapply wp_mono; [by apply (loadSecret_spec settingsIvTag setIv)|].
  intros r s2 t2 (i & -> & Hv2 & _ & Hi & Ho2 & Hu2). rewrite Ho1 in Hu2 by done.
  destruct (Hu2 Hiv) as [-> ->]. simpl. apply wp_ret.
  split; [done|]. split; [by eapply sameValues_trans|]. split; [done|].
  split; [rewrite Ho2 by done; auto|auto].
Qed.

(** ** Writing and reading *)

Lemma setValue_plain key v (s : Sys Secure W) :
  secretKey key = false →
  setValue key v s =
    (Ok tt, mkSys (setCache (insert key v) (setStored (insert key v) (globals s))) (world s), [SStore key v; SSync]).
Proof. intros H. unfold setValue. rewrite H. reflexivity. Qed.

Lemma value_cached key d v (s : Sys Secure W) : m_cache (globals s) !! key = Some v → value key d s = (Ok v, s, []).
Proof. intros H. unfold value, getS. run_m. by rewrite H. Qed.

(** What [setValue] does to an encrypted key. *)
Lemma setValue_secret key v s :
  secretKey key = true →
  wp (setValue key v) (λ r s' t, r = Ok tt ∧ Forall sealedEvent t ∧
    ((sameValues (globals s) (globals s') ∧ ¬ unlocked (world s)) ∨
     ∃ k i, k ≠ "" ∧ i ≠ "" ∧
       stored (globals s') = <[key := VBytes (magicString +:+ encryptAes (serialize v) k i)]> (stored (globals s)) ∧
       m_cache (globals s') = <[key := v]> (m_cache (globals s)) ∧
       (unlocked (world s) → k = secret settingsKeyTag (world s) ∧ i = secret settingsIvTag (world s) ∧
          sameSecrets (world s) (world s')))) s.
Proof.
  intros Hkey. unfold setValue. rewrite Hkey. apply wp_bind. eapply wp_mono; [apply haveSecrets_spec|].
  intros r s1 t1 (b & -> & Hv1 & Ht1 & Hb & Hu). destruct b; simpl; last first.
  { apply wp_ret. rewrite app_nil_r. split_and!; [done..|]. left. split; [done|].
    intros H. by destruct (Hu H). }
  apply wp_bind. eapply wp_mono; [by apply (cipher_spec encryptAes), Hb|].
  intros r s2 t2 (-> & Hv2 & -> & Hs2). specialize (Hb eq_refl) as [Hk Hi].
  unfold wp. simpl. split; [done|]. split.
  { apply Forall_app. split; [done|]. repeat constructor. intros _. by repeat eexists. }
  right. eexists _, _. split; [exact Hk|]. split; [exact Hi|].
  destruct Hv1 as [<- <-], Hv2 as [<- <-]. split_and!; [done..|].
  intros H. destruct (Hu H) as (_ & _ & [H1 H2]). destruct Hs2 as [H3 H4].
  split_and!; [done..|]. split; simpl; [by rewrite H3|by rewrite H4].
Qed.

(** ** Operations that return and never store a secret in the clear *)

Definition safe {A} (m : SM W A) : Prop := ∀ s,
  wp m (λ r s' t, (∃ a, r = Ok a) ∧ Forall sealedEvent t ∧
    (sealedStore (globals s) → sealedStore (globals s'))) s.

Lemma safe_bind {A B} (m : SM W A) (k : A → SM W B) : safe m → (∀ a, safe (k a)) → safe (m ≫= k).
Proof.
  intros Hm Hk s. apply wp_bind. eapply wp_mono; [apply Hm|]. intros r s1 t1 ([a ->] & Ht1 & Hs1). simpl.
  eapply wp_mono; [apply Hk|]. intros r s2 t2 (Hr & Ht2 & Hs2). split_and!; [done|by apply Forall_app|auto].
Qed.

Lemma safe_same {A} (m : SM W A) :
  (∀ s, wp m (λ r s' t, (∃ a, r = Ok a) ∧ sameValues (globals s) (globals s') ∧ Forall sealedEvent t) s) → safe m.
Proof.
  intros Hm s. eapply wp_mono; [apply Hm|]. intros r s' t (Hr & [Hst _] & Ht). split_and!; [done..|].
  unfold sealedStore. by rewrite Hst.
Qed.

Lemma safe_ret {A} (a : A) : safe (mret a).
Proof. intros s. apply wp_ret. split_and!; [eauto|constructor|done]. Qed.
Lemma safe_getS {A} (f : Secure → A) : safe (getS f).
Proof. intros s. unfold wp; simpl. split_and!; [eauto|constructor|done]. Qed.
Lemma safe_emit e : sealedEvent e → safe (emit e).
Proof. intros He s. unfold wp; simpl. split_and!; [eauto|by repeat constructor|done]. Qed.
Lemma safe_cache key v : safe (cache key v).
Proof. intros s. unfold wp; simpl. split_and!; [eauto|constructor|done]. Qed.
Lemma safe_if {A} (b : bool) (m1 m2 : SM W A) : safe m1 → safe m2 → safe (if b then m1 else m2).
Proof. by destruct b. Qed.
Lemma safe_when (b : bool) (m : SM W unit) : safe m → safe (when b m).
Proof. intros Hm. apply safe_if; [done|apply safe_ret]. Qed.
Lemma safe_for_each {A} (l : list A) (f : A → SM W unit) : (∀ x, safe (f x)) → safe (for_each l f).
Proof. intros Hf. induction l as [|x l IH]; simpl; [apply safe_ret|by apply safe_bind]. Qed.

Lemma safe_setStored f :
  (∀ m key v, secretKey key = true → f m !! key = Some v → m !! key = Some v ∨ sealed v) → safe (setS (setStored f)).
Proof.
  intros Hf s. unfold wp; simpl. split_and!; [eauto|constructor|]. intros HS key v Hk Hv.
  destruct (Hf _ _ _ Hk Hv) as [Hold|]; [|done]. by eapply HS.
Qed.

Lemma safe_store key v : (secretKey key = true → sealed v) → safe (store key v).
Proof.
  intros Hv. apply safe_bind; [|intros _; by apply safe_emit]. apply safe_setStored.
  intros m key' v' Hk'. rewrite lookup_insert_Some. intros [[<- <-]|[_ ?]]; auto.
Qed.

Lemma safe_loadSecret tag set : (∀ k c, sameValues c (set k c)) → safe (loadSecret tag set).
Proof.
  intros Hset. apply safe_same. intros s. eapply wp_mono; [by apply loadSecret_spec|].
  intros r s' t (k & -> & Hv & Ht & _). eauto.
Qed.

Lemma safe_haveSecrets : safe haveSecrets.
Proof.
  apply safe_same. intros s. eapply wp_mono; [by apply haveSecrets_spec|]. intros r s' t (b & -> & ? & ? & _). eauto.
Qed.

Lemma safe_setValue key v : safe (setValue key v).
Proof.
  destruct (secretKey key) eqn:Hkey; last first.
  { unfold setValue. rewrite Hkey. apply safe_bind; [by apply safe_store; rewrite Hkey|intros _].
    apply safe_bind; [apply safe_cache|intros _; by apply safe_emit]. }
  intros s. eapply wp_mono; [by apply setValue_secret|]. intros r s' t (-> & Ht & H). split_and!; [eauto|done|].
  destruct H as [[[Hst _] _]|(k & i & Hk & Hi & Hst & _)]; unfold sealedStore; rewrite Hst; [done|].
  intros HS key' v' Hk'. rewrite lookup_insert_Some. intros [[<- <-]|[_ ?]]; [by eexists _, k, i|eauto].
Qed.

Lemma secretKey_plain key : bool_decide (key ∈ encryptedKeys) = false → secretKey key = false.
Proof. unfold secretKey. intros ->. apply andb_false_r. Qed.

Lemma safe_store_plain key v : bool_decide (key ∈ encryptedKeys) = false → safe (store key v).
Proof. intros H. apply safe_store. by rewrite secretKey_plain. Qed.

Ltac safe_step := first
  [ apply safe_ret | apply safe_getS | apply safe_cache | apply safe_setValue | apply safe_haveSecrets
  | by apply safe_loadSecret | by apply safe_emit | by apply safe_store_plain | apply safe_when | apply safe_for_each; intros ?
  | apply safe_if | apply safe_bind; [|intros ?]
  | match goal with |- safe (match ?x with _ => _ end) => destruct x end ].

Lemma safe_value key d : safe (value key d).
Proof. unfold value, decryptText, getEncKey, getEncIv. repeat safe_step. Qed.

Lemma safe_backupKeys keys cfg : safe (backupKeys keys cfg).
Proof.
  revert cfg. induction keys as [|key keys IH]; intros cfg; simpl; [apply safe_ret|].
  apply safe_if; [done|]. apply safe_bind; [apply safe_value|done].
Qed.

Lemma safe_perform op : safe (perform op).
Proof.
  destruct op; simpl; unfold construct, SecureQSettings.remove, clearSettings, backupAppConfig, restoreAppConfig;
    repeat first [apply safe_value | apply safe_backupKeys | apply safe_setStored | safe_step]; try done.
  intros m key' v Hk. rewrite lookup_delete_Some. intros [_ ?]. by left.
Qed.

(** Reading an encrypted value that is not in the cache. *)
Lemma value_sealed key d v (s : Sys Secure W) :
  unlocked (world s) → m_cache (globals s) !! key = None →
  stored (globals s) !! key = Some (VBytes (magicString +:+
    encryptAes (serialize v) (secret settingsKeyTag (world s)) (secret settingsIvTag (world s)))) →
  result_of (value key d s) = Ok v.
Proof.
  intros Hun Hc Hst.
  assert (wp (value key d) (λ r _ _, r = Ok v) s) as H; last first.
  { unfold wp in H. unfold result_of. by destruct (value key d s) as [[r s'] t]. }
  unfold value. apply wp_gets_bind. rewrite Hc. apply wp_gets_bind. rewrite Hst, marked_mark.
  apply wp_bind. eapply wp_mono; [apply haveSecrets_spec|].
  intros r s1 t1 (b & -> & _ & _ & _ & Hu). destruct (Hu Hun) as (-> & _ & [Hk Hi]). simpl.
  apply wp_bind. eapply wp_mono; [apply (cipher_spec decryptAes)|].
  { destruct Hun. split; congruence. }
  intros r s2 t2 (-> & _). simpl. unfold wp; simpl. destruct Hun as [Hun1 Hun2].
  change (String "E" _) with (magicString +:+ encryptAes (serialize v) (secret settingsKeyTag (world s))
    (secret settingsIvTag (world s))).
  by rewrite unmark_mark, Hk, Hi, decrypt_encrypt, deserialize_serialize.
Qed.

Lemma value_unmarked key d v (s : Sys Secure W) :
  m_cache (globals s) !! key = None → stored (globals s) !! key = Some v → marked v = false →
  value key d s = (Ok v, mkSys (setCache (insert key v) (globals s)) (world s), []).
Proof.
  intros Hc Hst Hm. unfold value, getS, cache, setS. run_m. rewrite Hc, Hst.
  destruct v; try reflexivity. by rewrite Hm.
Qed.

(** The loop of the constructor acts on the encrypted key alone. *)
Lemma convert_loop (f : string → SM W unit) (l : list string) s :
  NoDup l → "Servers/serversList" ∈ l →
  for_each l (λ key, when (bool_decide (key ∈ encryptedKeys)) (f key)) s =
    (f "Servers/serversList";; mret tt) s.
Proof.
  assert (∀ l s, "Servers/serversList" ∉ l →
    for_each l (λ key, when (bool_decide (key ∈ encryptedKeys)) (f key)) s = (Ok tt, s, [])) as Hnone.
  { clear l s. induction l as [|key l IH]; intros s Hl; [done|]. apply not_elem_of_cons in Hl as [Hne Hl].
    cbn [for_each]. rewrite bool_decide_false by (unfold encryptedKeys; set_solver).
    unfold when, mbind, M_bind, mret, M_ret. by rewrite IH. }
  intros Hnd Hin. revert s. induction l as [|key l IH]; intros s; [by apply elem_of_nil in Hin|].
  inversion Hnd as [|? ? Hni Hnd']; subst. cbn [for_each].
  apply elem_of_cons in Hin as [<-|Hin].
  - rewrite bool_decide_true by (unfold encryptedKeys; set_solver). unfold when, mbind, M_bind.
    destruct (f _ s) as [[[a|e|] s1] t1]; [|done..]. by rewrite Hnone.
  - rewrite bool_decide_false by (unfold encryptedKeys; set_solver).
    unfold when, mbind at 1, M_bind at 1, mret at 1, M_ret at 1. rewrite IH by done.
    by destruct ((f "Servers/serversList";; mret tt) s) as [[r s1] t1].
Qed.

(** ** Properties *)

(** [C29] What is written is read back, at once and by the next run of the
    program: a value of the encrypted key exactly, any other value as [QSettings]
    reloads it. *)
Theorem settings_roundtrip (key : string) (v d : QVariant) (s : Sys Secure W) (w : W)
    (Hopen : secretKey key = true → unlocked (world s)) (Hsame : sameSecrets (world s) w)
    (Hplain : secretKey key = false → marked (reload v) = false) :
  let s1 := state_of (setValue key v s) in
  result_of (setValue key v s) = Ok tt ∧
  result_of (value key d s1) = Ok v ∧
  result_of (value key d (mkSys (restarted (globals s1)) w)) = Ok (if secretKey key then v else reload v).
Proof.
  destruct (secretKey key) eqn:Hkey; cbn zeta.
  - specialize (Hopen eq_refl). pose proof (setValue_secret key v s Hkey) as H. unfold wp in H.
    destruct (setValue key v s) as [[r s1] t]. destruct H as (-> & _ & H). unfold state_of; simpl.
    destruct H as [[_ ?]|(k & i & Hk & Hi & Hst & Hc & H)]; [done|]. destruct (H Hopen) as (-> & -> & _).
    split; [done|]. split; [by rewrite (value_cached key d v) by (by rewrite Hc, lookup_insert_eq)|].
    destruct Hsame as [H1 H2], Hopen. apply value_sealed; [split; simpl; congruence|done|]. simpl.
    by rewrite H1, H2, lookup_fmap, Hst, lookup_insert_eq; simpl; rewrite reload_bytes.
  - rewrite (setValue_plain key v s Hkey). unfold state_of; simpl. split; [done|].
    rewrite (value_cached key d v) by (simpl; by rewrite lookup_insert_eq). split; [done|].
    rewrite (value_unmarked key d (reload v)); [done|done| |auto]. simpl. by rewrite lookup_fmap, lookup_insert_eq.
Qed.


(** Settings of an old version, in the clear: with the key storage working
    the constructor encrypts the list of servers and marks the store, without
    losing the list, for this run and for the next. *)
Theorem conversion_spec (v d : QVariant) (s : Sys Secure W) (w : W)
    (Hreq : encryptionRequired = true) (Hopen : unlocked (world s)) (Hsame : sameSecrets (world s) w)
    (Hcache : m_cache (globals s) = ∅) (Hclear : stored (globals s) !! "Servers/serversList" = Some v)
    (Hplain : marked v = false)
    (Hold : variantBool (default VInvalid (stored (globals s) !! "Conf/encrypted")) = false) :
  let s1 := state_of (construct s) in
  result_of (construct s) = Ok tt ∧ sealedStore (globals s1) ∧
  stored (globals s1) !! "Conf/encrypted" = Some (VBool true) ∧
  result_of (value "Servers/serversList" d s1) = Ok v ∧
  result_of (value "Servers/serversList" d (mkSys (restarted (globals s1)) w)) = Ok v.
Proof.
  assert (secretKey "Servers/serversList" = true) as Hkey by (unfold secretKey; by rewrite Hreq).
  set (s0 := mkSys (setCache (insert "Servers/serversList" v) (globals s)) (world s)).
  pose proof (setValue_secret "Servers/serversList" v s0 Hkey) as H. unfold wp in H.
  destruct (setValue "Servers/serversList" v s0) as [[r s2] t2] eqn:Hset. destruct H as (-> & _ & H).
  destruct H as [[_ H]|(k & i & Hk & Hi & Hst & Hc & H)]; [by destruct H|].
  destruct (H Hopen) as (-> & -> & _).
  assert (construct s = (Ok tt, mkSys (setStored (insert "Conf/encrypted" (VBool true)) (globals s2)) (world s2),
    t2 ++ [SStore "Conf/encrypted" (VBool true); SSync])) as ->.
  { unfold construct, getS. unfold mbind at 1, M_bind at 1, gets at 1. rewrite Hold, Hreq. simpl negb. simpl andb.
    unfold when at 1. unfold mbind at 1, M_bind at 1. rewrite convert_loop; last first.
    { unfold allKeys. rewrite list_elem_of_fmap. exists ("Servers/serversList", v). split; [done|].
      by apply elem_of_map_to_list. }
    { apply NoDup_fst_map_to_list. }
    unfold mbind, M_bind. rewrite (value_unmarked _ _ v) by (by rewrite ?Hcache). fold s0. rewrite Hset. simpl.
    by rewrite app_nil_r. }
  unfold state_of, result_of at 1; simpl. split; [done|]. split_and!.
  - intros key u Hsec. simpl. rewrite lookup_insert_ne.
    + rewrite Hst, lookup_insert_Some. intros [[_ <-]|[Hne _]]; [eexists _, _, _; split_and!; [exact Hk|exact Hi|done]|].
      apply andb_prop in Hsec as [_ Hsec%bool_decide_eq_true]. unfold encryptedKeys in Hsec. set_solver.
    + intros <-. by rewrite secretKey_plain in Hsec.
  - by rewrite lookup_insert_eq.
  - by rewrite (value_cached _ _ v) by (simpl; by rewrite Hc, lookup_insert_eq).
  - destruct Hsame as [H1 H2], Hopen. apply value_sealed; [split; simpl; congruence|done|]. simpl.
    rewrite H1, H2, lookup_fmap, lookup_insert_ne by done.
    by rewrite Hst, lookup_insert_eq; simpl; rewrite reload_bytes.
Qed.

End Lemmas.

(** ** An executable environment

    A key storage that may be locked, a cipher that prefixes the key, and the
    text of [SimJson] for variants: not secure, but it satisfies the laws. *)
Module SimSecrets.

Record World := mkWorld { passwords : gmap string string; locked : bool }.

Fixpoint to_json (v : QVariant) : QJson :=
  match v with
  | VInvalid => JUndefined
  | VBool b => JBool b
  | VInt n => JDouble n 0
  | VString s => JString s
  | VBytes b => JArray [JString b]
  | VMap m => JObject (map (λ kv, (kv.1, to_json kv.2)) m)
  | VJson l => JArray (JNull :: l)
  end.

Fixpoint of_json (v : QJson) : QVariant :=
  match v with
  | JUndefined | JNull => VInvalid
  | JBool b => VBool b
  | JDouble n _ => VInt n
  | JString s => VString s
  | JArray (JString b :: _) => VBytes b
  | JArray (_ :: l) => VJson l
  | JArray [] => VJson []
  | JObject m => VMap (map (λ kv, (kv.1, of_json kv.2)) m)
  end.

Fixpoint of_to_json (v : QVariant) : of_json (to_json v) = v.
Proof.
  destruct v as [| | | | |m|l]; try reflexivity. cbn [to_json of_json]. f_equal.
  induction m as [|[k v] m IH]; [done|]. cbn [map fst snd]. rewrite of_to_json, IH. reflexivity.
Qed.

#[global] Instance env : SecretEnv World := {
  linuxDesktop := false;
  readPassword tag w := (if locked w then "" else default "" (passwords w !! tag), w);
  writePassword tag d w := if locked w then w else mkWorld (<[tag := d]> (passwords w)) false;
  generateSalt n w := ("0123456789abcdef0123456789abcdef", w);
  encryptAes text k i := k +:+ text;
  decryptAes text k i := String.substring (String.length k) (String.length text - String.length k) text;
  serialize v := toText [("v", to_json v)];
  deserialize s := match fromText s with Some o => of_json (QtJson.value o "v") | None => VInvalid end;
  fromVariant := to_json;
  toVariant := of_json;
  backupText o := toText o;
  restoreText s := default [] (fromText s);
  reload v := v;
}.

#[global] Instance laws : SecretLaws env.
Proof.
  split.
  - intros d k i _ _. apply substring_app.
  - intros v. change (match fromText (toText [("v", to_json v)]) with
      | Some o => of_json (QtJson.value o "v") | None => VInvalid end = v).
    rewrite SimJson.roundtrip. apply of_to_json.
  - done.
  - intros t t' d w Hne. unfold secret; simpl. destruct (locked w) eqn:E; simpl; rewrite ?E; [done|].
    by rewrite lookup_insert_ne.
  - done.
  - done.
Qed.

(** A new installation, and one of an old version. *)
Definition opened : World := mkWorld {[settingsKeyTag := "k"; settingsIvTag := "i"]} false.
Definition closed : World := mkWorld ∅ true.
Definition servers : QVariant := VBytes "[]".
Definition oldStore : Secure := mkSecure {["Servers/serversList" := servers]} ∅ "" "".

End SimSecrets.

Import SimSecrets.

Lemma settings_roundtrip_witness :
  result_of (SecureQSettings.value "Servers/serversList" VInvalid
    (mkSys (restarted (globals (state_of (SecureQSettings.setValue "Servers/serversList" servers
      (mkSys oldStore opened))))) opened)) = Ok servers.
Proof.
  destruct (settings_roundtrip "Servers/serversList" servers VInvalid (mkSys oldStore opened) opened)
    as (_ & _ & H); [by split; vm_compute|done|done|exact H].
Defined.


Lemma conversion_spec_witness :
  result_of (SecureQSettings.value "Servers/serversList" VInvalid
    (state_of (SecureQSettings.construct (mkSys oldStore opened)))) = Ok servers.
Proof.
  destruct (conversion_spec servers VInvalid (mkSys oldStore opened) opened) as (_ & _ & _ & H & _);
    [reflexivity|by split; vm_compute|done|reflexivity..|exact H].
Defined.

(** If the key storage refuses while old settings are converted, the list of
    servers stays in the clear, but the store is marked as encrypted all the same,
    so that the next run does not convert it either, although the key storage
    works again. *)
Theorem failed_conversion_marked :
  let s1 := state_of (SecureQSettings.construct (mkSys oldStore closed)) in
  let s2 := state_of (SecureQSettings.construct (mkSys (restarted (globals s1)) opened)) in
  stored (globals s1) !! "Conf/encrypted" = Some (VBool true) ∧
  stored (globals s1) !! "Servers/serversList" = Some servers ∧
  stored (globals s2) !! "Servers/serversList" = Some servers.
Proof. cbn zeta. split_and!; vm_compute; reflexivity. Qed.
