(* ===== verification/LocalSocket.v ===== *)
(** * The two ends of the local socket

    [Server] models the daemon's end, [DaemonLocalServerConnection] of
    [src/client/daemon/daemonlocalserverconnection.cpp]: the commands it
    accepts and what it writes back, the daemon's signals included, to whose
    slots it is connected.  [Client] models the application's end,
    [LocalSocketController] of [src/client/mozilla/localsocketcontroller.cpp]:
    its connection states, the request it builds from a VPN configuration and
    its reaction to the daemon's messages.  How messages become commands is in
    [LineProtocol.v]. *)

From Stdlib Require Import ZArith Lia Ascii.
From stdpp Require Import prelude strings list gmap.
From S2P Require Import Prelude IPAddress QtJson InterfaceConfig Daemon DaemonSpec LineProtocol.

Local Open Scope Z_scope.

(** ** The daemon's end *)

Inductive SEvent :=
| SDaemon (e : DEvent)
| SWrite (o : QJsonObject).

Definition connectedMessage (pubkey : QString) : QJsonObject :=
  inserts [] [("type", JString "connected"); ("pubkey", JText pubkey)].
Definition disconnectedMessage : QJsonObject := inserts [] [("type", JString "disconnected")].

Section Server.
  Context {W : Type} {platform : Platform W} {env : QtEnv} {jt : JsonText}.
  (** The fields [InterfaceConfig config;] leaves uninitialised. *)
  Context (hop0 : HopType) (kill0 : bool).

Definition SM (A : Type) : Type := M (Sys Daemon W) SEvent Empty_set A.

(** The slots connected to the daemon's signals. *)
Definition signalled (e : DEvent) : list SEvent :=
  SDaemon e ::
  match e with
  | EvConnected pubkey => [SWrite (connectedMessage pubkey)]
  | EvDisconnected => [SWrite disconnectedMessage]
  | _ => []
  end.

(** A call of the daemon. *)
Definition daemonCall {A} (m : DM W A) : SM A := λ s,
  let '(r, s', t) := m s in (r, s', flat_map signalled t).

(** [parseCommand] *)
Definition serverCommand (data : string) : SM unit :=
  match fromText data with
  | None => mret tt
  | Some obj =>
      match value obj "type" with
      | JString type =>
          if String.eqb type "activate" then
            match parseConfig obj (defaultConfig hop0 kill0) with
            | None => emit (SWrite disconnectedMessage)
            | Some config =>
                ok ← daemonCall (activate 2 config);
                when (negb ok) (emit (SWrite disconnectedMessage))
            end
          else if String.eqb type "deactivate" then daemonCall (deactivate true);; mret tt
          else if String.eqb type "status" then
            obj ← daemonCall getStatus;
            emit (SWrite (insert_key obj "type" (JString "status")))
          else if String.eqb type "logs" then
            emit (SWrite (inserts [] [("type", JString "logs"); ("logs", JText None)]))
          else mret tt
      | _ => mret tt
      end
  end.

(** The slot of the handshake timer, as the connection sees it. *)
Definition serverTimeout : SM unit := daemonCall timeout.

End Server.

(** ** The application's end *)

Inductive DaemonState := eUnknown | eInitializing | eReady | eDisconnected.

#[global] Instance DaemonState_eq_dec : EqDecision DaemonState.
Proof. solve_decision. Defined.

(** [m_logCallback] is the number of the callback waiting for the logs. *)
Record LocalSocketController := mkController {
  m_daemonState : DaemonState;
  m_logCallback : option nat;
  m_initializingTimer : bool;
  m_initializingRetry : Z;
}.

Definition initialController : LocalSocketController := mkController eUnknown None false 0.

Inductive CEvent :=
| CWrite (o : QJsonObject)
| CInitialized (status connected : bool) (date : option Z)
| CConnected (pubkey : string)
| CDisconnected
| CStatusUpdated (gateway device : string) (txBytes rxBytes : QJson)
| CLogs (callback : nat) (text : string)
| CConnectToServer (path : string)
| CTimerStart (msec : Z)
| CTimerStop.

Definition MAX_CONNECTION_RETRY : Z := 10.
Definition CONNECTION_RETRY_TIMER_MSEC : Z := 500.

(** What the controller asks the system: whether a file exists and what date
    a text denotes ([QDateTime::fromString], [None] for an invalid one). *)
Class ClientEnv (W : Type) := {
  pathExists : W → string → bool;
  parseDate : string → option Z;
}.

(** [atoi]: white space, a sign, digits. *)
Fixpoint atoi_digits (s : string) (acc : Z) : Z :=
  match s with
  | EmptyString => acc
  | String c s =>
      let n := Z.of_nat (Ascii.nat_of_ascii c) - 48 in
      if (0 <=? n) && (n <=? 9) then atoi_digits s (10 * acc + n) else acc
  end.
Definition atoi (s : string) : Z :=
  match trim_left s with
  | String "-" s => - atoi_digits s 0
  | String "+" s => atoi_digits s 0
  | s => atoi_digits s 0
  end.

(** ** The activation request *)

Section Request.
  Context (rawConfig : QJsonObject).

Definition rangeObject (address : string) (range : Z) (isIpv6 : bool) : QJson :=
  JObject (inserts [] [("address", JString address); ("range", JInt range); ("isIpv6", JBool isIpv6)]).

(** One allowed address or site. *)
Definition siteRange (v : QJson) : QJson :=
  let ipRange := qtext (toQString v) in
  match qsplit "/" ipRange with
  | a :: r :: _ => rangeObject a (atoi r) false
  | _ => rangeObject ipRange 32 false
  end.

(** [plainAllowedIP == defaultAllowedIP] *)
Definition isDefaultAllowed (l : list QJson) : bool :=
  match l with
  | [JString a; JString b] => String.eqb a "0.0.0.0/0" && String.eqb b " ::/0"
  | _ => false
  end.

Definition protocolName : string := qtext (toQString (value rawConfig "protocol")).
Definition splitTunnelType : Z := toInt (value rawConfig "splitTunnelType").
Definition splitTunnelSites : list QJson := toArray (value rawConfig "splitTunnelSites").
Definition wgConfig : QJsonObject := toObject (value rawConfig (protocolName +:+ "_config_data")).

Definition allowedRanges : list QJson :=
  let plainAllowedIP := toArray (value wgConfig "allowed_ips") in
  if negb (isDefaultAllowed plainAllowedIP) && negb (bool_decide (length plainAllowedIP = 0%nat))
  then map siteRange plainAllowedIP
  else
    (if (splitTunnelType =? 0) || (splitTunnelType =? 2)
     then [rangeObject "0.0.0.0" 0 false; rangeObject "::" 0 true] else []) ++
    (if splitTunnelType =? 1 then map siteRange splitTunnelSites else []).

Definition excludedList : list QJson :=
  array_item (value wgConfig "hostName") ::
  (if splitTunnelType =? 2 then map (λ v, JText (toQString v)) splitTunnelSites else []).

Definition junkKeys : list string := ["Jc"; "Jmin"; "Jmax"; "S1"; "S2"; "H1"; "H2"; "H3"; "H4"].

(** Whether the junk parameters are sent along. *)
Definition withJunk : bool :=
  String.eqb protocolName "awg" ||
  forallb (λ k, negb (isUndefined (value wgConfig k))) junkKeys.

(** The insertions of [activate], in order. *)
Definition requestFields : list (string * QJson) :=
  [("type", JString "activate");
   ("privateKey", value wgConfig "client_priv_key");
   ("deviceIpv4Address", value wgConfig "client_ip");
   ("deviceIpv6Address", JString "fd58:baa6:dead::1");
   ("serverPublicKey", value wgConfig "server_pub_key");
   ("serverPskKey", value wgConfig "psk_key");
   ("serverIpv4AddrIn", value wgConfig "hostName");
   ("deviceMTU", value wgConfig "mtu");
   ("serverPort", JInt (toInt (value wgConfig "port")));
   ("serverIpv4Gateway", value wgConfig "hostName");
   ("dnsServer", value rawConfig "dns1");
   ("allowedIPAddressRanges", JArray allowedRanges);
   ("excludedAddresses", JArray excludedList);
   ("vpnDisabledApps", JArray (toArray (value rawConfig "splitTunnelApps")));
   ("killSwitchOption", value rawConfig "killSwitchOption")].

Definition activateRequest : QJsonObject :=
  inserts [] (requestFields ++ if withJunk then map (λ k, (k, value wgConfig k)) junkKeys else []).

End Request.

Section Client.
  Context {W : Type} {client : ClientEnv W} {env : QtEnv} {jt : JsonText}.

Definition CM (A : Type) : Type := M (Sys LocalSocketController W) CEvent Empty_set A.

Definition getC {A} (f : LocalSocketController → A) : CM A := gets (λ s, f (globals s)).
Definition setC (f : LocalSocketController → LocalSocketController) : CM unit := modify (λ s, mkSys (f (globals s)) (world s)).

Definition setState (st : DaemonState) (c : LocalSocketController) : LocalSocketController :=
  mkController st (m_logCallback c) (m_initializingTimer c) (m_initializingRetry c).
Definition setCallback (cb : option nat) (c : LocalSocketController) : LocalSocketController :=
  mkController (m_daemonState c) cb (m_initializingTimer c) (m_initializingRetry c).
Definition setInitTimer (b : bool) (c : LocalSocketController) : LocalSocketController :=
  mkController (m_daemonState c) (m_logCallback c) b (m_initializingRetry c).
Definition setRetry (n : Z) (c : LocalSocketController) : LocalSocketController :=
  mkController (m_daemonState c) (m_logCallback c) (m_initializingTimer c) n.

(** [disconnectInternal] *)
Definition disconnectInternal : CM unit :=
  setC (setState eReady);; setC (setRetry 0);;
  setC (setInitTimer false);; emit CTimerStop;;
  emit CDisconnected.

(** [errorOccurred]; the counter is a [uint32_t]. *)
Definition errorOccurred : CM unit :=
  st ← getC m_daemonState;
  n ← getC m_initializingRetry;
  if bool_decide (st = eInitializing) then
    setC (setRetry ((n + 1) mod 2 ^ 32));;
    if n <? MAX_CONNECTION_RETRY then
      setC (setInitTimer true);; emit (CTimerStart CONNECTION_RETRY_TIMER_MSEC)
    else
      emit (CInitialized false false None);; disconnectInternal
  else disconnectInternal.

Definition initializeInternal : CM unit :=
  setC (setState eInitializing);;
  ex ← query (λ w, pathExists w "/var/run/amneziavpn/daemon.socket");
  emit (CConnectToServer
    (if onWindows then "\\.\pipe\amneziavpn"
     else if ex : bool then "/var/run/amneziavpn/daemon.socket" else "/tmp/amneziavpn.socket")).

Definition initialize : CM unit := setC (setRetry 0);; initializeInternal.

(** The single-shot timer fires. *)
Definition initTimeout : CM unit := setC (setInitTimer false);; initializeInternal.

Definition writeC (o : QJsonObject) : CM unit := emit (CWrite o).

Definition checkStatus : CM unit :=
  st ← getC m_daemonState;
  when (bool_decide (st = eReady) || bool_decide (st = eInitializing))
    (writeC (inserts [] [("type", JString "status")])).

Definition daemonConnected : CM unit := checkStatus.

Definition clientActivate (rawConfig : QJsonObject) : CM unit := writeC (activateRequest rawConfig).

Definition clientDeactivate : CM unit :=
  st ← getC m_daemonState;
  if negb (bool_decide (st = eReady)) then emit CDisconnected
  else writeC (inserts [] [("type", JString "deactivate")]);; emit CDisconnected.

(** [if (m_logCallback) { m_logCallback(text); m_logCallback = nullptr; }] *)
Definition answerLogs (text : string) : CM unit :=
  cb ← getC m_logCallback;
  match cb with
  | Some id => emit (CLogs id text);; setC (setCallback None)
  | None => mret tt
  end.

Definition getBackendLogs (callback : nat) : CM unit :=
  answerLogs "";;
  st ← getC m_daemonState;
  if negb (bool_decide (st = eReady)) then emit (CLogs callback "")
  else setC (setCallback (Some callback));; writeC (inserts [] [("type", JString "logs")]).

Definition cleanupBackendLogs : CM unit :=
  answerLogs "";;
  st ← getC m_daemonState;
  when (bool_decide (st = eReady)) (writeC (inserts [] [("type", JString "cleanlogs")])).

(** The reply that ends the initialisation. *)
Definition statusWhileInitializing (obj : QJsonObject) : CM unit :=
  setC (setState eReady);;
  match value obj "connected" with
  | JBool false => emit (CInitialized true false None)
  | JBool true =>
      match value obj "date" with
      | JString text =>
          match parseDate text with
          | Some d => emit (CInitialized true true (Some d))
          | None => mret tt
          end
      | _ => mret tt
      end
  | _ => mret tt
  end.

Definition statusWhileReady (obj : QJsonObject) : CM unit :=
  match value obj "serverIpv4Gateway", value obj "deviceIpv4Address" with
  | JString gw, JString dev =>
      if negb (isDouble (value obj "txBytes")) then mret tt
      else if negb (isDouble (value obj "rxBytes")) then mret tt
      else emit (CStatusUpdated gw dev (value obj "txBytes") (value obj "rxBytes"))
  | _, _ => mret tt
  end.

Fixpoint replaceChar (a b : ascii) (s : string) : string :=
  match s with
  | EmptyString => EmptyString
  | String c s => String (if Ascii.eqb c a then b else c) (replaceChar a b s)
  end.

(** [parseCommand] *)
Definition clientCommand (command : string) : CM unit :=
  match fromText command with
  | None => mret tt
  | Some obj =>
      match value obj "type" with
      | JString type =>
          st ← getC m_daemonState;
          if bool_decide (st = eInitializing) && String.eqb type "status" then statusWhileInitializing obj
          else if negb (bool_decide (st = eReady)) then mret tt
          else if String.eqb type "status" then statusWhileReady obj
          else if String.eqb type "disconnected" then disconnectInternal
          else if String.eqb type "connected" then
            match value obj "pubkey" with
            | JString k => emit (CConnected k)
            | _ => mret tt
            end
          else if String.eqb type "logs" then
            answerLogs (match value obj "logs" with
                        | JString text => replaceChar "|" newline_char text
                        | _ => ""
                        end)
          else mret tt
      | _ => mret tt
      end
  end.

End Client.

(** ** What the daemon makes of a request *)

Section Received.
  Context {env : QtEnv} (raw : QJsonObject).

(** The network a site or an allowed address stands for. *)
Definition siteNet (text : string) : IPAddress :=
  match qsplit "/" text with
  | a :: r :: _ => mkIP (parseAddress a) (toInt (JInt (atoi r)))
  | _ => mkIP (parseAddress text) 32
  end.

(** The ranges routed through the tunnel: those of the WireGuard configuration
    if it restricts them, else everything or the listed sites. *)
Definition requestedRanges : list IPAddress :=
  let allowed := toArray (value (wgConfig raw) "allowed_ips") in
  let nets l := map (λ v, siteNet (qtext (toQString v))) l in
  if negb (isDefaultAllowed allowed) && negb (bool_decide (length allowed = 0%nat)) then nets allowed
  else if (splitTunnelType raw =? 0) || (splitTunnelType raw =? 2)
       then [mkIP (parseAddress "0.0.0.0") 0; mkIP (parseAddress "::") 0]
  else if splitTunnelType raw =? 1 then nets (splitTunnelSites raw) else [].

Lemma parseRange_site v : parseRange (siteRange v) = Some (siteNet (qtext (toQString v))).
Proof.
  unfold siteRange, siteNet. destruct (qsplit "/" _) as [|a [|r l]]; done.
Qed.

Lemma parseRangeList_app l1 l2 ips1 ips2 :
  parseRangeList l1 = Some ips1 → parseRangeList l2 = Some ips2 → parseRangeList (l1 ++ l2) = Some (ips1 ++ ips2).
Proof.
  revert ips1. induction l1 as [|v l1 IH]; intros ips1; [by intros [= <-]|]. cbn [parseRangeList app].
  intros H1 H2. apply bind_Some in H1 as (ip & Hip & H1). apply bind_Some in H1 as (ips & Hl & H1).
  injection H1 as <-. rewrite Hip. simpl. by rewrite (IH _ Hl H2).
Qed.

Lemma parseRangeList_sites l :
  parseRangeList (map siteRange l) = Some (map (λ v, siteNet (qtext (toQString v))) l).
Proof.
  induction l as [|v l IH]; [done|]. cbn [map parseRangeList]. rewrite parseRange_site. simpl. by rewrite IH.
Qed.

Lemma allowedRanges_parsed : parseRangeList (allowedRanges raw) = Some requestedRanges.
Proof.
  unfold allowedRanges, requestedRanges. destruct (negb _ && negb _); [apply parseRangeList_sites|].
  destruct ((splitTunnelType raw =? 0) || (splitTunnelType raw =? 2)) eqn:H02.
  - assert (splitTunnelType raw =? 1 = false) as ->.
    { apply orb_true_iff in H02 as [H%Z.eqb_eq|H%Z.eqb_eq]; by rewrite H. }
    rewrite app_nil_r. done.
  - destruct (splitTunnelType raw =? 1); [apply parseRangeList_sites|done].
Qed.

(** The value sent under a key, and whether it is sent. *)
Lemma request_value k :
  value (activateRequest raw) k =
    match last_value (requestFields raw ++
      if withJunk raw then map (λ k, (k, value (wgConfig raw) k)) junkKeys else []) k with
    | Some v => v | None => JUndefined end.
Proof. unfold activateRequest. by rewrite value_inserts. Qed.

Lemma request_contains k :
  contains_key (activateRequest raw) k = negb (isUndefined (value (activateRequest raw) k)).
Proof. rewrite request_value. unfold activateRequest. rewrite contains_inserts. by destruct (last_value _ k). Qed.

(** The fields that do not depend on the junk parameters. *)
Lemma request_fields :
  Forall (λ kv, value (activateRequest raw) kv.1 = kv.2) (requestFields raw).
Proof. repeat constructor; simpl; rewrite request_value; by destruct (withJunk raw). Qed.

Lemma request_absent k :
  k ∈ ["hopType"; "serverIpv6AddrIn"; "serverIpv6Gateway"] → value (activateRequest raw) k = JUndefined.
Proof.
  intros Hk. repeat (apply elem_of_cons in Hk as [->|Hk]); [..|by apply elem_of_nil in Hk];
    rewrite request_value; by destruct (withJunk raw).
Qed.

(** A junk parameter is sent as it is, or not at all. *)
Lemma request_junk k :
  k ∈ junkKeys → value (activateRequest raw) k = if withJunk raw then value (wgConfig raw) k else JUndefined.
Proof.
  intros Hk. unfold junkKeys in Hk. repeat (apply elem_of_cons in Hk as [->|Hk]); [..|by apply elem_of_nil in Hk];
    rewrite request_value; by destruct (withJunk raw).
Qed.

(** What the sender has to have for a request to be accepted. *)
Record sendable (priv pub host : string) (sites apps : list string) : Prop := {
  send_priv : value (wgConfig raw) "client_priv_key" = JString priv;
  send_pub : value (wgConfig raw) "server_pub_key" = JString pub;
  send_host : value (wgConfig raw) "hostName" = JString host;
  send_dns : isUndefined (value raw "dns1") || isString (value raw "dns1") = true;
  send_sites : splitTunnelSites raw = map JString sites;
  send_apps : toArray (value raw "splitTunnelApps") = map JString apps;
}.

Lemma all_strings_texts l : all_strings (map (λ v, JText (toQString v)) (map JString l)) = Some l.
Proof. rewrite map_map. apply all_strings_map. Qed.

Lemma orKeep_request k :
  k ∈ junkKeys → orKeep (activateRequest raw) k None =
    if withJunk raw then toQString (value (wgConfig raw) k) else None.
Proof.
  intros Hk. unfold orKeep. rewrite request_junk by done. destruct (withJunk raw); [|done].
  by destruct (value (wgConfig raw) k).
Qed.

(** The configuration the daemon ends up with. *)
Definition requested (priv pub host : string) (sites apps : list string) : InterfaceConfig :=
  let junk k := if withJunk raw then toQString (value (wgConfig raw) k) else None in
  {| m_hopType := SingleHop;
     m_privateKey := Some priv;
     m_deviceIpv4Address := toQString (value (wgConfig raw) "client_ip");
     m_deviceIpv6Address := Some "fd58:baa6:dead::1";
     m_serverIpv4Gateway := Some host;
     m_serverIpv6Gateway := None;
     m_serverPublicKey := Some pub;
     m_serverIpv4AddrIn := Some host;
     m_serverPskKey := toQString (value (wgConfig raw) "psk_key");
     m_serverIpv6AddrIn := None;
     m_dnsServer := toQString (value raw "dns1");
     m_serverPort := toInt (value (wgConfig raw) "port");
     m_deviceMTU := parseMTU (inserts [] [("deviceMTU", value (wgConfig raw) "mtu")]);
     m_allowedIPAddressRanges := sortRanges requestedRanges;
     m_excludedAddresses := host :: (if splitTunnelType raw =? 2 then sites else []);
     m_vpnDisabledApps := apps;
     m_killSwitchEnabled := variantToBool (toQString (value raw "killSwitchOption"));
     m_junkPacketCount := junk "Jc"; m_junkPacketMinSize := junk "Jmin"; m_junkPacketMaxSize := junk "Jmax";
     m_initPacketJunkSize := junk "S1"; m_responsePacketJunkSize := junk "S2";
     m_initPacketMagicHeader := junk "H1"; m_responsePacketMagicHeader := junk "H2";
     m_underloadPacketMagicHeader := junk "H3"; m_transportPacketMagicHeader := junk "H4" |}.

Lemma request_parsed priv pub host sites apps hop kill :
  sendable priv pub host sites apps →
  parseConfig (activateRequest raw) (defaultConfig hop kill) = Some (requested priv pub host sites apps).
Proof.
  intros [Hpriv Hpub Hhost Hdns Hsites Happs].
  pose proof request_fields as HF. unfold requestFields in HF.
  repeat (apply Forall_cons_1 in HF as [? HF]). cbn [fst snd] in *. clear HF.
  assert (∀ k, k ∈ ["hopType"; "serverIpv6AddrIn"; "serverIpv6Gateway"] →
    value (activateRequest raw) k = JUndefined) as Habs by apply request_absent.
  unfold parseConfig, getString, getDouble. rewrite !request_contains.
  repeat match goal with H : value (activateRequest raw) ?k = _ |- _ => rewrite !H; clear H end.
  rewrite Hpriv, Hpub, Hhost. simpl. rewrite andb_false_r.
  assert (parseDns (activateRequest raw) = Some (toQString (value raw "dns1"))) as ->.
  { unfold parseDns. rewrite request_contains, H9. by destruct (value raw "dns1"). }
  assert (parseHopType (activateRequest raw) = Some SingleHop) as ->.
  { unfold parseHopType. by rewrite request_contains, Habs by set_solver. }
  assert (parseRanges (activateRequest raw) [] = Some (sortRanges requestedRanges)) as ->.
  { unfold parseRanges. rewrite request_contains, H10. simpl. by rewrite allowedRanges_parsed. }
  assert (parseStringList (activateRequest raw) "excludedAddresses" =
    Some (host :: if splitTunnelType raw =? 2 then sites else [])) as ->.
  { unfold parseStringList. rewrite request_contains, H11. unfold excludedList. rewrite Hhost, Hsites. simpl.
    destruct (splitTunnelType raw =? 2); [by rewrite all_strings_texts|done]. }
  assert (parseStringList (activateRequest raw) "vpnDisabledApps" = Some apps) as ->.
  { unfold parseStringList. rewrite request_contains, H12, Happs. apply all_strings_map. }
  simpl. rewrite !orKeep_request by set_solver. rewrite !Habs by set_solver.
  assert (parseMTU (activateRequest raw) = parseMTU (inserts [] [("deviceMTU", value (wgConfig raw) "mtu")])) as ->.
  { unfold parseMTU. rewrite request_contains, contains_inserts, value_inserts, H6. by destruct (value (wgConfig raw) "mtu"). }
  unfold requested. by rewrite Z.mul_1_r.
Qed.

End Received.

(** ** Handlers *)

Section Handlers.
  Context {W : Type} {platform : Platform W} {plaws : PlatformLaws platform} {env : QtEnv}
    {jt : JsonText} {jlaws : JsonTextLaws jt}.

Lemma daemonCall_total {A} (m : DM W A) s : total m → ∃ a s' t, daemonCall m s = (Ok a, s', t).
Proof. intros Hm. unfold daemonCall. destruct (Hm s) as (a & s' & t & ->). by eexists _, _, _. Qed.

Lemma total_getStatus : total (getStatus (W := W)).
Proof. unfold getStatus. repeat (first [apply total_bind; [|intros ?] | apply total_doCall | apply total_getD
  | apply total_peerStatus | apply total_ret | case_match]). Qed.

Lemma total_activate c : total (activate (W := W) 2 c).
Proof.
  intros s. destruct (activate_outcome 2 c s) as (b & s' & t & H & _); [lia|]. eauto.
Qed.

Lemma serverCommand_total hop kill : handler_total (serverCommand (W := W) hop kill).
Proof.
  intros command s. unfold serverCommand. destruct (fromText command) as [obj|]; [|by eexists _, _].
  destruct (value obj "type"); try by eexists _, _.
  destruct (String.eqb s0 "activate").
  { destruct (parseConfig obj (defaultConfig hop kill)) as [c|]; [|by eexists _, _].
    unfold mbind, M_bind. destruct (daemonCall_total _ s (total_activate c)) as (b & s' & t & ->).
    destruct b; by eexists _, _. }
  destruct (String.eqb s0 "deactivate").
  { unfold mbind, M_bind. destruct (daemonCall_total _ s (total_deactivate true)) as (b & s' & t & ->). by eexists _, _. }
  destruct (String.eqb s0 "status").
  { unfold mbind, M_bind. destruct (daemonCall_total _ s total_getStatus) as (b & s' & t & ->). by eexists _, _. }
  destruct (String.eqb s0 "logs"); by eexists _, _.
Qed.

End Handlers.

Section ClientHandlers.
  Context {W : Type} {client : ClientEnv W} {env : QtEnv} {jt : JsonText} {jlaws : JsonTextLaws jt}.

Lemma clientCommand_total : handler_total (clientCommand (W := W)).
Proof.
  intros command s. unfold clientCommand. destruct (fromText command) as [obj|]; [|by eexists _, _].
  destruct (value obj "type"); try by eexists _, _. unfold mbind at 1, M_bind at 1, getC, gets. simpl.
  destruct (bool_decide _ && _).
  { unfold statusWhileInitializing. run_m. destruct (value obj "connected") as [| |[]| | | |]; try by eexists _, _.
    destruct (value obj "date"); try by eexists _, _. destruct (parseDate _); by eexists _, _. }
  destruct (bool_decide _); simpl; [|by eexists _, _].
  destruct (String.eqb _ "status").
  { unfold statusWhileReady. destruct (value obj "serverIpv4Gateway"), (value obj "deviceIpv4Address"); try by eexists _, _.
    destruct (isDouble _), (isDouble _); by eexists _, _. }
  destruct (String.eqb _ "disconnected"); [by eexists _, _|].
  destruct (String.eqb _ "connected"); [destruct (value obj "pubkey"); by eexists _, _|].
  destruct (String.eqb _ "logs"); [|by eexists _, _].
  unfold answerLogs. run_m. destruct (m_logCallback (globals s)); by eexists _, _.
Qed.

End ClientHandlers.
