(* ===== verification/LocalSocketSpec.v ===== *)
(** * Properties of the local socket

    Delivery of the messages at both ends, what becomes of an activation
    request, the retries of the client and its initialisation, proved about the
    definitions of [LineProtocol.v] and [LocalSocket.v]. *)

From Stdlib Require Import ZArith Lia Ascii.
From stdpp Require Import prelude strings list gmap.
From S2P Require Import Prelude IPAddress QtJson InterfaceConfig Daemon DaemonSpec LineProtocol LocalSocket.

Local Open Scope Z_scope.

(** ** Vocabulary *)

(** [n] failed attempts to reach the daemon, each followed by the timer. *)
Fixpoint failedAttempts {W} {client : ClientEnv W} {env : QtEnv} (n : nat) : CM (W := W) unit :=
  match n with
  | O => mret tt
  | S n => errorOccurred;; initTimeout;; failedAttempts n
  end.

Definition socketPath {W} {client : ClientEnv W} {env : QtEnv} (w : W) : string :=
  if onWindows then "\\.\pipe\amneziavpn"
  else if pathExists w "/var/run/amneziavpn/daemon.socket" then "/var/run/amneziavpn/daemon.socket"
  else "/tmp/amneziavpn.socket".

(** What a complete run of failed attempts does. *)
Definition attemptLog {W} {client : ClientEnv W} {env : QtEnv} (w : W) (n : nat) : list CEvent :=
  mjoin (replicate n [CTimerStart CONNECTION_RETRY_TIMER_MSEC; CConnectToServer (socketPath w)]).

Definition statusRequest : QJsonObject := inserts [] [("type", JString "status")].

(** The daemon reports a connection: the first one, if a peer has its key and
    the interface exists. *)
Definition reportedConnection {W} {platform : Platform W} (s : Sys Daemon W) : option ConnectionState :=
  let '(ex, w1) := call InterfaceExists (world s) in
  match connectionList (m_connections (globals s)) with
  | cn :: _ =>
      if ex && existsb (λ st, qeqb (m_pubkey st) (m_serverPublicKey (m_config cn))) (getPeerStatus w1).1
      then Some cn else None
  | [] => None
  end.

(** What the client learns from the first status reply; [text] writes dates. *)
Definition learned {W} {client : ClientEnv W} (text : option Z → string) (r : option ConnectionState) : list CEvent :=
  match r with
  | None => [CInitialized true false None]
  | Some cn =>
      match parseDate (text (m_date cn)) with
      | Some d => [CInitialized true true (Some d)]
      | None => []
      end
  end.

(** ** Lemmas *)

Section Retry.
  Context {W : Type} {client : ClientEnv W} {env : QtEnv}.

Lemma initTimeout_run c w :
  initTimeout (mkSys c w) =
    (Ok tt, mkSys (mkController eInitializing (m_logCallback c) false (m_initializingRetry c)) w,
     [CConnectToServer (socketPath w)]).
Proof. done. Qed.

Lemma failedAttempts_run n cb tm k (w : W) :
  0 <= k → k + Z.of_nat n <= MAX_CONNECTION_RETRY →
  ∃ tm', failedAttempts n (mkSys (mkController eInitializing cb tm k) w) =
    (Ok tt, mkSys (mkController eInitializing cb tm' (k + Z.of_nat n)) w, attemptLog w n).
Proof.
  revert k tm. induction n as [|n IH]; intros k tm Hk Hle.
  { exists tm. simpl. by rewrite Z.add_0_r. }
  cbn [failedAttempts]. unfold mbind, M_bind at 1, errorOccurred, mbind, M_bind. simpl.
  unfold MAX_CONNECTION_RETRY in *. destruct (Z.ltb_spec k 10); [|lia]. simpl.
  rewrite Z.mod_small by lia. destruct (IH (k + 1) false ltac:(lia) ltac:(lia)) as [tm' HIH]. exists tm'.
  unfold setState, setInitTimer, setRetry; cbn [m_daemonState m_logCallback m_initializingTimer m_initializingRetry].
  rewrite HIH. replace (k + 1 + Z.of_nat n) with (k + Z.of_nat (S n)) by lia. done.
Qed.

Lemma errorOccurred_last cb tm (w : W) :
  errorOccurred (mkSys (mkController eInitializing cb tm MAX_CONNECTION_RETRY) w) =
    (Ok tt, mkSys (mkController eReady cb false 0) w, [CInitialized false false None; CTimerStop; CDisconnected]).
Proof. done. Qed.

(** [C26] Reaching the daemon.  After [initialize] the controller answers each of
    the first ten errors of the socket by another attempt half a second later,
    and the eleventh by reporting the service unavailable, once, and stopping;
    it is then ready for a new connection with its counter at 0. *)
Theorem connection_retries (s : Sys LocalSocketController W) :
  (initialize;; failedAttempts 10;; errorOccurred) s =
    (Ok tt, mkSys (mkController eReady (m_logCallback (globals s)) false 0) (world s),
     [CConnectToServer (socketPath (world s))] ++ attemptLog (world s) 10 ++
     [CInitialized false false None; CTimerStop; CDisconnected]).
Proof.
  destruct s as [[st cb tm k] w]. unfold mbind, M_bind.
  change (initialize (mkSys (mkController st cb tm k) w)) with
    (Ok tt : res Empty_set unit, mkSys (mkController eInitializing cb tm 0) w, [CConnectToServer (socketPath w)]).
  destruct (failedAttempts_run 10 cb tm 0 w) as [tm' Hrun]; [done..|]. rewrite Hrun.
  change (0 + Z.of_nat 10) with MAX_CONNECTION_RETRY. by rewrite errorOccurred_last.
Qed.

End Retry.

Section Delivery.
  Context {W : Type} {platform : Platform W} {plaws : PlatformLaws platform} {env : QtEnv}
    {jt : JsonText} {jlaws : JsonTextLaws jt}.


End Delivery.

Section ClientDelivery.
  Context {W : Type} {client : ClientEnv W} {env : QtEnv} {jt : JsonText} {jlaws : JsonTextLaws jt}.

(** Delivery to the client: the same for the controller's [readData], which
    reads one chunk per signal of the socket. *)
Theorem client_delivery (msgs : list QJsonObject) (chunks : list string)
    (fuel : nat) (s : Sys LocalSocketController W)
    (Hchunks : joined chunks = joined (map written msgs))
    (Hfuel : (String.length (joined chunks) < fuel)%nat) :
  ∃ s' t, for_each (map toText msgs) clientCommand s = (Ok tt, s', t) ∧
    clientReads clientCommand fuel (length chunks) (mkReader "" chunks s) = (Ok tt, mkReader "" [] s', t).
Proof.
  destruct (clientReads_run clientCommand clientCommand_total fuel "" chunks s)
    as (s' & t & H1 & H2); [done..|]. exists s', t.
  change ("" +:+ joined chunks) with (joined chunks) in *. rewrite Hchunks in H1, H2.
  destruct (commands_written msgs) as [Hc Hp]. by rewrite Hc in H1; rewrite Hp in H2.
Qed.

End ClientDelivery.

Section Initialisation.
  Context {W WC : Type} {platform : Platform W} {client : ClientEnv WC} {env : QtEnv}
    {jt : JsonText} {jlaws : JsonTextLaws jt}.

Lemma statusOf_cases cn peers :
  if existsb (λ st, qeqb (m_pubkey st) (m_serverPublicKey (m_config cn))) peers
  then ∃ tx rx, statusOf (platform := platform) cn peers = inserts []
    [("connected", JBool true); ("serverIpv4Gateway", JText (m_serverIpv4Gateway (m_config cn)));
     ("deviceIpv4Address", JText (m_deviceIpv4Address (m_config cn)));
     ("date", JString (dateText (m_date cn))); ("txBytes", JInt tx); ("rxBytes", JInt rx)]
  else statusOf (platform := platform) cn peers = inserts [] [("connected", JBool false)].
Proof.
  induction peers as [|st peers IH]; [done|]. cbn [existsb statusOf].
  destruct (qeqb (m_pubkey st) (m_serverPublicKey (m_config cn))); [by eexists _, _|done].
Qed.

(** The report depends on the reported connection only. *)
Lemma getStatus_reported (s : Sys Daemon W) :
  ∃ obj s' t, getStatus s = (Ok obj, s', t) ∧ globals s' = globals s ∧
    match reportedConnection s with
    | None => value obj "connected" = JBool false
    | Some cn => value obj "connected" = JBool true ∧ value obj "date" = JString (dateText (m_date cn))
    end.
Proof.
  destruct s as [d w]. unfold reportedConnection. simpl. destruct (call InterfaceExists w) as [ex w1] eqn:Hex.
  unfold getStatus, mbind, M_bind, doCall, ask, getD, gets. simpl. rewrite Hex. simpl.
  destruct (connectionList (m_connections d)) as [|cn l]; [by eexists _, _, _|].
  destruct ex; simpl; [|by eexists _, _, _].
  unfold peerStatus. simpl. destruct (getPeerStatus w1) as [peers w2]. simpl.
  eexists _, _, _. split; [done|]. split; [done|]. pose proof (statusOf_cases cn peers) as H.
  destruct (existsb _ peers); [|by rewrite H]. destruct H as (tx & rx & ->). done.
Qed.

Lemma status_exchange hop kill (s : Sys Daemon W) (cs : Sys LocalSocketController WC) :
  m_daemonState (globals cs) = eInitializing →
  ∃ s' t o, serverCommand hop kill (toText statusRequest) s = (Ok tt, s', t ++ [SWrite o]) ∧
    globals s' = globals s ∧
    clientCommand (toText o) cs =
      (Ok tt, mkSys (setState eReady (globals cs)) (world cs), learned (dateText (Platform := platform)) (reportedConnection s)).
Proof.
  intros Hinit. destruct (getStatus_reported s) as (obj & s' & t & Hrun & Hg & Hobj).
  exists s', (flat_map signalled t), (insert_key obj "type" (JString "status")). split_and!; [|done|].
  - unfold serverCommand. destruct (text_parses statusRequest) as (o' & -> & Ho).
    rewrite (Ho "type") by done. simpl. unfold mbind, M_bind, daemonCall. by rewrite Hrun.
  - unfold clientCommand. destruct (text_parses (insert_key obj "type" (JString "status"))) as (o' & -> & Ho).
    rewrite (Ho "type"), value_insert by (by rewrite value_insert). simpl.
    unfold mbind, M_bind, getC, gets. simpl. rewrite Hinit. simpl.
    unfold statusWhileInitializing, mbind, M_bind, setC, modify. simpl.
    specialize (Ho "connected") as Hc. specialize (Ho "date") as Hd. rewrite value_insert in Hc, Hd. simpl in Hc, Hd.
    destruct (reportedConnection s) as [cn|]; last by rewrite Hc, Hobj by (by rewrite Hobj).
    destruct Hobj as [H1 H2]. rewrite Hc, Hd, H1, H2 by (by rewrite ?H1, ?H2).
    unfold learned. by destruct (parseDate (dateText (m_date cn))).
Qed.

(** The first exchange: the daemon answers the status request of an
    initialising controller without changing its own state, and the answer makes
    the controller ready and tells it whether the tunnel is up, and since when,
    provided the date can be read. *)
Theorem initial_status (hop : HopType) (kill : bool) (s : Sys Daemon W) (cs : Sys LocalSocketController WC)
    (Hinit : m_daemonState (globals cs) = eInitializing) :
  ∃ s' t o, serverCommand hop kill (toText statusRequest) s = (Ok tt, s', t ++ [SWrite o]) ∧
    globals s' = globals s ∧
    clientCommand (toText o) cs =
      (Ok tt, mkSys (setState eReady (globals cs)) (world cs), learned (dateText (Platform := platform)) (reportedConnection s)).
Proof. by apply status_exchange. Qed.

(** A tunnel that is up but still awaits its handshake has no date, and the
    controller drops the reply: it becomes ready without ever reporting that it
    is initialised. *)
Theorem pending_handshake_uninitialised (hop : HopType) (kill : bool) (s : Sys Daemon W)
    (cs : Sys LocalSocketController WC) (cn : ConnectionState)
    (Hinit : m_daemonState (globals cs) = eInitializing)
    (Hup : reportedConnection s = Some cn) (Hwait : m_date cn = None)
    (Hdate : parseDate (dateText (Platform := platform) None) = None) :
  ∃ s' t o, serverCommand hop kill (toText statusRequest) s = (Ok tt, s', t ++ [SWrite o]) ∧
    clientCommand (toText o) cs = (Ok tt, mkSys (setState eReady (globals cs)) (world cs), []).
Proof.
  destruct (status_exchange hop kill s cs Hinit) as (s' & t & o & H1 & _ & H2). exists s', t, o. split; [done|].
  rewrite H2, Hup. unfold learned. by rewrite Hwait, Hdate.
Qed.

End Initialisation.

Section Activation.
  Context {W WC : Type} {platform : Platform W} {plaws : PlatformLaws platform} {client : ClientEnv WC}
    {env : QtEnv} {jt : JsonText} {jlaws : JsonTextLaws jt}.

(** The poll writes a connected message for every handshake it notices. *)
Lemma timeout_writes (s : Sys Daemon W) cn st :
  cn ∈ connectionList (m_connections (globals s)) → m_date cn = None →
  st ∈ shaken (getPeerStatus (world s)).1 (m_config cn) →
  SWrite (connectedMessage (m_pubkey st)) ∈ log_of (serverTimeout s).
Proof.
  rewrite !list_elem_of_In. intros Hcn Hdate Hst. unfold serverTimeout, daemonCall, log_of. rewrite timeout_run. simpl.
  apply in_flat_map. exists (EvConnected (m_pubkey st)). split; [|right; by left].
  apply in_or_app. left. apply in_flat_map. exists cn. split; [done|]. unfold announced. rewrite Hdate.
  by apply (in_map (λ st, EvConnected (m_pubkey st))).
Qed.

(** [C6] Every line that parses as an activation request is answered.  Either the daemon refuses or
    fails and the last thing it writes is the disconnected message, on which a
    ready controller reports disconnected; or it has recorded the configuration,
    its timer is running, and once the poll finds the peer's handshake it writes
    the connected message with the peer's key, on which the controller reports
    connected. *)
Theorem activation_answered (hop : HopType) (kill : bool) (data : string) (obj : QJsonObject) (s : Sys Daemon W)
    (cs : Sys LocalSocketController WC) (pubkey : string) (Hdata : fromText data = Some obj)
    (Htype : value obj "type" = JString "activate") (Hready : m_daemonState (globals cs) = eReady) :
  (∃ s' t, serverCommand hop kill data s = (Ok tt, s', t) ∧
    ((∃ t', t = t' ++ [SWrite disconnectedMessage]) ∨
     ∃ c, parseConfig obj (defaultConfig hop kill) = Some c ∧
       m_connections (globals s') !! m_hopType c = Some (newConnection c) ∧
       m_handshakeTimer (globals s') = true)) ∧
  (∀ s1 cn st, cn ∈ connectionList (m_connections (globals s1)) → m_date cn = None →
     st ∈ shaken (getPeerStatus (world s1)).1 (m_config cn) →
     SWrite (connectedMessage (m_pubkey st)) ∈ log_of (serverTimeout s1)) ∧
  CDisconnected ∈ log_of (clientCommand (toText disconnectedMessage) cs) ∧
  log_of (clientCommand (toText (connectedMessage (Some pubkey))) cs) = [CConnected pubkey].
Proof.
  split; [|split; [|split]].
  - unfold serverCommand. rewrite Hdata, Htype. change (String.eqb "activate" "activate") with true. cbv iota.
    destruct (parseConfig obj (defaultConfig hop kill)) as [c|]; last first.
    { exists s, [SWrite disconnectedMessage]. split; [done|]. left. by exists []. }
    destruct (activate_outcome 2 c s) as (b & s' & t & Hrun & Hb); [lia|].
    unfold mbind, M_bind, daemonCall. rewrite Hrun. destruct b; cbn [negb when].
    + eexists _, _. split; [done|]. right. exists c. destruct Hb as [_ [? ?]]. done.
    + eexists _, _. split; [done|]. left. by eexists.
  - apply timeout_writes.
  - unfold clientCommand. destruct (text_parses disconnectedMessage) as (o' & -> & Ho). rewrite (Ho "type") by done.
    unfold log_of, mbind, M_bind, getC, gets. simpl. rewrite Hready. simpl. set_solver.
  - unfold clientCommand. destruct (text_parses (connectedMessage (Some pubkey))) as (o' & -> & Ho).
    rewrite (Ho "type"), (Ho "pubkey") by done. unfold log_of, mbind, M_bind, getC, gets. simpl. by rewrite Hready.
Qed.

End Activation.

Section Requests.
  Context {env : QtEnv}.


End Requests.

(** ** Examples *)

Module SimClient.

(** A client on a machine with the usual socket; the daemon's dates are those of
    [SimDaemon]. *)
#[global] Instance env : ClientEnv unit := {
  pathExists _ _ := true;
  parseDate text := if String.eqb text "" then None else Some 1704067200000;
}.

Definition initialising : Sys LocalSocketController unit := mkSys (mkController eInitializing None false 0) tt.
Definition ready : Sys LocalSocketController unit := mkSys (mkController eReady None false 0) tt.

(** An application configuration with one exception from the tunnel. *)
Definition rawSample : QJsonObject :=
  [("protocol", JString "awg"); ("splitTunnelType", JInt 2);
   ("splitTunnelSites", JArray [JString "10.1.0.0/16"]); ("splitTunnelApps", JArray []);
   ("dns1", JString "1.1.1.1"); ("killSwitchOption", JString "true");
   ("awg_config_data", JObject
     [("client_priv_key", JString "cHJpdg=="); ("client_ip", JString "10.8.1.2");
      ("server_pub_key", JString "cHVi"); ("hostName", JString "203.0.113.7"); ("port", JInt 51820);
      ("mtu", JString "1376"); ("Jc", JString "4")])].

(** The daemon with a tunnel whose peer is known and has not answered yet. *)
Definition pending : Sys Daemon SimDaemon.World :=
  mkSys (globals (simActivated []))
    (SimDaemon.mkWorld true (λ _, false) [mkPeer (Some "cHVibGlj") 0 0 0]).

End SimClient.

Import SimClient.


Lemma client_delivery_witness :
  ∃ s' t,
    for_each (map toText [disconnectedMessage]) clientCommand ready = (Ok tt, s', t) ∧
    clientReads clientCommand (S (String.length (written disconnectedMessage))) 2
      (mkReader "" [toText disconnectedMessage; String newline_char ""] ready) = (Ok tt, mkReader "" [] s', t).
Proof.
  apply (client_delivery [disconnectedMessage] [toText disconnectedMessage; String newline_char ""]).
  - unfold joined, written; cbn [map foldr]. by rewrite !sapp_nil_r.
  - unfold joined, written; cbn [map foldr]. rewrite sapp_nil_r. lia.
Defined.

Lemma initial_status_witness :
  ∃ s' t o, serverCommand SingleHop false (toText statusRequest) simStart = (Ok tt, s', t ++ [SWrite o]) ∧
    globals s' = globals simStart ∧
    clientCommand (toText o) initialising =
      (Ok tt, mkSys (setState eReady (globals initialising)) tt, [CInitialized true false None]).
Proof. exact (initial_status SingleHop false simStart initialising eq_refl). Defined.

Lemma pending_handshake_uninitialised_witness :
  ∃ s' t o, serverCommand SingleHop false (toText statusRequest) pending = (Ok tt, s', t ++ [SWrite o]) ∧
    clientCommand (toText o) initialising = (Ok tt, mkSys (setState eReady (globals initialising)) tt, []).
Proof.
  apply (pending_handshake_uninitialised SingleHop false pending initialising
    (newConnection (SimDaemon.withExclusions []))); vm_compute; reflexivity.
Defined.

Lemma activation_answered_witness :
  log_of (clientCommand (toText (connectedMessage (Some "cHVi"))) ready) = [CConnected "cHVi"].
Proof.
  destruct (activation_answered SingleHop false (toText (activateRequest rawSample)) (activateRequest rawSample)
    simStart ready "cHVi" (SimJson.roundtrip _) eq_refl eq_refl) as (_ & _ & _ & H). exact H.
Defined.


(** A site that is an IPv6 address without a prefix length. *)
Definition ipv6Site : QHostAddress := IPv6 [253; 0; 0; 0; 0; 0; 0; 0; 0; 0; 0; 0; 0; 0; 0; 7].

(** A site or an allowed address without a prefix length is sent with the
    range 32, an IPv6 address too: the daemon then routes its whole /32 network
    through the tunnel, not the one address. *)
Theorem ipv6_site_becomes_network :
  let net := mkIP ipv6Site 32 in
  parseRange (siteRange (JString (addressText ipv6Site))) = Some net ∧
  contains net (IPv6 [253; 0; 0; 0; 1; 2; 3; 4; 5; 6; 7; 8; 9; 10; 11; 12]) = true ∧
  contains (fromHost ipv6Site) (IPv6 [253; 0; 0; 0; 1; 2; 3; 4; 5; 6; 7; 8; 9; 10; 11; 12]) = false.
Proof. cbn zeta. split_and!; vm_compute; reflexivity. Qed.
