(* ===== verification/SplitTunnel.v ===== *)
(** * Split tunnelling

    Which sites and applications use the tunnel, from the user's settings to the
    daemon.  [Settings] models the split-tunnel part of [src/client/settings.cpp]
    and [settings.h] over the store of [SecureSettings.v]; [SitesModel] and
    [AppSplitTunnelingModel] model the list models of [src/client/ui/models]
    shown to the user; [appendSplitTunnelingConfig] and [appendKillSwitchConfig]
    are the functions of [src/client/vpnconnection.cpp] that put the settings into
    the VPN configuration the [LocalSocketController] sends.

    A [QVariantMap] is an association list sorted by its keys.  A route mode is
    the integer in the settings; using one that is not an enumerator is undefined
    behaviour.  The calls that only tell views of a change are left out, the
    models' own signals are kept. *)

From stdpp Require Import prelude strings list gmap pretty sorting.
From Stdlib Require Import ZArith Lia Ascii.
From S2P Require Import Prelude IPAddress QtJson InterfaceConfig Daemon DaemonSpec LineProtocol LocalSocket SecureSettings.

Local Open Scope Z_scope.

(** ** Variants and maps *)

(** [QString::toInt(&ok)] *)
Class TextEnv := { toIntOk : string → option Z }.

(** [QVariant::toInt] *)
Definition variantInt {te : TextEnv} (v : QVariant) : Z :=
  match v with
  | VBool b => if b then 1 else 0
  | VInt n => n
  | VString s | VBytes s => default 0 (toIntOk s)
  | _ => 0
  end.

(** [QVariant::toString], the null string as the empty one. *)
Definition variantText (v : QVariant) : string :=
  match v with
  | VBool b => if b then "true" else "false"
  | VInt n => pretty n
  | VString s | VBytes s => s
  | _ => ""
  end.

Definition QVariantMap := list (string * QVariant).

(** [QVariant::toMap] and [QVariant::toJsonArray] *)
Definition variantMap (v : QVariant) : QVariantMap := match v with VMap m => m | _ => [] end.
Definition variantArray (v : QVariant) : list QJson := match v with VJson l => l | _ => [] end.

Fixpoint map_find (m : QVariantMap) (k : string) : option QVariant :=
  match m with
  | [] => None
  | (j, v) :: m => if String.eqb j k then Some v else map_find m k
  end.

(** [QMap::insert], in the order of the keys. *)
Fixpoint map_put (m : QVariantMap) (k : string) (v : QVariant) : QVariantMap :=
  match m with
  | [] => [(k, v)]
  | (j, u) :: m' =>
      match String.compare k j with
      | Lt => (k, v) :: m
      | Eq => (k, v) :: m'
      | Gt => (j, u) :: map_put m' k v
      end
  end.

Definition map_drop (m : QVariantMap) (k : string) : QVariantMap :=
  List.filter (λ kv, negb (String.eqb kv.1 k)) m.

(** [QStringList::removeDuplicates] keeps the first occurrences. *)
Fixpoint unseen (seen l : list string) : list string :=
  match l with
  | [] => []
  | s :: l => if bool_decide (s ∈ seen) then unseen seen l else s :: unseen (s :: seen) l
  end.
Definition removeDuplicates (l : list string) : list string := unseen [] l.

(** ** Addresses (networkUtilities.cpp) *)

Fixpoint count_char (c : ascii) (s : string) : nat :=
  match s with
  | EmptyString => 0
  | String d s => (if Ascii.eqb c d then 1 else 0) + count_char c s
  end.

Definition checkIPv4Format {env : QtEnv} (ip : string) : bool :=
  if String.eqb ip "" then false
  else if negb (count_char "." ip =? 3)%nat then false
  else match parseAddress ip with IPv4 _ => true | _ => false end.

Definition checkIpSubnetFormat {env : QtEnv} {te : TextEnv} (ip : string) : bool :=
  if negb (has_char "/" ip) then checkIPv4Format ip
  else
    match qsplit "/" ip with
    | [a; p] =>
        match toIntOk p with
        | Some subnet => if (0 <=? subnet) && (subnet <=? 32) then checkIPv4Format a else false
        | None => false
        end
    | _ => false
    end.

(** ** Settings *)

Record InstalledAppInfo := mkApp { appName : string; packageName : string; appPath : string }.

(** [InstalledAppInfo::operator==] *)
Definition sameApp (a b : InstalledAppInfo) : bool :=
  if negb (String.eqb (packageName a) "") then String.eqb (packageName a) (packageName b)
  else String.eqb (appPath a) (appPath b).

Definition VpnAllSites : Z := 0.
Definition VpnOnlyForwardSites : Z := 1.
Definition VpnAllExceptSites : Z := 2.
Definition VpnAllApps : Z := 0.
Definition VpnOnlyForwardApps : Z := 1.
Definition VpnAllExceptApps : Z := 2.

Module Settings.
Section Settings.
  Context {W : Type} {secrets : SecretEnv W} {env : QtEnv} {te : TextEnv}.
  Import SecureQSettings.

Definition routeModeString (mode : Z) : SM W string :=
  if mode =? VpnAllSites then mret "AllSites"
  else if mode =? VpnOnlyForwardSites then mret "ForwardSites"
  else if mode =? VpnAllExceptSites then mret "ExceptSites"
  else throw UndefinedBehaviour.

Definition routeMode : SM W Z := v ← value "Conf/routeMode" (VInt 0); mret (variantInt v).
Definition setRouteMode (mode : Z) : SM W unit := setValue "Conf/routeMode" (VInt mode).

Definition isSitesSplitTunnelingEnabled : SM W bool :=
  v ← value "Conf/sitesSplitTunnelingEnabled" (VBool false); mret (variantBool v).
Definition setSitesSplitTunnelingEnabled (enabled : bool) : SM W unit :=
  setValue "Conf/sitesSplitTunnelingEnabled" (VBool enabled).

Definition vpnSites (mode : Z) : SM W QVariantMap :=
  name ← routeModeString mode; v ← value ("Conf/" +:+ name) VInvalid; mret (variantMap v).
Definition setVpnSites (mode : Z) (sites : QVariantMap) : SM W unit :=
  name ← routeModeString mode; setValue ("Conf/" +:+ name) (VMap sites);; emit SSync.

Definition addVpnSite (mode : Z) (site ip : string) : SM W bool :=
  sites ← vpnSites mode;
  if bool_decide (is_Some (map_find sites site)) && String.eqb ip "" then mret false
  else setVpnSites mode (map_put sites site (VString ip));; mret true.

(** One entry of [addVpnSites]; variants of different types are different. *)
Definition mergeSite (allSites : QVariantMap) (entry : string * string) : QVariantMap :=
  match map_find allSites entry.1 with
  | Some (VString ip) => if String.eqb ip entry.2 then allSites else map_put allSites entry.1 (VString entry.2)
  | _ => map_put allSites entry.1 (VString entry.2)
  end.

Definition addVpnSites (mode : Z) (sites : list (string * string)) : SM W unit :=
  allSites ← vpnSites mode;
  setVpnSites mode (foldl mergeSite allSites sites).

(** The address an entry stands for. *)
Definition siteAddress (entry : string * QVariant) : list string :=
  if checkIpSubnetFormat entry.1 then [entry.1]
  else if checkIpSubnetFormat (variantText entry.2) then [variantText entry.2]
  else [].

Definition getVpnIps (mode : Z) : SM W (list string) :=
  m ← vpnSites mode;
  mret (removeDuplicates (flat_map siteAddress m)).

Definition removeVpnSite (mode : Z) (site : string) : SM W unit :=
  sites ← vpnSites mode;
  if bool_decide (is_Some (map_find sites site)) then setVpnSites mode (map_drop sites site) else mret tt.

Definition addVpnIps (mode : Z) (ips : list string) : SM W unit :=
  sites ← vpnSites mode;
  setVpnSites mode (foldl (λ m ip, if String.eqb ip "" then m else map_put m ip (VString "")) sites ips).

Definition removeVpnSites (mode : Z) (sites : list string) : SM W unit :=
  sitesMap ← vpnSites mode;
  setVpnSites mode (foldl (λ m site, if String.eqb site "" then m else map_drop m site) sitesMap sites).

Definition removeAllVpnSites (mode : Z) : SM W unit := setVpnSites mode [].

Definition appsRouteModeString (mode : Z) : SM W string :=
  if mode =? VpnAllApps then mret "AllApps"
  else if mode =? VpnOnlyForwardApps then mret "ForwardApps"
  else if mode =? VpnAllExceptApps then mret "ExceptApps"
  else throw UndefinedBehaviour.

Definition getAppsRouteMode : SM W Z := v ← value "Conf/appsRouteMode" (VInt 0); mret (variantInt v).
Definition setAppsRouteMode (mode : Z) : SM W unit := setValue "Conf/appsRouteMode" (VInt mode).

Definition appFromJson (app : QJson) : InstalledAppInfo :=
  let field k := qtext (toQString (QtJson.value (toObject app) k)) in
  mkApp (field "appName") (field "packageName") (field "appPath").

Definition appToJson (app : InstalledAppInfo) : QJson :=
  JObject (inserts [] [("appName", JString (appName app)); ("packageName", JString (packageName app));
                       ("appPath", JString (appPath app))]).

Definition getVpnApps (mode : Z) : SM W (list InstalledAppInfo) :=
  name ← appsRouteModeString mode; v ← value ("Conf/" +:+ name) VInvalid;
  mret (map appFromJson (variantArray v)).

Definition setVpnApps (mode : Z) (apps : list InstalledAppInfo) : SM W unit :=
  name ← appsRouteModeString mode; setValue ("Conf/" +:+ name) (VJson (map appToJson apps));; emit SSync.

Definition isAppsSplitTunnelingEnabled : SM W bool :=
  v ← value "Conf/appsSplitTunnelingEnabled" (VBool false); mret (variantBool v).
Definition setAppsSplitTunnelingEnabled (enabled : bool) : SM W unit :=
  setValue "Conf/appsSplitTunnelingEnabled" (VBool enabled).

Definition isKillSwitchEnabled : SM W bool :=
  v ← value "Conf/killSwitchEnabled" (VBool true); mret (variantBool v).
Definition setKillSwitchEnabled (enabled : bool) : SM W unit := setValue "Conf/killSwitchEnabled" (VBool enabled).

End Settings.
End Settings.

(** ** The list models *)

(** Code with its own variables [G] over the settings; the events of the settings
    are kept among its own. *)
Section OnSettings.
  Context {W G Ev : Type} (inject : SEvent → Ev).

Definition onSettings {A} (m : SecureQSettings.SM W A) : M (Sys G (Sys Secure W)) Ev Undefined A := λ s,
  match m (world s) with (r, w, t) => (r, mkSys (globals s) w, map inject t) end.

End OnSettings.

Inductive ModelEvent :=
| EvSettings (e : SEvent)
| EvDataChanged (row : nat)
| EvRowInserted (row : nat)
| EvRowRemoved (row : nat)
| EvModelReset
| EvRouteModeChanged
| EvToggled.

Record SitesModel := mkSites {
  m_sitesEnabled : bool;                  (* m_isSplitTunnelingEnabled *)
  m_currentRouteMode : Z;
  m_sites : list (string * string);
}.

(** How the loop of [addSite] ends. *)
Inductive Placed :=
| RowUpdated (row : nat) (rows : list (string * string))
| RowPresent
| NoRow.

Fixpoint placeSite (hostname ip : string) (i : nat) (before rows : list (string * string)) : Placed :=
  match rows with
  | [] => NoRow
  | (h, a) :: rows =>
      if String.eqb h hostname && (String.eqb a "" && negb (String.eqb ip ""))
      then RowUpdated i (before ++ (h, ip) :: rows)
      else if String.eqb h hostname && String.eqb a ip then RowPresent
      else placeSite hostname ip (S i) (before ++ [(h, a)]) rows
  end.

Module Sites.
Section Sites.
  Context {W : Type} {secrets : SecretEnv W} {env : QtEnv} {te : TextEnv}.
  Import Settings.

Definition ModelM (A : Type) : Type := M (Sys SitesModel (Sys Secure W)) ModelEvent Undefined A.

Definition getM {A} (f : SitesModel → A) : ModelM A := gets (λ s, f (globals s)).
Definition setM (f : SitesModel → SitesModel) : ModelM unit := modify (λ s, mkSys (f (globals s)) (world s)).
Definition settings {A} (m : SecureQSettings.SM W A) : ModelM A := onSettings EvSettings m.

Definition setEnabled (b : bool) (c : SitesModel) : SitesModel := mkSites b (m_currentRouteMode c) (m_sites c).
Definition setMode (mode : Z) (c : SitesModel) : SitesModel := mkSites (m_sitesEnabled c) mode (m_sites c).
Definition setRows (rows : list (string * string)) (c : SitesModel) : SitesModel :=
  mkSites (m_sitesEnabled c) (m_currentRouteMode c) rows.

Definition fillSites : ModelM unit :=
  mode ← getM m_currentRouteMode;
  sites ← settings (vpnSites mode);
  setM (setRows (map (λ kv, (kv.1, variantText kv.2)) sites)).

(** The constructor. *)
Definition constructSites : ModelM unit :=
  enabled ← settings isSitesSplitTunnelingEnabled;
  setM (setEnabled enabled);;
  mode ← settings routeMode;
  setM (setMode mode);;
  when (mode =? VpnAllSites)
    (settings (setRouteMode VpnOnlyForwardSites);; setM (setMode VpnOnlyForwardSites));;
  fillSites.

Definition addSite (hostname ip : string) : ModelM bool :=
  mode ← getM m_currentRouteMode;
  ok ← settings (addVpnSite mode hostname ip);
  if negb ok then mret false
  else
    rows ← getM m_sites;
    match placeSite hostname ip 0 [] rows with
    | RowUpdated i rows' => setM (setRows rows');; emit (EvDataChanged i);; mret true
    | RowPresent => mret false
    | NoRow => setM (setRows (rows ++ [(hostname, ip)]));; emit (EvRowInserted (length rows));; mret true
    end.

Definition addSites (sites : list (string * string)) (replaceExisting : bool) : ModelM unit :=
  mode ← getM m_currentRouteMode;
  when replaceExisting (settings (removeAllVpnSites mode));;
  settings (addVpnSites mode sites);;
  fillSites;;
  emit EvModelReset.

(** [m_sites.at] of a row out of range is undefined. *)
Definition removeSite (row : nat) : ModelM unit :=
  rows ← getM m_sites;
  match rows !! row with
  | None => throw UndefinedBehaviour
  | Some (hostname, _) =>
      mode ← getM m_currentRouteMode;
      settings (removeVpnSite mode hostname);;
      setM (setRows (delete row rows));;
      emit (EvRowRemoved row)
  end.

Definition changeRouteMode (mode : Z) : ModelM unit :=
  settings (setRouteMode mode);;
  mode' ← settings routeMode;
  setM (setMode mode');;
  fillSites;;
  emit EvModelReset;; emit EvRouteModeChanged.

Definition toggleSplitTunneling (enabled : bool) : ModelM unit :=
  settings (setSitesSplitTunnelingEnabled enabled);;
  setM (setEnabled enabled);;
  emit EvToggled.

End Sites.
End Sites.

Record AppSplitTunnelingModel := mkApps {
  m_appsEnabled : bool;                   (* m_isSplitTunnelingEnabled *)
  m_appsRouteMode : Z;                    (* m_currentRouteMode *)
  m_apps : list InstalledAppInfo;
}.

Module Apps.
Section Apps.
  Context {W : Type} {secrets : SecretEnv W} {env : QtEnv} {te : TextEnv}.
  Import Settings.

Definition ModelM (A : Type) : Type := M (Sys AppSplitTunnelingModel (Sys Secure W)) ModelEvent Undefined A.

Definition getM {A} (f : AppSplitTunnelingModel → A) : ModelM A := gets (λ s, f (globals s)).
Definition setM (f : AppSplitTunnelingModel → AppSplitTunnelingModel) : ModelM unit :=
  modify (λ s, mkSys (f (globals s)) (world s)).
Definition settings {A} (m : SecureQSettings.SM W A) : ModelM A := onSettings EvSettings m.

Definition setEnabled (b : bool) (c : AppSplitTunnelingModel) : AppSplitTunnelingModel :=
  mkApps b (m_appsRouteMode c) (m_apps c).
Definition setMode (mode : Z) (c : AppSplitTunnelingModel) : AppSplitTunnelingModel :=
  mkApps (m_appsEnabled c) mode (m_apps c).
Definition setApps (apps : list InstalledAppInfo) (c : AppSplitTunnelingModel) : AppSplitTunnelingModel :=
  mkApps (m_appsEnabled c) (m_appsRouteMode c) apps.

Definition fillApps : ModelM unit :=
  mode ← getM m_appsRouteMode; apps ← settings (getVpnApps mode); setM (setApps apps).

Definition constructApps : ModelM unit :=
  enabled ← settings isAppsSplitTunnelingEnabled;
  setM (setEnabled enabled);;
  mode ← settings getAppsRouteMode;
  setM (setMode mode);;
  when (mode =? VpnAllApps)
    (settings (setAppsRouteMode VpnAllExceptApps);; setM (setMode VpnAllExceptApps));;
  fillApps.

(** [m_apps] is stored and shown. *)
Definition keepApps (apps : list InstalledAppInfo) : ModelM unit :=
  setM (setApps apps);; mode ← getM m_appsRouteMode; settings (setVpnApps mode apps).

Definition addApp (appInfo : InstalledAppInfo) : ModelM bool :=
  apps ← getM m_apps;
  if existsb (λ a, sameApp a appInfo) apps then mret false
  else keepApps (apps ++ [appInfo]);; emit (EvRowInserted (length apps));; mret true.

Definition removeApp (row : nat) : ModelM unit :=
  apps ← getM m_apps;
  if (row <? length apps)%nat then keepApps (delete row apps);; emit (EvRowRemoved row)
  else throw UndefinedBehaviour.

Definition changeAppsRouteMode (mode : Z) : ModelM unit :=
  settings (setAppsRouteMode mode);;
  mode' ← settings getAppsRouteMode;
  setM (setMode mode');;
  fillApps;;
  emit EvModelReset;; emit EvRouteModeChanged.

Definition toggleAppsSplitTunneling (enabled : bool) : ModelM unit :=
  settings (setAppsSplitTunnelingEnabled enabled);;
  setM (setEnabled enabled);;
  emit EvToggled.

End Apps.
End Apps.

(** ** The VPN configuration (vpnconnection.cpp) *)

Module VpnConnection.
Section VpnConnection.
  Context {W : Type} {secrets : SecretEnv W} {env : QtEnv} {te : TextEnv}.
  Import Settings.

(** The state is [m_vpnConfiguration]. *)
Definition VM (A : Type) : Type := M (Sys QJsonObject (Sys Secure W)) SEvent Undefined A.

Definition config {A} (f : QJsonObject → A) : VM A := gets (λ s, f (globals s)).
Definition put (k : string) (v : QJson) : VM unit := modify (λ s, mkSys (insert_key (globals s) k v) (world s)).
Definition settings {A} (m : SecureQSettings.SM W A) : VM A := onSettings (λ e, e) m.

Definition text (k : string) (o : QJsonObject) : QJson := JText (toQString (QtJson.value o k)).

Definition appendKillSwitchConfig : VM unit :=
  enabled ← settings isKillSwitchEnabled;
  put "killSwitchOption" (JString (variantText (VBool enabled))).

(** The branch for configurations of the Amnezia services. *)
Definition appendApiSites : VM unit :=
  protocolName ← config (λ o, qtext (toQString (QtJson.value o "protocol")));
  if String.eqb protocolName "awg" then
    allowed ← config (λ o, map JString (qsplit "," (qtext (toQString (QtJson.value
      (toObject (QtJson.value o (protocolName +:+ "_config_data"))) "allowed_ips")))));
    if negb (isDefaultAllowed allowed) then
      dns1 ← config (text "dns1"); dns2 ← config (text "dns2");
      put "splitTunnelType" (JInt VpnOnlyForwardSites);;
      put "splitTunnelSites" (JArray (allowed ++ [dns1; dns2]))
    else mret tt
  else mret tt.

(** The branch for the user's own servers. *)
Definition appendUserSites : VM unit :=
  enabled ← settings isSitesSplitTunnelingEnabled;
  if enabled : bool then
    mode ← settings routeMode;
    sites ← settings (getVpnIps mode);
    dns1 ← config (text "dns1"); dns2 ← config (text "dns2");
    put "splitTunnelType" (JInt mode);;
    put "splitTunnelSites"
      (JArray (map JString sites ++ if mode =? VpnOnlyForwardSites then [dns1; dns2] else []))
  else
    put "splitTunnelType" (JInt VpnAllSites);; put "splitTunnelSites" (JArray []).

Definition appendApps : VM unit :=
  enabled ← settings isAppsSplitTunnelingEnabled;
  if enabled : bool then
    mode ← settings getAppsRouteMode;
    apps ← settings (getVpnApps mode);
    put "appSplitTunnelType" (JInt mode);;
    put "splitTunnelApps"
      (JArray (map (λ app, JString (if String.eqb (appPath app) "" then packageName app else appPath app)) apps))
  else
    put "appSplitTunnelType" (JInt VpnAllApps);; put "splitTunnelApps" (JArray []).

Definition appendSplitTunnelingConfig : VM unit :=
  version ← config (λ o, toInt (QtJson.value o "config_version"));
  (if negb (version =? 0) then appendApiSites else appendUserSites);;
  appendApps.

End VpnConnection.
End VpnConnection.

(** ** Vocabulary *)

(** What the settings hold: the cache first, then the store. *)
Definition view (c : Secure) : gmap string QVariant := m_cache c ∪ stored c.

(** Everything but the encrypted keys can be read as it is. *)
Definition plain (c : Secure) : Prop :=
  ∀ key v, bool_decide (key ∈ encryptedKeys) = false → m_cache c !! key = None → stored c !! key = Some v →
    marked v = false.

Definition setting (c : gmap string QVariant) (key : string) (d : QVariant) : QVariant := default d (c !! key).

(** The key of a list of sites; only used for enumerators. *)
Definition sitesKey (mode : Z) : string :=
  "Conf/" +:+ (if mode =? 0 then "AllSites" else if mode =? 1 then "ForwardSites" else "ExceptSites").
Definition appsKey (mode : Z) : string :=
  "Conf/" +:+ (if mode =? 0 then "AllApps" else if mode =? 1 then "ForwardApps" else "ExceptApps").

Definition sitesOf (c : gmap string QVariant) (mode : Z) : QVariantMap := variantMap (setting c (sitesKey mode) VInvalid).
Definition appsOf (c : gmap string QVariant) (mode : Z) : list InstalledAppInfo :=
  map Settings.appFromJson (variantArray (setting c (appsKey mode) VInvalid)).

Definition isMode (mode : Z) : Prop := mode = 0 ∨ mode = 1 ∨ mode = 2.

(** Code that reads and writes plain settings: its result and its effect on what
    the settings hold. *)
Definition runs {W A} (m : SecureQSettings.SM W A) (f : gmap string QVariant → A)
    (u : gmap string QVariant → gmap string QVariant) : Prop := ∀ s,
  plain (globals s) → ∃ c t, m s = (Ok (f (view (globals s))), mkSys c (world s), t) ∧
    plain c ∧ view c = u (view (globals s)).

Definition slt (a b : string) : Prop := String.compare a b = Lt.

(** The keys are strictly increasing, as in any [QMap]. *)
Definition sortedMap (m : QVariantMap) : Prop := StronglySorted slt (map fst m).

(** An entry as the list model shows it. *)
Definition shown (entry : string * QVariant) : string * string := (entry.1, variantText entry.2).

(** The list model shows what the settings hold. *)
Record mirrors {W} {te : TextEnv} (s : Sys SitesModel (Sys Secure W)) : Prop := {
  mirror_plain : plain (globals (world s));
  mirror_sorted mode : isMode mode → sortedMap (sitesOf (view (globals (world s))) mode);
  mirror_isMode : isMode (m_currentRouteMode (globals s));
  mirror_mode : m_currentRouteMode (globals s) =
    variantInt (setting (view (globals (world s))) "Conf/routeMode" (VInt 0));
  mirror_enabled : m_sitesEnabled (globals s) =
    variantBool (setting (view (globals (world s))) "Conf/sitesSplitTunnelingEnabled" (VBool false));
  mirror_rows : m_sites (globals s) ≡ₚ
    map shown (sitesOf (view (globals (world s))) (m_currentRouteMode (globals s)));
}.

(** What the user does to the list of sites. *)
Inductive Edit :=
| AddSite (hostname ip : string)
| AddSites (sites : list (string * string)) (replaceExisting : bool)
| RemoveSite (row : nat)
| ChangeRouteMode (mode : Z)
| Toggle (enabled : bool).

Definition edit {W} {secrets : SecretEnv W} {te : TextEnv} (e : Edit) : Sites.ModelM (W := W) unit :=
  match e with
  | AddSite hostname ip => Sites.addSite hostname ip;; mret tt
  | AddSites sites replace => Sites.addSites sites replace
  | RemoveSite row => Sites.removeSite row
  | ChangeRouteMode mode => Sites.changeRouteMode mode
  | Toggle enabled => Sites.toggleSplitTunneling enabled
  end.

(** A row that exists, an enumerator; and a site is not given a second address. *)
Definition allowed {W} (e : Edit) (s : Sys SitesModel (Sys Secure W)) : Prop :=
  match e with
  | AddSite hostname ip => ∀ a, (hostname, a) ∈ m_sites (globals s) → a = "" ∨ ip = "" ∨ a = ip
  | RemoveSite row => (row < length (m_sites (globals s)))%nat
  | ChangeRouteMode mode => isMode mode
  | _ => True
  end.

Fixpoint allowedRun {W} {secrets : SecretEnv W} {te : TextEnv} (edits : list Edit)
    (s : Sys SitesModel (Sys Secure W)) : Prop :=
  match edits with
  | [] => True
  | e :: edits => allowed e s ∧ allowedRun edits (state_of (edit e s))
  end.

Section Runs.
  Context {W : Type} {secrets : SecretEnv W}.

Lemma runs_ret {A} (a : A) : runs (W := W) (mret a) (λ _, a) id.
Proof. intros [c w] H. by exists c, []. Qed.

Lemma runs_emit e : runs (W := W) (emit e) (λ _, tt) id.
Proof. intros [c w] H. by exists c, [e]. Qed.

Lemma runs_bind {A B} (m : SecureQSettings.SM W A) (k : A → SecureQSettings.SM W B) f u g h :
  runs m f u → (∀ a, runs (k a) (g a) (h a)) → runs (m ≫= k) (λ v, g (f v) (u v)) (λ v, h (f v) (u v)).
Proof.
  intros Hm Hk s Hs. destruct (Hm s Hs) as (c1 & t1 & E1 & P1 & V1).
  destruct (Hk (f (view (globals s))) (mkSys c1 (world s)) P1) as (c2 & t2 & E2 & P2 & V2).
  exists c2, (t1 ++ t2). unfold mbind, M_bind. rewrite E1, E2. simpl in *. rewrite V1 in *. done.
Qed.

Lemma runs_ext {A} (m : SecureQSettings.SM W A) f u f' u' :
  runs m f u → (∀ v, f v = f' v) → (∀ v, u v = u' v) → runs m f' u'.
Proof. intros Hm Hf Hu s Hs. rewrite <- Hf, <- Hu. by apply Hm. Qed.

Lemma runs_value key d :
  bool_decide (key ∈ encryptedKeys) = false →
  runs (W := W) (SecureQSettings.value key d) (λ v, setting v key d) id.
Proof.
  intros Hkey [c w] Hp. unfold setting, view; simpl. rewrite lookup_union.
  destruct (m_cache c !! key) as [v|] eqn:Hc.
  { exists c, []. rewrite (value_cached key d v) by done. split; [|done]. by destruct (stored c !! key). }
  rewrite (left_id_L None _). destruct (stored c !! key) as [v|] eqn:Hst.
  - exists (setCache (insert key v) c), []. rewrite (value_unmarked key d v) by (try done; by eapply Hp).
    split_and!; [done| |].
    + intros key' v' Hk'. simpl. rewrite lookup_insert_None. intros [H1 _]. by apply Hp.
    + simpl. rewrite <- insert_union_l. apply insert_id. by apply lookup_union_Some_raw; right.
  - exists c, []. unfold SecureQSettings.value, SecureQSettings.getS. run_m. rewrite Hc. simpl. by rewrite Hst.
Qed.

Lemma runs_setValue key v :
  bool_decide (key ∈ encryptedKeys) = false →
  runs (W := W) (SecureQSettings.setValue key v) (λ _, tt) (insert key v).
Proof.
  intros Hkey [c w] Hp. rewrite setValue_plain by (by apply secretKey_plain).
  exists (setCache (insert key v) (setStored (insert key v) c)), [SStore key v; SSync]. split_and!; [done| |].
  - intros key' v' Hk'. simpl. rewrite lookup_insert_None. intros [H1 H2]. rewrite lookup_insert_ne by done.
    by apply Hp.
  - unfold view; simpl. apply map_eq. intros i. rewrite lookup_union. destruct (decide (i = key)) as [->|Hi].
    + rewrite !lookup_insert_eq. done.
    + by rewrite !lookup_insert_ne, lookup_union by done.
Qed.

End Runs.

(** ** Sorted maps *)

Lemma slt_trans a b c : slt a b → slt b c → slt a c.
Proof.
  unfold slt. revert b c. induction a as [|x a IH]; intros [|y b] [|z c]; simpl; try done.
  unfold Ascii.compare. destruct (N.compare_spec (Ascii.N_of_ascii x) (Ascii.N_of_ascii y)),
    (N.compare_spec (Ascii.N_of_ascii y) (Ascii.N_of_ascii z)),
    (N.compare_spec (Ascii.N_of_ascii x) (Ascii.N_of_ascii z)); try done; try lia. apply IH.
Qed.

Lemma slt_irrefl a : ¬ slt a a.
Proof. unfold slt. intros H. pose proof (String.compare_antisym a a) as E. by rewrite H in E. Qed.

Lemma map_drop_fresh m k : Forall (slt k) (map fst m) → map_drop m k = m.
Proof.
  induction m as [|[j v] m IH]; simpl; [done|]. intros [Hj Hm]%Forall_cons_1.
  destruct (String.eqb_spec j k) as [->|]; [by apply slt_irrefl in Hj|]. simpl. by rewrite IH.
Qed.

Lemma map_find_None m k : map_find m k = None → map_drop m k = m.
Proof.
  induction m as [|[j v] m IH]; simpl; [done|]. destruct (String.eqb j k); [done|]. simpl. intros H. by rewrite IH.
Qed.

Lemma map_find_Some m k v : sortedMap m → map_find m k = Some v → m ≡ₚ (k, v) :: map_drop m k.
Proof.
  unfold sortedMap. induction m as [|[j u] m IH]; simpl; [done|]. intros Hs.
  apply StronglySorted_inv in Hs as [Hs Hj]. destruct (String.eqb_spec j k) as [->|Hne]; simpl.
  - intros [= ->]. by rewrite map_drop_fresh.
  - intros Hf. rewrite (IH Hs Hf) at 1. apply Permutation_swap.
Qed.

Lemma map_drop_keys (P : string → Prop) m k : Forall P (map fst m) → Forall P (map fst (map_drop m k)).
Proof.
  induction m as [|[j v] m IH]; simpl; [done|]. intros [Hj Hm]%Forall_cons_1.
  destruct (negb (String.eqb j k)); simpl; [constructor; [done|]|]; by apply IH.
Qed.

Lemma map_put_perm m k v : sortedMap m → map_put m k v ≡ₚ (k, v) :: map_drop m k.
Proof.
  unfold sortedMap. induction m as [|[j u] m IH]; simpl; [done|]. intros Hs.
  apply StronglySorted_inv in Hs as [Hs Hj]. destruct (String.compare k j) eqn:E.
  - apply String.compare_eq_iff in E as ->. rewrite String.eqb_refl. simpl. by rewrite map_drop_fresh.
  - destruct (String.eqb_spec j k) as [->|Hne]; [by apply slt_irrefl in E|]. simpl.
    rewrite map_drop_fresh; [done|]. eapply Forall_impl; [exact Hj|]. intros x Hx. by eapply slt_trans.
  - destruct (String.eqb_spec j k) as [->|Hne].
    + destruct (slt_irrefl k). unfold slt. by rewrite String.compare_antisym, E.
    + simpl. rewrite IH by done. apply Permutation_swap.
Qed.

Lemma map_put_sorted m k v : sortedMap m → sortedMap (map_put m k v).
Proof.
  unfold sortedMap. induction m as [|[j u] m IH]; simpl; [by repeat constructor|]. intros Hs.
  apply StronglySorted_inv in Hs as [Hs Hj]. destruct (String.compare k j) eqn:E; simpl.
  - apply String.compare_eq_iff in E as ->. by constructor.
  - constructor; [by constructor|]. constructor; [done|]. eapply Forall_impl; [exact Hj|].
    intros x Hx. by eapply slt_trans.
  - constructor; [by apply IH|]. assert (map_put m k v ≡ₚ (k, v) :: map_drop m k) as Hp by by apply map_put_perm.
    rewrite Hp. simpl. constructor; [unfold slt; by rewrite String.compare_antisym, E|].
    by apply map_drop_keys.
Qed.

Lemma map_drop_sorted m k : sortedMap m → sortedMap (map_drop m k).
Proof.
  unfold sortedMap. induction m as [|[j u] m IH]; simpl; [done|]. intros Hs.
  apply StronglySorted_inv in Hs as [Hs Hj]. destruct (String.eqb_spec j k); simpl; [by apply IH|].
  constructor; [by apply IH|by apply map_drop_keys].
Qed.

Lemma sorted_keys_nodup m : sortedMap m → NoDup (map fst m).
Proof.
  unfold sortedMap. generalize (map fst m). intros l. induction 1 as [|k l Hs IH Hk]; constructor; [|done].
  intros Hin. eapply slt_irrefl, (proj1 (Forall_forall _ _) Hk), Hin.
Qed.

(** ** The settings' operations *)

Section SettingsRuns.
  Context {W : Type} {secrets : SecretEnv W} {env : QtEnv} {te : TextEnv}.
  Import SecureQSettings Settings.

Lemma runs_if {A} (b : bool) (m1 m2 : SM W A) f1 f2 u1 u2 :
  runs m1 f1 u1 → runs m2 f2 u2 →
  runs (if b then m1 else m2) (λ v, if b then f1 v else f2 v) (λ v, if b then u1 v else u2 v).
Proof. by destruct b. Qed.

Ltac runs_tac := repeat first
  [ refine (runs_ret _) | refine (runs_emit _) | refine (runs_value _ _ _); reflexivity
  | refine (runs_setValue _ _ _); reflexivity | refine (runs_if _ _ _ _ _ _ _ _ _)
  | refine (runs_bind _ _ _ _ _ _ _ _); [|intros ?] ].
Ltac by_mode H := destruct H as [->|[->| ->]]; (eapply runs_ext; [runs_tac|reflexivity|reflexivity]).

Lemma runs_routeMode : runs (W := W) routeMode (λ v, variantInt (setting v "Conf/routeMode" (VInt 0))) id.
Proof. eapply runs_ext; [unfold routeMode; runs_tac|reflexivity|reflexivity]. Qed.

Lemma runs_sitesEnabled :
  runs (W := W) isSitesSplitTunnelingEnabled
    (λ v, variantBool (setting v "Conf/sitesSplitTunnelingEnabled" (VBool false))) id.
Proof. eapply runs_ext; [unfold isSitesSplitTunnelingEnabled; runs_tac|reflexivity|reflexivity]. Qed.

Lemma runs_killSwitch :
  runs (W := W) isKillSwitchEnabled (λ v, variantBool (setting v "Conf/killSwitchEnabled" (VBool true))) id.
Proof. eapply runs_ext; [unfold isKillSwitchEnabled; runs_tac|reflexivity|reflexivity]. Qed.

Lemma runs_vpnSites mode : isMode mode → runs (W := W) (vpnSites mode) (λ v, sitesOf v mode) id.
Proof. intros H. unfold vpnSites, routeModeString. by_mode H. Qed.

Lemma runs_setVpnSites mode m :
  isMode mode → runs (W := W) (setVpnSites mode m) (λ _, tt) (insert (sitesKey mode) (VMap m)).
Proof. intros H. unfold setVpnSites, routeModeString. by_mode H. Qed.

Lemma runs_addVpnSite mode site ip :
  isMode mode →
  runs (W := W) (addVpnSite mode site ip)
    (λ v, negb (bool_decide (is_Some (map_find (sitesOf v mode) site)) && String.eqb ip ""))
    (λ v, if bool_decide (is_Some (map_find (sitesOf v mode) site)) && String.eqb ip "" then v
          else <[sitesKey mode := VMap (map_put (sitesOf v mode) site (VString ip))]> v).
Proof.
  intros H. unfold addVpnSite. eapply runs_ext; [eapply runs_bind; [by apply runs_vpnSites|intros m]|..].
  - refine (runs_if _ _ _ _ _ _ _ (runs_ret _) (runs_bind _ _ _ _ _ _ (runs_setVpnSites _ _ H) (λ _, runs_ret _))).
  - intros v. simpl. by destruct (_ && _).
  - intros v. simpl. by destruct (_ && _).
Qed.

Lemma runs_addVpnSites mode sites :
  isMode mode →
  runs (W := W) (addVpnSites mode sites) (λ _, tt)
    (λ v, <[sitesKey mode := VMap (foldl mergeSite (sitesOf v mode) sites)]> v).
Proof.
  intros H. unfold addVpnSites. eapply runs_ext; [eapply runs_bind; [by apply runs_vpnSites|intros m]|..].
  - refine (runs_setVpnSites _ _ H).
  - done.
  - done.
Qed.

Lemma runs_removeVpnSite mode site :
  isMode mode →
  runs (W := W) (removeVpnSite mode site) (λ _, tt)
    (λ v, if bool_decide (is_Some (map_find (sitesOf v mode) site))
          then <[sitesKey mode := VMap (map_drop (sitesOf v mode) site)]> v else v).
Proof.
  intros H. unfold removeVpnSite. eapply runs_ext; [eapply runs_bind; [by apply runs_vpnSites|intros m]|..].
  - refine (runs_if _ _ _ _ _ _ _ (runs_setVpnSites _ _ H) (runs_ret _)).
  - intros v. simpl. by destruct (bool_decide _).
  - intros v. simpl. by destruct (bool_decide _).
Qed.

Lemma runs_getVpnIps mode :
  isMode mode → runs (W := W) (getVpnIps mode) (λ v, removeDuplicates (flat_map siteAddress (sitesOf v mode))) id.
Proof.
  intros H. unfold getVpnIps. eapply runs_ext; [eapply runs_bind; [by apply runs_vpnSites|intros m; refine (runs_ret _)]|..];
    done.
Qed.

Lemma runs_appsEnabled :
  runs (W := W) isAppsSplitTunnelingEnabled
    (λ v, variantBool (setting v "Conf/appsSplitTunnelingEnabled" (VBool false))) id.
Proof. eapply runs_ext; [unfold isAppsSplitTunnelingEnabled; runs_tac|reflexivity|reflexivity]. Qed.

Lemma runs_appsRouteMode :
  runs (W := W) getAppsRouteMode (λ v, variantInt (setting v "Conf/appsRouteMode" (VInt 0))) id.
Proof. eapply runs_ext; [unfold getAppsRouteMode; runs_tac|reflexivity|reflexivity]. Qed.

Lemma runs_getVpnApps mode : isMode mode → runs (W := W) (getVpnApps mode) (λ v, appsOf v mode) id.
Proof. intros H. unfold getVpnApps, appsRouteModeString. by_mode H. Qed.

Lemma runs_setVpnApps mode apps :
  isMode mode → runs (W := W) (setVpnApps mode apps) (λ _, tt) (insert (appsKey mode) (VJson (map appToJson apps))).
Proof. intros H. unfold setVpnApps, appsRouteModeString. by_mode H. Qed.

End SettingsRuns.
