(* ===== verification/SplitTunnelSpec.v ===== *)
(** * Properties of split tunnelling

    The list of sites shown to the user against the settings, and the way of the
    settings into the daemon's configuration, proved about the definitions of
    [SplitTunnel.v]. *)

From stdpp Require Import prelude strings list gmap pretty sorting.
From Stdlib Require Import ZArith Lia Ascii.
From S2P Require Import Prelude IPAddress QtJson InterfaceConfig Daemon DaemonSpec LineProtocol LocalSocket SecureSettings SplitTunnel.

Local Open Scope Z_scope.

(** ** Vocabulary *)

(** The user's choices, as the settings hold them. *)
Record Choice := mkChoice {
  killSwitch : bool;
  sitesMode : Z;                   (* the mode in force *)
  siteList : list string;
  appsMode : Z;
  appList : list string;
}.

Definition appId (app : InstalledAppInfo) : string :=
  if String.eqb (appPath app) "" then packageName app else appPath app.

Definition chosen {env : QtEnv} {te : TextEnv} (v : gmap string QVariant) : Choice :=
  let sitesOn := variantBool (setting v "Conf/sitesSplitTunnelingEnabled" (VBool false)) in
  let appsOn := variantBool (setting v "Conf/appsSplitTunnelingEnabled" (VBool false)) in
  let mode := if sitesOn then variantInt (setting v "Conf/routeMode" (VInt 0)) else VpnAllSites in
  let amode := if appsOn then variantInt (setting v "Conf/appsRouteMode" (VInt 0)) else VpnAllApps in
  {| killSwitch := variantBool (setting v "Conf/killSwitchEnabled" (VBool true));
     sitesMode := mode;
     siteList := if sitesOn then removeDuplicates (flat_map Settings.siteAddress (sitesOf v mode)) else [];
     appsMode := amode;
     appList := if appsOn then map appId (appsOf v amode) else [] |}.

(** What [VpnConnection] adds to the configuration for a choice. *)
Definition sitesFields (o : QJsonObject) (c : Choice) : list (string * QJson) :=
  [("splitTunnelType", JInt (sitesMode c));
   ("splitTunnelSites", JArray (map JString (siteList c ++
      if sitesMode c =? VpnOnlyForwardSites
      then [qtext (toQString (QtJson.value o "dns1")); qtext (toQString (QtJson.value o "dns2"))] else [])))].
Definition appsFields (c : Choice) : list (string * QJson) :=
  [("appSplitTunnelType", JInt (appsMode c)); ("splitTunnelApps", JArray (map JString (appList c)))].
Definition withChoice (o : QJsonObject) (c : Choice) : QJsonObject :=
  inserts o (("killSwitchOption", JString (if killSwitch c then "true" else "false")) ::
    sitesFields o c ++ appsFields c).

(** ** Rows *)

Lemma shown_keys m : map fst (map shown m) = map fst m.
Proof. rewrite map_map. by apply map_ext. Qed.

Lemma NoDup_rows rows m : sortedMap m → rows ≡ₚ map shown m → NoDup (map fst rows).
Proof.
  intros Hs Hp. assert (map fst rows ≡ₚ map fst m) as -> by (rewrite <- shown_keys; by apply Permutation_map).
  by apply sorted_keys_nodup.
Qed.

(** The loop of [addSite] on rows with different names. *)
Lemma placeSite_absent hostname ip i before rows :
  hostname ∉ map fst rows → placeSite hostname ip i before rows = NoRow.
Proof.
  revert i before. induction rows as [|[h a] rows IH]; intros i before Hn; [done|]. simpl in *.
  apply not_elem_of_cons in Hn as [Hne Hn]. destruct (String.eqb_spec h hostname) as [->|_]; [done|]. simpl. by apply IH.
Qed.

Lemma placeSite_row hostname ip i before r1 a r2 :
  hostname ∉ map fst r1 → a = "" ∨ a = ip → ip ≠ "" →
  placeSite hostname ip i before (r1 ++ (hostname, a) :: r2) =
    if String.eqb a "" then RowUpdated (i + length r1) (before ++ r1 ++ (hostname, ip) :: r2) else RowPresent.
Proof.
  intros Hn Ha Hip. revert i before Hn. induction r1 as [|[h b] r1 IH]; intros i before Hn; simpl in *.
  - rewrite String.eqb_refl. destruct (String.eqb_spec ip ""); [done|]. simpl. rewrite Nat.add_0_r.
    destruct (String.eqb_spec a ""); [done|]. simpl. destruct Ha as [->| ->]; [done|]. by rewrite String.eqb_refl.
  - apply not_elem_of_cons in Hn as [Hne Hn]. destruct (String.eqb_spec h hostname) as [->|_]; [done|]. simpl.
    rewrite IH by done. replace (S i + length r1)%nat with (i + S (length r1))%nat by lia.
    by rewrite <- app_assoc.
Qed.

(** An entry and its row. *)
Lemma row_of m hostname u rows :
  sortedMap m → rows ≡ₚ map shown m → map_find m hostname = Some u →
  ∃ r1 r2, rows = r1 ++ (hostname, variantText u) :: r2 ∧ hostname ∉ map fst r1 ∧
    r1 ++ r2 ≡ₚ map shown (map_drop m hostname).
Proof.
  intros Hs Hp Hf. pose proof (map_find_Some m hostname u Hs Hf) as Hm.
  pose proof (NoDup_rows rows m Hs Hp) as Hnd.
  assert ((hostname, variantText u) ∈ rows) as Hin.
  { rewrite Hp. apply list_elem_of_fmap. exists (hostname, u). split; [done|]. rewrite Hm. apply list_elem_of_here. }
  apply list_elem_of_split in Hin as (r1 & r2 & ->). exists r1, r2. split; [done|]. split.
  - rewrite map_app in Hnd. apply NoDup_app in Hnd as (_ & Hd & _). intros Hin. apply (Hd _ Hin). apply list_elem_of_here.
  - apply (Permutation_cons_inv (a := (hostname, variantText u))).
    rewrite Permutation_middle, Hp. rewrite (Permutation_map shown Hm). done.
Qed.

Lemma row_absent m hostname rows :
  rows ≡ₚ map shown m → map_find m hostname = None → hostname ∉ map fst rows.
Proof.
  intros Hp Hf Hin. assert (map fst rows ≡ₚ map fst m) as Hk by (rewrite <- shown_keys; by apply Permutation_map).
  rewrite Hk in Hin. clear -Hf Hin. induction m as [|[j v] m IH]; simpl in *; [by apply elem_of_nil in Hin|].
  destruct (String.eqb_spec j hostname); [done|]. apply elem_of_cons in Hin as [->|Hin]; [done|]. by apply IH.
Qed.

(** ** Effects on the settings *)

Lemma sitesKey_inj m1 m2 : isMode m1 → isMode m2 → sitesKey m1 = sitesKey m2 → m1 = m2.
Proof. by intros [->|[->| ->]] [->|[->| ->]]. Qed.

Lemma sitesOf_insert v mode m mode' :
  isMode mode → isMode mode' →
  sitesOf (<[sitesKey mode := VMap m]> v) mode' = if mode =? mode' then m else sitesOf v mode'.
Proof.
  intros H1 H2. unfold sitesOf, setting. destruct (Z.eqb_spec mode mode') as [->|Hne]; [by rewrite lookup_insert_eq|].
  rewrite lookup_insert_ne; [done|]. intros H. by apply sitesKey_inj in H.
Qed.

Lemma setting_insert_ne v key key' x d : key ≠ key' → setting (<[key := x]> v) key' d = setting v key' d.
Proof. intros H. unfold setting. by rewrite lookup_insert_ne. Qed.

Lemma sitesKey_ne mode key : isMode mode → key ∈ ["Conf/routeMode"; "Conf/sitesSplitTunnelingEnabled"] → sitesKey mode ≠ key.
Proof.
  intros Hm Hk E. rewrite <- E, !elem_of_cons, elem_of_nil in Hk.
  destruct Hm as [->|[->| ->]], Hk as [H|[H|[]]]; discriminate H.
Qed.

Lemma sitesOf_other v key x mode :
  isMode mode → key ∈ ["Conf/routeMode"; "Conf/sitesSplitTunnelingEnabled"] → sitesOf (<[key := x]> v) mode = sitesOf v mode.
Proof. intros Hm Hk. unfold sitesOf. by rewrite setting_insert_ne by (apply not_eq_sym; by apply sitesKey_ne). Qed.

Lemma mergeSite_sorted m entry : sortedMap m → sortedMap (Settings.mergeSite m entry).
Proof.
  intros Hm. unfold Settings.mergeSite. pose proof (map_put_sorted m entry.1 (VString entry.2) Hm) as Hp.
  destruct (map_find m entry.1) as [[]|]; try done. by destruct (String.eqb _ _).
Qed.

Lemma mergeSites_sorted m sites : sortedMap m → sortedMap (foldl Settings.mergeSite m sites).
Proof. revert m. induction sites as [|e sites IH]; intros m Hm; simpl; [done|]. by apply IH, mergeSite_sorted. Qed.

(** ** Operations of the list model *)

Section Mirror.
  Context {W : Type} {secrets : SecretEnv W} {env : QtEnv} {te : TextEnv}.

(** A call of the settings within a model. *)
Lemma wp_settings {G Ev A B} (inject : SEvent → Ev) (m : SecureQSettings.SM W A) f u
    (k : A → M (Sys G (Sys Secure W)) Ev Undefined B) (Q : res Undefined B → Sys G (Sys Secure W) → Prop) s :
  runs m f u → plain (globals (world s)) →
  (∀ c, plain c → view c = u (view (globals (world s))) →
    wp (k (f (view (globals (world s))))) (λ r s' _, Q r s') (mkSys (globals s) (mkSys c (world (world s))))) →
  wp (onSettings inject m ≫= k) (λ r s' _, Q r s') s.
Proof.
  intros Hm Hp Hk. destruct (Hm (world s) Hp) as (c & t & E & Hc & Hv). apply wp_bind.
  unfold onSettings, wp at 1. rewrite E. simpl. by apply Hk.
Qed.

Definition done_mirroring {A} (m : Sites.ModelM (W := W) A) (s : Sys SitesModel (Sys Secure W)) : Prop :=
  wp m (λ r s' _, (∃ a, r = Ok a) ∧ mirrors s') s.

Lemma mirror_addSite hostname ip (s : Sys SitesModel (Sys Secure W)) :
  mirrors s → allowed (AddSite hostname ip) s → done_mirroring (Sites.addSite hostname ip) s.
Proof.
  intros [Hp Hs Hm Hmode Hen Hrows] Hok. unfold done_mirroring, Sites.addSite.
  apply wp_gets_bind. eapply (wp_settings EvSettings); [by apply runs_addVpnSite|done|]. intros c Hc Hv.
  set (v := view (globals (world s))) in *. set (mode := m_currentRouteMode (globals s)) in *.
  destruct (bool_decide (is_Some (map_find (sitesOf v mode) hostname)) && String.eqb ip "") eqn:Hskip;
    cbn beta in *; rewrite Hskip in *; cbn [negb].
  { unfold wp; simpl. split; [eauto|]. split; simpl; rewrite ?Hv; done. }
  pose proof (Hs mode Hm) as Hsm.
  assert (∀ rows, rows ≡ₚ (hostname, ip) :: map shown (map_drop (sitesOf v mode) hostname) →
    mirrors (mkSys (Sites.setRows rows (globals s)) (mkSys c (world (world s))))) as Hnew.
  { intros rows Hr. split; simpl; rewrite ?Hv; try done.
    - intros mode' Hm'. rewrite sitesOf_insert by done. destruct (mode =? mode'); [by apply map_put_sorted|by apply Hs].
    - rewrite setting_insert_ne by (apply sitesKey_ne; [done|set_solver]). done.
    - rewrite setting_insert_ne by (apply sitesKey_ne; [done|set_solver]). done.
    - fold mode. rewrite sitesOf_insert, Z.eqb_refl by done. rewrite Hr.
      by rewrite (Permutation_map shown (map_put_perm _ hostname (VString ip) Hsm)). }
  apply wp_gets_bind. simpl. destruct (map_find (sitesOf v mode) hostname) as [u|] eqn:Hf.
  - destruct (row_of _ _ _ _ Hsm Hrows Hf) as (r1 & r2 & Hr & Hn & Hrest).
    simpl in Hskip. destruct (String.eqb_spec ip ""); [done|]. 
    rewrite Hr, placeSite_row; [|done| |done]; last first.
    { destruct (Hok (variantText u)) as [?|[?|?]]; [|auto..|auto]; [|done].
      rewrite Hr. apply elem_of_app. right. apply list_elem_of_here. }
    destruct (String.eqb_spec (variantText u) "") as [Hu|Hu]; unfold wp; simpl.
    + split; [eauto|]. apply Hnew. by rewrite <- Permutation_middle, Hrest.
    + split; [eauto|]. destruct s as [[en md rows] [cs w]]. simpl in *. subst rows. apply Hnew.
      rewrite <- Permutation_middle, Hrest. destruct (Hok (variantText u)) as [?|[?|<-]]; [|done..].
      apply elem_of_app. right. apply list_elem_of_here.
  - rewrite placeSite_absent by (by eapply row_absent). unfold wp; simpl. split; [eauto|]. apply Hnew.
    rewrite map_find_None, Permutation_app_comm by done. simpl. by rewrite Hrows.
Qed.

(** Filling the list, before anything else is emitted. *)
Lemma mirror_fill (k : unit → Sites.ModelM (W := W) unit) (s : Sys SitesModel (Sys Secure W)) :
  let v := view (globals (world s)) in
  plain (globals (world s)) → (∀ mode, isMode mode → sortedMap (sitesOf v mode)) →
  isMode (m_currentRouteMode (globals s)) →
  m_currentRouteMode (globals s) = variantInt (setting v "Conf/routeMode" (VInt 0)) →
  m_sitesEnabled (globals s) = variantBool (setting v "Conf/sitesSplitTunnelingEnabled" (VBool false)) →
  (∀ s', mirrors s' → done_mirroring (k tt) s') →
  done_mirroring (Sites.fillSites ≫= k) s.
Proof.
  cbn zeta. intros Hp Hs Hm Hmode Hen Hk. unfold done_mirroring. apply wp_bind.
  eapply wp_mono with (Q := λ r s' _, r = Ok tt ∧ mirrors s').
  - unfold Sites.fillSites. apply wp_gets_bind. eapply (wp_settings EvSettings _ _ _ _ (λ r s', r = Ok tt ∧ mirrors s'));
      [by apply runs_vpnSites|done|]. intros c Hc Hv. unfold wp; simpl. split; [done|].
    unfold id in Hv. by split; simpl; rewrite ?Hv.
  - intros r s' t [-> H]. simpl. by apply (Hk s').
Qed.

Lemma done_emit e (s : Sys SitesModel (Sys Secure W)) : mirrors s → done_mirroring (emit e) s.
Proof. intros H. unfold done_mirroring, wp. simpl. eauto. Qed.

Lemma mirror_addSites sites replace (s : Sys SitesModel (Sys Secure W)) :
  mirrors s → done_mirroring (Sites.addSites sites replace) s.
Proof.
  intros [Hp Hs Hm Hmode Hen Hrows]. unfold done_mirroring, Sites.addSites.
  apply wp_gets_bind. set (mode := m_currentRouteMode (globals s)) in *.
  assert (∀ s1, globals s1 = globals s → plain (globals (world s1)) →
    (∀ mode, isMode mode → sortedMap (sitesOf (view (globals (world s1))) mode)) →
    (∀ key d, key ∈ ["Conf/routeMode"; "Conf/sitesSplitTunnelingEnabled"] →
      setting (view (globals (world s1))) key d = setting (view (globals (world s))) key d) →
    wp (Sites.settings (Settings.addVpnSites mode sites);; Sites.fillSites;; emit EvModelReset)
      (λ r s' _, (∃ a, r = Ok a) ∧ mirrors s') s1) as Hrest.
  { intros s1 Hg Hp1 Hs1 Hkeys. eapply (wp_settings EvSettings); [by apply runs_addVpnSites|done|].
    intros c Hc Hv. apply mirror_fill; simpl; rewrite ?Hv, ?Hg; try done.
    - intros mode' Hm'. rewrite sitesOf_insert by done.
      destruct (mode =? mode'); [by apply mergeSites_sorted, Hs1|by apply Hs1].
    - rewrite setting_insert_ne by (apply sitesKey_ne; [done|set_solver]). by rewrite Hkeys by set_solver.
    - rewrite setting_insert_ne by (apply sitesKey_ne; [done|set_solver]). by rewrite Hkeys by set_solver.
    - intros s' H'. by apply done_emit. }
  destruct replace; simpl; last first.
  { apply wp_bind, wp_ret. simpl. by apply Hrest. }
  eapply (wp_settings EvSettings); [by apply runs_setVpnSites|done|]. intros c Hc Hv. apply Hrest; simpl; rewrite ?Hv; try done.
  - intros mode' Hm'. rewrite sitesOf_insert by done. destruct (mode =? mode'); [by constructor|by apply Hs].
  - intros key d Hk. by rewrite setting_insert_ne by (by apply sitesKey_ne).
Qed.

Lemma mirror_removeSite row (s : Sys SitesModel (Sys Secure W)) :
  mirrors s → allowed (RemoveSite row) s → done_mirroring (Sites.removeSite row) s.
Proof.
  intros [Hp Hs Hm Hmode Hen Hrows] Hrow. unfold done_mirroring, Sites.removeSite. apply wp_gets_bind.
  destruct (lookup_lt_is_Some_2 _ _ Hrow) as [[hostname a] Hl]. rewrite Hl. apply wp_gets_bind.
  set (mode := m_currentRouteMode (globals s)) in *. pose proof (Hs mode Hm) as Hsm.
  set (v := view (globals (world s))) in *.
  eapply (wp_settings EvSettings); [by apply runs_removeVpnSite|done|]. intros c Hc Hv. fold v in Hv.
  destruct (map_find (sitesOf v mode) hostname) as [u|] eqn:Hf; last first.
  { exfalso. eapply row_absent; [exact Hrows|exact Hf|]. apply list_elem_of_fmap. exists (hostname, a).
    split; [done|]. by eapply list_elem_of_lookup_2. }
  cbn beta in Hv. rewrite ?Hf, bool_decide_true in Hv by eauto. unfold wp; simpl. split; [eauto|].
  split; simpl; rewrite ?Hv; try done.
  - intros mode' Hm'. rewrite sitesOf_insert by done. destruct (mode =? mode'); [by apply map_drop_sorted|by apply Hs].
  - by rewrite setting_insert_ne by (apply sitesKey_ne; [done|set_solver]).
  - by rewrite setting_insert_ne by (apply sitesKey_ne; [done|set_solver]).
  - fold mode. rewrite sitesOf_insert, Z.eqb_refl by done.
    destruct (row_of _ _ _ _ Hsm Hrows Hf) as (r1 & r2 & Hr & Hn & Hrest). rewrite <- Hrest.
    assert (a = variantText u) as ->.
    { pose proof (NoDup_rows _ _ Hsm Hrows) as Hnd. apply list_elem_of_lookup_2 in Hl. rewrite Hr in Hnd, Hl.
      rewrite map_app in Hnd. apply NoDup_app in Hnd as (_ & _ & Hnd). apply NoDup_cons in Hnd as [Hn2 _].
      apply elem_of_app in Hl as [Hl|Hl]; [destruct Hn|apply elem_of_cons in Hl as [[= ->]|Hl]; [done|destruct Hn2]];
        apply list_elem_of_fmap; by exists (hostname, a). }
    apply (Permutation_cons_inv (a := (hostname, variantText u))).
    rewrite <- (delete_Permutation _ _ _ Hl), Hr. by rewrite Permutation_middle.
Qed.

Lemma mirror_changeRouteMode mode (s : Sys SitesModel (Sys Secure W)) :
  mirrors s → isMode mode → done_mirroring (Sites.changeRouteMode mode) s.
Proof.
  intros [Hp Hs Hm Hmode Hen Hrows] Hnew. unfold done_mirroring, Sites.changeRouteMode.
  eapply (wp_settings EvSettings); [by apply runs_setValue|done|]. intros c Hc Hv.
  eapply (wp_settings EvSettings); [apply runs_routeMode|done|]. intros c2 Hc2 Hv2. simpl in *. unfold id in Hv2.
  apply wp_modify_bind. assert (variantInt (setting (view c) "Conf/routeMode" (VInt 0)) = mode) as Hset
    by (rewrite Hv; unfold setting; by rewrite lookup_insert_eq).
  apply mirror_fill; simpl; rewrite ?Hv2, ?Hset; try done.
  - intros mode' Hm'. rewrite Hv, sitesOf_other by set_solver. by apply Hs.
  - rewrite Hv, setting_insert_ne by done. done.
  - intros s' H'. by apply (done_emit EvRouteModeChanged).
Qed.

Lemma mirror_toggle enabled (s : Sys SitesModel (Sys Secure W)) :
  mirrors s → done_mirroring (Sites.toggleSplitTunneling enabled) s.
Proof.
  intros [Hp Hs Hm Hmode Hen Hrows]. unfold done_mirroring, Sites.toggleSplitTunneling.
  eapply (wp_settings EvSettings); [by apply runs_setValue|done|]. intros c Hc Hv. simpl in *.
  unfold wp; simpl. split; [eauto|]. split; simpl; rewrite ?Hv; try done.
  - intros mode' Hm'. rewrite sitesOf_other by set_solver. by apply Hs.
  - by rewrite setting_insert_ne.
  - unfold setting. by rewrite lookup_insert_eq.
  - by rewrite sitesOf_other by set_solver.
Qed.

Lemma mirror_construct (s : Sys SitesModel (Sys Secure W)) :
  let v := view (globals (world s)) in
  plain (globals (world s)) → (∀ mode, isMode mode → sortedMap (sitesOf v mode)) →
  isMode (variantInt (setting v "Conf/routeMode" (VInt 0))) →
  done_mirroring Sites.constructSites s.
Proof.
  cbn zeta. intros Hp Hs Hm. unfold done_mirroring, Sites.constructSites.
  eapply (wp_settings EvSettings); [apply runs_sitesEnabled|done|]. intros c1 Hc1 Hv1. unfold id in Hv1. apply wp_modify_bind.
  eapply (wp_settings EvSettings); [apply runs_routeMode|done|]. intros c2 Hc2 Hv2. unfold id in Hv2. apply wp_modify_bind.
  simpl in *. rewrite Hv1 in *. set (v := view (globals (world s))) in *.
  assert (∀ s1 : Sys SitesModel (Sys Secure W),
    done_mirroring (Sites.fillSites ≫= mret) s1 → done_mirroring Sites.fillSites s1) as Hret.
  { intros s1 H. unfold done_mirroring, wp, mbind, M_bind in *.
    destruct (Sites.fillSites s1) as [[[a|e|] s2] t2]; done. }
  assert (∀ s', mirrors s' → done_mirroring (mret tt) s') as Hdone
    by (intros s' H'; unfold done_mirroring; apply wp_ret; eauto).
  destruct (Z.eqb_spec (variantInt (setting v "Conf/routeMode" (VInt 0))) VpnAllSites) as [Hz|Hz]; simpl.
  - set (post := λ (r : res Undefined unit) (s' : Sys SitesModel (Sys Secure W)), r = Ok tt ∧
      globals s' = mkSites (variantBool (setting v "Conf/sitesSplitTunnelingEnabled" (VBool false))) 1
        (m_sites (globals s)) ∧
      plain (globals (world s')) ∧ view (globals (world s')) = <["Conf/routeMode" := VInt 1]> v).
    apply wp_bind. eapply wp_mono with (Q := λ r s' _, post r s').
    { eapply (wp_settings EvSettings _ _ _ _ post); [by apply runs_setValue|done|].
      intros c3 Hc3 Hv3. unfold wp; simpl in *. rewrite Hv2 in Hv3. done. }
    intros r s3 t3 (-> & Hg & Hp3 & Hv3). simpl. apply Hret, mirror_fill; rewrite ?Hv3, ?Hg; simpl; try done.
    + intros mode' Hm'. rewrite sitesOf_other by set_solver. by apply Hs.
    + right; by left.
    + unfold setting. by rewrite lookup_insert_eq.
    + by rewrite setting_insert_ne.
  - apply wp_bind, wp_ret. simpl. apply Hret, mirror_fill; simpl; rewrite ?Hv2; done.
Qed.

Lemma mirror_edit e (s : Sys SitesModel (Sys Secure W)) : mirrors s → allowed e s → done_mirroring (edit e) s.
Proof.
  intros Hs Hok. destruct e; simpl in *.
  - unfold done_mirroring. apply wp_bind. eapply wp_mono; [by apply mirror_addSite|].
    intros r s' t [[a ->] H]. simpl. unfold wp; simpl. eauto.
  - by apply mirror_addSites.
  - by apply mirror_removeSite.
  - by apply mirror_changeRouteMode.
  - by apply mirror_toggle.
Qed.

Lemma mirror_edits edits (s : Sys SitesModel (Sys Secure W)) :
  mirrors s → allowedRun edits s → result_of (for_each edits edit s) = Ok tt ∧ mirrors (state_of (for_each edits edit s)).
Proof.
  revert s. induction edits as [|e edits IH]; intros s Hs; [done|]. cbn [allowedRun for_each]. intros [Hok Hrun].
  pose proof (mirror_edit e s Hs Hok) as H. unfold done_mirroring, wp in H. unfold mbind, M_bind.
  destruct (edit e s) as [[r s1] t1]. destruct H as [[[] ->] H]. unfold state_of in Hrun; simpl in Hrun.
  destruct (IH s1 H Hrun) as [H1 H2]. unfold result_of, state_of in *. by destruct (for_each edits edit s1) as [[r2 s2] t2].
Qed.

(** ** Properties *)

(** The list of sites on the screen and the settings agree: starting from
    settings whose route mode is an enumerator, the list model can be built and
    edited without failing, and after any number of edits its rows are the
    entries of the settings for the current mode, its mode and its switch those
    of the settings, provided no edit gives a listed site a second address. *)
Theorem sitesModel_mirrors (edits : list Edit) (s : Sys SitesModel (Sys Secure W))
    (Hplain : plain (globals (world s)))
    (Hsorted : ∀ mode, isMode mode → sortedMap (sitesOf (view (globals (world s))) mode))
    (Hmode : isMode (variantInt (setting (view (globals (world s))) "Conf/routeMode" (VInt 0))))
    (Hedits : allowedRun edits (state_of (Sites.constructSites s))) :
  let run := (Sites.constructSites;; for_each edits edit) s in
  result_of run = Ok tt ∧ mirrors (state_of run).
Proof.
  cbn zeta. pose proof (mirror_construct s Hplain Hsorted Hmode) as H. unfold done_mirroring, wp in H.
  unfold mbind, M_bind. destruct (Sites.constructSites s) as [[r s1] t1]. destruct H as [[a ->] H].
  unfold state_of at 1 in Hedits. simpl in Hedits. destruct (mirror_edits edits s1 H Hedits) as [H1 H2].
  unfold result_of, state_of in *. by destruct (for_each edits edit s1) as [[r2 s2] t2].
Qed.

(** The list of applications is the one in the settings. *)
Definition appsMirror (s : Sys AppSplitTunnelingModel (Sys Secure W)) : Prop :=
  plain (globals (world s)) ∧ isMode (m_appsRouteMode (globals s)) ∧
  m_apps (globals s) = appsOf (view (globals (world s))) (m_appsRouteMode (globals s)).

Lemma appsOf_insert v mode apps :
  appsOf (<[appsKey mode := VJson (map Settings.appToJson apps)]> v) mode = apps.
Proof.
  unfold appsOf, setting. rewrite lookup_insert_eq. simpl. rewrite map_map. rewrite <- (map_id apps) at 2.
  apply map_ext. by intros [].
Qed.

Lemma keepApps_mirror {A} apps (k : unit → Apps.ModelM (W := W) A) (Q : res Undefined A → _ → Prop) s :
  appsMirror s → (∀ s', appsMirror s' → m_apps (globals s') = apps → wp (k tt) (λ r s' _, Q r s') s') →
  wp (Apps.keepApps apps ≫= k) (λ r s' _, Q r s') s.
Proof.
  intros (Hp & Hm & _) Hk. apply wp_bind.
  eapply wp_mono with (Q := λ r s' _, r = Ok tt ∧ appsMirror s' ∧ m_apps (globals s') = apps).
  - unfold Apps.keepApps. apply wp_modify_bind, wp_gets_bind. simpl. unfold wp, Apps.settings, onSettings. simpl.
    destruct (runs_setVpnApps _ apps Hm (world s) Hp) as (c & t & E & Hc & Hv). rewrite E. split; [done|].
    split; [|done]. split; [done|]. split; [done|]. simpl. by rewrite Hv, appsOf_insert.
  - intros r s' t (-> & H1 & H2). simpl. by apply Hk.
Qed.

(** Adding and removing applications changes the settings and the list alike. *)
Theorem appsModel_mirrors (app : InstalledAppInfo) (row : nat) (s : Sys AppSplitTunnelingModel (Sys Secure W))
    (Hs : appsMirror s) (Hrow : (row < length (m_apps (globals s)))%nat) :
  wp (Apps.addApp app) (λ r s' _, appsMirror s' ∧
    if existsb (λ a, sameApp a app) (m_apps (globals s)) then r = Ok false ∧ s' = s
    else r = Ok true ∧ m_apps (globals s') = m_apps (globals s) ++ [app]) s ∧
  wp (Apps.removeApp row) (λ r s' _, appsMirror s' ∧ r = Ok tt ∧
    m_apps (globals s') = delete row (m_apps (globals s))) s.
Proof.
  split.
  - unfold Apps.addApp. apply wp_gets_bind. destruct (existsb _ _); [done|].
    apply (keepApps_mirror _ _ (λ r s', appsMirror s' ∧ r = Ok true ∧
      m_apps (globals s') = m_apps (globals s) ++ [app])); [done|]. intros s' H1 H2.
    by unfold wp; simpl.
  - unfold Apps.removeApp. apply wp_gets_bind. rewrite (proj2 (Nat.ltb_lt _ _) Hrow).
    apply (keepApps_mirror _ _ (λ r s', appsMirror s' ∧ r = Ok tt ∧
      m_apps (globals s') = delete row (m_apps (globals s)))); [done|].
    intros s' H1 H2. by unfold wp; simpl.
Qed.

End Mirror.

(** ** Addresses of sites *)

Lemma unseen_spec seen l :
  NoDup (unseen seen l) ∧ ∀ x, x ∈ unseen seen l ↔ x ∈ l ∧ x ∉ seen.
Proof.
  revert seen. induction l as [|s l IH]; intros seen; simpl.
  { split; [constructor|]. intros x. rewrite elem_of_nil. tauto. }
  destruct (bool_decide_reflect (s ∈ seen)) as [Hs|Hs].
  - destruct (IH seen) as [H1 H2]. split; [done|]. intros x. rewrite H2, elem_of_cons. split; [tauto|].
    intros [[->|?] ?]; tauto.
  - destruct (IH (s :: seen)) as [H1 H2]. split.
    + constructor; [|done]. rewrite H2. set_solver.
    + intros x. rewrite elem_of_cons, H2, !elem_of_cons. destruct (decide (x = s)) as [->|]; tauto.
Qed.

Lemma siteAddress_one {env : QtEnv} {te : TextEnv} e x : x ∈ Settings.siteAddress e ↔ Settings.siteAddress e = [x].
Proof.
  unfold Settings.siteAddress. destruct (checkIpSubnetFormat e.1), (checkIpSubnetFormat (variantText e.2));
    rewrite ?list_elem_of_singleton, ?elem_of_nil; (split; [by (intros -> || intros [])|by intros [=]]).
Qed.

Lemma addresses_spec {env : QtEnv} {te : TextEnv} (m : QVariantMap) :
  let ips := removeDuplicates (flat_map Settings.siteAddress m) in
  NoDup ips ∧ ∀ x, x ∈ ips ↔ ∃ e, e ∈ m ∧ Settings.siteAddress e = [x].
Proof.
  cbn zeta. destruct (unseen_spec [] (flat_map Settings.siteAddress m)) as [H1 H2]. split; [done|]. intros x.
  unfold removeDuplicates. rewrite H2, list_elem_of_In, in_flat_map.
  setoid_rewrite <- siteAddress_one. setoid_rewrite list_elem_of_In.
  split; [by intros [? _]|]. intros H. split; [exact H|]. by intros [].
Qed.

(** ** From the settings to the configuration *)

Section Delivery.
  Context {W : Type} {secrets : SecretEnv W} {env : QtEnv} {te : TextEnv}.
  Import VpnConnection.

(** The configuration is [o] and the settings hold [v]. *)
Definition holds (o : QJsonObject) (v : gmap string QVariant) (r : res Undefined unit)
    (s : Sys QJsonObject (Sys Secure W)) : Prop :=
  r = Ok tt ∧ plain (globals (world s)) ∧ view (globals (world s)) = v ∧ globals s = o.

Ltac next_setting H post :=
  eapply (wp_settings (λ e, e) _ _ _ _ post); [apply H|done|];
  let c := fresh "c" in let Hc := fresh "Hc" in let Hv := fresh "Hv" in
  intros c Hc Hv; unfold id in Hv; simpl in Hv |- *.

(** The two parts of [appendSplitTunnelingConfig] for the user's own servers. *)
Lemma userSites_run o v s :
  holds o v (Ok tt) s → isMode (sitesMode (chosen v)) →
  wp appendUserSites (λ r s' _, holds (inserts o (sitesFields o (chosen v))) v r s') s.
Proof.
  intros (_ & Hp & Hv & Ho) Hm. set (post := holds (inserts o (sitesFields o (chosen v))) v).
  unfold appendUserSites. next_setting runs_sitesEnabled post. rewrite Hv in *.
  unfold chosen, sitesFields in *. cbn [sitesMode siteList] in *.
  destruct (variantBool (setting v "Conf/sitesSplitTunnelingEnabled" (VBool false))); last first.
  { unfold wp; simpl. split_and!; [done..|]. simpl. by rewrite Ho. }
  next_setting runs_routeMode post. rewrite Hv0 in *.
  next_setting (runs_getVpnIps _ Hm) post. rewrite Hv1 in *. unfold wp; simpl. split_and!; [done..|]. simpl. rewrite Ho.
  rewrite map_app. unfold text, JText. by destruct (_ =? VpnOnlyForwardSites).
Qed.

Lemma apps_run o v s :
  holds o v (Ok tt) s → isMode (appsMode (chosen v)) →
  wp appendApps (λ r s' _, holds (inserts o (appsFields (chosen v))) v r s') s.
Proof.
  intros (_ & Hp & Hv & Ho) Hm. set (post := holds (inserts o (appsFields (chosen v))) v).
  unfold appendApps. next_setting runs_appsEnabled post. rewrite Hv in *.
  unfold chosen, appsFields in *. cbn [appsMode appList] in *.
  destruct (variantBool (setting v "Conf/appsSplitTunnelingEnabled" (VBool false))); last first.
  { unfold wp; simpl. split_and!; [done..|]. simpl. by rewrite Ho. }
  next_setting runs_appsRouteMode post. rewrite Hv0 in *.
  next_setting (runs_getVpnApps _ Hm) post. rewrite Hv1 in *. unfold wp; simpl. split_and!; [done..|]. simpl. rewrite Ho.
  by rewrite map_map.
Qed.

Lemma append_run (s : Sys QJsonObject (Sys Secure W)) :
  let c := chosen (view (globals (world s))) in
  plain (globals (world s)) → toInt (QtJson.value (globals s) "config_version") = 0 →
  isMode (sitesMode c) → isMode (appsMode c) →
  wp (appendKillSwitchConfig;; appendSplitTunnelingConfig)
    (λ r s' _, r = Ok tt ∧ globals s' = withChoice (globals s) c) s.
Proof.
  cbn zeta. intros Hp Hver Hm Ha. set (v := view (globals (world s))) in *. set (o := globals s) in *.
  set (o1 := insert_key o "killSwitchOption" (JString (if killSwitch (chosen v) then "true" else "false"))).
  apply wp_bind. eapply wp_mono with (Q := λ r s' _, holds o1 v r s').
  { unfold appendKillSwitchConfig. next_setting runs_killSwitch (holds o1 v). fold v in Hv |- *. by unfold wp; simpl. }
  intros r s1 t1 (-> & H1). cbn [after]. unfold appendSplitTunnelingConfig.
  destruct H1 as (Hp1 & Hv1 & Ho1). apply wp_gets_bind. rewrite Ho1. unfold o1 at 1. rewrite value_insert.
  cbn [String.eqb Ascii.eqb Bool.eqb]. rewrite Hver. cbn [negb Z.eqb].
  apply wp_bind. eapply wp_mono; [by apply (userSites_run o1 v)|]. intros r s2 t2 H2.
  destruct H2 as (-> & H2). cbn [after]. eapply wp_mono; [by apply (apps_run (inserts o1 (sitesFields o1 (chosen v))) v)|].
  intros r s3 t3 (-> & _ & _ & ->). split; [done|]. unfold withChoice, inserts. cbn [foldl fst snd app].
  rewrite foldl_app. unfold o1 at 2, sitesFields. by rewrite !value_insert.
Qed.

(** The additions leave the WireGuard part of the configuration alone. *)
Lemma choice_value o c k :
  k ∉ ["killSwitchOption"; "splitTunnelType"; "splitTunnelSites"; "appSplitTunnelType"; "splitTunnelApps"] →
  QtJson.value (withChoice o c) k = QtJson.value o k.
Proof.
  intros Hk. unfold withChoice. rewrite value_inserts. unfold last_value, sitesFields, appsFields.
  cbn [foldl app fst snd]. repeat (apply not_elem_of_cons in Hk as [? Hk]).
  repeat match goal with |- context [String.eqb ?a ?b] => destruct (String.eqb_spec a b); [congruence|] end. done.
Qed.

Lemma choice_wgConfig o c : wgConfig (withChoice o c) = wgConfig o.
Proof.
  unfold wgConfig, protocolName. rewrite (choice_value o c "protocol") by set_solver. rewrite choice_value; [done|].
  assert (∀ p, has_char "_" (p +:+ "_config_data") = true) as Hu by (intros p; by rewrite has_char_app, orb_true_r).
  intros Hin. specialize (Hu (qtext (toQString (QtJson.value o "protocol")))).
  repeat (apply elem_of_cons in Hin as [Heq|Hin]; [by rewrite Heq in Hu|]). by apply elem_of_nil in Hin.
Qed.

Lemma choice_fields o c :
  isMode (sitesMode c) →
  splitTunnelType (withChoice o c) = sitesMode c ∧
  splitTunnelSites (withChoice o c) = map JString (siteList c ++
    if sitesMode c =? VpnOnlyForwardSites
    then [qtext (toQString (QtJson.value o "dns1")); qtext (toQString (QtJson.value o "dns2"))] else []) ∧
  toArray (QtJson.value (withChoice o c) "splitTunnelApps") = map JString (appList c) ∧
  variantToBool (toQString (QtJson.value (withChoice o c) "killSwitchOption")) = killSwitch c.
Proof.
  intros Hm. unfold splitTunnelType, splitTunnelSites, withChoice. rewrite !value_inserts.
  unfold last_value, sitesFields, appsFields. simpl. split_and!; [|done..|by destruct (killSwitch c)].
  by destruct Hm as [->|[->| ->]].
Qed.

(** ** Properties *)


End Delivery.

(** ** Examples *)

Module SimSettings.
Import SimSecrets.

(** Decimal digits only. *)
#[global] Instance textEnv : TextEnv := {
  toIntOk s := if negb (String.eqb s "") && (bool_decide (SimQt.read_decimal s 0 ≠ 0) || String.eqb s "0")
               then Some (SimQt.read_decimal s 0) else None;
}.

(** Exceptions from the tunnel: a network and a site with its address. *)
Definition exceptions : QVariantMap := [("10.1.0.0/16", VString ""); ("example.org", VString "203.0.113.9")].

Definition store : Secure :=
  mkSecure (list_to_map [("Conf/routeMode", VInt 2); ("Conf/sitesSplitTunnelingEnabled", VBool true);
                         ("Conf/ExceptSites", VMap exceptions)]) ∅ "" "".

Definition model : Sys SitesModel (Sys Secure World) := mkSys (mkSites false 0 []) (mkSys store opened).

(** A configuration before the settings are added to it. *)
Definition ownServer : QJsonObject :=
  [("protocol", JString "awg"); ("dns1", JString "1.1.1.1"); ("dns2", JString "1.0.0.1");
   ("awg_config_data", JObject
     [("client_priv_key", JString "cHJpdg=="); ("client_ip", JString "10.8.1.2");
      ("server_pub_key", JString "cHVi"); ("hostName", JString "203.0.113.7"); ("port", JInt 51820)])].

Lemma store_plain : plain store.
Proof.
  intros key v _ _. revert key v. change (map_Forall (λ _ v, marked v = false) (stored store)).
  apply (bool_decide_unpack _). vm_compute. exact I.
Qed.

Lemma store_sorted mode : isMode mode → sortedMap (sitesOf (view store) mode).
Proof. intros [->|[->| ->]]; vm_compute; repeat constructor. Qed.

End SimSettings.

Import SimSecrets SimSettings.

Lemma sitesModel_mirrors_witness :
  mirrors (state_of ((Sites.constructSites;; for_each [AddSite "example.net" ""; AddSite "example.net" "198.51.100.4"] edit) model)).
Proof.
  apply (sitesModel_mirrors [AddSite "example.net" ""; AddSite "example.net" "198.51.100.4"] model).
  - exact store_plain.
  - exact store_sorted.
  - by right; right.
  - split; [by right; left|]. split; [|done]. intros a Ha. vm_compute in Ha.
    repeat (apply elem_of_cons in Ha as [[= Ha]|Ha]); [by left|by apply elem_of_nil in Ha].
Defined.


(** A listed site whose address changes, as when its name is resolved again,
    gets a second row although the settings have one entry; removing one of the
    rows removes the entry, and the other row stays on the screen. *)
Theorem addSite_duplicates_row :
  let s1 := state_of ((Sites.constructSites;; Sites.addSite "example.org" "198.51.100.4") model) in
  let s2 := state_of (Sites.removeSite 1 s1) in
  m_sites (globals s1) =
    [("10.1.0.0/16", ""); ("example.org", "203.0.113.9"); ("example.org", "198.51.100.4")] ∧
  map shown (sitesOf (view (globals (world s1))) 2) = [("10.1.0.0/16", ""); ("example.org", "198.51.100.4")] ∧
  m_sites (globals s2) = [("10.1.0.0/16", ""); ("example.org", "198.51.100.4")] ∧
  map shown (sitesOf (view (globals (world s2))) 2) = [("10.1.0.0/16", "")].
Proof. cbn zeta. split_and!; vm_compute; reflexivity. Qed.
