(* ===== verification/Containers.v ===== *)
(** * Containers and protocols

    Models the tables of [src/client/containers/containers_defs.cpp] and
    [src/client/protocols/protocols_defs.cpp], with the enumerations of their headers,
    and the factory of [src/client/protocols/vpnprotocol.cpp].

    An enumerator is a constructor of the same name in the module of its enumeration;
    [key] is its name as [QMetaEnum::valueToKey] gives it, and [all] lists the
    enumerators in the order of their values.  The platform that is chosen when the
    program is compiled is an argument.  The descriptions for the user are left out. *)

From stdpp Require Import prelude strings list countable.
From Stdlib Require Import ZArith Lia Ascii.
From S2P Require Import Prelude.

Local Open Scope Z_scope.

(** ** Enumerations *)

Module DockerContainer.

Inductive t :=
| None | Awg | WireGuard | OpenVpn | Cloak | ShadowSocks | Ipsec | Xray | SSXray
| TorWebSite | Dns | Sftp | Socks5Proxy.

#[global] Instance eq_dec : EqDecision t.
Proof. solve_decision. Defined.

Definition key (c : t) : string :=
  match c with
  | None => "None" | Awg => "Awg" | WireGuard => "WireGuard" | OpenVpn => "OpenVpn" | Cloak => "Cloak"
  | ShadowSocks => "ShadowSocks" | Ipsec => "Ipsec" | Xray => "Xray" | SSXray => "SSXray"
  | TorWebSite => "TorWebSite" | Dns => "Dns" | Sftp => "Sftp" | Socks5Proxy => "Socks5Proxy"
  end.

Definition all : list t :=
  [None; Awg; WireGuard; OpenVpn; Cloak; ShadowSocks; Ipsec; Xray; SSXray; TorWebSite; Dns; Sftp; Socks5Proxy].

(** The value of an enumerator. *)
Definition index (c : t) : nat :=
  match c with
  | None => 0 | Awg => 1 | WireGuard => 2 | OpenVpn => 3 | Cloak => 4 | ShadowSocks => 5 | Ipsec => 6 | Xray => 7
  | SSXray => 8 | TorWebSite => 9 | Dns => 10 | Sftp => 11 | Socks5Proxy => 12
  end.

Lemma all_index c : all !! index c = Some c.
Proof. by destruct c. Qed.

#[global, refine] Instance countable : Countable t := inj_countable index (λ n, all !! n) _.
Proof. apply all_index. Defined.

End DockerContainer.

Module Proto.

Inductive t :=
| Any | OpenVpn | ShadowSocks | Cloak | WireGuard | Awg | Ikev2 | L2tp | Xray | SSXray
| TorWebSite | Dns | Sftp | Socks5Proxy.

#[global] Instance eq_dec : EqDecision t.
Proof. solve_decision. Defined.

Definition key (p : t) : string :=
  match p with
  | Any => "Any" | OpenVpn => "OpenVpn" | ShadowSocks => "ShadowSocks" | Cloak => "Cloak" | WireGuard => "WireGuard"
  | Awg => "Awg" | Ikev2 => "Ikev2" | L2tp => "L2tp" | Xray => "Xray" | SSXray => "SSXray"
  | TorWebSite => "TorWebSite" | Dns => "Dns" | Sftp => "Sftp" | Socks5Proxy => "Socks5Proxy"
  end.

Definition all : list t :=
  [Any; OpenVpn; ShadowSocks; Cloak; WireGuard; Awg; Ikev2; L2tp; Xray; SSXray; TorWebSite; Dns; Sftp; Socks5Proxy].

End Proto.

Module TransportProto.

Inductive t := Udp | Tcp | TcpAndUdp.

#[global] Instance eq_dec : EqDecision t.
Proof. solve_decision. Defined.

Definition key (p : t) : string := match p with Udp => "Udp" | Tcp => "Tcp" | TcpAndUdp => "TcpAndUdp" end.
Definition all : list t := [Udp; Tcp; TcpAndUdp].

End TransportProto.

Module ServiceType.

Inductive t := None | Vpn | Other.

#[global] Instance eq_dec : EqDecision t.
Proof. solve_decision. Defined.

End ServiceType.

(** The platforms the preprocessor tells apart. *)
Inductive Os := OsWindows | OsIos | OsMac | OsAndroid | OsLinux | OsOther.

(** [QString::toLower] of a text of ASCII letters. *)
Definition lower_char (c : ascii) : ascii :=
  let n := nat_of_ascii c in if (65 <=? n)%nat && (n <=? 90)%nat then ascii_of_nat (n + 32) else c.
Fixpoint toLower (s : string) : string :=
  match s with EmptyString => EmptyString | String c s => String (lower_char c) (toLower s) end.

(** A search through the enumerators for the first one with the given text. *)
Fixpoint findKey {A} (text : A → string) (s : string) (l : list A) : option A :=
  match l with
  | [] => None
  | a :: l => if String.eqb s (text a) then Some a else findKey text s l
  end.

(** ** [ProtocolProps] *)

Module ProtocolProps.
Import Proto.

Definition protoToString (p : t) : string := if decide (p = Any) then "" else toLower (key p).

Definition protoFromString (proto : string) : t := default Any (findKey protoToString proto all).

Definition transportProtoToString (p : TransportProto.t) : string := toLower (TransportProto.key p).

Definition transportProtoFromString (p : string) : TransportProto.t :=
  default TransportProto.Udp (findKey (λ tp, toLower (transportProtoToString tp)) (toLower p) TransportProto.all).

Definition protocolService (p : t) : ServiceType.t :=
  match p with
  | Any | SSXray => ServiceType.None
  | OpenVpn | Cloak | ShadowSocks | WireGuard | Awg | Ikev2 | Xray => ServiceType.Vpn
  | TorWebSite | Dns | Sftp | Socks5Proxy => ServiceType.Other
  | L2tp => ServiceType.Other
  end.

Definition defaultPort (p : t) : Z :=
  match p with
  | OpenVpn => 1194
  | Cloak => 443
  | ShadowSocks => 6789
  | WireGuard => 51820
  | Awg => 55424
  | Xray => 443
  | Dns => 53
  | Sftp => 222
  | Socks5Proxy => 38080
  | Any | Ikev2 | L2tp | TorWebSite | SSXray => -1
  end.

(** [random] is what [QRandomGenerator::bounded(30000, 50000)] answers. *)
Definition getPortForInstall (random : Z) (p : t) : Z :=
  match p with
  | Awg | WireGuard | ShadowSocks | OpenVpn | Socks5Proxy => random
  | _ => defaultPort p
  end.

Definition defaultPortChangeable (p : t) : bool :=
  match p with
  | OpenVpn | Cloak | ShadowSocks | WireGuard | Awg | Xray | Sftp | Socks5Proxy => true
  | _ => false
  end.

(** Undefined for [SSXray], which the [switch] does not list. *)
Definition defaultTransportProto (p : t) : option TransportProto.t :=
  match p with
  | Any | OpenVpn | WireGuard | Awg | Ikev2 | L2tp | Dns => Some TransportProto.Udp
  | Cloak | Xray | TorWebSite | Sftp | Socks5Proxy => Some TransportProto.Tcp
  | ShadowSocks => Some TransportProto.TcpAndUdp
  | SSXray => None
  end.

Definition defaultTransportProtoChangeable (p : t) : bool := match p with OpenVpn => true | _ => false end.

Definition key_proto_config_data (p : t) : string := protoToString p +:+ "_config_data".
Definition key_proto_config_path (p : t) : string := protoToString p +:+ "_config_path".

End ProtocolProps.

(** ** [ContainerProps] *)

Module ContainerProps.
Import DockerContainer ProtocolProps.

Definition containerToString (c : t) : string :=
  if decide (c = DockerContainer.None) then "none"
  else if decide (c = Cloak) then "amnezia-openvpn-cloak"
  else "amnezia-" +:+ toLower (key c).

Definition containerFromString (container : string) : t :=
  default DockerContainer.None (findKey containerToString container all).

Definition containerTypeToString (c : t) : string :=
  if decide (c = DockerContainer.None) then "none"
  else if decide (c = Ipsec) then "ikev2"
  else toLower (key c).

Definition defaultProtocol (c : t) : Proto.t :=
  match c with
  | DockerContainer.None => Proto.Any
  | OpenVpn => Proto.OpenVpn
  | Cloak => Proto.Cloak
  | ShadowSocks => Proto.ShadowSocks
  | WireGuard => Proto.WireGuard
  | Awg => Proto.Awg
  | Xray => Proto.Xray
  | Ipsec => Proto.Ikev2
  | SSXray => Proto.SSXray
  | TorWebSite => Proto.TorWebSite
  | Dns => Proto.Dns
  | Sftp => Proto.Sftp
  | Socks5Proxy => Proto.Socks5Proxy
  end.

Definition protocolsForContainer (c : t) : list Proto.t :=
  match c with
  | DockerContainer.None => []
  | OpenVpn => [Proto.OpenVpn]
  | ShadowSocks => [Proto.OpenVpn; Proto.ShadowSocks]
  | Cloak => [Proto.OpenVpn; Proto.ShadowSocks; Proto.Cloak]
  | Ipsec => [Proto.Ikev2]
  | Xray => [Proto.Xray]
  | SSXray => [Proto.SSXray]
  | Dns => [Proto.Dns]
  | Sftp => [Proto.Sftp]
  | Socks5Proxy => [Proto.Socks5Proxy]
  | _ => [defaultProtocol c]
  end.

Definition containerService (c : t) : ServiceType.t := protocolService (defaultProtocol c).

Definition containerHumanNames (c : t) : string :=
  match c with
  | DockerContainer.None => "Not installed"
  | OpenVpn => "OpenVPN"
  | ShadowSocks => "OpenVPN over SS"
  | Cloak => "OpenVPN over Cloak"
  | WireGuard => "WireGuard"
  | Awg => "AmneziaWG"
  | Xray => "XRay"
  | Ipsec => "IPsec"
  | SSXray => "Shadowsocks"
  | TorWebSite => "Website in Tor network"
  | Dns => "AmneziaDNS"
  | Sftp => "SFTP file sharing service"
  | Socks5Proxy => "SOCKS5 proxy server"
  end.

Definition isSupportedByCurrentPlatform (os : Os) (c : t) : bool :=
  match os with
  | OsWindows => true
  | OsIos => match c with WireGuard | OpenVpn | Awg | Xray | Cloak | SSXray => true | _ => false end
  | OsMac => match c with WireGuard => true | Ipsec => false | _ => true end
  | OsAndroid =>
      match c with
      | WireGuard | OpenVpn => true
      | ShadowSocks => false
      | Awg | Cloak | Xray | SSXray => true
      | _ => false
      end
  | OsLinux => match c with Ipsec => false | _ => true end
  | OsOther => false
  end.

Definition fixedPortsForContainer (c : t) : list string := match c with Ipsec => ["500"; "4500"] | _ => [] end.

Definition isEasySetupContainer (c : t) : bool := match c with WireGuard | Awg => true | _ => false end.
Definition easySetupOrder (c : t) : Z := match c with WireGuard => 3 | Awg => 2 | _ => 0 end.

Definition isShareable (c : t) : bool := match c with TorWebSite | Dns | Sftp | Socks5Proxy => false | _ => true end.

Definition installPageOrder (c : t) : Z :=
  match c with
  | OpenVpn => 4 | Cloak => 5 | ShadowSocks => 6 | WireGuard => 2 | Awg => 1 | Xray => 3 | Ipsec => 7 | SSXray => 8
  | _ => 0
  end.

(** [VpnProtocol::factory]: the class that is instantiated, if any. *)
Inductive VpnProtocolClass :=
| Ikev2Protocol | OpenVpnProtocol | OpenVpnOverCloakProtocol | ShadowSocksVpnProtocol | WireguardProtocol | XrayProtocol.

Definition factory (os : Os) (c : t) : option VpnProtocolClass :=
  let desktop := match os with OsWindows | OsMac | OsLinux => true | _ => false end in
  match c with
  | Ipsec => match os with OsWindows => Some Ikev2Protocol | _ => Datatypes.None end
  | OpenVpn => if desktop then Some OpenVpnProtocol else Datatypes.None
  | Cloak => if desktop then Some OpenVpnOverCloakProtocol else Datatypes.None
  | ShadowSocks => if desktop then Some ShadowSocksVpnProtocol else Datatypes.None
  | WireGuard | Awg => if desktop then Some WireguardProtocol else Datatypes.None
  | Xray | SSXray => if desktop then Some XrayProtocol else Datatypes.None
  | _ => Datatypes.None
  end.

End ContainerProps.

(** ** Names *)

Import ContainerProps ProtocolProps.

Lemma findKey_Some {A} (text : A → string) s l a : findKey text s l = Some a → a ∈ l ∧ text a = s.
Proof.
  induction l as [|b l IH]; [done|]. cbn [findKey]. destruct (String.eqb_spec s (text b)) as [->|].
  - intros [= ->]. split; [left|done].
  - intros H. destruct (IH H). split; [by right|done].
Qed.

Lemma findKey_None {A} (text : A → string) s l : findKey text s l = None → ∀ a, a ∈ l → text a ≠ s.
Proof.
  induction l as [|b l IH]; intros Hf a Ha; [by apply elem_of_nil in Ha|]. cbn [findKey] in Hf.
  destruct (String.eqb_spec s (text b)) as [|Hne]; [done|]. apply elem_of_cons in Ha as [->|Ha]; [done|]. by apply IH.
Qed.

Lemma container_name c : containerFromString (containerToString c) = c.
Proof. by destruct c. Qed.

Lemma container_name_inj c c' : containerToString c = containerToString c' → c = c'.
Proof. intros H. by rewrite <- (container_name c), H, container_name. Qed.

(** Every other text names no container. *)
Lemma container_unknown s : containerFromString s ≠ DockerContainer.None → s = containerToString (containerFromString s).
Proof.
  unfold containerFromString. destruct (findKey containerToString s DockerContainer.all) as [c|] eqn:Hf; [|done].
  intros _. symmetry. by apply findKey_Some in Hf as [_ ?].
Qed.

Lemma proto_name p : protoFromString (protoToString p) = p.
Proof. by destruct p. Qed.

Lemma proto_name_inj p p' : protoToString p = protoToString p' → p = p'.
Proof. intros H. by rewrite <- (proto_name p), H, proto_name. Qed.

(** No container lists the protocol that stands for all of them. *)
Lemma no_container_lists_any c : Proto.Any ∉ protocolsForContainer c.
Proof. destruct c; cbn; rewrite ?not_elem_of_cons; split_and?; (done || apply not_elem_of_nil). Qed.

(** The names of containers and protocols can be read back: the texts of different
    enumerators differ, and a text that belongs to none is taken for the first
    enumerator.  Transport protocols are also recognised in other cases of their
    letters. *)
Theorem names_roundtrip :
  (∀ c, containerFromString (containerToString c) = c) ∧
  (∀ s, containerToString (containerFromString s) = s ∨ containerFromString s = DockerContainer.None) ∧
  (∀ p, protoFromString (protoToString p) = p) ∧
  (∀ s, protoToString (protoFromString s) = s ∨ protoFromString s = Proto.Any) ∧
  (∀ tp s, toLower s = transportProtoToString tp → transportProtoFromString s = tp) ∧
  (∀ c, containerTypeToString c = protoToString (defaultProtocol c) ∨ c = DockerContainer.None).
Proof.
  split; [exact container_name|]. split.
  { intros s. destruct (decide (containerFromString s = DockerContainer.None)) as [->|Hne]; [by right|].
    left. symmetry. by apply container_unknown. }
  split; [exact proto_name|]. split.
  { intros s. unfold protoFromString. destruct (findKey protoToString s Proto.all) as [p|] eqn:Hf; [|by right].
    left. by apply findKey_Some in Hf as [_ ?]. }
  split; [|by intros []; auto].
  intros tp s Hs. unfold transportProtoFromString. rewrite Hs. by destruct tp.
Qed.

(** The tables agree with each other: the protocol of a container is the last of its
    protocols; what can be shared is exactly what is not an auxiliary service; the easy
    set-up and the installation page list exactly containers that can be shared, each
    page at its own place; and on the desktop the factory makes a connection exactly for
    the containers that can be shared and are supported by the platform. *)
Theorem tables_consistent :
  (∀ c, c ≠ DockerContainer.None → ∃ ps, protocolsForContainer c = ps ++ [defaultProtocol c]) ∧
  (∀ c, isShareable c = true ↔ containerService c ≠ ServiceType.Other) ∧
  (∀ c, isEasySetupContainer c = true ↔ easySetupOrder c ≠ 0) ∧
  (∀ c, installPageOrder c ≠ 0 ↔ isShareable c = true ∧ c ≠ DockerContainer.None) ∧
  (∀ c c', installPageOrder c = installPageOrder c' → installPageOrder c ≠ 0 → c = c') ∧
  (∀ os c, os ∈ [OsWindows; OsMac; OsLinux] → is_Some (factory os c) ↔
     isSupportedByCurrentPlatform os c = true ∧ isShareable c = true ∧ c ≠ DockerContainer.None).
Proof.
  split; [intros c Hc; exists (removelast (protocolsForContainer c)); by destruct c|].
  split; [by intros []|]. split; [by intros []|].
  split; [by intros []; cbn; naive_solver|]. split; [by intros [] []; cbn|].
  intros os c Hos. repeat (apply elem_of_cons in Hos as [->|Hos]); [..|by apply elem_of_nil in Hos];
    destruct c; cbn; (split; [intros [x Hx]; by inversion Hx|intros (H1 & H2 & H3); first [done|by eexists]]).
Qed.
