(* ===== verification/JsonEquiv.v ===== *)
(** * JSON values up to the order of keys

    [QJsonObject] keeps its keys sorted and knows no order of insertion, and a number has
    no exponent of its own.  The lists of [QtJson.v] represent an object in several ways;
    here two values are equivalent if they represent the same one, and the operations
    respect that.  [solid] values are those a [QJsonDocument] can hold. *)

From stdpp Require Import prelude strings list.
From Stdlib Require Import ZArith Lia.
From S2P Require Import Prelude QtJson.

Local Open Scope Z_scope.

(** ** Numbers *)

(** [m * 2 ^ e = m' * 2 ^ e'] *)
Definition double_eq (m e m' e' : Z) : Prop := ∀ n, n <= e → n <= e' → m * 2 ^ (e - n) = m' * 2 ^ (e' - n).

Lemma pow2_pos n : 0 <= n → 0 < 2 ^ n.
Proof. intros H. by apply Z.pow_pos_nonneg. Qed.

(** One common exponent is enough. *)
Lemma double_eq_at m e m' e' n : n <= e → n <= e' → m * 2 ^ (e - n) = m' * 2 ^ (e' - n) → double_eq m e m' e'.
Proof.
  intros H1 H2 Heq k Hk1 Hk2. destruct (Z.le_ge_cases k n) as [Hkn|Hkn].
  - replace (e - k) with ((e - n) + (n - k)) by lia. replace (e' - k) with ((e' - n) + (n - k)) by lia.
    rewrite !Z.pow_add_r, !Z.mul_assoc by lia. by rewrite Heq.
  - replace (e - n) with ((e - k) + (k - n)) in Heq by lia. replace (e' - n) with ((e' - k) + (k - n)) in Heq by lia.
    rewrite !Z.pow_add_r, !Z.mul_assoc in Heq by lia. apply Z.mul_reg_r in Heq; [done|]. pose proof (pow2_pos (k - n)). lia.
Qed.

Lemma double_eq_refl m e : double_eq m e m e.
Proof. by intros n _ _. Qed.
Lemma double_eq_sym m e m' e' : double_eq m e m' e' → double_eq m' e' m e.
Proof. intros H n H1 H2. symmetry. by apply H. Qed.
Lemma double_eq_trans m e m' e' m'' e'' : double_eq m e m' e' → double_eq m' e' m'' e'' → double_eq m e m'' e''.
Proof.
  intros H1 H2. apply (double_eq_at _ _ _ _ (Z.min e (Z.min e' e''))); [lia..|]. rewrite H1 by lia. apply H2; lia.
Qed.

(** The integer a double represents. *)
Lemma double_integer_spec m e n : double_integer m e = Some n ↔ double_eq m e n 0.
Proof.
  unfold double_integer. destruct (Z.leb_spec 0 e) as [He|He].
  - split.
    + intros [= <-]. apply (double_eq_at _ _ _ _ 0); [lia..|]. rewrite !Z.sub_0_r. change (2 ^ 0) with 1. lia.
    + intros H. specialize (H 0 He ltac:(lia)). rewrite !Z.sub_0_r in H. change (2 ^ 0) with 1 in H. f_equal. lia.
  - pose proof (pow2_pos (- e) ltac:(lia)) as Hp. destruct (Z.eqb_spec (m mod 2 ^ (- e)) 0) as [Hm|Hm]; split.
    + intros [= <-]. apply (double_eq_at _ _ _ _ e); [lia..|]. replace (e - e) with 0 by lia. replace (0 - e) with (- e) by lia. change (2 ^ 0) with 1.
      pose proof (Z.div_mod m (2 ^ (- e))). lia.
    + intros H. specialize (H e ltac:(lia) ltac:(lia)). rewrite Z.sub_diag, Z.sub_0_l in H. change (2 ^ 0) with 1 in H. rewrite Z.mul_1_r in H. subst m.
      by rewrite Z.div_mul by lia.
    + done.
    + intros H. specialize (H e ltac:(lia) ltac:(lia)). rewrite Z.sub_diag, Z.sub_0_l in H. change (2 ^ 0) with 1 in H. rewrite Z.mul_1_r in H. subst m.
      by rewrite Z.mod_mul in Hm by lia.
Qed.

Lemma double_integer_eq m e m' e' : double_eq m e m' e' → double_integer m e = double_integer m' e'.
Proof.
  intros H. destruct (double_integer m' e') as [n|] eqn:Hn.
  - apply double_integer_spec. apply double_integer_spec in Hn. by eapply double_eq_trans.
  - destruct (double_integer m e) as [n|] eqn:Hn'; [|done]. apply double_integer_spec in Hn'.
    rewrite (proj2 (double_integer_spec m' e' n)) in Hn; [done|]. eapply double_eq_trans; [by apply double_eq_sym|done].
Qed.

(** ** Values *)

Inductive jeq : QJson → QJson → Prop :=
| jeq_undefined : jeq JUndefined JUndefined
| jeq_null : jeq JNull JNull
| jeq_bool b : jeq (JBool b) (JBool b)
| jeq_double m e m' e' : double_eq m e m' e' → jeq (JDouble m e) (JDouble m' e')
| jeq_string s : jeq (JString s) (JString s)
| jeq_array l l' : Forall2 jeq l l' → jeq (JArray l) (JArray l')
| jeq_object o o' : (∀ k, jeq (value o k) (value o' k)) → jeq (JObject o) (JObject o').

#[global] Instance QJson_equiv : Equiv QJson := jeq.

(** The same object. *)
Definition oeq (o o' : QJsonObject) : Prop := ∀ k, value o k ≡ value o' k.
Infix "≡ₒ" := oeq (at level 70, no associativity).

Fixpoint jeq_refl (v : QJson) : jeq v v.
Proof.
  destruct v as [| | | | |l|o]; try constructor.
  - apply double_eq_refl.
  - induction l as [|v l IH]; constructor; [apply jeq_refl|exact IH].
  - intros k. induction o as [|[j v] o IH]; [constructor|]. cbn [value]. destruct (String.eqb j k); [apply jeq_refl|exact IH].
Qed.

Fixpoint jeq_sym v v' (H : jeq v v') {struct H} : jeq v' v.
Proof.
  destruct H as [| | |m e m' e' H| |l l' H|o o' H]; try constructor.
  - by apply double_eq_sym.
  - induction H as [|x y l l' Hxy Hl IH]; constructor; [by apply jeq_sym|exact IH].
  - intros k. by apply jeq_sym.
Qed.

Fixpoint jeq_trans v1 v2 v3 (H : jeq v1 v2) {struct H} : jeq v2 v3 → jeq v1 v3.
Proof.
  destruct H as [| | |m e m' e' H| |l l' H|o o' H]; intros H'; inversion H' as [| | |m1 e1 m2 e2 H2| |l1 l2 H2|o1 o2 H2]; subst; try constructor.
  - by eapply double_eq_trans.
  - clear H'. revert l2 H2. induction H as [|x y l l' Hxy Hl IH]; intros l2 H2; inversion H2 as [|? z ? l3 Hyz H3]; subst; constructor.
    + by apply (jeq_trans x y z).
    + by apply IH.
  - intros k. by apply (jeq_trans _ (value o' k)).
Qed.

#[global] Instance jeq_equivalence : Equivalence (≡@{QJson}).
Proof. split; [exact jeq_refl|exact jeq_sym|exact jeq_trans]. Qed.

#[global] Instance oeq_equivalence : Equivalence oeq.
Proof.
  split.
  - intros o k. reflexivity.
  - intros o o' H k. symmetry. apply H.
  - intros o1 o2 o3 H1 H2 k. etransitivity; [apply H1|apply H2].
Qed.

(** ** Operations *)

Lemma isUndefined_equiv v v' : v ≡ v' → isUndefined v = isUndefined v'.
Proof. by intros []. Qed.
Lemma toQString_equiv v v' : v ≡ v' → toQString v = toQString v'.
Proof. by intros []. Qed.
Lemma toBool_equiv v v' : v ≡ v' → toBool v = toBool v'.
Proof. by intros []. Qed.
Lemma toInt_equiv v v' : v ≡ v' → toInt v = toInt v'.
Proof. intros [| | |m e m' e' H| | |]; try done. cbn [toInt]. by rewrite (double_integer_eq _ _ _ _ H). Qed.
Lemma toArray_equiv v v' : v ≡ v' → toArray v ≡ toArray v'.
Proof. intros []; cbn [toArray]; try constructor. by apply list_equiv_Forall2. Qed.
Lemma toObject_equiv v v' : v ≡ v' → toObject v ≡ₒ toObject v'.
Proof. by intros []. Qed.
Lemma JObject_equiv o o' : JObject o ≡ JObject o' ↔ o ≡ₒ o'.
Proof. split; [intros H; by inversion H|by constructor]. Qed.
Lemma JArray_equiv l l' : JArray l ≡ JArray l' ↔ l ≡ l'.
Proof. rewrite list_equiv_Forall2. split; [intros H; by inversion H|by constructor]. Qed.

Lemma value_remove o k k' : value (remove o k) k' = if String.eqb k k' then JUndefined else value o k'.
Proof.
  destruct (String.eqb_spec k k') as [<-|Hne]; [apply value_remove_same|by apply value_remove_other].
Qed.

Lemma insert_key_equiv o o' k v v' : o ≡ₒ o' → v ≡ v' → insert_key o k v ≡ₒ insert_key o' k v'.
Proof. intros Ho Hv k'. rewrite !value_insert. destruct (String.eqb k k'); [done|apply Ho]. Qed.

Lemma remove_equiv o o' k : o ≡ₒ o' → remove o k ≡ₒ remove o' k.
Proof. intros Ho k'. rewrite !value_remove. destruct (String.eqb k k'); [done|apply Ho]. Qed.

#[global] Instance value_proper : Proper (oeq ==> (=) ==> (≡)) value.
Proof. intros o o' Ho k ? <-. apply Ho. Qed.
#[global] Instance toQString_proper : Proper ((≡) ==> (=)) toQString.
Proof. exact toQString_equiv. Qed.
#[global] Instance toInt_proper : Proper ((≡) ==> (=)) toInt.
Proof. exact toInt_equiv. Qed.
#[global] Instance toArray_proper : Proper ((≡) ==> (≡)) toArray.
Proof. exact toArray_equiv. Qed.
#[global] Instance toObject_proper : Proper ((≡) ==> oeq) toObject.
Proof. exact toObject_equiv. Qed.
#[global] Instance JObject_proper : Proper (oeq ==> (≡)) JObject.
Proof. intros o o' Ho. by apply JObject_equiv. Qed.
#[global] Instance JArray_proper : Proper ((≡) ==> (≡)) JArray.
Proof. intros l l' Hl. by apply JArray_equiv. Qed.
#[global] Instance insert_key_proper : Proper (oeq ==> (=) ==> (≡) ==> oeq) insert_key.
Proof. intros o o' Ho k ? <- v v' Hv. by apply insert_key_equiv. Qed.
#[global] Instance remove_proper : Proper (oeq ==> (=) ==> oeq) remove.
Proof. intros o o' Ho k ? <-. by apply remove_equiv. Qed.

(** ** Documents *)

(** A value a document can hold: nothing in it is undefined, and every key occurs once. *)
Fixpoint solid (v : QJson) : bool :=
  match v with
  | JUndefined => false
  | JArray l => forallb solid l
  | JObject o => bool_decide (NoDup o.*1) && forallb (λ kv, solid kv.2) o
  | _ => true
  end.

Lemma solid_object o : solid (JObject o) = true ↔ NoDup o.*1 ∧ Forall (λ kv, solid kv.2 = true) o.
Proof.
  cbn [solid]. rewrite andb_true_iff, bool_decide_eq_true, forallb_forall, Forall_forall.
  by setoid_rewrite list_elem_of_In.
Qed.

Lemma solid_array l : solid (JArray l) = true ↔ Forall (λ v, solid v = true) l.
Proof. cbn [solid]. rewrite forallb_forall, Forall_forall. by setoid_rewrite list_elem_of_In. Qed.

Lemma solid_value o k : solid (JObject o) = true → value o k = JUndefined ∨ solid (value o k) = true.
Proof.
  intros [_ Ho]%solid_object. induction Ho as [|[j v] o Hv Ho IH]; [by left|]. cbn [value].
  destruct (String.eqb j k); [by right|done].
Qed.

Lemma solid_toObject v : solid v = true ∨ v = JUndefined → solid (JObject (toObject v)) = true.
Proof. intros [Hv | ->]; [by destruct v|done]. Qed.

Lemma solid_toArray v : solid v = true ∨ v = JUndefined → Forall (λ v, solid v = true) (toArray v).
Proof. intros [Hv | ->]; [|constructor]. destruct v; try constructor. by apply solid_array. Qed.

Lemma solid_remove o k : solid (JObject o) = true → solid (JObject (remove o k)) = true.
Proof.
  intros [Hnd Ho]%solid_object. apply solid_object. unfold remove. split.
  - eapply sublist_NoDup; [exact Hnd|]. clear.
    induction o as [|kv o IH]; cbn [List.filter fmap list_fmap]; [done|]. destruct (negb _); by constructor.
  - rewrite Forall_forall in *. intros kv Hkv. apply Ho. rewrite list_elem_of_In, filter_In, <- list_elem_of_In in Hkv. apply Hkv.
Qed.

Lemma solid_insert o k v : solid (JObject o) = true → solid v = true → solid (JObject (insert_key o k v)) = true.
Proof.
  intros Ho Hv. unfold insert_key. destruct (isUndefined v) eqn:Hu; [by destruct v|].
  pose proof (solid_remove o k Ho) as [Hnd Hr]%solid_object. apply solid_object. rewrite fmap_app. split.
  - apply NoDup_app. split; [done|]. split; [|apply NoDup_singleton]. intros j Hj Hjk.
    cbn in Hjk. apply list_elem_of_singleton in Hjk. subst j. unfold remove in Hj. apply list_elem_of_fmap in Hj as (kv & Hk & Hkv).
    rewrite list_elem_of_In, filter_In in Hkv. destruct Hkv as [_ Hkv]. by rewrite <- Hk, String.eqb_refl in Hkv.
  - apply Forall_app. split; [done|]. by constructor.
Qed.

(** A key without a value. *)
Lemma remove_absent o k : value o k = JUndefined → remove o k ≡ₒ o.
Proof. intros Hk k'. rewrite value_remove. destruct (String.eqb_spec k k') as [<-|]; [by rewrite Hk|done]. Qed.
