(* ===== verification/ServerSettings.v ===== *)
(** * The list of servers in the settings

    Models the part of the class [Settings] of [src/client/settings.cpp] and [settings.h]
    that keeps the servers, their containers and the default server, over the store of
    [SecureSettings.v].  The list is the text of a JSON array under an encrypted key;
    the conversion between arrays and texts is the class [ArrayText].

    An index of a [QJsonArray] that is out of range reads an undefined value, but
    replacing or removing there is undefined behaviour.  The texts [tr] translates are
    those of the source. *)

From stdpp Require Import prelude strings list gmap pretty.
From Stdlib Require Import ZArith Lia Ascii.
From S2P Require Import Prelude IPAddress QtJson InterfaceConfig LineProtocol SecureSettings SplitTunnel Containers JsonEquiv.

Local Open Scope Z_scope.

(** ** Qt *)

Class ArrayText := {
  arrayText : list QJson → string;       (* QJsonDocument(array).toJson() *)
  parseArray : string → list QJson;      (* QJsonDocument::fromJson(text).array() *)
}.

(** A document is read back as it was written, and nothing is read from no text. *)
Class ArrayTextLaws (at_ : ArrayText) : Prop := {
  array_roundtrip l : solid (JArray l) = true → parseArray (arrayText l) ≡ l;
  array_solid s : solid (JArray (parseArray s)) = true;
  array_empty : parseArray "" = [];
}.

(** [QUuid::createUuid().toString()] *)
Class UuidSource (W : Type) := { createUuid : W → string * W }.

(** [QJsonArray::at] *)
Definition arrayAt (l : list QJson) (i : Z) : QJson := if i <? 0 then JUndefined else default JUndefined (l !! Z.to_nat i).

(** [value(key).toString()] *)
Definition field (o : QJsonObject) (k : string) : string := qtext (toQString (QtJson.value o k)).

(** [QString::remove(0, 1)] and [chop(1)] *)
Definition dropFirst (s : string) : string := match s with EmptyString => EmptyString | String _ s => s end.
Fixpoint chop (s : string) : string :=
  match s with EmptyString => EmptyString | String _ EmptyString => EmptyString | String c s => String c (chop s) end.

Inductive SetEvent :=
| EvStore (e : SEvent)
| EvServerRemoved (index : Z)
| EvSettingsCleared.

Record ServerCredentials := mkCredentials { cr_hostName : string; cr_userName : string; cr_secretData : string; cr_port : Z }.

(** The containers of an array by their names; of several with one name the last. *)
Definition containersByName (l : list QJson) : gmap DockerContainer.t QJsonObject :=
  foldl (λ m val, <[ContainerProps.containerFromString (field (toObject val) "container") := toObject val]> m) ∅ l.

(** The values of a [QMap], in the order of the keys. *)
Definition inOrder (m : gmap DockerContainer.t QJsonObject) : list QJson :=
  omap (λ c, JObject <$> m !! c) DockerContainer.all.

Definition credentialsOf (s : QJsonObject) : ServerCredentials :=
  mkCredentials (field s "hostName") (field s "userName") (field s "password") (toInt (QtJson.value s "port")).

Module Servers.
Section Servers.
  Context {W : Type} {secrets : SecretEnv W} {te : TextEnv} {text : ArrayText}.

Definition SetM (A : Type) : Type := M (Sys Secure W) SetEvent Undefined A.

Definition store {A} (m : SecureQSettings.SM W A) : SetM A := λ s,
  match m s with (r, s', t) => (r, s', map EvStore t) end.

Definition readSetting (key : string) (d : QVariant) : SetM QVariant := store (SecureQSettings.value key d).
Definition writeSetting (key : string) (v : QVariant) : SetM unit := store (SecureQSettings.setValue key v).

(** *** Servers *)

Definition serversArray : SetM (list QJson) :=
  v ← readSetting "Servers/serversList" VInvalid; mret (parseArray (variantText v)).
Definition setServersArray (servers : list QJson) : SetM unit :=
  writeSetting "Servers/serversList" (VBytes (arrayText servers)).

Definition serversCount : SetM Z := servers ← serversArray; mret (Z.of_nat (length servers)).

Definition server (index : Z) : SetM QJsonObject :=
  servers ← serversArray;
  if Z.of_nat (length servers) <=? index then mret [] else mret (toObject (arrayAt servers index)).

Definition addServer (server : QJsonObject) : SetM unit :=
  servers ← serversArray;
  setServersArray (servers ++ [JObject server]).

Definition removeServer (index : Z) : SetM unit :=
  servers ← serversArray;
  if Z.of_nat (length servers) <=? index then mret tt
  else if index <? 0 then throw UndefinedBehaviour
  else setServersArray (delete (Z.to_nat index) servers);; emit (EvServerRemoved index).

Definition editServer (index : Z) (server : QJsonObject) : SetM bool :=
  servers ← serversArray;
  if Z.of_nat (length servers) <=? index then mret false
  else if index <? 0 then throw UndefinedBehaviour
  else setServersArray (<[Z.to_nat index := JObject server]> servers);; mret true.

Definition defaultServerIndex : SetM Z := v ← readSetting "Servers/defaultServerIndex" (VInt 0); mret (variantInt v).
Definition setDefaultServer (index : Z) : SetM unit := writeSetting "Servers/defaultServerIndex" (VInt index).
Definition defaultServer : SetM QJsonObject := i ← defaultServerIndex; server i.

(** *** Containers *)

Definition setDefaultContainer (serverIndex : Z) (container : DockerContainer.t) : SetM unit :=
  s ← server serverIndex;
  editServer serverIndex (insert_key s "defaultContainer" (JString (ContainerProps.containerToString container)));; mret tt.

Definition defaultContainerName (serverIndex : Z) : SetM string :=
  s ← server serverIndex;
  let name := field s "defaultContainer" in
  mret (if String.eqb name "" then ContainerProps.containerToString DockerContainer.None else name).

Definition defaultContainer (serverIndex : Z) : SetM DockerContainer.t :=
  name ← defaultContainerName serverIndex; mret (ContainerProps.containerFromString name).

Definition containers (serverIndex : Z) : SetM (gmap DockerContainer.t QJsonObject) :=
  s ← server serverIndex; mret (containersByName (toArray (QtJson.value s "containers"))).

Definition setContainers (serverIndex : Z) (cs : gmap DockerContainer.t QJsonObject) : SetM unit :=
  s ← server serverIndex;
  editServer serverIndex (insert_key s "containers" (JArray (inOrder cs)));; mret tt.

Definition containerConfig (serverIndex : Z) (container : DockerContainer.t) : SetM QJsonObject :=
  if decide (container = DockerContainer.None) then mret []
  else cs ← containers serverIndex; mret (default [] (cs !! container)).

Definition setContainerConfig (serverIndex : Z) (container : DockerContainer.t) (config : QJsonObject) : SetM unit :=
  if decide (container = DockerContainer.None) then mret tt
  else
    c ← containers serverIndex;
    setContainers serverIndex
      (<[container := insert_key config "container" (JString (ContainerProps.containerToString container))]> c).

Definition removeContainerConfig (serverIndex : Z) (container : DockerContainer.t) : SetM unit :=
  if decide (container = DockerContainer.None) then mret tt
  else c ← containers serverIndex; setContainers serverIndex (delete container c).

Definition protocolConfig (serverIndex : Z) (container : DockerContainer.t) (proto : Proto.t) : SetM QJsonObject :=
  c ← containerConfig serverIndex container; mret (toObject (QtJson.value c (ProtocolProps.protoToString proto))).

Definition setProtocolConfig (serverIndex : Z) (container : DockerContainer.t) (proto : Proto.t) (config : QJsonObject) : SetM unit :=
  c ← containerConfig serverIndex container;
  setContainerConfig serverIndex container (insert_key c (ProtocolProps.protoToString proto) (JObject config)).

(** The body for one protocol. *)
Definition clearProtocol (serverIndex : Z) (container : DockerContainer.t) (proto : Proto.t) : SetM unit :=
  c ← protocolConfig serverIndex container proto;
  setProtocolConfig serverIndex container proto (remove c "last_config").

(** The recursive call has depth 1: no container lists the protocol [Any]. *)
Definition clearLastConnectionConfig (serverIndex : Z) (container : DockerContainer.t) (proto : Proto.t) : SetM unit :=
  if decide (proto = Proto.Any)
  then for_each (ContainerProps.protocolsForContainer container) (λ p, clearProtocol serverIndex container p)
  else clearProtocol serverIndex container proto.

(** *** Credentials and names *)

Definition serverCredentials (index : Z) : SetM ServerCredentials := s ← server index; mret (credentialsOf s).
Definition defaultServerCredentials : SetM ServerCredentials := i ← defaultServerIndex; serverCredentials i.

Definition haveAuthData (serverIndex : Z) : SetM bool :=
  if serverIndex <? 0 then mret false
  else
    cred ← serverCredentials serverIndex;
    mret (negb (String.eqb (cr_hostName cred) "") && negb (String.eqb (cr_userName cred) "") && negb (String.eqb (cr_secretData cred) "")).

Definition serverName (i : Z) : string := "Server" +:+ " " +:+ pretty i.

Fixpoint nextName (fuel : nat) (i : Z) : SetM string :=
  match fuel with
  | O => out_of_fuel
  | S fuel =>
      servers ← serversArray;
      if existsb (λ s, String.eqb (field (toObject s) "description") (serverName i)) servers then nextName fuel (i + 1)
      else mret (serverName i)
  end.

Definition nextAvailableServerName (fuel : nat) : SetM string := nextName fuel 1.

(** *** Other settings the server list uses *)

Definition useAmneziaDns : SetM bool := v ← readSetting "Conf/useAmneziaDns" (VBool true); mret (variantBool v).
Definition setUseAmneziaDns (enabled : bool) : SetM unit := writeSetting "Conf/useAmneziaDns" (VBool enabled).
Definition primaryDns : SetM string := v ← readSetting "Conf/primaryDns" (VString "1.1.1.1"); mret (variantText v).
Definition secondaryDns : SetM string := v ← readSetting "Conf/secondaryDns" (VString "1.0.0.1"); mret (variantText v).
Definition setPrimaryDns (dns : string) : SetM unit := writeSetting "Conf/primaryDns" (VString dns).
Definition setSecondaryDns (dns : string) : SetM unit := writeSetting "Conf/secondaryDns" (VString dns).

(** The constructor: a server of an old version becomes the first of the list. *)
Definition construct : SetM unit :=
  n ← serversCount;
  when (n =? 0) (
    user ← readSetting "Server/userName" VInvalid;
    password ← readSetting "Server/password" VInvalid;
    serverName ← readSetting "Server/serverName" VInvalid;
    port ← readSetting "Server/serverPort" VInvalid;
    when (negb (String.eqb (variantText user) "") && negb (String.eqb (variantText password) "") &&
          negb (String.eqb (variantText serverName) "")) (
      addServer (inserts [] [("userName", JString (variantText user)); ("password", JString (variantText password));
                             ("hostName", JString (variantText serverName)); ("port", JInt (variantInt port));
                             ("description", JString "Server #1")]);;
      store (SecureQSettings.remove "Server/userName");;
      store (SecureQSettings.remove "Server/password");;
      store (SecureQSettings.remove "Server/serverName");;
      store (SecureQSettings.remove "Server/serverPort"))).

Section Uuid.
  Context {uuids : UuidSource W}.

Definition newUuid : SetM string := λ s,
  let '(u, w) := createUuid (world s) in (Ok u, mkSys (globals s) w, []).

Definition setInstallationUuid (uuid : string) : SetM unit := writeSetting "Conf/installationUuid" (VString uuid).

Definition getInstallationUuid (needCreate : bool) : SetM string :=
  v ← readSetting "Conf/installationUuid" (VString "");
  let uuid := variantText v in
  if needCreate && String.eqb uuid "" then
    created ← newUuid;
    let uuid := chop (dropFirst created) in
    setInstallationUuid uuid;; mret uuid
  else if has_char "{" uuid && has_char "}" uuid then
    let uuid := chop (dropFirst uuid) in
    setInstallationUuid uuid;; mret uuid
  else mret uuid.

Definition clearSettings : SetM unit :=
  uuid ← getInstallationUuid false;
  store SecureQSettings.clearSettings;;
  setInstallationUuid uuid;;
  emit EvSettingsCleared.

End Uuid.
End Servers.
End Servers.
#[global] Arguments Servers.SetM W A : clear implicits.
