(* ===== verification/ServersModel.v ===== *)
(** * The models of servers and containers

    Models the classes [ServersModel] and [ContainersModel] of
    [src/client/ui/models/servers_model.cpp] and [containers_model.cpp]: the list of
    servers the user sees, the default server, the server whose pages are open, and their
    containers, over the settings of [ServerSettings.v].

    The signals of the models are events.  The slots connected to [defaultServerIndexChanged]
    in the constructor run where the signal is emitted.  A placeholder inside an argument
    of [QString::arg] is not expanded again.  [ServerController] stands for the
    commands run on a server over SSH, [Clock] for the dates of Qt. *)

From stdpp Require Import prelude strings list gmap pretty sorting.
From Stdlib Require Import ZArith Lia Ascii.
From S2P Require Import Prelude IPAddress QtJson InterfaceConfig LineProtocol SecureSettings SplitTunnel Containers JsonEquiv ServerSettings.

Local Open Scope Z_scope.

(** ** What the models use *)

(** The error code of a command and what it does to the world. *)
Class ServerController (W : Type) := {
  remoteRemoveAllContainers : ServerCredentials → W → Z * W;
  remoteRemoveContainer : ServerCredentials → DockerContainer.t → W → Z * W;
  remoteReboot : ServerCredentials → W → Z * W;
}.

(** Commands on a server do not touch the key storage of this computer. *)
Class ServerControllerLaws {W} {secrets : SecretEnv W} (controller : ServerController W) : Prop := {
  removeAllContainers_keeps cr t w : secret t (remoteRemoveAllContainers cr w).2 = secret t w;
  removeContainer_keeps cr c t w : secret t (remoteRemoveContainer cr c w).2 = secret t w;
  reboot_keeps cr t w : secret t (remoteReboot cr w).2 = secret t w;
}.

Class Clock (W : Type) := {
  tomorrow : W → string;          (* currentDateTimeUtc().addDays(1).toString(Qt::ISODate) *)
  isPast : string → W → bool;     (* fromString(text, Qt::ISODate).toUTC() < currentDateTimeUtc() *)
}.

Definition NoError : Z := 0.

(** [ApiConfigSources] *)
Definition Telegram : Z := 1.
Definition AmneziaGateway : Z := 2.

Definition amneziaDnsIp : string := "172.29.172.254".

Definition contains_text (s sub : string) : bool := match String.index 0 sub s with Some _ => true | None => false end.

(** ** [ContainersModel] *)

Record ContainersModel := mkContainers {
  m_containers : gmap DockerContainer.t QJsonObject;
  m_processedContainerIndex : Z;
}.

Module ContainersOps.

Definition updateModel (containers : list QJson) (m : ContainersModel) : ContainersModel :=
  mkContainers (containersByName containers) (m_processedContainerIndex m).

Definition setProcessedContainerIndex (index : Z) (m : ContainersModel) : ContainersModel := mkContainers (m_containers m) index.

(** [data] with [ConfigRole] and [IsInstalledRole]; a row out of range has no data. *)
Definition rowContainer (row : Z) : option DockerContainer.t :=
  if row <? 0 then None else DockerContainer.all !! Z.to_nat row.

Definition getContainerConfig (row : Z) (m : ContainersModel) : QJsonObject :=
  match rowContainer row with
  | None => []
  | Some c => if decide (c = DockerContainer.None) then [] else default [] (m_containers m !! c)
  end.

Definition isInstalled (row : Z) (m : ContainersModel) : bool :=
  match rowContainer row with None => false | Some c => bool_decide (is_Some (m_containers m !! c)) end.

(** The keys of the map, in their order. *)
Definition installed (m : ContainersModel) : list DockerContainer.t :=
  List.filter (λ c, bool_decide (is_Some (m_containers m !! c))) DockerContainer.all.

Definition hasInstalledServices (m : ContainersModel) : bool :=
  existsb (λ c, bool_decide (ContainerProps.containerService c = ServiceType.Other)) (installed m).
Definition hasInstalledProtocols (m : ContainersModel) : bool :=
  existsb (λ c, bool_decide (ContainerProps.containerService c = ServiceType.Vpn)) (installed m).

End ContainersOps.

(** ** [ServersModel] *)

Record ServersModel := mkServers {
  m_servers : list QJson;
  m_defaultServerIndex : Z;
  m_processedServerIndex : Z;
  m_isAmneziaDnsEnabled : bool;
}.

Inductive SvEvent :=
| EvSet (e : SetEvent)
| EvServerChanged (row : Z)                          (* dataChanged *)
| EvServersReset                                     (* endResetModel *)
| processedServerIndexChanged (index : Z)
| defaultServerIndexChanged (index : Z)
| defaultServerNameChanged
| defaultServerDescriptionChanged
| containersUpdated (containers : list QJson)
| defaultServerContainersUpdated (containers : list QJson)
| defaultServerDefaultContainerChanged (container : DockerContainer.t)
| updateApiLanguageModel
| updateApiServicesModel
| removeVPNC (name : string).

(** The roles of [data] and the values they have. *)
Inductive Roles :=
| NameRole | ServerDescriptionRole | HostNameRole | CredentialsRole | CredentialsLoginRole | IsDefaultRole
| IsCurrentlyProcessedRole | HasWriteAccessRole | ContainsAmneziaDnsRole | DefaultContainerRole
| HasInstalledContainers | IsServerFromTelegramApiRole | IsServerFromGatewayApiRole | ApiConfigRole
| IsCountrySelectionAvailableRole | ApiAvailableCountriesRole | ApiServerCountryCodeRole | HasAmneziaDns.

Inductive RoleValue :=
| NoValue
| TextValue (s : string)
| BoolValue (b : bool)
| CredentialsValue (c : ServerCredentials)
| ContainerValue (c : DockerContainer.t)
| ObjectValue (o : QJsonObject)
| ArrayValue (l : list QJson).

(** [QVariant::toBool] *)
Definition roleBool (v : RoleValue) : bool := match v with BoolValue b => b | _ => false end.

Module ServersData.

(** *** Reading *)

Definition serverAt (m : ServersModel) (index : Z) : QJsonObject := toObject (arrayAt (m_servers m) index).
Definition containersAt (m : ServersModel) (index : Z) : list QJson := toArray (QtJson.value (serverAt m index) "containers").
Definition configVersion (server : QJsonObject) : Z := toInt (QtJson.value server "config_version").
Definition apiConfig (server : QJsonObject) : QJsonObject := toObject (QtJson.value server "api_config").
Definition containerName (c : QJson) : string := field (toObject c) "container".
Definition containerOf (c : QJson) : DockerContainer.t := ContainerProps.containerFromString (containerName c).
Definition defaultContainerOf (server : QJsonObject) : DockerContainer.t :=
  ContainerProps.containerFromString (field server "defaultContainer").

Definition isAmneziaDnsContainerInstalled (m : ServersModel) (serverIndex : Z) : bool :=
  existsb (λ c, String.eqb (containerName c) (ContainerProps.containerToString DockerContainer.Dns)) (containersAt m serverIndex).

Definition serverHasInstalledContainers (m : ServersModel) (serverIndex : Z) : bool :=
  existsb (λ c, bool_decide (ContainerProps.containerService (containerOf c) = ServiceType.Vpn) ||
                bool_decide (containerOf c = DockerContainer.SSXray)) (containersAt m serverIndex).

Definition serverCredentials (m : ServersModel) (index : Z) : ServerCredentials := credentialsOf (serverAt m index).

(** The roles that the description of a server uses. *)
Definition hasWriteAccess (m : ServersModel) (row : Z) : bool :=
  let credentials := serverCredentials m row in
  negb (String.eqb (cr_userName credentials) "") && negb (String.eqb (cr_secretData credentials) "").

Definition validRow (m : ServersModel) (row : Z) : bool := (0 <=? row) && (row <? Z.of_nat (length (m_servers m))).

Definition getServerDescription (m : ServersModel) (server : QJsonObject) (index : Z) : string :=
  if negb (configVersion server =? 0) && negb (String.eqb (field (apiConfig server) "server_country_code") "")
  then field (apiConfig server) "server_country_name"
  else if negb (configVersion server =? 0) then field server "description"
  else if validRow m index && hasWriteAccess m index then
    (if m_isAmneziaDnsEnabled m && isAmneziaDnsContainerInstalled m index then "Amnezia DNS | " else "")
  else if validRow m index && String.eqb (field (serverAt m index) "dns1") amneziaDnsIp then "Amnezia DNS | " else "".

Definition data (m : ServersModel) (row : Z) (role : Roles) : RoleValue :=
  if negb (validRow m row) then NoValue
  else
    let server := serverAt m row in
    match role with
    | NameRole =>
        if negb (configVersion server =? 0) then TextValue (field server "name")
        else TextValue (if String.eqb (field server "description") "" then field server "hostName" else field server "description")
    | ServerDescriptionRole =>
        let description := getServerDescription m server row in
        TextValue (if negb (configVersion server =? 0) then description else description +:+ field server "hostName")
    | HostNameRole => TextValue (field server "hostName")
    | CredentialsRole => CredentialsValue (serverCredentials m row)
    | CredentialsLoginRole => TextValue (cr_userName (serverCredentials m row))
    | IsDefaultRole => BoolValue (row =? m_defaultServerIndex m)
    | IsCurrentlyProcessedRole => BoolValue (row =? m_processedServerIndex m)
    | HasWriteAccessRole => BoolValue (hasWriteAccess m row)
    | ContainsAmneziaDnsRole | HasAmneziaDns => BoolValue (String.eqb (field server "dns1") amneziaDnsIp)
    | DefaultContainerRole => ContainerValue (defaultContainerOf server)
    | HasInstalledContainers => BoolValue (serverHasInstalledContainers m row)
    | IsServerFromTelegramApiRole => BoolValue (configVersion server =? Telegram)
    | IsServerFromGatewayApiRole => BoolValue (configVersion server =? AmneziaGateway)
    | ApiConfigRole => ObjectValue (apiConfig server)
    | IsCountrySelectionAvailableRole =>
        BoolValue (negb (length (toArray (QtJson.value (apiConfig server) "available_countries")) =? 0)%nat)
    | ApiAvailableCountriesRole => ArrayValue (toArray (QtJson.value (apiConfig server) "available_countries"))
    | ApiServerCountryCodeRole => TextValue (field (apiConfig server) "server_country_code")
    end.

Definition getDefaultServerDescriptionCollapsed (m : ServersModel) : string :=
  let server := serverAt m (m_defaultServerIndex m) in
  let description := getServerDescription m server (m_defaultServerIndex m) in
  if negb (configVersion server =? 0) then description
  else description +:+ ContainerProps.containerHumanNames (defaultContainerOf server) +:+ " | " +:+ field server "hostName".

Definition getDefaultServerDescriptionExpanded (m : ServersModel) : string :=
  let server := serverAt m (m_defaultServerIndex m) in
  let description := getServerDescription m server (m_defaultServerIndex m) in
  if negb (configVersion server =? 0) then description else description +:+ field server "hostName".

Definition hasServerWithWriteAccess (m : ServersModel) : bool :=
  existsb (λ i, roleBool (data m (Z.of_nat i) HasWriteAccessRole)) (seq 0 (length (m_servers m))).

Definition isServerFromApi (m : ServersModel) (serverIndex : Z) : bool :=
  roleBool (data m serverIndex IsServerFromTelegramApiRole) || roleBool (data m serverIndex IsServerFromGatewayApiRole).

(** [static_cast<quint16>] of the field. *)
Definition crcExists (m : ServersModel) (crc : Z) : bool :=
  existsb (λ s, toInt (QtJson.value (toObject s) "crc") mod 65536 =? crc) (m_servers m).

Definition serviceExists (m : ServersModel) (userCountryCode serviceType serviceProtocol : string) : bool :=
  existsb (λ s, let api := apiConfig (toObject s) in
    String.eqb (field api "user_country_code") userCountryCode && String.eqb (field api "service_type") serviceType &&
    String.eqb (field api "service_protocol") serviceProtocol) (m_servers m).

Definition serviceName (c : DockerContainer.t) : list string :=
  if decide (ContainerProps.containerService c = ServiceType.Other) then
    match c with
    | DockerContainer.Dns => ["DNS"] | DockerContainer.Sftp => ["SFTP"]
    | DockerContainer.TorWebSite => ["TOR"] | DockerContainer.Socks5Proxy => ["SOCKS5"]
    | _ => []
    end
  else [].

Definition getAllInstalledServicesName (m : ServersModel) (serverIndex : Z) : list string :=
  merge_sort (λ a b, Is_true (String.leb a b)) (flat_map (λ c, serviceName (containerOf c)) (containersAt m serverIndex)).

Section SplitTunneling.
  Context {jt : JsonText}.

(** What the stored client configuration of a container says. *)
Definition containerSplits (defaultContainer : DockerContainer.t) (container : QJsonObject) : option bool :=
  match defaultContainer with
  | DockerContainer.Awg | DockerContainer.WireGuard =>
      let text := field (toObject (QtJson.value container (ContainerProps.containerTypeToString defaultContainer))) "last_config" in
      let ips := toArray (QtJson.value (default [] (fromText text)) "allowed_ips") in
      Some ((contains_text text "AllowedIPs" && negb (contains_text text "AllowedIPs = 0.0.0.0/0, ::/0")) ||
            (negb (length ips =? 0)%nat && negb (existsb (λ v, match v with JString s => String.eqb s "0.0.0.0/0" | _ => false end) ips)))
  | DockerContainer.Cloak | DockerContainer.OpenVpn | DockerContainer.ShadowSocks =>
      let text := field (toObject (QtJson.value container (ContainerProps.containerTypeToString DockerContainer.OpenVpn))) "last_config" in
      Some (negb (String.eqb text "") && negb (contains_text text "redirect-gateway"))
  | _ => None
  end.

(** The first container that decides. *)
Fixpoint firstSplits (defaultContainer : DockerContainer.t) (l : list QJson) : bool :=
  match l with
  | [] => false
  | c :: l =>
      if negb (String.eqb (containerName c) (ContainerProps.containerToString defaultContainer)) then firstSplits defaultContainer l
      else match containerSplits defaultContainer (toObject c) with Some b => b | None => firstSplits defaultContainer l end
  end.

Definition isDefaultServerDefaultContainerHasSplitTunneling (m : ServersModel) : bool :=
  firstSplits (defaultContainerOf (serverAt m (m_defaultServerIndex m))) (containersAt m (m_defaultServerIndex m)).

End SplitTunneling.
End ServersData.

(** *** Changing *)

Module ServersOps.
Section ServersOps.
  Context {W : Type} {secrets : SecretEnv W} {env : QtEnv} {te : TextEnv} {text : ArrayText}.
  Import ServersData.

Definition SvM (A : Type) : Type := M (Sys ServersModel (Sys Secure W)) SvEvent Undefined A.

Definition getM {A} (f : ServersModel → A) : SvM A := gets (λ s, f (globals s)).
Definition setM (f : ServersModel → ServersModel) : SvM unit := modify (λ s, mkSys (f (globals s)) (world s)).
Definition settings {A} (m : Servers.SetM W A) : SvM A := λ s,
  match m (world s) with (r, w, t) => (r, mkSys (globals s) w, map EvSet t) end.

Definition setServers (l : list QJson) (m : ServersModel) : ServersModel :=
  mkServers l (m_defaultServerIndex m) (m_processedServerIndex m) (m_isAmneziaDnsEnabled m).
Definition setDefaultIndex (i : Z) (m : ServersModel) : ServersModel :=
  mkServers (m_servers m) i (m_processedServerIndex m) (m_isAmneziaDnsEnabled m).
Definition setProcessedIndex (i : Z) (m : ServersModel) : ServersModel :=
  mkServers (m_servers m) (m_defaultServerIndex m) i (m_isAmneziaDnsEnabled m).
Definition setDns (b : bool) (m : ServersModel) : ServersModel :=
  mkServers (m_servers m) (m_defaultServerIndex m) (m_processedServerIndex m) b.

(** [m_servers.replace] *)
Definition replaceServer (i : Z) (v : QJson) : SvM unit :=
  servers ← getM m_servers;
  if (0 <=? i) && (i <? Z.of_nat (length servers)) then setM (setServers (<[Z.to_nat i := v]> servers))
  else throw UndefinedBehaviour.

Definition updateContainersModel : SvM unit :=
  m ← getM (λ m, m); emit (containersUpdated (containersAt m (m_processedServerIndex m))).
Definition updateDefaultServerContainersModel : SvM unit :=
  m ← getM (λ m, m); emit (defaultServerContainersUpdated (containersAt m (m_defaultServerIndex m))).

(** The signal with the slots the constructor connects to it. *)
Definition signalDefaultServerIndex (index : Z) : SvM unit :=
  emit (defaultServerIndexChanged index);;
  emit defaultServerNameChanged;;
  m ← getM (λ m, m);
  emit (defaultServerDefaultContainerChanged (defaultContainerOf (serverAt m index)));;
  emit defaultServerNameChanged;;
  updateDefaultServerContainersModel.

(** The constructor; the indices and the list are set by [resetModel]. *)
Definition construct : SvM unit := b ← settings Servers.useAmneziaDns; setM (setDns b).

Definition resetModel : SvM unit :=
  servers ← settings Servers.serversArray;
  setM (setServers servers);;
  i ← settings Servers.defaultServerIndex;
  setM (setDefaultIndex i);;
  setM (setProcessedIndex i);;
  emit EvServersReset;;
  signalDefaultServerIndex i.

Definition setDefaultServerIndex (index : Z) : SvM unit :=
  settings (Servers.setDefaultServer index);;
  i ← settings Servers.defaultServerIndex;
  setM (setDefaultIndex i);;
  signalDefaultServerIndex i.

Definition setProcessedServerIndex (index : Z) : SvM unit :=
  setM (setProcessedIndex index);;
  updateContainersModel;;
  m ← getM (λ m, m);
  when (roleBool (data m index IsServerFromGatewayApiRole))
    (when (roleBool (data m index IsCountrySelectionAvailableRole)) (emit updateApiLanguageModel);;
     emit updateApiServicesModel);;
  i ← getM m_processedServerIndex;
  emit (processedServerIndexChanged i).

(** [setData] with [NameRole]; other roles change nothing. *)
Definition setName (row : Z) (name : string) : SvM bool :=
  m ← getM (λ m, m);
  if negb (validRow m row) then mret false
  else
    let server := serverAt m row in
    let key := if negb (configVersion server =? 0) then "name" else "description" in
    let server := insert_key server key (JString name) in
    settings (Servers.editServer row server);;
    replaceServer row (JObject server);;
    when (row =? m_defaultServerIndex m) (emit defaultServerNameChanged);;
    emit (EvServerChanged row);; mret true.

Definition addServer (server : QJsonObject) : SvM unit :=
  settings (Servers.addServer server);;
  servers ← settings Servers.serversArray;
  setM (setServers servers);;
  emit EvServersReset.

Definition editServer (server : QJsonObject) (serverIndex : Z) : SvM unit :=
  settings (Servers.editServer serverIndex server);;
  servers ← settings Servers.serversArray;
  replaceServer serverIndex (arrayAt servers serverIndex);;
  emit (EvServerChanged serverIndex);;
  d ← getM m_defaultServerIndex;
  when (serverIndex =? d) updateDefaultServerContainersModel;;
  updateContainersModel;;
  m ← getM (λ m, m);
  when (serverIndex =? d)
    (emit (defaultServerDefaultContainerChanged
       (match data m d DefaultContainerRole with ContainerValue c => c | _ => DockerContainer.None end))).

Definition removeServer : SvM unit :=
  p ← getM m_processedServerIndex;
  settings (Servers.removeServer p);;
  servers ← settings Servers.serversArray;
  setM (setServers servers);;
  d ← settings Servers.defaultServerIndex;
  (if d =? p then setDefaultServerIndex 0
   else if p <? d then setDefaultServerIndex (d - 1)
   else mret tt);;
  n ← settings Servers.serversCount;
  when (n =? 0) (setDefaultServerIndex (-1));;
  d' ← getM m_defaultServerIndex;
  setProcessedServerIndex d';;
  emit EvServersReset.

(** The first container of the given kind is replaced. *)
Fixpoint replaceContainer (container : DockerContainer.t) (config : QJsonObject) (l : list QJson) : list QJson :=
  match l with
  | [] => []
  | c :: l => if decide (containerOf c = container) then JObject config :: l else c :: replaceContainer container config l
  end.

Definition reloadDefaultServerContainerConfig : SvM unit :=
  m ← getM (λ m, m);
  let server := serverAt m (m_defaultServerIndex m) in
  let container := defaultContainerOf server in
  config ← settings (Servers.containerConfig (m_defaultServerIndex m) container);
  let containers := replaceContainer container config (toArray (QtJson.value server "containers")) in
  editServer (insert_key server "containers" (JArray containers)) (m_defaultServerIndex m).

Definition updateContainerConfig (container : DockerContainer.t) (config : QJsonObject) : SvM unit :=
  m ← getM (λ m, m);
  let server := serverAt m (m_processedServerIndex m) in
  let containers := replaceContainer container config (toArray (QtJson.value server "containers")) in
  editServer (insert_key server "containers" (JArray containers)) (m_processedServerIndex m).

Definition addContainerConfig (os : Os) (container : DockerContainer.t) (config : QJsonObject) : SvM unit :=
  m ← getM (λ m, m);
  let server := serverAt m (m_processedServerIndex m) in
  let containers := toArray (QtJson.value server "containers") ++ [JObject config] in
  let server := insert_key server "containers" (JArray containers) in
  let server :=
    if bool_decide (defaultContainerOf server = DockerContainer.None) &&
       bool_decide (ContainerProps.containerService container ≠ ServiceType.Other) &&
       ContainerProps.isSupportedByCurrentPlatform os container
    then insert_key server "defaultContainer" (JString (ContainerProps.containerToString container))
    else server in
  editServer server (m_processedServerIndex m).

Definition setDefaultContainer (serverIndex : Z) (container : DockerContainer.t) : SvM unit :=
  m ← getM (λ m, m);
  editServer (insert_key (serverAt m serverIndex) "defaultContainer" (JString (ContainerProps.containerToString container))) serverIndex.

(** The first container of the given name is erased. *)
Fixpoint eraseContainer (name : string) (l : list QJson) : list QJson :=
  match l with
  | [] => []
  | c :: l => if String.eqb (containerName c) name then l else c :: eraseContainer name l
  end.

Section Remote.
  Context {controller : ServerController W}.

(** A command on the server of the given credentials. *)
Definition remote (f : W → Z * W) : SvM Z := λ s,
  let '(code, w) := f (world (world s)) in (Ok code, mkSys (globals s) (mkSys (globals (world s)) w), []).

Definition removeAllContainers : SvM Z :=
  p ← getM m_processedServerIndex;
  credentials ← settings (Servers.serverCredentials p);
  errorCode ← remote (remoteRemoveAllContainers credentials);
  (if errorCode =? NoError then
     m ← getM (λ m, m);
     let s := insert_key (serverAt m p) "containers" JNull in
     let s := insert_key s "defaultContainer" (JString (ContainerProps.containerToString DockerContainer.None)) in
     editServer s p
   else mret tt);;
  mret errorCode.

Definition rebootServer : SvM Z :=
  p ← getM m_processedServerIndex;
  credentials ← settings (Servers.serverCredentials p);
  remote (remoteReboot credentials).

Definition removeContainer (container : DockerContainer.t) : SvM Z :=
  p ← getM m_processedServerIndex;
  credentials ← settings (Servers.serverCredentials p);
  errorCode ← remote (remoteRemoveContainer credentials container);
  (if errorCode =? NoError then
     m ← getM (λ m, m);
     let server := serverAt m p in
     let containers := eraseContainer (ContainerProps.containerToString container) (toArray (QtJson.value server "containers")) in
     let server := insert_key server "containers" (JArray containers) in
     let server :=
       if decide (defaultContainerOf server = container) then
         let next := match containers with [] => DockerContainer.None | c :: _ => containerOf c end in
         insert_key server "defaultContainer" (JString (ContainerProps.containerToString next))
       else server in
     editServer server p
   else mret tt);;
  mret errorCode.

End Remote.

Definition clearCachedProfile (container : DockerContainer.t) : SvM unit :=
  p ← getM m_processedServerIndex;
  settings (Servers.clearLastConnectionConfig p container Proto.Any);;
  s ← settings (Servers.server p);
  replaceServer p (JObject s);;
  d ← getM m_defaultServerIndex;
  when (p =? d) updateDefaultServerContainersModel;;
  updateContainersModel.

(** The resolvers of a server.  The argument is not used: the server is the one whose
    pages are open. *)
Definition getDnsPair (serverIndex : Z) : SvM (string * string) :=
  m ← getM (λ m, m);
  let server := serverAt m (m_processedServerIndex m) in
  let installed := existsb (λ c, bool_decide (containerOf c = DockerContainer.Dns)) (toArray (QtJson.value server "containers")) in
  let dns1 := field server "dns1" in
  let dns2 := field server "dns2" in
  first ← (if String.eqb dns1 "" || negb (checkIPv4Format dns1) then
             if m_isAmneziaDnsEnabled m && installed then mret amneziaDnsIp else settings Servers.primaryDns
           else mret dns1);
  second ← (if String.eqb dns2 "" || negb (checkIPv4Format dns2) then settings Servers.secondaryDns else mret dns2);
  mret (first, second).

Definition toggleAmneziaDns (enabled : bool) : SvM unit := setM (setDns enabled);; emit defaultServerDescriptionChanged.

Section Dates.
  Context {clock : Clock W}.

Definition isApiKeyExpired (serverIndex : Z) : SvM bool :=
  m ← getM (λ m, m);
  let serverConfig := serverAt m serverIndex in
  let api := apiConfig serverConfig in
  let publicKeyInfo := toObject (QtJson.value api "public_key") in
  let endDate := field publicKeyInfo "end_date" in
  w ← gets (λ s, world (world s));
  if String.eqb endDate "" then
    let publicKeyInfo := insert_key publicKeyInfo "end_date" (JString (tomorrow w)) in
    let api := insert_key api "public_key" (JObject publicKeyInfo) in
    editServer (insert_key serverConfig "api_config" (JObject api)) serverIndex;; mret false
  else mret (isPast endDate w).

End Dates.

Definition removeApiConfig (os : Os) (serverIndex : Z) : SvM unit :=
  m ← getM (λ m, m);
  let serverConfig := serverAt m serverIndex in
  when (match os with OsIos => true | _ => false end)
    (emit (removeVPNC (field serverConfig "description" +:+ " (" +:+ field serverConfig "hostName" +:+ ") " +:+ field serverConfig "protocol")));;
  let serverConfig := remove (remove (remove (remove serverConfig "dns1") "dns2") "containers") "hostName" in
  let api := remove (apiConfig serverConfig) "public_key" in
  let serverConfig := insert_key serverConfig "api_config" (JObject api) in
  editServer (insert_key serverConfig "defaultContainer" (JString (ContainerProps.containerToString DockerContainer.None))) serverIndex.

End ServersOps.
End ServersOps.
#[global] Arguments ServersOps.SvM W A : clear implicits.
