(* ===== verification/ServersSpec.v ===== *)
(** * Properties of the list of servers

    The settings keep what is written to them, the models show the settings, and the
    operations on servers and containers do what their names say. *)

From stdpp Require Import prelude strings list gmap pretty.
From Stdlib Require Import ZArith Lia Ascii.
From S2P Require Import Prelude IPAddress QtJson InterfaceConfig LineProtocol SecureSettings SplitTunnel Containers JsonEquiv ServerSettings ServersModel.

Local Open Scope Z_scope.

(** ** Reading and writing settings *)

Section Reading.
  Context {W : Type} {secrets : SecretEnv W} {laws : SecretLaws secrets}.
  Import SecureQSettings.

(** The value the settings have for a key, so that reading it changes nothing. *)
Definition readsAs (key : string) (d v : QVariant) (s : Sys Secure W) : Prop :=
  m_cache (globals s) !! key = Some v ∨
  (m_cache (globals s) !! key = None ∧ stored (globals s) !! key = None ∧ v = d).

Definition canWrite (s : Sys Secure W) : Prop := ∀ key, secretKey key = true → unlocked (world s).

Lemma value_readsAs key d v s : readsAs key d v s → value key d s = (Ok v, s, []).
Proof.
  intros [H|(Hc & Hs & ->)]; [by apply value_cached|]. unfold value, getS. run_m. by rewrite Hc, Hs.
Qed.

Lemma setValue_reads key v s : canWrite s →
  gives (setValue key v) (λ _ s', canWrite s' ∧ (∀ d, readsAs key d v s') ∧
    ∀ key' d' v', key' ≠ key → readsAs key' d' v' s → readsAs key' d' v' s') s.
Proof.
  intros Hw. destruct (secretKey key) eqn:Hk.
  - eapply wp_mono; [by apply setValue_secret|]. intros r s' t (-> & _ & [[_ Hl]|(k & i & _ & _ & Hst & Hc & Hun)]).
    { destruct Hl. by apply (Hw key). }
    exists tt. split; [done|]. destruct (Hun (Hw key Hk)) as (_ & _ & [H1 H2]). split.
    { intros key' Hk'. destruct (Hw key' Hk'). split; congruence. }
    split; [intros d; left; by rewrite Hc, lookup_insert_eq|].
    intros key' d' v' Hne. unfold readsAs. by rewrite Hc, Hst, !lookup_insert_ne.
  - apply gives_run. rewrite setValue_plain by done. eexists tt, _, _. split; [done|]. split; [exact Hw|].
    unfold readsAs. cbn. rewrite lookup_insert_eq. split; [by left|].
    intros key' d' v' Hne. by rewrite !lookup_insert_ne.
Qed.

End Reading.

(** ** The settings *)

Section Settings.
  Context {W : Type} {secrets : SecretEnv W} {laws : SecretLaws secrets} {te : TextEnv} {text : ArrayText} {tlaws : ArrayTextLaws text}.
  Import Servers.

(** The settings can be written, and have the list [l] and the default server [d]. *)
Definition settingsHave (l : list QJson) (d : Z) (s : Sys Secure W) : Prop :=
  canWrite s ∧
  (∃ v, readsAs "Servers/serversList" VInvalid v s ∧ parseArray (variantText v) = l) ∧
  (∃ v, readsAs "Servers/defaultServerIndex" (VInt 0) v s ∧ variantInt v = d).

(** A list after it has been written and read. *)
Definition written (l : list QJson) : list QJson := parseArray (arrayText l).

Lemma solid_written l : solid (JArray (written l)) = true.
Proof. apply array_solid. Qed.

Lemma written_equiv l : solid (JArray l) = true → written l ≡ l.
Proof. apply array_roundtrip. Qed.

Lemma length_written l : solid (JArray l) = true → length (written l) = length l.
Proof. intros Hl. by apply (Forall2_length (≡)), list_equiv_Forall2, written_equiv. Qed.

Lemma settingsHave_solid l d s : settingsHave l d s → solid (JArray l) = true.
Proof. intros (_ & (v & _ & <-) & _). apply array_solid. Qed.

Lemma gives_store {A} (m : SecureQSettings.SM W A) (Q : A → Sys Secure W → Prop) s : gives m Q s → gives (store m) Q s.
Proof.
  intros (a & s' & t & Hm & HQ)%gives_run. apply gives_run. unfold store. rewrite Hm. by eexists _, _, _.
Qed.

Lemma readSetting_run key d v s : readsAs key d v s → readSetting key d s = (Ok v, s, []).
Proof. intros Hr. unfold readSetting, store. by rewrite (value_readsAs key d v). Qed.

Lemma serversArray_run l d s : settingsHave l d s → serversArray s = (Ok l, s, []).
Proof. intros (_ & (v & Hv & <-) & _). unfold serversArray, mbind, M_bind. by rewrite (readSetting_run _ _ v). Qed.

Lemma serversArray_gives l d s (Q : list QJson → Sys Secure W → Prop) : settingsHave l d s → Q l s → gives serversArray Q s.
Proof. intros Hs HQ. apply gives_run. rewrite (serversArray_run l d) by done. by eexists _, _, _. Qed.

Lemma defaultServerIndex_gives l d s (Q : Z → Sys Secure W → Prop) : settingsHave l d s → Q d s → gives defaultServerIndex Q s.
Proof.
  intros (_ & _ & v & Hv & <-) HQ. apply gives_bind, gives_run. rewrite (readSetting_run _ _ v) by done.
  eexists _, _, _. split; [done|]. by apply gives_ret.
Qed.

Lemma setServersArray_gives l l' d s : settingsHave l d s →
  gives (setServersArray l') (λ _ s', settingsHave (written l') d s') s.
Proof.
  intros (Hw & _ & v & Hv & Hd). apply gives_store. eapply gives_mono; [by apply setValue_reads|].
  intros _ s' (Hw' & Hr & Hother). split; [done|]. split; [|exists v; split; [by apply Hother|done]].
  exists (VBytes (arrayText l')). split; [apply Hr|done].
Qed.

Lemma setDefaultServer_gives l d d' s : settingsHave l d s → gives (setDefaultServer d') (λ _ s', settingsHave l d' s') s.
Proof.
  intros (Hw & (v & Hv & Hl) & _). apply gives_store. eapply gives_mono; [by apply setValue_reads|].
  intros _ s' (Hw' & Hr & Hother). split; [done|]. split; [exists v; split; [by apply Hother|done]|].
  exists (VInt d'). split; [apply Hr|done].
Qed.

Lemma arrayAt_lookup l i : 0 <= i → arrayAt l i = default JUndefined (l !! Z.to_nat i).
Proof. intros Hi. unfold arrayAt. destruct (Z.ltb_spec i 0); [lia|done]. Qed.

Lemma arrayAt_out l i : Z.of_nat (length l) <= i → arrayAt l i = JUndefined.
Proof.
  intros Hi. unfold arrayAt. destruct (i <? 0); [done|]. rewrite lookup_ge_None_2 by lia. done.
Qed.

Lemma server_gives l d s i (Q : QJsonObject → Sys Secure W → Prop) :
  settingsHave l d s → Q (toObject (arrayAt l i)) s → gives (server i) Q s.
Proof.
  intros Hs HQ. apply gives_bind. eapply serversArray_gives; [done|]. destruct (Z.leb_spec (Z.of_nat (length l)) i) as [Hi|Hi].
  - apply gives_ret. by rewrite arrayAt_out in HQ.
  - by apply gives_ret.
Qed.

Lemma editServer_gives l d s i o : settingsHave l d s → 0 <= i < Z.of_nat (length l) →
  gives (editServer i o) (λ b s', b = true ∧ settingsHave (written (<[Z.to_nat i := JObject o]> l)) d s') s.
Proof.
  intros Hs Hi. apply gives_bind. eapply serversArray_gives; [done|].
  destruct (Z.leb_spec (Z.of_nat (length l)) i); [lia|]. destruct (Z.ltb_spec i 0); [lia|].
  apply gives_bind. eapply gives_mono; [by apply (setServersArray_gives l _ d)|]. intros [] s' Hs'. by apply gives_ret.
Qed.

Lemma addServer_gives l d s o : settingsHave l d s →
  gives (addServer o) (λ _ s', settingsHave (written (l ++ [JObject o])) d s') s.
Proof. intros Hs. apply gives_bind. eapply serversArray_gives; [done|]. by apply (setServersArray_gives l). Qed.

Lemma removeServer_gives l d s i : settingsHave l d s → 0 <= i < Z.of_nat (length l) →
  gives (removeServer i) (λ _ s', settingsHave (written (delete (Z.to_nat i) l)) d s') s.
Proof.
  intros Hs Hi. apply gives_bind. eapply serversArray_gives; [done|].
  destruct (Z.leb_spec (Z.of_nat (length l)) i); [lia|]. destruct (Z.ltb_spec i 0); [lia|].
  apply gives_bind. eapply gives_mono; [by apply (setServersArray_gives l _ d)|]. intros [] s' Hs'. by apply gives_emit.
Qed.

End Settings.

(** ** Arrays *)

Lemma equiv_length (l l' : list QJson) : l ≡ l' → length l = length l'.
Proof. intros H. by apply (Forall2_length (≡)), list_equiv_Forall2. Qed.

Lemma equiv_insert (l l' : list QJson) i v v' : l ≡ l' → v ≡ v' → <[i := v]> l ≡ <[i := v']> l'.
Proof. intros Hl Hv. apply list_equiv_Forall2. apply Forall2_insert; [by apply list_equiv_Forall2|done]. Qed.

Lemma equiv_arrayAt (l l' : list QJson) i : l ≡ l' → arrayAt l i ≡ arrayAt l' i.
Proof.
  intros Hl. unfold arrayAt. destruct (i <? 0); [done|]. apply list_equiv_Forall2 in Hl.
  destruct (l !! Z.to_nat i) as [v|] eqn:Hi.
  - destruct (Forall2_lookup_l _ _ _ _ _ Hl Hi) as (v' & -> & Hv). done.
  - rewrite (lookup_ge_None_2 l'); [done|]. apply lookup_ge_None in Hi. apply Forall2_length in Hl. lia.
Qed.

Lemma solid_arrayAt l i : solid (JArray l) = true → solid (arrayAt l i) = true ∨ arrayAt l i = JUndefined.
Proof.
  intros Hl. apply solid_array in Hl. unfold arrayAt. destruct (i <? 0); [by right|].
  destruct (l !! Z.to_nat i) as [v|] eqn:Hi; [|by right]. left. rewrite Forall_forall in Hl. apply Hl. by eapply list_elem_of_lookup_2.
Qed.

Lemma solid_list_insert l i v : solid (JArray l) = true → solid v = true → solid (JArray (<[i := v]> l)) = true.
Proof. rewrite !solid_array. intros Hl Hv. by apply Forall_insert. Qed.

Lemma isObject_equiv v v' : v ≡ v' → isObject v = isObject v'.
Proof. by intros []. Qed.

Lemma objects_equiv (l l' : list QJson) : l ≡ l' → Forall (λ v, isObject v = true) l' → Forall (λ v, isObject v = true) l.
Proof.
  rewrite list_equiv_Forall2. intros Hl. induction Hl as [|v v' l l' Hv Hl IH]; intros Ho; [done|]. apply Forall_cons in Ho as [Ho Hos].
  constructor; [by rewrite (isObject_equiv _ _ Hv)|by apply IH].
Qed.

Lemma equiv_by_arrayAt (l l' : list QJson) : length l = length l' → (∀ j, 0 <= j < Z.of_nat (length l) → arrayAt l j ≡ arrayAt l' j) → l ≡ l'.
Proof.
  intros Hlen Hat. apply list_equiv_Forall2, Forall2_same_length_lookup_2; [done|]. intros i v v' Hv Hv'.
  specialize (Hat (Z.of_nat i)). rewrite !arrayAt_lookup, Nat2Z.id, Hv, Hv' in Hat by lia. apply Hat. apply lookup_lt_Some in Hv. lia.
Qed.

(** ** Containers by name *)

Section Containers.

(** The same containers. *)
Definition meq (m m' : gmap DockerContainer.t QJsonObject) : Prop := ∀ c, option_Forall2 oeq (m !! c) (m' !! c).

#[local] Instance meq_equivalence : Equivalence meq.
Proof.
  split.
  - intros m c. reflexivity.
  - intros m m' H c. symmetry. apply H.
  - intros m1 m2 m3 H1 H2 c. etransitivity; [apply H1|apply H2].
Qed.

Lemma meq_insert m m' c o o' : meq m m' → o ≡ₒ o' → meq (<[c := o]> m) (<[c := o']> m').
Proof.
  intros Hm Ho c'. destruct (decide (c = c')) as [<-|Hne]; [rewrite !lookup_insert_eq; by constructor|].
  rewrite !lookup_insert_ne by done. apply Hm.
Qed.

Lemma meq_delete m m' c : meq m m' → meq (delete c m) (delete c m').
Proof.
  intros Hm c'. destruct (decide (c = c')) as [<-|Hne]; [rewrite !lookup_delete_eq; constructor|].
  rewrite !lookup_delete_ne by done. apply Hm.
Qed.

Lemma meq_default m m' c : meq m m' → default [] (m !! c) ≡ₒ default [] (m' !! c).
Proof. intros Hm. pose proof (Hm c) as H. destruct (m !! c), (m' !! c); inversion H; subst; cbn; (done || reflexivity). Qed.

Lemma field_equiv o o' k : o ≡ₒ o' → field o k = field o' k.
Proof. intros Ho. unfold field. by rewrite (toQString_equiv _ _ (Ho k)). Qed.

Lemma containersByName_equiv l l' : l ≡ l' → meq (containersByName l) (containersByName l').
Proof.
  rewrite list_equiv_Forall2. unfold containersByName. assert (meq ∅ ∅) as Hm by reflexivity. revert Hm.
  generalize (∅ : gmap DockerContainer.t QJsonObject) at 1 3 as m. generalize (∅ : gmap DockerContainer.t QJsonObject) as m'.
  intros m' m Hm Hl. revert m m' Hm. induction Hl as [|v v' l l' Hv Hl IH]; intros m m' Hm; [done|]. cbn [foldl]. apply IH.
  rewrite (field_equiv _ _ _ (toObject_equiv _ _ Hv)). apply meq_insert; [done|by apply toObject_equiv].
Qed.

(** Every container stands under its own name. *)
Definition named (m : gmap DockerContainer.t QJsonObject) : Prop :=
  map_Forall (λ c o, ContainerProps.containerFromString (field o "container") = c) m.

Lemma containersByName_snoc l v :
  containersByName (l ++ [v]) = <[ContainerProps.containerFromString (field (toObject v) "container") := toObject v]> (containersByName l).
Proof. unfold containersByName. by rewrite foldl_app. Qed.

Lemma containersByName_named l : named (containersByName l).
Proof.
  induction l as [|v l IH] using rev_ind; [apply map_Forall_empty|]. rewrite containersByName_snoc.
  by apply map_Forall_insert_2.
Qed.

Lemma containersByName_solid l : solid (JArray l) = true → map_Forall (λ _ o, solid (JObject o) = true) (containersByName l).
Proof.
  rewrite solid_array. induction l as [|v l IH] using rev_ind; intros Hl; [apply map_Forall_empty|]. rewrite containersByName_snoc.
  apply Forall_app in Hl as [Hl Hv]. apply map_Forall_insert_2; [|by apply IH]. apply solid_toObject. left. by rewrite Forall_singleton in Hv.
Qed.

Lemma byName_omap m cs c : named m → NoDup cs →
  containersByName (omap (λ c, JObject <$> m !! c) cs) !! c = if decide (c ∈ cs) then m !! c else None.
Proof.
  intros Hm Hnd. induction cs as [|c0 cs IH] using rev_ind.
  - cbn. destruct (decide (c ∈ [])) as [H%elem_of_nil|]; [done|apply lookup_empty].
  - apply NoDup_app in Hnd as (Hnd & Hdis & _). specialize (IH Hnd). rewrite omap_app.
    assert (c0 ∉ cs) as Hc0. { intros Hin. apply (Hdis c0 Hin). by apply list_elem_of_singleton. }
    destruct (decide (c = c0)) as [->|Hne].
    + rewrite (decide_True (P := c0 ∈ cs ++ [c0])) by (apply elem_of_app; right; by apply list_elem_of_singleton).
      cbn [omap list_omap]. destruct (m !! c0) as [o|] eqn:Ho; cbn [fmap option_fmap option_map].
      * rewrite containersByName_snoc. cbn [toObject]. rewrite (Hm c0 o Ho). apply lookup_insert_eq.
      * rewrite app_nil_r, IH. by rewrite decide_False.
    + transitivity (containersByName (omap (λ c, JObject <$> m !! c) cs) !! c).
      { cbn [omap list_omap]. destruct (m !! c0) as [o|] eqn:Ho; cbn [fmap option_fmap option_map]; [|by rewrite app_nil_r].
        rewrite containersByName_snoc. cbn [toObject]. rewrite (Hm c0 o Ho). by apply lookup_insert_ne. }
      rewrite IH. apply decide_ext. rewrite elem_of_app, list_elem_of_singleton. naive_solver.
Qed.

Lemma byName_inOrder m : named m → containersByName (inOrder m) = m.
Proof.
  intros Hm. apply map_eq. intros c. unfold inOrder. rewrite byName_omap by (done || (apply (bool_decide_unpack _); vm_compute; exact I)).
  rewrite decide_True; [done|]. eapply list_elem_of_lookup_2, DockerContainer.all_index.
Qed.

Lemma solid_inOrder m : map_Forall (λ _ o, solid (JObject o) = true) m → solid (JArray (inOrder m)) = true.
Proof.
  intros Hm. apply solid_array, Forall_forall. intros v Hv. unfold inOrder in Hv. apply list_elem_of_omap in Hv as (c & _ & Hv).
  destruct (m !! c) as [o|] eqn:Ho; [|done]. injection Hv as <-. by apply (Hm c).
Qed.

End Containers.

Section ContainerSettings.
  Context {W : Type} {secrets : SecretEnv W} {laws : SecretLaws secrets} {te : TextEnv} {text : ArrayText} {tlaws : ArrayTextLaws text}.
  Import Servers.

Definition serverIn (l : list QJson) (i : Z) : QJsonObject := toObject (arrayAt l i).
Definition containersIn (l : list QJson) (i : Z) : gmap DockerContainer.t QJsonObject :=
  containersByName (toArray (QtJson.value (serverIn l i) "containers")).

(** Only the containers of the server [i] differ. *)
Definition changedAt (l l' : list QJson) (i : Z) : Prop :=
  length l' = length l ∧ (∀ j, j ≠ i → arrayAt l' j ≡ arrayAt l j) ∧
  (∀ k, k ≠ "containers" → QtJson.value (serverIn l' i) k ≡ QtJson.value (serverIn l i) k) ∧
  ∀ j, isObject (arrayAt l j) = true → isObject (arrayAt l' j) = true.

Lemma changedAt_refl l i : changedAt l l i.
Proof. done. Qed.

Lemma changedAt_trans l1 l2 l3 i : changedAt l1 l2 i → changedAt l2 l3 i → changedAt l1 l3 i.
Proof.
  intros (H1 & H2 & H3 & H4) (H1' & H2' & H3' & H4'). split; [congruence|]. split; [|split].
  - intros j Hj. by rewrite H2', H2.
  - intros k Hk. by rewrite H3', H3.
  - intros j Hj. by apply H4', H4.
Qed.

Lemma arrayAt_insert l i v j : 0 <= i < Z.of_nat (length l) → arrayAt (<[Z.to_nat i := v]> l) j = if decide (j = i) then v else arrayAt l j.
Proof.
  intros Hi. unfold arrayAt. destruct (Z.ltb_spec j 0); [by rewrite decide_False by lia|].
  destruct (decide (j = i)) as [->|Hne]; [by rewrite list_lookup_insert_eq by lia|by rewrite list_lookup_insert_ne by lia].
Qed.

Lemma solid_serverIn l i : solid (JArray l) = true → solid (JObject (serverIn l i)) = true.
Proof. intros Hl. by apply solid_toObject, solid_arrayAt. Qed.

Lemma containersIn_solid l i : solid (JArray l) = true → map_Forall (λ _ o, solid (JObject o) = true) (containersIn l i).
Proof.
  intros Hl. apply containersByName_solid. apply solid_array, solid_toArray.
  destruct (solid_value (serverIn l i) "containers" (solid_serverIn l i Hl)); [by right|by left].
Qed.

Lemma containersIn_equiv l l' i : arrayAt l i ≡ arrayAt l' i → meq (containersIn l i) (containersIn l' i).
Proof. intros Ha. apply containersByName_equiv, toArray_equiv, toObject_equiv, Ha. Qed.

Lemma setContainers_gives l d s i cs : settingsHave l d s → 0 <= i < Z.of_nat (length l) →
  named cs → map_Forall (λ _ o, solid (JObject o) = true) cs →
  gives (setContainers i cs) (λ _ s', ∃ l', settingsHave l' d s' ∧ changedAt l l' i ∧ meq (containersIn l' i) cs) s.
Proof.
  intros Hs Hi Hn Hcs. pose proof (settingsHave_solid _ _ _ Hs) as Hl. apply gives_bind, (server_gives l d); [done|]. fold (serverIn l i).
  set (o := insert_key (serverIn l i) "containers" (JArray (inOrder cs))).
  assert (solid (JObject o) = true) as Ho by (apply solid_insert; [by apply solid_serverIn|by apply solid_inOrder]).
  apply gives_bind. eapply gives_mono; [by apply (editServer_gives l)|]. intros b s' [_ Hs']. apply gives_ret.
  eexists. split; [exact Hs'|].
  assert (written (<[Z.to_nat i := JObject o]> l) ≡ <[Z.to_nat i := JObject o]> l) as Hw by (by apply written_equiv, solid_list_insert).
  assert (arrayAt (written (<[Z.to_nat i := JObject o]> l)) i ≡ JObject o) as Hat.
  { rewrite (equiv_arrayAt _ _ i Hw), arrayAt_insert by done. by rewrite decide_True. }
  split; [split; [|split; [|split]]|].
  - by rewrite (equiv_length _ _ Hw), length_insert.
  - intros j Hj. rewrite (equiv_arrayAt _ _ j Hw), arrayAt_insert by done. by rewrite decide_False.
  - intros k Hk. rewrite (toObject_equiv _ _ Hat k). cbn [toObject]. unfold o. rewrite value_insert. by destruct (String.eqb_spec "containers" k).
  - intros j Hj. rewrite (isObject_equiv _ _ (equiv_arrayAt _ _ j Hw)), arrayAt_insert by done. by destruct (decide (j = i)).
  - rewrite <- (byName_inOrder cs Hn). apply containersByName_equiv. rewrite (toObject_equiv _ _ Hat "containers"). cbn [toObject]. unfold o.
    by rewrite value_insert.
Qed.

Lemma containers_gives l d s i (Q : gmap DockerContainer.t QJsonObject → Sys Secure W → Prop) :
  settingsHave l d s → Q (containersIn l i) s → gives (containers i) Q s.
Proof. intros Hs HQ. apply gives_bind, (server_gives l d); [done|]. by apply gives_ret. Qed.

Lemma containerConfig_gives l d s i c (Q : QJsonObject → Sys Secure W → Prop) : settingsHave l d s → c ≠ DockerContainer.None →
  Q (default [] (containersIn l i !! c)) s → gives (containerConfig i c) Q s.
Proof.
  intros Hs Hc HQ. unfold containerConfig. rewrite decide_False by done. apply gives_bind, (containers_gives l d); [done|].
  by apply gives_ret.
Qed.

(** A container with the name of its kind. *)
Definition withName (c : DockerContainer.t) (config : QJsonObject) : QJsonObject :=
  insert_key config "container" (JString (ContainerProps.containerToString c)).

Lemma field_withName c config : field (withName c config) "container" = ContainerProps.containerToString c.
Proof. unfold field, withName. by rewrite value_insert. Qed.

Lemma setContainerConfig_gives l d s i c config : settingsHave l d s → 0 <= i < Z.of_nat (length l) →
  c ≠ DockerContainer.None → solid (JObject config) = true →
  gives (setContainerConfig i c config) (λ _ s', ∃ l', settingsHave l' d s' ∧ changedAt l l' i ∧
    meq (containersIn l' i) (<[c := withName c config]> (containersIn l i))) s.
Proof.
  intros Hs Hi Hc Hconf. pose proof (settingsHave_solid _ _ _ Hs) as Hl. unfold setContainerConfig. rewrite decide_False by done.
  apply gives_bind, (containers_gives l d); [done|]. apply setContainers_gives; [done|done| |].
  - apply map_Forall_insert_2; [by rewrite field_withName, container_name|apply containersByName_named].
  - apply map_Forall_insert_2; [by apply solid_insert|by apply containersIn_solid].
Qed.

Lemma removeContainerConfig_gives l d s i c : settingsHave l d s → 0 <= i < Z.of_nat (length l) → c ≠ DockerContainer.None →
  gives (removeContainerConfig i c) (λ _ s', ∃ l', settingsHave l' d s' ∧ changedAt l l' i ∧
    meq (containersIn l' i) (delete c (containersIn l i))) s.
Proof.
  intros Hs Hi Hc. pose proof (settingsHave_solid _ _ _ Hs) as Hl. unfold removeContainerConfig. rewrite decide_False by done.
  apply gives_bind, (containers_gives l d); [done|]. apply setContainers_gives; [done|done| |].
  - apply map_Forall_delete, containersByName_named.
  - by apply map_Forall_delete, containersIn_solid.
Qed.

(** What clearing the profile of one protocol leaves of a container. *)
Definition clearedConfig (c : DockerContainer.t) (p : Proto.t) (o : QJsonObject) : QJsonObject :=
  let name := ProtocolProps.protoToString p in
  withName c (insert_key o name (JObject (remove (toObject (QtJson.value o name)) "last_config"))).

Lemma clearProtocol_gives l d s i c p : settingsHave l d s → 0 <= i < Z.of_nat (length l) → c ≠ DockerContainer.None →
  gives (clearProtocol i c p) (λ _ s', ∃ l', settingsHave l' d s' ∧ changedAt l l' i ∧
    meq (containersIn l' i) (<[c := clearedConfig c p (default [] (containersIn l i !! c))]> (containersIn l i))) s.
Proof.
  intros Hs Hi Hc. pose proof (settingsHave_solid _ _ _ Hs) as Hl. apply gives_bind, gives_bind, (containerConfig_gives l d); [done..|].
  apply gives_ret, gives_bind, (containerConfig_gives l d); [done..|]. apply setContainerConfig_gives; [done..|].
  set (o := default [] (containersIn l i !! c)). assert (solid (JObject o) = true) as Ho.
  { unfold o. destruct (containersIn l i !! c) as [o'|] eqn:Hlook; [|done]. by apply (containersIn_solid l i Hl c). }
  apply solid_insert; [done|]. apply solid_remove, solid_toObject.
  destruct (solid_value o (ProtocolProps.protoToString p) Ho); [by right|by left].
Qed.

Lemma clearedConfig_equiv c p o o' : o ≡ₒ o' → clearedConfig c p o ≡ₒ clearedConfig c p o'.
Proof.
  intros Ho. unfold clearedConfig, withName. apply insert_key_equiv; [|done]. apply insert_key_equiv; [done|].
  apply JObject_equiv, remove_equiv, toObject_equiv, Ho.
Qed.

Lemma clearedConfigs_equiv c ps o o' : o ≡ₒ o' →
  foldl (λ o p, clearedConfig c p o) o ps ≡ₒ foldl (λ o p, clearedConfig c p o) o' ps.
Proof. revert o o'. induction ps as [|p ps IH]; intros o o' Ho; [done|]. cbn [foldl]. by apply IH, clearedConfig_equiv. Qed.

Lemma clear_loop i c ps : c ≠ DockerContainer.None → ∀ l d s, settingsHave l d s → 0 <= i < Z.of_nat (length l) →
  gives (for_each ps (λ p, clearProtocol i c p)) (λ _ s', ∃ l', settingsHave l' d s' ∧ changedAt l l' i ∧
    (∀ c', c' ≠ c → option_Forall2 oeq (containersIn l' i !! c') (containersIn l i !! c')) ∧
    default [] (containersIn l' i !! c) ≡ₒ foldl (λ o p, clearedConfig c p o) (default [] (containersIn l i !! c)) ps) s.
Proof.
  intros Hc. induction ps as [|p ps IH]; intros l d s Hs Hi; cbn [for_each foldl].
  - apply gives_ret. exists l. split; [done|]. split; [apply changedAt_refl|]. split; [intros c' _; reflexivity|reflexivity].
  - apply gives_bind. eapply gives_mono; [by apply (clearProtocol_gives l d)|]. intros [] s1 (l1 & Hs1 & Hch1 & Hm1).
    eapply gives_mono; [apply (IH l1 d s1 Hs1); by rewrite (proj1 Hch1)|]. intros [] s2 (l2 & Hs2 & Hch2 & Hoth & Hconf).
    exists l2. split; [done|]. split; [by eapply changedAt_trans|]. split.
    + intros c' Hc'. etransitivity; [by apply Hoth|]. specialize (Hm1 c'). by rewrite lookup_insert_ne in Hm1.
    + rewrite Hconf. assert (default [] (containersIn l1 i !! c) ≡ₒ clearedConfig c p (default [] (containersIn l i !! c))) as H1.
      { rewrite (meq_default _ _ c Hm1), lookup_insert_eq. reflexivity. }
      by apply clearedConfigs_equiv.
Qed.

Lemma proto_not_container p : ProtocolProps.protoToString p ≠ "container".
Proof. by destruct p. Qed.

(** The configuration of one protocol afterwards. *)
Lemma clearedConfigs_proto c ps o p :
  toObject (QtJson.value (foldl (λ o p, clearedConfig c p o) o ps) (ProtocolProps.protoToString p)) ≡ₒ
    if decide (p ∈ ps) then remove (toObject (QtJson.value o (ProtocolProps.protoToString p))) "last_config"
    else toObject (QtJson.value o (ProtocolProps.protoToString p)).
Proof.
  revert o. induction ps as [|p0 ps IH]; intros o; cbn [foldl].
  { by destruct (decide (p ∈ [])) as [H%elem_of_nil|]. }
  rewrite IH. set (name := ProtocolProps.protoToString p).
  assert (toObject (QtJson.value (clearedConfig c p0 o) name) =
    if decide (p = p0) then remove (toObject (QtJson.value o name)) "last_config" else toObject (QtJson.value o name)) as ->.
  { unfold clearedConfig, withName. rewrite !value_insert. destruct (String.eqb_spec "container" name) as [H|_]; [by destruct (proto_not_container p)|].
    destruct (String.eqb_spec (ProtocolProps.protoToString p0) name) as [Heq|Hne].
    - apply proto_name_inj in Heq. subst p0. by rewrite decide_True.
    - rewrite decide_False; [done|]. by intros ->. }
  destruct (decide (p = p0)) as [->|Hne].
  - rewrite (decide_True (P := p0 ∈ p0 :: ps)) by left. destruct (decide (p0 ∈ ps)); [|reflexivity].
    apply remove_absent, value_remove_same.
  - destruct (decide (p ∈ ps)) as [Hin|Hnin]; [by rewrite decide_True by (by right)|].
    rewrite decide_False; [reflexivity|]. by intros [?|?]%elem_of_cons.
Qed.

End ContainerSettings.

(** ** The model *)

Section Model.
  Context {W : Type} {secrets : SecretEnv W} {laws : SecretLaws secrets} {env : QtEnv} {te : TextEnv}
    {text : ArrayText} {tlaws : ArrayTextLaws text}.
  Import ServersData ServersOps.

Local Abbreviation State := (Sys ServersModel (Sys Secure W)).

(** The model shows the settings: the same servers and the same default server. *)
Definition mirrors (s : State) : Prop :=
  ∃ l, settingsHave l (m_defaultServerIndex (globals s)) (world s) ∧ m_servers (globals s) ≡ l ∧
    solid (JArray (m_servers (globals s))) = true ∧ Forall (λ v, isObject v = true) (m_servers (globals s)).

(** An operation that leaves the default and the processed server as they are. *)
Definition sameIndices (s s' : State) : Prop :=
  m_defaultServerIndex (globals s') = m_defaultServerIndex (globals s) ∧
  m_processedServerIndex (globals s') = m_processedServerIndex (globals s) ∧
  m_isAmneziaDnsEnabled (globals s') = m_isAmneziaDnsEnabled (globals s).

Lemma gives_settings {A} (m : Servers.SetM W A) (Q : A → State → Prop) s :
  gives m (λ a w, Q a (mkSys (globals s) w)) (world s) → gives (settings m) Q s.
Proof.
  intros (a & s' & t & Hm & HQ)%gives_run. apply gives_run. unfold settings. rewrite Hm. by eexists _, _, _.
Qed.

Lemma gives_getM {A} (f : ServersModel → A) (Q : A → State → Prop) s : Q (f (globals s)) s → gives (getM f) Q s.
Proof. intros HQ. exact (gives_gets _ _ _ HQ). Qed.

Lemma gives_setM f (Q : unit → State → Prop) s : Q tt (mkSys (f (globals s)) (world s)) → gives (setM f) Q s.
Proof. intros HQ. exact (gives_modify _ _ _ HQ). Qed.

Lemma solid_serverAt s i : mirrors s → solid (JObject (serverAt (globals s) i)) = true.
Proof. intros (l & _ & _ & Hsol & _). apply solid_toObject. by apply solid_arrayAt. Qed.

Lemma updateContainersModel_gives (Q : unit → State → Prop) s : Q tt s → gives updateContainersModel Q s.
Proof. intros HQ. apply gives_bind, gives_getM. by apply gives_emit. Qed.
Lemma updateDefaultServerContainersModel_gives (Q : unit → State → Prop) s : Q tt s → gives updateDefaultServerContainersModel Q s.
Proof. intros HQ. apply gives_bind, gives_getM. by apply gives_emit. Qed.

Lemma signalDefaultServerIndex_gives i (Q : unit → State → Prop) s : Q tt s → gives (signalDefaultServerIndex i) Q s.
Proof.
  intros HQ. apply gives_bind, gives_emit, gives_bind, gives_emit, gives_bind, gives_getM, gives_bind, gives_emit, gives_bind, gives_emit.
  by apply updateDefaultServerContainersModel_gives.
Qed.

Lemma replaceServer_gives i v (Q : unit → State → Prop) s : 0 <= i < Z.of_nat (length (m_servers (globals s))) →
  Q tt (mkSys (setServers (<[Z.to_nat i := v]> (m_servers (globals s))) (globals s)) (world s)) → gives (replaceServer i v) Q s.
Proof.
  intros Hi HQ. apply gives_bind, gives_getM. destruct (Z.leb_spec 0 i); [|lia]. destruct (Z.ltb_spec i (Z.of_nat (length (m_servers (globals s))))); [|lia].
  by apply gives_setM.
Qed.

(** The heart of every change of one server. *)
Lemma editServer_mirrors o i s : mirrors s → solid (JObject o) = true → 0 <= i < Z.of_nat (length (m_servers (globals s))) →
  gives (editServer o i) (λ _ s', mirrors s' ∧ sameIndices s s' ∧
    m_servers (globals s') ≡ <[Z.to_nat i := JObject o]> (m_servers (globals s))) s.
Proof.
  intros (l & Hs & Heq & Hsol & Hobj) Ho Hi. pose proof (equiv_length _ _ Heq) as Hlen. pose proof (settingsHave_solid _ _ _ Hs) as Hl.
  assert (written (<[Z.to_nat i := JObject o]> l) ≡ <[Z.to_nat i := JObject o]> (m_servers (globals s))) as Hwr.
  { etransitivity; [apply written_equiv; by apply solid_list_insert|]. apply equiv_insert; [by symmetry|done]. }
  set (l' := written _) in *. assert (length l' = length l) as Hlen' by (apply equiv_length in Hwr; rewrite length_insert in Hwr; lia).
  apply gives_bind, gives_settings. eapply gives_mono; [apply (editServer_gives l); [exact Hs|lia]|]. intros b w (_ & Hw). cbn beta.
  apply gives_bind, gives_settings, (serversArray_gives l' _ _ _ Hw). cbn beta.
  apply gives_bind, replaceServer_gives; [done|]. cbn [globals world setServers m_servers].
  destruct (lookup_lt_is_Some_2 l' (Z.to_nat i)) as [v Hv]; [lia|]. rewrite arrayAt_lookup, Hv by lia. change (default JUndefined (Some v)) with v.
  apply gives_bind, gives_emit, gives_bind, gives_getM. set (s' := mkSys _ w).
  assert (mirrors s' ∧ sameIndices s s' ∧ m_servers (globals s') ≡ <[Z.to_nat i := JObject o]> (m_servers (globals s))) as Hend.
  { assert (v ≡ JObject o) as Hvo.
    { apply list_equiv_Forall2 in Hwr. destruct (Forall2_lookup_l _ _ _ _ _ Hwr Hv) as (u & Hu & Hvu).
      rewrite list_lookup_insert_eq in Hu by lia. by injection Hu as ->. }
    assert (m_servers (globals s') ≡ <[Z.to_nat i := JObject o]> (m_servers (globals s))) as Hsv by (by apply equiv_insert).
    split; [|done]. exists l'. split; [exact Hw|]. split; [by rewrite Hsv, Hwr|].
    split; [|apply Forall_insert; [done|cbn beta; by rewrite (isObject_equiv _ _ Hvo)]]. apply solid_list_insert; [done|].
    pose proof (solid_written (<[Z.to_nat i := JObject o]> l)) as Hl'. apply solid_array in Hl'. rewrite Forall_forall in Hl'.
    apply Hl'. by eapply list_elem_of_lookup_2. }
  apply gives_bind, gives_when; intros _; [apply updateDefaultServerContainersModel_gives|];
    (apply gives_bind, updateContainersModel_gives, gives_bind, gives_getM, gives_when; intros _; [by apply gives_emit|done]).
Qed.

Lemma setDefaultServerIndex_gives l d i s : settingsHave l d (world s) →
  gives (setDefaultServerIndex i) (λ _ s', settingsHave l i (world s') ∧ globals s' = setDefaultIndex i (globals s)) s.
Proof.
  intros Hs. apply gives_bind, gives_settings. eapply gives_mono; [by apply (setDefaultServer_gives l d i)|]. intros [] w Hw. cbn beta.
  apply gives_bind, gives_settings, (defaultServerIndex_gives l i _ _ Hw), gives_bind, gives_setM.
  by apply signalDefaultServerIndex_gives.
Qed.

Lemma setProcessedServerIndex_gives i (s : State) :
  gives (setProcessedServerIndex i) (λ _ s', s' = mkSys (setProcessedIndex i (globals s)) (world s)) s.
Proof.
  apply gives_bind, gives_setM, gives_bind, updateContainersModel_gives, gives_bind, gives_getM, gives_bind, gives_when; intros _;
    [apply gives_bind, gives_when; intros _; [apply gives_emit|]; apply gives_emit|];
    (apply gives_bind, gives_getM; by apply gives_emit).
Qed.

Lemma equiv_delete (l l' : list QJson) i : l ≡ l' → delete i l ≡ delete i l'.
Proof. intros Hl. apply list_equiv_Forall2. apply Forall2_delete. by apply list_equiv_Forall2. Qed.

Lemma solid_delete l i : solid (JArray l) = true → solid (JArray (delete i l)) = true.
Proof. rewrite !solid_array. intros Hl. by apply Forall_delete. Qed.

(** The default server after the server [p] of [n] is removed. *)
Definition defaultAfterRemoval (n p d : Z) : Z :=
  if n =? 1 then -1 else if d =? p then 0 else if p <? d then d - 1 else d.

Lemma removeServer_mirrors (s : State) :
  let m := globals s in let n := Z.of_nat (length (m_servers m)) in let p := m_processedServerIndex m in
  mirrors s → 0 <= p < n →
  gives removeServer (λ _ s', mirrors s' ∧ m_servers (globals s') ≡ delete (Z.to_nat p) (m_servers m) ∧
    m_defaultServerIndex (globals s') = defaultAfterRemoval n p (m_defaultServerIndex m) ∧
    m_processedServerIndex (globals s') = m_defaultServerIndex (globals s') ∧
    m_isAmneziaDnsEnabled (globals s') = m_isAmneziaDnsEnabled m) s.
Proof.
  intros m n p (l & Hs & Heq & Hsol & Hobj) Hp. pose proof (equiv_length _ _ Heq) as Hlen. fold m in Hs, Heq, Hsol, Hobj, Hlen. set (d := m_defaultServerIndex m) in *.
  pose proof (settingsHave_solid _ _ _ Hs) as Hl. set (l' := written (delete (Z.to_nat p) l)).
  assert (l' ≡ delete (Z.to_nat p) (m_servers m)) as Hl'.
  { etransitivity; [by apply written_equiv, solid_delete|]. apply equiv_delete. by symmetry. }
  assert (Z.of_nat (length l') = n - 1) as Hn'.
  { rewrite (equiv_length _ _ Hl'). pose proof (length_delete (m_servers m) (Z.to_nat p)) as Hd.
    rewrite Hd by (apply lookup_lt_is_Some; lia). lia. }
  apply gives_bind, gives_getM, gives_bind, gives_settings. eapply gives_mono; [apply (removeServer_gives l d _ p); [exact Hs|unfold n in Hp; lia]|].
  intros [] w Hw. cbn beta. fold l' in Hw.
  apply gives_bind, gives_settings, (serversArray_gives l' d _ _ Hw), gives_bind, gives_setM.
  apply gives_bind, gives_settings, (defaultServerIndex_gives l' d _ _ Hw), gives_bind. cbn [globals world]. fold m p.
  set (d1 := if d =? p then 0 else if p <? d then d - 1 else d). set (s1 := mkSys (setServers l' m) w).
  eapply (gives_mono _ (λ _ s2, settingsHave l' d1 (world s2) ∧ globals s2 = setDefaultIndex d1 (setServers l' m))).
  { unfold d1. destruct (d =? p); [by apply (setDefaultServerIndex_gives l' d)|]. destruct (p <? d); [by apply (setDefaultServerIndex_gives l' d)|].
    apply gives_ret. split; [exact Hw|]. done. }
  intros [] s2 [Hw2 Hg2]. apply gives_bind, gives_settings, gives_bind, (serversArray_gives l' d1 _ _ Hw2), gives_ret.
  set (d2 := defaultAfterRemoval n p d). apply gives_bind.
  eapply (gives_mono _ (λ _ s3, settingsHave l' d2 (world s3) ∧ globals s3 = setDefaultIndex d2 (setServers l' m))).
  { unfold d2, defaultAfterRemoval. fold d1. replace (Z.of_nat (length l') =? 0) with (n =? 1) by (destruct (Z.eqb_spec n 1), (Z.eqb_spec (Z.of_nat (length l')) 0); lia).
    destruct (n =? 1); cbn [when].
    - eapply gives_mono; [by apply (setDefaultServerIndex_gives l' d1)|]. intros [] s3 [Hw3 Hg3]. split; [done|]. by rewrite Hg3; cbn [globals]; rewrite Hg2.
    - apply gives_ret. split; [done|]. exact Hg2. }
  intros [] s3 [Hw3 Hg3]. apply gives_bind, gives_getM, gives_bind. eapply gives_mono; [apply setProcessedServerIndex_gives|].
  intros [] s4 ->. apply gives_emit. rewrite Hg3. cbn. split; [|done]. exists l'. split; [exact Hw3|]. split; [done|]. split; [apply solid_written|].
  apply (objects_equiv _ _ Hl'). by apply Forall_delete.
Qed.

Lemma addServer_mirrors o s : mirrors s → solid (JObject o) = true →
  gives (addServer o) (λ _ s', mirrors s' ∧ sameIndices s s' ∧ m_servers (globals s') ≡ m_servers (globals s) ++ [JObject o]) s.
Proof.
  intros (l & Hs & Heq & Hsol & Hobj) Ho. pose proof (settingsHave_solid _ _ _ Hs) as Hl. set (l' := written (l ++ [JObject o])).
  assert (l' ≡ m_servers (globals s) ++ [JObject o]) as Hl'.
  { etransitivity; [apply written_equiv|by rewrite Heq]. rewrite solid_array in Hl |- *. apply Forall_app. split; [done|]. by constructor. }
  apply gives_bind, gives_settings. eapply gives_mono; [by apply (addServer_gives l)|]. intros [] w Hw. cbn beta. fold l' in Hw.
  apply gives_bind, gives_settings, (serversArray_gives l' _ _ _ Hw), gives_bind, gives_setM, gives_emit.
  split; [|done]. exists l'. split; [exact Hw|]. split; [done|]. split; [apply solid_written|].
  apply (objects_equiv _ _ Hl'), Forall_app. split; [done|]. by constructor.
Qed.

(** The settings fill the model. *)
Lemma resetModel_mirrors l d (s : State) : settingsHave l d (world s) → Forall (λ v, isObject v = true) l →
  gives resetModel (λ _ s', mirrors s' ∧ m_servers (globals s') = l ∧ m_defaultServerIndex (globals s') = d ∧
    m_processedServerIndex (globals s') = d) s.
Proof.
  intros Hs Hobj. apply gives_bind, gives_settings, (serversArray_gives l d _ _ Hs), gives_bind, gives_setM.
  apply gives_bind, gives_settings, (defaultServerIndex_gives l d _ _ Hs), gives_bind, gives_setM, gives_bind, gives_setM, gives_bind, gives_emit.
  apply signalDefaultServerIndex_gives. split; [|done]. exists l. split; [exact Hs|]. split; [done|]. split; [|done].
  by eapply settingsHave_solid.
Qed.

Lemma setName_mirrors row name s : mirrors s → gives (setName row name) (λ b s', mirrors s' ∧ sameIndices s s' ∧
  b = validRow (globals s) row ∧ length (m_servers (globals s')) = length (m_servers (globals s))) s.
Proof.
  intros Hm. pose proof (solid_serverAt s row Hm) as Hsol. destruct Hm as (l & Hs & Heq & Hsoll & Hobj).
  apply gives_bind, gives_getM. destruct (validRow (globals s) row) eqn:Hrow; cbn [negb]; last first.
  { apply gives_ret. split; [|done]. by exists l. }
  unfold validRow in Hrow. assert (0 <= row < Z.of_nat (length (m_servers (globals s)))) as Hi by lia. cbv zeta.
  set (o := insert_key _ _ _). assert (solid (JObject o) = true) as Ho by (by apply solid_insert).
  pose proof (settingsHave_solid _ _ _ Hs) as Hl.
  assert (written (<[Z.to_nat row := JObject o]> l) ≡ <[Z.to_nat row := JObject o]> (m_servers (globals s))) as Hwr.
  { etransitivity; [apply written_equiv; by apply solid_list_insert|]. apply equiv_insert; [by symmetry|done]. }
  apply gives_bind, gives_settings. eapply gives_mono; [apply (editServer_gives l); [exact Hs|by rewrite <- (equiv_length _ _ Heq)]|].
  intros b w (_ & Hw). cbn beta. apply gives_bind, replaceServer_gives; [done|]. set (s' := mkSys _ _).
  assert (mirrors s' ∧ sameIndices s s' ∧ true = true ∧ length (m_servers (globals s')) = length (m_servers (globals s))) as Hend.
  { split; [|split; [done|split; [done|by cbn; rewrite length_insert]]]. eexists. split; [exact Hw|]. split; [by symmetry|].
    split; [by apply solid_list_insert|by apply Forall_insert]. }
  apply gives_bind, gives_when; intros _; [apply gives_emit|]; apply gives_bind, gives_emit; by apply gives_ret.
Qed.

Lemma clearCachedProfile_mirrors c s : mirrors s → 0 <= m_processedServerIndex (globals s) < Z.of_nat (length (m_servers (globals s))) →
  c ≠ DockerContainer.None → gives (clearCachedProfile c) (λ _ s', mirrors s' ∧ sameIndices s s' ∧
    length (m_servers (globals s')) = length (m_servers (globals s))) s.
Proof.
  intros (l & Hs & Heq & Hsol & Hobj) Hp Hc. set (p := m_processedServerIndex (globals s)) in *. pose proof (equiv_length _ _ Heq) as Hlen.
  apply gives_bind, gives_getM, gives_bind, gives_settings. fold p. unfold Servers.clearLastConnectionConfig. rewrite decide_True by done.
  eapply gives_mono; [apply (clear_loop p c _ Hc l _ _ Hs); lia|]. intros [] w (l' & Hw & Hch & _). cbn beta. destruct Hch as (Hlen' & Hother & _ & Hob).
  apply gives_bind, gives_settings, (server_gives l' _ _ _ _ Hw), gives_bind, replaceServer_gives; [done|]. fold (serverIn l' p). set (s' := mkSys _ _).
  assert (isObject (arrayAt l' p) = true) as Hop.
  { apply Hob. rewrite <- (isObject_equiv _ _ (equiv_arrayAt _ _ p Heq)). rewrite arrayAt_lookup by lia.
    destruct (lookup_lt_is_Some_2 (m_servers (globals s)) (Z.to_nat p)) as [v Hv]; [lia|]. rewrite Hv. by apply (Forall_lookup_1 _ _ _ _ Hobj Hv). }
  assert (JObject (serverIn l' p) = arrayAt l' p) as Hob' by (unfold serverIn; by destruct (arrayAt l' p)).
  assert (mirrors s' ∧ sameIndices s s' ∧ length (m_servers (globals s')) = length (m_servers (globals s))) as Hend.
  { split; [|split; [done|by cbn; rewrite length_insert]]. exists l'. split; [exact Hw|]. split; [|split].
    - apply equiv_by_arrayAt; cbn; rewrite length_insert; [lia|]. intros j Hj. rewrite arrayAt_insert, Hob' by done.
      destruct (decide (j = p)) as [->|Hne]; [done|]. rewrite (equiv_arrayAt _ _ j Heq). symmetry. by apply Hother.
    - apply solid_list_insert; [done|]. apply solid_serverIn. by eapply settingsHave_solid.
    - by apply Forall_insert. }
  apply gives_bind, gives_getM, gives_bind, gives_when; intros _; [apply updateDefaultServerContainersModel_gives|]; by apply updateContainersModel_gives.
Qed.

(** *** Every operation *)

(** The servers and the indices are as many and the same. *)
Definition kept (s s' : State) : Prop :=
  mirrors s' ∧ sameIndices s s' ∧ length (m_servers (globals s')) = length (m_servers (globals s)).

Lemma kept_refl s : mirrors s → kept s s.
Proof. done. Qed.

Lemma editServer_kept o i s : mirrors s → solid (JObject o) = true → 0 <= i < Z.of_nat (length (m_servers (globals s))) →
  gives (editServer o i) (λ _ s', kept s s') s.
Proof.
  intros Hm Ho Hi. eapply gives_mono; [by apply editServer_mirrors|]. intros [] s' (Hm' & Hsame & Heq).
  split; [done|]. split; [done|]. by rewrite (equiv_length _ _ Heq), length_insert.
Qed.

Lemma solid_value_array o k : solid (JObject o) = true → Forall (λ v, solid v = true) (toArray (QtJson.value o k)).
Proof. intros Ho. apply solid_toArray. destruct (solid_value o k Ho); [by right|by left]. Qed.

Lemma solid_value_object o k : solid (JObject o) = true → solid (JObject (toObject (QtJson.value o k))) = true.
Proof. intros Ho. apply solid_toObject. destruct (solid_value o k Ho); [by right|by left]. Qed.

Lemma solid_replaceContainer c config l : solid (JObject config) = true → Forall (λ v, solid v = true) l →
  Forall (λ v, solid v = true) (replaceContainer c config l).
Proof.
  intros Hc Hl. induction Hl as [|v l Hv Hl IH]; [constructor|]. cbn [replaceContainer]. destruct (decide _); by constructor.
Qed.

Lemma solid_eraseContainer name l : Forall (λ v, solid v = true) l → Forall (λ v, solid v = true) (eraseContainer name l).
Proof.
  intros Hl. induction Hl as [|v l Hv Hl IH]; [constructor|]. cbn [eraseContainer]. destruct (String.eqb _ _); [done|by constructor].
Qed.

Lemma solid_insert_array o k l : solid (JObject o) = true → Forall (λ v, solid v = true) l → solid (JObject (insert_key o k (JArray l))) = true.
Proof. intros Ho Hl. apply solid_insert; [done|]. by apply solid_array. Qed.

(** The container's settings are read from the settings, which the model mirrors. *)
Lemma containerConfig_solid l d s i c (Q : QJsonObject → Sys Secure W → Prop) : settingsHave l d s →
  (∀ o, solid (JObject o) = true → Q o s) → gives (Servers.containerConfig i c) Q s.
Proof.
  intros Hs HQ. destruct (decide (c = DockerContainer.None)) as [->|Hc].
  - apply gives_ret. by apply HQ.
  - apply (containerConfig_gives l d); [done..|]. apply HQ. pose proof (settingsHave_solid _ _ _ Hs) as Hl.
    destruct (containersIn l i !! c) as [o|] eqn:Ho; [|done]. by apply (containersIn_solid l i Hl c).
Qed.

Lemma reload_kept s : mirrors s → 0 <= m_defaultServerIndex (globals s) < Z.of_nat (length (m_servers (globals s))) →
  gives reloadDefaultServerContainerConfig (λ _ s', kept s s') s.
Proof.
  intros Hm Hd. pose proof (solid_serverAt s (m_defaultServerIndex (globals s)) Hm) as Hsol. apply gives_bind, gives_getM, gives_bind, gives_settings.
  pose proof Hm as (l & Hs & _). apply (containerConfig_solid l _ _ _ _ _ Hs). intros o Ho. destruct s as [m w]. apply editServer_kept; [done| |done].
  apply solid_insert_array; [done|]. apply solid_replaceContainer; [done|]. by apply solid_value_array.
Qed.

Lemma solid_updated c config o : solid (JObject o) = true → solid (JObject config) = true →
  solid (JObject (insert_key o "containers" (JArray (replaceContainer c config (toArray (QtJson.value o "containers")))))) = true.
Proof. intros Ho Hc. apply solid_insert_array; [done|]. apply solid_replaceContainer; [done|]. by apply solid_value_array. Qed.

Lemma updateContainer_kept c config s : mirrors s → solid (JObject config) = true →
  0 <= m_processedServerIndex (globals s) < Z.of_nat (length (m_servers (globals s))) → gives (updateContainerConfig c config) (λ _ s', kept s s') s.
Proof.
  intros Hm Hc Hp. apply gives_bind, gives_getM. apply editServer_kept; [done| |done]. apply solid_updated; [by apply solid_serverAt|done].
Qed.

Lemma solid_added (b : bool) c config o : solid (JObject o) = true → solid (JObject config) = true →
  let o' := insert_key o "containers" (JArray (toArray (QtJson.value o "containers") ++ [JObject config])) in
  solid (JObject (if b then insert_key o' "defaultContainer" (JString (ContainerProps.containerToString c)) else o')) = true.
Proof.
  intros Ho Hc o'. assert (solid (JObject o') = true) as Ho'.
  { apply solid_insert_array; [done|]. apply Forall_app. split; [by apply solid_value_array|by constructor]. }
  destruct b; [by apply solid_insert|done].
Qed.

Lemma addContainer_kept os c config s : mirrors s → solid (JObject config) = true →
  0 <= m_processedServerIndex (globals s) < Z.of_nat (length (m_servers (globals s))) → gives (addContainerConfig os c config) (λ _ s', kept s s') s.
Proof.
  intros Hm Hc Hp. apply gives_bind, gives_getM. apply editServer_kept; [done| |done]. apply solid_added; [by apply solid_serverAt|done].
Qed.

Lemma removeApi_kept os i s : mirrors s → 0 <= i < Z.of_nat (length (m_servers (globals s))) → gives (removeApiConfig os i) (λ _ s', kept s s') s.
Proof.
  intros Hm Hi. apply gives_bind, gives_getM. cbv zeta. set (o := remove (remove _ "containers") "hostName"). assert (solid (JObject o) = true) as Ho by (do 4 apply solid_remove; by apply solid_serverAt).
  assert (gives (editServer (insert_key (insert_key o "api_config" (JObject (remove (apiConfig o) "public_key"))) "defaultContainer"
    (JString (ContainerProps.containerToString DockerContainer.None))) i) (λ _ s', kept s s') s) as Hed.
  { apply editServer_kept; [done| |done]. apply solid_insert; [|done]. apply solid_insert; [done|]. by apply solid_remove, solid_value_object. }
  apply gives_bind, gives_when; intros _; [by apply gives_emit|done].
Qed.

Section Clocks.
  Context {clock : Clock W}.

Lemma keyExpired_kept i s : mirrors s → 0 <= i < Z.of_nat (length (m_servers (globals s))) → gives (isApiKeyExpired i) (λ _ s', kept s s') s.
Proof.
  intros Hm Hi. apply gives_bind, gives_getM, gives_bind, gives_gets. cbv zeta. destruct (String.eqb _ ""); [|by apply gives_ret, kept_refl].
  apply gives_bind. pose proof (solid_serverAt s i Hm) as Ho. eapply gives_mono; [apply editServer_kept; [done| |done]|].
  - apply solid_insert; [done|]. apply solid_insert; [by apply solid_value_object|]. apply solid_insert; [|done]. by do 2 apply solid_value_object.
  - intros [] s' Hs'. by apply gives_ret.
Qed.

End Clocks.

(** *** The default container *)

(** The default container of a server is one of its containers, if there is one. *)
Definition defaultInstalled (o : QJsonObject) : Prop :=
  defaultContainerOf o = DockerContainer.None ∨
  ∃ c, c ∈ toArray (QtJson.value o "containers") ∧ containerOf c = defaultContainerOf o.

Lemma containerOf_equiv c c' : c ≡ c' → containerOf c = containerOf c'.
Proof. intros Hc. unfold containerOf, containerName. by rewrite (field_equiv _ _ _ (toObject_equiv _ _ Hc)). Qed.

Lemma defaultInstalled_equiv o o' : o ≡ₒ o' → defaultInstalled o' → defaultInstalled o.
Proof.
  intros Ho. unfold defaultInstalled, defaultContainerOf. rewrite (field_equiv _ _ _ Ho). intros [H|(c & Hc & H)]; [by left|]. right.
  pose proof (toArray_equiv _ _ (Ho "containers")) as Ha. apply list_equiv_Forall2 in Ha. apply list_elem_of_lookup in Hc as [i Hi].
  destruct (Forall2_lookup_r _ _ _ _ _ Ha Hi) as (c' & Hi' & Hcc). exists c'. split; [by eapply list_elem_of_lookup_2|].
  by rewrite (containerOf_equiv _ _ Hcc).
Qed.

Lemma defaultContainerOf_insert o k v : k ≠ "defaultContainer" → defaultContainerOf (insert_key o k v) = defaultContainerOf o.
Proof. intros Hk. unfold defaultContainerOf, field. rewrite value_insert. by destruct (String.eqb_spec k "defaultContainer"). Qed.

Lemma defaultContainerOf_set o c : defaultContainerOf (insert_key o "defaultContainer" (JString (ContainerProps.containerToString c))) = c.
Proof. unfold defaultContainerOf, field. rewrite value_insert. cbn. apply container_name. Qed.

Lemma containers_insert o l : toArray (QtJson.value (insert_key o "containers" (JArray l)) "containers") = l.
Proof. by rewrite value_insert. Qed.

Lemma containers_set o c : toArray (QtJson.value (insert_key o "defaultContainer" c) "containers") = toArray (QtJson.value o "containers").
Proof. by rewrite value_insert. Qed.

Lemma elem_of_erase x name l : x ∈ l → containerName x ≠ name → x ∈ eraseContainer name l.
Proof.
  intros Hx Hne. induction l as [|c l IH]; [done|]. cbn [eraseContainer]. apply elem_of_cons in Hx as [->|Hx].
  - destruct (String.eqb_spec (containerName c) name); [done|left].
  - destruct (String.eqb (containerName c) name); [done|right; auto].
Qed.

Lemma elem_of_replace x c config l : x ∈ l → containerOf (JObject config) = c →
  ∃ y, y ∈ replaceContainer c config l ∧ containerOf y = containerOf x.
Proof.
  intros Hx Hc. induction l as [|v l IH]; [by apply elem_of_nil in Hx|]. cbn [replaceContainer]. apply elem_of_cons in Hx as [->|Hx].
  - destruct (decide (containerOf v = c)) as [Hv|Hv]; [exists (JObject config); split; [left|congruence]|exists v; split; [left|done]].
  - destruct (decide (containerOf v = c)); [exists x; split; [by right|done]|]. destruct (IH Hx) as (y & Hy & Hyx). exists y. split; [by right|done].
Qed.

Lemma added_installed os c config o : defaultInstalled o → containerOf (JObject config) = c →
  let o' := insert_key o "containers" (JArray (toArray (QtJson.value o "containers") ++ [JObject config])) in
  defaultInstalled (if bool_decide (defaultContainerOf o' = DockerContainer.None) &&
       bool_decide (ContainerProps.containerService c ≠ ServiceType.Other) && ContainerProps.isSupportedByCurrentPlatform os c
    then insert_key o' "defaultContainer" (JString (ContainerProps.containerToString c)) else o').
Proof.
  intros Ho Hc o'. destruct (_ && _).
  - right. exists (JObject config). rewrite containers_set, defaultContainerOf_set. unfold o'. rewrite containers_insert. split; [|done].
    apply elem_of_app. right. left.
  - unfold defaultInstalled, o'. rewrite defaultContainerOf_insert, containers_insert by done. destruct Ho as [Ho|(x & Hx & Ho)]; [by left|].
    right. exists x. split; [|done]. apply elem_of_app. by left.
Qed.

Lemma updated_installed c config o : defaultInstalled o → containerOf (JObject config) = c →
  defaultInstalled (insert_key o "containers" (JArray (replaceContainer c config (toArray (QtJson.value o "containers"))))).
Proof.
  intros Ho Hc. unfold defaultInstalled. rewrite defaultContainerOf_insert, containers_insert by done.
  destruct Ho as [Ho|(x & Hx & Ho)]; [by left|]. right. destruct (elem_of_replace x c config _ Hx Hc) as (y & Hy & Hyx).
  exists y. split; [done|congruence].
Qed.

Lemma erased_installed c o : defaultInstalled o →
  let cs := eraseContainer (ContainerProps.containerToString c) (toArray (QtJson.value o "containers")) in
  let o' := insert_key o "containers" (JArray cs) in
  defaultInstalled (if decide (defaultContainerOf o' = c) then
      insert_key o' "defaultContainer" (JString (ContainerProps.containerToString (match cs with [] => DockerContainer.None | x :: _ => containerOf x end)))
    else o').
Proof.
  intros Ho cs o'. destruct (decide _) as [Hd|Hd]; unfold o' in *; rewrite defaultContainerOf_insert in Hd by done; unfold defaultInstalled.
  - rewrite containers_set, defaultContainerOf_set, containers_insert. destruct cs as [|x cs']; [by left|]. right. exists x. split; [left|done].
  - rewrite defaultContainerOf_insert, containers_insert by done. destruct Ho as [Ho|(x & Hx & Ho)]; [by left|].
    destruct (decide (containerOf x = DockerContainer.None)) as [Hn|Hn]; [left; congruence|]. right. exists x. split; [|done].
    apply elem_of_erase; [done|]. pose proof (container_unknown _ Hn) as Hname. intros Hx'. fold (containerOf x) in Hname.
    rewrite Hx' in Hname. apply container_name_inj in Hname. congruence.
Qed.

Section RemoteOps.
  Context {controller : ServerController W} {claws : ServerControllerLaws controller}.

Lemma remote_gives f (Q : Z → State → Prop) (s : State) :
  Q (f (world (world s))).1 (mkSys (globals s) (mkSys (globals (world s)) (f (world (world s))).2)) → gives (remote f) Q s.
Proof. intros HQ. apply gives_run. unfold remote. destruct (f (world (world s))) as [code w]. by eexists _, _, _. Qed.

(** A command that leaves the key storage alone. *)
Lemma mirrors_remote (s : State) w : mirrors s → (∀ t, secret t w = secret t (world (world s))) →
  mirrors (mkSys (globals s) (mkSys (globals (world s)) w)).
Proof.
  intros (l & (Hw & Hl & Hd) & Hrest) Hsec. exists l. split; [|done]. split; [|done]. intros key Hk. cbn. unfold unlocked. rewrite !Hsec. by apply (Hw key).
Qed.

Lemma serverCredentials_gives l d s i (Q : ServerCredentials → Sys Secure W → Prop) : settingsHave l d s →
  (∀ cr, Q cr s) → gives (Servers.serverCredentials i) Q s.
Proof. intros Hs HQ. apply gives_bind, (server_gives l d); [done|]. by apply gives_ret. Qed.

(** The shared frame of the two operations that change the containers of a server. *)
Lemma remote_edit (s : State) (command : ServerCredentials → W → Z * W) (f : QJsonObject → QJsonObject) :
  let p := m_processedServerIndex (globals s) in
  mirrors s → 0 <= p < Z.of_nat (length (m_servers (globals s))) →
  (∀ cr t w, secret t (command cr w).2 = secret t w) →
  (∀ o, solid (JObject o) = true → solid (JObject (f o)) = true) →
  gives (p ← getM m_processedServerIndex;
         credentials ← settings (Servers.serverCredentials p);
         errorCode ← remote (command credentials);
         (if errorCode =? NoError then m ← getM (λ m, m); editServer (f (serverAt m p)) p else mret tt);;
         mret errorCode)
    (λ code s', mirrors s' ∧ sameIndices s s' ∧
       m_servers (globals s') ≡ if code =? NoError then <[Z.to_nat p := JObject (f (serverAt (globals s) p))]> (m_servers (globals s))
                               else m_servers (globals s)) s.
Proof.
  intros p Hm Hp Hkeep Hf. apply gives_bind, gives_getM, gives_bind, gives_settings. pose proof Hm as (l & Hs & _).
  apply (serverCredentials_gives l _ _ _ _ Hs). intros cr. apply gives_bind, remote_gives. cbn [globals world].
  set (s1 := mkSys (globals s) _). assert (mirrors s1) as Hm1 by (by apply mirrors_remote).
  apply gives_bind. destruct ((command cr (world (world s))).1 =? NoError) eqn:Hcode.
  - apply gives_bind, gives_getM. eapply gives_mono; [apply editServer_mirrors; [done| |done]|].
    { apply Hf. by apply (solid_serverAt s1). }
    intros [] s2 (Hm2 & Hi2 & Heq2). apply gives_ret. by rewrite Hcode.
  - apply gives_ret, gives_ret. by rewrite Hcode.
Qed.

Lemma solid_erased c o : solid (JObject o) = true →
  let cs := eraseContainer (ContainerProps.containerToString c) (toArray (QtJson.value o "containers")) in
  let o' := insert_key o "containers" (JArray cs) in
  solid (JObject (if decide (defaultContainerOf o' = c) then
      insert_key o' "defaultContainer" (JString (ContainerProps.containerToString (match cs with [] => DockerContainer.None | x :: _ => containerOf x end)))
    else o')) = true.
Proof.
  intros Ho cs o'. assert (solid (JObject o') = true) as Ho'.
  { apply solid_insert_array; [done|]. by apply solid_eraseContainer, solid_value_array. }
  destruct (decide _); [by apply solid_insert|done].
Qed.

(** The two operations, as instances of that frame. *)
Definition afterRemoval (c : DockerContainer.t) (o : QJsonObject) : QJsonObject :=
  let cs := eraseContainer (ContainerProps.containerToString c) (toArray (QtJson.value o "containers")) in
  let o' := insert_key o "containers" (JArray cs) in
  if decide (defaultContainerOf o' = c) then
    insert_key o' "defaultContainer" (JString (ContainerProps.containerToString (match cs with [] => DockerContainer.None | x :: _ => containerOf x end)))
  else o'.

Definition withoutContainers (o : QJsonObject) : QJsonObject :=
  insert_key (insert_key o "containers" JNull) "defaultContainer" (JString (ContainerProps.containerToString DockerContainer.None)).

Lemma removeContainer_gives c (s : State) :
  let p := m_processedServerIndex (globals s) in
  mirrors s → 0 <= p < Z.of_nat (length (m_servers (globals s))) →
  gives (removeContainer c) (λ code s', mirrors s' ∧ sameIndices s s' ∧
    m_servers (globals s') ≡ if code =? NoError then <[Z.to_nat p := JObject (afterRemoval c (serverAt (globals s) p))]> (m_servers (globals s))
                             else m_servers (globals s)) s.
Proof.
  intros p Hm Hp. apply (remote_edit s (λ cr, remoteRemoveContainer cr c) (afterRemoval c) Hm Hp).
  - intros cr t w. apply removeContainer_keeps.
  - apply solid_erased.
Qed.

Lemma removeAllContainers_gives (s : State) :
  let p := m_processedServerIndex (globals s) in
  mirrors s → 0 <= p < Z.of_nat (length (m_servers (globals s))) →
  gives removeAllContainers (λ code s', mirrors s' ∧ sameIndices s s' ∧
    m_servers (globals s') ≡ if code =? NoError then <[Z.to_nat p := JObject (withoutContainers (serverAt (globals s) p))]> (m_servers (globals s))
                             else m_servers (globals s)) s.
Proof.
  intros p Hm Hp. apply (remote_edit s remoteRemoveAllContainers withoutContainers Hm Hp).
  - intros cr t w. apply removeAllContainers_keeps.
  - intros o Ho. apply solid_insert; [|done]. by apply solid_insert.
Qed.

Lemma reboot_kept s : mirrors s → gives rebootServer (λ _ s', kept s s') s.
Proof.
  intros Hm. apply gives_bind, gives_getM, gives_bind, gives_settings. pose proof Hm as (l & Hs & _).
  apply (serverCredentials_gives l _ _ _ _ Hs). intros cr. apply remote_gives. split; [|done]. apply mirrors_remote; [done|].
  intros t. apply reboot_keeps.
Qed.

End RemoteOps.

End Model.
