(* ===== verification/ServersCorrect.v ===== *)
(** * The list of servers is correct

    The properties of the settings and the models of servers and containers, from the
    lemmas of [ServersSpec.v], and a concrete instance of what they rely on. *)

From stdpp Require Import prelude strings list gmap pretty.
From Stdlib Require Import ZArith Lia Ascii.
From S2P Require Import Prelude IPAddress QtJson InterfaceConfig LineProtocol SecureSettings SplitTunnel SplitTunnelSpec Containers JsonEquiv ServerSettings ServersModel ServersSpec.

Local Open Scope Z_scope.

(** ** The operations of the model *)

Inductive ServerOp :=
| OpAddServer (o : QJsonObject)
| OpEditServer (o : QJsonObject) (i : Z)
| OpRemoveServer
| OpSetDefault (i : Z)
| OpSetProcessed (i : Z)
| OpSetName (row : Z) (name : string)
| OpReloadContainer
| OpUpdateContainer (c : DockerContainer.t) (o : QJsonObject)
| OpAddContainer (os : Os) (c : DockerContainer.t) (o : QJsonObject)
| OpSetDefaultContainer (i : Z) (c : DockerContainer.t)
| OpRemoveContainer (c : DockerContainer.t)
| OpRemoveAllContainers
| OpReboot
| OpClearProfile (c : DockerContainer.t)
| OpToggleDns (enabled : bool)
| OpKeyExpired (i : Z)
| OpRemoveApi (os : Os) (i : Z).

Section Correct.
  Context {W : Type} {secrets : SecretEnv W} {laws : SecretLaws secrets} {env : QtEnv} {te : TextEnv}
    {text : ArrayText} {tlaws : ArrayTextLaws text}.
  Import ServersData ServersOps.

Local Abbreviation State := (Sys ServersModel (Sys Secure W)).

Section Operations.
  Context {controller : ServerController W} {claws : ServerControllerLaws controller} {clock : Clock W}.

Definition doServerOp (op : ServerOp) : SvM W unit :=
  match op with
  | OpAddServer o => addServer o
  | OpEditServer o i => editServer o i
  | OpRemoveServer => removeServer
  | OpSetDefault i => setDefaultServerIndex i
  | OpSetProcessed i => setProcessedServerIndex i
  | OpSetName row name => setName row name;; mret tt
  | OpReloadContainer => reloadDefaultServerContainerConfig
  | OpUpdateContainer c o => updateContainerConfig c o
  | OpAddContainer os c o => addContainerConfig os c o
  | OpSetDefaultContainer i c => setDefaultContainer i c
  | OpRemoveContainer c => removeContainer c;; mret tt
  | OpRemoveAllContainers => removeAllContainers;; mret tt
  | OpReboot => rebootServer;; mret tt
  | OpClearProfile c => clearCachedProfile c
  | OpToggleDns b => toggleAmneziaDns b
  | OpKeyExpired i => isApiKeyExpired i;; mret tt
  | OpRemoveApi os i => removeApiConfig os i
  end.

(** The servers an operation is about exist, and what it stores is a document. *)
Definition validOp (m : ServersModel) (op : ServerOp) : Prop :=
  let row i := 0 <= i < Z.of_nat (length (m_servers m)) in
  let document o := solid (JObject o) = true in
  match op with
  | OpAddServer o => document o
  | OpEditServer o i => document o ∧ row i
  | OpSetDefault i | OpSetProcessed i | OpSetDefaultContainer i _ | OpKeyExpired i | OpRemoveApi _ i => row i
  | OpReloadContainer => row (m_defaultServerIndex m)
  | OpUpdateContainer _ o | OpAddContainer _ _ o => document o ∧ row (m_processedServerIndex m)
  | OpRemoveServer | OpRemoveContainer _ | OpRemoveAllContainers => row (m_processedServerIndex m)
  | OpClearProfile c => c ≠ DockerContainer.None ∧ row (m_processedServerIndex m)
  | OpSetName _ _ | OpReboot | OpToggleDns _ => True
  end.

(** The default and the processed server exist, or there is none. *)
Definition indexOk (n i : Z) : Prop := -1 <= i < Z.max 1 n.
Definition indicesOk (m : ServersModel) : Prop :=
  indexOk (Z.of_nat (length (m_servers m))) (m_defaultServerIndex m) ∧
  indexOk (Z.of_nat (length (m_servers m))) (m_processedServerIndex m).

Definition good (s : State) : Prop := mirrors s ∧ indicesOk (globals s).

Lemma kept_good (s s' : State) : indicesOk (globals s) → kept s s' → good s'.
Proof. intros [Hd Hp] (Hm & (H1 & H2 & _) & Hlen). split; [done|]. unfold indicesOk. by rewrite H1, H2, Hlen. Qed.

Lemma longer_good (s s' : State) : indicesOk (globals s) → mirrors s' → sameIndices s s' →
  (length (m_servers (globals s)) <= length (m_servers (globals s')))%nat → good s'.
Proof. intros [Hd Hp] Hm (H1 & H2 & _) Hlen. split; [done|]. unfold indicesOk, indexOk in *. rewrite H1, H2. lia. Qed.

Lemma removed_good (s s' : State) : let m := globals s in let n := Z.of_nat (length (m_servers m)) in let p := m_processedServerIndex m in
  indicesOk m → 0 <= p < n → mirrors s' → m_servers (globals s') ≡ delete (Z.to_nat p) (m_servers m) →
  m_defaultServerIndex (globals s') = defaultAfterRemoval n p (m_defaultServerIndex m) →
  m_processedServerIndex (globals s') = m_defaultServerIndex (globals s') → good s'.
Proof.
  intros m n p [Hd _] Hp Hm Heq Hd' Hp'. fold n in Hd. split; [done|]. unfold indicesOk. rewrite Hp', Hd'.
  assert (Z.of_nat (length (m_servers (globals s'))) = n - 1) as ->.
  { rewrite (equiv_length _ _ Heq). rewrite length_delete by (apply lookup_lt_is_Some; unfold n in Hp; lia). unfold n. lia. }
  unfold indexOk, defaultAfterRemoval in *. fold m. destruct (Z.eqb_spec n 1); [lia|].
  destruct (Z.eqb_spec (m_defaultServerIndex m) p); [lia|]. destruct (Z.ltb_spec p (m_defaultServerIndex m)); lia.
Qed.

(** A result that is not used. *)
Lemma gives_ignore {A} (m : SvM W A) (Q : unit → State → Prop) s : gives m (λ _ s', Q tt s') s → gives (m;; mret tt) Q s.
Proof. intros Hm. apply gives_bind. eapply gives_mono; [exact Hm|]. intros a s' HQ. by apply gives_ret. Qed.

Lemma equiv_insert_length (l l' : list QJson) (b : bool) i v : l ≡ (if b then <[i := v]> l' else l') → length l = length l'.
Proof. intros Heq. rewrite (equiv_length _ _ Heq). destruct b; [apply length_insert|done]. Qed.


(** [C16] Removing the open server: the list is the old one without it; the default server
    is the same one as before, at its new place, unless it is the one removed: then it
    is the first, or none if the list is empty; and it is the open server now. *)
Theorem removeServer_spec (s : State) :
  let m := globals s in let n := Z.of_nat (length (m_servers m)) in
  let p := m_processedServerIndex m in let d := m_defaultServerIndex m in
  mirrors s → 0 <= p < n →
  gives removeServer (λ _ s', let m' := globals s' in
    mirrors s' ∧ m_servers m' ≡ delete (Z.to_nat p) (m_servers m) ∧ m_processedServerIndex m' = m_defaultServerIndex m' ∧
    (n = 1 → m_defaultServerIndex m' = -1) ∧
    (1 < n → d = p → m_defaultServerIndex m' = 0) ∧
    (1 < n → d ≠ p → 0 <= d < n → arrayAt (m_servers m') (m_defaultServerIndex m') ≡ arrayAt (m_servers m) d)) s.
Proof.
  intros m n p d Hm Hp. eapply gives_mono; [by apply removeServer_mirrors|]. intros [] s' (Hm' & Heq & Hd & Hpd & _). cbv zeta.
  fold m n p d in Hd, Heq. split; [done|]. split; [done|]. split; [done|]. rewrite Hd. unfold defaultAfterRemoval.
  split; [intros ->; done|]. split; [intros Hn ->; destruct (Z.eqb_spec n 1); [lia|]; by rewrite Z.eqb_refl|].
  intros Hn Hne Hr. rewrite (equiv_arrayAt _ _ _ Heq). destruct (Z.eqb_spec n 1); [lia|]. destruct (Z.eqb_spec d p); [lia|].
  destruct (Z.ltb_spec p d) as [Hpd'|Hpd'].
  - rewrite !arrayAt_lookup by lia. rewrite list_lookup_delete_ge by lia. by replace (S (Z.to_nat (d - 1))) with (Z.to_nat d) by lia.
  - rewrite !arrayAt_lookup by lia. by rewrite list_lookup_delete_lt by lia.
Qed.

(** *** The default container *)

Lemma serverAt_inserted (m m' : ServersModel) (i : Z) o : 0 <= i < Z.of_nat (length (m_servers m)) →
  m_servers m' ≡ <[Z.to_nat i := JObject o]> (m_servers m) → serverAt m' i ≡ₒ o.
Proof.
  intros Hi Heq. etransitivity; [apply toObject_equiv, (equiv_arrayAt _ _ i Heq)|]. rewrite arrayAt_insert by done.
  by rewrite decide_True.
Qed.

Lemma edit_installed o i (s : State) : mirrors s → solid (JObject o) = true → 0 <= i < Z.of_nat (length (m_servers (globals s))) →
  defaultInstalled o → gives (editServer o i) (λ _ s', defaultInstalled (serverAt (globals s') i)) s.
Proof.
  intros Hm Ho Hi Hd. eapply gives_mono; [by apply editServer_mirrors|]. intros [] s' (_ & _ & Heq).
  by apply (defaultInstalled_equiv _ o (serverAt_inserted _ _ _ _ Hi Heq)).
Qed.

(** A command on the server changes the stored server only if it succeeds. *)
Lemma remote_installed (m m' : ServersModel) (i code : Z) o : 0 <= i < Z.of_nat (length (m_servers m)) →
  defaultInstalled (serverAt m i) → defaultInstalled o →
  m_servers m' ≡ (if code =? NoError then <[Z.to_nat i := JObject o]> (m_servers m) else m_servers m) → defaultInstalled (serverAt m' i).
Proof.
  intros Hi Hm Ho Heq. destruct (code =? NoError); [by apply (defaultInstalled_equiv _ o (serverAt_inserted _ _ _ _ Hi Heq))|].
  by apply (defaultInstalled_equiv _ (serverAt m i) (toObject_equiv _ _ (equiv_arrayAt _ _ i Heq))).
Qed.

(** [C18] The default container of a server is one of its installed containers, or there
    is none: adding, updating or removing a container, or removing all of them, keeps
    it so, whether the command on the server succeeds or not. *)
Theorem defaultContainer_installed (os : Os) (c : DockerContainer.t) (config : QJsonObject) (s : State) :
  let p := m_processedServerIndex (globals s) in
  mirrors s → 0 <= p < Z.of_nat (length (m_servers (globals s))) →
  solid (JObject config) = true → containerOf (JObject config) = c → defaultInstalled (serverAt (globals s) p) →
  gives (addContainerConfig os c config) (λ _ s', defaultInstalled (serverAt (globals s') p)) s ∧
  gives (updateContainerConfig c config) (λ _ s', defaultInstalled (serverAt (globals s') p)) s ∧
  gives (removeContainer c) (λ _ s', defaultInstalled (serverAt (globals s') p)) s ∧
  gives removeAllContainers (λ _ s', defaultInstalled (serverAt (globals s') p)) s.
Proof.
  intros p Hm Hp Hsol Hc Hd. split; [|split; [|split]].
  - apply gives_bind, gives_getM, edit_installed; [done|apply solid_added; [by apply solid_serverAt|done]|done|by apply added_installed].
  - apply gives_bind, gives_getM, edit_installed; [done|apply solid_updated; [by apply solid_serverAt|done]|done|by apply updated_installed].
  - eapply gives_mono; [by apply removeContainer_gives|]. intros code s' (_ & _ & Heq).
    by apply (remote_installed _ _ _ _ _ Hp Hd (erased_installed c _ Hd) Heq).
  - eapply gives_mono; [by apply removeAllContainers_gives|]. intros code s' (_ & _ & Heq).
    refine (remote_installed _ _ _ _ _ Hp Hd _ Heq). left. apply defaultContainerOf_set.
Qed.

End Operations.

(** *** The containers of a server in the settings *)

Section Containers.
  Import Servers.

(** Of the server [i] only the container [c] has changed, and nothing of the others. *)
Definition onlyContainer (l : list QJson) (d i : Z) (c : DockerContainer.t) (s : Sys Secure W) : Prop :=
  ∃ l', settingsHave l' d s ∧ changedAt l l' i ∧
    ∀ c', c' ≠ c → option_Forall2 oeq (containersIn l' i !! c') (containersIn l i !! c').

Definition protocolIn (l : list QJson) (i : Z) (c : DockerContainer.t) (p : Proto.t) : QJsonObject :=
  toObject (QtJson.value (default [] (containersIn l i !! c)) (ProtocolProps.protoToString p)).

(** What a container's configuration is read as after one of the operations. *)
Lemma config_after l d i c (m : SetM W unit) s (f : gmap DockerContainer.t QJsonObject → gmap DockerContainer.t QJsonObject) :
  c ≠ DockerContainer.None → (∀ c', c' ≠ c → f (containersIn l i) !! c' = containersIn l i !! c') →
  gives m (λ _ s', ∃ l', settingsHave l' d s' ∧ changedAt l l' i ∧ meq (containersIn l' i) (f (containersIn l i))) s →
  gives (m;; containerConfig i c) (λ r s', r ≡ₒ default [] (f (containersIn l i) !! c) ∧ onlyContainer l d i c s') s.
Proof.
  intros Hc Hf Hm. apply gives_bind. eapply gives_mono; [exact Hm|]. intros [] s' (l' & Hs' & Hch & Hmeq).
  apply (containerConfig_gives l' d); [done..|]. split; [by apply meq_default|]. exists l'. split; [done|]. split; [done|].
  intros c' Hc'. specialize (Hmeq c'). by rewrite Hf in Hmeq.
Qed.

Lemma setProtocolConfig_gives l d s i c p config : settingsHave l d s → 0 <= i < Z.of_nat (length l) → c ≠ DockerContainer.None →
  solid (JObject config) = true →
  gives (setProtocolConfig i c p config) (λ _ s', ∃ l', settingsHave l' d s' ∧ changedAt l l' i ∧
    meq (containersIn l' i) (<[c := withName c (insert_key (default [] (containersIn l i !! c)) (ProtocolProps.protoToString p) (JObject config))]>
      (containersIn l i))) s.
Proof.
  intros Hs Hi Hc Hconf. apply gives_bind, (containerConfig_gives l d); [done..|]. apply setContainerConfig_gives; [done..|].
  apply solid_insert; [|done]. destruct (containersIn l i !! c) as [o|] eqn:Ho; [|done].
  by apply (containersIn_solid l i (settingsHave_solid _ _ _ Hs) c).
Qed.

(** The protocols one call clears. *)
Definition clearedBy (c : DockerContainer.t) (q : Proto.t) : list Proto.t :=
  if decide (q = Proto.Any) then ContainerProps.protocolsForContainer c else [q].

Lemma clearLastConnection_gives l d s i c q : settingsHave l d s → 0 <= i < Z.of_nat (length l) → c ≠ DockerContainer.None →
  gives (clearLastConnectionConfig i c q) (λ _ s', ∃ l', settingsHave l' d s' ∧ changedAt l l' i ∧
    (∀ c', c' ≠ c → option_Forall2 oeq (containersIn l' i !! c') (containersIn l i !! c')) ∧
    default [] (containersIn l' i !! c) ≡ₒ foldl (λ o p, clearedConfig c p o) (default [] (containersIn l i !! c)) (clearedBy c q)) s.
Proof.
  intros Hs Hi Hc. unfold clearLastConnectionConfig, clearedBy. destruct (decide (q = Proto.Any)); [by apply clear_loop|].
  eapply gives_mono; [by apply (clearProtocol_gives l d)|]. intros [] s' (l' & Hs' & Hch & Hmeq). exists l'. split; [done|]. split; [done|].
  split; [|by rewrite (meq_default _ _ c Hmeq), lookup_insert_eq].
  intros c' Hc'. specialize (Hmeq c'). by rewrite lookup_insert_ne in Hmeq.
Qed.


End Containers.

(** *** Names of new servers *)

Section Names.
  Import Servers.

Definition nameUsed (l : list QJson) (i : Z) : bool :=
  existsb (λ s, String.eqb (field (toObject s) "description") (serverName i)) l.

Lemma serverName_inj i j : serverName i = serverName j → i = j.
Proof. unfold serverName. intros H. by apply (inj pretty), (inj (String.append "Server ")). Qed.

(** There are more names than servers. *)
Lemma unused_name l : ∃ k, 1 <= k <= Z.of_nat (length l) + 1 ∧ nameUsed l k = false.
Proof.
  set (n := Z.of_nat (length l) + 1).
  destruct (existsb (λ k, negb (nameUsed l k)) (seqZ 1 n)) eqn:He.
  { apply existsb_exists in He as (k & Hk & Hu). apply list_elem_of_In, elem_of_seqZ in Hk. exists k. split; [lia|by apply negb_true_iff]. }
  assert (serverName <$> seqZ 1 n ⊆+ (λ s, field (toObject s) "description") <$> l) as Hsub.
  { apply NoDup_submseteq; [apply NoDup_fmap_2_strong; [intros; by apply serverName_inj|apply NoDup_seqZ]|].
    intros x (k & -> & Hk)%list_elem_of_fmap. apply not_true_iff_false in He.
    destruct (nameUsed l k) eqn:Hu; [|destruct He; apply existsb_exists; exists k; split; [by apply list_elem_of_In|by rewrite Hu]].
    apply existsb_exists in Hu as (s & Hs%list_elem_of_In & Heq%String.eqb_eq). apply list_elem_of_fmap. by exists s. }
  apply submseteq_length in Hsub. rewrite !length_fmap, length_seqZ in Hsub. lia.
Qed.

Lemma least_unused l k : 1 <= k → nameUsed l k = false → ∃ k', 1 <= k' <= k ∧ nameUsed l k' = false ∧ ∀ j, 1 <= j < k' → nameUsed l j = true.
Proof.
  intros Hk. revert Hk. pattern k. apply (well_founded_induction (Z.lt_wf 0)). clear k. intros k IH Hk Hu.
  destruct (existsb (λ j, negb (nameUsed l j)) (seqZ 1 (k - 1))) eqn:He.
  - apply existsb_exists in He as (j & Hj%list_elem_of_In%elem_of_seqZ & Hj'%negb_true_iff).
    destruct (IH j) as (k' & Hk' & H); [lia..|done|]. exists k'. split; [lia|done].
  - exists k. split; [lia|]. split; [done|]. intros j Hj. apply not_true_iff_false in He. destruct (nameUsed l j) eqn:Hu'; [done|].
    destruct He. apply existsb_exists. exists j. split; [apply list_elem_of_In, elem_of_seqZ; lia|by rewrite Hu'].
Qed.

Lemma nextName_gives l d s k : settingsHave l d s → nameUsed l k = false → ∀ fuel i, i <= k < i + Z.of_nat fuel →
  (∀ j, i <= j < k → nameUsed l j = true) → gives (nextName fuel i) (λ r s', r = serverName k ∧ s' = s) s.
Proof.
  intros Hs Hk. induction fuel as [|fuel IH]; intros i Hi Hused; [lia|]. cbn [nextName].
  apply gives_bind, (serversArray_gives l d); [done|]. fold (nameUsed l i). destruct (decide (i = k)) as [->|Hne].
  - rewrite Hk. by apply gives_ret.
  - rewrite Hused by lia. apply IH; [lia|]. intros j Hj. apply Hused. lia.
Qed.

(** The loop that looks for a name for a new server ends, after at most one round
    more than there are servers, with the first of "Server 1", "Server 2", ... that no
    server has. *)
Theorem nextAvailableServerName_spec (l : list QJson) (d : Z) (fuel : nat) (s : Sys Secure W) :
  settingsHave l d s → (length l < fuel)%nat →
  gives (nextAvailableServerName fuel) (λ name s', s' = s ∧ ∃ k, 1 <= k <= Z.of_nat (length l) + 1 ∧ name = serverName k ∧
    nameUsed l k = false ∧ ∀ j, 1 <= j < k → nameUsed l j = true) s.
Proof.
  intros Hs Hf. destruct (unused_name l) as (k0 & Hk0 & Hu0). destruct (least_unused l k0) as (k & Hk & Hu & Hl); [lia|done|].
  eapply gives_mono; [apply (nextName_gives l d s k Hs Hu fuel 1); [lia|done]|]. intros r s' [-> ->]. split; [done|].
  exists k. split; [lia|done].
Qed.

End Names.

(** *** The server of an old version *)

Section Import.
  Import Servers.

(** A key has a value in the clear, or none. *)
Definition holds (key : string) (v : QVariant) (s : Sys Secure W) : Prop :=
  m_cache (globals s) !! key = Some v ∨
  (m_cache (globals s) !! key = None ∧ stored (globals s) !! key = Some v ∧ marked v = false).
Definition absent (key : string) (s : Sys Secure W) : Prop :=
  m_cache (globals s) !! key = None ∧ stored (globals s) !! key = None.

Definition sameReads (s s' : Sys Secure W) : Prop :=
  world s' = world s ∧ (∀ k v, holds k v s → holds k v s') ∧ ∀ k, absent k s → absent k s'.

Lemma readSetting_holds key d v s : holds key v s → gives (readSetting key d) (λ r s', r = v ∧ sameReads s s') s.
Proof.
  intros Hh. apply gives_store, gives_run. destruct Hh as [Hc|(Hc & Hst & Hm)].
  - exists v, s, []. split; [by apply value_cached|]. by split.
  - eexists v, _, []. split; [by apply value_unmarked|]. split; [done|]. split; [done|]. split.
    + intros k u. unfold holds. cbn. destruct (decide (k = key)) as [->|Hne]; [|by rewrite lookup_insert_ne].
      rewrite lookup_insert_eq, Hc, Hst. intros [?|(_ & ? & _)]; [done|by left].
    + intros k [Hk1 Hk2]. split; [|done]. cbn. rewrite lookup_insert_ne; [done|]. intros ->. congruence.
Qed.

Lemma remove_gives key s : gives (store (SecureQSettings.remove key)) (λ _ s', world s' = world s ∧ absent key s' ∧
  (∀ k, absent k s → absent k s') ∧ ∀ k d v, k ≠ key → readsAs k d v s → readsAs k d v s') s.
Proof.
  apply gives_store, gives_run. eexists tt, _, _. split; [reflexivity|]. split; [done|]. split; [|split].
  - split; cbn; by rewrite lookup_delete_eq.
  - intros k [H1 H2]. split; cbn; apply lookup_delete_None; by right.
  - intros k d v Hne. unfold readsAs. cbn. by rewrite !lookup_delete_ne.
Qed.

Lemma remove_keeps_list l d key s : settingsHave l d s → key ≠ "Servers/serversList" → key ≠ "Servers/defaultServerIndex" →
  gives (store (SecureQSettings.remove key)) (λ _ s', settingsHave l d s' ∧ absent key s' ∧ ∀ k, absent k s → absent k s') s.
Proof.
  intros (Hw & (v1 & Hv1 & Hl) & v2 & Hv2 & Hd) H1 H2. eapply gives_mono; [apply remove_gives|]. intros [] s' (Hw' & Ha & Hk & Hr).
  split; [|done]. split; [intros k Hsec; rewrite Hw'; by eapply Hw|]. split; [exists v1|exists v2]; (split; [by apply Hr|done]).
Qed.

(** The server the constructor makes of the old values. *)
Definition importedServer (user password host : string) (port : Z) : QJsonObject :=
  inserts [] [("userName", JString user); ("password", JString password); ("hostName", JString host); ("port", JInt port);
              ("description", JString "Server #1")].

Lemma importedServer_solid user password host port : solid (JObject (importedServer user password host port)) = true.
Proof. by repeat apply solid_insert. Qed.

Definition oldKeys : list string := ["Server/userName"; "Server/password"; "Server/serverName"; "Server/serverPort"].

Lemma empty_list s : canWrite s → absent "Servers/serversList" s → absent "Servers/defaultServerIndex" s → settingsHave [] 0 s.
Proof.
  intros Hw [Hl1 Hl2] [Hd1 Hd2]. split; [done|]. split; [exists VInvalid|exists (VInt 0)]; (split; [by right|]); [apply array_empty|done].
Qed.

(** The old settings have a server and no list. *)
Definition oldInstallation (user password host : string) (port : Z) (s : Sys Secure W) : Prop :=
  absent "Servers/serversList" s ∧
  (holds "Server/userName" (VString user) s ∧ holds "Server/password" (VString password) s ∧
   holds "Server/serverName" (VString host) s ∧ holds "Server/serverPort" (VInt port) s) ∧
  user ≠ "" ∧ password ≠ "" ∧ host ≠ "".

(** The constructor reads them, and then adds the server and removes them. *)
Lemma construct_reads user password host port s (Q : unit → Sys Secure W → Prop) : oldInstallation user password host port s →
  (∀ s', sameReads s s' → gives (addServer (importedServer user password host port);;
    store (SecureQSettings.remove "Server/userName");; store (SecureQSettings.remove "Server/password");;
    store (SecureQSettings.remove "Server/serverName");; store (SecureQSettings.remove "Server/serverPort")) Q s') → gives construct Q s.
Proof.
  intros ([Hc Hst] & (Hu & Hp & Hh & Hport) & Hu0%String.eqb_neq & Hp0%String.eqb_neq & Hh0%String.eqb_neq) HQ. unfold construct.
  apply gives_bind, gives_bind, gives_bind, gives_store, gives_run. eexists _, s, [].
  split; [apply (value_readsAs _ _ VInvalid); by right|]. apply gives_ret, gives_ret. cbn [variantText].
  rewrite array_empty. apply gives_when; [intros _|done].
  apply gives_bind. eapply gives_mono; [by apply readSetting_holds|]. intros r1 s1 (-> & Hw1 & Hh1 & Ha1).
  apply gives_bind. eapply gives_mono; [by apply readSetting_holds, Hh1|]. intros r2 s2 (-> & Hw2 & Hh2 & Ha2).
  apply gives_bind. eapply gives_mono; [by apply readSetting_holds, Hh2, Hh1|]. intros r3 s3 (-> & Hw3 & Hh3 & Ha3).
  apply gives_bind. eapply gives_mono; [by apply readSetting_holds, Hh3, Hh2, Hh1|]. intros r4 s4 (-> & Hw4 & Hh4 & Ha4).
  cbn [variantText variantInt]. rewrite Hu0, Hp0, Hh0. apply gives_when; [intros _|done]. apply HQ.
  split; [congruence|]. split; auto.
Qed.

(** Settings of an old version, which had one server and no list: after the
    constructor the list has that server, as the default one, and the old values are
    gone. *)
Theorem import_spec (user password host : string) (port : Z) (s : Sys Secure W) :
  oldInstallation user password host port s → canWrite s → absent "Servers/defaultServerIndex" s →
  gives construct (λ _ s', (∃ l, settingsHave l 0 s' ∧ l ≡ [JObject (importedServer user password host port)]) ∧
    Forall (λ key, absent key s') oldKeys) s.
Proof.
  intros Hold Hw Hdef. pose proof (proj1 Hold) as Hlist. apply (construct_reads _ _ _ _ _ _ Hold). intros s4 (Hw4 & _ & Ha4).
  apply gives_bind. eapply gives_mono; [apply (addServer_gives [] 0), empty_list; [|by auto..]|].
  { intros key Hk. rewrite Hw4. by apply (Hw key). }
  intros [] s5 H5. set (l := written _) in H5. assert (l ≡ [JObject (importedServer user password host port)]) as Hl.
  { apply written_equiv, solid_array, Forall_singleton, importedServer_solid. }
  apply gives_bind. eapply gives_mono; [by apply (remove_keeps_list l 0)|]. intros [] s6 (H6 & A6 & _).
  apply gives_bind. eapply gives_mono; [by apply (remove_keeps_list l 0)|]. intros [] s7 (H7 & A7 & K7).
  apply gives_bind. eapply gives_mono; [by apply (remove_keeps_list l 0)|]. intros [] s8 (H8 & A8 & K8).
  eapply gives_mono; [by apply (remove_keeps_list l 0)|]. intros [] s9 (H9 & A9 & K9).
  split; [by exists l|]. unfold oldKeys. rewrite !Forall_cons, Forall_nil. auto 10.
Qed.

(** A key storage that has no secret and takes none: the user has denied access to it. *)
Definition refuses (w : W) : Prop :=
  (∀ t, readPassword t w = ("", w)) ∧ (∀ t d, writePassword t d w = w) ∧
  ∀ n, (generateSalt n w).1 ≠ "" ∧ (generateSalt n w).2 = w.

Lemma haveSecrets_refused s : refuses (world s) → gives SecureQSettings.haveSecrets (λ b s', b = false ∧ world s' = world s ∧
  sameValues (globals s) (globals s')) s.
Proof.
  intros (Hr & Hw & Hg). destruct s as [c w]. cbn [world globals] in *. apply gives_run. destruct (Hg 32) as [Hne Heq].
  unfold SecureQSettings.haveSecrets, SecureQSettings.getEncKey, SecureQSettings.loadSecret, SecureQSettings.getSecTag,
    SecureQSettings.setSecTag, SecureQSettings.generatePrivateSalt, SecureQSettings.setS, act. run_m. rewrite Hr. cbn.
  destruct (generateSalt 32 w) as [k w']. cbn in *. subst w'. rewrite Hw, Hr.
  cbn. apply String.eqb_neq in Hne. rewrite Hne. cbn. by eexists _, _, _.
Qed.

(** The list is not written, and nothing says so. *)
Lemma addServer_refused o s : SecureQSettings.encryptionRequired = true → refuses (world s) → absent "Servers/serversList" s →
  gives (addServer o) (λ _ s', world s' = world s ∧ sameValues (globals s) (globals s')) s.
Proof.
  intros Henc Href [Hc Hs]. apply gives_bind, gives_bind, gives_store, gives_run. eexists _, s, [].
  split; [apply (value_readsAs _ _ VInvalid); by right|]. apply gives_ret. apply gives_store. unfold SecureQSettings.setValue.
  assert (SecureQSettings.secretKey "Servers/serversList" = true) as -> by (unfold SecureQSettings.secretKey; by rewrite Henc).
  apply gives_bind. eapply gives_mono; [by apply haveSecrets_refused|]. intros b s' (-> & Hw & Hv). by apply gives_ret.
Qed.

(** If the key storage refuses when such settings are imported, the server is not
    added, and its address and password are removed all the same: nothing of it is
    left. *)
Theorem import_loses_server (user password host : string) (port : Z) (s : Sys Secure W) :
  oldInstallation user password host port s → SecureQSettings.encryptionRequired = true → refuses (world s) →
  gives construct (λ _ s', Forall (λ key, absent key s') ("Servers/serversList" :: oldKeys)) s.
Proof.
  intros Hold Henc Href. pose proof (proj1 Hold) as Hlist. apply (construct_reads _ _ _ _ _ _ Hold). intros s4 (Hw4 & _ & Ha4).
  apply gives_bind. eapply gives_mono; [apply addServer_refused; [done|by rewrite Hw4|by auto]|].
  intros [] s5 (_ & Hst & Hca).
  assert (absent "Servers/serversList" s5) as Hl5 by (split; [rewrite Hca|rewrite Hst]; by apply Ha4).
  apply gives_bind. eapply gives_mono; [apply remove_gives|]. intros [] s6 (_ & A6 & K6 & _).
  apply gives_bind. eapply gives_mono; [apply remove_gives|]. intros [] s7 (_ & A7 & K7 & _).
  apply gives_bind. eapply gives_mono; [apply remove_gives|]. intros [] s8 (_ & A8 & K8 & _).
  eapply gives_mono; [apply remove_gives|]. intros [] s9 (_ & A9 & K9 & _).
  unfold oldKeys. rewrite !Forall_cons, Forall_nil. auto 10.
Qed.

End Import.

(** *** The resolvers *)

(** The resolvers a server has of its own. *)
Definition ownDns (m : ServersModel) (i : Z) : string * string := (field (serverAt m i) "dns1", field (serverAt m i) "dns2").

(** The resolvers [getDnsPair] returns are those of the server whose pages are open,
    not of the server it is asked about: if that one has others, they are not
    returned. *)
Theorem getDnsPair_wrong_server (i : Z) (s : State) :
  let m := globals s in let open := ownDns m (m_processedServerIndex m) in
  checkIPv4Format open.1 = true → checkIPv4Format open.2 = true → ownDns m i ≠ open →
  ∃ dns, getDnsPair i s = (Ok dns, s, []) ∧ dns = open ∧ dns ≠ ownDns m i.
Proof.
  intros m open H1 H2 Hne. exists open. split; [|by split]. unfold open, ownDns in *. cbn [fst snd] in *.
  assert (∀ t, checkIPv4Format t = true → String.eqb t "" || negb (checkIPv4Format t) = false) as Hf.
  { intros t Ht. rewrite Ht. unfold checkIPv4Format in Ht. by destruct (String.eqb t ""). }
  unfold getDnsPair, getM. run_m. unfold m in *. by rewrite !Hf.
Qed.

End Correct.

(** ** A concrete instance *)

Module SimServers.
Import SimSecrets SimSettings.

(** The array as the one field of a document. *)
#[global] Instance arrays : ArrayText := {
  arrayText l := toText [("a", JArray l)];
  parseArray s :=
    match fromText s with
    | Some o => let l := toArray (QtJson.value o "a") in if solid (JArray l) then l else []
    | None => []
    end;
}.

Lemma parse_text l : solid (JArray l) = true → parseArray (arrayText l) = l.
Proof.
  intros Hl. change (match fromText (toText [("a", JArray l)]) with
    | Some o => let l := toArray (QtJson.value o "a") in if solid (JArray l) then l else [] | None => [] end = l).
  rewrite SimJson.roundtrip. cbn [QtJson.value]. change (toArray _) with l. cbv zeta. by rewrite Hl.
Qed.

#[global] Instance arrayLaws : ArrayTextLaws arrays.
Proof.
  split.
  - intros l Hl. by rewrite parse_text.
  - intros s. unfold parseArray, arrays. destruct (fromText s) as [o|]; [|done]. cbv zeta.
    destruct (solid (JArray (toArray (QtJson.value o "a")))) eqn:Ho; [exact Ho|done].
  - vm_compute. reflexivity.
Qed.

(** Commands that succeed. *)
#[global] Instance controller : ServerController World := {
  remoteRemoveAllContainers _ w := (NoError, w);
  remoteRemoveContainer _ _ w := (NoError, w);
  remoteReboot _ w := (NoError, w);
}.

#[global] Instance controllerLaws : ServerControllerLaws controller.
Proof. by split. Qed.

#[global] Instance clock : Clock World := { tomorrow _ := "2025-01-02T00:00:00Z"; isPast t _ := String.leb t "2025-01-01T00:00:00Z" }.

Definition wireguard : QJsonObject :=
  [("container", JString "amnezia-wireguard"); ("wireguard", JObject [("port", JString "51820"); ("last_config", JString "{}")])].
Definition first : QJsonObject :=
  [("hostName", JString "203.0.113.7"); ("description", JString "Server 1"); ("dns1", JString "9.9.9.9"); ("dns2", JString "149.112.112.112");
   ("containers", JArray [JObject wireguard]); ("defaultContainer", JString "amnezia-wireguard")].
Definition second : QJsonObject :=
  [("hostName", JString "203.0.113.8"); ("description", JString "Server 3"); ("dns1", JString "8.8.8.8"); ("dns2", JString "8.8.4.4")].

Definition servers : list QJson := [JObject first; JObject second].
Definition settings : Sys Secure World :=
  mkSys (mkSecure ∅ {["Servers/serversList" := VBytes (arrayText servers); "Servers/defaultServerIndex" := VInt 1]} "" "") opened.
Definition model (processed : Z) : Sys ServersModel (Sys Secure World) := mkSys (mkServers servers 1 processed true) settings.

Lemma opened_canWrite c : canWrite (mkSys c opened).
Proof. intros key _. by split. Qed.

Lemma settings_have : settingsHave servers 1 settings.
Proof.
  split; [apply opened_canWrite|]. split.
  - exists (VBytes (arrayText servers)). split; [by left|]. by apply parse_text.
  - exists (VInt 1). split; [by left|done].
Qed.

Lemma model_mirrors p : mirrors (model p).
Proof. exists servers. split; [apply settings_have|]. split; [done|]. split; [done|]. by repeat constructor. Qed.

Lemma model_good p : -1 <= p < 2 → good (model p).
Proof. intros Hp. split; [apply model_mirrors|]. unfold indicesOk, indexOk. cbn. lia. Qed.

(** An installation of an old version. *)
Definition oldServer : Secure :=
  mkSecure {["Server/userName" := VString "root"; "Server/password" := VString "secret";
             "Server/serverName" := VString "203.0.113.9"; "Server/serverPort" := VInt 22]} ∅ "" "".

Lemma oldServer_old (w : World) : oldInstallation "root" "secret" "203.0.113.9" 22 (mkSys oldServer w).
Proof. split; [by split|]. split; [|done]. split_and!; right; by split. Qed.

End SimServers.

Import SimSecrets SimSettings SimServers.


Lemma removeServer_spec_witness :
  gives ServersOps.removeServer (λ _ s', m_servers (globals s') ≡ [JObject second] ∧ m_processedServerIndex (globals s') = m_defaultServerIndex (globals s')) (model 0).
Proof.
  eapply gives_mono; [apply (removeServer_spec (model 0) (model_mirrors 0)); cbn; lia|].
  intros [] s' (_ & H & Hp & _). by split.
Defined.


Lemma defaultContainer_installed_witness :
  gives (ServersOps.removeContainer DockerContainer.WireGuard) (λ _ s', defaultInstalled (ServersData.serverAt (globals s') 0)) (model 0).
Proof.
  assert (0 <= 0 < Z.of_nat (length servers)) as Hi by (cbn; lia).
  destruct (defaultContainer_installed OsLinux DockerContainer.WireGuard wireguard (model 0) (model_mirrors 0) Hi) as (_ & _ & H & _);
    [done|done|right; exists (JObject wireguard); split; [left|done]|exact H].
Defined.

Lemma nextAvailableServerName_spec_witness :
  gives (Servers.nextAvailableServerName 3) (λ name s', s' = settings ∧ ∃ k, 1 <= k <= 3 ∧ name = Servers.serverName k ∧
    nameUsed servers k = false ∧ ∀ j, 1 <= j < k → nameUsed servers j = true) settings.
Proof. apply (nextAvailableServerName_spec servers 1 3 settings settings_have). cbn. lia. Defined.

Lemma import_spec_witness :
  gives Servers.construct (λ _ s', (∃ l, settingsHave l 0 s' ∧ l ≡ [JObject (importedServer "root" "secret" "203.0.113.9" 22)]) ∧
    Forall (λ key, absent key s') oldKeys) (mkSys oldServer opened).
Proof.
  apply import_spec; [apply oldServer_old|apply opened_canWrite|by split].
Defined.

Lemma getDnsPair_wrong_server_witness :
  ∃ dns, ServersOps.getDnsPair 1 (model 0) = (Ok dns, model 0, []) ∧ dns = ("9.9.9.9", "149.112.112.112") ∧ dns ≠ ("8.8.8.8", "8.8.4.4").
Proof. apply (getDnsPair_wrong_server 1 (model 0)); [by vm_compute|by vm_compute|done]. Defined.

Lemma import_loses_server_witness :
  gives Servers.construct (λ _ s', Forall (λ key, absent key s') ("Servers/serversList" :: oldKeys)) (mkSys oldServer closed).
Proof.
  apply (import_loses_server "root" "secret" "203.0.113.9" 22); [apply oldServer_old|done|by repeat split].
Defined.
