(* ===== verification/PacketFilter.v ===== *)
(** * The packet filter of Linux

    What the firewall relies on: the command [iptables] (and [ip6tables]), which edits
    the chains of rules of a table, and how the kernel decides on a packet by walking
    them.  The command is an interface; [documented] states the behaviour its manual
    gives to each of its options, and the class [PacketFilterLaws] that it behaves so.
    A rule is kept as the text the program passes; [parseRule] reads the matches and
    the target in it, [traverse] is the walk. *)

From stdpp Require Import prelude strings list gmap pretty.
From Stdlib Require Import ZArith Lia Ascii.
From S2P Require Import Prelude QtJson.

Local Open Scope Z_scope.

(** ** Rules *)

Inductive Cond :=
| OutIf (inverted : bool) (name : string)    (* -o name, ! -o name *)
| Dst (net : string)                         (* -d net *)
| Proto (p : string)                         (* -p p *)
| SPort (port : string)                      (* --sport port *)
| DPort (port : string)                      (* --dport port *)
| Other (key value : string).                (* the options of the other tables *)

Fixpoint parseWords (l : list string) : option (list Cond * string) :=
  match l with
  | k :: v :: l' =>
      if String.eqb k "-j" then Some ([], v)
      else if String.eqb k "!" then
        match l' with
        | i :: l'' => if String.eqb v "-o" then prod_map (cons (OutIf true i)) id <$> parseWords l'' else None
        | [] => None
        end
      else prod_map (cons (if String.eqb k "-o" then OutIf false v else if String.eqb k "-d" then Dst v
                           else if String.eqb k "-p" then Proto v else if String.eqb k "--sport" then SPort v
                           else if String.eqb k "--dport" then DPort v else Other k v)) id <$> parseWords l'
  | _ => None
  end.

Definition parseRule (rule : string) : option (list Cond * string) := parseWords (qsplit " " rule).

(** The rule that continues in another chain. *)
Definition jump (chain : string) : string := "-j " +:+ chain.

Definition builtinTargets : list string := ["ACCEPT"; "REJECT"; "MASQUERADE"; "MARK"].

(** ** Commands *)

Inductive IptCommand :=
| NewChain (c : string)                      (* -N *)
| FlushChain (c : string)                    (* -F *)
| DeleteChain (c : string)                   (* -X *)
| AppendRule (c rule : string)               (* -A *)
| InsertRule (c rule : string)               (* -I *)
| CheckRule (c rule : string)                (* -C *)
| DeleteRule (c rule : string)               (* -D *)
| DeleteNumber (c : string) (n : nat)        (* -D with a number, counted from 1 *)
| ReplaceRule (c : string) (n : nat) (rule : string)  (* -R *)
| ListChain (c : string).                    (* -L *)

Abbreviation Chains := (gmap string (list string)).

(** The chains of a table, by their names; the commands say whether they succeeded. *)
Class PacketFilter (W : Type) := {
  iptables : bool → string → IptCommand → W → bool * W;    (* IPv6?, table *)
  chains : bool → string → W → Chains;
  destValid : bool → string → bool;                        (* a destination it understands *)
  destMatches : bool → string → Z → bool;                  (* the address belongs to it *)
}.

(** The first occurrence is taken out. *)
Fixpoint removeFirst (r : string) (l : list string) : list string :=
  match l with [] => [] | x :: l => if String.eqb x r then l else x :: removeFirst r l end.

Section Documented.
  Context {W : Type} {filter : PacketFilter W}.

Definition condValid (v6 : bool) (c : Cond) : bool := match c with Dst n => destValid v6 n | _ => true end.

(** A rule is taken if its text can be read and its target exists. *)
Definition legal (v6 : bool) (m : Chains) (rule : string) : bool :=
  match parseRule rule with
  | Some (cs, t) => forallb (condValid v6) cs && (bool_decide (t ∈ builtinTargets) || bool_decide (is_Some (m !! t)))
  | None => false
  end.

Definition referenced (c : string) (m : Chains) : bool :=
  existsb (λ kv, existsb (λ r, match parseRule r with Some (_, t) => String.eqb t c | None => false end) kv.2) (map_to_list m).

Definition edit (m : Chains) (c : string) (ok : list string → bool) (f : list string → list string) : bool * Chains :=
  match m !! c with
  | Some l => if ok l then (true, <[c := f l]> m) else (false, m)
  | None => (false, m)
  end.

Definition documented (v6 : bool) (command : IptCommand) (m : Chains) : bool * Chains :=
  match command with
  | NewChain c => if bool_decide (is_Some (m !! c)) then (false, m) else (true, <[c := []]> m)
  | FlushChain c => edit m c (λ _, true) (λ _, [])
  | DeleteChain c =>
      match m !! c with
      | Some [] => if referenced c m then (false, m) else (true, delete c m)
      | _ => (false, m)
      end
  | AppendRule c r => edit m c (λ _, legal v6 m r) (λ l, l ++ [r])
  | InsertRule c r => edit m c (λ _, legal v6 m r) (λ l, r :: l)
  | CheckRule c r => (match m !! c with Some l => bool_decide (r ∈ l) | None => false end, m)
  | DeleteRule c r => edit m c (λ l, bool_decide (r ∈ l)) (removeFirst r)
  | DeleteNumber c n => edit m c (λ l, (1 <=? n)%nat && (n <=? length l)%nat) (λ l, delete (pred n) l)
  | ReplaceRule c n r => edit m c (λ l, (1 <=? n)%nat && (n <=? length l)%nat && legal v6 m r) (λ l, <[pred n := r]> l)
  | ListChain c => (bool_decide (is_Some (m !! c)), m)
  end.

(** A command acts on its own table alone, as documented. *)
Class PacketFilterLaws : Prop := {
  iptables_result v6 t c w : (iptables v6 t c w).1 = (documented v6 c (chains v6 t w)).1;
  iptables_effect v6 t c w : chains v6 t (iptables v6 t c w).2 = (documented v6 c (chains v6 t w)).2;
  iptables_frame v6 t c w v6' t' : (v6', t') ≠ (v6, t) → chains v6' t' (iptables v6 t c w).2 = chains v6' t' w;
}.

(** ** Packets *)

Record Packet := mkPacket { p_interface : string; p_dst : Z; p_proto : string; p_sport : Z; p_dport : Z }.

Inductive Verdict := Accept | Reject.

(** A name that ends in a plus sign stands for the interfaces that begin with it. *)
Definition interfaceMatches (pattern name : string) : bool :=
  let n := (String.length pattern - 1)%nat in
  if String.eqb (String.substring n 1 pattern) "+" then String.prefix (String.substring 0 n pattern) name
  else String.eqb pattern name.

Definition condHolds (v6 : bool) (p : Packet) (c : Cond) : bool :=
  match c with
  | OutIf inv i => xorb inv (interfaceMatches i (p_interface p))
  | Dst n => destMatches v6 n (p_dst p)
  | Proto x => String.eqb x (p_proto p)
  | SPort n => String.eqb n (pretty (p_sport p))
  | DPort n => String.eqb n (pretty (p_dport p))
  | Other _ _ => false
  end.

(** Whether the rule applies to the packet, and its target. *)
Definition applies (v6 : bool) (p : Packet) (rule : string) : option string :=
  match parseRule rule with
  | Some (cs, t) => if forallb (condHolds v6 p) cs then Some t else None
  | None => None
  end.

(** The rules are tried in order; a chain that decides nothing returns to the rule after
    the jump.  [depth] bounds the jumps, which have no cycles. *)
Fixpoint traverse (depth : nat) (v6 : bool) (m : Chains) (p : Packet) (rules : list string) : option Verdict :=
  (fix go (rules : list string) : option Verdict :=
     match rules with
     | [] => None
     | r :: rules =>
         match applies v6 p r with
         | None => go rules
         | Some t =>
             if String.eqb t "ACCEPT" then Some Accept
             else if String.eqb t "REJECT" then Some Reject
             else match depth, m !! t with
                  | S d, Some l => match traverse d v6 m p l with Some x => Some x | None => go rules end
                  | _, _ => go rules
                  end
         end
     end) rules.

End Documented.

Arguments PacketFilterLaws {W} filter.

(** ** Facts *)

Section Facts.
  Context {W : Type} {filter : PacketFilter W}.

Lemma traverse_cons depth v6 m p r rules :
  traverse depth v6 m p (r :: rules) =
    match applies v6 p r with
    | None => traverse depth v6 m p rules
    | Some t =>
        if String.eqb t "ACCEPT" then Some Accept
        else if String.eqb t "REJECT" then Some Reject
        else match depth, m !! t with
             | S d, Some l => match traverse d v6 m p l with Some x => Some x | None => traverse depth v6 m p rules end
             | _, _ => traverse depth v6 m p rules
             end
    end.
Proof. by destruct depth. Qed.

Lemma traverse_nil depth v6 m p : traverse depth v6 m p [] = None.
Proof. by destruct depth. Qed.

(** A jump to a chain of the table. *)
Lemma parse_jump c : has_char " " c = false → parseRule (jump c) = Some ([], c).
Proof.
  intros Hc. unfold parseRule, jump. change ("-j " +:+ c) with ("-j" +:+ String " " c). rewrite qsplit_app by done.
  by rewrite qsplit_none.
Qed.

Lemma traverse_jump depth v6 m p c l rules : has_char " " c = false → c ≠ "ACCEPT" → c ≠ "REJECT" → m !! c = Some l →
  traverse (S depth) v6 m p (jump c :: rules) =
    match traverse depth v6 m p l with Some x => Some x | None => traverse (S depth) v6 m p rules end.
Proof.
  intros Hc Ha Hr Hl. rewrite traverse_cons. unfold applies. rewrite parse_jump by done. cbn [forallb].
  apply String.eqb_neq in Ha, Hr. by rewrite Ha, Hr, Hl.
Qed.

Lemma legal_jump v6 m c : has_char " " c = false → is_Some (m !! c) → legal v6 m (jump c) = true.
Proof.
  intros Hc Hm. unfold legal. rewrite parse_jump by done. cbn [forallb andb]. apply orb_true_iff. right.
  by apply bool_decide_eq_true.
Qed.

End Facts.
