(* ===== verification/LinuxFirewall.v ===== *)
(** * The firewall on Linux

    Models [LinuxFirewall] of [src/client/platforms/linux/daemon/linuxfirewall.cpp]: the
    kill switch as a tree of chains, [amnvpn.anchors] with one placeholder for each anchor
    and, behind an enabled placeholder, the rules of the anchor.

    The program runs shell commands; the model has the invocations of [iptables] their
    texts make, with the conditions between them.  [setupTrafficSplitting] and
    [teardownTrafficSplitting] edit control groups and routing rules and are an operation
    of the world. *)

From stdpp Require Import prelude strings list gmap pretty.
From Stdlib Require Import ZArith Lia Ascii.
From S2P Require Import Prelude QtJson PacketFilter.

Local Open Scope Z_scope.

Module IPVersion.

Inductive t := IPv4 | IPv6 | Both.

End IPVersion.

Definition kAnchorName : string := "amnvpn".
Definition kOutputChain : string := "OUTPUT".
Definition kPostRoutingChain : string := "POSTROUTING".
Definition kPreRoutingChain : string := "PREROUTING".
Definition kRootChain : string := kAnchorName +:+ ".anchors".
Definition kFilterTable : string := "filter".
Definition kNatTable : string := "nat".
Definition kRawTable : string := "raw".
Definition kMangleTable : string := "mangle".

Definition anchorChain (anchor : string) : string := kAnchorName +:+ ".a." +:+ anchor.
Definition actualChain (anchor : string) : string := kAnchorName +:+ "." +:+ anchor.

(** The traffic splitting, on or off. *)
Class Splitting (W : Type) := { splitTraffic : bool → W → W }.

(** The functions called when an anchor of a table is enabled (with [true]) or disabled:
    they set the traffic splitting up ([true]) or tear it down. *)
Record Firewall := mkFirewall { anchorCallbacks : gmap (bool * string * string) bool }.

Inductive FwEvent :=
| EvIptables (v6 : bool) (table : string) (c : IptCommand) (ok : bool)
| EvSplitting (on : bool).

Module LinuxFirewall.
Section LinuxFirewall.
  Context {W : Type} {filter : PacketFilter W} {splitting : Splitting W}.

Definition FwM (A : Type) : Type := M (Sys Firewall W) FwEvent Empty_set A.

Definition ipt (v6 : bool) (table : string) (c : IptCommand) : FwM bool :=
  ask (iptables v6 table c) (EvIptables v6 table c).

(** An operation for both versions of the protocol, with the exit codes of both. *)
Definition perVersion (ip : IPVersion.t) (f : bool → FwM bool) : FwM bool :=
  match ip with
  | IPVersion.IPv4 => f false
  | IPVersion.IPv6 => f true
  | IPVersion.Both => r4 ← f false; r6 ← f true; mret (r4 && r6)
  end.

Definition createChain (ip : IPVersion.t) (chain table : string) : FwM bool :=
  perVersion ip (λ v6,
    created ← ipt v6 table (NewChain chain);
    if created : bool then mret true else ipt v6 table (FlushChain chain)).

Definition deleteChain (ip : IPVersion.t) (chain table : string) : FwM bool :=
  perVersion ip (λ v6,
    exists_ ← ipt v6 table (ListChain chain);
    if exists_ : bool then
      flushed ← ipt v6 table (FlushChain chain);
      if flushed : bool then ipt v6 table (DeleteChain chain) else mret false
    else mret true).

(** The target column of the listing of a chain. *)
Definition targetColumn (v6 : bool) (table chain : string) : FwM (list string) :=
  gets (λ s, map (λ r, default "" (snd <$> parseRule r)) (default [] (chains v6 table (world s) !! chain))).

(** The number of the first line after the first that has the target. *)
Fixpoint laterLine (target : string) (n : nat) (l : list string) : option nat :=
  match l with
  | [] => None
  | t :: l => if (1 <? n)%nat && String.eqb t target then Some n else laterLine target (S n) l
  end.

Definition linkChain (ip : IPVersion.t) (chain parent : string) (mustBeFirst : bool) (table : string) : FwM bool :=
  perVersion ip (λ v6,
    if mustBeFirst then
      column ← targetColumn v6 table parent;
      if bool_decide (head column = Some chain) then mret true
      else
        inserted ← ipt v6 table (InsertRule parent (jump chain));
        if inserted : bool then
          column ← targetColumn v6 table parent;
          match laterLine chain 1 column with
          | Some n => ipt v6 table (DeleteNumber parent n)
          | None => mret false                      (* xargs: -D without a number *)
          end
        else mret false
    else
      linked ← ipt v6 table (CheckRule parent (jump chain));
      if linked : bool then mret true else ipt v6 table (AppendRule parent (jump chain))).

Definition unlinkChain (ip : IPVersion.t) (chain parent table : string) : FwM bool :=
  perVersion ip (λ v6,
    linked ← ipt v6 table (CheckRule parent (jump chain));
    if linked : bool then ipt v6 table (DeleteRule parent (jump chain)) else mret true).

Definition ensureRootAnchorPriority (ip : IPVersion.t) : FwM unit :=
  linkChain ip kRootChain kOutputChain true kFilterTable;; mret tt.

(** *** Anchors *)

(** [if(!anchorCallbacks.contains(key)) anchorCallbacks[key] = func] *)
Definition registerCallback (on : bool) (table anchor : string) (func : option bool) : FwM unit :=
  match func with
  | Some f => modify (λ s, mkSys (mkFirewall (match anchorCallbacks (globals s) !! (on, table, anchor) with
                                              | Some _ => anchorCallbacks (globals s)
                                              | None => <[(on, table, anchor) := f]> (anchorCallbacks (globals s))
                                              end)) (world s))
  | None => mret tt
  end.

Definition installAnchor (ip : IPVersion.t) (anchor : string) (rules : list string) (table : string)
    (enableFunc disableFunc : option bool) : FwM unit :=
  perVersion ip (λ v6,
    let ip := if v6 : bool then IPVersion.IPv6 else IPVersion.IPv4 in
    createChain ip (anchorChain anchor) table;;
    linkChain ip (anchorChain anchor) kRootChain false table;;
    registerCallback true table anchor enableFunc;;
    registerCallback false table anchor disableFunc;;
    createChain ip (actualChain anchor) table;;
    for_each rules (λ rule, ipt v6 table (AppendRule (actualChain anchor) rule);; mret tt);;
    mret true);; mret tt.

Definition uninstallAnchor (ip : IPVersion.t) (anchor table : string) : FwM unit :=
  perVersion ip (λ v6,
    let ip := if v6 : bool then IPVersion.IPv6 else IPVersion.IPv4 in
    unlinkChain ip (anchorChain anchor) kRootChain table;;
    deleteChain ip (anchorChain anchor) table;;
    deleteChain ip (actualChain anchor) table);; mret tt.

Definition enableAnchor (ip : IPVersion.t) (anchor table : string) : FwM unit :=
  perVersion ip (λ v6,
    on ← ipt v6 table (CheckRule (anchorChain anchor) (jump (actualChain anchor)));
    if on : bool then mret true else ipt v6 table (AppendRule (anchorChain anchor) (jump (actualChain anchor))));; mret tt.

Definition disableAnchor (ip : IPVersion.t) (anchor table : string) : FwM unit :=
  perVersion ip (λ v6,
    on ← ipt v6 table (CheckRule (anchorChain anchor) (jump (actualChain anchor)));
    if on : bool then ipt v6 table (FlushChain (anchorChain anchor)) else mret true);; mret tt.

Definition replaceAnchor (ip : IPVersion.t) (anchor newRule table : string) : FwM unit :=
  perVersion ip (λ v6, ipt v6 table (ReplaceRule (actualChain anchor) 1 newRule));; mret tt.

Definition isAnchorEnabled (v6 : bool) (anchor table : string) : FwM bool :=
  ipt v6 table (CheckRule (anchorChain anchor) (jump (actualChain anchor))).

Definition setSplitting (on : bool) : FwM unit := act (splitTraffic on) (EvSplitting on).

Definition setAnchorEnabled (ip : IPVersion.t) (anchor : string) (enabled : bool) (table : string) : FwM unit :=
  (if enabled then enableAnchor ip anchor table else disableAnchor ip anchor table);;
  callbacks ← gets (λ s, anchorCallbacks (globals s));
  match callbacks !! (enabled, table, anchor) with
  | Some f => setSplitting f
  | None => mret tt
  end.

(** *** Rules made at run time *)

Definition getDNSRules (servers : list string) : list string :=
  flat_map (λ server,
    ["-o amn0+ -d " +:+ server +:+ " -p udp --dport 53 -j ACCEPT"; "-o amn0+ -d " +:+ server +:+ " -p tcp --dport 53 -j ACCEPT";
     "-o tun0+ -d " +:+ server +:+ " -p udp --dport 53 -j ACCEPT"; "-o tun0+ -d " +:+ server +:+ " -p tcp --dport 53 -j ACCEPT"]) servers.
Definition getAllowRule (servers : list string) : list string := map (λ server, "-d " +:+ server +:+ " -j ACCEPT") servers.
Definition getBlockRule (servers : list string) : list string := map (λ server, "-d " +:+ server +:+ " -j REJECT") servers.

(** The common body of the three updates. *)
Definition updateRules (anchor : string) (rules : list string) : FwM unit :=
  ipt false kFilterTable (FlushChain (actualChain anchor));;
  for_each rules (λ rule, ipt false kFilterTable (AppendRule (actualChain anchor) rule);; mret tt).

Definition updateDNSServers (servers : list string) : FwM unit := updateRules "320.allowDNS" (getDNSRules servers).
Definition updateAllowNets (servers : list string) : FwM unit := updateRules "110.allowNets" (getAllowRule servers).
Definition updateBlockNets (servers : list string) : FwM unit := updateRules "120.blockNets" (getBlockRule servers).

(** *** The whole *)

Definition uninstall : FwM unit :=
  let Both := IPVersion.Both in
  unlinkChain Both kRootChain kOutputChain kFilterTable;; deleteChain Both kRootChain kFilterTable;;
  unlinkChain Both kRootChain kPreRoutingChain kRawTable;; deleteChain Both kRootChain kRawTable;;
  unlinkChain Both kRootChain kPostRoutingChain kNatTable;; deleteChain Both kRootChain kNatTable;;
  unlinkChain Both kRootChain kOutputChain kMangleTable;; deleteChain Both kRootChain kMangleTable;;
  uninstallAnchor Both "000.allowLoopback" kFilterTable;;
  uninstallAnchor Both "400.allowPIA" kFilterTable;;
  uninstallAnchor IPVersion.IPv4 "320.allowDNS" kFilterTable;;
  uninstallAnchor Both "310.blockDNS" kFilterTable;;
  uninstallAnchor Both "300.allowLAN" kFilterTable;;
  uninstallAnchor Both "290.allowDHCP" kFilterTable;;
  uninstallAnchor IPVersion.IPv6 "250.blockIPv6" kFilterTable;;
  uninstallAnchor Both "200.allowVPN" kFilterTable;;
  uninstallAnchor IPVersion.IPv4 "120.blockNets" kFilterTable;;
  uninstallAnchor IPVersion.IPv4 "110.allowNets" kFilterTable;;
  uninstallAnchor Both "100.blockAll" kFilterTable;;
  uninstallAnchor Both "100.transIp" kNatTable;;
  uninstallAnchor Both "100.tagPkts" kMangleTable;;
  uninstallAnchor Both "100.vpnTunOnly" kRawTable;;
  setSplitting false.

(** The anchors of the filter table, in the order they are installed, for each version
    of the protocol the ones it gets. *)
Definition filterAnchors : list (IPVersion.t * string * list string) :=
  [(IPVersion.Both, "000.allowLoopback", ["-o lo+ -j ACCEPT"]);
   (IPVersion.IPv4, "320.allowDNS", []);
   (IPVersion.Both, "310.blockDNS", ["-p udp --dport 53 -j REJECT"; "-p tcp --dport 53 -j REJECT"]);
   (IPVersion.IPv4, "300.allowLAN",
      ["-d 10.0.0.0/8 -j ACCEPT"; "-d 169.254.0.0/16 -j ACCEPT"; "-d 172.16.0.0/12 -j ACCEPT"; "-d 192.168.0.0/16 -j ACCEPT";
       "-d 224.0.0.0/4 -j ACCEPT"; "-d 255.255.255.255/32 -j ACCEPT"]);
   (IPVersion.IPv6, "300.allowLAN", ["-d fc00::/7 -j ACCEPT"; "-d fe80::/10 -j ACCEPT"; "-d ff00::/8 -j ACCEPT"]);
   (IPVersion.IPv4, "290.allowDHCP", ["-p udp -d 255.255.255.255 --sport 68 --dport 67 -j ACCEPT"]);
   (IPVersion.IPv6, "290.allowDHCP", ["-p udp -d ff00::/8 --sport 546 --dport 547 -j ACCEPT"]);
   (IPVersion.IPv6, "250.blockIPv6", ["! -o lo+ -j REJECT"]);
   (IPVersion.Both, "200.allowVPN", ["-o amn0+ -j ACCEPT"; "-o tun0+ -j ACCEPT"]);
   (IPVersion.IPv4, "120.blockNets", []);
   (IPVersion.IPv4, "110.allowNets", []);
   (IPVersion.Both, "100.blockAll", ["-j REJECT"])].

Definition install : FwM unit :=
  let Both := IPVersion.Both in
  uninstall;;
  createChain Both kRootChain kFilterTable;; createChain Both kRootChain kRawTable;;
  createChain Both kRootChain kNatTable;; createChain Both kRootChain kMangleTable;;
  for_each filterAnchors (λ a, installAnchor a.1.1 a.1.2 a.2 kFilterTable None None);;
  installAnchor Both "100.transIp" ["-j MASQUERADE"] kNatTable None None;;
  installAnchor Both "100.tagPkts" ["-m cgroup --cgroup 0x567 -j MARK --set-mark 0x3211"] kMangleTable (Some true) (Some false);;
  installAnchor Both "100.vpnTunOnly" ["-j ACCEPT"] kRawTable None None;;
  linkChain Both kRootChain kOutputChain true kFilterTable;;
  linkChain Both kRootChain kPostRoutingChain true kNatTable;;
  linkChain Both kRootChain kOutputChain true kMangleTable;;
  linkChain Both kRootChain kPreRoutingChain true kRawTable;;
  setSplitting true.

Definition isInstalled : FwM bool := ipt false kFilterTable (CheckRule kOutputChain (jump kRootChain)).

End LinuxFirewall.
End LinuxFirewall.

#[global] Arguments LinuxFirewall.FwM W A : clear implicits.
