(* ===== verification/LinuxFirewallSpec.v ===== *)
(** * The chains of the firewall

    What the operations of [LinuxFirewall.v] do to the filter table of each version of the
    protocol, as functions on its chains, and the invariant [Installed] they establish
    and keep: which chains there are, how they are linked, which anchors are enabled and
    which rules each has. *)

From stdpp Require Import prelude strings list gmap pretty.
From Stdlib Require Import ZArith Lia Ascii.
From S2P Require Import Prelude QtJson PacketFilter LinuxFirewall.

Local Open Scope Z_scope.

(** ** Effects on the filter table *)

Section Effects.
  Context {W : Type} {filter : PacketFilter W} {laws : PacketFilterLaws filter} {splitting : Splitting W}.
  Import LinuxFirewall.

(** The traffic splitting does not edit the filter. *)
Class SplittingLaws : Prop := { splitTraffic_frame on v6 t w : chains v6 t (splitTraffic on w) = chains v6 t w }.

Context {slaws : SplittingLaws}.

Definition table (v6 : bool) (s : Sys Firewall W) : Chains := chains v6 kFilterTable (world s).

(** The operation returns, and the chains afterwards are a function of those before. *)
Definition does {A} (m : FwM W A) (F : bool → Chains → Chains) : Prop :=
  ∀ s, gives m (λ _ s', ∀ v6, table v6 s' = F v6 (table v6 s)) s.

Lemma does_bind {A B} (m : FwM W A) (k : A → FwM W B) F G : does m F → (∀ a, does (k a) G) → does (m ≫= k) (λ v6 c, G v6 (F v6 c)).
Proof.
  intros Hm Hk s. apply gives_bind. eapply gives_mono; [apply Hm|]. intros a s' Hs. cbn beta in Hs.
  eapply gives_mono; [apply Hk|]. intros b s'' Hs' v6. by rewrite Hs', Hs.
Qed.

Lemma does_ret {A} (a : A) : does (mret a) (λ _ c, c).
Proof. intros s. by apply gives_ret. Qed.

Lemma does_ext {A} (m : FwM W A) F G : does m F → (∀ v6 c, F v6 c = G v6 c) → does m G.
Proof. intros Hm HF s. eapply gives_mono; [apply Hm|]. intros a s' Hs v6. by rewrite Hs, HF. Qed.

Lemma ipt_gives v6 t c s :
  gives (ipt v6 t c) (λ b s', b = (documented v6 c (chains v6 t (world s))).1 ∧
    chains v6 t (world s') = (documented v6 c (chains v6 t (world s))).2 ∧
    ∀ v6' t', (v6', t') ≠ (v6, t) → chains v6' t' (world s') = chains v6' t' (world s)) s.
Proof.
  apply gives_run. unfold ipt, ask. pose proof (iptables_result v6 t c (world s)) as Hr. pose proof (iptables_effect v6 t c (world s)) as He.
  pose proof (iptables_frame v6 t c (world s)) as Hf. destruct (iptables v6 t c (world s)) as [b w]. cbn in *.
  eexists b, _, _. split; [done|]. by rewrite Hr.
Qed.

(** What an operation for one version of the protocol does to its chains. *)
Definition doesFor {A} (v6 : bool) (m : FwM W A) (f : Chains → Chains) : Prop :=
  does m (λ v c, if Bool.eqb v v6 then f c else c).

(** Other tables. *)
Definition elsewhere {A} (m : FwM W A) : Prop := does m (λ _ c, c).

Lemma ipt_does v6 c : doesFor v6 (ipt v6 kFilterTable c) (λ m, (documented v6 c m).2).
Proof.
  intros s. eapply gives_mono; [apply ipt_gives|]. intros b s' (_ & He & Hf) v. unfold table. destruct (Bool.eqb_spec v v6) as [->|Hne]; [done|].
  apply Hf. congruence.
Qed.

Lemma ipt_elsewhere v6 t c : t ≠ kFilterTable → elsewhere (ipt v6 t c).
Proof. intros Ht s. eapply gives_mono; [apply ipt_gives|]. intros b s' (_ & _ & Hf) v. apply Hf. congruence. Qed.

Lemma elsewhere_bind {A B} (m : FwM W A) (k : A → FwM W B) : elsewhere m → (∀ a, elsewhere (k a)) → elsewhere (m ≫= k).
Proof. intros Hm Hk. by apply (does_ext _ _ _ (does_bind _ _ _ _ Hm Hk)). Qed.

Lemma does_then {A B} (m : FwM W A) (k : A → FwM W B) F : does m F → (∀ a, elsewhere (k a)) → does (m ≫= k) F.
Proof. intros Hm Hk. by apply (does_ext _ _ _ (does_bind _ _ _ _ Hm Hk)). Qed.

Lemma elsewhere_then {A B} (m : FwM W A) (k : A → FwM W B) F : elsewhere m → (∀ a, does (k a) F) → does (m ≫= k) F.
Proof. intros Hm Hk. by apply (does_ext _ _ _ (does_bind _ _ _ _ Hm Hk)). Qed.

(** For the versions an operation is for. *)
Definition versions (ip : IPVersion.t) (v6 : bool) : bool :=
  match ip with IPVersion.IPv4 => negb v6 | IPVersion.IPv6 => v6 | IPVersion.Both => true end.

Lemma perVersion_does ip (f : bool → FwM W bool) g : (∀ v6, doesFor v6 (f v6) (g v6)) →
  does (perVersion ip f) (λ v6 c, if versions ip v6 then g v6 c else c).
Proof.
  intros Hf. destruct ip; cbn [perVersion versions].
  - apply (does_ext _ _ _ (Hf false)). by intros [] c.
  - apply (does_ext _ _ _ (Hf true)). by intros [] c.
  - eapply does_ext; [apply does_bind; [apply Hf|]; intros r4; apply does_then; [apply Hf|]; intros r6; apply does_ret|]. by intros [] c.
Qed.

Lemma perVersion_elsewhere ip (f : bool → FwM W bool) : (∀ v6, elsewhere (f v6)) → elsewhere (perVersion ip f).
Proof. intros Hf. destruct ip; cbn [perVersion]; [auto..|]. do 2 (apply elsewhere_bind; [auto|intros]). apply does_ret. Qed.

Lemma gives_doesFor {A} v6 (m : FwM W A) f : (∀ s, gives m (λ _ s', table v6 s' = f (table v6 s) ∧ table (negb v6) s' = table (negb v6) s) s) →
  doesFor v6 m f.
Proof. intros Hm s. eapply gives_mono; [apply Hm|]. intros a s' [H1 H2] v. by destruct v, v6; cbn in *. Qed.

Lemma ipt_own v6 c s : gives (ipt v6 kFilterTable c) (λ b s', b = (documented v6 c (table v6 s)).1 ∧
  table v6 s' = (documented v6 c (table v6 s)).2 ∧ table (negb v6) s' = table (negb v6) s) s.
Proof.
  eapply gives_mono; [apply ipt_gives|]. intros b s' (Hb & He & Hf). split; [done|]. split; [done|]. apply Hf. by destruct v6.
Qed.

Lemma for_each_elsewhere {A} (l : list A) (f : A → FwM W unit) : (∀ x, elsewhere (f x)) → elsewhere (for_each l f).
Proof. intros Hf. induction l as [|x l IH]; [apply does_ret|]. by apply elsewhere_bind. Qed.

Lemma registerCallback_elsewhere on t a f : elsewhere (registerCallback on t a f : FwM W unit).
Proof. destruct f as [f|]; [|apply does_ret]. intros s. apply gives_modify. by intros v6. Qed.

Lemma setSplitting_elsewhere on : elsewhere (setSplitting on).
Proof. intros s. apply gives_run. eexists tt, _, _. split; [done|]. intros v6. apply splitTraffic_frame. Qed.

Lemma targetColumn_elsewhere v6 t c : elsewhere (targetColumn v6 t c).
Proof. intros s. by apply gives_gets. Qed.

End Effects.

Arguments SplittingLaws W {filter} splitting.

(** ** The operations as functions on chains *)

Section Functions.
  Context {W : Type} {filter : PacketFilter W}.

Definition createF (c : string) (m : Chains) : Chains := <[c := []]> m.

Definition deleteF (c : string) (m : Chains) : Chains :=
  match m !! c with Some _ => (documented false (DeleteChain c) (<[c := []]> m)).2 | None => m end.

Definition linkF (v6 : bool) (c parent : string) (m : Chains) : Chains :=
  match m !! parent with
  | Some l => if bool_decide (jump c ∈ l) then m else if legal v6 m (jump c) then <[parent := l ++ [jump c]]> m else m
  | None => m
  end.

Definition unlinkF (c parent : string) (m : Chains) : Chains :=
  match m !! parent with
  | Some l => if bool_decide (jump c ∈ l) then <[parent := removeFirst (jump c) l]> m else m
  | None => m
  end.

Definition column (l : list string) : list string := map (λ r, default "" (snd <$> parseRule r)) l.

Definition firstF (v6 : bool) (c parent : string) (m : Chains) : Chains :=
  match m !! parent with
  | Some l =>
      if bool_decide (head (column l) = Some c) then m
      else if legal v6 m (jump c) then
        <[parent := match LinuxFirewall.laterLine c 1 (column (jump c :: l)) with
                    | Some n => delete (pred n) (jump c :: l)
                    | None => jump c :: l
                    end]> m
      else m
  | None => m
  end.

Definition appendF (v6 : bool) (c : string) (m : Chains) (r : string) : Chains := (documented v6 (AppendRule c r) m).2.

Definition installAnchorF (v6 : bool) (anchor : string) (rules : list string) (m : Chains) : Chains :=
  foldl (appendF v6 (actualChain anchor))
    (createF (actualChain anchor) (linkF v6 (anchorChain anchor) kRootChain (createF (anchorChain anchor) m))) rules.

Definition uninstallAnchorF (anchor : string) (m : Chains) : Chains :=
  deleteF (actualChain anchor) (deleteF (anchorChain anchor) (unlinkF (anchorChain anchor) kRootChain m)).

Definition enableF (v6 : bool) (anchor : string) (m : Chains) : Chains := linkF v6 (actualChain anchor) (anchorChain anchor) m.

Definition disableF (anchor : string) (m : Chains) : Chains :=
  match m !! anchorChain anchor with
  | Some l => if bool_decide (jump (actualChain anchor) ∈ l) then <[anchorChain anchor := []]> m else m
  | None => m
  end.

Definition updateRulesF (anchor : string) (rules : list string) (m : Chains) : Chains :=
  foldl (appendF false (actualChain anchor)) (documented false (FlushChain (actualChain anchor)) m).2 rules.

End Functions.

Section Operations.
  Context {W : Type} {filter : PacketFilter W} {laws : PacketFilterLaws filter} {splitting : Splitting W} {slaws : SplittingLaws W splitting}.
  Import LinuxFirewall.

Lemma createChain_does ip c : does (createChain ip c kFilterTable) (λ v6 m, if versions ip v6 then createF c m else m).
Proof.
  apply (perVersion_does ip _ (λ _, createF c)). intros v6. apply gives_doesFor. intros s. apply gives_bind.
  eapply gives_mono; [apply ipt_own|]. cbn [documented]. intros b s' (-> & Hs & Ho). destruct (bool_decide_reflect (is_Some (table v6 s !! c))) as [[l Hl]|Hn]; cbn [fst snd] in *.
  - eapply gives_mono; [apply ipt_own|]. cbn [documented]. intros b s'' (_ & Hs' & Ho'). rewrite Hs', Ho', Hs. unfold edit. by rewrite Hl.
  - by apply gives_ret.
Qed.

Lemma deleteChain_does ip c : does (deleteChain ip c kFilterTable) (λ v6 m, if versions ip v6 then deleteF c m else m).
Proof.
  apply (perVersion_does ip _ (λ _, deleteF c)). intros v6. apply gives_doesFor. intros s. apply gives_bind.
  eapply gives_mono; [apply ipt_own|]. cbn [documented]. intros b s1 (-> & Hs1 & Ho1). cbn [fst snd] in *. unfold deleteF.
  destruct (table v6 s !! c) as [l|] eqn:Hl.
  - rewrite bool_decide_true by done. apply gives_bind. eapply gives_mono; [apply ipt_own|]. intros b s2 (-> & Hs2 & Ho2).
    cbn [documented] in *. unfold edit in *. rewrite Hs1, Hl in *. cbn [fst snd] in *.
    eapply gives_mono; [apply ipt_own|]. intros b s3 (_ & Hs3 & Ho3). rewrite Hs3, Hs2, Ho3, Ho2. by split.
  - rewrite bool_decide_false by (intros [??]; congruence). by apply gives_ret.
Qed.

Lemma linkChain_does ip c parent :
  does (linkChain ip c parent false kFilterTable) (λ v6 m, if versions ip v6 then linkF v6 c parent m else m).
Proof.
  apply (perVersion_does ip _ (λ v6, linkF v6 c parent)). intros v6. apply gives_doesFor. intros s. cbn [negb]. apply gives_bind.
  eapply gives_mono; [apply ipt_own|]. cbn [documented fst snd]. intros b s1 (-> & Hs1 & Ho1). unfold linkF.
  destruct (table v6 s !! parent) as [l|] eqn:Hl.
  - destruct (bool_decide (jump c ∈ l)); [by apply gives_ret|]. eapply gives_mono; [apply ipt_own|]. intros b s2 (_ & Hs2 & Ho2).
    rewrite Hs2, Ho2, Hs1. cbn [documented]. unfold edit. rewrite Hl. by destruct (legal _ _ _).
  - eapply gives_mono; [apply ipt_own|]. intros b s2 (_ & Hs2 & Ho2). rewrite Hs2, Ho2, Hs1. cbn [documented]. unfold edit. by rewrite Hl.
Qed.

Lemma unlinkChain_does ip c parent :
  does (unlinkChain ip c parent kFilterTable) (λ v6 m, if versions ip v6 then unlinkF c parent m else m).
Proof.
  apply (perVersion_does ip _ (λ _, unlinkF c parent)). intros v6. apply gives_doesFor. intros s. apply gives_bind.
  eapply gives_mono; [apply ipt_own|]. cbn [documented fst snd]. intros b s1 (-> & Hs1 & Ho1). unfold unlinkF.
  destruct (table v6 s !! parent) as [l|] eqn:Hl; [|by apply gives_ret].
  destruct (bool_decide (jump c ∈ l)) eqn:Hin; [|by apply gives_ret]. eapply gives_mono; [apply ipt_own|]. intros b s2 (_ & Hs2 & Ho2).
  rewrite Hs2, Ho2, Hs1. cbn [documented]. unfold edit. by rewrite Hl, Hin.
Qed.

Lemma laterLine_bounds t k l n : laterLine t k l = Some n → (k <= n < k + length l)%nat.
Proof.
  revert k. induction l as [|x l IH]; intros k; cbn; [done|]. destruct (_ && _); [intros [= ->]; lia|]. intros Hn%IH. lia.
Qed.

Lemma firstChain_does ip c parent :
  does (linkChain ip c parent true kFilterTable) (λ v6 m, if versions ip v6 then firstF v6 c parent m else m).
Proof.
  apply (perVersion_does ip _ (λ v6, firstF v6 c parent)). intros v6. apply gives_doesFor. intros s. cbn [negb].
  apply gives_bind, gives_gets. fold (table v6 s). fold (column (default [] (table v6 s !! parent))). unfold firstF.
  destruct (table v6 s !! parent) as [l|] eqn:Hl.
  - change (default [] (Some l)) with l. destruct (bool_decide (head (column l) = Some c)); [by apply gives_ret|]. apply gives_bind.
    eapply gives_mono; [apply ipt_own|]. cbn [documented]. unfold edit. rewrite Hl. intros b s1 (-> & Hs1 & Ho1).
    destruct (legal v6 (table v6 s) (jump c)); cbn [fst snd] in *; [|by apply gives_ret].
    apply gives_bind, gives_gets. change (chains v6 kFilterTable (world s1)) with (table v6 s1). rewrite Hs1, lookup_insert_eq.
    change (map _ (default [] (Some (jump c :: l)))) with (column (jump c :: l)). destruct (laterLine c 1 (column (jump c :: l))) as [n|] eqn:Hn; [|by apply gives_ret].
    eapply gives_mono; [apply ipt_own|]. intros b s2 (_ & Hs2 & Ho2). rewrite Hs2, Ho2, Hs1. cbn [documented]. unfold edit.
    rewrite lookup_insert_eq. assert ((1 <=? n)%nat && (n <=? length (jump c :: l))%nat = true) as ->.
    { apply laterLine_bounds in Hn. unfold column in Hn. rewrite length_map in Hn. apply andb_true_iff. split; apply Nat.leb_le; lia. }
    cbn [snd]. by rewrite insert_insert_eq.
  - change (default [] None) with (@nil string). cbn [column map head]. rewrite bool_decide_false by done. apply gives_bind.
    eapply gives_mono; [apply ipt_own|]. cbn [documented]. unfold edit. rewrite Hl. intros b s1 (-> & Hs1 & Ho1). by apply gives_ret.
Qed.

Lemma append_does v6 c rules : doesFor v6 (for_each rules (λ r, ipt v6 kFilterTable (AppendRule c r);; mret tt)) (λ m, foldl (appendF v6 c) m rules).
Proof.
  induction rules as [|r rules IH]; cbn [for_each foldl].
  - eapply does_ext; [apply does_ret|]. intros v m. by destruct (Bool.eqb v v6).
  - eapply does_ext; [apply does_bind; [apply does_then; [apply ipt_does|intros; apply does_ret]|intros; apply IH]|].
    intros v m. cbn beta. by destruct (Bool.eqb v v6).
Qed.

(** A version inside an operation for several. *)
Definition one (v6 : bool) : IPVersion.t := if v6 then IPVersion.IPv6 else IPVersion.IPv4.
Lemma versions_one v6 v : versions (one v6) v = Bool.eqb v v6.
Proof. by destruct v6, v. Qed.

Lemma one_doesFor {A} v6 (m : FwM W A) (f : bool → Chains → Chains) : does m (λ v c, if versions (one v6) v then f v c else c) → doesFor v6 m (f v6).
Proof. intros Hm. eapply does_ext; [apply Hm|]. intros v c. cbn beta. rewrite versions_one. by destruct (Bool.eqb_spec v v6) as [->|]. Qed.

Lemma doesFor_bind {A B} v6 (m : FwM W A) (k : A → FwM W B) f g : doesFor v6 m f → (∀ a, doesFor v6 (k a) g) → doesFor v6 (m ≫= k) (λ c, g (f c)).
Proof. intros Hm Hk. eapply does_ext; [by apply does_bind|]. intros v c. cbn beta. by destruct (Bool.eqb v v6). Qed.

Lemma doesFor_then {A B} v6 (m : FwM W A) (k : A → FwM W B) f : doesFor v6 m f → (∀ a, elsewhere (k a)) → doesFor v6 (m ≫= k) f.
Proof. apply does_then. Qed.

Lemma doesFor_after {A B} v6 (m : FwM W A) (k : A → FwM W B) f : elsewhere m → (∀ a, doesFor v6 (k a) f) → doesFor v6 (m ≫= k) f.
Proof. apply elsewhere_then. Qed.

Lemma createChain_one v6 c : doesFor v6 (createChain (one v6) c kFilterTable) (createF c).
Proof. apply (one_doesFor v6 _ (λ _, createF c)), createChain_does. Qed.

Lemma deleteChain_one v6 c : doesFor v6 (deleteChain (one v6) c kFilterTable) (deleteF c).
Proof. apply (one_doesFor v6 _ (λ _, deleteF c)), deleteChain_does. Qed.

Lemma installAnchor_does ip a rules e d :
  does (installAnchor ip a rules kFilterTable e d) (λ v6 m, if versions ip v6 then installAnchorF v6 a rules m else m).
Proof.
  apply does_then; [|intros; apply does_ret]. apply (perVersion_does ip _ (λ v6, installAnchorF v6 a rules)). intros v6. cbv zeta.
  eapply does_ext.
  - eapply doesFor_bind; [apply createChain_one|intros _].
    eapply doesFor_bind; [apply (one_doesFor v6 _ (λ v, linkF v (anchorChain a) kRootChain)), linkChain_does|intros _].
    do 2 (eapply doesFor_after; [apply registerCallback_elsewhere|intros _]).
    eapply doesFor_bind; [apply createChain_one|intros _].
    eapply doesFor_then; [apply append_does|intros; apply does_ret].
  - done.
Qed.

Lemma uninstallAnchor_does ip a : does (uninstallAnchor ip a kFilterTable) (λ v6 m, if versions ip v6 then uninstallAnchorF a m else m).
Proof.
  apply does_then; [|intros; apply does_ret]. apply (perVersion_does ip _ (λ _, uninstallAnchorF a)). intros v6. cbv zeta. eapply does_ext.
  - eapply doesFor_bind; [apply (one_doesFor v6 _ (λ _, unlinkF (anchorChain a) kRootChain)), unlinkChain_does|intros _].
    eapply doesFor_bind; [apply deleteChain_one|intros _]. apply deleteChain_one.
  - done.
Qed.

Lemma enableAnchor_does ip a : does (enableAnchor ip a kFilterTable) (λ v6 m, if versions ip v6 then enableF v6 a m else m).
Proof. apply does_then; [|intros; apply does_ret]. apply (linkChain_does ip (actualChain a) (anchorChain a)). Qed.

Lemma disableAnchor_does ip a : does (disableAnchor ip a kFilterTable) (λ v6 m, if versions ip v6 then disableF a m else m).
Proof.
  apply does_then; [|intros; apply does_ret]. apply (perVersion_does ip _ (λ _, disableF a)). intros v6. apply gives_doesFor. intros s. apply gives_bind.
  eapply gives_mono; [apply ipt_own|]. cbn [documented fst snd]. intros b s1 (-> & Hs1 & Ho1). unfold disableF.
  destruct (table v6 s !! anchorChain a) as [l|] eqn:Hl; [|by apply gives_ret].
  destruct (bool_decide _); [|by apply gives_ret]. eapply gives_mono; [apply ipt_own|]. intros b s2 (_ & Hs2 & Ho2).
  rewrite Hs2, Ho2, Hs1. cbn [documented]. unfold edit. by rewrite Hl.
Qed.

Lemma setAnchorEnabled_does ip a (b : bool) :
  does (setAnchorEnabled ip a b kFilterTable) (λ v6 m, if versions ip v6 then (if b then enableF v6 a m else disableF a m) else m).
Proof.
  apply does_then.
  - destruct b; [apply enableAnchor_does|apply disableAnchor_does].
  - intros []. apply elsewhere_bind; [intros s; by apply gives_gets|]. intros cb. destruct (cb !! _); [apply setSplitting_elsewhere|apply does_ret].
Qed.

Lemma updateRules_does a rules : does (updateRules a rules) (λ v6 m, if v6 then m else updateRulesF a rules m).
Proof.
  eapply does_ext; [apply (doesFor_bind false _ _ (λ m, (documented false (FlushChain (actualChain a)) m).2) (λ m, foldl (appendF false (actualChain a)) m rules));
    [apply ipt_does|intros _; apply append_does]|]. by intros [] m.
Qed.

(** *** Operations on the other tables *)

Lemma createChain_elsewhere ip c t : t ≠ kFilterTable → elsewhere (createChain ip c t).
Proof. intros Ht. apply perVersion_elsewhere. intros v6. apply elsewhere_bind; [by apply ipt_elsewhere|]. intros []; [apply does_ret|by apply ipt_elsewhere]. Qed.

Lemma deleteChain_elsewhere ip c t : t ≠ kFilterTable → elsewhere (deleteChain ip c t).
Proof.
  intros Ht. apply perVersion_elsewhere. intros v6. apply elsewhere_bind; [by apply ipt_elsewhere|]. intros []; [|apply does_ret].
  apply elsewhere_bind; [by apply ipt_elsewhere|]. intros []; [by apply ipt_elsewhere|apply does_ret].
Qed.

Lemma linkChain_elsewhere ip c parent b t : t ≠ kFilterTable → elsewhere (linkChain ip c parent b t).
Proof.
  intros Ht. apply perVersion_elsewhere. intros v6. destruct b.
  - apply elsewhere_bind; [apply targetColumn_elsewhere|]. intros col. destruct (bool_decide _); [apply does_ret|].
    apply elsewhere_bind; [by apply ipt_elsewhere|]. intros []; [|apply does_ret]. apply elsewhere_bind; [apply targetColumn_elsewhere|]. intros col'.
    destruct (laterLine _ _ _); [by apply ipt_elsewhere|apply does_ret].
  - apply elsewhere_bind; [by apply ipt_elsewhere|]. intros []; [apply does_ret|by apply ipt_elsewhere].
Qed.

Lemma unlinkChain_elsewhere ip c parent t : t ≠ kFilterTable → elsewhere (unlinkChain ip c parent t).
Proof. intros Ht. apply perVersion_elsewhere. intros v6. apply elsewhere_bind; [by apply ipt_elsewhere|]. intros []; [by apply ipt_elsewhere|apply does_ret]. Qed.

Lemma installAnchor_elsewhere ip a rules t e d : t ≠ kFilterTable → elsewhere (installAnchor ip a rules t e d).
Proof.
  intros Ht. apply elsewhere_bind; [|intros; apply does_ret]. apply perVersion_elsewhere. intros v6. cbv zeta.
  apply elsewhere_bind; [by apply createChain_elsewhere|intros _]. apply elsewhere_bind; [by apply linkChain_elsewhere|intros _].
  do 2 (apply elsewhere_bind; [apply registerCallback_elsewhere|intros _]). apply elsewhere_bind; [by apply createChain_elsewhere|intros _].
  apply elsewhere_bind; [|intros; apply does_ret]. apply for_each_elsewhere. intros r. apply elsewhere_bind; [by apply ipt_elsewhere|intros; apply does_ret].
Qed.

Lemma uninstallAnchor_elsewhere ip a t : t ≠ kFilterTable → elsewhere (uninstallAnchor ip a t).
Proof.
  intros Ht. apply elsewhere_bind; [|intros; apply does_ret]. apply perVersion_elsewhere. intros v6. cbv zeta.
  apply elsewhere_bind; [by apply unlinkChain_elsewhere|intros _]. apply elsewhere_bind; [by apply deleteChain_elsewhere|intros _].
  by apply deleteChain_elsewhere.
Qed.

End Operations.

(** ** Names *)

(** The names of the anchors begin with a digit and have no spaces. *)
Definition goodName (x : string) : bool :=
  match x with String c _ => (48 <=? Ascii.nat_of_ascii c)%nat && (Ascii.nat_of_ascii c <=? 57)%nat && negb (has_char " " x) | EmptyString => false end.

Lemma anchor_inj x y : anchorChain x = anchorChain y → x = y.
Proof. unfold anchorChain, kAnchorName. cbn. intros [= H]. exact H. Qed.

Lemma actual_inj x y : actualChain x = actualChain y → x = y.
Proof. unfold actualChain, kAnchorName. cbn. intros [= H]. exact H. Qed.

Lemma anchor_actual x y : goodName y = true → anchorChain x ≠ actualChain y.
Proof. unfold anchorChain, actualChain. intros Hy [= H]. by subst y. Qed.

Lemma root_actual y : goodName y = true → actualChain y ≠ kRootChain.
Proof. unfold actualChain, kRootChain. intros Hy [= H]. by subst y. Qed.

Lemma root_anchor x : anchorChain x ≠ kRootChain.
Proof. unfold anchorChain, kRootChain. done. Qed.

Lemma output_own x : anchorChain x ≠ kOutputChain ∧ actualChain x ≠ kOutputChain ∧ kRootChain ≠ kOutputChain.
Proof. done. Qed.

Lemma goodName_space x : goodName x = true → has_char " " x = false.
Proof. destruct x as [|c x]; [done|]. unfold goodName. intros [_ H]%andb_prop. by apply negb_true_iff. Qed.

Lemma anchor_space x : goodName x = true → has_char " " (anchorChain x) = false.
Proof. intros H%goodName_space. unfold anchorChain. by rewrite !has_char_app, H. Qed.

Lemma actual_space x : goodName x = true → has_char " " (actualChain x) = false.
Proof. intros H%goodName_space. unfold actualChain. by rewrite !has_char_app, H. Qed.

Lemma jump_inj c c' : jump c = jump c' → c = c'.
Proof. unfold jump. cbn. intros [= H]. exact H. Qed.

(** ** The invariant *)

Section Invariant.
  Context {W : Type} {filter : PacketFilter W}.

(** The root chain leads to the anchors in order; an enabled anchor leads to its rules. *)
Definition linked (names : list string) (en : string → bool) (rl : string → list string) (m : Chains) : Prop :=
  m !! kRootChain = Some (map (λ x, jump (anchorChain x)) names) ∧
  ∀ x, x ∈ names → m !! anchorChain x = Some (if en x then [jump (actualChain x)] else []) ∧ m !! actualChain x = Some (rl x).

(** A rule that is always taken: one that accepts or rejects. *)
Definition plainRule (v6 : bool) (r : string) : bool :=
  match parseRule r with Some (cs, t) => forallb (condValid v6) cs && (String.eqb t "ACCEPT" || String.eqb t "REJECT") | None => false end.

(** Rules that accept or reject: the ones whose destinations are understood are taken,
    the others are refused and left out. *)
Definition decides (r : string) : bool :=
  match parseRule r with Some (_, t) => String.eqb t "ACCEPT" || String.eqb t "REJECT" | None => false end.

Lemma legal_decides v6 m r : decides r = true → legal v6 m r = plainRule v6 r.
Proof.
  unfold decides, plainRule, legal. destruct (parseRule r) as [[cs t]|]; [|done]. intros Ht. rewrite Ht. f_equal.
  apply orb_true_iff in Ht as [Ht%String.eqb_eq|Ht%String.eqb_eq]; by rewrite Ht.
Qed.

Lemma plain_decides v6 r : plainRule v6 r = true → decides r = true.
Proof. unfold decides, plainRule. destruct (parseRule r) as [[cs t]|]; [|done]. by intros [_ ?]%andb_prop. Qed.

Lemma append_decides v6 c rules : Forall (λ r, decides r = true) rules → ∀ m l, m !! c = Some l →
  foldl (appendF v6 c) m rules = <[c := l ++ List.filter (plainRule v6) rules]> m.
Proof.
  induction 1 as [|r rules Hr _ IH]; intros m l Hl; cbn [foldl List.filter]; [by rewrite app_nil_r, insert_id|].
  unfold appendF at 2. cbn [documented]. unfold edit. rewrite Hl, (legal_decides v6 m r Hr). destruct (plainRule v6 r); cbn [snd]; [|by apply IH].
  rewrite (IH _ (l ++ [r])) by apply lookup_insert_eq. by rewrite insert_insert_eq, <- app_assoc.
Qed.

Lemma append_plain v6 c rules : Forall (λ r, plainRule v6 r = true) rules → ∀ m l, m !! c = Some l →
  foldl (appendF v6 c) m rules = <[c := l ++ rules]> m.
Proof.
  intros Hr m l Hl. rewrite (append_decides v6 c rules) with (l := l); [|eapply Forall_impl; [exact Hr|apply plain_decides]|done].
  do 2 f_equal. induction Hr as [|r rules Hx _ IH]; cbn; [done|]. by rewrite Hx, IH.
Qed.

Lemma installAnchorF_run v6 x rules m l : goodName x = true → Forall (λ r, plainRule v6 r = true) rules →
  m !! kRootChain = Some l → jump (anchorChain x) ∉ l →
  installAnchorF v6 x rules m = <[actualChain x := rules]> (<[kRootChain := l ++ [jump (anchorChain x)]]> (<[anchorChain x := []]> m)).
Proof.
  intros Hx Hr Hl Hin. unfold installAnchorF, createF, linkF. rewrite lookup_insert_ne by apply root_anchor. rewrite Hl, bool_decide_false by done.
  rewrite legal_jump; [|by apply anchor_space|rewrite lookup_insert_eq; by eexists].
  rewrite (append_plain _ _ _ Hr _ []) by apply lookup_insert_eq. by rewrite insert_insert_eq.
Qed.

Lemma installAnchorF_linked v6 x rules names en rl m : goodName x = true → Forall (λ y, goodName y = true) names →
  Forall (λ r, plainRule v6 r = true) rules → x ∉ names → linked names en rl m →
  linked (names ++ [x]) (λ y, negb (String.eqb y x) && en y) (λ y, if String.eqb y x then rules else rl y) (installAnchorF v6 x rules m).
Proof.
  intros Hx Hn Hr Hin [Hroot Hl]. rewrite (installAnchorF_run v6 x rules m _ Hx Hr Hroot); last first.
  { intros (y & Heq%jump_inj%anchor_inj & Hy)%list_elem_of_fmap. by subst y. }
  split; [rewrite lookup_insert_ne by (by apply root_actual); rewrite lookup_insert_eq; by rewrite map_app|].
  intros y [Hy|Hy%list_elem_of_singleton]%elem_of_app.
  - assert (y ≠ x) as Hyx by (by intros ->). apply String.eqb_neq in Hyx as Hyx'. rewrite Hyx'. cbn [negb andb].
    rewrite Forall_forall in Hn. specialize (Hn y Hy). destruct (Hl y Hy) as [H1 H2]. split.
    + rewrite !lookup_insert_ne; [done|by intros ?%anchor_inj|apply not_eq_sym, root_anchor|by apply not_eq_sym, anchor_actual].
    + rewrite !lookup_insert_ne; [done|by apply anchor_actual|by apply not_eq_sym, root_actual|by intros ?%actual_inj].
  - subst y. rewrite String.eqb_refl. cbn [negb andb]. split; [|apply lookup_insert_eq].
    rewrite lookup_insert_ne by (by apply not_eq_sym, anchor_actual). rewrite lookup_insert_ne by apply not_eq_sym, root_anchor. apply lookup_insert_eq.
Qed.

Lemma installAnchorF_output v6 x rules m : installAnchorF v6 x rules m !! kOutputChain = m !! kOutputChain.
Proof.
  unfold installAnchorF. assert (∀ m', foldl (appendF v6 (actualChain x)) m' rules !! kOutputChain = m' !! kOutputChain) as ->.
  { induction rules as [|r rules IH]; intros m'; [done|]. cbn [foldl]. rewrite IH. unfold appendF. cbn [documented]. unfold edit.
    destruct (m' !! actualChain x); [|done]. destruct (legal _ _ _); [|done]. cbn [snd]. by rewrite lookup_insert_ne. }
  unfold createF. rewrite lookup_insert_ne by done. unfold linkF. rewrite lookup_insert_ne by apply root_anchor.
  destruct (m !! kRootChain); [|by rewrite lookup_insert_ne]. destruct (bool_decide _); [by rewrite lookup_insert_ne|].
  destruct (legal _ _ _); by rewrite !lookup_insert_ne.
Qed.

(** Enabling, disabling and replacing the rules of an anchor. *)
Lemma enableF_linked v6 x names en rl m : goodName x = true → Forall (λ y, goodName y = true) names → x ∈ names → linked names en rl m →
  linked names (λ y, String.eqb y x || en y) rl (enableF v6 x m).
Proof.
  intros Hx Hn Hin [Hroot Hl]. destruct (Hl x Hin) as [Hax Hcx]. unfold enableF, linkF. rewrite Hax. rewrite Forall_forall in Hn.
  assert (∀ y, y ∈ names → en x = true → (if String.eqb y x || en y then [jump (actualChain y)] else []) = if en y then [jump (actualChain y)] else []) as Hen.
  { intros y _ Hex. destruct (String.eqb_spec y x) as [->|]; [by rewrite Hex|done]. }
  destruct (en x) eqn:Hex.
  - rewrite bool_decide_true by left. split; [done|]. intros y Hy. rewrite Hen by done. by apply Hl.
  - rewrite bool_decide_false by (intros H; by apply elem_of_nil in H). rewrite legal_jump; [|by apply actual_space|rewrite Hcx; by eexists].
    split; [by rewrite lookup_insert_ne by apply root_anchor|]. intros y Hy. destruct (Hl y Hy) as [H1 H2].
    rewrite (lookup_insert_ne _ _ (actualChain y)) by (by apply anchor_actual, Hn). split; [|done].
    destruct (String.eqb_spec y x) as [->|Hne]; [by rewrite lookup_insert_eq|]. rewrite lookup_insert_ne by (by intros ?%anchor_inj). done.
Qed.

Lemma disableF_linked x names en rl m : goodName x = true → Forall (λ y, goodName y = true) names → x ∈ names → linked names en rl m →
  linked names (λ y, negb (String.eqb y x) && en y) rl (disableF x m).
Proof.
  intros Hx Hn Hin [Hroot Hl]. destruct (Hl x Hin) as [Hax Hcx]. unfold disableF. rewrite Hax. rewrite Forall_forall in Hn. destruct (en x) eqn:Hex.
  - rewrite bool_decide_true by left. split; [by rewrite lookup_insert_ne by apply root_anchor|]. intros y Hy. destruct (Hl y Hy) as [H1 H2].
    rewrite (lookup_insert_ne _ _ (actualChain y)) by (by apply anchor_actual, Hn). split; [|done].
    destruct (String.eqb_spec y x) as [->|Hne]; [by rewrite lookup_insert_eq|]. rewrite lookup_insert_ne by (by intros ?%anchor_inj). done.
  - rewrite bool_decide_false by (intros H; by apply elem_of_nil in H). split; [done|]. intros y Hy. destruct (Hl y Hy) as [H1 H2]. split; [|done].
    rewrite H1. destruct (String.eqb_spec y x) as [->|]; [by rewrite Hex|done].
Qed.

Lemma updateRulesF_linked x rules names en rl m : goodName x = true → Forall (λ y, goodName y = true) names → x ∈ names →
  Forall (λ r, decides r = true) rules → linked names en rl m →
  linked names en (λ y, if String.eqb y x then List.filter (plainRule false) rules else rl y) (updateRulesF x rules m).
Proof.
  intros Hx Hn Hin Hr [Hroot Hl]. destruct (Hl x Hin) as [Hax Hcx]. rewrite Forall_forall in Hn.
  unfold updateRulesF. cbn [documented]. unfold edit. rewrite Hcx. cbn [snd]. rewrite (append_decides _ _ _ Hr _ []) by apply lookup_insert_eq.
  rewrite insert_insert_eq. split; [by rewrite lookup_insert_ne by (by apply root_actual)|]. intros y Hy. destruct (Hl y Hy) as [H1 H2].
  rewrite (lookup_insert_ne _ _ (anchorChain y)) by (by apply not_eq_sym, anchor_actual). split; [done|].
  destruct (String.eqb_spec y x) as [->|Hne]; [by rewrite lookup_insert_eq|]. rewrite lookup_insert_ne by (by intros ?%actual_inj). done.
Qed.

End Invariant.

(** ** The chains of others *)

(** The chains of the firewall. *)
Definition own (c : string) : bool := String.prefix "amnvpn." c.

Section Others.
  Context {W : Type} {filter : PacketFilter W} {laws : PacketFilterLaws filter} {splitting : Splitting W} {slaws : SplittingLaws W splitting}.
  Import LinuxFirewall.

(** An operation that leaves the chains of others alone. *)
Definition sameOthers (f : Chains → Chains) : Prop := ∀ m k, own k = false → f m !! k = m !! k.
Definition quiet {A} (m : FwM W A) : Prop := ∃ F, does m F ∧ ∀ v6, sameOthers (F v6).

Lemma quiet_then {A B} (m : FwM W A) (k : A → FwM W B) : quiet m → (∀ a, does (k a) (λ _ c, c)) → quiet (m ≫= k).
Proof. intros (F & Hm & HF) Hk. exists F. split; [by apply does_then|done]. Qed.

Lemma quiet_seq {A B} (m : FwM W A) (k : FwM W B) : quiet m → quiet k → quiet (m;; k).
Proof.
  intros (F & Hm & HF) (G & Hk & HG). exists (λ v6 c, G v6 (F v6 c)). split; [by apply does_bind|]. intros v6 c x Hx. by rewrite HG, HF.
Qed.

Lemma quiet_elsewhere {A} (m : FwM W A) : elsewhere m → quiet m.
Proof. intros Hm. by exists (λ _ c, c). Qed.

Lemma quiet_versions {A} (m : FwM W A) ip f : does m (λ v6 c, if versions ip v6 then f v6 c else c) → (∀ v6, sameOthers (f v6)) → quiet m.
Proof. intros Hm Hf. eexists. split; [exact Hm|]. intros v6 c k Hk. cbn beta. destruct (versions ip v6); [by apply Hf|done]. Qed.

Lemma own_ne c k : own c = true → own k = false → c ≠ k.
Proof. congruence. Qed.

Lemma own_chain x : own (anchorChain x) = true ∧ own (actualChain x) = true.
Proof. split; unfold anchorChain, actualChain, own, kAnchorName; cbn; by destruct x. Qed.

Lemma own_anchor x : own (anchorChain x) = true.
Proof. apply own_chain. Qed.
Lemma own_actual x : own (actualChain x) = true.
Proof. apply own_chain. Qed.

Lemma createF_others c : own c = true → sameOthers (createF c).
Proof. intros Hc m k Hk. unfold createF. by rewrite lookup_insert_ne by (by apply own_ne). Qed.

Lemma deleteF_others c : own c = true → sameOthers (deleteF c).
Proof.
  intros Hc m k Hk. pose proof (own_ne _ _ Hc Hk) as Hne. unfold deleteF. destruct (m !! c); [|done]. cbn [documented]. rewrite lookup_insert_eq.
  destruct (referenced _ _); cbn [snd]; [by rewrite lookup_insert_ne|]. by rewrite lookup_delete_ne, lookup_insert_ne.
Qed.

Lemma linkF_others v6 c parent : own parent = true → sameOthers (linkF v6 c parent).
Proof.
  intros Hc m k Hk. pose proof (own_ne _ _ Hc Hk) as Hne. unfold linkF. destruct (m !! parent); [|done]. destruct (bool_decide _); [done|].
  destruct (legal _ _ _); [|done]. by rewrite lookup_insert_ne.
Qed.

Lemma unlinkF_others c parent : own parent = true → sameOthers (unlinkF c parent).
Proof.
  intros Hc m k Hk. pose proof (own_ne _ _ Hc Hk) as Hne. unfold unlinkF. destruct (m !! parent); [|done]. destruct (bool_decide _); [|done].
  by rewrite lookup_insert_ne.
Qed.

Lemma append_others v6 c rules : own c = true → sameOthers (λ m, foldl (appendF v6 c) m rules).
Proof.
  intros Hc. induction rules as [|r rules IH]; intros m k Hk; [done|]. cbn [foldl]. rewrite IH by done. unfold appendF. cbn [documented]. unfold edit.
  destruct (m !! c); [|done]. destruct (legal _ _ _); [|done]. cbn [snd]. by rewrite lookup_insert_ne by (by apply own_ne).
Qed.

Lemma uninstallAnchor_quiet ip a : quiet (uninstallAnchor ip a kFilterTable).
Proof.
  eapply (quiet_versions _ ip (λ _, uninstallAnchorF a)); [apply uninstallAnchor_does|]. intros v6 m k Hk. unfold uninstallAnchorF.
  rewrite deleteF_others, deleteF_others, unlinkF_others; [done|done|done|apply own_anchor|done|apply own_actual|done].
Qed.

Lemma disableF_others a : sameOthers (disableF a).
Proof.
  intros m k Hk. unfold disableF. destruct (m !! anchorChain a); [|done]. destruct (bool_decide _); [|done].
  by rewrite lookup_insert_ne by (apply own_ne; [apply own_anchor|done]).
Qed.

Lemma updateRulesF_others a rules : sameOthers (updateRulesF a rules).
Proof.
  intros m k Hk. unfold updateRulesF. rewrite (append_others false (actualChain a) rules (own_actual a)) by done. cbn [documented]. unfold edit.
  destruct (m !! actualChain a); [|done]. cbn [snd]. by rewrite lookup_insert_ne by (apply own_ne; [apply own_actual|done]).
Qed.

Lemma setAnchorEnabled_quiet ip a b : quiet (setAnchorEnabled ip a b kFilterTable).
Proof.
  eapply (quiet_versions _ ip (λ v6 m, if b then enableF v6 a m else disableF a m)); [apply setAnchorEnabled_does|]. intros v6 m k Hk.
  destruct b; [by apply linkF_others; [apply own_anchor|]|by apply disableF_others].
Qed.

Lemma updateRules_quiet a rules : quiet (updateRules a rules).
Proof. eexists. split; [apply updateRules_does|]. intros v6 m k Hk. destruct v6; [done|by apply updateRulesF_others]. Qed.

Lemma deleteChain_quiet ip c : own c = true → quiet (deleteChain ip c kFilterTable).
Proof. intros Hc. eapply (quiet_versions _ ip (λ _, deleteF c)); [apply deleteChain_does|]. intros v6. by apply deleteF_others. Qed.

Ltac quiet_step :=
  first [ apply uninstallAnchor_quiet | by apply quiet_elsewhere, uninstallAnchor_elsewhere
        | by apply deleteChain_quiet | by apply quiet_elsewhere, deleteChain_elsewhere | by apply quiet_elsewhere, unlinkChain_elsewhere
        | apply quiet_elsewhere, setSplitting_elsewhere | apply setAnchorEnabled_quiet | apply updateRules_quiet | apply quiet_seq ].

(** Uninstalling takes the link out of the output chain and leaves the chains of others. *)
Lemma uninstall_others s : gives uninstall (λ _ s', ∀ v6 k, own k = false → table v6 s' !! k = unlinkF kRootChain kOutputChain (table v6 s) !! k) s.
Proof.
  unfold uninstall. cbv zeta. apply gives_bind. eapply gives_mono; [apply unlinkChain_does|]. intros b s1 H1. cbn [versions] in H1.
  match goal with |- gives ?m _ _ => assert (quiet m) as (F & HF & Hq) by (repeat quiet_step) end.
  eapply gives_mono; [apply HF|]. intros [] s2 H2 v6 k Hk. by rewrite H2, Hq, H1.
Qed.

End Others.

(** ** Installing *)

(** The destinations the rules of the program have. *)
Definition fixedNets (v6 : bool) : list string :=
  if v6 then ["fc00::/7"; "fe80::/10"; "ff00::/8"]
  else ["10.0.0.0/8"; "169.254.0.0/16"; "172.16.0.0/12"; "192.168.0.0/16"; "224.0.0.0/4"; "255.255.255.255/32"; "255.255.255.255"].

(** The command understands networks in this notation. *)
Class DestLaws {W} (filter : PacketFilter W) : Prop := { fixed_valid v6 n : n ∈ fixedNets v6 → destValid v6 n = true }.

Definition anchorsFor (v6 : bool) : list (IPVersion.t * string * list string) :=
  List.filter (λ a, versions a.1.1 v6) LinuxFirewall.filterAnchors.
Definition anchorNames (v6 : bool) : list string := map (λ a, a.1.2) (anchorsFor v6).
Definition initialRules (v6 : bool) (x : string) : list string :=
  match find (λ a, String.eqb a.1.2 x) (anchorsFor v6) with Some a => a.2 | None => [] end.

Lemma anchorNames_good v6 : Forall (λ x, goodName x = true) (anchorNames v6).
Proof. destruct v6; by repeat constructor. Qed.

Section Install.
  Context {W : Type} {filter : PacketFilter W} {laws : PacketFilterLaws filter} {dlaws : DestLaws filter}
    {splitting : Splitting W} {slaws : SplittingLaws W splitting}.
  Import LinuxFirewall.

(** The firewall is in place, before the rules [out] the output chain had. *)
Definition Installed (v6 : bool) (out : list string) (en : string → bool) (rl : string → list string) (m : Chains) : Prop :=
  m !! kOutputChain = Some (jump kRootChain :: out) ∧ linked (anchorNames v6) en rl m.

Lemma linked_ext names en rl en' rl' m : linked names en rl m → Forall (λ x, en x = en' x ∧ rl x = rl' x) names → linked names en' rl' m.
Proof. intros [H1 H2] Hext. rewrite Forall_forall in Hext. split; [done|]. intros x Hx. destruct (Hext x Hx) as [<- <-]. by apply H2. Qed.

(** No rule leads to the firewall. *)
Definition unlinked (out : list string) : Prop := Forall (λ r, (snd <$> parseRule r) ≠ Some kRootChain) out.

Lemma unlinked_jump out : unlinked out → jump kRootChain ∉ out.
Proof. unfold unlinked. rewrite Forall_forall. intros H Hin. apply (H _ Hin). by vm_compute. Qed.

Lemma laterLine_none t k l : Forall (λ x, x ≠ t) l → laterLine t k l = None.
Proof. intros H. revert k. induction H as [|x l Hx _ IH]; intros k; cbn; [done|]. apply String.eqb_neq in Hx. by rewrite Hx, andb_false_r, IH. Qed.

Lemma unlinked_column out : unlinked out → Forall (λ x, x ≠ kRootChain) (column out).
Proof.
  unfold unlinked, column. rewrite Forall_map. intros H. eapply Forall_impl; [exact H|]. intros r Hr Heq. apply Hr. destruct (parseRule r) as [[cs t]|]; [|done].
  cbn in *. by rewrite Heq.
Qed.

Lemma firstF_output v6 m out : is_Some (m !! kRootChain) → m !! kOutputChain = Some out → unlinked out →
  firstF v6 kRootChain kOutputChain m = <[kOutputChain := jump kRootChain :: out]> m.
Proof.
  intros Hroot Hout Hun. pose proof (unlinked_column out Hun) as Hcol. unfold firstF. rewrite Hout. rewrite bool_decide_false; last first.
  { destruct (column out) as [|x l]; [done|]. apply Forall_cons in Hcol as [Hx _]. cbn. intros [= ->]. done. }
  rewrite legal_jump by done. cbn [column map]. fold (column out). rewrite parse_jump by done. cbn.
  by rewrite laterLine_none.
Qed.

Lemma fixed_plain v6 x : x ∈ anchorNames v6 → Forall (λ r, plainRule v6 r = true) (initialRules v6 x).
Proof.
  assert (∀ n, n ∈ fixedNets v6 → destValid v6 n = true) as Hv by apply fixed_valid.
  intros Hx. destruct v6; cbn in Hx; repeat (apply elem_of_cons in Hx as [->|Hx]; [repeat constructor; unfold plainRule;
    match goal with |- match parseRule ?r with _ => _ end = _ => let p := eval vm_compute in (parseRule r) in change (parseRule r) with p end;
    cbn; rewrite ?Hv by (apply (bool_decide_unpack _); vm_compute; exact I); reflexivity|]); by apply elem_of_nil in Hx.
Qed.

Definition installAnchorsF (v6 : bool) (l : list (IPVersion.t * string * list string)) (m : Chains) : Chains :=
  foldl (λ m a, if versions a.1.1 v6 then installAnchorF v6 a.1.2 a.2 m else m) m l.

Lemma installAnchors_does l :
  does (for_each l (λ a, installAnchor a.1.1 a.1.2 a.2 kFilterTable None None)) (λ v6 m, installAnchorsF v6 l m).
Proof.
  induction l as [|a l IH]; cbn [for_each]; [apply does_ret|]. eapply does_ext; [apply does_bind; [apply installAnchor_does|intros _; apply IH]|]. done.
Qed.

Lemma installAnchorsF_output v6 l m : installAnchorsF v6 l m !! kOutputChain = m !! kOutputChain.
Proof.
  revert m. induction l as [|a l IH]; intros m; [done|]. unfold installAnchorsF in *. cbn [foldl]. rewrite IH.
  destruct (versions _ _); [apply installAnchorF_output|done].
Qed.

Lemma installAnchorsF_linked v6 l : NoDup (map (λ a, a.1.2) (List.filter (λ a, versions a.1.1 v6) l)) →
  Forall (λ a, versions a.1.1 v6 = true → goodName a.1.2 = true ∧ Forall (λ r, plainRule v6 r = true) a.2) l →
  ∀ names en rl m, Forall (λ x, goodName x = true) names → (∀ x, x ∈ names → x ∉ map (λ a, a.1.2) (List.filter (λ a, versions a.1.1 v6) l)) →
  linked names en rl m →
  linked (names ++ map (λ a, a.1.2) (List.filter (λ a, versions a.1.1 v6) l))
    (λ x, bool_decide (x ∈ names) && en x)
    (λ x, match find (λ a, String.eqb a.1.2 x) (List.filter (λ a, versions a.1.1 v6) l) with Some a => a.2 | None => rl x end)
    (installAnchorsF v6 l m).
Proof.
  induction l as [|a l IH]; intros Hnd Hl names en rl m Hg Hdis Hlk.
  - cbn. rewrite app_nil_r. eapply linked_ext; [exact Hlk|]. apply Forall_forall. intros x Hx. by rewrite bool_decide_true.
  - apply Forall_cons in Hl as [Ha Hl]. unfold installAnchorsF. cbn [foldl List.filter] in *. destruct (versions a.1.1 v6) eqn:Hv; [|by apply IH].
    destruct (Ha eq_refl) as [Hgood Hplain]. cbn [map] in *. apply NoDup_cons in Hnd as [Hni Hnd].
    assert (a.1.2 ∉ names) as Hna by (intros Hin; apply (Hdis _ Hin); left).
    pose proof (installAnchorF_linked v6 a.1.2 a.2 names en rl m Hgood Hg Hplain Hna Hlk) as Hlk'.
    change (a.1.2 :: ?l) with ([a.1.2] ++ l). rewrite app_assoc.
    assert (Forall (λ x, goodName x = true) (names ++ [a.1.2])) as Hg' by (apply Forall_app; split; [done|by constructor]).
    eapply linked_ext; [refine (IH Hnd Hl _ _ _ _ Hg' _ Hlk')|].
    { intros x [Hx|Hx%list_elem_of_singleton]%elem_of_app; [intros Hin; apply (Hdis x Hx); by right|by subst x]. }
    apply Forall_forall. intros x Hx. cbn [find]. split.
    + destruct (String.eqb_spec x a.1.2) as [->|Hne]; cbn [negb andb]; [by rewrite andb_false_r, (bool_decide_false (a.1.2 ∈ names))|].
        do 2 f_equal. apply bool_decide_ext. rewrite elem_of_app, list_elem_of_singleton. naive_solver.
    + rewrite (String.eqb_sym x). destruct (String.eqb_spec a.1.2 x) as [<-|Hne]; [|done].
        destruct (find _ _) as [b|] eqn:Hf; [|done]. apply find_some in Hf as [Hb%list_elem_of_In Heq%String.eqb_eq].
        destruct Hni. rewrite <- Heq. apply list_elem_of_fmap. by exists b.
Qed.

(** Every anchor of the program, in a new root chain. *)
Lemma listed_anchor v6 a : a ∈ filterAnchors → versions a.1.1 v6 = true → a.1.2 ∈ anchorNames v6 ∧ initialRules v6 a.1.2 = a.2.
Proof.
  intros Ha Hv. unfold filterAnchors in Ha. destruct v6;
    repeat (apply elem_of_cons in Ha as [->|Ha]; [try done; (split; [apply (bool_decide_unpack _); vm_compute; exact I|reflexivity])|]);
    by apply elem_of_nil in Ha.
Qed.

Lemma fresh_linked v6 m : linked (anchorNames v6) (λ _, false) (initialRules v6) (installAnchorsF v6 filterAnchors (createF kRootChain m)).
Proof.
  eapply linked_ext; [apply (installAnchorsF_linked v6 filterAnchors) with (names := []) (en := λ _, false) (rl := λ _, [])|];
    [destruct v6; apply (bool_decide_unpack _); vm_compute; exact I| |constructor|by intros x Hx%elem_of_nil| |].
  - apply Forall_forall. intros a Ha Hv. destruct (listed_anchor v6 a Ha Hv) as [Hin <-].
    split; [|by apply fixed_plain]. pose proof (anchorNames_good v6) as Hg. rewrite Forall_forall in Hg. by apply Hg.
  - split; [unfold createF; by rewrite lookup_insert_eq|]. by intros x Hx%elem_of_nil.
  - apply Forall_forall. intros x _. split; [by rewrite andb_false_r|done].
Qed.

Lemma installAnchorF_others v6 x rules : sameOthers (installAnchorF v6 x rules).
Proof.
  intros m k Hk. unfold installAnchorF. rewrite append_others by (done || apply own_actual). rewrite createF_others by (done || apply own_actual).
  rewrite linkF_others by done. by rewrite createF_others by (done || apply own_anchor).
Qed.

Lemma installAnchorsF_others v6 l : sameOthers (installAnchorsF v6 l).
Proof.
  induction l as [|a l IH]; intros m k Hk; [done|]. unfold installAnchorsF in *. cbn [foldl]. rewrite IH by done.
  destruct (versions a.1.1 v6); [by apply installAnchorF_others|done].
Qed.

Lemma unlinkF_ne c parent m k : k ≠ parent → unlinkF c parent m !! k = m !! k.
Proof. intros Hk. unfold unlinkF. destruct (m !! parent); [|done]. destruct (bool_decide _); [by rewrite lookup_insert_ne|done]. Qed.

(** Installing from a state in which the output chains do not lead to the firewall. *)
Lemma install_gives s : gives install (λ _ s', ∀ v6 out, table v6 s !! kOutputChain = Some out → unlinked out →
  Installed v6 out (λ _, false) (initialRules v6) (table v6 s') ∧
  ∀ k, own k = false → k ≠ kOutputChain → table v6 s' !! k = table v6 s !! k) s.
Proof.
  unfold install. cbv zeta. apply gives_bind. eapply gives_mono; [apply uninstall_others|]. intros [] s1 H1.
  apply gives_bind. eapply gives_mono; [apply createChain_does|]. intros b2 s2 H2. cbn [versions] in H2.
  do 3 (apply gives_bind; eapply gives_mono; [by apply createChain_elsewhere|]; intros ? ? ?).
  apply gives_bind. eapply gives_mono; [apply installAnchors_does|]. intros [] s6 H6.
  do 3 (apply gives_bind; eapply gives_mono; [by apply installAnchor_elsewhere|]; intros [] ? ?).
  apply gives_bind. eapply gives_mono; [apply firstChain_does|]. intros b s10 H10. cbn [versions] in H10.
  do 3 (apply gives_bind; eapply gives_mono; [by apply linkChain_elsewhere|]; intros ? ? ?).
  eapply gives_mono; [apply setSplitting_elsewhere|]. intros [] s14 H14 v6 out Hout Hun.
  cbv beta in *. repeat match goal with H : ∀ v6, table v6 _ = _ |- _ => specialize (H v6) end.
  specialize (H1 v6). assert (table v6 s1 !! kOutputChain = Some out) as Ho.
  { rewrite H1 by done. unfold unlinkF. rewrite Hout. by rewrite bool_decide_false by (by apply unlinked_jump). }
  pose proof (fresh_linked v6 (table v6 s1)) as Hlk.
  repeat match goal with H : table v6 _ = _ |- _ => rewrite H; clear H end.
  rewrite (firstF_output v6 _ out); [|rewrite (proj1 Hlk); by eexists|rewrite installAnchorsF_output; unfold createF; by rewrite lookup_insert_ne|done].
  split; last first.
  { intros k Hk Hne. rewrite lookup_insert_ne, installAnchorsF_others, createF_others, H1 by done. by apply unlinkF_ne. }
  split; [apply lookup_insert_eq|]. destruct Hlk as [Hr Ha]. split; [by rewrite lookup_insert_ne|]. intros x Hx. destruct (Ha x Hx) as [E1 E2].
  by rewrite !lookup_insert_ne.
Qed.

End Install.
