(* ===== verification/WireguardLinux.v ===== *)
(** * The tunnel of the daemon on Linux

    Models [WireguardUtilsLinux] and [LinuxRouteMonitor] of
    [src/client/platforms/linux/daemon/]: the tunnel process, the commands sent to it
    over its socket, the routes sent to the kernel and the kill switch.

    The class [LinuxHost] is what they run against: the process, the socket, the netlink
    socket, the interface table.  Two loops wait for the tunnel with a timer; [timerPasses]
    is the number of passes they make before it fires, so they are recursive on it.  Events
    that arrive while they wait are not dispatched to other handlers in the model. *)

From stdpp Require Import prelude strings list gmap pretty.
From Stdlib Require Import ZArith Lia Ascii.
From S2P Require Import Prelude JsRuntime IPAddress QtJson InterfaceConfig Daemon PacketFilter LinuxFirewall.

Local Open Scope Z_scope.

(** ** Netlink messages *)

(** The family, prefix length and address of [wg_allowedip]. *)
Record AllowedIp := mkAllowedIp { a_family : Protocol; a_cidr : Z; a_addr : QHostAddress }.

(** [struct nlmsghdr] with its [struct rtmsg] and its attributes. *)
Record NlMsg := mkNlMsg {
  nlmsg_len : Z; nlmsg_type : Z; nlmsg_flags : Z; nlmsg_seq : Z;
  rtm_family : Protocol; rtm_dst_len : Z; rtm_type : Z;
  rta_list : list (Z * string);
}.

Definition RTM_NEWROUTE : Z := 24.
Definition RTM_DELROUTE : Z := 25.
Definition NLM_F_REQUEST : Z := 1.
Definition NLM_F_ACK : Z := 4.
Definition NLM_F_REPLACE : Z := 256.
Definition NLM_F_CREATE : Z := 1024.
Definition RTN_UNICAST : Z := 1.
Definition RTN_THROW : Z := 9.
Definition RTA_DST : Z := 1.
Definition RTA_OIF : Z := 4.
Definition RTA_GATEWAY : Z := 5.
Definition RTA_PRIORITY : Z := 6.

(** The sizes of the kernel's headers: [struct nlmsghdr] has 16 bytes, [struct rtmsg] 12,
    [struct rtattr] 4; all are aligned to 4. *)
Definition align4 (n : Z) : Z := Z.land (n + 3) (Z.lnot 3).
Definition RTA_SPACE (n : Z) : Z := align4 (4 + n).
Definition NLMSG_SPACE (n : Z) : Z := align4 (16 + n).
Definition rtm_max_size : Z := 12 + 2 * RTA_SPACE 4 + RTA_SPACE 16.

(** An attribute that does not fit is left out. *)
Definition nlmsg_append_attr (nlmsg : NlMsg) (maxlen attrtype : Z) (attrdata : string) (attrlen : Z) : NlMsg :=
  let newlen := align4 (nlmsg_len nlmsg) + RTA_SPACE attrlen in
  if newlen <=? maxlen then
    mkNlMsg newlen (nlmsg_type nlmsg) (nlmsg_flags nlmsg) (nlmsg_seq nlmsg) (rtm_family nlmsg) (rtm_dst_len nlmsg) (rtm_type nlmsg)
      (rta_list nlmsg ++ [(attrtype, attrdata)])
  else nlmsg.

Definition nlmsg_append_attr32 (nlmsg : NlMsg) (maxlen attrtype value : Z) : NlMsg :=
  nlmsg_append_attr nlmsg maxlen attrtype (pretty value) 4.

(** [inet_pton] reads the text of every address of its family. *)
Definition buildAllowedIp (prefix : IPAddress) : option AllowedIp :=
  match protocol (address prefix) with
  | UnknownProtocol => None
  | p => Some (mkAllowedIp p (prefixLength prefix) (address prefix))
  end.

(** ** The host *)

Inductive ProcessState := NotRunning | Starting | Running.

Inductive HostOp :=
| MakeRuntimeDir
| StartTunnel                       (* start, and whether waitForStarted succeeded *)
| KillTunnel
| TerminateTunnel                   (* terminate, and whether it finished in time *)
| WaitFinished
| RemoveNameFile
| ProcessEvents
| ConnectSocket (name : string)
| WriteSocket (message : string)
| SendRoute (m : NlMsg)
| OtherCall (c : Call).             (* IPUtilsLinux, DnsUtilsLinux *)

Class LinuxHost (W : Type) := {
  hostOp : HostOp → W → bool * W;
  readAll : W → string * W;
  tunnelState : W → ProcessState;
  timerPasses : W → nat;
  if_nametoindex : string → W → Z;
  getGatewayAndIface : W → string;
}.

(** The host's other services leave the packet filter alone. *)
Class LinuxHostLaws (W : Type) {filter : PacketFilter W} (host : LinuxHost W) : Prop := {
  hostOp_frame o v6 t w : chains v6 t (hostOp o w).2 = chains v6 t w;
  readAll_frame v6 t w : chains v6 t (readAll w).2 = chains v6 t w;
}.

(** Keys and numbers in texts: [QByteArray]'s and [QString]'s conversions. *)
Class WgCodec := {
  base64ToHex : string → string;    (* fromBase64, then toHex *)
  hexToBase64 : string → string;    (* fromHex, then toBase64 *)
  textToDouble : string → Z;        (* toDouble, as a qint64 *)
  textToLongLong : string → Z;
}.

(** The members; the firewall's map of callbacks is static. *)
Record WgUtils := mkWgUtils {
  wg_firewall : Firewall;
  m_ifname : QString;
  m_rtmonitor : option Z;           (* its [m_nlseq] *)
}.

Inductive WgEvent := EvFirewall (e : FwEvent) | EvHost (o : HostOp) (ok : bool).

Record FirewallParams := mkParams {
  dnsServers : list string; allowAddrs : list string; blockAddrs : list string;
  blockAll : bool; allowNets : bool; blockNets : bool;
}.

(** ** Texts *)

Definition newlines : string := nl +:+ nl.

(** [QString::contains], [QByteArray::endsWith] *)
Fixpoint hasText (t s : string) : bool :=
  String.prefix t s || match s with "" => false | String _ s => hasText t s end.
Definition endsWithText (t s : string) : bool :=
  (String.length t <=? String.length s)%nat &&
  String.eqb (String.substring (String.length s - String.length t) (String.length t) s) t.

(** [while (!message.endsWith("\n\n")) message.append('\n')] *)
Definition terminate (message : string) : string :=
  if endsWithText newlines message then message
  else if endsWithText newlines (message +:+ nl) then message +:+ nl
  else message +:+ nl +:+ nl.

(** The name and value of a line, by the first equality sign after its start. *)
Fixpoint cutAt (c : ascii) (s : string) : option (string * string) :=
  match s with
  | "" => None
  | String d s => if Ascii.eqb c d then Some ("", s) else prod_map (String d) id <$> cutAt c s
  end.
Definition nameValue (l : string) : option (string * string) :=
  match cutAt "=" l with Some ("", _) => None | r => r end.

Definition uapi_lines (reply : QString) : list string := qsplit (Ascii.ascii_of_nat 10) (qtext reply).

Definition EINVAL : Z := 22.

Module WireguardUtilsLinux.
Section WireguardUtilsLinux.
  Context {W : Type} {filter : PacketFilter W} {splitting : Splitting W} {host : LinuxHost W} {codec : WgCodec} {env : QtEnv}.

Definition WgM (A : Type) : Type := M (Sys WgUtils W) WgEvent Empty_set A.

Definition firewall {A} (m : LinuxFirewall.FwM W A) : WgM A := λ s,
  let '(r, s', t) := m (mkSys (wg_firewall (globals s)) (world s)) in
  (r, mkSys (mkWgUtils (globals s') (m_ifname (globals s)) (m_rtmonitor (globals s))) (world s'), map EvFirewall t).

Definition doHost (o : HostOp) : WgM bool := ask (hostOp o) (EvHost o).
Definition setIfname (n : QString) : WgM unit :=
  modify (λ s, mkSys (mkWgUtils (wg_firewall (globals s)) n (m_rtmonitor (globals s))) (world s)).
Definition setMonitor (m : option Z) : WgM unit :=
  modify (λ s, mkSys (mkWgUtils (wg_firewall (globals s)) (m_ifname (globals s)) m) (world s)).

(** *** [LinuxRouteMonitor] *)

Definition WG_INTERFACE : string := "amn0".

Definition rtmSendRoute (action flags type : Z) (prefix : IPAddress) : WgM bool :=
  match buildAllowedIp prefix with
  | None => mret false
  | Some ip =>
      m ← gets (λ s, m_rtmonitor (globals s));
      let seq := default 0 m in
      let maxlen := NLMSG_SPACE rtm_max_size in
      let addrlen := match a_family ip with IPv6Protocol => 16 | _ => 4 end in
      setMonitor (Some (seq + 1));;
      let msg := mkNlMsg (16 + 12) action flags seq (a_family ip) (a_cidr ip) type [] in
      let msg := nlmsg_append_attr msg maxlen RTA_DST (addressText (a_addr ip)) addrlen in
      let send (msg : NlMsg) := doHost (SendRoute msg) in
      if type =? RTN_UNICAST then
        index ← query (if_nametoindex WG_INTERFACE);
        if index <=? 0 then mret false
        else send (nlmsg_append_attr32 (nlmsg_append_attr32 msg maxlen RTA_OIF index) maxlen RTA_PRIORITY 1)
      else if type =? RTN_THROW then
        gateway ← query getGatewayAndIface;
        let msg := nlmsg_append_attr32 (nlmsg_append_attr msg maxlen RTA_GATEWAY gateway 4) maxlen RTA_PRIORITY 0 in
        send (mkNlMsg (nlmsg_len msg) (nlmsg_type msg) (nlmsg_flags msg) (nlmsg_seq msg) (rtm_family msg) (rtm_dst_len msg) RTN_UNICAST (rta_list msg))
      else send msg
  end.

Definition newFlags : Z := Z.lor (Z.lor NLM_F_REQUEST NLM_F_CREATE) (Z.lor NLM_F_REPLACE NLM_F_ACK).
Definition delFlags : Z := Z.lor NLM_F_REQUEST NLM_F_ACK.

Definition insertRoute (prefix : IPAddress) : WgM bool := rtmSendRoute RTM_NEWROUTE newFlags RTN_UNICAST prefix.
Definition deleteRoute (prefix : IPAddress) : WgM bool := rtmSendRoute RTM_DELROUTE delFlags RTN_UNICAST prefix.
Definition monitorAddExclusion (prefix : IPAddress) : WgM bool := rtmSendRoute RTM_NEWROUTE newFlags RTN_THROW prefix.
Definition monitorDeleteExclusion (prefix : IPAddress) : WgM bool := rtmSendRoute RTM_DELROUTE delFlags RTN_THROW prefix.

(** [if (!m_rtmonitor) return false; ...] *)
Definition withMonitor (k : WgM bool) : WgM bool :=
  m ← gets (λ s, m_rtmonitor (globals s));
  match m with Some _ => k | None => mret false end.

Definition ip (text : string) : IPAddress := fromString parseAddress parseSubnet text.

Definition andThen (a b : WgM bool) : WgM bool := r ← a; if r : bool then b else mret false.

Definition updateRoutePrefix (prefix : IPAddress) : WgM bool :=
  withMonitor (
    if 0 <? prefixLength prefix then insertRoute prefix
    else match protocol (address prefix) with
         | IPv4Protocol => andThen (insertRoute (ip "0.0.0.0/1")) (insertRoute (ip "128.0.0.0/1"))
         | IPv6Protocol => andThen (insertRoute (ip "::/1")) (insertRoute (ip "8000::/1"))
         | UnknownProtocol => mret false
         end).

(** A prefix longer than 0 is inserted here as well. *)
Definition deleteRoutePrefix (prefix : IPAddress) : WgM bool :=
  withMonitor (
    if 0 <? prefixLength prefix then insertRoute prefix
    else match protocol (address prefix) with
         | IPv4Protocol => andThen (deleteRoute (ip "0.0.0.0/1")) (deleteRoute (ip "128.0.0.0/1"))
         | IPv6Protocol => andThen (deleteRoute (ip "::/1")) (deleteRoute (ip "8000::/1"))
         | UnknownProtocol => mret false
         end).

Definition addExclusionRoute (prefix : IPAddress) : WgM bool := withMonitor (monitorAddExclusion prefix).
Definition deleteExclusionRoute (prefix : IPAddress) : WgM bool := withMonitor (monitorDeleteExclusion prefix).

(** *** The commands of the tunnel *)

Fixpoint waitForTunnelName (passes : nat) : WgM QString :=
  match passes with
  | O => mret None
  | S passes =>
      state ← query tunnelState;
      match state with
      | Running =>
          doHost ProcessEvents;;
          ok ← doHost (ConnectSocket (WG_INTERFACE +:+ ".sock"));
          if ok : bool then mret (Some WG_INTERFACE) else waitForTunnelName passes
      | _ => mret None
      end
  end.

Definition readChunk : WgM string := λ s,
  let '(c, w) := readAll (world s) in (Ok c, mkSys (globals s) w, []).

Fixpoint readReply (passes : nat) (reply : string) : WgM QString :=
  if hasText newlines reply then mret (Some (js_trim reply))
  else match passes with
       | O => mret None
       | S passes => doHost ProcessEvents;; chunk ← readChunk; readReply passes (reply +:+ chunk)
       end.

Definition uapiCommand (command : string) : WgM QString :=
  name ← gets (λ s, m_ifname (globals s));
  passes ← query timerPasses;
  ok ← doHost (ConnectSocket (qtext name +:+ ".sock"));
  if ok : bool then doHost (WriteSocket (terminate command));; readReply passes "" else mret None.

Definition uapiErrno (reply : QString) : Z :=
  (fix go (l : list string) : Z :=
     match l with
     | [] => EINVAL
     | line :: l => match nameValue line with
                    | Some (n, v) => if String.eqb n "errno" then textToInt v else go l
                    | None => go l
                    end
     end) (uapi_lines reply).

(** One line of the answer to [get=1]. *)
Definition peerLine (st : PeerStatus * list PeerStatus) (line : string) : PeerStatus * list PeerStatus :=
  let '(status, peerList) := st in
  match nameValue line with
  | None => st
  | Some (name, value) =>
      if String.eqb name "public_key" then
        (mkPeer (Some (hexToBase64 value)) 0 0 0, if String.eqb (qtext (m_pubkey status)) "" then peerList else peerList ++ [status])
      else if String.eqb name "tx_bytes" then (mkPeer (m_pubkey status) (m_handshake status) (m_rxBytes status) (textToDouble value), peerList)
      else if String.eqb name "rx_bytes" then (mkPeer (m_pubkey status) (m_handshake status) (textToDouble value) (m_txBytes status), peerList)
      else if String.eqb name "last_handshake_time_sec" then
        (mkPeer (m_pubkey status) (m_handshake status + textToLongLong value * 1000) (m_rxBytes status) (m_txBytes status), peerList)
      else if String.eqb name "last_handshake_time_nsec" then
        (mkPeer (m_pubkey status) (m_handshake status + Z.quot (textToLongLong value) 1000000) (m_rxBytes status) (m_txBytes status), peerList)
      else st
  end.

Definition parsePeers (reply : QString) : list PeerStatus :=
  let '(status, peerList) := foldl peerLine (mkPeer None 0 0 0, []) (uapi_lines reply) in
  if String.eqb (qtext (m_pubkey status)) "" then peerList else peerList ++ [status].

Definition getPeerStatus : WgM (list PeerStatus) :=
  reply ← uapiCommand "get=1";
  mret (parsePeers reply).

(** *** The kill switch *)

Definition applyFirewallRules (params : FirewallParams) : WgM unit :=
  firewall (
    let enable ip anchor b := LinuxFirewall.setAnchorEnabled ip anchor b kFilterTable in
    installed ← LinuxFirewall.isInstalled;
    when (negb installed) LinuxFirewall.install;;
    LinuxFirewall.ensureRootAnchorPriority IPVersion.Both;;
    enable IPVersion.Both "000.allowLoopback" true;;
    enable IPVersion.Both "100.blockAll" (blockAll params);;
    enable IPVersion.IPv4 "110.allowNets" (allowNets params);;
    LinuxFirewall.updateAllowNets (allowAddrs params);;
    enable IPVersion.IPv4 "120.blockNets" (blockNets params);;
    LinuxFirewall.updateBlockNets (blockAddrs params);;
    enable IPVersion.IPv4 "200.allowVPN" true;;
    enable IPVersion.IPv6 "250.blockIPv6" true;;
    enable IPVersion.Both "290.allowDHCP" true;;
    enable IPVersion.Both "300.allowLAN" true;;
    enable IPVersion.IPv4 "310.blockDNS" true;;
    LinuxFirewall.updateDNSServers (dnsServers params);;
    enable IPVersion.IPv4 "320.allowDNS" true;;
    enable IPVersion.Both "400.allowPIA" true).

(** The parameters [addInterface] computes. *)
Definition firewallParams (config : InterfaceConfig) : FirewallParams :=
  let dns := [qtext (m_dnsServer config)] in
  if bool_decide (ip "0.0.0.0/0" ∈ m_allowedIPAddressRanges config) then
    mkParams dns (m_excludedAddresses config) [] true (negb (bool_decide (m_excludedAddresses config = []))) false
  else mkParams dns [] (map ip_toString (m_allowedIPAddressRanges config)) false false true.

(** *** Interface and peers *)

Definition optPair (key : string) (v : QString) : string :=
  if String.eqb (qtext v) "" then "" else key +:+ "=" +:+ qtext v +:+ nl.

Definition interfaceMessage (config : InterfaceConfig) : string :=
  "set=1" +:+ nl +:+
  "private_key=" +:+ base64ToHex (qtext (m_privateKey config)) +:+ nl +:+
  "replace_peers=true" +:+ nl +:+
  optPair "jc" (m_junkPacketCount config) +:+
  optPair "jmin" (m_junkPacketMinSize config) +:+
  optPair "jmax" (m_junkPacketMaxSize config) +:+
  optPair "s1" (m_initPacketJunkSize config) +:+
  optPair "s2" (m_responsePacketJunkSize config) +:+
  optPair "h1" (m_initPacketMagicHeader config) +:+
  optPair "h2" (m_responsePacketMagicHeader config) +:+
  optPair "h3" (m_underloadPacketMagicHeader config) +:+
  optPair "h4" (m_transportPacketMagicHeader config).

Definition addInterface (config : InterfaceConfig) : WgM bool :=
  state ← query tunnelState;
  match state with
  | NotRunning =>
      doHost MakeRuntimeDir;;
      started ← doHost StartTunnel;
      if started : bool then
        passes ← query timerPasses;
        name ← waitForTunnelName passes;
        setIfname name;;
        match name with
        | None => doHost KillTunnel;; mret false
        | Some _ =>
            setMonitor (Some 0);;
            reply ← uapiCommand (interfaceMessage config);
            let err := uapiErrno reply in
            when ((err =? 0) && m_killSwitchEnabled config) (applyFirewallRules (firewallParams config));;
            mret (err =? 0)
        end
      else doHost KillTunnel;; mret false
  | _ => mret false
  end.

Definition deleteInterface : WgM bool :=
  setMonitor None;;
  state ← query tunnelState;
  match state with
  | NotRunning => mret false
  | _ =>
      finished ← doHost TerminateTunnel;
      when (negb finished) (doHost KillTunnel;; doHost WaitFinished;; mret tt);;
      doHost RemoveNameFile;;
      firewall LinuxFirewall.uninstall;;
      mret true
  end.

Definition peerExclusions (config : InterfaceConfig) (f : IPAddress → WgM bool) : WgM unit :=
  m ← gets (λ s, m_rtmonitor (globals s));
  match m_hopType config, m with
  | MultiHopExit, _ | _, None => mret tt
  | _, Some _ => f (ip (qtext (m_serverIpv4AddrIn config)));; f (ip (qtext (m_serverIpv6AddrIn config)));; mret tt
  end.

(** The endpoint, if there is one. *)
Definition endpoint (config : InterfaceConfig) : option string :=
  match m_serverIpv4AddrIn config, m_serverIpv6AddrIn config with
  | Some a, _ => Some (a +:+ ":")
  | None, Some a => Some ("[" +:+ a +:+ "]:")
  | None, None => None
  end.

Definition peerMessage (config : InterfaceConfig) (where_ : string) : string :=
  "set=1" +:+ nl +:+
  "public_key=" +:+ base64ToHex (qtext (m_serverPublicKey config)) +:+ nl +:+
  (match m_serverPskKey config with Some k => "preshared_key=" +:+ base64ToHex k +:+ nl | None => "" end) +:+
  "endpoint=" +:+ where_ +:+ pretty (m_serverPort config) +:+ nl +:+
  "replace_allowed_ips=true" +:+ nl +:+
  "persistent_keepalive_interval=60" +:+ nl +:+
  foldr (λ a rest, "allowed_ip=" +:+ ip_toString a +:+ nl +:+ rest) "" (m_allowedIPAddressRanges config).

Definition updatePeer (config : InterfaceConfig) : WgM bool :=
  match endpoint config with
  | None => mret false
  | Some where_ =>
      peerExclusions config monitorAddExclusion;;
      reply ← uapiCommand (peerMessage config where_);
      mret (uapiErrno reply =? 0)
  end.

Definition deletePeer (config : InterfaceConfig) : WgM bool :=
  peerExclusions config monitorDeleteExclusion;;
  reply ← uapiCommand ("set=1" +:+ nl +:+ "public_key=" +:+ base64ToHex (qtext (m_serverPublicKey config)) +:+ nl +:+ "remove=true" +:+ nl);
  mret (uapiErrno reply =? 0).

Definition interfaceExists : WgM bool :=
  state ← query tunnelState;
  mret match state with Running => true | _ => false end.

End WireguardUtilsLinux.
End WireguardUtilsLinux.
