(* ===== verification/SimLinux.v ===== *)
(** * A small Linux host

    A concrete packet filter that does what the manual of [iptables] says, and a host with
    a tunnel process that answers every command with success.  The theorems about the
    firewall and the back end are exercised on it. *)

From stdpp Require Import prelude strings list gmap pretty.
From Stdlib Require Import ZArith Lia Ascii.
From S2P Require Import Prelude IPAddress QtJson InterfaceConfig Daemon PacketFilter LinuxFirewall LinuxFirewallSpec WireguardLinux.

Local Open Scope Z_scope.

Module SimLinux.

Record World := mkWorld { w_tables : gmap (bool * string) Chains; w_running : bool }.

(** Destinations: a number stands for an address, [lan] for all networks in slash notation. *)
Definition valid (_ : bool) (n : string) : bool := negb (String.eqb n "").
Definition belongs (_ : bool) (n : string) (d : Z) : bool := String.eqb n (pretty d) || has_char "/" n && (d <? 0).

Definition chainsOf (v6 : bool) (t : string) (w : World) : Chains := default ∅ (w_tables w !! (v6, t)).

(** The destinations alone, to state the documented behaviour with. *)
Definition destinations : PacketFilter World :=
  {| iptables := λ _ _ _ w, (false, w); chains := chainsOf; destValid := valid; destMatches := belongs |}.

Definition command (v6 : bool) (t : string) (c : IptCommand) (w : World) : bool * World :=
  let '(b, m) := documented (filter := destinations) v6 c (chainsOf v6 t w) in (b, mkWorld (<[(v6, t) := m]> (w_tables w)) (w_running w)).

#[global] Instance filter : PacketFilter World :=
  {| iptables := command; chains := chainsOf; destValid := valid; destMatches := belongs |}.

#[global] Instance laws : PacketFilterLaws filter.
Proof.
  split.
  - intros v6 t c w. cbn [iptables chains filter]. unfold command. change (documented (filter := filter)) with (documented (filter := destinations)). by destruct (documented v6 c _).
  - intros v6 t c w. cbn [iptables chains filter]. unfold command. change (documented (filter := filter)) with (documented (filter := destinations)).
    destruct (documented v6 c (chainsOf v6 t w)) as [b m]. cbn [snd]. unfold chainsOf. cbn [w_tables]. by rewrite lookup_insert_eq.
  - intros v6 t c w v6' t' Hne. cbn [iptables chains filter]. unfold command. destruct (documented v6 c (chainsOf v6 t w)) as [b m]. cbn [snd]. unfold chainsOf. cbn [w_tables].
    by rewrite lookup_insert_ne.
Qed.

#[global] Instance dests : DestLaws filter.
Proof.
  split. intros v6 n Hn. cbn. unfold valid. destruct v6; cbn in Hn; rewrite !elem_of_cons in Hn;
    repeat destruct Hn as [->|Hn]; try done; by apply elem_of_nil in Hn.
Qed.

#[global] Instance splitting : Splitting World := {| splitTraffic := λ _ w, w |}.
#[global] Instance splits : SplittingLaws World splitting.
Proof. by split. Qed.

#[global] Instance host : LinuxHost World := {|
  hostOp := λ o w, match o with
                   | StartTunnel => (true, mkWorld (w_tables w) true)
                   | TerminateTunnel | KillTunnel => (true, mkWorld (w_tables w) false)
                   | _ => (true, w)
                   end;
  readAll := λ w, ("errno=0" +:+ newlines, w);
  tunnelState := λ w, if w_running w then Running else NotRunning;
  timerPasses := λ _, 3%nat;
  if_nametoindex := λ _ _, 7;
  getGatewayAndIface := λ _, "192.168.0.1";
|}.
#[global] Instance hosts : LinuxHostLaws World host.
Proof. split; [by intros [] v6 t w|done]. Qed.

#[global] Instance codec : WgCodec := {|
  base64ToHex := λ s, s; hexToBase64 := λ s, s; textToDouble := λ s, SimQt.read_decimal s 0; textToLongLong := λ s, SimQt.read_decimal s 0 |}.

(** The output chains have a rule of their own. *)
Definition rules : Chains := {[kOutputChain := ["-d 5 -j ACCEPT"]]}.
Definition base (_ : bool) : Chains := rules.
Definition world0 : World := mkWorld (<[(false, kFilterTable) := rules]> (<[(true, kFilterTable) := rules]> ∅)) false.
Definition utils0 : Sys WgUtils World := mkSys (mkWgUtils (mkFirewall ∅) None None) world0.

End SimLinux.
