(* ===== verification/WireguardLinuxSpec.v ===== *)
(** * Properties of the tunnel's back end on Linux

    The messages sent to the kernel for routes, and the answers of the tunnel process. *)

From stdpp Require Import prelude strings list gmap pretty.
From Stdlib Require Import ZArith Lia Ascii.
From S2P Require Import Prelude JsRuntime IPAddress QtJson InterfaceConfig Daemon PacketFilter LinuxFirewall LinuxFirewallSpec WireguardLinux SimLinux.

Local Open Scope Z_scope.

Section Routes.
  Context {W : Type} {filter : PacketFilter W} {splitting : Splitting W} {host : LinuxHost W} {codec : WgCodec} {env : QtEnv}.
  Import WireguardUtilsLinux.

(** The attributes of a message for a route of a type. *)
Definition routeAttrs (type : Z) (dst : string) (index : Z) (gateway : string) : list (Z * string) :=
  (RTA_DST, dst) :: if type =? RTN_UNICAST then [(RTA_OIF, pretty index); (RTA_PRIORITY, "1")] else [(RTA_GATEWAY, gateway); (RTA_PRIORITY, "0")].

Definition sentRoutes (t : list WgEvent) : list NlMsg :=
  omap (λ e, match e with EvHost (SendRoute m) _ => Some m | _ => None end) t.

(** The message, once all attributes are in. *)
Lemma wp_send m (Q : res Empty_set bool → Sys WgUtils W → list WgEvent → Prop) s : (∀ ok w, Q (Ok ok) (mkSys (globals s) w) [EvHost (SendRoute m) ok]) →
  wp (doHost (SendRoute m)) Q s.
Proof. intros HQ. unfold wp, doHost, ask. destruct (hostOp (SendRoute m) (world s)) as [ok w]. apply HQ. Qed.

Lemma route_wp action flags type prefix s : type = RTN_UNICAST ∨ type = RTN_THROW → 0 < if_nametoindex WG_INTERFACE (world s) →
  protocol (address prefix) ≠ UnknownProtocol →
  wp (rtmSendRoute action flags type prefix) (λ _ _ t, sentRoutes t =
    [mkNlMsg (match protocol (address prefix) with IPv6Protocol => 64 | _ => 52 end) action flags (default 0 (m_rtmonitor (globals s)))
       (protocol (address prefix)) (prefixLength prefix) RTN_UNICAST
       (routeAttrs type (addressText (address prefix)) (if_nametoindex WG_INTERFACE (world s)) (getGatewayAndIface (world s)))]) s.
Proof.
  intros Htype Hindex%Z.leb_gt Hp. unfold rtmSendRoute, buildAllowedIp. destruct (protocol (address prefix)); [done|..];
    apply wp_gets_bind; cbv zeta; apply wp_modify_bind; destruct Htype as [->| ->]; cbn [Z.eqb RTN_UNICAST RTN_THROW Pos.eqb];
    apply wp_query_bind; cbn [world]; rewrite ?Hindex; apply wp_send; intros ok w; reflexivity.
Qed.

(** Every route the monitor sends is one message that names the destination with its
    prefix length and all attributes of its type: the buffer is large enough for both
    families, and exactly filled by IPv6.  An address that is neither IPv4 nor IPv6 sends
    nothing and fails. *)
Theorem route_message (action flags type : Z) (prefix : IPAddress) (s : Sys WgUtils W)
    (Htype : type = RTN_UNICAST ∨ type = RTN_THROW) (Hindex : 0 < if_nametoindex WG_INTERFACE (world s)) :
  let fits := match protocol (address prefix) with IPv6Protocol => 64 | _ => 52 end in
  let run := rtmSendRoute action flags type prefix s in
  match protocol (address prefix) with
  | UnknownProtocol => run = (Ok false, s, [])
  | family => sentRoutes (log_of run) =
      [mkNlMsg fits action flags (default 0 (m_rtmonitor (globals s))) family (prefixLength prefix) RTN_UNICAST
         (routeAttrs type (addressText (address prefix)) (if_nametoindex WG_INTERFACE (world s)) (getGatewayAndIface (world s)))] ∧
      fits <= NLMSG_SPACE rtm_max_size
  end.
Proof.
  cbv zeta. pose proof (route_wp action flags type prefix s Htype Hindex) as Hw. unfold wp, log_of in *.
  destruct (protocol (address prefix)) eqn:Hp; [unfold rtmSendRoute, buildAllowedIp; by rewrite Hp|..];
    (destruct (rtmSendRoute action flags type prefix s) as [[r s'] t]; split; [by apply Hw|vm_compute; congruence]).
Qed.

(** Deleting the route of a prefix longer than 0 inserts it: [deleteRoutePrefix] sends
    a new route for it, as [updateRoutePrefix] does.  Only the default routes are taken
    out. *)
Theorem deleteRoutePrefix_inserts (prefix : IPAddress) (s : Sys WgUtils W) (Hlen : 0 < prefixLength prefix)
    (Hip : protocol (address prefix) ≠ UnknownProtocol) (Hmon : is_Some (m_rtmonitor (globals s)))
    (Hindex : 0 < if_nametoindex WG_INTERFACE (world s)) :
  deleteRoutePrefix prefix s = updateRoutePrefix prefix s ∧
  ∃ m, sentRoutes (log_of (deleteRoutePrefix prefix s)) = [m] ∧ nlmsg_type m = RTM_NEWROUTE ∧ nlmsg_flags m = newFlags ∧
       rtm_dst_len m = prefixLength prefix ∧ head (rta_list m) = Some (RTA_DST, addressText (address prefix)).
Proof.
  split; [unfold deleteRoutePrefix, updateRoutePrefix, withMonitor; apply Z.ltb_lt in Hlen; by rewrite Hlen|].
  pose proof (route_wp RTM_NEWROUTE newFlags RTN_UNICAST prefix s (or_introl eq_refl) Hindex Hip) as Hw.
  assert (wp (deleteRoutePrefix prefix) (λ _ _ t, ∃ m, sentRoutes t = [m] ∧ nlmsg_type m = RTM_NEWROUTE ∧ nlmsg_flags m = newFlags ∧
    rtm_dst_len m = prefixLength prefix ∧ head (rta_list m) = Some (RTA_DST, addressText (address prefix))) s) as H.
  { unfold deleteRoutePrefix, withMonitor. apply wp_gets_bind. destruct Hmon as [n ->]. apply Z.ltb_lt in Hlen. rewrite Hlen.
    eapply wp_mono; [exact Hw|]. intros r s' t Ht. eexists. split; [exact Ht|]. done. }
  unfold wp, log_of in *. by destruct (deleteRoutePrefix prefix s) as [[r s'] t].
Qed.

End Routes.

(** ** The answers of the tunnel *)

Section Peers.
  Context {codec : WgCodec} {env : QtEnv}.
  Import WireguardUtilsLinux.

(** A peer as the tunnel reports it: the key, the figures as texts, and other lines. *)
Record UapiPeer := mkUapiPeer { u_key : string; u_before : list string; u_sec : string; u_nsec : string; u_tx : string; u_rx : string; u_after : list string }.

Definition uapiBlock (p : UapiPeer) : list string :=
  (("public_key=" +:+ u_key p) :: u_before p) ++
  ["last_handshake_time_sec=" +:+ u_sec p; "last_handshake_time_nsec=" +:+ u_nsec p; "tx_bytes=" +:+ u_tx p; "rx_bytes=" +:+ u_rx p] ++ u_after p.

Definition uapiReply (header : list string) (peers : list UapiPeer) : string := join nl (header ++ concat (map uapiBlock peers) ++ ["errno=0"]).

Definition peerOf (p : UapiPeer) : PeerStatus :=
  mkPeer (Some (hexToBase64 (u_key p))) (textToLongLong (u_sec p) * 1000 + Z.quot (textToLongLong (u_nsec p)) 1000000) (textToDouble (u_rx p)) (textToDouble (u_tx p)).

(** A line the reader passes over. *)
Definition neutral (l : string) : Prop := match nameValue l with
  | Some (n, _) => n ∉ ["public_key"; "tx_bytes"; "rx_bytes"; "last_handshake_time_sec"; "last_handshake_time_nsec"]
  | None => True end.

Lemma neutral_line st l : neutral l → peerLine st l = st.
Proof.
  unfold neutral, peerLine. destruct st as [status acc], (nameValue l) as [[n v]|]; [|done]. rewrite !not_elem_of_cons. intros (H1 & H2 & H3 & H4 & H5 & _).
  apply String.eqb_neq in H1, H2, H3, H4, H5. by rewrite H1, H2, H3, H4, H5.
Qed.

Lemma neutral_lines l st : Forall neutral l → foldl peerLine st l = st.
Proof. intros H. revert st. induction H as [|x l Hx _ IH]; intros st; [done|]. cbn [foldl]. by rewrite neutral_line. Qed.

Lemma block_lines st acc p : Forall neutral (u_before p) → Forall neutral (u_after p) →
  foldl peerLine (st, acc) (uapiBlock p) = (peerOf p, if String.eqb (qtext (m_pubkey st)) "" then acc else acc ++ [st]).
Proof.
  intros Hb Ha. unfold uapiBlock. rewrite !foldl_app. cbn [foldl]. change (peerLine (st, acc) ("public_key=" +:+ u_key p)) with
    (mkPeer (Some (hexToBase64 (u_key p))) 0 0 0, if String.eqb (qtext (m_pubkey st)) "" then acc else acc ++ [st]).
  rewrite (neutral_lines _ _ Hb), (neutral_lines _ _ Ha). done.
Qed.

Lemma blocks_lines peers st acc : Forall (λ p, Forall neutral (u_before p) ∧ Forall neutral (u_after p) ∧ hexToBase64 (u_key p) ≠ "") peers →
  let '(st', acc') := foldl peerLine (st, acc) (concat (map uapiBlock peers)) in
  (if String.eqb (qtext (m_pubkey st')) "" then acc' else acc' ++ [st']) =
    (if String.eqb (qtext (m_pubkey st)) "" then acc else acc ++ [st]) ++ map peerOf peers.
Proof.
  intros H. revert st acc. induction H as [|p peers (Hb & Ha & Hk) _ IH]; intros st acc; cbn [map concat foldl]; [by rewrite app_nil_r|].
  rewrite foldl_app, block_lines by done. specialize (IH (peerOf p) (if String.eqb (qtext (m_pubkey st)) "" then acc else acc ++ [st])).
  destruct (foldl peerLine _ _) as [st' acc']. rewrite IH. cbn [m_pubkey peerOf qtext default]. apply String.eqb_neq in Hk.
  change (id (hexToBase64 (u_key p))) with (hexToBase64 (u_key p)). by rewrite Hk, <- app_assoc.
Qed.

(** The answer of the tunnel to a query is read back as the list of its peers, in
    order, each with its key, the time of its handshake in milliseconds and its traffic;
    other lines, before the peers and among them, are passed over. *)
Theorem peers_read (header : list string) (peers : list UapiPeer)
    (Hclean : Forall clean (header ++ concat (map uapiBlock peers))) (Hheader : Forall neutral header)
    (Hpeers : Forall (λ p, Forall neutral (u_before p) ∧ Forall neutral (u_after p) ∧ hexToBase64 (u_key p) ≠ "") peers) :
  parsePeers (Some (uapiReply header peers)) = map peerOf peers.
Proof.
  unfold parsePeers, uapi_lines, uapiReply. cbn [qtext default]. change (id ?x) with x. unfold nl. rewrite qsplit_join; [| |].
  - rewrite !foldl_app, (neutral_lines header) by done. pose proof (blocks_lines peers (mkPeer None 0 0 0) [] Hpeers) as Hb.
    destruct (foldl peerLine _ (concat _)) as [st acc]. cbn [foldl]. rewrite neutral_line; [exact Hb|].
    exact (bool_decide_unpack ("errno" ∉ ["public_key"; "tx_bytes"; "rx_bytes"; "last_handshake_time_sec"; "last_handshake_time_nsec"]) I).
  - intros [_ [_ H]%app_eq_nil]%app_eq_nil. done.
  - rewrite app_assoc. apply Forall_app. split; [exact Hclean|]. by repeat constructor.
Qed.

End Peers.

(** ** Examples *)

Lemma route_message_witness :
  sentRoutes (log_of (WireguardUtilsLinux.rtmSendRoute (env := SimQt.env) RTM_NEWROUTE 0 RTN_UNICAST (mkIP (IPv4 167772160) 8) SimLinux.utils0)) =
    [mkNlMsg 52 RTM_NEWROUTE 0 0 IPv4Protocol 8 RTN_UNICAST [(RTA_DST, "10.0.0.0"); (RTA_OIF, "7"); (RTA_PRIORITY, "1")]].
Proof.
  destruct (route_message (env := SimQt.env) RTM_NEWROUTE 0 RTN_UNICAST (mkIP (IPv4 167772160) 8) SimLinux.utils0) as [H _]; [by left|cbn; lia|].
  rewrite H. vm_compute. reflexivity.
Defined.

Definition monitored : Sys WgUtils SimLinux.World := mkSys (mkWgUtils (mkFirewall ∅) (Some "amn0") (Some 0)) SimLinux.world0.

Lemma deleteRoutePrefix_inserts_witness :
  ∃ m, sentRoutes (log_of (WireguardUtilsLinux.deleteRoutePrefix (env := SimQt.env) (mkIP (IPv4 167772160) 8) monitored)) = [m] ∧ nlmsg_type m = RTM_NEWROUTE.
Proof.
  destruct (deleteRoutePrefix_inserts (env := SimQt.env) (mkIP (IPv4 167772160) 8) monitored) as (_ & m & H1 & H2 & _); [cbn; lia|done|by eexists|cbn; lia|].
  by exists m.
Defined.

Definition samplePeer : UapiPeer := mkUapiPeer "abcd" ["endpoint=203.0.113.7:51820"] "1700000000" "500000000" "10" "20" ["allowed_ip=0.0.0.0/0"].

Lemma peers_read_witness :
  WireguardUtilsLinux.parsePeers (Some (uapiReply ["private_key=00"; "listen_port=1"] [samplePeer; samplePeer])) =
    [mkPeer (Some "abcd") 1700000000500 20 10; mkPeer (Some "abcd") 1700000000500 20 10].
Proof.
  rewrite (peers_read ["private_key=00"; "listen_port=1"] [samplePeer; samplePeer]); [vm_compute; reflexivity|by repeat constructor|..].
  - repeat constructor; apply (bool_decide_unpack _); vm_compute; exact I.
  - repeat constructor; try done; apply (bool_decide_unpack _); vm_compute; exact I.
Defined.
