(* ===== verification/LinuxDaemon.v ===== *)
(** * The daemon on Linux

    [LinuxDaemon] of [src/client/platforms/linux/daemon/linuxdaemon.h]: the daemon of
    [Daemon.v] with [WireguardUtilsLinux] as its back end.  Its world is the state of the
    back end and the host.  [run] and [prepareActivation] are not overridden and do
    nothing; the addresses of the interface and the resolvers are set by services of the
    host. *)

From stdpp Require Import prelude strings list gmap.
From Stdlib Require Import ZArith.
From S2P Require Import Prelude IPAddress QtJson InterfaceConfig Daemon PacketFilter LinuxFirewall WireguardLinux.

Section LinuxDaemon.
  Context {W : Type} {filter : PacketFilter W} {splitting : Splitting W} {host : LinuxHost W} {codec : WgCodec} {env : QtEnv}.
  Context (dates : option Z → string) (order : gmap IPAddress Z → list IPAddress).
  Import WireguardUtilsLinux.

(** The outcome of an operation of the back end, which raises no errors. *)
Definition outcome {A} (dflt : A) (m : WgM A) (s : Sys WgUtils W) : A * Sys WgUtils W :=
  match m s with (Ok a, s', _) => (a, s') | (_, s', _) => (dflt, s') end.

Definition linuxCall (c : Call) : Sys WgUtils W → bool * Sys WgUtils W :=
  match c with
  | InterfaceExists => outcome false interfaceExists
  | AddInterface config => outcome false (addInterface config)
  | DeleteInterface => outcome false deleteInterface
  | UpdatePeer config => outcome false (updatePeer config)
  | DeletePeer config => outcome false (deletePeer config)
  | UpdateRoutePrefix ip => outcome false (updateRoutePrefix ip)
  | DeleteRoutePrefix ip => outcome false (deleteRoutePrefix ip)
  | AddExclusionRoute ip => outcome false (WireguardUtilsLinux.addExclusionRoute ip)
  | DeleteExclusionRoute ip => outcome false (deleteExclusionRoute ip)
  | Run _ _ | PrepareActivation _ => λ s, (true, s)
  | AddInterfaceIPs _ | SetMTUAndUp _ | UpdateResolvers _ _ | RestoreResolvers => outcome false (doHost (OtherCall c))
  end.

Definition LinuxPlatform : Platform (Sys WgUtils W) := {|
  call := linuxCall;
  Daemon.getPeerStatus := outcome [] WireguardUtilsLinux.getPeerStatus;
  interfaceName := λ s, qtext (m_ifname (globals s));
  supportIPUtils := true;
  supportDnsUtils := true;
  dateText := dates;
  hashOrder := order;
|}.

End LinuxDaemon.
