(* ===== verification/IpcServer.v ===== *)
(** * The kill switch of the privileged service

    Models [IpcServer::enableKillSwitch] and [IpcServer::disableKillSwitch] of
    [src/ipc/ipcserver.cpp] as they are compiled on Linux.  The protocols that do not go
    through the daemon (OpenVPN, Xray) call them. *)

From stdpp Require Import prelude strings list gmap.
From Stdlib Require Import ZArith.
From S2P Require Import Prelude QtJson PacketFilter LinuxFirewall.

Local Open Scope Z_scope.

Module IpcServer.
Section IpcServer.
  Context {W : Type} {filter : PacketFilter W} {splitting : Splitting W}.

(** What the configuration asks for: [blockAll], [allowNets], [blockNets] and the
    networks of the last two. *)
Record Request := mkRequest {
  rq_blockAll : bool; rq_allowNets : bool; rq_blockNets : bool; rq_allownets : list string; rq_blocknets : list string }.

Definition request (configStr : QJsonObject) : Request :=
  let splitTunnelType := toInt (value configStr "splitTunnelType") in
  let splitTunnelSites := map (λ v, qtext (toQString v)) (toArray (value configStr "splitTunnelSites")) in
  let host := qtext (toQString (value configStr "hostName")) in
  if splitTunnelType =? 0 then mkRequest true true false [host] []
  else if splitTunnelType =? 1 then mkRequest false false true [] splitTunnelSites
  else if splitTunnelType =? 2 then mkRequest true true false (host :: splitTunnelSites) []
  else mkRequest false false false [] [].

Definition requestDns (configStr : QJsonObject) : list string :=
  [qtext (toQString (value configStr "dns1")); qtext (toQString (value configStr "dns2")); "127.0.0.1"; "127.0.0.53"].

Definition enableKillSwitch (configStr : QJsonObject) : LinuxFirewall.FwM W bool :=
  let r := request configStr in
  let enable ip anchor b := LinuxFirewall.setAnchorEnabled ip anchor b kFilterTable in
  enable IPVersion.Both "000.allowLoopback" true;;
  enable IPVersion.Both "100.blockAll" (rq_blockAll r);;
  enable IPVersion.IPv4 "110.allowNets" (rq_allowNets r);;
  LinuxFirewall.updateAllowNets (rq_allownets r);;
  enable IPVersion.IPv4 "120.blockNets" (rq_blockAll r);;
  LinuxFirewall.updateBlockNets (rq_blocknets r);;
  enable IPVersion.IPv4 "200.allowVPN" true;;
  enable IPVersion.IPv6 "250.blockIPv6" true;;
  enable IPVersion.Both "290.allowDHCP" true;;
  enable IPVersion.Both "300.allowLAN" true;;
  enable IPVersion.IPv4 "310.blockDNS" true;;
  LinuxFirewall.updateDNSServers (requestDns configStr);;
  enable IPVersion.IPv4 "320.allowDNS" true;;
  enable IPVersion.Both "400.allowPIA" true;;
  mret true.

Definition disableKillSwitch : LinuxFirewall.FwM W bool := LinuxFirewall.uninstall;; mret true.

End IpcServer.
End IpcServer.
