(* ===== verification/KillSwitch.v ===== *)
(** * The kill switch on Linux

    What happens to packets when the firewall of [LinuxFirewall.v] is driven by
    [WireguardUtilsLinux::applyFirewallRules] and by [IpcServer::enableKillSwitch]: the
    kernel's walk over the chains is computed for every packet. *)

From stdpp Require Import prelude strings list gmap pretty.
From Stdlib Require Import ZArith Lia Ascii.
From S2P Require Import Prelude IPAddress QtJson InterfaceConfig Daemon PacketFilter LinuxFirewall LinuxFirewallSpec WireguardLinux IpcServer.

Local Open Scope Z_scope.

(** ** The walk over anchors *)

Section Walk.
  Context {W : Type} {filter : PacketFilter W}.

(** The verdict of rules that accept or reject. *)
Definition decideRules (v6 : bool) (p : Packet) (rules : list string) : option Verdict := traverse 0 v6 ∅ p rules.

Fixpoint decideAnchors (v6 : bool) (p : Packet) (en : string → bool) (rl : string → list string) (names : list string) : option Verdict :=
  match names with
  | [] => None
  | x :: names =>
      match (if en x then decideRules v6 p (rl x) else None) with
      | Some v => Some v
      | None => decideAnchors v6 p en rl names
      end
  end.

Lemma traverse_plain d v6 m p rules : Forall (λ r, plainRule v6 r = true) rules → traverse d v6 m p rules = decideRules v6 p rules.
Proof.
  unfold decideRules. induction 1 as [|r rules Hr _ IH]; [by rewrite !traverse_nil|]. rewrite !traverse_cons, IH. unfold applies.
  unfold plainRule in Hr. destruct (parseRule r) as [[cs t]|]; [|done]. destruct (forallb (condHolds v6 p) cs); [|done].
  apply andb_prop in Hr as [_ [Ht|Ht]%orb_prop]; rewrite Ht; [done|]. by destruct (String.eqb t "ACCEPT").
Qed.

Lemma own_builtin c : own c = true → c ≠ "ACCEPT" ∧ c ≠ "REJECT".
Proof. intros Hc. by split; intros ->. Qed.

Lemma traverse_own d v6 m p c l rules : own c = true → has_char " " c = false → m !! c = Some l →
  traverse (S d) v6 m p (jump c :: rules) = match traverse d v6 m p l with Some x => Some x | None => traverse (S d) v6 m p rules end.
Proof. intros [Ha Hr]%own_builtin Hs Hl. by apply traverse_jump. Qed.

Lemma traverse_anchors d v6 m p en rl names all : linked all en rl m → (∀ x, x ∈ names → x ∈ all) →
  Forall (λ x, goodName x = true ∧ Forall (λ r, plainRule v6 r = true) (rl x)) names →
  traverse (S (S d)) v6 m p (map (λ x, jump (anchorChain x)) names) = decideAnchors v6 p en rl names.
Proof.
  intros [_ Hl] Hsub Hf. induction Hf as [|x names [Hx Hp] _ IH]; [apply traverse_nil|]. cbn [map decideAnchors].
  destruct (Hl x) as [Ha Hc]; [apply Hsub; left|]. rewrite (traverse_own _ _ _ _ _ _ _ (own_anchor x) (anchor_space x Hx) Ha).
  rewrite IH by (intros y Hy; apply Hsub; by right). destruct (en x); [|by rewrite traverse_nil].
  rewrite (traverse_own _ _ _ _ _ _ _ (own_actual x) (actual_space x Hx) Hc), traverse_nil, traverse_plain by done.
  by destruct (decideRules v6 p (rl x)).
Qed.

(** The walk through the root chain, and on through the rules behind it. *)
Lemma traverse_root d v6 m p en rl names out : linked names en rl m →
  Forall (λ x, goodName x = true ∧ Forall (λ r, plainRule v6 r = true) (rl x)) names →
  traverse (S (S (S d))) v6 m p (jump kRootChain :: out) =
    match decideAnchors v6 p en rl names with Some v => Some v | None => traverse (S (S (S d))) v6 m p out end.
Proof.
  intros Hlk Hn. rewrite (traverse_own _ _ _ _ kRootChain _ _ eq_refl eq_refl (proj1 Hlk)). by rewrite (traverse_anchors _ _ _ _ en rl _ names).
Qed.

(** *** Rules of others *)

(** A rule that does not lead into the firewall's chains; the output chain, being built in,
    is not the target of a rule. *)
Definition foreignRule (r : string) : Prop :=
  match parseRule r with Some (_, t) => own t = false ∧ t ≠ kOutputChain | None => True end.

Definition foreign (m : Chains) : Prop := ∀ k l, own k = false → m !! k = Some l → Forall foreignRule l.

Lemma traverse_foreign d v6 m m' p rules : foreign m → (∀ k, own k = false → k ≠ kOutputChain → m' !! k = m !! k) →
  Forall foreignRule rules → traverse d v6 m' p rules = traverse d v6 m p rules.
Proof.
  intros Hm Hsame. revert rules. induction d as [|d IHd]; intros rules Hr; induction Hr as [|r rules Hf _ IH];
    rewrite ?traverse_nil, ?traverse_cons, ?IH; [done|done|done|].
  unfold applies. unfold foreignRule in Hf. destruct (parseRule r) as [[cs t]|]; [|done]. destruct (forallb (condHolds v6 p) cs); [|done].
  destruct Hf as [Ht Ho]. rewrite Hsame by done. destruct (m !! t) as [l|] eqn:Hl; [|done]. rewrite IHd; [done|]. by apply (Hm t).
Qed.

Lemma foreign_unlinked out : Forall foreignRule out → unlinked out.
Proof. intros H. eapply Forall_impl; [exact H|]. intros r. unfold foreignRule. destruct (parseRule r) as [[cs t]|]; [|done]. cbn. by intros [Ht _] [= ->]. Qed.

End Walk.

(** ** States *)

(** The anchors whose rules the program changes. *)
Definition dynamicAnchors : list string := ["320.allowDNS"; "120.blockNets"; "110.allowNets"].

(** What is enabled, and the rules behind it, for both versions of the protocol. *)
Record Anchors := mkAnchors { an_on : bool → string → bool; an_rules : bool → string → list string }.

Definition switchOn (ip : IPVersion.t) (x : string) (b : bool) (a : Anchors) : Anchors :=
  mkAnchors (λ v6 y, if versions ip v6 && String.eqb y x then b else an_on a v6 y) (an_rules a).
Definition setRules (x : string) (rules : list string) (a : Anchors) : Anchors :=
  mkAnchors (an_on a) (λ v6 y, if negb v6 && String.eqb y x then rules else an_rules a v6 y).

Section States.
  Context {W : Type} {filter : PacketFilter W} {laws : PacketFilterLaws filter} {dlaws : DestLaws filter}
    {splitting : Splitting W} {slaws : SplittingLaws W splitting}.
  Import LinuxFirewall.

(** The chains of others, as they were without the firewall. *)
Definition Base (base : bool → Chains) : Prop := ∀ v6, foreign (base v6) ∧ is_Some (base v6 !! kOutputChain).

(** The firewall is not in the output chains. *)
Definition Off (base : bool → Chains) (s : Sys Firewall W) : Prop := ∀ v6 k, own k = false → table v6 s !! k = base v6 !! k.

(** It is, before, among or behind the other rules. *)
Definition Guarded (base : bool → Chains) (a : Anchors) (pre : bool → list string) (s : Sys Firewall W) : Prop :=
  ∀ v6, linked (anchorNames v6) (an_on a v6) (an_rules a v6) (table v6 s) ∧
    (∀ k, own k = false → k ≠ kOutputChain → table v6 s !! k = base v6 !! k) ∧
    ∃ post, base v6 !! kOutputChain = Some (pre v6 ++ post) ∧ table v6 s !! kOutputChain = Some (pre v6 ++ jump kRootChain :: post).

(** The rules of the firewall accept or reject, and the fixed ones are those of [install]. *)
Definition sound (a : Anchors) : Prop := ∀ v6 x, x ∈ anchorNames v6 →
  Forall (λ r, plainRule v6 r = true) (an_rules a v6 x) ∧ (v6 = true ∨ x ∉ dynamicAnchors → an_rules a v6 x = initialRules v6 x).

(** The anchors no one enables. *)
Definition idle (a : Anchors) : Prop := an_on a true "310.blockDNS" = false ∧ an_on a true "200.allowVPN" = false.

Definition fresh : Anchors := mkAnchors (λ _ _, false) initialRules.

Lemma fresh_sound : sound fresh ∧ idle fresh.
Proof. split; [|done]. intros v6 x Hx. split; [by apply fixed_plain|done]. Qed.

(** *** Anchors *)

Lemma enable_linked v6 ip x b names en rl m : goodName x = true → Forall (λ y, goodName y = true) names → linked names en rl m →
  linked names (λ y, if versions ip v6 && String.eqb y x then b else en y) rl
    (if versions ip v6 then (if b then enableF v6 x m else disableF x m) else m).
Proof.
  intros Hx Hn Hl. destruct (versions ip v6); cbn [andb]; [|done]. destruct (decide (x ∈ names)) as [Hin|Hin].
  - destruct b; (eapply linked_ext; [by apply enableF_linked || by apply disableF_linked|]); apply Forall_forall; intros y _; by destruct (String.eqb y x).
  - assert (∀ k, k ≠ anchorChain x → (if b then enableF v6 x m else disableF x m) !! k = m !! k) as Hk.
    { intros k Hk. destruct b; unfold enableF, linkF, disableF; destruct (m !! anchorChain x); try done; destruct (bool_decide _); try done;
        [destruct (legal _ _ _); [|done]|]; by rewrite lookup_insert_ne. }
    destruct Hl as [Hr Ha]. split; [by rewrite Hk by apply not_eq_sym, root_anchor|]. rewrite Forall_forall in Hn. intros y Hy.
    rewrite !Hk; [|by apply not_eq_sym, anchor_actual, Hn|intros ?%anchor_inj; by subst y]. destruct (String.eqb_spec y x) as [->|]; [done|by apply Ha].
Qed.

Lemma guarded_others (m : FwM W unit) base a a' pre F : does m F → (∀ v6, sameOthers (F v6)) →
  (∀ v6 t, linked (anchorNames v6) (an_on a v6) (an_rules a v6) t → linked (anchorNames v6) (an_on a' v6) (an_rules a' v6) (F v6 t)) →
  ∀ s, Guarded base a pre s → gives m (λ _, Guarded base a' pre) s.
Proof.
  intros Hm HF Hl s Hs. eapply gives_mono; [apply Hm|]. intros [] s' Hs' v6. destruct (Hs v6) as (H1 & H2 & post & H3 & H4). rewrite Hs'.
  split; [by apply Hl|]. split; [intros k Hk Hne; rewrite HF by done; by apply H2|]. exists post. split; [done|]. by rewrite HF.
Qed.

Lemma enable_guarded ip x b base a pre s : goodName x = true → Guarded base a pre s →
  gives (setAnchorEnabled ip x b kFilterTable) (λ _, Guarded base (switchOn ip x b a) pre) s.
Proof.
  intros Hx. eapply guarded_others; [apply setAnchorEnabled_does| |].
  - intros v6 m k Hk. cbn beta. destruct (versions ip v6); [|done]. destruct b; [by apply linkF_others; [apply own_anchor|]|by apply disableF_others].
  - intros v6 t Ht. by apply enable_linked; [|apply anchorNames_good|].
Qed.

Lemma update_guarded x rules base a pre s : goodName x = true → x ∈ anchorNames false → Forall (λ r, decides r = true) rules → Guarded base a pre s →
  gives (updateRules x rules) (λ _, Guarded base (setRules x (List.filter (plainRule false) rules) a) pre) s.
Proof.
  intros Hx Hin Hr. eapply guarded_others; [apply updateRules_does| |].
  - intros v6 m k Hk. destruct v6; [done|by apply updateRulesF_others].
  - intros v6 t Ht. destruct v6; cbn [negb andb]; [done|]. by apply updateRulesF_linked; [|apply anchorNames_good| | |].
Qed.

(** *** Installing, moving to the front, uninstalling *)

Lemma install_guarded base s : Base base → Off base s → gives install (λ _, Guarded base fresh (λ _, [])) s.
Proof.
  intros Hb Hs. eapply gives_mono; [apply install_gives|]. intros [] s' Hs' v6. destruct (Hb v6) as [Hf [out Hout]].
  destruct (Hs' v6 out) as [[H1 H2] H3]; [by rewrite Hs|by apply foreign_unlinked, (Hf kOutputChain)|]. split; [done|].
  split; [intros k Hk Hne; rewrite H3 by done; by apply Hs|]. by exists out.
Qed.

Lemma laterLine_app t k l1 l2 : Forall (λ x, x ≠ t) l1 → (1 < k + length l1)%nat → laterLine t k (l1 ++ t :: l2) = Some (k + length l1)%nat.
Proof.
  intros H. revert k. induction H as [|x l1 Hx _ IH]; intros k Hk; cbn [app laterLine length] in *.
  - rewrite Nat.add_0_r in *. apply Nat.ltb_lt in Hk. by rewrite Hk, String.eqb_refl.
  - apply String.eqb_neq in Hx. rewrite Nat.add_succ_r in *. by rewrite Hx, andb_false_r, IH.
Qed.

(** Rules that others put before the firewall's are moved behind it. *)
Lemma firstF_front v6 m pre post : is_Some (m !! kRootChain) → m !! kOutputChain = Some (pre ++ jump kRootChain :: post) → unlinked pre →
  firstF v6 kRootChain kOutputChain m !! kOutputChain = Some (jump kRootChain :: pre ++ post) ∧
  ∀ k, k ≠ kOutputChain → firstF v6 kRootChain kOutputChain m !! k = m !! k.
Proof.
  intros Hroot Hout Hun. unfold firstF. rewrite Hout. destruct pre as [|r pre]; [rewrite bool_decide_true by done; by split|].
  pose proof (unlinked_column _ Hun) as Hcol. rewrite bool_decide_false; last first.
  { apply Forall_cons in Hcol as [Hx _]. intros [= Heq]. by apply Hx. }
  rewrite legal_jump by done. assert (column (jump kRootChain :: (r :: pre) ++ jump kRootChain :: post) =
    kRootChain :: column (r :: pre) ++ kRootChain :: column post) as -> by (unfold column; cbn [map app]; by rewrite map_app).
  generalize dependent (r :: pre). clear r pre. intros pre Hout Hun Hcol. cbn [laterLine]. replace (1 <? 1)%nat with false by done. cbn [andb].
  rewrite laterLine_app; [|done|lia]. unfold column. rewrite length_map.
  replace (pred (2 + length pre)) with (S (length pre)) by lia. split; [|intros k Hk; by rewrite lookup_insert_ne].
  rewrite lookup_insert_eq. f_equal. change (delete (S ?n) (?x :: ?l)) with (x :: delete n l). f_equal. by apply delete_middle.
Qed.

Lemma ensure_guarded base a pre s : Base base → Guarded base a pre s →
  gives (ensureRootAnchorPriority IPVersion.Both) (λ _, Guarded base a (λ _, [])) s.
Proof.
  intros Hb Hs. unfold ensureRootAnchorPriority. apply gives_bind. eapply gives_mono; [apply firstChain_does|]. intros b s' Hs'. apply gives_ret. intros v6.
  cbn [versions] in Hs'. rewrite Hs'. destruct (Hs v6) as (Hl & Ho & post & H1 & H2). destruct (Hb v6) as [Hf _].
  pose proof (foreign_unlinked _ (Hf kOutputChain _ eq_refl H1)) as [Hpre _]%Forall_app.
  destruct (firstF_front v6 (table v6 s) (pre v6) post) as [E1 E2]; [rewrite (proj1 Hl); by eexists|done|done|].
  split; [|split; [intros k Hk Hne; rewrite E2 by done; by apply Ho|by exists (pre v6 ++ post)]].
  destruct Hl as [Hr Ha]. split; [by rewrite E2|]. intros x Hx. rewrite !E2 by apply output_own. by apply Ha.
Qed.

Lemma removeFirst_app x l1 l2 : x ∉ l1 → removeFirst x (l1 ++ x :: l2) = l1 ++ l2.
Proof.
  induction l1 as [|y l1 IH]; intros Hx; cbn; [by rewrite String.eqb_refl|]. apply not_elem_of_cons in Hx as [Hne Hx].
  apply not_eq_sym, String.eqb_neq in Hne. rewrite Hne. by rewrite IH.
Qed.

Lemma uninstall_off base s : Base base → Off base s ∨ (∃ a pre, Guarded base a pre s) → gives uninstall (λ _, Off base) s.
Proof.
  intros Hb Hs. eapply gives_mono; [apply uninstall_others|]. intros [] s' Hs' v6 k Hk. rewrite Hs' by done. destruct (Hb v6) as [Hf _].
  destruct (decide (k = kOutputChain)) as [->|Hne]; last first.
  { rewrite unlinkF_ne by done. destruct Hs as [Hs|(a & pre & Hs)]; [by apply Hs|]. by apply Hs. }
  unfold unlinkF. destruct Hs as [Hs|(a & pre & Hs)].
  - rewrite Hs by done. destruct (base v6 !! kOutputChain) as [out|] eqn:Hout; [|by rewrite Hs]. rewrite bool_decide_false; [by rewrite Hs|].
    by apply unlinked_jump, foreign_unlinked, (Hf kOutputChain).
  - destruct (Hs v6) as (_ & _ & post & H1 & H2). pose proof (foreign_unlinked _ (Hf kOutputChain _ eq_refl H1)) as [Hpre _]%Forall_app.
    rewrite H1, H2, bool_decide_true by (apply elem_of_app; right; left). rewrite lookup_insert_eq. by rewrite removeFirst_app by (by apply unlinked_jump).
Qed.

Lemma isInstalled_gives s : gives isInstalled (λ b s', b = match table false s !! kOutputChain with Some l => bool_decide (jump kRootChain ∈ l) | None => false end ∧
  ∀ v6, table v6 s' = table v6 s) s.
Proof.
  unfold isInstalled. eapply gives_mono; [apply ipt_own|]. intros b s' (-> & H1 & H2). cbn [documented fst snd] in *. split; [done|]. by intros [].
Qed.

End States.

(** ** Rules *)

Section Rules.
  Context {W : Type} {filter : PacketFilter W}.
  Import LinuxFirewall.

Definition matches (v6 : bool) (p : Packet) (r : string) : bool :=
  match parseRule r with Some (cs, _) => forallb (λ c, condValid v6 c && condHolds v6 p c) cs | None => false end.

Definition verdictOf (t : string) : option Verdict :=
  if String.eqb t "ACCEPT" then Some Accept else if String.eqb t "REJECT" then Some Reject else None.

Lemma forallb_both {A} (f g : A → bool) l : forallb (λ x, f x && g x) l = forallb f l && forallb g l.
Proof. induction l as [|x l IH]; cbn; [done|]. rewrite IH. by destruct (f x), (g x), (forallb f l). Qed.

(** Rules of one target: it is the verdict if a rule that was taken applies. *)
Lemma decide_uniform v6 p t v rules : verdictOf t = Some v → Forall (λ r, (snd <$> parseRule r) = Some t) rules →
  decideRules v6 p (List.filter (plainRule v6) rules) = if existsb (matches v6 p) rules then Some v else None.
Proof.
  intros Ht. assert (String.eqb t "ACCEPT" || String.eqb t "REJECT" = true) as Hd.
  { unfold verdictOf in Ht. by destruct (String.eqb t "ACCEPT"), (String.eqb t "REJECT"). }
  unfold decideRules. induction 1 as [|r rules Hr _ IH]; [apply traverse_nil|]. cbn [List.filter existsb]. unfold matches at 1, plainRule at 1.
  destruct (parseRule r) as [[cs t']|] eqn:Hp; [|done]. cbn in Hr. injection Hr as ->. rewrite Hd, andb_true_r, forallb_both.
  destruct (forallb (condValid v6) cs); [|exact IH]. rewrite traverse_cons, IH. unfold applies. rewrite Hp. cbn [andb].
  destruct (forallb (condHolds v6 p) cs); [|done]. cbn [orb]. unfold verdictOf in Ht. by destruct (String.eqb t "ACCEPT"), (String.eqb t "REJECT").
Qed.

Lemma decide_fixed v6 p t v rules : verdictOf t = Some v → Forall (λ r, (snd <$> parseRule r) = Some t) rules →
  Forall (λ r, plainRule v6 r = true) rules → decideRules v6 p rules = if existsb (matches v6 p) rules then Some v else None.
Proof.
  intros Ht Hr Hp. rewrite <- (decide_uniform v6 p t v rules Ht Hr). f_equal. induction Hp as [|r rules Hx _ IH]; [done|]. cbn. rewrite Hx.
  f_equal. apply IH. by apply Forall_cons in Hr as [_ ?].
Qed.

(** *** The rules made at run time *)

Definition spaceless (nets : list string) : Prop := Forall (λ n, has_char " " n = false) nets.

(** The destination is in one of the networks, of those that are understood. *)
Definition inNets (v6 : bool) (nets : list string) (p : Packet) : bool :=
  existsb (λ n, destValid v6 n && destMatches v6 n (p_dst p)) nets.

Lemma parse_dst n t : has_char " " n = false → has_char " " t = false → parseRule ("-d " +:+ n +:+ " -j " +:+ t) = Some ([Dst n], t).
Proof.
  intros Hn Ht. unfold parseRule. change ("-d " +:+ n +:+ " -j " +:+ t) with ("-d" +:+ String " " (n +:+ String " " ("-j" +:+ String " " t))).
  rewrite !qsplit_app, qsplit_none by done. done.
Qed.

Lemma netRules_matches t nets p : has_char " " t = false → spaceless nets →
  Forall (λ r, (snd <$> parseRule r) = Some t) (map (λ n, "-d " +:+ n +:+ " -j " +:+ t) nets) ∧
  existsb (matches false p) (map (λ n, "-d " +:+ n +:+ " -j " +:+ t) nets) = inNets false nets p.
Proof.
  intros Ht Hn. induction Hn as [|n nets Hn _ [IH1 IH2]]; [done|]. cbn [map existsb inNets]. unfold inNets in *. rewrite IH2. unfold matches.
  split; [constructor; [|done]|]; rewrite parse_dst by done; [done|]. cbn. by rewrite andb_true_r.
Qed.

Lemma parse_dns i n t : has_char " " i = false → has_char " " n = false → has_char " " t = false →
  parseRule ("-o " +:+ i +:+ " -d " +:+ n +:+ " -p " +:+ t +:+ " --dport 53 -j ACCEPT") =
    Some ([OutIf false i; Dst n; Proto t; DPort "53"], "ACCEPT").
Proof.
  intros Hi Hn Ht. unfold parseRule. change ("-o " +:+ i +:+ " -d " +:+ n +:+ " -p " +:+ t +:+ " --dport 53 -j ACCEPT") with
    ("-o" +:+ String " " (i +:+ String " " ("-d" +:+ String " " (n +:+ String " " ("-p" +:+ String " " (t +:+ String " " "--dport 53 -j ACCEPT")))))).
  rewrite !qsplit_app by done. done.
Qed.

(** *** What the packets are *)

Definition loopback (p : Packet) : bool := interfaceMatches "lo+" (p_interface p).
Definition tunnel (p : Packet) : bool := interfaceMatches "amn0+" (p_interface p) || interfaceMatches "tun0+" (p_interface p).
Definition dnsQuery (p : Packet) : bool := (String.eqb "udp" (p_proto p) || String.eqb "tcp" (p_proto p)) && (p_dport p =? 53).
Definition lan (v6 : bool) (p : Packet) : bool :=
  existsb (λ n, destMatches v6 n (p_dst p))
    (if v6 then ["fc00::/7"; "fe80::/10"; "ff00::/8"]
     else ["10.0.0.0/8"; "169.254.0.0/16"; "172.16.0.0/12"; "192.168.0.0/16"; "224.0.0.0/4"; "255.255.255.255/32"]).
Definition dhcp (v6 : bool) (p : Packet) : bool :=
  String.eqb "udp" (p_proto p) &&
  if v6 then destMatches true "ff00::/8" (p_dst p) && (p_sport p =? 546) && (p_dport p =? 547)
  else destMatches false "255.255.255.255" (p_dst p) && (p_sport p =? 68) && (p_dport p =? 67).

Lemma port_eqb n z : String.eqb (pretty n) (pretty z) = (z =? n).
Proof.
  destruct (Z.eqb_spec z n) as [->|Hne]; [apply String.eqb_refl|]. apply String.eqb_neq. intros H%(inj pretty). by subst.
Qed.

Lemma dnsRules_matches servers p : spaceless servers →
  Forall (λ r, (snd <$> parseRule r) = Some "ACCEPT") (getDNSRules servers) ∧
  existsb (matches false p) (getDNSRules servers) = inNets false servers p && tunnel p && dnsQuery p.
Proof.
  intros Hn. induction Hn as [|n servers Hn _ [IH1 IH2]]; [done|]. unfold getDNSRules in *. cbn [flat_map]. rewrite existsb_app, IH2.
  pose proof (parse_dns "amn0+" n "udp" eq_refl Hn eq_refl) as H1. pose proof (parse_dns "amn0+" n "tcp" eq_refl Hn eq_refl) as H2.
  pose proof (parse_dns "tun0+" n "udp" eq_refl Hn eq_refl) as H3. pose proof (parse_dns "tun0+" n "tcp" eq_refl Hn eq_refl) as H4.
  cbn [String.append] in *. rewrite !Forall_app, !Forall_cons, Forall_nil.
  split; [by rewrite H1, H2, H3, H4|]. cbn [existsb]. unfold matches. rewrite H1, H2, H3, H4.
  cbn [forallb condValid condHolds]. unfold inNets, tunnel, dnsQuery. cbn [existsb]. change "53" with (pretty 53). rewrite port_eqb. cbn [xorb].
  by destruct (interfaceMatches "amn0+" _), (interfaceMatches "tun0+" _), (destValid false n), (destMatches false n _), (String.eqb "udp" _), (String.eqb "tcp" _), (p_dport p =? 53), (existsb _ servers).
Qed.

End Rules.

(** One call, from the hypothesis on the state before it. *)
Ltac guarded_step H :=
  first [ apply enable_guarded; [reflexivity|exact H]
        | apply update_guarded; [reflexivity|apply (bool_decide_unpack _); vm_compute; exact I|assumption|exact H] ].
Ltac guarded_bind H := apply gives_bind; eapply gives_mono; [guarded_step H|]; clear H; intros [] ? H; cbn beta in H.

(** ** Verdicts *)

Section Verdicts.
  Context {W : Type} {filter : PacketFilter W} {laws : PacketFilterLaws filter} {dlaws : DestLaws filter}
    {splitting : Splitting W} {slaws : SplittingLaws W splitting}.
  Import LinuxFirewall.

(** What the rules say of a packet; [None] leaves it to the rules of others. *)
Definition verdict (params : FirewallParams) (v6 : bool) (p : Packet) : option Verdict :=
  if loopback p then Some Accept
  else if v6 then if lan true p || dhcp true p then Some Accept else Some Reject
  else if dnsQuery p then if tunnel p && inNets false (dnsServers params) p then Some Accept else Some Reject
  else if lan false p || dhcp false p || tunnel p then Some Accept
  else if blockNets params && inNets false (blockAddrs params) p then Some Reject
  else if allowNets params && inNets false (allowAddrs params) p then Some Accept
  else if blockAll params then Some Reject
  else None.

(** The anchors after the calls that both kill switches make. *)
Definition applied (params : FirewallParams) (a : Anchors) : Anchors :=
  let taken rules := List.filter (plainRule false) rules in
  switchOn IPVersion.Both "400.allowPIA" true
    (switchOn IPVersion.IPv4 "320.allowDNS" true
      (setRules "320.allowDNS" (taken (getDNSRules (dnsServers params)))
        (switchOn IPVersion.IPv4 "310.blockDNS" true
          (switchOn IPVersion.Both "300.allowLAN" true
            (switchOn IPVersion.Both "290.allowDHCP" true
              (switchOn IPVersion.IPv6 "250.blockIPv6" true
                (switchOn IPVersion.IPv4 "200.allowVPN" true
                  (setRules "120.blockNets" (taken (getBlockRule (blockAddrs params)))
                    (switchOn IPVersion.IPv4 "120.blockNets" (blockNets params)
                      (setRules "110.allowNets" (taken (getAllowRule (allowAddrs params)))
                        (switchOn IPVersion.IPv4 "110.allowNets" (allowNets params)
                          (switchOn IPVersion.Both "100.blockAll" (blockAll params)
                            (switchOn IPVersion.Both "000.allowLoopback" true a))))))))))))).

Definition readable (params : FirewallParams) : Prop :=
  spaceless (dnsServers params) ∧ spaceless (allowAddrs params) ∧ spaceless (blockAddrs params).

Lemma filter_plain v6 rules : Forall (λ r, plainRule v6 r = true) (List.filter (plainRule v6) rules).
Proof. apply Forall_forall. intros r Hr%list_elem_of_In%filter_In. apply Hr. Qed.

Lemma applied_sound params a : sound a → idle a → sound (applied params a) ∧ idle (applied params a).
Proof.
  intros Ha Hi. split; [|exact Hi]. intros v6 x Hx. destruct (Ha v6 x Hx) as [H1 H2]. cbn [applied an_rules setRules switchOn].
  destruct v6; cbn [negb andb]; [done|]. assert (∀ y, y ∈ dynamicAnchors → String.eqb x y = true → x ∈ dynamicAnchors) as Hd
    by (intros y Hy <-%String.eqb_eq; done).
  destruct (String.eqb x "320.allowDNS") eqn:E1; [|destruct (String.eqb x "120.blockNets") eqn:E2; [|destruct (String.eqb x "110.allowNets") eqn:E3; [|done]]];
    (split; [apply filter_plain|intros [|Hn]; [done|]; destruct Hn; eapply Hd; [|eassumption]; apply (bool_decide_unpack _); vm_compute; exact I]).
Qed.

Ltac read_rules := repeat match goal with |- context [parseRule ?r] => let y := eval vm_compute in (parseRule r) in change (parseRule r) with y end.

(** The verdict of an anchor with fixed rules. *)
Lemma fixed_anchor v6 p x t v : x ∈ anchorNames v6 → verdictOf t = Some v → Forall (λ r, (snd <$> parseRule r) = Some t) (initialRules v6 x) →
  decideRules v6 p (initialRules v6 x) = if existsb (matches v6 p) (initialRules v6 x) then Some v else None.
Proof. intros Hx Ht Hr. apply (decide_fixed v6 p t); [done|done|by apply fixed_plain]. Qed.

Lemma valid_net v6 n : n ∈ fixedNets v6 → destValid v6 n = true.
Proof. apply fixed_valid. Qed.

(** The fixed rules, as conditions on packets. *)
Lemma fixed_matches p :
  (∀ v6, existsb (matches v6 p) (initialRules v6 "000.allowLoopback") = loopback p) ∧
  existsb (matches false p) (initialRules false "310.blockDNS") = dnsQuery p ∧
  (∀ v6, existsb (matches v6 p) (initialRules v6 "300.allowLAN") = lan v6 p) ∧
  (∀ v6, existsb (matches v6 p) (initialRules v6 "290.allowDHCP") = dhcp v6 p) ∧
  existsb (matches true p) (initialRules true "250.blockIPv6") = negb (loopback p) ∧
  existsb (matches false p) (initialRules false "200.allowVPN") = tunnel p ∧
  (∀ v6, existsb (matches v6 p) (initialRules v6 "100.blockAll") = true).
Proof.
  split_and!; [intros []| |intros []|intros []| | |intros []]; unfold initialRules, anchorsFor; cbn -[parseRule pretty];
    unfold matches; read_rules; cbn [forallb condValid condHolds existsb xorb]; unfold lan, dhcp, loopback, tunnel, dnsQuery; cbn [existsb];
    rewrite ?valid_net by (apply (bool_decide_unpack _); vm_compute; exact I);
    change "53" with (pretty 53); change "546" with (pretty 546); change "547" with (pretty 547); change "68" with (pretty 68); change "67" with (pretty 67);
    rewrite ?port_eqb; cbn [andb orb]; rewrite ?andb_true_r, ?orb_false_r, ?xorb_true_l, ?xorb_false_l, ?andb_assoc; try done.
  by destruct (String.eqb "udp" _), (String.eqb "tcp" _), (p_dport p =? 53).
Qed.

(** The decision of the anchors is the verdict. *)
Lemma applied_verdict params a v6 p : sound a → idle a → readable params →
  decideAnchors v6 p (an_on (applied params a) v6) (an_rules (applied params a) v6) (anchorNames v6) = verdict params v6 p.
Proof.
  intros Ha [Hi1 Hi2] (Hd & Hal & Hbl).
  destruct (fixed_matches p) as (F1 & F2 & F3 & F4 & F5 & F6 & F7).
  destruct (dnsRules_matches (dnsServers params) p Hd) as [D1 D2].
  destruct (netRules_matches "ACCEPT" (allowAddrs params) p eq_refl Hal) as [A1 A2].
  destruct (netRules_matches "REJECT" (blockAddrs params) p eq_refl Hbl) as [B1 B2].
  pose proof (decide_uniform false p "ACCEPT" Accept _ eq_refl D1) as D. rewrite D2 in D.
  pose proof (decide_uniform false p "ACCEPT" Accept _ eq_refl A1) as A. rewrite A2 in A.
  pose proof (decide_uniform false p "REJECT" Reject _ eq_refl B1) as B. rewrite B2 in B.
  assert (∀ x t v, x ∈ anchorNames v6 → v6 = true ∨ x ∉ dynamicAnchors → verdictOf t = Some v → Forall (λ r, (snd <$> parseRule r) = Some t) (initialRules v6 x) →
    decideRules v6 p (an_rules a v6 x) = if existsb (matches v6 p) (initialRules v6 x) then Some v else None) as Hfix.
  { intros x t v Hx Hdyn Ht Hr. rewrite (proj2 (Ha v6 x Hx) Hdyn). by apply (fixed_anchor v6 p x t). }
  pose proof (λ x t v Hx Hdyn Hv, Hfix x t v (bool_decide_unpack _ Hx) (or_intror (bool_decide_unpack _ Hdyn)) Hv) as Hout.
  pose proof (λ x t v Hx Hv E, Hfix x t v (bool_decide_unpack _ Hx) (or_introl E) Hv) as Hsix.
  unfold verdict. destruct v6.
  - change (anchorNames true) with ["000.allowLoopback"; "310.blockDNS"; "300.allowLAN"; "290.allowDHCP"; "250.blockIPv6"; "200.allowVPN"; "100.blockAll"].
    cbn [decideAnchors applied an_on an_rules switchOn setRules versions negb andb String.eqb Ascii.eqb Bool.eqb]. rewrite Hi1, Hi2.
    rewrite (Hsix "000.allowLoopback" "ACCEPT" Accept), (Hsix "300.allowLAN" "ACCEPT" Accept), (Hsix "290.allowDHCP" "ACCEPT" Accept),
      (Hsix "250.blockIPv6" "REJECT" Reject) by (done || (apply (bool_decide_unpack _); vm_compute; exact I)).
    rewrite F1, F3, F4, F5. by destruct (loopback p), (lan true p), (dhcp true p).
  - change (anchorNames false) with ["000.allowLoopback"; "320.allowDNS"; "310.blockDNS"; "300.allowLAN"; "290.allowDHCP"; "200.allowVPN"; "120.blockNets"; "110.allowNets"; "100.blockAll"].
    cbn [decideAnchors applied an_on an_rules switchOn setRules versions negb andb String.eqb Ascii.eqb Bool.eqb].
    change (getAllowRule (allowAddrs params)) with (map (λ n, "-d " +:+ n +:+ " -j " +:+ "ACCEPT") (allowAddrs params)).
    change (getBlockRule (blockAddrs params)) with (map (λ n, "-d " +:+ n +:+ " -j " +:+ "REJECT") (blockAddrs params)).
    rewrite (Hout "000.allowLoopback" "ACCEPT" Accept), (Hout "310.blockDNS" "REJECT" Reject), (Hout "300.allowLAN" "ACCEPT" Accept), (Hout "290.allowDHCP" "ACCEPT" Accept),
      (Hout "200.allowVPN" "ACCEPT" Accept), (Hout "100.blockAll" "REJECT" Reject) by (done || (apply (bool_decide_unpack _); vm_compute; exact I)).
    rewrite F1, F2, F3, F4, F6, F7, A, B, D.
    destruct (loopback p), (dnsQuery p), (lan false p), (dhcp false p), (tunnel p), (inNets false (dnsServers params) p); try done;
      by destruct (blockNets params), (inNets false (blockAddrs params) p), (allowNets params), (inNets false (allowAddrs params) p), (blockAll params).
Qed.

(** *** The calls *)

Lemma target_decides t v rules : verdictOf t = Some v → Forall (λ r, (snd <$> parseRule r) = Some t) rules → Forall (λ r, decides r = true) rules.
Proof.
  intros Ht Hr. eapply Forall_impl; [exact Hr|]. intros r. unfold decides. destruct (parseRule r) as [[cs t']|]; [|done]. cbn. intros [= ->].
  unfold verdictOf in Ht. by destruct (String.eqb t "ACCEPT"), (String.eqb t "REJECT").
Qed.

Lemma runtime_decides params : readable params → Forall (λ r, decides r = true) (getDNSRules (dnsServers params)) ∧
  Forall (λ r, decides r = true) (getAllowRule (allowAddrs params)) ∧ Forall (λ r, decides r = true) (getBlockRule (blockAddrs params)).
Proof.
  intros (Hd & Ha & Hb). pose (p := mkPacket "" 0 "" 0 0). split_and!.
  - by eapply (target_decides "ACCEPT"), (dnsRules_matches _ p).
  - by eapply (target_decides "ACCEPT"), (netRules_matches "ACCEPT" _ p).
  - by eapply (target_decides "REJECT"), (netRules_matches "REJECT" _ p).
Qed.

Lemma enableKillSwitch_guarded configStr base a pre s :
  let r := IpcServer.request configStr in
  let params := mkParams (IpcServer.requestDns configStr) (IpcServer.rq_allownets r) (IpcServer.rq_blocknets r) (IpcServer.rq_blockAll r) (IpcServer.rq_allowNets r) (IpcServer.rq_blockAll r) in
  readable params → Guarded base a pre s → gives (IpcServer.enableKillSwitch configStr) (λ b s', b = true ∧ Guarded base (applied params a) pre s') s.
Proof.
  cbv zeta. intros (H1 & H2 & H3)%runtime_decides Hs. unfold IpcServer.enableKillSwitch, updateAllowNets, updateBlockNets, updateDNSServers. cbv zeta.
  do 14 guarded_bind Hs. apply gives_ret. by split.
Qed.

End Verdicts.
