(* ===== verification/KillSwitchCorrect.v ===== *)
(** * Correctness of the kill switch on Linux

    The theorems about packets, for [WireguardUtilsLinux], for the privileged service and
    for the daemon that runs on Linux ([LinuxPlatform]). *)

From stdpp Require Import prelude strings list gmap pretty.
From Stdlib Require Import ZArith Lia Ascii.
From S2P Require Import Prelude IPAddress QtJson InterfaceConfig Daemon PacketFilter LinuxFirewall LinuxFirewallSpec WireguardLinux SimLinux LinuxDaemon IpcServer KillSwitch.

Local Open Scope Z_scope.

Section Tunnel.
  Context {W : Type} {filter : PacketFilter W} {laws : PacketFilterLaws filter} {dlaws : DestLaws filter}
    {splitting : Splitting W} {slaws : SplittingLaws W splitting} {host : LinuxHost W} {hlaws : LinuxHostLaws W host}
    {codec : WgCodec} {env : QtEnv}.
  Import WireguardUtilsLinux.

(** The part of the state the firewall has. *)
Definition fw (s : Sys WgUtils W) : Sys Firewall W := mkSys (wg_firewall (globals s)) (world s).

(** What the filter does with an outgoing packet. *)
Definition filtered (d : nat) (v6 : bool) (m : Chains) (p : Packet) : option Verdict := traverse d v6 m p (default [] (m !! kOutputChain)).

(** The firewall is in front of the other rules, with what [params] ask for. *)
Definition Protected (base : bool → Chains) (params : FirewallParams) (s : Sys Firewall W) : Prop :=
  ∃ a, sound a ∧ idle a ∧ readable params ∧ Guarded base (applied params a) (λ _, []) s.

(** The states between the operations: off, or on, where others may have put rules before
    the firewall's. *)
Definition Regular (base : bool → Chains) (s : Sys Firewall W) : Prop :=
  Off base s ∨ ∃ a pre, sound a ∧ idle a ∧ Guarded base a pre s.

Lemma protected_regular base params s : Protected base params s → Regular base s.
Proof. intros (a & Ha & Hi & Hr & Hs). right. destruct (applied_sound params a Ha Hi). by eexists _, _. Qed.

Lemma protected_filtered base params s d v6 p : Base base → Protected base params s →
  filtered (S (S (S d))) v6 (table v6 s) p =
    match verdict params v6 p with Some v => Some v | None => filtered (S (S (S d))) v6 (base v6) p end.
Proof.
  intros Hb (a & Ha & Hi & Hr & Hg). destruct (Hg v6) as (Hl & Ho & post & H1 & H2). destruct (Hb v6) as [Hf _]. unfold filtered. rewrite H1, H2.
  cbn [app default]. rewrite (traverse_root d v6 _ p _ _ _ post Hl).
  - rewrite applied_verdict by done. destruct (verdict params v6 p); [done|]. apply traverse_foreign; [done|done|]. by apply (Hf kOutputChain).
  - destruct (applied_sound params a Ha Hi) as [Hs _]. pose proof (anchorNames_good v6) as Hn. rewrite Forall_forall in *. intros x Hx. split; [by apply Hn|]. by apply Hs.
Qed.

Lemma off_filtered base s d v6 p : Base base → Off base s → filtered d v6 (table v6 s) p = filtered d v6 (base v6) p.
Proof.
  intros Hb Hs. destruct (Hb v6) as [Hf [out Hout]]. unfold filtered. rewrite Hs, Hout by done. apply traverse_foreign; [done|intros; by apply Hs|]. by apply (Hf kOutputChain).
Qed.

Lemma gives_firewall {A} (m : LinuxFirewall.FwM W A) Q s : gives m Q (fw s) → gives (firewall m) (λ a s', Q a (fw s')) s.
Proof.
  intros (a & s' & t & Hm & HQ)%gives_run. apply gives_run. unfold firewall. fold (fw s). rewrite Hm. eexists a, _, _. split; [done|]. by destruct s'.
Qed.

(** *** The kill switch of the daemon's back end *)

Lemma prepared base s s1 b : Base base → Regular base s →
  b = match table false s !! kOutputChain with Some l => bool_decide (jump kRootChain ∈ l) | None => false end → (∀ v6, table v6 s1 = table v6 s) →
  gives (when (negb b) LinuxFirewall.install) (λ _ s', ∃ a pre, sound a ∧ idle a ∧ Guarded base a pre s') s1.
Proof.
  intros Hb Hs -> Hs1. destruct (Hb false) as [Hf [out Hout]].
  destruct Hs as [Hs|(a & pre & Ha & Hi & Hs)].
  - rewrite Hs, Hout, bool_decide_false by (done || by apply unlinked_jump, foreign_unlinked, (Hf kOutputChain)). cbn [negb].
    apply gives_when; [|done]. intros _. eapply gives_mono; [apply install_guarded; [exact Hb|]|].
    + intros v6 k Hk. rewrite Hs1. by apply Hs.
    + intros [] s2 H2. exists fresh. destruct fresh_sound. by eexists.
  - destruct (Hs false) as (_ & _ & post & H1 & H2). rewrite H2, bool_decide_true by (apply elem_of_app; right; left). apply gives_when; [done|]. intros _.
    exists a, pre. split; [done|]. split; [done|]. intros v6. rewrite Hs1. apply Hs.
Qed.

Lemma applyFirewallRules_protected params base s : Base base → readable params → Regular base (fw s) →
  gives (applyFirewallRules params) (λ _ s', Protected base params (fw s')) s.
Proof.
  intros Hb Hr Hs. destruct (runtime_decides params Hr) as (H1 & H2 & H3). unfold applyFirewallRules. apply (gives_firewall _ (λ _, Protected base params)). cbv zeta.
  unfold LinuxFirewall.updateAllowNets, LinuxFirewall.updateBlockNets, LinuxFirewall.updateDNSServers.
  apply gives_bind. eapply gives_mono; [apply isInstalled_gives|]. intros b s1 [Hb1 Hs1].
  apply gives_bind. eapply gives_mono; [by apply (prepared base (fw s))|]. intros [] s2 (a & pre & Ha & Hi & Hg).
  apply gives_bind. eapply gives_mono; [by apply (ensure_guarded base a pre)|]. clear Hg. intros [] s3 Hg. cbn beta in Hg.
  do 13 (guarded_bind Hg). eapply gives_mono; [guarded_step Hg|]. intros [] s4 H4. by exists a.
Qed.

Lemma uninstall_regular base s : Base base → Regular base (fw s) → gives (firewall LinuxFirewall.uninstall) (λ _ s', Off base (fw s')) s.
Proof.
  intros Hb Hs. apply (gives_firewall _ (λ _, Off base)). apply uninstall_off; [done|]. destruct Hs as [?|(a & pre & _ & _ & ?)]; [by left|right; by eexists _, _].
Qed.

(** *** The rest of the back end leaves the filter alone *)

Definition framed {A} (m : WgM A) : Prop := ∀ s, gives m (λ _ s', ∀ v6, table v6 (fw s') = table v6 (fw s)) s.

Lemma framed_ret {A} (a : A) : framed (mret a).
Proof. intros s. by apply gives_ret. Qed.
Lemma framed_bind {A B} (m : WgM A) (k : A → WgM B) : framed m → (∀ a, framed (k a)) → framed (m ≫= k).
Proof.
  intros Hm Hk s. apply gives_bind. eapply gives_mono; [apply Hm|]. intros a s1 H1. eapply gives_mono; [apply Hk|]. intros b s2 H2 v6. by rewrite H2, H1.
Qed.
Lemma framed_gets {A} (f : Sys WgUtils W → A) : framed (gets f).
Proof. intros s. by apply gives_gets. Qed.
Lemma framed_query {A} (f : W → A) : framed (query f).
Proof. intros s. by apply gives_gets. Qed.
Lemma framed_doHost o : framed (doHost o).
Proof.
  intros s. apply gives_run. unfold doHost, ask. destruct (hostOp o (world s)) as [b w] eqn:Ho. eexists b, _, _. split; [done|]. intros v6.
  pose proof (hostOp_frame o v6 kFilterTable (world s)) as Hf. by rewrite Ho in Hf.
Qed.
Lemma framed_setIfname n : framed (setIfname n).
Proof. intros s. by apply gives_modify. Qed.
Lemma framed_setMonitor m : framed (setMonitor m).
Proof. intros s. by apply gives_modify. Qed.
Lemma framed_readChunk : framed readChunk.
Proof.
  intros s. apply gives_run. unfold readChunk. destruct (readAll (world s)) as [c w] eqn:Hc. eexists c, _, _. split; [done|]. intros v6.
  pose proof (readAll_frame v6 kFilterTable (world s)) as Hf. by rewrite Hc in Hf.
Qed.

Create HintDb framed.
#[local] Hint Resolve framed_ret framed_gets framed_query framed_doHost framed_setIfname framed_setMonitor framed_readChunk : framed.

Ltac framed :=
  repeat first [ solve [auto with framed] | apply framed_bind; [|intros ?] | match goal with |- framed (match ?x with _ => _ end) => destruct x end ].

Lemma framed_waitForTunnelName n : framed (waitForTunnelName n).
Proof. induction n as [|n IH]; cbn [waitForTunnelName]; framed; exact IH. Qed.
Lemma framed_readReply n r : framed (readReply n r).
Proof. revert r. induction n as [|n IH]; intros r; cbn [readReply]; destruct (hasText newlines r); framed; apply IH. Qed.
#[local] Hint Resolve framed_waitForTunnelName framed_readReply : framed.

Lemma framed_uapiCommand c : framed (uapiCommand c).
Proof. unfold uapiCommand. framed. Qed.
Lemma framed_rtmSendRoute a f t p : framed (rtmSendRoute a f t p).
Proof. unfold rtmSendRoute. framed. Qed.
#[local] Hint Resolve framed_uapiCommand framed_rtmSendRoute : framed.

(** Every call of the daemon but the two that add and delete the interface. *)
Lemma framed_updatePeer c : framed (updatePeer c).
Proof. unfold updatePeer, peerExclusions, monitorAddExclusion. framed. Qed.
Lemma framed_deletePeer c : framed (deletePeer c).
Proof. unfold deletePeer, peerExclusions, monitorDeleteExclusion. framed. Qed.
Lemma framed_getPeerStatus : framed WireguardUtilsLinux.getPeerStatus.
Proof. unfold WireguardUtilsLinux.getPeerStatus. framed. Qed.
Lemma framed_updateRoutePrefix p : framed (updateRoutePrefix p).
Proof. unfold updateRoutePrefix, withMonitor, andThen, insertRoute. framed. Qed.
Lemma framed_deleteRoutePrefix p : framed (deleteRoutePrefix p).
Proof. unfold deleteRoutePrefix, withMonitor, andThen, insertRoute, deleteRoute. framed. Qed.
Lemma framed_addExclusionRoute p : framed (WireguardUtilsLinux.addExclusionRoute p).
Proof. unfold WireguardUtilsLinux.addExclusionRoute, withMonitor, monitorAddExclusion. framed. Qed.
Lemma framed_deleteExclusionRoute p : framed (deleteExclusionRoute p).
Proof. unfold deleteExclusionRoute, withMonitor, monitorDeleteExclusion. framed. Qed.
Lemma framed_interfaceExists : framed interfaceExists.
Proof. unfold interfaceExists. framed. Qed.

Lemma off_frame base s s' : (∀ v6, table v6 s' = table v6 s) → Off base s → Off base s'.
Proof. intros He Hs v6 k Hk. rewrite He. by apply Hs. Qed.
Lemma guarded_frame base a pre s s' : (∀ v6, table v6 s' = table v6 s) → Guarded base a pre s → Guarded base a pre s'.
Proof. intros He Hs v6. rewrite He. apply Hs. Qed.
Lemma regular_frame base s s' : (∀ v6, table v6 s' = table v6 s) → Regular base s → Regular base s'.
Proof. intros He [Hs|(a & pre & Ha & Hi & Hs)]; [left; by eapply off_frame|]. right. exists a, pre. split; [done|]. split; [done|by eapply guarded_frame]. Qed.
Lemma protected_frame base params s s' : (∀ v6, table v6 s' = table v6 s) → Protected base params s → Protected base params s'.
Proof. intros He (a & Ha & Hi & Hr & Hs). exists a. split_and!; [done..|]. by eapply guarded_frame. Qed.

(** *** Adding and deleting the interface *)

(** The kill switch is on exactly after a success that asked for it. *)
Lemma addInterface_gives c base s : Base base → readable (firewallParams c) → Regular base (fw s) →
  gives (addInterface c) (λ ok s', if ok && m_killSwitchEnabled c then Protected base (firewallParams c) (fw s')
    else ∀ v6, table v6 (fw s') = table v6 (fw s)) s.
Proof.
  intros Hb Hr Hs. assert (∀ s1, (∀ v6, table v6 (fw s1) = table v6 (fw s)) → gives (mret false : WgM bool)
    (λ ok s', if ok && m_killSwitchEnabled c then Protected base (firewallParams c) (fw s') else ∀ v6, table v6 (fw s') = table v6 (fw s)) s1) as Hfalse
    by (intros s1 H1; by apply gives_ret).
  unfold addInterface. apply gives_bind, gives_gets. destruct (tunnelState (world s)); [|by apply Hfalse..].
  apply gives_bind. eapply gives_mono; [apply framed_doHost|]. intros b1 s1 H1. apply gives_bind. eapply gives_mono; [apply framed_doHost|]. intros b2 s2 H2.
  destruct b2; last first.
  { apply gives_bind. eapply gives_mono; [apply framed_doHost|]. intros b3 s3 H3. apply Hfalse. intros v6. by rewrite H3, H2, H1. }
  apply gives_bind, gives_gets. apply gives_bind. eapply gives_mono; [apply framed_waitForTunnelName|]. intros name s3 H3.
  apply gives_bind. eapply gives_mono; [apply framed_setIfname|]. intros [] s4 H4. destruct name as [name|]; last first.
  { apply gives_bind. eapply gives_mono; [apply framed_doHost|]. intros b5 s5 H5. apply Hfalse. intros v6. by rewrite H5, H4, H3, H2, H1. }
  apply gives_bind. eapply gives_mono; [apply framed_setMonitor|]. intros [] s5 H5. apply gives_bind. eapply gives_mono; [apply framed_uapiCommand|]. intros reply s6 H6.
  assert (∀ v6, table v6 (fw s6) = table v6 (fw s)) as He by (intros v6; by rewrite H6, H5, H4, H3, H2, H1).
  apply gives_bind. apply gives_when.
  - intros [-> ->]%andb_prop. eapply gives_mono; [apply (applyFirewallRules_protected _ base); [done|done|by eapply regular_frame]|]. intros [] s7 H7. by apply gives_ret.
  - intros Hn. apply gives_ret. by rewrite Hn.
Qed.

Lemma deleteInterface_gives base s : Base base → Regular base (fw s) →
  gives deleteInterface (λ ok s', if ok then Off base (fw s') else ∀ v6, table v6 (fw s') = table v6 (fw s)) s.
Proof.
  intros Hb Hs. unfold deleteInterface. apply gives_bind. eapply gives_mono; [apply framed_setMonitor|]. intros [] s1 H1. apply gives_bind, gives_gets.
  assert (gives (finished ← doHost TerminateTunnel; when (negb finished) (doHost KillTunnel;; doHost WaitFinished;; mret tt);; doHost RemoveNameFile;;
    firewall LinuxFirewall.uninstall;; mret true) (λ ok s', if ok then Off base (fw s') else ∀ v6, table v6 (fw s') = table v6 (fw s)) s1) as Hrest.
  { apply gives_bind. eapply gives_mono; [apply framed_doHost|]. intros b s2 H2. apply gives_bind.
    assert (framed (when (negb b) (doHost KillTunnel;; doHost WaitFinished;; mret tt))) as Hw by (destruct b; cbn [negb when]; framed).
    eapply gives_mono; [apply Hw|]. intros [] s3 H3. apply gives_bind. eapply gives_mono; [apply framed_doHost|]. intros b4 s4 H4.
    apply gives_bind. eapply gives_mono; [apply (uninstall_regular base); [done|]|].
    - eapply regular_frame; [|exact Hs]. intros v6. by rewrite H4, H3, H2, H1.
    - intros [] s5 H5. by apply gives_ret. }
  destruct (tunnelState (world s1)); [by apply gives_ret|exact Hrest..].
Qed.

End Tunnel.

(** ** The daemon *)

Section Daemon.
  Context {W : Type} {filter : PacketFilter W} {laws : PacketFilterLaws filter} {dlaws : DestLaws filter}
    {splitting : Splitting W} {slaws : SplittingLaws W splitting} {host : LinuxHost W} {hlaws : LinuxHostLaws W host}
    {codec : WgCodec} {env : QtEnv}.
  Context (dates : option Z → string) (order : gmap IPAddress Z → list IPAddress).

Let platform : Platform (Sys WgUtils W) := LinuxPlatform dates order.
#[local] Existing Instance platform.

(** The operations keep a property of the back end. *)
Definition stable {A} (P : Sys WgUtils W → Prop) (m : DM (Sys WgUtils W) A) : Prop := ∀ s, P (world s) → gives m (λ _ s', P (world s')) s.

Lemma stable_ret {A} P (a : A) : stable P (mret a).
Proof. intros s Hs. by apply gives_ret. Qed.
Lemma stable_bind {A B} P (m : DM _ A) (k : A → DM _ B) : stable P m → (∀ a, stable P (k a)) → stable P (m ≫= k).
Proof. intros Hm Hk s Hs. apply gives_bind. eapply gives_mono; [by apply Hm|]. intros a s1 H1. by apply Hk. Qed.
Lemma stable_getD {A} P (f : Daemon → A) : stable P (getD f).
Proof. intros s Hs. by apply gives_gets. Qed.
Lemma stable_query {A} P (f : Sys WgUtils W → A) : stable P (query f).
Proof. intros s Hs. by apply gives_gets. Qed.
Lemma stable_setD P f : stable P (setD f).
Proof. intros s Hs. by apply gives_modify. Qed.
Lemma stable_emit P e : stable P (emit e).
Proof. intros s Hs. by apply gives_emit. Qed.
Lemma stable_for_each {A} P (l : list A) (f : A → DM _ unit) : (∀ x, stable P (f x)) → stable P (for_each l f).
Proof. intros Hf. induction l as [|x l IH]; [apply stable_ret|]. by apply stable_bind. Qed.
Lemma stable_when P (b : bool) (m : DM _ unit) : stable P m → stable P (when b m).
Proof. destruct b; [done|]. intros _. apply stable_ret. Qed.
Lemma stable_require P (m k : DM _ bool) : stable P m → stable P k → stable P (require m k).
Proof. intros Hm Hk. apply stable_bind; [done|]. intros []; [done|apply stable_ret]. Qed.

(** A property of the filter alone. *)
Definition ofTables (P : Sys WgUtils W → Prop) : Prop := ∀ w w', (∀ v6, table v6 (fw w') = table v6 (fw w)) → P w → P w'.

Definition benign (c : Call) : bool := match c with AddInterface _ | DeleteInterface => false | _ => true end.

Lemma outcome_gives {A} (d : A) (m : WireguardUtilsLinux.WgM (W := W) A) Q s : gives m Q s → Q (outcome d m s).1 (outcome d m s).2.
Proof. intros (a & s' & t & Hm & HQ)%gives_run. unfold outcome. by rewrite Hm. Qed.

Lemma gives_call c Q s : Q (linuxCall c (world s)).1 (mkSys (globals s) (linuxCall c (world s)).2) → gives (doCall c) Q s.
Proof. intros HQ. apply gives_run. unfold doCall, ask. cbn [call platform LinuxPlatform]. destruct (linuxCall c (world s)) as [b w]. by eexists b, _, _. Qed.

Lemma framed_outcome {A} (d : A) (m : WireguardUtilsLinux.WgM (W := W) A) w v6 : framed m → table v6 (fw (outcome d m w).2) = table v6 (fw w).
Proof. intros Hm. specialize (Hm w). apply (outcome_gives d) in Hm. apply Hm. Qed.

Lemma benign_frame c w v6 : benign c = true → table v6 (fw (linuxCall c w).2) = table v6 (fw w).
Proof.
  intros Hc. destruct c; cbn [linuxCall]; try discriminate Hc; try reflexivity; apply framed_outcome.
  - apply framed_updatePeer.
  - apply framed_deletePeer.
  - apply framed_updateRoutePrefix.
  - apply framed_deleteRoutePrefix.
  - apply framed_addExclusionRoute.
  - apply framed_deleteExclusionRoute.
  - apply framed_doHost.
  - apply framed_doHost.
  - apply framed_doHost.
  - apply framed_doHost.
Qed.

Lemma stable_benign P c : ofTables P → benign c = true → stable P (doCall c).
Proof. intros HP Hc s Hs. apply gives_call. eapply HP; [|exact Hs]. intros v6. by apply benign_frame. Qed.

Ltac stable_step :=
  lazymatch goal with
  | |- stable _ (mret _) => apply stable_ret
  | |- stable _ (getD _) => apply stable_getD
  | |- stable _ (query _) => apply stable_query
  | |- stable _ (setD _) => apply stable_setD
  | |- stable _ (emit _) => apply stable_emit
  | |- stable _ (doCall _) => by apply stable_benign
  | |- stable _ (require _ _) => apply stable_require
  | |- stable _ (for_each _ _) => apply stable_for_each; intros ?
  | |- stable _ (when _ _) => apply stable_when
  | |- stable _ (_ ≫= _) => apply stable_bind; [|intros ?]
  | |- stable _ (match ?x with _ => _ end) => destruct x
  end.
Ltac stable := repeat first [ progress auto with stable nocore | stable_step ].
Create HintDb stable.

(** The parts of the daemon's operations that leave the filter alone. *)
Section Parts.
  Context (P : Sys WgUtils W → Prop) (HP : ofTables P).

Lemma stable_addExclusionRoute ip : stable P (addExclusionRoute ip).
Proof. unfold addExclusionRoute. stable. Qed.
Lemma stable_delExclusionRoute ip : stable P (delExclusionRoute ip).
Proof. unfold delExclusionRoute. stable. Qed.
#[local] Hint Resolve stable_addExclusionRoute stable_delExclusionRoute : stable.
Lemma stable_updateRoutes l : stable P (updateRoutes l).
Proof. induction l as [|ip l IH]; cbn [updateRoutes]; stable. Qed.
Lemma stable_maybeUpdateResolvers c : stable P (maybeUpdateResolvers c).
Proof. unfold maybeUpdateResolvers. stable. Qed.
Lemma stable_restoreResolvers : stable P restoreResolvers.
Proof. unfold restoreResolvers. stable. Qed.
Lemma stable_finishActivation c op : stable P (finishActivation c op).
Proof. unfold finishActivation, startTimer. stable. Qed.
#[local] Hint Resolve stable_updateRoutes stable_maybeUpdateResolvers stable_restoreResolvers stable_finishActivation : stable.
Lemma stable_activateSwitch c : stable P (activateSwitch c).
Proof. unfold activateSwitch, switchServer. cbv zeta. stable. Qed.

(** What follows the interface in the first scenario. *)
Lemma stable_afterInterface c :
  stable P (for_each (m_excludedAddresses c) (λ i, addExclusionRoute (exclusion i);; mret tt);;
    require (doCall (UpdatePeer c))
    (require (maybeUpdateResolvers c)
     (require (if supportIPUtils then require (doCall (AddInterfaceIPs c)) (doCall (SetMTUAndUp c)) else mret true)
      (require (updateRoutes (m_allowedIPAddressRanges c)) (finishActivation c Up))))).
Proof. stable. Qed.

End Parts.

(** *** Activation and deactivation *)

#[local] Abbreviation firewallParams := WireguardUtilsLinux.firewallParams.

Lemma ofTables_protected base params : ofTables (λ w, Protected base params (fw w)).
Proof. intros w w' He. by apply protected_frame. Qed.
Lemma ofTables_regular base : ofTables (λ w, Regular base (fw w)).
Proof. intros w w' He. by apply regular_frame. Qed.

Lemma addInterface_call c base s : Base base → readable (firewallParams c) → Regular base (fw (world s)) →
  gives (doCall (AddInterface c)) (λ ok s', if ok && m_killSwitchEnabled c then Protected base (firewallParams c) (fw (world s'))
    else ∀ v6, table v6 (fw (world s')) = table v6 (fw (world s))) s.
Proof.
  intros Hb Hr Hs. apply gives_call. exact (outcome_gives false _ _ _ (addInterface_gives c base (world s) Hb Hr Hs)).
Qed.

Lemma interfaceExists_call s Q : (∀ w, w = world s → Q match tunnelState (world (world s)) with Running => true | _ => false end (mkSys (globals s) w)) →
  gives (doCall InterfaceExists) Q s.
Proof. intros HQ. apply gives_call. exact (HQ _ eq_refl). Qed.

(** The first scenario, when the interface is not there yet. *)
Lemma activateFresh_protects c base s : Base base → readable (firewallParams c) → Regular base (fw (world s)) →
  gives (activateFresh c) (λ ok s', Regular base (fw (world s')) ∧
    (ok = true → m_killSwitchEnabled c = true → tunnelState (world (world s)) ≠ Running → Protected base (firewallParams c) (fw (world s')))) s.
Proof.
  intros Hb Hr Hs. unfold activateFresh, require at 1. apply gives_bind, gives_call. cbn [linuxCall fst snd].
  apply gives_bind, gives_bind, interfaceExists_call. cbn [globals world]. intros w ->.
  destruct (match tunnelState (world (world s)) with Running => true | _ => false end) eqn:Hex.
  { apply gives_ret. eapply gives_mono; [apply (stable_afterInterface (λ w, Regular base (fw w)) (ofTables_regular base)); exact Hs|].
    intros ok s' H'. split; [exact H'|]. intros _ _ Hn. by destruct (tunnelState (world (world s))). }
  eapply gives_mono; [by apply (addInterface_call c base)|]. cbn [world globals]. intros ok s1 H1. destruct ok; cbn [andb] in H1; last first.
  { apply gives_ret. split; [|done]. by eapply regular_frame. }
  destruct (m_killSwitchEnabled c).
  - eapply gives_mono; [apply (stable_afterInterface _ (ofTables_protected base (firewallParams c))); exact H1|].
    intros ok s' H'. cbn beta in H'. split; [by eapply protected_regular|done].
  - eapply gives_mono; [apply (stable_afterInterface _ (ofTables_regular base)); eapply regular_frame; [exact H1|exact Hs]|]. intros ok s' H'. by split.
Qed.

(** The outcome of a deactivation. *)
Definition released (base : bool → Chains) (ok : bool) (s : Sys Daemon (Sys WgUtils W)) : Prop :=
  Regular base (fw (world s)) ∧ (ok = true → Off base (fw (world s)) ∧ m_connections (globals s) = ∅).

Lemma released_require base m k : stable (λ w, Regular base (fw w)) m →
  (∀ s, Regular base (fw (world s)) → gives k (released base) s) → ∀ s, Regular base (fw (world s)) → gives (require m k) (released base) s.
Proof. intros Hm Hk s Hs. apply gives_bind. eapply gives_mono; [by apply Hm|]. intros b s1 H1. destruct b; [by apply Hk|]. by apply gives_ret. Qed.

Lemma released_seq base (m : DM (Sys WgUtils W) unit) k : stable (λ w, Regular base (fw w)) m →
  (∀ s, Regular base (fw (world s)) → gives k (released base) s) → ∀ s, Regular base (fw (world s)) → gives (m;; k) (released base) s.
Proof. intros Hm Hk s Hs. apply gives_bind. eapply gives_mono; [by apply Hm|]. intros [] s1 H1. by apply Hk. Qed.

Lemma deactivate_releases e base s : Base base → Regular base (fw (world s)) → gives (deactivate e) (released base) s.
Proof.
  intros Hb Hs. pose proof (ofTables_regular base) as HP. unfold deactivate. apply gives_bind, gives_gets.
  apply released_require; [destruct (connectionList _); stable| |exact Hs].
  apply released_seq; [stable|]. apply released_require; [unfold restoreResolvers; stable|]. apply released_require; [stable|]. apply released_seq; [stable|].
  intros s1 H1. apply gives_bind, gives_gets. revert s1 H1. intros s1. apply released_seq; [stable|]. apply released_seq; [stable|]. intros s2 H2.
  apply gives_bind, gives_call. pose proof (outcome_gives false _ _ _ (deleteInterface_gives base (world s2) Hb H2)) as Hd. cbn beta in Hd.
  change (outcome false WireguardUtilsLinux.deleteInterface (world s2)) with (linuxCall DeleteInterface (world s2)) in Hd.
  destruct (linuxCall DeleteInterface (world s2)) as [ok w]. cbn [fst snd] in *. destruct ok.
  - apply gives_bind, gives_modify, gives_ret. split; [by left|done].
  - apply gives_ret. split; [by eapply regular_frame|done].
Qed.

Lemma guard_gives (m : DM (Sys WgUtils W) bool) (R : bool → Sys WgUtils W → Prop) s :
  gives m (λ ok s', R ok (world s')) s → gives (failureGuard m) (λ ok s', R ok (world s')) s.
Proof.
  intros Hm. unfold failureGuard. apply gives_bind. eapply gives_mono; [exact Hm|]. intros ok s1 H1. apply gives_bind.
  apply gives_when; intros _; [apply gives_emit|]; by apply gives_ret.
Qed.

(** From any regular state an activation ends in one; when it succeeds without switching
    servers and had to add the interface, the filter has the rules of the configuration. *)
Lemma activate_unconnected fuel c base s : Base base → readable (firewallParams c) → Regular base (fw (world s)) → m_connections (globals s) !! m_hopType c = None →
  gives (activate (S fuel) c) (λ ok s', Regular base (fw (world s')) ∧
    (ok = true → m_killSwitchEnabled c = true → tunnelState (world (world s)) ≠ Running → Protected base (firewallParams c) (fw (world s')))) s.
Proof.
  intros Hb Hr Hs Hc. cbn [activate]. apply (guard_gives _ (λ ok w, Regular base (fw w) ∧ (ok = true → m_killSwitchEnabled c = true →
    tunnelState (world (world s)) ≠ Running → Protected base (firewallParams c) (fw w)))).
  apply gives_bind, gives_gets. rewrite Hc. by apply activateFresh_protects.
Qed.

Lemma activate_regular c base s : Base base → readable (firewallParams c) → Regular base (fw (world s)) →
  gives (activate 2 c) (λ _ s', Regular base (fw (world s'))) s.
Proof.
  intros Hb Hr Hs. change (activate 2 c) with (failureGuard (m ← getD m_connections; match m !! m_hopType c with
    | Some _ => sw ← supportServerSwitching c; if sw : bool then activateSwitch c else require (deactivate false) (activate 1 c)
    | None => activateFresh c end)).
  apply (guard_gives _ (λ _ w, Regular base (fw w))). apply gives_bind, gives_gets. destruct (m_connections (globals s) !! m_hopType c) as [cn|] eqn:Hc; last first.
  { eapply gives_mono; [by apply (activateFresh_protects c base)|]. by intros ok s' [? _]. }
  apply gives_bind, gives_bind, gives_gets, gives_ret. rewrite Hc. destruct (sameTunnel _ _).
  { by apply (stable_activateSwitch _ (ofTables_regular base)). }
  apply gives_bind. eapply gives_mono; [by apply (deactivate_releases false base)|]. intros ok s1 [H1 H1']. destruct ok; [|by apply gives_ret].
  destruct (H1' eq_refl) as [_ Hempty]. eapply gives_mono; [apply (activate_unconnected 0 c base); [done..|by rewrite Hempty]|]. by intros ok s' [? _].
Qed.


End Daemon.

(** ** The back end *)

Section Theorems.
  Context {W : Type} {filter : PacketFilter W} {laws : PacketFilterLaws filter} {dlaws : DestLaws filter}
    {splitting : Splitting W} {slaws : SplittingLaws W splitting} {host : LinuxHost W} {hlaws : LinuxHostLaws W host}
    {codec : WgCodec} {env : QtEnv}.
  Import WireguardUtilsLinux.

(** A packet that may leave past the tunnel. *)
Definition exempt (config : InterfaceConfig) (v6 : bool) (p : Packet) : bool :=
  loopback p || lan v6 p || dhcp v6 p || negb v6 && (tunnel p || inNets false (m_excludedAddresses config) p).

(** [C7] No leak.  Once [addInterface] has succeeded for a configuration with the kill
    switch that routes all of IPv4 through the tunnel, the filter decides on every packet,
    and a packet it does not reject is for the loopback interface, for the local network
    or for DHCP, or, over IPv4, goes through the tunnel or to an excluded address; a query
    for names over IPv4 is accepted only towards the configured server and through the
    tunnel, or over loopback.  Over IPv6 every packet for the local network is accepted,
    queries for names included. *)
Theorem killSwitch_no_leak (c : InterfaceConfig) (base : bool → Chains) (s : Sys WgUtils W)
    (Hb : Base base) (Hr : readable (firewallParams c)) (Hs : Regular base (fw s))
    (Hkill : m_killSwitchEnabled c = true) (Hfull : ip "0.0.0.0/0" ∈ m_allowedIPAddressRanges c) :
  gives (addInterface c) (λ ok s', ok = true → ∀ d v6 p, let decision := filtered (S (S (S d))) v6 (table v6 (fw s')) p in
    decision ≠ None ∧ (decision = Some Accept → exempt c v6 p = true) ∧
    (decision = Some Accept → v6 = false → dnsQuery p = true → loopback p = true ∨ tunnel p = true ∧ inNets false [qtext (m_dnsServer c)] p = true) ∧
    (v6 = true → lan true p = true → decision = Some Accept)) s.
Proof.
  eapply gives_mono; [by apply (addInterface_gives c base)|]. rewrite Hkill. intros ok s' H' -> d v6 p. cbn [andb] in H'. cbv zeta.
  rewrite (protected_filtered base _ _ d v6 p Hb H'). unfold firewallParams. rewrite bool_decide_true by done. unfold verdict, exempt.
  cbn [dnsServers allowAddrs blockAddrs blockAll allowNets blockNets andb].
  destruct (loopback p), v6, (dnsQuery p), (lan _ p), (dhcp _ p), (tunnel p), (inNets false [_] p); cbn; try (split_and!; (done || by intros; (left + right)));
    destruct (bool_decide _), (inNets false (m_excludedAddresses c) p); cbn; split_and!; done.
Qed.

(** *** The privileged service *)

Lemma quiet_off {A} (m : LinuxFirewall.FwM W A) base s : quiet m → Off base s → gives m (λ _ s', Off base s') s.
Proof.
  intros (F & HF & Hq) Hs. eapply gives_mono; [apply HF|]. intros a s' H' v6 k Hk. rewrite H', Hq by done. by apply Hs.
Qed.

Lemma enableKillSwitch_off configStr base s : Off base s → gives (IpcServer.enableKillSwitch configStr) (λ ok s', ok = true ∧ Off base s') s.
Proof.
  intros Hs. unfold IpcServer.enableKillSwitch. cbv zeta. unfold LinuxFirewall.updateAllowNets, LinuxFirewall.updateBlockNets, LinuxFirewall.updateDNSServers.
  do 14 (apply gives_bind; eapply gives_mono; [apply quiet_off; [first [apply setAnchorEnabled_quiet | apply updateRules_quiet]|exact Hs]|];
    clear Hs; intros [] ? Hs; cbn beta in Hs).
  by apply gives_ret.
Qed.

(** [C30] The kill switch of the service has no effect unless the firewall is already in
    place.  [enableKillSwitch] reports success, for every configuration, and the filter
    treats every packet as the rules of others alone do, both when it is called in a state
    without the firewall and when it is called after [disableKillSwitch], as the protocols
    that use it do. *)
Theorem ipc_killSwitch_ineffective (configStr : QJsonObject) (base : bool → Chains) (s : Sys Firewall W) (Hb : Base base) (Hs : Regular base s) :
  gives (IpcServer.disableKillSwitch;; IpcServer.enableKillSwitch configStr) (λ ok s', ok = true ∧
    ∀ d v6 p, filtered d v6 (table v6 s') p = filtered d v6 (base v6) p) s ∧
  (Off base s → gives (IpcServer.enableKillSwitch configStr) (λ ok s', ok = true ∧
    ∀ d v6 p, filtered d v6 (table v6 s') p = filtered d v6 (base v6) p) s).
Proof.
  assert (∀ s, Off base s → gives (IpcServer.enableKillSwitch configStr) (λ ok s', ok = true ∧
    ∀ d v6 p, filtered d v6 (table v6 s') p = filtered d v6 (base v6) p) s) as Hoff.
  { intros s0 H0. eapply gives_mono; [by apply (enableKillSwitch_off configStr base)|]. intros ok s1 [-> H1]. split; [done|]. intros d v6 p. by apply off_filtered. }
  split; [|apply Hoff]. apply gives_bind. unfold IpcServer.disableKillSwitch. apply gives_bind.
  eapply gives_mono; [apply (uninstall_off base); [done|]; destruct Hs as [?|(a & pre & _ & _ & ?)]; [by left|right; by eexists _, _]|].
  intros [] s1 H1. apply gives_ret. by apply Hoff.
Qed.

(** The parameters that [enableKillSwitch] applies: the flag of the blocked networks is the
    one of the whole. *)
Definition ipcParams (configStr : QJsonObject) : FirewallParams :=
  let r := IpcServer.request configStr in
  mkParams (IpcServer.requestDns configStr) (IpcServer.rq_allownets r) (IpcServer.rq_blocknets r)
    (IpcServer.rq_blockAll r) (IpcServer.rq_allowNets r) (IpcServer.rq_blockAll r).

(** Where the firewall is in place, [enableKillSwitch] makes the filter follow the
    configuration, except that the sites of a split tunnel that are to go through the
    tunnel only (type 1) are not blocked outside it: over IPv4 nothing but queries for
    names is rejected, whatever the sites. *)
Theorem ipc_sites_not_blocked (configStr : QJsonObject) (params : FirewallParams) (base : bool → Chains) (s : Sys Firewall W)
    (Hb : Base base) (Hr : readable (ipcParams configStr)) (Hs : Protected base params s) :
  gives (IpcServer.enableKillSwitch configStr) (λ ok s', ok = true ∧
    (∀ d v6 p, filtered (S (S (S d))) v6 (table v6 s') p =
       match verdict (ipcParams configStr) v6 p with Some v => Some v | None => filtered (S (S (S d))) v6 (base v6) p end) ∧
    (toInt (value configStr "splitTunnelType") = 1 → ∀ d p, dnsQuery p = false →
       filtered (S (S (S d))) false (table false s') p = Some Accept ∨
       filtered (S (S (S d))) false (table false s') p = filtered (S (S (S d))) false (base false) p)) s.
Proof.
  destruct Hs as (a & Ha & Hi & Hp & Hg). destruct (applied_sound params a Ha Hi) as [Ha' Hi'].
  eapply gives_mono; [exact (enableKillSwitch_guarded configStr base (applied params a) (λ _, []) s Hr Hg)|]. intros ok s' [-> H']. split; [done|].
  assert (Protected base (ipcParams configStr) s') as Hp' by (by exists (applied params a)).
  split; [intros d v6 p; by apply protected_filtered|]. intros Htype d p Hdns. rewrite (protected_filtered base _ _ _ _ _ Hb Hp').
  generalize (filtered (S (S (S d))) false (base false) p). intros other. unfold verdict, ipcParams, IpcServer.request. rewrite Hdns, Htype.
  destruct (loopback p), (lan false p), (dhcp false p), (tunnel p); ((by left) || (by right)).
Qed.

End Theorems.

(** ** Examples *)

Lemma sample_base : Base SimLinux.base.
Proof.
  intros v6. split; [|by eexists]. intros k l _ Hl. unfold SimLinux.base, SimLinux.rules in Hl. apply lookup_singleton_Some in Hl as [_ <-]. constructor; [|done]. by vm_compute.
Qed.

Lemma sample_off : Off SimLinux.base (fw SimLinux.utils0).
Proof. by intros [] k _. Qed.

Definition killConfig : InterfaceConfig := sampleConfig (Some "10.8.1.1").

Lemma sample_readable : readable (WireguardUtilsLinux.firewallParams (env := SimQt.env) killConfig).
Proof. split_and!; by repeat constructor. Qed.

Lemma killSwitch_no_leak_witness :
  result_of (WireguardUtilsLinux.addInterface killConfig SimLinux.utils0) = Ok true ∧
  gives (WireguardUtilsLinux.addInterface killConfig) (λ ok s', ok = true → ∀ d v6 p, filtered (S (S (S d))) v6 (table v6 (fw s')) p ≠ None) SimLinux.utils0.
Proof.
  split; [vm_compute; reflexivity|].
  eapply gives_mono; [apply (killSwitch_no_leak (env := SimQt.env) killConfig SimLinux.base SimLinux.utils0 sample_base sample_readable (or_introl sample_off) eq_refl); left|].
  intros ok s' H Hok d v6 p. apply (H Hok d v6 p).
Defined.


Definition ipcConfig : QJsonObject := [("splitTunnelType", JInt 1); ("splitTunnelSites", JArray [JString "9"]); ("dns1", JString "10.8.1.1"); ("dns2", JString "1.1.1.1")].

Lemma ipc_killSwitch_ineffective_witness :
  gives (IpcServer.enableKillSwitch ipcConfig) (λ ok s', ok = true ∧
    filtered 9 false (table false s') (mkPacket "eth0" 9 "tcp" 40000 443) = None) (fw SimLinux.utils0).
Proof.
  destruct (ipc_killSwitch_ineffective ipcConfig SimLinux.base (fw SimLinux.utils0) sample_base (or_introl sample_off)) as [_ H].
  eapply gives_mono; [exact (H sample_off)|]. intros ok s' [-> Hf]. split; [done|]. rewrite Hf. by vm_compute.
Defined.

Lemma gives_state {St Ev E A} (m : M St Ev E A) (P : St → Prop) s : gives m (λ _ s', P s') s → P (state_of (m s)).
Proof. intros (a & s' & t & Hm & HP)%gives_run. unfold state_of. by rewrite Hm. Qed.

(** The state after the firewall was applied for a configuration. *)
Definition guardedState : Sys Firewall SimLinux.World :=
  fw (state_of (WireguardUtilsLinux.applyFirewallRules (WireguardUtilsLinux.firewallParams (env := SimQt.env) killConfig) SimLinux.utils0)).

Lemma sample_protected : Protected SimLinux.base (WireguardUtilsLinux.firewallParams (env := SimQt.env) killConfig) guardedState.
Proof.
  exact (gives_state _ (λ s, Protected SimLinux.base _ (fw s)) _ (applyFirewallRules_protected _ SimLinux.base SimLinux.utils0 sample_base sample_readable (or_introl sample_off))).
Qed.

Lemma ipc_sites_not_blocked_witness :
  gives (IpcServer.enableKillSwitch ipcConfig) (λ ok s', filtered 3 false (table false s') (mkPacket "eth0" 9 "tcp" 40000 443) ≠ Some Reject) guardedState.
Proof.
  eapply gives_mono; [apply (ipc_sites_not_blocked ipcConfig (WireguardUtilsLinux.firewallParams (env := SimQt.env) killConfig) SimLinux.base guardedState sample_base)|].
  - split_and!; by repeat constructor.
  - exact sample_protected.
  - intros ok s' (_ & _ & H). destruct (H eq_refl 0%nat (mkPacket "eth0" 9 "tcp" 40000 443) eq_refl) as [->| ->]; [done|]. by vm_compute.
Defined.
