(* ===== verification/Router.v ===== *)
(** * Routes of the privileged service

    Models [RouterLinux] of [src/service/server/router_linux.cpp], which adds and deletes
    routes for the client and remembers the added ones to clear them, and the two
    functions of [src/client/core/networkUtilities.cpp] that take a network apart.  The
    kernel's table and the call [ioctl] on it are the class [RouteTable]; what the kernel
    documents of the call is [RouteTableLaws]. *)

From stdpp Require Import prelude strings list gmap pretty.
From Stdlib Require Import ZArith Lia Ascii.
From S2P Require Import Prelude IPAddress QtJson InterfaceConfig SecureSettings SplitTunnel.

Local Open Scope Z_scope.

(** A route: address, mask and gateway, as texts. *)
Record Route := mkRoute { rt_dst : string; rt_genmask : string; rt_gateway : string }.

#[global] Instance Route_eq_dec : EqDecision Route.
Proof. solve_decision. Defined.

(** [SIOCADDRT] and [SIOCDELRT]. *)
Inductive RouteCall := AddRoute (r : Route) | DelRoute (r : Route).

Class RouteTable (W : Type) := {
  ioctl : RouteCall → W → bool * W;
  routes : W → list Route;
}.

(** A route is added if it is not there yet and the gateway can be reached; one that is
    there is deleted.  Addresses are told apart by their texts, without leading zeros. *)
Class RouteTableLaws {W} (t : RouteTable W) : Prop := {
  add_done r w w' : ioctl (AddRoute r) w = (true, w') → r ∉ routes w ∧ ∀ x, x ∈ routes w' ↔ x = r ∨ x ∈ routes w;
  add_refused r w w' : ioctl (AddRoute r) w = (false, w') → ∀ x, x ∈ routes w' ↔ x ∈ routes w;
  del_done r w w' : ioctl (DelRoute r) w = (true, w') → r ∈ routes w ∧ ∀ x, x ∈ routes w' ↔ x ≠ r ∧ x ∈ routes w;
  del_refused r w w' : ioctl (DelRoute r) w = (false, w') → r ∉ routes w ∧ ∀ x, x ∈ routes w' ↔ x ∈ routes w;
}.

(** ** Networks (networkUtilities.cpp) *)

Section Networks.
  Context {te : TextEnv}.

Definition ipAddressFromIpWithSubnet (ip : string) : string :=
  if negb (count_char "." ip =? 3)%nat then "" else default "" (head (qsplit "/" ip)).

(** The mask as a text; shifting a 32-bit number by 32 bits or more, or by a negative
    number, is undefined. *)
Definition netMaskFromIpWithSubnet (ip : string) : option string :=
  if negb (has_char "/" ip) then Some "255.255.255.255"
  else
    match toIntOk (default "" (qsplit "/" ip !! 1%nat)) with
    | None => Some "255.255.255.255"
    | Some prefix =>
        let n := 32 - prefix in
        if (0 <=? n) && (n <? 32) then
          let mask := Z.land (Z.shiftl 4294967295 n) 4294967295 in
          Some (pretty (Z.shiftr mask 24) +:+ "." +:+ pretty (Z.land (Z.shiftr mask 16) 255) +:+ "." +:+
                pretty (Z.land (Z.shiftr mask 8) 255) +:+ "." +:+ pretty (Z.land mask 255))
        else None
    end.

End Networks.

(** ** The router *)

(** [m_addedRoutes]: network and gateway. *)
Record RouterState := mkRouter { m_addedRoutes : list (string * string) }.

Inductive REvent := EvIoctl (c : RouteCall) (ok : bool).

Module RouterLinux.
Section RouterLinux.
  Context {W : Type} {rtable : RouteTable W} {env : QtEnv} {te : TextEnv}.

Definition RM (A : Type) : Type := M (Sys RouterState W) REvent Undefined A.

Definition doIoctl (c : RouteCall) : RM bool := ask (ioctl c) (EvIoctl c).
Definition setAdded (l : list (string * string)) : RM unit := modify (λ s, mkSys (mkRouter l) (world s)).

(** The checks and the route of both operations. *)
Definition withRoute (ipWithSubnet gw : string) (k : Route → RM bool) : RM bool :=
  match netMaskFromIpWithSubnet ipWithSubnet with
  | None => throw UndefinedBehaviour
  | Some mask =>
      let ip := ipAddressFromIpWithSubnet ipWithSubnet in
      if negb (checkIPv4Format ip) || negb (checkIPv4Format gw) then mret false else k (mkRoute ip mask gw)
  end.

Definition routeAdd (ipWithSubnet gw : string) : RM bool :=
  withRoute ipWithSubnet gw (λ r,
    ok ← doIoctl (AddRoute r);
    if ok : bool then
      l ← gets (λ s, m_addedRoutes (globals s));
      setAdded (l ++ [(ipWithSubnet, gw)]);; mret true
    else mret false).

Definition routeDelete (ipWithSubnet gw : string) : RM bool :=
  withRoute ipWithSubnet gw (λ r,
    if String.eqb ipWithSubnet "0.0.0.0/0" then mret true else doIoctl (DelRoute r)).

(** The number of successes. *)
Fixpoint countDone (l : list (RM bool)) : RM Z :=
  match l with
  | [] => mret 0
  | m :: l => b ← m; n ← countDone l; mret (if b : bool then n + 1 else n)
  end.

Definition routeAddList (gw : string) (ips : list string) : RM Z := countDone (map (λ ip, routeAdd ip gw) ips).
Definition routeDeleteList (gw : string) (ips : list string) : RM bool :=
  n ← countDone (map (λ ip, routeDelete ip gw) ips); mret (negb (n =? 0)).

Definition clearSavedRoutes : RM bool :=
  l ← gets (λ s, m_addedRoutes (globals s));
  n ← countDone (map (λ r, routeDelete r.1 r.2) l);
  setAdded [];;
  mret (n =? Z.of_nat (length l)).

End RouterLinux.
End RouterLinux.

(** ** Properties *)

Section Spec.
  Context {W : Type} {rtable : RouteTable W} {rlaws : RouteTableLaws rtable} {env : QtEnv} {te : TextEnv}.
  Import RouterLinux.

(** Calls of the client. *)
Inductive RouterOp := AddList (gw : string) (ips : list string) | DeleteList (gw : string) (ips : list string) | Clear.

Definition runOp (o : RouterOp) : RM unit :=
  match o with
  | AddList gw ips => routeAddList gw ips;; mret tt
  | DeleteList gw ips => routeDeleteList gw ips;; mret tt
  | Clear => clearSavedRoutes;; mret tt
  end.

(** The route a network and a gateway stand for, if they are well formed. *)
Definition target (ip gw : string) : option Route :=
  match netMaskFromIpWithSubnet ip with
  | Some mask => if negb (checkIPv4Format (ipAddressFromIpWithSubnet ip)) || negb (checkIPv4Format gw) then None
                 else Some (mkRoute (ipAddressFromIpWithSubnet ip) mask gw)
  | None => None
  end.

(** The mask of the network is defined, and it is not the default route. *)
Definition usable (ip : string) : bool := bool_decide (is_Some (netMaskFromIpWithSubnet ip)) && negb (String.eqb ip "0.0.0.0/0").
Definition usableOp (o : RouterOp) : bool := match o with AddList _ ips | DeleteList _ ips => forallb usable ips | Clear => true end.

(** The routes the calls ask to delete. *)
Definition deletions (o : RouterOp) : list Route :=
  match o with AddList _ _ | Clear => [] | DeleteList gw ips => omap (λ ip, target ip gw) ips end.

Definition added (s : Sys RouterState W) : list Route := omap (λ r, target r.1 r.2) (m_addedRoutes (globals s)).

(** Every route is one of before or recorded; those of before are kept but for the deleted
    ones; a recorded or deleted route is not one of before that was kept. *)
Record Recorded (T D : list Route) (s : Sys RouterState W) : Prop := {
  rec_known x : x ∈ routes (world s) → x ∈ T ∨ x ∈ added s;
  rec_kept x : x ∈ T → x ∉ D → x ∈ routes (world s);
  rec_new x : x ∈ added s → x ∉ T ∨ x ∈ D;
  rec_deleted x : x ∈ D → x ∈ routes (world s) → x ∈ added s;
  rec_usable : Forall (λ r, usable r.1 = true) (m_addedRoutes (globals s));
}.

Lemma withRoute_usable ip gw (k : Route → RM (W := W) bool) : usable ip = true → withRoute ip gw k = match target ip gw with Some r => k r | None => mret false end.
Proof.
  intros [[mask Hm]%bool_decide_eq_true _]%andb_prop. unfold withRoute, target. rewrite Hm. by destruct (_ || _).
Qed.

Lemma routeAdd_recorded T D ip gw s : usable ip = true → Recorded T D s → gives (routeAdd ip gw) (λ _, Recorded T D) s.
Proof.
  intros Hu [H1 H2 H3 H4 H5]. unfold routeAdd. rewrite withRoute_usable by done. destruct (target ip gw) as [r|] eqn:Hr; [|by apply gives_ret].
  apply gives_bind. apply gives_run. unfold doIoctl, ask. destruct (ioctl (AddRoute r) (world s)) as [ok w] eqn:Hio. exists ok, (mkSys (globals s) w), [EvIoctl (AddRoute r) ok].
  split; [done|]. destruct ok.
  - destruct (add_done r _ _ Hio) as [Hnew Hin]. apply gives_bind, gives_gets, gives_bind, gives_modify, gives_ret. cbn [globals world].
    assert (∀ x, x ∈ added (mkSys (mkRouter (m_addedRoutes (globals s) ++ [(ip, gw)])) w) ↔ x ∈ added s ∨ x = r) as Ha.
    { intros x. unfold added. cbn [globals m_addedRoutes]. rewrite omap_app, elem_of_app. cbn. rewrite Hr. by rewrite list_elem_of_singleton. }
    split; cbn [world globals m_addedRoutes].
    + intros x [->|Hx]%Hin; rewrite Ha; [by right; right|]. destruct (H1 x Hx); auto.
    + intros x Hx Hd. apply Hin. right. by apply H2.
    + intros x [Hx| ->]%Ha; [by apply H3|]. destruct (decide (r ∈ T)) as [Ht|]; [|by left]. destruct (decide (r ∈ D)); [by right|]. destruct Hnew. by apply H2.
    + intros x Hd [->|Hx]%Hin; rewrite Ha; auto.
    + apply Forall_app. split; [done|by repeat constructor].
  - pose proof (add_refused r _ _ Hio) as Hin. apply gives_ret. split; cbn [world globals]; [|..|done]; intros x; rewrite ?Hin; auto.
Qed.

(** A deletion leaves the other routes, and what is recorded. *)
Lemma routeDelete_gives ip gw s : usable ip = true →
  gives (routeDelete ip gw) (λ _ s', globals s' = globals s ∧ ∀ x, x ∈ routes (world s') ↔ Some x ≠ target ip gw ∧ x ∈ routes (world s)) s.
Proof.
  intros Hu. unfold routeDelete. rewrite withRoute_usable by done. destruct (target ip gw) as [r|] eqn:Hr.
  - apply andb_prop in Hu as [_ Hz%negb_true_iff]. rewrite Hz. apply gives_run. unfold doIoctl, ask. destruct (ioctl (DelRoute r) (world s)) as [ok w] eqn:Hio.
    eexists ok, _, _. split; [done|]. split; [done|]. intros x. cbn [world].
    destruct ok; [destruct (del_done r _ _ Hio) as [_ Hin]|destruct (del_refused r _ _ Hio) as [Hno Hin]]; rewrite Hin; [|naive_solver].
    split; intros [Hne Hx]; (split; [|done]); congruence.
  - apply gives_ret. split; [done|]. intros x. split; [by intros ?; split|by intros []].
Qed.

Lemma routeDelete_recorded T D ip gw s : usable ip = true → Recorded T D s →
  gives (routeDelete ip gw) (λ _, Recorded T (match target ip gw with Some r => r :: D | None => D end)) s.
Proof.
  intros Hu [H1 H2 H3 H4 H5]. eapply gives_mono; [by apply routeDelete_gives|]. intros ok s' [Hg Hin].
  assert (added s' = added s) as Ha by (unfold added; by rewrite Hg). split; rewrite ?Ha, ?Hg; [| | | |done]; intros x; rewrite ?Hin.
  - intros [_ Hx]. by apply H1.
  - intros Hx Hd. destruct (target ip gw) as [r|]; [apply not_elem_of_cons in Hd as [Hne Hd]|]; (split; [congruence|by apply H2]).
  - intros Hx. destruct (H3 x Hx); [by left|right]. destruct (target ip gw); [by right|done].
  - intros Hd [Hne Hx]. apply H4; [|done]. destruct (target ip gw) as [r|]; [|done]. apply elem_of_cons in Hd as [->|]; done.
Qed.

Lemma deleteAll_gives l s : Forall (λ r : string * string, usable r.1 = true) l →
  gives (countDone (map (λ r, routeDelete r.1 r.2) l)) (λ _ s', globals s' = globals s ∧
    ∀ x, x ∈ routes (world s') ↔ x ∉ omap (λ r, target r.1 r.2) l ∧ x ∈ routes (world s)) s.
Proof.
  intros Hl. revert s. induction Hl as [|[ip gw] l Hu _ IH]; intros s; cbn [map countDone].
  { apply gives_ret. split; [done|]. intros x. split; [intros ?; split; [apply not_elem_of_nil|done]|by intros []]. }
  apply gives_bind. eapply gives_mono; [by apply routeDelete_gives|]. intros b s1 [Hg1 Hin1]. apply gives_bind. eapply gives_mono; [apply IH|].
  intros n s2 [Hg2 Hin2]. apply gives_ret. split; [congruence|]. intros x. rewrite Hin2, Hin1. cbn [omap list_omap fst snd].
  destruct (target ip gw) as [r|]; [rewrite not_elem_of_cons|]; split; intros; destruct_and?; repeat split; congruence || done.
Qed.

Lemma addAll_recorded T D gw ips s : forallb usable ips = true → Recorded T D s → gives (routeAddList gw ips) (λ _, Recorded T D) s.
Proof.
  unfold routeAddList. revert s. induction ips as [|ip ips IH]; intros s Hu Hs; cbn [map countDone]; [by apply gives_ret|].
  cbn in Hu. apply andb_prop in Hu as [Hu1 Hu2]. apply gives_bind. eapply gives_mono; [by apply (routeAdd_recorded T D)|]. intros b s1 H1.
  apply gives_bind. eapply gives_mono; [apply IH; [done|exact H1]|]. intros n s2 H2. by apply gives_ret.
Qed.

Lemma recorded_more T D D' s : (∀ x, x ∈ D ↔ x ∈ D') → Recorded T D s → Recorded T D' s.
Proof. intros He [H1 H2 H3 H4 H5]. split; [done| | | |done]; intros x; rewrite <- He; auto. Qed.

Lemma deleteList_recorded T D gw ips s : forallb usable ips = true → Recorded T D s →
  gives (countDone (map (λ ip, routeDelete ip gw) ips)) (λ _, Recorded T (omap (λ ip, target ip gw) ips ++ D)) s.
Proof.
  revert s D. induction ips as [|ip ips IH]; intros s D Hu Hs; cbn [map countDone]; [by apply gives_ret|].
  cbn in Hu. apply andb_prop in Hu as [Hu1 Hu2]. apply gives_bind. eapply gives_mono; [by apply (routeDelete_recorded T D)|]. intros b s1 H1.
  apply gives_bind. eapply gives_mono; [apply IH; [done|exact H1]|]. intros n s2 H2. apply gives_ret. eapply recorded_more; [|exact H2]. intros x. cbn [omap list_omap].
  destruct (target ip gw); set_solver.
Qed.

(** Clearing leaves no record, and the routes of before without the deleted ones. *)
Lemma clear_recorded T D s : Recorded T D s →
  gives clearSavedRoutes (λ _ s', Recorded T D s' ∧ m_addedRoutes (globals s') = [] ∧ ∀ x, x ∈ routes (world s') ↔ x ∈ T ∧ x ∉ D) s.
Proof.
  intros [H1 H2 H3 H4 H5]. unfold clearSavedRoutes. apply gives_bind, gives_gets, gives_bind.
  eapply gives_mono; [by apply deleteAll_gives|]. intros n s2 [_ Hin]. apply gives_bind, gives_modify, gives_ret.
  assert (∀ x, x ∈ routes (world s2) ↔ x ∈ T ∧ x ∉ D) as Hx.
  { intros x. rewrite Hin. fold (added s). split.
    - intros [Hna Hx]. split; [by destruct (H1 x Hx)|]. intros Hd. by apply Hna, H4.
    - intros [Ht Hd]. split; [|by apply H2]. intros Ha. by destruct (H3 x Ha). }
  split; [|by split]. unfold added. split; cbn [world globals m_addedRoutes]; [| | | |done]; intros x; rewrite ?Hx; unfold added; cbn; rewrite ?elem_of_nil; tauto.
Qed.

Lemma op_recorded T D o s : usableOp o = true → Recorded T D s → gives (runOp o) (λ _, Recorded T (deletions o ++ D)) s.
Proof.
  intros Hu Hs. destruct o as [gw ips|gw ips|]; cbn [runOp deletions app]; apply gives_bind.
  - eapply gives_mono; [by apply addAll_recorded|]. intros n s1 H1. by apply gives_ret.
  - apply gives_bind. eapply gives_mono; [by apply (deleteList_recorded T D)|]. intros n s1 H1. by apply gives_ret, gives_ret.
  - eapply gives_mono; [by apply clear_recorded|]. intros n s1 [H1 _]. by apply gives_ret.
Qed.

Lemma ops_recorded T D ops s : forallb usableOp ops = true → Recorded T D s → gives (for_each ops runOp) (λ _, Recorded T (concat (map deletions ops) ++ D)) s.
Proof.
  revert D s. induction ops as [|o ops IH]; intros D s Hops H0; [by apply gives_ret|]. cbn in Hops. apply andb_prop in Hops as [Ho Hops].
  apply gives_bind. eapply gives_mono; [by apply (op_recorded T D)|]. intros [] s1 H1. eapply gives_mono; [apply IH; [done|exact H1]|]. intros [] s2 H2.
  eapply recorded_more; [|exact H2]. intros x. cbn [map concat]. set_solver.
Qed.

Lemma no_record T s : m_addedRoutes (globals s) = [] → (∀ x, x ∈ routes (world s) ↔ x ∈ T) → Recorded T [] s.
Proof.
  intros Hs HT. split; unfold added; rewrite ?Hs; [| | | |done]; intros x; cbn; rewrite ?HT, ?elem_of_nil; tauto.
Qed.

(** The routes of a session are cleared.  After any calls that add, delete and clear
    routes, with networks whose masks are defined, clearing the saved routes leaves in the
    kernel's table exactly the routes of before the calls without those the calls asked to
    delete, and no record. *)
Theorem routes_cleared (ops : list RouterOp) (s : Sys RouterState W) (Hops : forallb usableOp ops = true) (Hs : m_addedRoutes (globals s) = []) :
  gives (for_each ops runOp;; clearSavedRoutes) (λ _ s', m_addedRoutes (globals s') = [] ∧
    ∀ x, x ∈ routes (world s') ↔ x ∈ routes (world s) ∧ x ∉ concat (map deletions ops)) s.
Proof.
  apply gives_bind. eapply gives_mono; [by apply (ops_recorded (routes (world s)) []), no_record|].
  intros [] s1 H1. rewrite app_nil_r in H1. eapply gives_mono; [by apply clear_recorded|]. by intros b s2 [_ ?].
Qed.

End Spec.
