(* ===== verification/Connection.v ===== *)
(** * The VPN connection and its controller

    Models, for Linux, the states of a connection: [VpnProtocol]
    ([src/client/protocols/vpnprotocol.cpp]) with [WireguardProtocol], [VpnConnection]
    ([src/client/vpnconnection.cpp]), which runs in a thread of its own, and
    [ConnectionController] ([src/client/ui/controllers/connectionController.cpp]) in the
    main thread.  The two talk through queued signals: [System] has both queues, [step] is
    the interleaving of the threads.

    The other protocol classes (OpenVPN, Xray and those built on them) are the class
    [ProtocolEnv]; what the controller asks of the server list is [ConnectionInputs].
    Reads of the settings whose values are only logged or unused are left out, and a slot
    of the controller runs to its end: the event loop inside [updateProtocolConfig], which
    waits for a configuration, serves no other event in the model. *)

From stdpp Require Import prelude strings list gmap.
From Stdlib Require Import ZArith Lia Ascii.
From S2P Require Import Prelude IPAddress QtJson InterfaceConfig SecureSettings SplitTunnel Containers.

Local Open Scope Z_scope.

Module Vpn.

Inductive ConnectionState :=
| Unknown | Disconnected | Preparing | Connecting | Connected | Disconnecting | Reconnecting | Error.

#[global] Instance eq_dec : EqDecision ConnectionState.
Proof. solve_decision. Defined.

End Vpn.

(** ** Protocols *)

(** An object of [VpnProtocol].  [m_lastError] is not initialised by the constructor. *)
Record VpnProtocol := mkProtocol {
  p_class : ContainerProps.VpnProtocolClass;
  m_connectionState : Vpn.ConnectionState;
  m_lastError : option Z;
  m_vpnGateway : string;
  m_routeGateway : string;
  m_receivedBytes : Z;
  m_sentBytes : Z;
}.

(** Calls to the privileged service. *)
Inductive IpcCall :=
| ResetIpStack | FlushDns
| RouteAddList (gw : string) (ips : list string)
| RouteDeleteList (gw : string) (ips : list string)
| ClearSavedRoutes
| EnableKillSwitch (config : QJsonObject)
| DisableKillSwitch.

(** What an object does while it runs: [setConnectionState], [setLastError], in
    [WireguardProtocol] the signal of a state alone, the gateways, [setBytesChanged], a call
    to the service, the signal [protocolError]. *)
Inductive Action :=
| Assign (st : Vpn.ConnectionState)
| Fail (code : Z)
| Raise (st : Vpn.ConnectionState)
| VpnGateway (gw : string)
| RouteGateway (gw : string)
| CountBytes (received sent : Z)
| Service (c : IpcCall)
| Report (code : Z).

(** What the connection hears of it. *)
Inductive Signal := SigState (st : Vpn.ConnectionState) | SigBytes (received sent : Z) | SigIpc (c : IpcCall) | SigError (code : Z).

(** The object after, and the state it signals. *)
Definition setConnectionState (state : Vpn.ConnectionState) (p : VpnProtocol) : VpnProtocol * option Vpn.ConnectionState :=
  if bool_decide (m_connectionState p = state) then (p, None)
  else if bool_decide (m_connectionState p = Vpn.Disconnected) && bool_decide (state = Vpn.Disconnecting) then (p, None)
  else
    let clear := bool_decide (state = Vpn.Disconnected) in
    (mkProtocol (p_class p) state (m_lastError p) (m_vpnGateway p) (m_routeGateway p)
       (if clear then 0 else m_receivedBytes p) (if clear then 0 else m_sentBytes p), Some state).

Definition setLastError (code : Z) (p : VpnProtocol) : VpnProtocol * option Vpn.ConnectionState :=
  let p := mkProtocol (p_class p) (m_connectionState p) (Some code) (m_vpnGateway p) (m_routeGateway p) (m_receivedBytes p) (m_sentBytes p) in
  if code =? 0 then (p, None) else setConnectionState Vpn.Error p.

(** The differences are of type [quint64]. *)
Definition setBytesChanged (received sent : Z) (p : VpnProtocol) : VpnProtocol * Signal :=
  (mkProtocol (p_class p) (m_connectionState p) (m_lastError p) (m_vpnGateway p) (m_routeGateway p) received sent,
   SigBytes ((received - m_receivedBytes p) mod 2 ^ 64) ((sent - m_sentBytes p) mod 2 ^ 64)).

Definition setVpnGateway (gw : string) (p : VpnProtocol) : VpnProtocol :=
  mkProtocol (p_class p) (m_connectionState p) (m_lastError p) gw (m_routeGateway p) (m_receivedBytes p) (m_sentBytes p).
Definition setRouteGateway (gw : string) (p : VpnProtocol) : VpnProtocol :=
  mkProtocol (p_class p) (m_connectionState p) (m_lastError p) (m_vpnGateway p) gw (m_receivedBytes p) (m_sentBytes p).

Definition act_on (a : Action) (p : VpnProtocol) : VpnProtocol * option Signal :=
  match a with
  | Assign st => let '(p, st) := setConnectionState st p in (p, SigState <$> st)
  | Fail code => let '(p, st) := setLastError code p in (p, SigState <$> st)
  | Raise st => (p, Some (SigState st))
  | VpnGateway gw => (setVpnGateway gw p, None)
  | RouteGateway gw => (setRouteGateway gw p, None)
  | CountBytes received sent => let '(p, e) := setBytesChanged received sent p in (p, Some e)
  | Service c => (p, Some (SigIpc c))
  | Report code => (p, Some (SigError code))
  end.

(** The classes but [WireguardProtocol]: the gateways known after the constructor and
    [prepare]; what [start] does and returns; what [stop] and the destructor do, from the
    state of the object. *)
Class ProtocolEnv (W : Type) := {
  prepared : ContainerProps.VpnProtocolClass → QJsonObject → W → (string * string) * W;
  startOther : VpnProtocol → QJsonObject → W → (list Action * Z) * W;
  stopOther : VpnProtocol → W → list Action * W;
  ipcReady : W → bool * W;               (* the socket to the service, connected if need be *)
}.

(** ** The connection *)

Record VpnConn := mkVpnConn {
  m_vpnProtocol : option VpnProtocol;
  m_vpnConfiguration : QJsonObject;
  m_remoteAddress : string;
  c_ipc : bool;                          (* IpcClient::Interface() *)
  c_sitesTimers : nat;                   (* timers that will add the routes of the sites *)
}.

Inductive ConnEvent :=
| EvState (st : Vpn.ConnectionState)
| EvServiceIsNotReady
| EvIpc (c : IpcCall)
| EvLookup (site gw : string) (mode : Z) (ips : list string)
| EvActivate (config : QJsonObject)      (* LocalSocketController::activate *)
| EvDeactivate
| EvBytes (received sent : Z)            (* bytesChanged *)
| EvProtocolError (code : Z)             (* vpnProtocolError *)
| EvStore (e : SEvent).

Module Conn.
Section Conn.
  Context {W : Type} {secrets : SecretEnv W} {env : QtEnv} {te : TextEnv} {penv : ProtocolEnv W}.

Definition ConnM (A : Type) : Type := M (Sys VpnConn (Sys Secure W)) ConnEvent Undefined A.

Definition getV {A} (f : VpnConn → A) : ConnM A := gets (λ s, f (globals s)).
Definition setV (f : VpnConn → VpnConn) : ConnM unit := modify (λ s, mkSys (f (globals s)) (world s)).
Definition settings {A} (m : SecureQSettings.SM W A) : ConnM A := onSettings EvStore m.

Definition setProtocol (p : option VpnProtocol) (c : VpnConn) : VpnConn :=
  mkVpnConn p (m_vpnConfiguration c) (m_remoteAddress c) (c_ipc c) (match p with Some _ => c_sitesTimers c | None => O end).
Definition setConfiguration (o : QJsonObject) (c : VpnConn) : VpnConn :=
  mkVpnConn (m_vpnProtocol c) o (m_remoteAddress c) (c_ipc c) (c_sitesTimers c).
Definition setRemote (a : string) (c : VpnConn) : VpnConn := mkVpnConn (m_vpnProtocol c) (m_vpnConfiguration c) a (c_ipc c) (c_sitesTimers c).
Definition setIpc (b : bool) (c : VpnConn) : VpnConn := mkVpnConn (m_vpnProtocol c) (m_vpnConfiguration c) (m_remoteAddress c) b (c_sitesTimers c).
Definition setSitesTimers (f : nat → nat) (c : VpnConn) : VpnConn := mkVpnConn (m_vpnProtocol c) (m_vpnConfiguration c) (m_remoteAddress c) (c_ipc c) (f (c_sitesTimers c)).

Definition ipcCall (c : IpcCall) : ConnM unit := emit (EvIpc c).

(** A call through the pointer to the protocol. *)
Definition ofProtocol {A} (f : VpnProtocol → A) : ConnM A :=
  p ← getV m_vpnProtocol;
  match p with Some p => mret (f p) | None => throw UndefinedBehaviour end.

(** The part of the code over the configuration that is in [SplitTunnel.v]. *)
Definition onConfiguration (m : SplitTunnel.VpnConnection.VM (W := W) unit) : ConnM unit := λ s,
  match m (mkSys (m_vpnConfiguration (globals s)) (world s)) with
  | (r, s', t) => (r, mkSys (setConfiguration (globals s') (globals s)) (world s'), map EvStore t)
  end.

(** *** Routes *)

Definition addSitesRoutes (gw : string) (mode : Z) : ConnM unit :=
  m ← settings (Settings.vpnSites mode);
  let ips := removeDuplicates (flat_map Settings.siteAddress m) in
  let sites := map fst (List.filter (λ kv, negb (checkIpSubnetFormat kv.1)) m) in
  ipcCall (RouteAddList gw ips);;
  for_each sites (λ site, emit (EvLookup site gw mode ips)).

Definition flushDns : ConnM unit :=
  ipc ← getV c_ipc;
  when ipc (ipcCall FlushDns).

(** The answer to a lookup: its first IPv4 address, if any. *)
Definition siteResolved (site gw : string) (mode : Z) (ips : list string) (addresses : list QHostAddress) : ConnM unit :=
  match List.filter (λ a, match a with IPv4 _ => true | _ => false end) addresses with
  | [] => mret tt
  | a :: _ =>
      let ip := addressText a in
      when (negb (bool_decide (ip ∈ ips)))
        (ipcCall (RouteAddList gw [ip]);; settings (Settings.addVpnSite mode site ip);; mret tt);;
      flushDns
  end.

(** The timer fires while the protocol exists. *)
Definition sitesTimeout : ConnM unit :=
  setV (setSitesTimers pred);;
  gw ← ofProtocol m_vpnGateway;
  mode ← settings Settings.routeMode;
  addSitesRoutes gw mode.

Definition connectionState : ConnM Vpn.ConnectionState :=
  p ← getV m_vpnProtocol;
  mret match p with Some p => m_connectionState p | None => Vpn.Disconnected end.

(** The gateway for the sites of a mode. *)
Definition siteRoutes (call : string → IpcCall) : ConnM unit :=
  st ← connectionState;
  ipc ← getV c_ipc;
  if bool_decide (st = Vpn.Connected) && ipc then
    mode ← settings Settings.routeMode;
    if mode =? VpnOnlyForwardSites then gw ← ofProtocol m_vpnGateway; ipcCall (call gw)
    else if mode =? VpnAllExceptSites then gw ← ofProtocol m_routeGateway; ipcCall (call gw)
    else mret tt
  else mret tt.

Definition addRoutes (ips : list string) : ConnM unit := siteRoutes (λ gw, RouteAddList gw ips).
Definition deleteRoutes (ips : list string) : ConnM unit := siteRoutes (λ gw, RouteDeleteList gw ips).

(** *** States *)

(** The routes of a connection that has just come up. *)
Definition connectedRoutes : ConnM unit :=
  config ← getV m_vpnConfiguration;
  when (toInt (value config "config_version") =? 0)
   (gw ← ofProtocol m_vpnGateway;
    ipcCall (RouteAddList gw [qtext (toQString (value config "dns1")); qtext (toQString (value config "dns2"))]);;
    enabled ← settings Settings.isSitesSplitTunnelingEnabled;
    when enabled
     (ipcCall (RouteDeleteList gw ["0.0.0.0"]);;
      mode ← settings Settings.routeMode;
      if mode =? VpnOnlyForwardSites then setV (setSitesTimers S)
      else if mode =? VpnAllExceptSites then
        ipcCall (RouteAddList gw ["0.0.0.0/1"]);;
        ipcCall (RouteAddList gw ["128.0.0.0/1"]);;
        rgw ← ofProtocol m_routeGateway;
        remote ← getV m_remoteAddress;
        ipcCall (RouteAddList rgw [remote]);;
        addSitesRoutes rgw mode
      else mret tt)).

Definition onConnectionStateChanged (state : Vpn.ConnectionState) : ConnM unit :=
  ipc ← getV c_ipc;
  when ipc
   (match state with
    | Vpn.Connected => ipcCall ResetIpStack;; ipcCall FlushDns;; connectedRoutes
    | Vpn.Error =>
        ipcCall FlushDns;;
        enabled ← settings Settings.isSitesSplitTunnelingEnabled;
        when enabled
         (mode ← settings Settings.routeMode;
          when (mode =? VpnOnlyForwardSites) (ipcCall ClearSavedRoutes))
    | _ => mret tt
    end);;
  emit (EvState state).

(** A signal of the object, or its call to the service. *)
Definition heard (e : Signal) : ConnM unit :=
  match e with
  | SigState st => onConnectionStateChanged st
  | SigBytes received sent => emit (EvBytes received sent)
  | SigIpc c => ipcCall c
  | SigError code => emit (EvProtocolError code)
  end.

(** The signals of the object the connection holds. *)
Definition protocolActs (l : list Action) : ConnM unit :=
  for_each l (λ a,
    p ← ofProtocol (act_on a);
    setV (setProtocol (Some p.1));;
    match p.2 with Some e => heard e | None => mret tt end).

(** The signals of an object that is being destroyed. *)
Fixpoint destroyedActs (p : VpnProtocol) (l : list Action) : ConnM unit :=
  match l with
  | [] => mret tt
  | a :: l =>
      match act_on a p with (p, e) =>
        match e with Some e => heard e | None => mret tt end;; destroyedActs p l
      end
  end.

Definition asked {A} (f : W → A * W) : ConnM A := λ s,
  match f (world (world s)) with (a, w) => (Ok a, mkSys (globals s) (mkSys (globals (world s)) w), []) end.

(** [stop], also called by the destructor: the local controller of [WireguardProtocol]
    announces the disconnection at once, whatever its state. *)
Definition stopActs (p : VpnProtocol) : ConnM (list Action) :=
  match p_class p with ContainerProps.WireguardProtocol => emit EvDeactivate;; mret [Raise Vpn.Disconnected] | _ => asked (stopOther p) end.

Definition startActs (p : VpnProtocol) (config : QJsonObject) : ConnM (list Action * Z) :=
  match p_class p with ContainerProps.WireguardProtocol => emit (EvActivate config);; mret ([], 0) | _ => asked (startOther p config) end.

(** [m_vpnProtocol.reset()]: the destructor runs. *)
Definition destroyProtocol : ConnM unit :=
  p ← getV m_vpnProtocol;
  match p with
  | None => mret tt
  | Some p => setV (setProtocol None);; l ← stopActs p; destroyedActs p l
  end.

Definition stopProtocol : ConnM unit :=
  p ← getV m_vpnProtocol;
  match p with None => mret tt | Some p => l ← stopActs p; protocolActs l end.

Definition connectToVpn (hostName : string) (container : DockerContainer.t) (vpnConfiguration : QJsonObject) : ConnM unit :=
  ready ← asked ipcReady;
  setV (λ c, setIpc (c_ipc c || ready) c);;
  if ready : bool then
    setV (setRemote hostName);;
    emit (EvState Vpn.Connecting);;
    setV (setConfiguration vpnConfiguration);;
    stopProtocol;; destroyProtocol;;
    onConfiguration (SplitTunnel.VpnConnection.appendKillSwitchConfig;; SplitTunnel.VpnConnection.appendSplitTunnelingConfig);;
    match ContainerProps.factory OsLinux container with
    | None => emit (EvState Vpn.Error)
    | Some c =>
        config ← getV m_vpnConfiguration;
        gws ← match c with ContainerProps.WireguardProtocol => mret ("", "") | _ => asked (prepared c config) end;
        let p := mkProtocol c Vpn.Unknown None gws.1 gws.2 0 0 in
        setV (setProtocol (Some p));;
        r ← startActs p config;
        protocolActs r.1;;
        when (negb (r.2 =? 0)) (emit (EvState Vpn.Error))
    end
  else
    emit EvServiceIsNotReady;; emit (EvState Vpn.Error).

Definition disconnectFromVpn : ConnM unit :=
  ipc ← getV c_ipc;
  when ipc (ipcCall FlushDns;; ipcCall ClearSavedRoutes);;
  p ← getV m_vpnProtocol;
  match p with
  | None => emit (EvState Vpn.Disconnected)
  | Some _ => destroyProtocol
  end.

(** [lastError]; [None] is an indeterminate value. *)
Definition lastErrorOf (c : VpnConn) : option Z :=
  match m_vpnProtocol c with Some p => m_lastError p | None => Some 101 end.

End Conn.
End Conn.

(** ** The controller *)

Record ConnectionController := mkConnCtl {
  m_state : Vpn.ConnectionState;
  m_isConnected : bool;
  m_isConnectionInProgress : bool;
  m_connectionStateText : string;
}.

Definition newController : ConnectionController := mkConnCtl Vpn.Disconnected false false "Connect".

(** What the controller asks of the server list and the configurations: the version of the
    default server's configuration, whether it has containers, whether its key has expired,
    its default container, and the address and configuration to connect with, or the error
    of [updateProtocolConfig], or that of [createVpnConfiguration]. *)
Class ConnectionInputs (U : Type) := {
  configVersion : U → Z;
  hasInstalledContainers : U → bool;
  isApiKeyExpired : U → bool;
  defaultContainerRole : U → DockerContainer.t;
  makeConfiguration : DockerContainer.t → U → (option Z + string * QJsonObject) * U;   (* the code of updateProtocolConfig *)
}.

Inductive Requested := ConnectTo (hostName : string) (container : DockerContainer.t) (config : QJsonObject) | Disconnect.

Inductive CtlEvent :=
| EvRequest (r : Requested)
| EvError (code : option Z)              (* connectionErrorOccurred *)
| EvErrorText (message : string)
| EvNoInstalledContainers
| EvPreparingConfig
| EvUpdateFromTelegram
| EvUpdateFromGateway
| EvReconnect (connected : bool)
| EvChanged.

Module Controller.
Section Controller.
  Context {U : Type} {inputs : ConnectionInputs U}.

Definition CtlM (A : Type) : Type := M (Sys ConnectionController U) CtlEvent Empty_set A.

(** The flag of progress and the text of a state. *)
Definition inProgress (state : Vpn.ConnectionState) : bool :=
  match state with Vpn.Connecting | Vpn.Reconnecting | Vpn.Disconnecting | Vpn.Preparing => true | _ => false end.

Definition stateText (state : Vpn.ConnectionState) : string :=
  match state with
  | Vpn.Connected => "Connected"
  | Vpn.Connecting => "Connecting..."
  | Vpn.Reconnecting => "Reconnecting..."
  | Vpn.Disconnecting => "Disconnecting..."
  | Vpn.Preparing => "Preparing..."
  | Vpn.Disconnected | Vpn.Error | Vpn.Unknown => "Connect"
  end.

(** [lastError] is the answer of the connection. *)
Definition onConnectionStateChanged (lastError : option Z) (state : Vpn.ConnectionState) : CtlM unit :=
  modify (λ s, mkSys (mkConnCtl state (bool_decide (state = Vpn.Connected)) (inProgress state) (stateText state)) (world s));;
  when (bool_decide (state = Vpn.Error) || bool_decide (state = Vpn.Unknown)) (emit (EvError lastError));;
  emit EvChanged.

Definition closeConnection : CtlM unit := emit (EvRequest Disconnect).

Definition configure (container : DockerContainer.t) : CtlM (option Z + string * QJsonObject) := λ s,
  match makeConfiguration container (world s) with (r, u) => (Ok r, mkSys (globals s) u, []) end.

Definition continueConnection (lastError : option Z) : CtlM unit :=
  installed ← query hasInstalledContainers;
  if negb installed then
    emit EvNoInstalledContainers;; onConnectionStateChanged lastError Vpn.Disconnected
  else
    container ← query defaultContainerRole;
    if negb (ContainerProps.isSupportedByCurrentPlatform OsLinux container) then
      emit (EvErrorText "The selected protocol is not supported on the current platform")
    else if bool_decide (container = DockerContainer.None) then
      emit (EvErrorText ("VPN Protocols is not installed." +:+ nl +:+ " Please install VPN container at first"))
    else
      r ← configure container;
      match r with
      | inl (Some code) => emit (EvError (Some code))
      | inl None => emit (EvErrorText "unable to create configuration")
      | inr (host, config) => emit (EvRequest (ConnectTo host container config))
      end.

Definition openConnection (lastError : option Z) : CtlM unit :=
  version ← query configVersion;
  onConnectionStateChanged lastError Vpn.Preparing;;
  installed ← query hasInstalledContainers;
  expired ← query isApiKeyExpired;
  if (version =? 1) && negb installed then emit EvUpdateFromTelegram
  else if negb (version =? 0) && expired then
    if version =? 1 then emit EvUpdateFromTelegram else emit EvUpdateFromGateway
  else continueConnection lastError.

Definition toggleConnection (lastError : option Z) : CtlM unit :=
  c ← gets globals;
  if bool_decide (m_state c = Vpn.Preparing) then emit EvPreparingConfig
  else if m_isConnectionInProgress c then closeConnection
  else if m_isConnected c then closeConnection
  else openConnection lastError.

Definition onCurrentContainerUpdated (lastError : option Z) : CtlM unit :=
  c ← gets globals;
  if m_isConnected c || m_isConnectionInProgress c then emit (EvReconnect true);; openConnection lastError
  else emit (EvReconnect false).

(** The state again, for its text in the new language. *)
Definition onTranslationsUpdated (lastError : option Z) : CtlM unit :=
  c ← gets globals;
  onConnectionStateChanged lastError (m_state c).

End Controller.
End Controller.

(** ** Both threads *)

(** The requests on their way to the connection and the states on their way to the
    controller.  [U] is what the controller asks, [W] what the connection runs against. *)
Record System (U W : Type) := mkSystem {
  controller : Sys ConnectionController U;
  connection : Sys VpnConn (Sys Secure W);
  requests : list Requested;
  states : list Vpn.ConnectionState;
}.
Arguments mkSystem {U W}.
Arguments controller {U W}.
Arguments connection {U W}.
Arguments requests {U W}.
Arguments states {U W}.

Section System.
  Context {U : Type} {inputs : ConnectionInputs U}.
  Context {W : Type} {secrets : SecretEnv W} {env : QtEnv} {te : TextEnv} {penv : ProtocolEnv W}.

Definition requestsOf (t : list CtlEvent) : list Requested := omap (λ e, match e with EvRequest r => Some r | _ => None end) t.
Definition statesOf (t : list ConnEvent) : list Vpn.ConnectionState := omap (λ e, match e with EvState st => Some st | _ => None end) t.

Definition serve (r : Requested) : Conn.ConnM (W := W) unit :=
  match r with
  | ConnectTo host container config => Conn.connectToVpn host container config
  | Disconnect => Conn.disconnectFromVpn
  end.

(** A slot of the controller, with the error code the connection answers with. *)
Inductive CtlSlot := Toggle | ContainerUpdated | TranslationsUpdated | ConfigFromApiUpdated.

Definition slot (x : CtlSlot) (lastError : option Z) : Controller.CtlM (U := U) unit :=
  match x with
  | Toggle => Controller.toggleConnection lastError
  | ContainerUpdated => Controller.onCurrentContainerUpdated lastError
  | TranslationsUpdated => Controller.onTranslationsUpdated lastError
  | ConfigFromApiUpdated => Controller.continueConnection lastError
  end.

(** What the connection's thread does besides requests. *)
Inductive ConnSlot :=
| Acts (l : list Action)
| SitesTimeout
| AddRoutes (ips : list string)
| DeleteRoutes (ips : list string)
| SiteResolved (site gw : string) (mode : Z) (ips : list string) (addresses : list QHostAddress).

Definition connSlot (x : ConnSlot) : Conn.ConnM (W := W) unit :=
  match x with
  | Acts l => Conn.protocolActs l
  | SitesTimeout => Conn.sitesTimeout
  | AddRoutes ips => Conn.addRoutes ips
  | DeleteRoutes ips => Conn.deleteRoutes ips
  | SiteResolved site gw mode ips addresses => Conn.siteResolved site gw mode ips addresses
  end.

(** [WireguardProtocol] only passes on the signals of its local controller. *)
Definition acceptable (x : ConnSlot) (c : VpnConn) : Prop :=
  match x, m_vpnProtocol c with
  | Acts l, Some p => p_class p = ContainerProps.WireguardProtocol → Forall (λ a, a = Raise Vpn.Connected ∨ a = Raise Vpn.Disconnected) l
  | Acts l, None => l = []
  | SitesTimeout, _ => (0 < c_sitesTimers c)%nat
  | _, _ => True
  end.

(** An indeterminate error code reads as any number. *)
Definition reads (c : VpnConn) (code : option Z) : Prop := ∃ n, code = Some n ∧ (Conn.lastErrorOf c = None ∨ Conn.lastErrorOf c = Some n).

Inductive step : System U W → System U W → Prop :=
| step_slot x code s c t : reads (globals (connection s)) code → slot x code (controller s) = (Ok tt, c, t) →
    step s (mkSystem c (connection s) (requests s ++ requestsOf t) (states s))
| step_state code st l s c t : states s = st :: l → reads (globals (connection s)) code →
    Controller.onConnectionStateChanged code st (controller s) = (Ok tt, c, t) →
    step s (mkSystem c (connection s) (requests s ++ requestsOf t) l)
| step_request r l s c t : requests s = r :: l → serve r (connection s) = (Ok tt, c, t) →
    step s (mkSystem (controller s) c l (states s ++ statesOf t))
| step_conn x s c t : acceptable x (globals (connection s)) → connSlot x (connection s) = (Ok tt, c, t) →
    step s (mkSystem (controller s) c (requests s) (states s ++ statesOf t))
| step_inputs u s : step s (mkSystem (mkSys (globals (controller s)) u) (connection s) (requests s) (states s)).

End System.
