(* ===== verification/ConnectionSpec.v ===== *)
(** * Properties of the VPN connection

    The controller's flags, its buttons, the requests and states that pass between the
    threads, and the routes of a session. *)

From stdpp Require Import prelude strings list gmap.
From Stdlib Require Import ZArith Lia Ascii.
From S2P Require Import Prelude IPAddress QtJson InterfaceConfig SecureSettings SplitTunnel SplitTunnelSpec Containers Router Connection.

Local Open Scope Z_scope.

#[global] Instance VpnProtocolClass_eq_dec : EqDecision ContainerProps.VpnProtocolClass.
Proof. solve_decision. Defined.

(** ** The controller *)

Section Controller.
  Context {U : Type} {inputs : ConnectionInputs U}.
  Import Controller.

(** The flags and the text are those of the state. *)
Definition consistent (c : ConnectionController) : Prop :=
  m_isConnected c = bool_decide (m_state c = Vpn.Connected) ∧ m_isConnectionInProgress c = inProgress (m_state c) ∧
  m_connectionStateText c = stateText (m_state c).

Definition showing (st : Vpn.ConnectionState) : ConnectionController := mkConnCtl st (bool_decide (st = Vpn.Connected)) (inProgress st) (stateText st).

Lemma consistent_showing c : consistent c ↔ c = showing (m_state c).
Proof. destruct c as [st a b t]. unfold consistent, showing. cbn. split; [by intros (-> & -> & ->)|by intros [= -> -> ->]]. Qed.

Lemma changed_run e st (s : Sys ConnectionController U) : onConnectionStateChanged e st s =
  (Ok tt, mkSys (showing st) (world s), (if bool_decide (st = Vpn.Error) || bool_decide (st = Vpn.Unknown) then [EvError e] else []) ++ [EvChanged]).
Proof. unfold onConnectionStateChanged. by destruct st. Qed.

(** What [continueConnection] ends with when the server has containers. *)
Definition attempt (u : U) : list CtlEvent * U :=
  let container := defaultContainerRole u in
  if negb (ContainerProps.isSupportedByCurrentPlatform OsLinux container) then
    ([EvErrorText "The selected protocol is not supported on the current platform"], u)
  else if bool_decide (container = DockerContainer.None) then
    ([EvErrorText ("VPN Protocols is not installed." +:+ nl +:+ " Please install VPN container at first")], u)
  else let '(r, u') := makeConfiguration container u in
    (match r with
     | inl (Some code) => [EvError (Some code)]
     | inl None => [EvErrorText "unable to create configuration"]
     | inr (host, config) => [EvRequest (ConnectTo host container config)]
     end, u').

Lemma continue_run e (s : Sys ConnectionController U) : continueConnection e s =
  if hasInstalledContainers (world s) then (Ok tt, mkSys (globals s) (attempt (world s)).2, (attempt (world s)).1)
  else (Ok tt, mkSys (showing Vpn.Disconnected) (world s), [EvNoInstalledContainers; EvChanged]).
Proof.
  destruct s as [c u]. unfold continueConnection, attempt, query, gets, mbind, M_bind. cbn [world globals]. destruct (hasInstalledContainers u); [|done]. cbn [negb].
  destruct (negb (ContainerProps.isSupportedByCurrentPlatform _ _)); [done|]. destruct (bool_decide _); [done|]. unfold configure. cbn [world globals].
  by destruct (makeConfiguration _ u) as [[[code|]|[host config]] u'].
Qed.

(** What [openConnection] does once the state is Preparing, the state shown at the end, and
    the inputs after. *)
Definition opening (u : U) : list CtlEvent * Vpn.ConnectionState * U :=
  let version := configVersion u in
  if (version =? 1) && negb (hasInstalledContainers u) then ([EvUpdateFromTelegram], Vpn.Preparing, u)
  else if negb (version =? 0) && isApiKeyExpired u then ([if version =? 1 then EvUpdateFromTelegram else EvUpdateFromGateway], Vpn.Preparing, u)
  else if hasInstalledContainers u then ((attempt u).1, Vpn.Preparing, (attempt u).2)
  else ([EvNoInstalledContainers; EvChanged], Vpn.Disconnected, u).

Lemma open_run e (s : Sys ConnectionController U) : openConnection e s =
  (Ok tt, mkSys (showing (opening (world s)).1.2) (opening (world s)).2, EvChanged :: (opening (world s)).1.1).
Proof.
  destruct s as [c u]. unfold openConnection, opening, query, gets, mbind, M_bind. rewrite changed_run. cbn [world globals].
  destruct ((configVersion u =? 1) && negb (hasInstalledContainers u)); [done|].
  destruct (negb (configVersion u =? 0) && isApiKeyExpired u); [by destruct (configVersion u =? 1)|].
  rewrite continue_run. cbn [world globals]. by destruct (hasInstalledContainers u).
Qed.

(** The button. *)
Definition pressed (st : Vpn.ConnectionState) (u : U) : list CtlEvent * Vpn.ConnectionState * U :=
  match st with
  | Vpn.Preparing => ([EvPreparingConfig], st, u)
  | Vpn.Connected | Vpn.Connecting | Vpn.Reconnecting | Vpn.Disconnecting => ([EvRequest Disconnect], st, u)
  | Vpn.Disconnected | Vpn.Error | Vpn.Unknown => let '(t, st', u') := opening u in (EvChanged :: t, st', u')
  end.

Lemma toggle_run e st u : toggleConnection e (mkSys (showing st) u) =
  (Ok tt, mkSys (showing (pressed st u).1.2) (pressed st u).2, (pressed st u).1.1).
Proof.
  unfold toggleConnection, gets, mbind, M_bind. destruct st; cbn [showing globals m_state m_isConnectionInProgress m_isConnected inProgress]; repeat (case_bool_decide; [done|] || rewrite bool_decide_eq_false_2 by done);
    try done; rewrite open_run; cbn [world]; unfold pressed; by destruct (opening u) as [[t st'] u'].
Qed.

Lemma slot_shows x e st u : ∃ st' u' t, slot x e (mkSys (showing st) u) = (Ok tt, mkSys (showing st') u', t).
Proof.
  destruct x; cbn [slot].
  - rewrite toggle_run. eauto.
  - unfold onCurrentContainerUpdated, gets, mbind, M_bind. cbn [globals]. destruct (_ || _); [|by eexists _, _, _].
    unfold emit. rewrite open_run. by eexists _, _, _.
  - unfold onTranslationsUpdated, gets, mbind, M_bind. rewrite changed_run. by eexists _, _, _.
  - rewrite continue_run. cbn [globals world]. destruct (hasInstalledContainers u); by eexists _, _, _.
Qed.

End Controller.

(** ** The connection *)

(** The code of the router the service runs for a call. *)
Definition forwarded (c : IpcCall) : list RouterOp :=
  match c with
  | RouteAddList gw ips => [AddList gw ips]
  | RouteDeleteList gw ips => [DeleteList gw ips]
  | ClearSavedRoutes => [Clear]
  | ResetIpStack | FlushDns | EnableKillSwitch _ | DisableKillSwitch => []
  end.

(** An object that stops goes through no state of a connection, and through no error. *)
Definition quietState (st : Vpn.ConnectionState) : bool := negb (bool_decide (st = Vpn.Connected)) && negb (bool_decide (st = Vpn.Error)).
Definition quiet (a : Action) : bool :=
  match a with
  | Assign st | Raise st => quietState st
  | Fail _ => false
  | Service c => match forwarded c with [] => true | _ => false end
  | VpnGateway _ | RouteGateway _ | CountBytes _ _ | Report _ => true
  end.
(** What the connection relies on of the protocol classes. *)
Class ProtocolLaws {W} (penv : ProtocolEnv W) : Prop := {
  stops_quietly p w : p_class p ≠ ContainerProps.WireguardProtocol → forallb quiet (stopOther p w).1 = true;
}.

Section Connection.
  Context {W : Type} {secrets : SecretEnv W} {env : QtEnv} {te : TextEnv} {penv : ProtocolEnv W}.
  Import Conn.

(** *** The object of the protocol *)

(** Most of the code leaves it alone. *)
Definition leaves {A} (m : ConnM (W := W) A) : Prop := ∀ P : option VpnProtocol → Prop, keeps (λ s, P (m_vpnProtocol (globals s))) m.

Lemma leaves_ret {A} (a : A) : leaves (mret a).
Proof. intros P. apply keeps_ret. Qed.
Lemma leaves_bind {A B} (m : ConnM A) (k : A → ConnM B) : leaves m → (∀ a, leaves (k a)) → leaves (m ≫= k).
Proof. intros Hm Hk P. apply keeps_bind; [apply Hm|intros a; apply Hk]. Qed.
Lemma leaves_when b m : leaves m → leaves (when b m).
Proof. intros H P. by apply keeps_when. Qed.
Lemma leaves_emit e : leaves (emit e).
Proof. intros P. apply keeps_emit. Qed.
Lemma leaves_getV {A} (f : VpnConn → A) : leaves (getV f).
Proof. intros P. apply keeps_gets. Qed.
Lemma leaves_setV f : (∀ c, m_vpnProtocol (f c) = m_vpnProtocol c) → leaves (setV f).
Proof. intros H P s Hs. cbn. by rewrite H. Qed.
Lemma leaves_settings {A} (m : SecureQSettings.SM W A) : leaves (settings m).
Proof. intros P s Hs. unfold state_of, settings, onSettings. by destruct (m (world s)) as [[r w] t]. Qed.
Lemma leaves_asked {A} (f : W → A * W) : leaves (asked f).
Proof. intros P s Hs. unfold state_of, asked. by destruct (f (world (world s))). Qed.
Lemma leaves_onConfiguration m : leaves (onConfiguration m).
Proof. intros P s Hs. unfold state_of, onConfiguration. by destruct (m _) as [[r s'] t]. Qed.
Lemma leaves_ofProtocol {A} (f : VpnProtocol → A) : leaves (ofProtocol f).
Proof. apply leaves_bind; [apply leaves_getV|]. intros [p|] P s Hs; done. Qed.
Lemma leaves_for_each {A} (l : list A) (f : A → ConnM unit) : (∀ x, leaves (f x)) → leaves (for_each l f).
Proof. intros H P. apply keeps_for_each. intros x. apply H. Qed.

Ltac leaves_step :=
  lazymatch goal with
  | |- leaves (_ ≫= _) => apply leaves_bind; [|intros ?]
  | |- leaves (mret _) => apply leaves_ret
  | |- leaves (when _ _) => apply leaves_when
  | |- leaves (emit _) => apply leaves_emit
  | |- leaves (ipcCall _) => apply leaves_emit
  | |- leaves (getV _) => apply leaves_getV
  | |- leaves (setV _) => apply leaves_setV; intros []; done
  | |- leaves (settings _) => apply leaves_settings
  | |- leaves (asked _) => apply leaves_asked
  | |- leaves (ofProtocol _) => apply leaves_ofProtocol
  | |- leaves (for_each _ _) => apply leaves_for_each; intros ?
  | |- leaves (if ?b then _ else _) => destruct b
  | |- leaves (match ?x with _ => _ end) => destruct x
  end.
Ltac leaves := repeat leaves_step.

Lemma leaves_addSitesRoutes gw mode : leaves (addSitesRoutes gw mode).
Proof. unfold addSitesRoutes. leaves. Qed.
Lemma leaves_siteRoutes call : leaves (siteRoutes call).
Proof. unfold siteRoutes, connectionState. leaves. Qed.
Lemma leaves_changed st : leaves (onConnectionStateChanged st).
Proof. unfold onConnectionStateChanged, connectedRoutes. leaves. apply leaves_addSitesRoutes. Qed.
Lemma leaves_heard e : leaves (heard e).
Proof. destruct e; cbn [heard]; leaves. apply leaves_changed. Qed.
Lemma leaves_sitesTimeout : leaves sitesTimeout.
Proof. unfold sitesTimeout. leaves. apply leaves_addSitesRoutes. Qed.
Lemma leaves_siteResolved site gw mode ips l : leaves (siteResolved site gw mode ips l).
Proof. unfold siteResolved, flushDns. leaves. Qed.
Lemma leaves_destroyedActs p l : leaves (destroyedActs p l).
Proof. revert p. induction l as [|a l IH]; intros p; cbn [destroyedActs]; [leaves|]. destruct (act_on a p) as [p' [e|]]; leaves; (apply leaves_heard || apply IH). Qed.

(** A WireGuard object has the state and the error it was made with. *)
Definition untouched (p : VpnProtocol) : Prop := m_connectionState p = Vpn.Unknown ∧ m_lastError p = None.
Definition passive (o : option VpnProtocol) : Prop := ∀ p, o = Some p → p_class p = ContainerProps.WireguardProtocol → untouched p.
Definition raises (a : Action) : Prop := a = Raise Vpn.Connected ∨ a = Raise Vpn.Disconnected.

Lemma set_class st p : p_class (setConnectionState st p).1 = p_class p.
Proof. unfold setConnectionState. destruct (bool_decide _); [done|]. by destruct (_ && _). Qed.

Lemma act_class a p : p_class (act_on a p).1 = p_class p.
Proof.
  destruct a as [st|code| | | | | |]; cbn [act_on]; try done.
  - pose proof (set_class st p) as H. by destruct (setConnectionState st p).
  - unfold setLastError. destruct (code =? 0); [done|]. set (q := mkProtocol _ _ _ _ _ _ _). pose proof (set_class Vpn.Error q) as H. by destruct (setConnectionState Vpn.Error q).
Qed.

Lemma passive_acts l s : passive (m_vpnProtocol (globals s)) →
  (∀ p, m_vpnProtocol (globals s) = Some p → p_class p = ContainerProps.WireguardProtocol → Forall raises l) →
  passive (m_vpnProtocol (globals (state_of (protocolActs l s)))).
Proof.
  intros Hs Hl. set (J l (o : option VpnProtocol) := passive o ∧ ∀ p, o = Some p → p_class p = ContainerProps.WireguardProtocol → Forall raises l).
  assert (∀ l s, J l (m_vpnProtocol (globals s)) → wp (protocolActs l) (λ _ s' _, passive (m_vpnProtocol (globals s'))) s) as H.
  { clear. induction l as [|a l IH]; intros s [Hp Hr]; [done|]. unfold protocolActs. cbn [for_each]. apply wp_bind, wp_bind.
    unfold ofProtocol at 1. apply wp_gets_bind. destruct (m_vpnProtocol (globals s)) as [p|] eqn:E; [|unfold wp, throw; cbn [after]; by rewrite E].
    apply wp_ret. cbn [after]. apply wp_modify_bind.
    assert (J l (Some (act_on a p).1)) as HJ.
    { split; intros q [= <-]; rewrite act_class; intros Hc; specialize (Hr p eq_refl Hc); inversion Hr as [|? ? Ha Hl']; subst; [|done].
      destruct Ha as [-> | ->]; by apply Hp. }
    eapply wp_mono with (Q := λ r s' _, J l (m_vpnProtocol (globals s'))).
    - apply (wp_keeps (λ s', J l (m_vpnProtocol (globals s')))); [|done]. destruct (act_on a p).2; [apply leaves_heard|apply leaves_ret].
    - intros [[]|e|] s' t H; cbn [after]; [by apply IH|by destruct H..]. }
  specialize (H l s (conj Hs Hl)). unfold wp, state_of in *. by destruct (protocolActs l s) as [[r s'] t].
Qed.

Lemma leaves_stopActs p : leaves (stopActs p).
Proof. unfold stopActs. leaves. Qed.
Lemma leaves_startActs p config : leaves (startActs p config).
Proof. unfold startActs. leaves. Qed.

(** Sequencing, for predicates of the protocol object alone. *)
Lemma wp_passive_bind {A B} (P Q : option VpnProtocol → Prop) (m : ConnM (W := W) A) (k : A → ConnM B) s :
  (∀ o, P o → Q o) → wp m (λ _ s' _, P (m_vpnProtocol (globals s'))) s →
  (∀ a s', P (m_vpnProtocol (globals s')) → wp (k a) (λ _ s'' _, Q (m_vpnProtocol (globals s''))) s') →
  wp (m ≫= k) (λ _ s' _, Q (m_vpnProtocol (globals s'))) s.
Proof. intros HPQ Hm Hk. apply wp_bind. eapply wp_mono; [exact Hm|]. intros [a|e|] s' t H; cbn [after]; [by apply Hk|by apply HPQ..]. Qed.

Lemma wp_leaves {A} (P : option VpnProtocol → Prop) (m : ConnM (W := W) A) s : leaves m → P (m_vpnProtocol (globals s)) → wp m (λ _ s' _, P (m_vpnProtocol (globals s'))) s.
Proof. intros H. apply (wp_keeps (λ s, P (m_vpnProtocol (globals s)))), H. Qed.

Lemma wp_acts l s : passive (m_vpnProtocol (globals s)) →
  (∀ p, m_vpnProtocol (globals s) = Some p → p_class p = ContainerProps.WireguardProtocol → Forall raises l) →
  wp (protocolActs l) (λ _ s' _, passive (m_vpnProtocol (globals s'))) s.
Proof. intros H1 H2. pose proof (passive_acts l s H1 H2) as H. unfold wp, state_of in *. by destruct (protocolActs l s) as [[r s'] t]. Qed.

Lemma passive_none : passive None.
Proof. by intros p [=]. Qed.

Lemma wp_stopProtocol s : passive (m_vpnProtocol (globals s)) → wp stopProtocol (λ _ s' _, passive (m_vpnProtocol (globals s'))) s.
Proof.
  intros Hs. unfold stopProtocol. apply wp_gets_bind. destruct (m_vpnProtocol (globals s)) as [p|] eqn:E; [|by apply wp_ret; rewrite E].
  destruct (decide (p_class p = ContainerProps.WireguardProtocol)) as [Hc|Hc].
  - unfold stopActs. rewrite Hc. apply wp_bind, wp_bind. unfold wp at 1, emit. cbn [after]. apply wp_ret. cbn [after].
    eapply wp_mono; [apply (wp_acts [Raise Vpn.Disconnected] s)|done]; [by rewrite E|]. intros _ _ _. apply Forall_singleton. by right.
  - apply (wp_passive_bind (λ o, o = Some p)); [by intros o ->|by apply (wp_leaves (λ o, o = Some p)); [apply leaves_stopActs|]|].
    intros l s' E'. apply wp_acts; rewrite E'; [done|]. by intros q [= <-].
Qed.

Lemma wp_destroyProtocol s : wp destroyProtocol (λ r s' _, m_vpnProtocol (globals s') = None) s.
Proof.
  unfold destroyProtocol. apply wp_gets_bind. destruct (m_vpnProtocol (globals s)) as [p|] eqn:E; [|by apply wp_ret].
  apply wp_modify_bind. apply (wp_leaves (λ o, o = None)); [|done]. apply leaves_bind; [apply leaves_stopActs|]. intros l. apply leaves_destroyedActs.
Qed.

Lemma wp_start c config gws s : let p := mkProtocol c Vpn.Unknown None gws.1 gws.2 0 0 in m_vpnProtocol (globals s) = Some p →
  wp (r ← startActs p config; protocolActs r.1;; when (negb (r.2 =? 0)) (emit (EvState Vpn.Error))) (λ _ s' _, passive (m_vpnProtocol (globals s'))) s.
Proof.
  intros p E. assert (passive (m_vpnProtocol (globals s))) as Hs by (rewrite E; by intros q [= <-] _).
  destruct (decide (c = ContainerProps.WireguardProtocol)) as [Hc|Hc].
  - unfold startActs. cbn [p p_class]. rewrite Hc. apply wp_bind, wp_bind. unfold wp at 1, emit. cbn [after]. apply wp_ret. cbn [after]. by apply wp_bind, wp_ret.
  - apply (wp_passive_bind (λ o, o = m_vpnProtocol (globals s))); [by intros o ->|by apply (wp_leaves (λ o, o = m_vpnProtocol (globals s))); [apply leaves_startActs|]|].
    intros r s' E'. rewrite E in E'. eapply (wp_passive_bind passive); [done|apply wp_acts; rewrite E'|].
    + by intros q [= <-].
    + by intros q [= <-].
    + intros _ s2 H2. apply (wp_leaves passive); [|done]. leaves.
Qed.

(** Every request leaves a WireGuard object untouched. *)
Lemma wp_serve r s : passive (m_vpnProtocol (globals s)) → wp (serve r) (λ _ s' _, passive (m_vpnProtocol (globals s'))) s.
Proof.
  intros Hs. assert (∀ A B (m : ConnM (W := W) A) (k : A → ConnM B) s, leaves m → passive (m_vpnProtocol (globals s)) →
    (∀ a s', passive (m_vpnProtocol (globals s')) → wp (k a) (λ _ s'' _, passive (m_vpnProtocol (globals s''))) s') →
    wp (m ≫= k) (λ _ s' _, passive (m_vpnProtocol (globals s'))) s) as Hnext.
  { intros A B m k s0 Hm H0 Hk. apply (wp_passive_bind passive); [done|by apply (wp_leaves passive)|done]. }
  destruct r as [host container config|]; cbn [serve].
  - unfold connectToVpn. apply Hnext; [leaves|done|]. intros ready s1 H1. apply Hnext; [leaves|done|]. intros [] s2 H2.
    destruct ready; [|by apply (wp_leaves passive); [leaves|]].
    do 3 (apply Hnext; [leaves|done|]; intros [] ?s' ?Hs').
    apply (wp_passive_bind passive); [done|by apply wp_stopProtocol|]. intros [] s3 H3.
    apply (wp_passive_bind passive); [done|eapply wp_mono; [apply wp_destroyProtocol|intros ? ? ? ->; apply passive_none]|]. intros [] s4 H4.
    apply Hnext; [apply leaves_onConfiguration|done|]. intros [] s5 H5. destruct (ContainerProps.factory OsLinux container) as [c|]; [|by apply (wp_leaves passive); [leaves|]].
    apply Hnext; [leaves|done|]. intros config' s6 H6. apply Hnext; [leaves|done|]. intros gws s7 H7. apply wp_modify_bind. by apply (wp_start _ _ gws).
  - unfold disconnectFromVpn. apply Hnext; [leaves|done|]. intros ipc s1 H1. apply Hnext; [leaves|done|]. intros [] s2 H2. apply wp_gets_bind.
    destruct (m_vpnProtocol (globals s2)) eqn:E; [|apply (wp_leaves passive); [leaves|by rewrite E]]. eapply wp_mono; [apply wp_destroyProtocol|]. intros ? ? ? ->. apply passive_none.
Qed.

Lemma wp_connSlot x s : acceptable x (globals s) → passive (m_vpnProtocol (globals s)) → wp (connSlot x) (λ _ s' _, passive (m_vpnProtocol (globals s'))) s.
Proof.
  intros Ha Hs. destruct x as [l| |ips|ips|site gw mode ips l]; cbn [connSlot].
  - apply wp_acts; [done|]. intros p E. cbn in Ha. by rewrite E in Ha.
  - apply (wp_leaves passive); [apply leaves_sitesTimeout|done].
  - apply (wp_leaves passive); [apply leaves_siteRoutes|done].
  - apply (wp_leaves passive); [apply leaves_siteRoutes|done].
  - apply (wp_leaves passive); [apply leaves_siteResolved|done].
Qed.

(** *** Requests for WireGuard *)

(** What can be seen of a run but the accesses to the settings. *)
Definition visible (t : list ConnEvent) : list ConnEvent := List.filter (λ e, match e with EvStore _ => false | _ => true end) t.

Lemma visible_app t t' : visible (t ++ t') = visible t ++ visible t'.
Proof. apply List.filter_app. Qed.
Lemma visible_store t : visible (map EvStore t) = [].
Proof. by induction t. Qed.

(** There is no object, or it is of WireGuard. *)
Definition wireguardOnly (o : option VpnProtocol) : bool :=
  match o with Some p => bool_decide (p_class p = ContainerProps.WireguardProtocol) | None => true end.

Definition stopped (o : option VpnProtocol) : list ConnEvent := match o with Some _ => [EvDeactivate; EvState Vpn.Disconnected] | None => [] end.

Lemma stop_run s : wireguardOnly (m_vpnProtocol (globals s)) = true → stopProtocol s = (Ok tt, s, stopped (m_vpnProtocol (globals s))).
Proof.
  destruct s as [[o conf host ipc timer] w]. intros H. unfold stopProtocol, getV, gets, mbind, M_bind. cbn [globals m_vpnProtocol] in *. destruct o as [p|]; [|done].
  apply bool_decide_eq_true in H. unfold stopActs. rewrite H. by destruct ipc.
Qed.

Lemma destroy_run s : wireguardOnly (m_vpnProtocol (globals s)) = true →
  destroyProtocol s = (Ok tt, mkSys (match m_vpnProtocol (globals s) with Some _ => setProtocol None (globals s) | None => globals s end) (world s), stopped (m_vpnProtocol (globals s))).
Proof.
  destruct s as [[o conf host ipc timer] w]. intros H. unfold destroyProtocol, getV, gets, mbind, M_bind. cbn [globals m_vpnProtocol] in *. destruct o as [p|]; [|done].
  apply bool_decide_eq_true in H. unfold stopActs. rewrite H. by destruct ipc.
Qed.

Lemma onConfiguration_run (s : Sys VpnConn (Sys Secure W)) :
  let c := chosen (view (globals (world s))) in
  plain (globals (world s)) → toInt (QtJson.value (m_vpnConfiguration (globals s)) "config_version") = 0 → isMode (sitesMode c) → isMode (appsMode c) →
  ∃ w t, onConfiguration (SplitTunnel.VpnConnection.appendKillSwitchConfig;; SplitTunnel.VpnConnection.appendSplitTunnelingConfig) s =
    (Ok tt, mkSys (setConfiguration (withChoice (m_vpnConfiguration (globals s)) c) (globals s)) w, map EvStore t).
Proof.
  intros c Hp Hv Hm Ha. pose proof (append_run (mkSys (m_vpnConfiguration (globals s)) (world s)) Hp Hv Hm Ha) as H. unfold wp in H. unfold onConfiguration.
  destruct ((SplitTunnel.VpnConnection.appendKillSwitchConfig;; SplitTunnel.VpnConnection.appendSplitTunnelingConfig) _) as [[r s'] t]. destruct H as [-> H]. rewrite H. by eexists _, _.
Qed.

Lemma connect_run host container config (s : Sys VpnConn (Sys Secure W)) :
  let c := chosen (view (globals (world s))) in
  ContainerProps.factory OsLinux container = Some ContainerProps.WireguardProtocol →
  (ipcReady (world (world s))).1 = true → wireguardOnly (m_vpnProtocol (globals s)) = true →
  plain (globals (world s)) → toInt (QtJson.value config "config_version") = 0 → isMode (sitesMode c) → isMode (appsMode c) →
  ∃ s' t, connectToVpn host container config s = (Ok tt, s', t) ∧
    visible t = EvState Vpn.Connecting :: stopped (m_vpnProtocol (globals s)) ++ stopped (m_vpnProtocol (globals s)) ++ [EvActivate (withChoice config c)] ∧
    m_vpnProtocol (globals s') = Some (mkProtocol ContainerProps.WireguardProtocol Vpn.Unknown None "" "" 0 0).
Proof.
  destruct s as [v [st w]]. cbn zeta. cbn [globals world]. intros Hf Hr Hw Hp Hv Hm Ha. unfold connectToVpn. unfold mbind at 1, M_bind at 1.
  unfold asked at 1. cbn [globals world]. destruct (ipcReady w) as [ready w1]. cbn [fst] in Hr. subst ready.
  set (v1 := setConfiguration config (setRemote host (setIpc (c_ipc v || true) v))).
  set (oc := onConfiguration _). unfold mbind, M_bind, setV, modify, emit. cbn beta iota. cbn [globals world]. fold v1. change (m_vpnProtocol v) with (m_vpnProtocol v1) in *.
  rewrite stop_run by done. rewrite destroy_run by done. cbn beta iota. cbn [globals world].
  set (v2 := match m_vpnProtocol v1 with Some _ => _ | None => _ end).
  assert (m_vpnConfiguration v2 = config) as Hc by (unfold v2; by destruct (m_vpnProtocol v1)).
  destruct (onConfiguration_run (mkSys v2 (mkSys st w1))) as (w2 & t2 & Hoc); [done|by cbn [globals]; rewrite Hc|done|done|].
  fold oc in Hoc. rewrite Hoc. cbn [globals world]. rewrite Hf, Hc. generalize (withChoice config (chosen (view st))). intros o. cbn. eexists _, _. split; [done|]. split; [|done].
  change (m_vpnProtocol v1) with (m_vpnProtocol v). destruct (m_vpnProtocol v); cbn; do 5 f_equal; try (fold (visible (map EvStore t2 ++ [EvActivate o]))); by rewrite ?visible_app, ?visible_store.
Qed.

(** *** Stopping without new routes *)

Definition routerOps (t : list ConnEvent) : list RouterOp := concat (map (λ e, match e with EvIpc c => forwarded c | _ => [] end) t).

Lemma routerOps_app t t' : routerOps (t ++ t') = routerOps t ++ routerOps t'.
Proof. unfold routerOps. by rewrite map_app, concat_app. Qed.

Lemma quiet_set st p : quietState st = true → match (setConnectionState st p).2 with Some st => quietState st = true | None => True end.
Proof. intros H. unfold setConnectionState. destruct (bool_decide _); [done|]. by destruct (_ && _). Qed.

Lemma quiet_run st (s : Sys VpnConn (Sys Secure W)) : quietState st = true → onConnectionStateChanged st s = (Ok tt, s, [EvState st]).
Proof. intros H. unfold onConnectionStateChanged, getV, gets, mbind, M_bind. by destruct (c_ipc (globals s)), st. Qed.

(** What is heard of a quiet action asks for no route. *)
Lemma quiet_heard a p e (s : Sys VpnConn (Sys Secure W)) : quiet a = true → (act_on a p).2 = Some e → ∃ t, heard e s = (Ok tt, s, t) ∧ routerOps t = [].
Proof.
  destruct a as [st|code|st|gw|gw|r n|c|code]; cbn [quiet act_on]; intros H; try done.
  - pose proof (quiet_set st p H) as Hq. destruct (setConnectionState st p) as [p' [st'|]]; cbn in *; intros [= <-]. cbn [heard]. rewrite quiet_run by done. by eexists.
  - intros [= <-]. cbn [heard]. rewrite quiet_run by done. by eexists.
  - intros [= <-]. by eexists.
  - intros [= <-]. eexists. split; [done|]. cbn. rewrite app_nil_r. by destruct (forwarded c).
  - intros [= <-]. by eexists.
Qed.

Lemma quiet_destroyed l p s : forallb quiet l = true → ∃ t, destroyedActs p l s = (Ok tt, s, t) ∧ routerOps t = [].
Proof.
  revert p. induction l as [|a l IH]; intros p H; [by eexists|]. cbn in H. apply andb_prop in H as [Ha Hl]. cbn [destroyedActs].
  pose proof (quiet_heard a p) as Hq. destruct (act_on a p) as [p' [e|]]; destruct (IH p' Hl) as (t & E & Ht); unfold mbind, M_bind; [|cbn; rewrite E; by eexists].
  destruct (Hq e s Ha eq_refl) as (t' & -> & Ht'). rewrite E. eexists. split; [done|]. by rewrite routerOps_app, Ht', Ht.
Qed.

Lemma quiet_disconnect {plaws : ProtocolLaws penv} s :
  ∃ s' t, disconnectFromVpn s = (Ok tt, s', t) ∧ routerOps t = (if c_ipc (globals s) then [Clear] else []) ∧ m_vpnProtocol (globals s') = None.
Proof.
  unfold disconnectFromVpn, getV, gets. unfold mbind at 1, M_bind at 1.
  set (t0 := if c_ipc (globals s) then [EvIpc FlushDns; EvIpc ClearSavedRoutes] else []).
  cbn beta iota. set (clear := when _ _). assert (clear s = (Ok tt, s, t0)) as E0 by (unfold clear, t0; by destruct (c_ipc (globals s))).
  assert (routerOps t0 = if c_ipc (globals s) then [Clear] else []) as Ht0 by (unfold t0; by destruct (c_ipc (globals s))).
  unfold mbind, M_bind. rewrite E0. destruct (m_vpnProtocol (globals s)) as [p|] eqn:E; last first.
  { eexists s, _. split; [done|]. split; [|done]. cbn [app]. by rewrite routerOps_app, Ht0, app_nil_r. }
  assert (∃ s' t, destroyProtocol s = (Ok tt, s', t) ∧ routerOps t = [] ∧ m_vpnProtocol (globals s') = None) as (s' & t & -> & Ht & Hn); last first.
  { eexists s', _. split; [done|]. split; [|done]. cbn [app]. by rewrite routerOps_app, Ht0, Ht, app_nil_r. }
  unfold destroyProtocol, getV, gets, setV, modify, mbind, M_bind. rewrite E. set (s1 := mkSys _ _).
  destruct (decide (p_class p = ContainerProps.WireguardProtocol)) as [Hc|Hc].
  - unfold stopActs. rewrite Hc. destruct (quiet_destroyed [Raise Vpn.Disconnected] p s1) as (t & Hd & Ht); [done|]. unfold mbind, M_bind. cbn beta iota. cbn. cbn in Hd. rewrite Hd. by eexists _, _.
  - assert (stopActs p s1 = asked (stopOther p) s1) as -> by (unfold stopActs; by destruct (p_class p)). unfold asked. cbn [world s1].
    pose proof (stops_quietly p (world (world s)) Hc) as H. destruct (stopOther p (world (world s))) as [l w]. cbn [fst] in H. set (s2 := mkSys _ (mkSys _ w)).
    destruct (quiet_destroyed l p s2 H) as (t & -> & Ht). by eexists _, _.
Qed.

End Connection.

(** ** Properties *)

Section Properties.
  Context {U : Type} {inputs : ConnectionInputs U}.
  Context {W : Type} {secrets : SecretEnv W} {env : QtEnv} {te : TextEnv} {penv : ProtocolEnv W} {plaws : ProtocolLaws penv}.
  Context {R : Type} {rtable : RouteTable R} {rlaws : RouteTableLaws rtable}.

(** What holds between the steps of both threads. *)
Definition Sound (s : System U W) : Prop := consistent (globals (controller s)) ∧ passive (m_vpnProtocol (globals (connection s))).

Definition started (s : System U W) : Prop := globals (controller s) = newController ∧ m_vpnProtocol (globals (connection s)) = None.

Lemma started_sound s : started s → Sound s.
Proof. intros [H1 H2]. split; [by rewrite H1|rewrite H2; apply passive_none]. Qed.

Lemma step_sound (s s' : System U W) : Sound s → step s s' → Sound s'.
Proof.
  intros [H1 H2] Hstep. apply consistent_showing in H1. destruct Hstep as [x code s c t Hr Hx|code st l s c t Hl Hr Hx|r l s c t Hl Hx|x s c t Ha Hx|u s]; (split; cbn [controller connection]).
  - destruct (controller s) as [k u]. cbn [globals] in H1. rewrite H1 in Hx. destruct (slot_shows x code (m_state k) u) as (st' & u' & t' & E). rewrite E in Hx.
    injection Hx as <- <-. by apply consistent_showing.
  - done.
  - rewrite changed_run in Hx. injection Hx as <- <-. by apply consistent_showing.
  - done.
  - by apply consistent_showing.
  - pose proof (wp_serve r (connection s) H2) as H. unfold wp in H. by rewrite Hx in H.
  - by apply consistent_showing.
  - pose proof (wp_connSlot x (connection s) Ha H2) as H. unfold wp in H. by rewrite Hx in H.
  - by apply consistent_showing.
  - done.
Qed.

Lemma reachable_sound (s s' : System U W) : started s → rtc step s s' → Sound s'.
Proof. intros Hs%started_sound Hrun. induction Hrun as [|s1 s2 s3 H12 _ IH]; [done|]. by apply IH, (step_sound s1). Qed.

Lemma attempt_requests u host k config : ConnectTo host k config ∈ requestsOf (attempt u).1 →
  requestsOf (attempt u).1 = [ConnectTo host k config] ∧ k = defaultContainerRole u ∧ ContainerProps.isSupportedByCurrentPlatform OsLinux k = true ∧
  k ≠ DockerContainer.None ∧ (makeConfiguration k u).1 = inr (host, config).
Proof.
  unfold attempt. destruct (ContainerProps.isSupportedByCurrentPlatform OsLinux (defaultContainerRole u)) eqn:Hs; [|by intros []%elem_of_nil]. cbn [negb].
  case_bool_decide as Hn; [by intros []%elem_of_nil|]. destruct (makeConfiguration (defaultContainerRole u) u) as [[[code|]|[h c]] u'] eqn:Hc; cbn; [by intros []%elem_of_nil..|].
  intros [= -> -> ->]%list_elem_of_singleton. by rewrite Hc.
Qed.

Definition busy (st : Vpn.ConnectionState) : bool :=
  match st with Vpn.Connected | Vpn.Connecting | Vpn.Reconnecting | Vpn.Disconnecting => true | _ => false end.

Lemma opening_requests u r : r ∈ requestsOf (opening u).1.1 → requestsOf (opening u).1.1 = requestsOf (attempt u).1 ∧ (opening u).1.2 = Vpn.Preparing ∧ hasInstalledContainers u = true.
Proof.
  unfold opening. destruct (_ && negb (hasInstalledContainers u)); [by intros []%elem_of_nil|]. destruct (_ && isApiKeyExpired u); [by destruct (_ =? 1); intros []%elem_of_nil|].
  destruct (hasInstalledContainers u); [done|by intros []%elem_of_nil].
Qed.

Lemma attempt_disconnect u : Disconnect ∉ requestsOf (attempt u).1.
Proof.
  unfold attempt. destruct (negb _); [by intros []%elem_of_nil|]. destruct (bool_decide _); [by intros []%elem_of_nil|].
  destruct (makeConfiguration _ u) as [[[code|]|[h c]] u']; cbn; [by intros []%elem_of_nil..|]. by intros [=]%list_elem_of_singleton.
Qed.

Lemma opening_spec u :
  (length (requestsOf (opening u).1.1) ≤ 1)%nat ∧ (Disconnect ∈ requestsOf (opening u).1.1 ↔ false = true) ∧
  ∀ host k config, ConnectTo host k config ∈ requestsOf (opening u).1.1 →
    false = false ∧ (opening u).1.2 = Vpn.Preparing ∧
    k = defaultContainerRole u ∧ k ≠ DockerContainer.None ∧ ContainerProps.isSupportedByCurrentPlatform OsLinux k = true ∧
    hasInstalledContainers u = true ∧ (makeConfiguration k u).1 = inr (host, config).
Proof.
  split; [|split; [split; [|done]|]].
  - destruct (requestsOf (opening u).1.1) as [|r l] eqn:E; [cbn; lia|]. destruct (opening_requests u r) as (Ha & _); [rewrite E; left|]. rewrite <- E, Ha.
    destruct r as [host k config|]; [|destruct (attempt_disconnect u); rewrite <- Ha, E; left].
    destruct (attempt_requests u host k config) as [-> _]; [rewrite <- Ha, E; left|cbn; lia].
  - intros H. destruct (attempt_disconnect u). by destruct (opening_requests u _ H) as [<- _].
  - intros host k config H. destruct (opening_requests u _ H) as (Ha & Hp & Hi). rewrite Ha in H. by destruct (attempt_requests u host k config H) as (_ & -> & ? & ? & ?).
Qed.



(** [C35] Edits of the sites during a WireGuard connection.  In every state both threads can
    reach, while the protocol is of the class of WireGuard, also when it is connected,
    [addRoutes] and [deleteRoutes] return at once without a call to the service: the class
    signals its states but never sets the one these functions ask for. *)
Theorem wireguard_sites_ignored (s s' : System U W) (p : VpnProtocol) (ips : list string) (Hs : started s) (Hrun : rtc step s s')
    (Hp : m_vpnProtocol (globals (connection s')) = Some p) (Hwg : p_class p = ContainerProps.WireguardProtocol) :
  Conn.addRoutes ips (connection s') = (Ok tt, connection s', []) ∧ Conn.deleteRoutes ips (connection s') = (Ok tt, connection s', []).
Proof.
  destruct (reachable_sound s s' Hs Hrun) as [_ Hpass]. destruct (Hpass p Hp Hwg) as [Hst _].
  unfold Conn.addRoutes, Conn.deleteRoutes, Conn.siteRoutes, Conn.connectionState, Conn.getV, gets, mbind, M_bind. by rewrite Hp, Hst.
Qed.


Lemma gives_for_each_app {St Ev E A} (l l' : list A) (f : A → M St Ev E unit) (Q : unit → St → Prop) s :
  gives (for_each l f) (λ _ s1, gives (for_each l' f) Q s1) s → gives (for_each (l ++ l') f) Q s.
Proof.
  revert s. induction l as [|x l IH]; intros s H; [by apply gives_run in H as (a & s1 & t & [= <- <- <-] & H)|]. cbn [for_each app] in *.
  apply gives_run in H as (a & s1 & t & E1 & H). unfold mbind, M_bind in E1. destruct (f x s) as [[[[]|e|] s2] t2] eqn:Ef; [|done..].
  apply gives_bind. apply gives_run. eexists _, _, _. split; [exact Ef|]. apply IH. apply gives_run.
  destruct (for_each l f s2) as [[[b|e|] s3] t3]; [|done..]. injection E1 as <- <- <-. by eexists _, _, _.
Qed.

(** What the connection's thread is asked to do. *)
Definition perform (x : Requested + ConnSlot) : Conn.ConnM (W := W) unit := match x with inl r => serve r | inr x => connSlot x end.

(** [C22] No route outlives a session.  Whatever requests, signals, timers and edits the
    connection has served since the service's record of routes was empty, if the service
    is connected and the networks it was told of have defined masks, then
    [disconnectFromVpn] returns without an object, and once the service has run all its
    calls in order, its record is empty and the kernel's table holds exactly the routes of
    before but those it was asked to delete. *)
Theorem session_routes (xs : list (Requested + ConnSlot)) (s s1 : Sys VpnConn (Sys Secure W)) (t : list ConnEvent) (r : Sys RouterState R)
    (Hrun : for_each xs perform s = (Ok tt, s1, t)) (Hipc : c_ipc (globals s1) = true)
    (Hops : forallb usableOp (routerOps t) = true) (Hr : m_addedRoutes (globals r) = []) :
  ∃ s2 t2, Conn.disconnectFromVpn s1 = (Ok tt, s2, t2) ∧ m_vpnProtocol (globals s2) = None ∧
    gives (for_each (routerOps (t ++ t2)) runOp) (λ _ r', m_addedRoutes (globals r') = [] ∧
      ∀ x, x ∈ routes (world r') ↔ x ∈ routes (world r) ∧ x ∉ concat (map deletions (routerOps t))) r.
Proof.
  destruct (quiet_disconnect s1) as (s2 & t2 & E & Ht2 & Hn). exists s2, t2. split; [done|]. split; [done|].
  rewrite routerOps_app, Ht2, Hipc. apply gives_for_each_app.
  eapply gives_mono; [by apply (ops_recorded (routes (world r)) []), no_record|]. intros [] r1 H1. rewrite app_nil_r in H1.
  apply gives_bind, gives_bind. eapply gives_mono; [by apply clear_recorded|]. intros b r2 [_ H2]. by apply gives_ret, gives_ret.
Qed.

End Properties.

(** ** A concrete system *)

Module SimConnection.
Import SimSecrets SimSettings.

(** The controller's questions: the version, containers and default container of the
    server, and the outcome of making a configuration. *)
Record Inputs := mkInputs { i_version : Z; i_installed : bool; i_container : DockerContainer.t; i_made : option Z + string * QJsonObject }.

#[global] Instance inputs : ConnectionInputs Inputs := {
  configVersion := i_version;
  hasInstalledContainers := i_installed;
  isApiKeyExpired _ := false;
  defaultContainerRole := i_container;
  makeConfiguration _ u := (i_made u, u);
}.

(** A protocol with gateways that connects at once. *)
#[global] Instance protocols : ProtocolEnv World := {
  prepared _ _ w := (("10.8.0.1", "192.168.1.1"), w);
  startOther _ _ w := (([Assign Vpn.Connecting; Assign Vpn.Connected], 0), w);
  stopOther _ w := ([Assign Vpn.Disconnecting; Assign Vpn.Disconnected], w);
  ipcReady w := (true, w);
}.

#[global] Instance protocols_laws : ProtocolLaws protocols.
Proof. by split. Qed.

(** A table of routes without duplicates. *)
#[global] Instance table : RouteTable (list Route) := {
  ioctl c l :=
    match c with
    | AddRoute r => if bool_decide (r ∈ l) then (false, l) else (true, r :: l)
    | DelRoute r => if bool_decide (r ∈ l) then (true, List.filter (λ x, bool_decide (x ≠ r)) l) else (false, l)
    end;
  routes l := l;
}.

#[global] Instance table_laws : RouteTableLaws table.
Proof.
  split; cbn; intros r w w'; case_bool_decide as H; intros [= <-]; try done.
  - split; [done|]. intros x. by rewrite elem_of_cons.
  - split; [done|]. intros x. rewrite !list_elem_of_In, filter_In, bool_decide_eq_true. tauto.
Qed.

Definition ownInputs (k : DockerContainer.t) : Inputs := mkInputs 0 true k (inr ("203.0.113.7", ownServer)).
Definition idle : Sys VpnConn (Sys Secure World) := mkSys (mkVpnConn None [] "" false 0) (mkSys store opened).
Definition awgObject : VpnProtocol := mkProtocol ContainerProps.WireguardProtocol Vpn.Unknown None "" "" 0 0.
Definition up : Sys VpnConn (Sys Secure World) := mkSys (mkVpnConn (Some awgObject) [] "" true 0) (mkSys store opened).
Definition atStart (k : DockerContainer.t) : System Inputs World := mkSystem (mkSys newController (ownInputs k)) idle [] [].

(** A session with the first protocol, served by the connection's thread. *)
Definition session : list (Requested + ConnSlot) := [inl (ConnectTo "203.0.113.7" DockerContainer.OpenVpn ownServer); inr (AddRoutes ["198.51.100.0/24"])].
Definition served := for_each session perform idle.
Definition before : Sys RouterState (list Route) := mkSys (mkRouter []) [mkRoute "0.0.0.0" "0.0.0.0" "192.168.1.1"].

End SimConnection.

Import SimSecrets SimSettings SimConnection.

Lemma session_routes_witness :
  ∃ s2 t2, Conn.disconnectFromVpn (state_of served) = (Ok tt, s2, t2) ∧ m_vpnProtocol (globals s2) = None ∧
    gives (for_each (routerOps (log_of served ++ t2)) runOp) (λ _ r', m_addedRoutes (globals r') = [] ∧
      ∀ x, x ∈ routes (world r') ↔ x ∈ routes (world before) ∧ x ∉ concat (map deletions (routerOps (log_of served)))) before.
Proof.
  apply (session_routes session idle (state_of served) (log_of served) before).
  - vm_compute. reflexivity.
  - vm_compute. reflexivity.
  - vm_compute. reflexivity.
  - reflexivity.
Defined.

(** The system after the button was pressed, the request served and the tunnel connected. *)
Definition pressedOnce : System Inputs World :=
  let r := Controller.toggleConnection (Some 101) (controller (atStart DockerContainer.Awg)) in
  mkSystem (state_of r) idle (requestsOf (log_of r)) [].
Definition servedOnce : System Inputs World :=
  let r := serve (ConnectTo "203.0.113.7" DockerContainer.Awg ownServer) idle in
  mkSystem (controller pressedOnce) (state_of r) [] (statesOf (log_of r)).
Definition connected : System Inputs World :=
  let r := Conn.protocolActs [Raise Vpn.Connected] (connection servedOnce) in
  mkSystem (controller servedOnce) (state_of r) [] (states servedOnce ++ statesOf (log_of r)).

Lemma connected_reachable : rtc step (atStart DockerContainer.Awg) connected.
Proof.
  apply rtc_l with pressedOnce.
  { apply (step_slot Toggle (Some 101) (atStart DockerContainer.Awg)); [exists 101; split; [done|by right]|]. vm_compute. reflexivity. }
  apply rtc_l with servedOnce.
  { apply (step_request (ConnectTo "203.0.113.7" DockerContainer.Awg ownServer) [] pressedOnce); [vm_compute; reflexivity|]. vm_compute. reflexivity. }
  apply rtc_once. apply (step_conn (Acts [Raise Vpn.Connected]) servedOnce); [|vm_compute; reflexivity].
  assert (m_vpnProtocol (globals (connection servedOnce)) = Some awgObject) as E by (vm_compute; reflexivity).
  unfold acceptable. rewrite E. intros _. apply Forall_singleton. by left.
Qed.


Lemma wireguard_sites_ignored_witness :
  Conn.addRoutes ["198.51.100.0/24"] (connection connected) = (Ok tt, connection connected, []) ∧
  Conn.deleteRoutes ["198.51.100.0/24"] (connection connected) = (Ok tt, connection connected, []).
Proof.
  apply (wireguard_sites_ignored (atStart DockerContainer.Awg) connected awgObject ["198.51.100.0/24"]).
  - by split.
  - exact connected_reachable.
  - vm_compute. reflexivity.
  - reflexivity.
Defined.


