(* ===== verification/OpenVpn.v ===== *)
(** * The OpenVPN protocol

    Models, for Linux, [OpenVpnProtocol] of [src/client/protocols/openvpnprotocol.cpp] and
    the management server it owns ([src/client/managementserver.cpp]): OpenVPN connects to
    the server and writes lines about its state, which the object turns into states,
    gateways and the kill switch.  [openVpnEnv] is the interface [ProtocolEnv] of the
    connection with this class in it.

    What an object does to its base class is logged as the [Action]s of [Connection.v], so
    the connection hears them in order.  The class [OpenVpnHost] is what the object runs
    against: files, ports, the process the service starts.  The timeout timer of the base
    class is never started, so stopping it is left out. *)

From stdpp Require Import prelude strings list gmap pretty.
From Stdlib Require Import ZArith Lia Ascii.
From S2P Require Import Prelude QtJson LineProtocol QtText InterfaceConfig SecureSettings Containers Connection.

Local Open Scope Z_scope.

Class OpenVpnHost (W : Type) := {
  toULongLong : string → Z;                        (* QByteArray::toULongLong *)
  openVpnExecPath : string;
  fileExists : string → W → bool;
  writeConfigFile : string → W → string * W;       (* QTemporaryFile; its name *)
  generate : W → Z * W;                            (* QRandomGenerator, 32 bits *)
  portIsFree : Z → W → bool * W;                   (* listening on it for a moment *)
  listen : Z → W → bool * W;
  createProcess : W → option bool * W;             (* CreatePrivilegedProcess; isInitialized *)
  ipcInterface : W → bool;                         (* IpcClient::Interface() is not null *)
  getTapList : W → list string * W;
  checkAndInstallDriver : W → bool * W;
}.

(** The members of [OpenVpnProtocol] and [ManagementServer].  [m_socket] is the open socket
    with the bytes not yet read. *)
Record OpenVpn := mkOpenVpn {
  m_configData : QJsonObject;
  m_configFileName : string;
  m_vpnLocalAddress : string;
  m_tcpServer : bool;
  m_socket : option string;
  m_openVpnProcess : bool;
}.

(** The object with its base class. *)
Record OvObject := mkOvObject { ov_base : VpnProtocol; ov_own : OpenVpn }.

Inductive OvEvent :=
| OvAct (a : Action)
| OvCommand (text : string)              (* written to the socket of OpenVPN *)
| OvCloseServer
| OvStartProcess (arguments : list string)
| OvCloseProcess.

Definition m_managementHost : string := "127.0.0.1".
Definition m_managementPort : Z := 57775.

Module OpenVpnProtocol.
Section OpenVpnProtocol.
  Context {W : Type} {host : OpenVpnHost W}.

Definition OM (A : Type) : Type := M (Sys OvObject W) OvEvent Undefined A.

Definition getO {A} (f : OpenVpn → A) : OM A := gets (λ s, f (ov_own (globals s))).
Definition setO (f : OpenVpn → OpenVpn) : OM unit := modify (λ s, mkSys (mkOvObject (ov_base (globals s)) (f (ov_own (globals s)))) (world s)).
Definition asks {A} (f : W → A * W) : OM A := λ s, match f (world s) with (a, w) => (Ok a, mkSys (globals s) w, []) end.

(** An action on the base class. *)
Definition does (a : Action) : OM unit := λ s,
  (Ok tt, mkSys (mkOvObject (act_on a (ov_base (globals s))).1 (ov_own (globals s))) (world s), [OvAct a]).

Definition setSocket (x : option string) (o : OpenVpn) : OpenVpn :=
  mkOpenVpn (m_configData o) (m_configFileName o) (m_vpnLocalAddress o) (m_tcpServer o) x (m_openVpnProcess o).
Definition setServer (b : bool) (o : OpenVpn) : OpenVpn :=
  mkOpenVpn (m_configData o) (m_configFileName o) (m_vpnLocalAddress o) b (m_socket o) (m_openVpnProcess o).
Definition setProcess (b : bool) (o : OpenVpn) : OpenVpn :=
  mkOpenVpn (m_configData o) (m_configFileName o) (m_vpnLocalAddress o) (m_tcpServer o) (m_socket o) b.
Definition setLocalAddress (a : string) (o : OpenVpn) : OpenVpn :=
  mkOpenVpn (m_configData o) (m_configFileName o) a (m_tcpServer o) (m_socket o) (m_openVpnProcess o).
Definition setConfig (c : QJsonObject) (name : string) (o : OpenVpn) : OpenVpn :=
  mkOpenVpn c name (m_vpnLocalAddress o) (m_tcpServer o) (m_socket o) (m_openVpnProcess o).

(** ** The management server *)

Definition managementStop : OM unit :=
  b ← getO m_tcpServer;
  when b (emit OvCloseServer;; setO (setServer false)).

Definition managementStart (port : Z) : OM bool :=
  managementStop;;
  ok ← asks (listen port);
  setO (setServer ok);; mret ok.

(** Whether something was written. *)
Definition writeCommand (message : string) : OM bool :=
  x ← getO m_socket;
  match x with Some _ => emit (OvCommand message);; mret true | None => mret false end.

(** The bytes up to and with the next line break, or all if there is none. *)
Definition nextLine (s : string) : string * string :=
  match cut s with Some (l, r) => (l +:+ nl, r) | None => (s, "") end.

Definition readLine : OM string :=
  x ← getO m_socket;
  match x with
  | None => mret ""
  | Some s => setO (setSocket (Some (nextLine s).2));; mret (nextLine s).1
  end.

Definition onNewConnection : OM unit :=
  setO (setSocket (Some ""));; managementStop.
Definition onSocketDisconnected : OM unit := setO (setSocket None).

(** Bytes that arrive. *)
Definition arrive (bytes : string) : OM unit :=
  setO (λ o, setSocket ((λ s, s +:+ bytes) <$> m_socket o) o).

(** ** The protocol *)

Definition sendTermSignal : OM bool := writeCommand "signal SIGTERM".
Definition sendByteCount : OM unit := writeCommand "bytecount 1";; mret tt.
Definition sendInitialData : OM unit := writeCommand "state on";; writeCommand "log on";; mret tt.

Definition killOpenVpnProcess : OM unit :=
  b ← getO m_openVpnProcess;
  when b (emit OvCloseProcess).

Definition stop : OM unit :=
  does (Assign Vpn.Disconnecting);;
  st ← gets (λ s, m_connectionState (ov_base (globals s)));
  when (bool_decide (st = Vpn.Preparing) || bool_decide (st = Vpn.Connecting) || bool_decide (st = Vpn.Connected) || bool_decide (st = Vpn.Reconnecting))
   (sent ← sendTermSignal;
    when (negb sent) killOpenVpnProcess;;
    managementStop);;
  does (Service DisableKillSwitch);;
  does (Assign Vpn.Disconnected).

Definition prepare : OM Z :=
  ipc ← query ipcInterface;
  if negb ipc then mret 603
  else
    taps ← asks getTapList;
    match taps with
    | _ :: _ => mret 0
    | [] => ok ← asks checkAndInstallDriver; mret (if ok : bool then 0 else 702)
    end.

(** The constructor. *)
Definition readOpenVpnConfiguration (configuration : QJsonObject) : OM unit :=
  when (negb (isUndefined (QtJson.value configuration "openvpn_config_data")))
   (name ← asks (writeConfigFile (qtext (toQString (QtJson.value (toObject (QtJson.value configuration "openvpn_config_data")) "config"))));
    setO (setConfig configuration name)).

(** A port from 15001 to 65000.  The doubles of the source are exact enough for the integer
    part to be that of the quotient. *)
Definition scaledPort (n : Z) : Z := (65000 - 15001) * n / (2 ^ 32 - 1) + 15001.

Fixpoint selectFrom (tries : nat) : OM Z :=
  match tries with
  | O => mret m_managementPort
  | S tries =>
      n ← asks generate;
      ok ← asks (portIsFree (scaledPort n));
      if ok : bool then mret (scaledPort n) else selectFrom tries
  end.
Definition selectMgmtPort : OM Z := selectFrom 100.

Definition failWith (code : Z) : OM Z := does (Fail code);; mret code.

Definition start : OM Z :=
  stop;;
  executable ← query (fileExists openVpnExecPath);
  if negb executable then failWith 600
  else
    path ← getO m_configFileName;
    config ← query (fileExists path);
    if negb config then failWith 500
    else
      mgmtPort ← selectMgmtPort;
      started ← managementStart mgmtPort;
      if negb started then failWith 501
      else
        does (Assign Vpn.Connecting);;
        process ← asks createProcess;
        setO (setProcess (bool_decide (is_Some process)));;
        match process with
        | None | Some false => failWith 603
        | Some true =>
            emit (OvStartProcess ["--config"; path; "--management"; m_managementHost; pretty mgmtPort; "--management-client"]);;
            mret 0
        end.

(** The process has ended. *)
Definition processFinished : OM unit := does (Assign Vpn.Disconnected).

(** ** Lines of OpenVPN *)

Definition nth_part (l : list string) (i : nat) : OM string :=
  match l !! i with Some x => mret x | None => throw UndefinedBehaviour end.

Definition updateRouteGateway (line : string) : OM unit :=
  if containsText "net_route_v4_best_gw" line then
    let params := qsplit " " line in
    when (length params =? 6)%nat (gw ← nth_part params 3; does (RouteGateway gw))
  else
    line ← nth_part (skipEmpty (splitText "ROUTE_GATEWAY" line)) 1;
    when (has_char "/" line)
     (gw ← nth_part (skipEmpty (qsplit "/" line)) 0;
      does (RouteGateway (replaceText " " "" gw))).

Definition updateVpnGateway (line : string) : OM unit :=
  for_each (qsplit "," line) (λ l,
    when (containsText "ifconfig" l && (length (qsplit " " l) =? 3)%nat)
     (a ← nth_part (qsplit " " l) 1;
      gw ← nth_part (qsplit " " l) 2;
      setO (setLocalAddress a);;
      does (VpnGateway gw);;
      config ← getO m_configData;
      when (variantToBool (toQString (QtJson.value config "killSwitchOption"))) (does (Service (EnableKillSwitch config))))).

Definition countBytes (line : string) : OM unit :=
  let count := qsplit "," (List.last (splitText ">BYTECOUNT:" line) "") in
  r ← nth_part count 0;
  s ← nth_part count 1;
  does (CountBytes (toULongLong (trimmed r)) (toULongLong (trimmed s))).

(** The part of the loop for lines that are not handled as states; whether it goes on. *)
Definition handleRest (line : string) : OM bool :=
  when (containsText "ROUTE_GATEWAY" line || containsText "net_route_v4_best_gw" line) (updateRouteGateway line);;
  when (containsText "PUSH: Received control message" line) (updateVpnGateway line);;
  if containsText "FATAL" line then
    does (Report (if containsText "tap-windows6 adapters on this system are currently in use or disabled" line then 700 else 701));;
    mret false
  else
    when (containsText ">BYTECOUNT:" line) (countBytes line);;
    mret true.

Definition handleLine (line : string) : OM bool :=
  if containsText ">INFO:OpenVPN Management Interface" line then sendInitialData;; handleRest line
  else if String.prefix ">STATE" line then
    if containsText "CONNECTED,SUCCESS" line then sendByteCount;; does (Assign Vpn.Connected);; mret true
    else if containsText "EXITING,SIGTER" line then does (Assign Vpn.Disconnecting);; mret true
    else if containsText "RECONNECTING" line then does (Assign Vpn.Reconnecting);; mret true
    else handleRest line
  else handleRest line.

(** The loop ends with the first line that is empty. *)
Fixpoint readLines (fuel : nat) : OM unit :=
  match fuel with
  | O => out_of_fuel
  | S fuel =>
      line ← readLine;
      let line := simplified line in
      if String.eqb line "" then mret tt
      else
        go ← handleLine line;
        if go : bool then readLines fuel else mret tt
  end.

(** Every pass takes at least one byte. *)
Definition onReadyReadDataFromManagementServer : OM unit :=
  x ← getO m_socket;
  readLines (S (String.length (default "" x))).

(** ** The interface of the connection *)

Definition actsOf (t : list OvEvent) : list Action := omap (λ e, match e with OvAct a => Some a | _ => None end) t.

Definition newOpenVpn : OpenVpn := mkOpenVpn [] "" "" false None false.

(** The answer, the actions and the object after a run; [d] stands for the answer of a run
    that does not return one. *)
Definition ran {A} (d : A) (m : OM A) (p : VpnProtocol) (o : OpenVpn) (w : W) : A * list Action * (OpenVpn * W) :=
  match m (mkSys (mkOvObject p o) w) with
  | (r, s, t) => (match r with Ok a => a | _ => d end, actsOf t, (ov_own (globals s), world s))
  end.

End OpenVpnProtocol.
End OpenVpnProtocol.

(** Secrets are kept outside the protocol object. *)
#[export] Instance liftedSecrets {G W} (e : SecretEnv W) : SecretEnv (Sys G W) := {
  linuxDesktop := @linuxDesktop _ e;
  readPassword tag s := let '(x, w) := readPassword tag (world s) in (x, mkSys (globals s) w);
  writePassword tag x s := mkSys (globals s) (writePassword tag x (world s));
  generateSalt n s := let '(x, w) := generateSalt n (world s) in (x, mkSys (globals s) w);
  encryptAes := @encryptAes _ e;
  decryptAes := @decryptAes _ e;
  serialize := @serialize _ e;
  deserialize := @deserialize _ e;
  fromVariant := @fromVariant _ e;
  toVariant := @toVariant _ e;
  backupText := @backupText _ e;
  restoreText := @restoreText _ e;
  reload := @reload _ e;
}.

(** The protocol classes with [OpenVpnProtocol] as it is written; the others are those of
    [base]. *)
#[export] Instance openVpnEnv {W} {host : OpenVpnHost W} (base : ProtocolEnv W) : ProtocolEnv (Sys OpenVpn W) := {
  prepared c config s :=
    match c with
    | ContainerProps.OpenVpnProtocol =>
        let p := mkProtocol c Vpn.Unknown None "" "" 0 0 in
        match OpenVpnProtocol.ran 0 (OpenVpnProtocol.readOpenVpnConfiguration config;; OpenVpnProtocol.prepare) p OpenVpnProtocol.newOpenVpn (world s) with
        | (_, _, (o, w)) => (("", ""), mkSys o w)
        end
    | _ => let '(gws, w) := prepared c config (world s) in (gws, mkSys (globals s) w)
    end;
  startOther p config s :=
    match p_class p with
    | ContainerProps.OpenVpnProtocol =>
        match OpenVpnProtocol.ran 0 OpenVpnProtocol.start p (globals s) (world s) with (code, l, (o, w)) => ((l, code), mkSys o w) end
    | _ => let '(r, w) := startOther p config (world s) in (r, mkSys (globals s) w)
    end;
  stopOther p s :=
    match p_class p with
    | ContainerProps.OpenVpnProtocol =>
        match OpenVpnProtocol.ran tt OpenVpnProtocol.stop p (globals s) (world s) with (_, l, (o, w)) => (l, mkSys o w) end
    | _ => let '(l, w) := stopOther p (world s) in (l, mkSys (globals s) w)
    end;
  ipcReady s := let '(b, w) := ipcReady (world s) in (b, mkSys (globals s) w);
}.
