(* ===== verification/OpenVpnSpec.v ===== *)
(** * Properties of the OpenVPN protocol

    What stopping does, what the lines of OpenVPN lead to, and how they reach the routes. *)

From stdpp Require Import prelude strings list gmap pretty.
From Stdlib Require Import ZArith Lia Ascii.
From S2P Require Import Prelude IPAddress QtJson LineProtocol QtText InterfaceConfig SecureSettings SplitTunnel SplitTunnelSpec Containers Router Connection ConnectionSpec OpenVpn.

Local Open Scope Z_scope.

(** ** Lines of OpenVPN *)

Definition infoLine : string := ">INFO:OpenVPN Management Interface Version 5 -- type 'help' for more info".
Definition routeLine (t g : string) : string := ">LOG:" +:+ t +:+ ",,ROUTE_GATEWAY " +:+ g +:+ "/255.255.255.0 IFACE=eth0".
Definition pushLine (t a b : string) : string :=
  ">LOG:" +:+ t +:+ ",,PUSH: Received control message: 'PUSH_REPLY,route 10.8.0.1,topology net30,ping 10,ping-restart 120,ifconfig " +:+ a +:+ " " +:+ b +:+
  ",peer-id 0,cipher AES-256-GCM'".
Definition stateLine (t a : string) : string := ">STATE:" +:+ t +:+ ",CONNECTED,SUCCESS," +:+ a +:+ ",203.0.113.7,1194,,".

Lemma numchar_black a : numchar a = true → negb (is_space a) = true.
Proof.
  unfold numchar, is_space. intros [->%Ascii.eqb_eq|[H1%Nat.leb_le H2%Nat.leb_le]%andb_prop]%orb_prop; [done|].
  apply negb_true_iff, orb_false_iff. split; [apply Nat.eqb_neq; lia|]. apply andb_false_iff. right. apply Nat.leb_gt. lia.
Qed.

(** Patterns without digits and dots are not found across a numeral. *)
Definition wordy (p : string) : bool := negb (String.eqb p "") && all_chars (λ a, negb (numchar a)) p.

Lemma around_num p s g t : wordy p = true → numeral g = true → containsText p (s +:+ g +:+ t) = containsText p s || containsText p t.
Proof.
  intros [Hp Hw]%andb_prop Hg. apply contains_around; [by apply numeral_nonempty|by intros ->|].
  apply (numeral_lacks _ g Hg). intros a Ha. apply negb_true_iff. apply (all_chars_has (λ a, negb (numchar a))); [by rewrite Ha|done].
Qed.

Lemma tidy_num b g s : numeral g = true → tidy b (g +:+ s) = tidy false s.
Proof. intros Hg. apply tidy_word; [by apply numeral_nonempty|]. by apply (numeral_lacks _ g Hg), numchar_black. Qed.

(** Decides whether a pattern occurs in a line with numerals. *)
Ltac scan := rewrite ?around_num by (first [assumption | vm_compute; reflexivity]); vm_compute; reflexivity.

Ltac tidy_line := repeat first [rewrite tidy_num by assumption | progress cbn]; reflexivity.
Ltac no_break := rewrite ?has_char_app; repeat match goal with H : numeral ?x = true |- context [has_char newline_char ?x] => rewrite (numeral_char newline_char x H) by reflexivity end; reflexivity.

Lemma cut_line l r : has_char newline_char l = false → cut (l +:+ nl +:+ r) = Some (l, r).
Proof.
  induction l as [|c l IH]; [done|]. cbn [has_char]. intros [Hc Hl]%orb_false_iff. cbn [String.append cut]. rewrite Hc. by rewrite IH.
Qed.

Lemma cut_unbroken l : has_char newline_char l = false → cut l = None.
Proof. induction l as [|c l IH]; [done|]. cbn [has_char]. intros [Hc Hl]%orb_false_iff. cbn [cut]. by rewrite Hc, IH. Qed.

(** ** Handling lines *)

Section Lines.
  Context {W : Type} {host : OpenVpnHost W}.
  Import OpenVpnProtocol.

Implicit Types (p : VpnProtocol) (o : OpenVpn) (w : W) (t g a b : string).

(** A line none of the patterns of the last part occurs in. *)
Definition unremarkable (line : string) : bool :=
  negb (containsText "ROUTE_GATEWAY" line) && negb (containsText "net_route_v4_best_gw" line) && negb (containsText "PUSH: Received control message" line) &&
  negb (containsText "FATAL" line) && negb (containsText ">BYTECOUNT:" line).

Lemma rest_unremarkable line (s : Sys OvObject W) : unremarkable line = true → handleRest line s = (Ok true, s, []).
Proof.
  unfold unremarkable, handleRest. destruct (containsText "ROUTE_GATEWAY" line), (containsText "net_route_v4_best_gw" line), (containsText "PUSH: Received control message" line),
    (containsText "FATAL" line), (containsText ">BYTECOUNT:" line); done.
Qed.

Lemma write_run text p o w rest : m_socket o = Some rest →
  writeCommand text (mkSys (mkOvObject p o) w) = (Ok true, mkSys (mkOvObject p o) w, [OvCommand text]).
Proof. intros Ho. unfold writeCommand, getO, gets, mbind, M_bind. cbn [globals ov_own]. by rewrite Ho. Qed.

Lemma info_run p o w rest : m_socket o = Some rest →
  handleLine infoLine (mkSys (mkOvObject p o) w) = (Ok true, mkSys (mkOvObject p o) w, [OvCommand "state on"; OvCommand "log on"]).
Proof.
  intros Ho. unfold handleLine. replace (containsText _ infoLine) with true by (vm_compute; reflexivity).
  eapply (run_bind _ _ _ tt _ [OvCommand "state on"; OvCommand "log on"]); [|by apply rest_unremarkable; vm_compute; reflexivity].
  eapply (run_bind _ _ _ true _ [OvCommand "state on"]); [by eapply write_run|]. eapply (run_bind _ _ _ true _ [OvCommand "log on"]); [by eapply write_run|done].
Qed.

Lemma logline_handled line t x (s : Sys OvObject W) : line = ">LOG:" +:+ t +:+ x → numeral t = true → containsText ">INFO:OpenVPN Management Interface" line = false →
  handleLine line s = handleRest line s.
Proof. intros -> Ht Hi. unfold handleLine. by rewrite Hi. Qed.

Lemma best_gw_absent line : containsText "net_route_v" line = false → containsText "net_route_v4_best_gw" line = false.
Proof. by apply contains_part. Qed.

Lemma route_gateway_part t g : numeral t = true → numeral g = true →
  splitText "ROUTE_GATEWAY" (routeLine t g) = [">LOG:" +:+ t +:+ ",,"; " " +:+ g +:+ "/255.255.255.0 IFACE=eth0"].
Proof.
  intros Ht Hg. unfold routeLine.
  change (",,ROUTE_GATEWAY " +:+ g +:+ "/255.255.255.0 IFACE=eth0") with (",," +:+ "ROUTE_GATEWAY" +:+ " " +:+ g +:+ "/255.255.255.0 IFACE=eth0").
  rewrite <- (sapp_assoc t), <- (sapp_assoc ">LOG:").
  rewrite split_apart; [|done|scan|].
  - rewrite split_none; [done|]. change (" " +:+ g +:+ "/255.255.255.0 IFACE=eth0") with (" " +:+ (g +:+ "/255.255.255.0 IFACE=eth0")). scan.
  - (* the line before ends with a comma *)
    intros u v x Hu Hx. destruct u as [|c u]; [by left|]. exfalso. rewrite <- !sapp_assoc in Hx.
    assert (∀ y, (y +:+ ",,") = x +:+ String c u → ∃ z, String c u = z +:+ ",") as Hend.
    { intros y Hy. change (y +:+ ",,") with (y +:+ "," +:+ ",") in Hy. rewrite <- sapp_assoc in Hy. apply sapp_inv in Hy as [(q & Hq & Hq')|(q & Hq & Hq')].
      - destruct q as [|d q]; [by exists ""|]. injection Hq' as <- Hq'. destruct q; [|done]. done.
      - exists q. by rewrite Hq'. }
    destruct (Hend _ Hx) as [z Hz]. assert (has_char "," "ROUTE_GATEWAY" = true) as Hc; [|done]. rewrite Hu, Hz, !has_char_app. cbn. by rewrite orb_true_r.
Qed.

Lemma numeral_space g : numeral g = true → containsText " " g = false.
Proof.
  intros Hg. apply not_true_is_false. rewrite contains_spec. intros (u & v & ->). pose proof (numeral_char " " _ Hg eq_refl) as H.
  rewrite !has_char_app in H. cbn in H. by rewrite orb_true_r in H.
Qed.

Lemma updateRoute_run t g (s : Sys OvObject W) : numeral t = true → numeral g = true → updateRouteGateway (routeLine t g) s = does (RouteGateway g) s.
Proof.
  intros Ht Hg. unfold updateRouteGateway. rewrite best_gw_absent by (unfold routeLine; scan).
  rewrite route_gateway_part by done. rewrite !skipEmpty_cons by done. change (skipEmpty []) with (@nil string).
  set (x := " " +:+ g +:+ "/255.255.255.0 IFACE=eth0").
  assert (has_char "/" x = true) as Hx by (unfold x; rewrite !has_char_app; cbn; by rewrite orb_true_r).
  assert (∃ l, skipEmpty (qsplit "/" x) = (" " +:+ g) :: l) as [l Hl].
  { exists (skipEmpty (qsplit "/" "255.255.255.0 IFACE=eth0")). unfold x. rewrite <- (sapp_assoc " " g). change "/255.255.255.0 IFACE=eth0" with (String "/" "255.255.255.0 IFACE=eth0").
    rewrite qsplit_app by (rewrite has_char_app; by rewrite (numeral_char "/" g)). by rewrite skipEmpty_cons. }
  unfold nth_part, mbind, M_bind, mret, M_ret. cbn [lookup list_lookup]. cbn beta iota. rewrite Hx, Hl. cbn [when lookup list_lookup]. cbn beta iota.
  replace (replaceText " " "" (" " +:+ g)) with g; [by destruct (does (RouteGateway g) s) as [[r s'] u]|].
  unfold replaceText. change (" " +:+ g) with ("" +:+ " " +:+ g). rewrite split_apart; [|done|done|].
  - rewrite split_none by (by apply numeral_space). done.
  - intros u v y _ Hy. left. by destruct y, u.
Qed.

Lemma route_run t g p o w : numeral t = true → numeral g = true →
  handleLine (routeLine t g) (mkSys (mkOvObject p o) w) = (Ok true, mkSys (mkOvObject (setRouteGateway g p) o) w, [OvAct (RouteGateway g)]).
Proof.
  intros Ht Hg. rewrite (logline_handled _ t (",,ROUTE_GATEWAY " +:+ g +:+ "/255.255.255.0 IFACE=eth0")); [|done|done|unfold routeLine; scan].
  unfold handleRest. replace (containsText "ROUTE_GATEWAY" (routeLine t g)) with true by (symmetry; unfold routeLine; scan).
  replace (containsText "PUSH: Received control message" (routeLine t g)) with false by (symmetry; unfold routeLine; scan).
  replace (containsText "FATAL" (routeLine t g)) with false by (symmetry; unfold routeLine; scan).
  replace (containsText ">BYTECOUNT:" (routeLine t g)) with false by (symmetry; unfold routeLine; scan).
  cbn [orb when]. unfold mbind, M_bind. by rewrite updateRoute_run.
Qed.

(** The parameters of the reply. *)
Lemma push_parts t a b : numeral t = true → numeral a = true → numeral b = true →
  qsplit "," (pushLine t a b) =
    [">LOG:" +:+ t; ""; "PUSH: Received control message: 'PUSH_REPLY"; "route 10.8.0.1"; "topology net30"; "ping 10"; "ping-restart 120"; "ifconfig " +:+ a +:+ " " +:+ b; "peer-id 0"; "cipher AES-256-GCM'"].
Proof.
  intros Ht Ha Hb. unfold pushLine. rewrite <- (sapp_assoc ">LOG:"). change (",,PUSH: Received control message: 'PUSH_REPLY,route 10.8.0.1,topology net30,ping 10,ping-restart 120,ifconfig " +:+ a +:+ " " +:+ b +:+ ",peer-id 0,cipher AES-256-GCM'")
    with (String "," ("" +:+ String "," ("PUSH: Received control message: 'PUSH_REPLY" +:+ String "," ("route 10.8.0.1" +:+ String "," ("topology net30" +:+ String "," ("ping 10" +:+ String ","
      ("ping-restart 120" +:+ String "," ("ifconfig " +:+ a +:+ " " +:+ b +:+ ",peer-id 0,cipher AES-256-GCM'")))))))).
  rewrite qsplit_app by (rewrite has_char_app; by rewrite (numeral_char "," t)). do 6 (rewrite qsplit_app by done).
  replace ("ifconfig " +:+ a +:+ " " +:+ b +:+ ",peer-id 0,cipher AES-256-GCM'") with (("ifconfig " +:+ a +:+ " " +:+ b) +:+ String "," "peer-id 0,cipher AES-256-GCM'") by (by rewrite !sapp_assoc).
  rewrite qsplit_app by (rewrite !has_char_app; by rewrite (numeral_char "," a), (numeral_char "," b)). done.
Qed.

Lemma ifconfig_parts a b : numeral a = true → numeral b = true → qsplit " " ("ifconfig " +:+ a +:+ " " +:+ b) = ["ifconfig"; a; b].
Proof.
  intros Ha Hb. change ("ifconfig " +:+ a +:+ " " +:+ b) with ("ifconfig" +:+ String " " (a +:+ String " " b)). rewrite qsplit_app by done.
  rewrite qsplit_app by (by apply numeral_char). by rewrite qsplit_none by (by apply numeral_char).
Qed.

Definition killCalls o : list OvEvent :=
  if variantToBool (toQString (QtJson.value (m_configData o) "killSwitchOption")) then [OvAct (Service (EnableKillSwitch (m_configData o)))] else [].

Lemma updateVpn_run t a b p o w : numeral t = true → numeral a = true → numeral b = true →
  updateVpnGateway (pushLine t a b) (mkSys (mkOvObject p o) w) =
    (Ok tt, mkSys (mkOvObject (setVpnGateway b p) (setLocalAddress a o)) w, OvAct (VpnGateway b) :: killCalls o).
Proof.
  intros Ht Ha Hb. unfold updateVpnGateway. rewrite push_parts by done. cbn [for_each].
  replace (containsText "ifconfig" (">LOG:" +:+ t)) with false
    by (symmetry; rewrite <- (sapp_nil_r t), (around_num "ifconfig" ">LOG:" t "") by (done || vm_compute; reflexivity); vm_compute; reflexivity).
  rewrite ifconfig_parts by done. replace (containsText "ifconfig" ("ifconfig " +:+ a +:+ " " +:+ b)) with true by (symmetry; by apply contains_app_l).
  destruct o as [config name local server socket process]. unfold killCalls. unfold mbind, M_bind, mret, M_ret, setO, modify, does, getO, gets. cbn -[variantToBool QtJson.value toQString].
  by destruct (variantToBool (toQString (QtJson.value config "killSwitchOption"))).
Qed.

Lemma push_run t a b p o w : numeral t = true → numeral a = true → numeral b = true →
  handleLine (pushLine t a b) (mkSys (mkOvObject p o) w) =
    (Ok true, mkSys (mkOvObject (setVpnGateway b p) (setLocalAddress a o)) w, OvAct (VpnGateway b) :: killCalls o).
Proof.
  intros Ht Ha Hb. unfold handleLine. replace (containsText ">INFO:OpenVPN Management Interface" (pushLine t a b)) with false by (symmetry; unfold pushLine; scan).
  change (String.prefix ">STATE" (pushLine t a b)) with false. cbn iota. unfold handleRest. rewrite (best_gw_absent (pushLine t a b)) by (unfold pushLine; scan).
  replace (containsText "ROUTE_GATEWAY" (pushLine t a b)) with false by (symmetry; unfold pushLine; scan).
  replace (containsText "PUSH: Received control message" (pushLine t a b)) with true by (symmetry; unfold pushLine; scan).
  replace (containsText "FATAL" (pushLine t a b)) with false by (symmetry; unfold pushLine; scan).
  replace (containsText ">BYTECOUNT:" (pushLine t a b)) with false by (symmetry; unfold pushLine; scan).
  cbn [orb when]. unfold mbind, M_bind, mret, M_ret. rewrite updateVpn_run by done. cbn. by rewrite app_nil_r.
Qed.

Lemma state_run t a p o w rest : m_socket o = Some rest → numeral t = true → numeral a = true →
  handleLine (stateLine t a) (mkSys (mkOvObject p o) w) =
    (Ok true, mkSys (mkOvObject (act_on (Assign Vpn.Connected) p).1 o) w, [OvCommand "bytecount 1"; OvAct (Assign Vpn.Connected)]).
Proof.
  intros Ho Ht Ha. unfold handleLine. replace (containsText ">INFO:OpenVPN Management Interface" (stateLine t a)) with false by (symmetry; unfold stateLine; scan).
  change (String.prefix ">STATE" (stateLine t a)) with true. replace (containsText "CONNECTED,SUCCESS" (stateLine t a)) with true by (symmetry; unfold stateLine; scan).
  cbn iota. eapply (run_bind _ _ _ tt _ [OvCommand "bytecount 1"]).
  { eapply (run_bind _ _ _ true _ [OvCommand "bytecount 1"]); [by eapply write_run|done]. }
  done.
Qed.

(** *** The loop *)

Lemma loop_line fuel line rest p o w s2 l2 r s3 l3 l : m_socket o = Some (line +:+ nl +:+ rest) →
  tidy true line = true → has_char newline_char line = false →
  handleLine line (mkSys (mkOvObject p (setSocket (Some rest) o)) w) = (Ok true, s2, l2) → readLines fuel s2 = (r, s3, l3) → l = l2 ++ l3 →
  readLines (S fuel) (mkSys (mkOvObject p o) w) = (r, s3, l).
Proof.
  intros Ho Ht Hn Hh Hf ->. cbn [readLines]. eapply (run_bind _ _ _ (line +:+ nl) (mkSys (mkOvObject p (setSocket (Some rest) o)) w) []).
  { unfold readLine, getO, gets, mbind, M_bind. cbn [globals ov_own]. rewrite Ho. unfold nextLine. by rewrite cut_line. }
  cbn zeta. rewrite simplified_tidy by auto. destruct (String.eqb_spec line "") as [->|_]; [done|]. eapply run_bind; [exact Hh|]. exact Hf.
Qed.

Lemma loop_end fuel p o w : m_socket o = Some "" → readLines (S fuel) (mkSys (mkOvObject p o) w) = (Ok tt, mkSys (mkOvObject p o) w, []).
Proof.
  intros Ho. cbn [readLines]. unfold readLine, getO, gets, mbind, M_bind. cbn [globals ov_own]. rewrite Ho. cbn. destruct o as [c n l sv sk pr]. cbn in Ho. by rewrite Ho.
Qed.

(** A session of OpenVPN up to the connection, as it is written to the socket. *)
Definition transcript t g a b : string :=
  infoLine +:+ nl +:+ routeLine t g +:+ nl +:+ pushLine t a b +:+ nl +:+ stateLine t a +:+ nl +:+ "".

Definition transcriptLog o g b : list OvEvent :=
  [OvCommand "state on"; OvCommand "log on"; OvAct (RouteGateway g); OvAct (VpnGateway b)] ++ killCalls o ++ [OvCommand "bytecount 1"; OvAct (Assign Vpn.Connected)].

Lemma transcript_run t g a b p o w : numeral t = true → numeral g = true → numeral a = true → numeral b = true → m_socket o = Some (transcript t g a b) →
  onReadyReadDataFromManagementServer (mkSys (mkOvObject p o) w) =
    (Ok tt, mkSys (mkOvObject (act_on (Assign Vpn.Connected) (setVpnGateway b (setRouteGateway g p))).1 (setLocalAddress a (setSocket (Some "") o))) w, transcriptLog o g b).
Proof.
  intros Ht Hg Ha Hb Ho. unfold onReadyReadDataFromManagementServer, getO, gets, mbind, M_bind. cbn [globals ov_own]. rewrite Ho.
  change (default "" (Some (transcript t g a b))) with (transcript t g a b).
  assert (∃ n, S (String.length (transcript t g a b)) = S (S (S (S (S n))))) as [n ->].
  { exists (String.length (transcript t g a b) - 4)%nat. unfold transcript. rewrite sapp_length. change (String.length infoLine) with 73%nat. lia. }
  assert (readLines (S (S (S (S (S n))))) (mkSys (mkOvObject p o) w) = (Ok tt, mkSys (mkOvObject (act_on (Assign Vpn.Connected) (setVpnGateway b (setRouteGateway g p))).1
    (setLocalAddress a (setSocket (Some "") o))) w, transcriptLog o g b)) as ->; [|done].
  eapply loop_line; [exact Ho|reflexivity|reflexivity|by eapply info_run| |].
  { eapply loop_line; [reflexivity|unfold routeLine; tidy_line|unfold routeLine; no_break|by apply route_run| |].
    { eapply loop_line; [reflexivity|unfold pushLine; tidy_line|unfold pushLine; no_break|by apply push_run| |].
      { eapply loop_line; [reflexivity|unfold stateLine; tidy_line|unfold stateLine; no_break|by eapply state_run|by apply loop_end|reflexivity]. }
      reflexivity. }
    reflexivity. }
  reflexivity.
Qed.

(** *** The loop ends on any bytes *)

(** Runs that need no fuel and leave the socket alone. *)
Definition calm {A} (m : OM (W := W) A) : Prop :=
  ∀ s, wp m (λ r s' _, r ≠ OutOfFuel ∧ m_socket (ov_own (globals s')) = m_socket (ov_own (globals s))) s.

Lemma calm_ret {A} (x : A) : calm (mret x).
Proof. by intros s. Qed.
Lemma calm_bind {A B} (m : OM A) (k : A → OM B) : calm m → (∀ x, calm (k x)) → calm (m ≫= k).
Proof.
  intros Hm Hk s. apply wp_bind. eapply wp_mono; [apply Hm|]. intros [x|e|] s1 l [Hr H1]; cbn [after]; [|done..].
  eapply wp_mono; [apply Hk|]. cbn beta. intros r s2 l2 [H H2]. split; [done|]. by rewrite H2.
Qed.
Lemma calm_when x m : calm m → calm (when x m).
Proof. intros H. destruct x; [done|apply calm_ret]. Qed.
Lemma calm_does x : calm (does x).
Proof. by intros s. Qed.
Lemma calm_write text : calm (writeCommand text).
Proof. intros s. unfold wp, writeCommand, getO, gets, mbind, M_bind. cbn beta iota. by destruct (m_socket (ov_own (globals s))) eqn:E; cbn; rewrite E. Qed.
Lemma calm_nth l i : calm (nth_part l i).
Proof. intros s. unfold wp, nth_part. by destruct (l !! i). Qed.
Lemma calm_for_each {A} (l : list A) (f : A → OM unit) : (∀ x, calm (f x)) → calm (for_each l f).
Proof. intros H. induction l as [|x l IH]; [apply calm_ret|]. cbn [for_each]. by apply calm_bind. Qed.
Lemma calm_getO {A} (f : OpenVpn → A) : calm (getO f).
Proof. by intros s. Qed.
Lemma calm_setLocal x : calm (setO (setLocalAddress x)).
Proof. by intros s. Qed.

Ltac calm := repeat lazymatch goal with
  | |- calm (_ ≫= _) => apply calm_bind; [|intros ?]
  | |- calm (mret _) => apply calm_ret
  | |- calm (when _ _) => apply calm_when
  | |- calm (does _) => apply calm_does
  | |- calm (writeCommand _) => apply calm_write
  | |- calm (nth_part _ _) => apply calm_nth
  | |- calm (for_each _ _) => apply calm_for_each; intros ?
  | |- calm (getO _) => apply calm_getO
  | |- calm (setO (setLocalAddress _)) => apply calm_setLocal
  | |- calm (if ?x then _ else _) => destruct x
  end.

Lemma calm_handleLine line : calm (handleLine line).
Proof. unfold handleLine, handleRest, sendInitialData, sendByteCount, updateRouteGateway, updateVpnGateway, countBytes. calm. Qed.

Lemma nextLine_shorter x : x ≠ "" → (String.length (nextLine x).2 < String.length x)%nat.
Proof. intros Hx. unfold nextLine. destruct (cut x) as [[l r]|] eqn:E; [by apply cut_Some in E as (_ & _ & ?)|]. cbn. destruct x; [done|cbn; lia]. Qed.

Lemma loop_returns fuel (s : Sys OvObject W) : (String.length (default "" (m_socket (ov_own (globals s)))) < fuel)%nat → wp (readLines fuel) (λ r _ _, r ≠ OutOfFuel) s.
Proof.
  revert s. induction fuel as [|fuel IH]; intros s Hf; [lia|]. cbn [readLines]. apply wp_bind. unfold readLine. apply wp_gets_bind.
  destruct (m_socket (ov_own (globals s))) as [x|] eqn:Hx; [|by apply wp_ret]. apply wp_modify_bind, wp_ret. cbn [after]. cbn [default from_option id] in Hf.
  destruct (String.eqb_spec (simplified (nextLine x).1) "") as [|Hne]; [done|]. apply wp_bind. eapply wp_mono; [apply calm_handleLine|].
  intros [go|e|] s1 l [Hr H1]; cbn [after]; [|done..]. destruct go; [|done]. eapply wp_mono; [apply IH|done]. rewrite H1. cbn.
  assert (x ≠ "") as Hx0 by (intros ->; by apply Hne). pose proof (nextLine_shorter x Hx0). lia.
Qed.

(** *** A line in two parts *)

(** Bytes that arrive and are read. *)
Definition receive (bytes : string) : OM (W := W) unit := arrive bytes;; onReadyReadDataFromManagementServer.

(** The first read sees a state without a name, the second a line without a prefix. *)
Lemma first_part_run t p o w : numeral t = true → handleLine (">STATE:" +:+ t) (mkSys (mkOvObject p o) w) = (Ok true, mkSys (mkOvObject p o) w, []).
Proof.
  intros Ht. rewrite <- (sapp_nil_r t). unfold handleLine. change (String.prefix ">STATE" (">STATE:" +:+ t +:+ "")) with true.
  replace (containsText ">INFO:OpenVPN Management Interface" (">STATE:" +:+ t +:+ "")) with false by (symmetry; scan).
  replace (containsText "CONNECTED,SUCCESS" (">STATE:" +:+ t +:+ "")) with false by (symmetry; scan).
  replace (containsText "EXITING,SIGTER" (">STATE:" +:+ t +:+ "")) with false by (symmetry; scan).
  replace (containsText "RECONNECTING" (">STATE:" +:+ t +:+ "")) with false by (symmetry; scan). cbn iota. apply rest_unremarkable.
  unfold unremarkable. rewrite best_gw_absent by scan. scan.
Qed.

Lemma prefix_num x t y : numeral t = true → numchar x = false → String.prefix (String x "") (t +:+ y) = false.
Proof.
  intros [Hn Hc]%andb_prop Hx. destruct t as [|c t]; [done|]. cbn in Hc. apply andb_prop in Hc as [Hc _]. cbn. destruct (ascii_dec x c) as [->|]; [congruence|done].
Qed.

Lemma second_part_run t a p o w : numeral t = true → numeral a = true →
  handleLine (t +:+ ",CONNECTED,SUCCESS," +:+ a +:+ ",203.0.113.7,1194,,") (mkSys (mkOvObject p o) w) = (Ok true, mkSys (mkOvObject p o) w, []).
Proof.
  intros Ht Ha. set (line := t +:+ ",CONNECTED,SUCCESS," +:+ a +:+ ",203.0.113.7,1194,,"). change line with ("" +:+ line). unfold line, handleLine.
  replace (containsText ">INFO:OpenVPN Management Interface" ("" +:+ t +:+ _)) with false by (symmetry; scan).
  replace (String.prefix ">STATE" ("" +:+ t +:+ _)) with false; last first.
  { symmetry. apply not_true_is_false. intros [y Hy]%prefix_spec. assert (String.prefix ">" (t +:+ ",CONNECTED,SUCCESS," +:+ a +:+ ",203.0.113.7,1194,,") = true) as H.
    { apply prefix_spec. exists ("STATE" +:+ y). exact Hy. }
    by rewrite prefix_num in H. }
  apply rest_unremarkable. unfold unremarkable. rewrite best_gw_absent by scan. scan.
Qed.

(** One read of bytes that are one tidy line, complete or not. *)
Lemma read_one line e p o w : m_socket o = Some "" → tidy true line = true → has_char newline_char line = false → e = "" ∨ e = nl →
  ∀ p' l, (∀ o, m_socket o = Some "" → handleLine line (mkSys (mkOvObject p o) w) = (Ok true, mkSys (mkOvObject p' o) w, l)) →
  receive (line +:+ e) (mkSys (mkOvObject p o) w) = (Ok tt, mkSys (mkOvObject p' o) w, l).
Proof.
  intros Ho Ht Hn He p' l Hh. destruct o as [cfg name local sv sk pr]. cbn in Ho. subst sk. set (o := mkOpenVpn cfg name local sv (Some "") pr) in *.
  set (o1 := setSocket (Some (line +:+ e)) o).
  eapply (run_bind _ _ _ tt (mkSys (mkOvObject p o1) w) []); [done|]. change l with ([] ++ l).
  eapply (run_bind _ _ _ (Some (line +:+ e)) (mkSys (mkOvObject p o1) w) []); [done|]. change (default "" (Some (line +:+ e))) with (line +:+ e).
  assert (∃ n, S (String.length (line +:+ e)) = S (S n)) as [n ->].
  { exists (String.length (line +:+ e) - 1)%nat. rewrite sapp_length. destruct line; [done|cbn; lia]. }
  rewrite <- (app_nil_r l). cbn [readLines]. eapply (run_bind _ _ _ (line +:+ e) (mkSys (mkOvObject p o) w) []).
  { unfold readLine, getO, gets, mbind, M_bind. cbn [globals ov_own o1 m_socket setSocket]. unfold nextLine. destruct He as [->| ->].
    - rewrite sapp_nil_r. by rewrite cut_unbroken.
    - pose proof (cut_line line "" Hn) as H. rewrite sapp_nil_r in H. by rewrite H. }
  cbn zeta. rewrite simplified_tidy by done. destruct (String.eqb_spec line "") as [->|_]; [done|]. eapply run_bind; [by apply Hh|]. cbn beta iota. by apply loop_end.
Qed.

(** ** Stopping *)

Lemma ov_stop_run p o w : let p' := (act_on (Assign Vpn.Disconnected) (act_on (Assign Vpn.Disconnecting) p).1).1 in
  stop (mkSys (mkOvObject p o) w) = (Ok tt, mkSys (mkOvObject p' o) w, [OvAct (Assign Vpn.Disconnecting); OvAct (Service DisableKillSwitch); OvAct (Assign Vpn.Disconnected)]) ∧
  m_connectionState p' = Vpn.Disconnected.
Proof. destruct p as [c st e g r rx tx]. by destruct st. Qed.

End Lines.

(** ** The interface of the connection *)

#[export] Instance openVpnLaws {W} {host : OpenVpnHost W} (base : ProtocolEnv W) {laws : ProtocolLaws base} : ProtocolLaws (openVpnEnv base).
Proof.
  split. intros p [o w] Hc. cbn. destruct (p_class p) eqn:E; try done.
  all: try (pose proof (stops_quietly p w) as H; rewrite E in H; specialize (H Hc); destruct (stopOther p w); exact H).
  unfold OpenVpnProtocol.ran. destruct (ov_stop_run p o w) as [-> _]. done.
Qed.

(** ** What the connection makes of it *)

Section Shows.
  Context {W : Type} {secrets : SecretEnv W} {env : QtEnv} {te : TextEnv} {penv : ProtocolEnv W}.
  Import Conn.

(** The run returns and is seen as [e]. *)
Definition shows {A} (m : ConnM (W := W) A) (e : list ConnEvent) (Q : A → Sys VpnConn (Sys Secure W) → Prop) (s : Sys VpnConn (Sys Secure W)) : Prop :=
  ∃ a s' t, m s = (Ok a, s', t) ∧ visible t = e ∧ Q a s'.

Lemma shows_bind {A B} (m : ConnM A) (k : A → ConnM B) e1 e2 e Q s : e = e1 ++ e2 → shows m e1 (λ a s1, shows (k a) e2 Q s1) s → shows (m ≫= k) e Q s.
Proof.
  intros -> (a & s1 & t1 & E1 & <- & b & s2 & t2 & E2 & <- & HQ). exists b, s2, (t1 ++ t2). split; [by eapply run_bind|]. split; [apply visible_app|done].
Qed.
Lemma shows_ret {A} (a : A) Q s : Q a s → shows (mret a) [] Q s.
Proof. intros H. by exists a, s, []. Qed.
Lemma shows_emit e Q s : visible [e] = [e] → Q tt s → shows (emit e) [e] Q s.
Proof. intros He H. by exists tt, s, [e]. Qed.
Lemma shows_getV {A} (f : VpnConn → A) Q s : Q (f (globals s)) s → shows (getV f) [] Q s.
Proof. intros H. by exists (f (globals s)), s, []. Qed.
Lemma shows_setV f Q s : Q tt (mkSys (f (globals s)) (world s)) → shows (setV f) [] Q s.
Proof. intros H. by eexists tt, _, []. Qed.
Lemma shows_ofProtocol {A} (f : VpnProtocol → A) p Q s : m_vpnProtocol (globals s) = Some p → Q (f p) s → shows (ofProtocol f) [] Q s.
Proof. intros Hp H. eexists (f p), s, []. unfold ofProtocol, getV, gets, mbind, M_bind. by rewrite Hp. Qed.
Lemma shows_settings {A} (m : SecureQSettings.SM W A) f Q s : runs m f id → plain (globals (world s)) →
  (∀ c, plain c → view c = view (globals (world s)) → Q (f (view (globals (world s)))) (mkSys (globals s) (mkSys c (world (world s))))) → shows (settings m) [] Q s.
Proof.
  intros Hm Hp HQ. destruct (Hm (world s) Hp) as (c & t & E & Hc & Hv). unfold id in Hv. eexists (f (view (globals (world s)))), _, (map EvStore t). unfold settings, onSettings.
  rewrite E. split; [done|]. split; [apply visible_store|]. by apply HQ.
Qed.

(** The routes of the sites for a connection with gateways [b] of the tunnel and [g] of the
    network, by the settings. *)
Definition siteCalls (v : gmap string QVariant) (b g remote : string) : list ConnEvent :=
  let mode := variantInt (setting v "Conf/routeMode" (VInt 0)) in
  if variantBool (setting v "Conf/sitesSplitTunnelingEnabled" (VBool false)) then
    EvIpc (RouteDeleteList b ["0.0.0.0"]) ::
    (if mode =? VpnAllExceptSites then
       [EvIpc (RouteAddList b ["0.0.0.0/1"]); EvIpc (RouteAddList b ["128.0.0.0/1"]); EvIpc (RouteAddList g [remote]); EvIpc (RouteAddList g (siteList (chosen v)))] ++
       map (λ site, EvLookup site g mode (siteList (chosen v))) (map fst (List.filter (λ kv, negb (checkIpSubnetFormat kv.1)) (sitesOf v mode)))
     else [])
  else [].

Lemma lookups_show l g mode ips Q s : Q tt s → shows (for_each l (λ site, emit (EvLookup site g mode ips))) (map (λ site, EvLookup site g mode ips) l) Q s.
Proof.
  intros HQ. induction l as [|x l IH]; [by apply shows_ret|]. cbn [for_each map]. eapply (shows_bind _ _ [_]); [done|]. apply shows_emit; [done|]. exact IH.
Qed.

Ltac next e := eapply (shows_bind _ _ e); [reflexivity|].

Lemma connected_shows p s : m_vpnProtocol (globals s) = Some p → plain (globals (world s)) → toInt (QtJson.value (m_vpnConfiguration (globals s)) "config_version") = 0 →
  isMode (variantInt (setting (view (globals (world s))) "Conf/routeMode" (VInt 0))) →
  shows connectedRoutes
    (EvIpc (RouteAddList (m_vpnGateway p) [qtext (toQString (QtJson.value (m_vpnConfiguration (globals s)) "dns1")); qtext (toQString (QtJson.value (m_vpnConfiguration (globals s)) "dns2"))]) ::
     siteCalls (view (globals (world s))) (m_vpnGateway p) (m_routeGateway p) (m_remoteAddress (globals s)))
    (λ _ s', m_vpnProtocol (globals s') = Some p) s.
Proof.
  intros Hp Hs Hv Hm. set (v := view (globals (world s))) in *. unfold connectedRoutes, ipcCall. next (@nil ConnEvent). apply shows_getV. rewrite Hv. cbn [when Z.eqb].
  next (@nil ConnEvent). eapply shows_ofProtocol; [exact Hp|]. next [EvIpc (RouteAddList (m_vpnGateway p) [qtext (toQString (QtJson.value (m_vpnConfiguration (globals s)) "dns1")); qtext (toQString (QtJson.value (m_vpnConfiguration (globals s)) "dns2"))])].
  apply shows_emit; [done|]. next (@nil ConnEvent). eapply shows_settings; [apply runs_sitesEnabled|done|]. intros c1 Hc1 Hv1. fold v in Hv1. cbn [globals world].
  unfold siteCalls, chosen. cbn [siteList]. fold v. destruct (variantBool (setting v "Conf/sitesSplitTunnelingEnabled" (VBool false))); cbn [when]; [|by apply shows_ret].
  next [EvIpc (RouteDeleteList (m_vpnGateway p) ["0.0.0.0"])]. apply shows_emit; [done|]. next (@nil ConnEvent). eapply shows_settings; [apply runs_routeMode|done|].
  intros c2 Hc2 Hv2. cbn [globals world] in Hv2 |- *. rewrite Hv1 in Hv2 |- *. set (mode := variantInt (setting v "Conf/routeMode" (VInt 0))) in *.
  destruct (Z.eqb_spec mode VpnOnlyForwardSites) as [->|_]; [by apply shows_setV|]. destruct (Z.eqb_spec mode VpnAllExceptSites) as [E|_]; [|by apply shows_ret].
  next [EvIpc (RouteAddList (m_vpnGateway p) ["0.0.0.0/1"])]. apply shows_emit; [done|]. next [EvIpc (RouteAddList (m_vpnGateway p) ["128.0.0.0/1"])]. apply shows_emit; [done|].
  next (@nil ConnEvent). eapply shows_ofProtocol; [exact Hp|]. next (@nil ConnEvent). apply shows_getV. cbn [globals]. next [EvIpc (RouteAddList (m_routeGateway p) [m_remoteAddress (globals s)])].
  apply shows_emit; [done|]. unfold addSitesRoutes, ipcCall. next (@nil ConnEvent). eapply shows_settings; [by apply runs_vpnSites|done|].
  intros c3 Hc3 Hv3. cbn [globals world] in Hv3 |- *. rewrite Hv2. eapply (shows_bind _ _ [_]); [reflexivity|]. apply shows_emit; [done|]. by apply lookups_show.
Qed.

(** What is asked for before Connected is reported. *)
Definition connectCalls (s : Sys VpnConn (Sys Secure W)) (b g : string) : list ConnEvent :=
  [EvIpc ResetIpStack; EvIpc FlushDns;
   EvIpc (RouteAddList b [qtext (toQString (QtJson.value (m_vpnConfiguration (globals s)) "dns1")); qtext (toQString (QtJson.value (m_vpnConfiguration (globals s)) "dns2"))])] ++
  siteCalls (view (globals (world s))) b g (m_remoteAddress (globals s)).

Lemma heard_connected p s : m_vpnProtocol (globals s) = Some p → c_ipc (globals s) = true → plain (globals (world s)) →
  toInt (QtJson.value (m_vpnConfiguration (globals s)) "config_version") = 0 → isMode (variantInt (setting (view (globals (world s))) "Conf/routeMode" (VInt 0))) →
  shows (heard (SigState Vpn.Connected)) (connectCalls s (m_vpnGateway p) (m_routeGateway p) ++ [EvState Vpn.Connected]) (λ _ s', m_vpnProtocol (globals s') = Some p) s.
Proof.
  intros Hp Hipc Hs Hv Hm. cbn [heard]. unfold onConnectionStateChanged, ipcCall. next (@nil ConnEvent). apply shows_getV. rewrite Hipc. cbn [when].
  next (connectCalls s (m_vpnGateway p) (m_routeGateway p)). next [EvIpc ResetIpStack]. apply shows_emit; [done|]. next [EvIpc FlushDns]. apply shows_emit; [done|].
  destruct (connected_shows p s Hp Hs Hv Hm) as ([] & s' & t & E & Hvis & Hp'). exists tt, s', t. split; [done|]. split; [done|]. by apply shows_emit.
Qed.

End Shows.

(** ** Properties *)

Section Properties.
  Context {W : Type} {secrets : SecretEnv W} {env : QtEnv} {te : TextEnv} {host : OpenVpnHost W} {base : ProtocolEnv W}.
  Import OpenVpnProtocol.

(** Actions heard in order. *)
Lemma acts_cons a l p e e1 e2 (Q : unit → Sys VpnConn (Sys Secure (Sys OpenVpn W)) → Prop) s :
  m_vpnProtocol (globals s) = Some p → e = e1 ++ e2 →
  shows (match (act_on a p).2 with Some x => Conn.heard x | None => mret tt end) e1
    (λ _ s1, shows (Conn.protocolActs l) e2 Q s1) (mkSys (Conn.setProtocol (Some (act_on a p).1) (globals s)) (world s)) →
  shows (Conn.protocolActs (a :: l)) e Q s.
Proof.
  intros Hp -> H. unfold Conn.protocolActs. cbn [for_each]. eapply (shows_bind _ _ e1); [reflexivity|]. eapply (shows_bind _ _ []); [reflexivity|].
  eapply shows_ofProtocol; [exact Hp|]. eapply (shows_bind _ _ []); [reflexivity|]. apply shows_setV. exact H.
Qed.


(** [C31] Stopping leaves OpenVPN alone.  In every state of the object [stop] returns in the
    state Disconnected after disabling the kill switch, and does nothing else: it sets the
    state Disconnecting before it asks whether the connection is being made or up, so the
    signal to OpenVPN, the end of the process and of the management server, all meant for
    these states, are never reached. *)
Theorem openvpn_stop (p : VpnProtocol) (o : OpenVpn) (w : W) :
  ∃ p', stop (mkSys (mkOvObject p o) w) =
    (Ok tt, mkSys (mkOvObject p' o) w, [OvAct (Assign Vpn.Disconnecting); OvAct (Service DisableKillSwitch); OvAct (Assign Vpn.Disconnected)]) ∧
    m_connectionState p' = Vpn.Disconnected ∧ m_receivedBytes p' = (if bool_decide (m_connectionState p = Vpn.Disconnected) then m_receivedBytes p else 0).
Proof. eexists. destruct (ov_stop_run p o w) as [-> H]. split; [done|]. split; [done|]. destruct p as [c st e g r rx tx]. by destruct st. Qed.

(** Reading ends, but a line may be lost.  On any bytes the reader returns.  A line
    that reports the connection sets the state Connected if it arrives at once; if the
    socket delivers it in two parts, cut inside the time stamp, each part is taken for a
    line of its own, and the object keeps its state. *)
Theorem openvpn_split_line (t1 t2 a : string) (p : VpnProtocol) (o : OpenVpn) (w : W)
    (Ht1 : numeral t1 = true) (Ht2 : numeral t2 = true) (Ha : numeral a = true) (Ho : m_socket o = Some "") :
  (∀ s : Sys OvObject W, result_of (onReadyReadDataFromManagementServer s) ≠ OutOfFuel) ∧
  m_connectionState (ov_base (globals (state_of (receive (stateLine (t1 +:+ t2) a +:+ nl) (mkSys (mkOvObject p o) w))))) = Vpn.Connected ∧
  stateLine (t1 +:+ t2) a = (">STATE:" +:+ t1) +:+ (t2 +:+ ",CONNECTED,SUCCESS," +:+ a +:+ ",203.0.113.7,1194,,") ∧
  for_each [">STATE:" +:+ t1; (t2 +:+ ",CONNECTED,SUCCESS," +:+ a +:+ ",203.0.113.7,1194,,") +:+ nl] receive (mkSys (mkOvObject p o) w) =
    (Ok tt, mkSys (mkOvObject p o) w, []).
Proof.
  assert (numeral (t1 +:+ t2) = true) as Ht.
  { apply andb_prop in Ht1 as [Hn1 Hc1], Ht2 as [Hn2 Hc2]. apply andb_true_intro. split; [by destruct t1|]. by rewrite all_chars_app, Hc1, Hc2. }
  split; [|split; [|split]].
  - intros s. pose proof (loop_returns (S (String.length (default "" (m_socket (ov_own (globals s)))))) s (Nat.lt_succ_diag_r _)) as H.
    unfold onReadyReadDataFromManagementServer, getO, gets, mbind, M_bind. unfold wp in H. unfold result_of. by destruct (readLines _ s) as [[r s'] l].
  - erewrite (read_one (stateLine (t1 +:+ t2) a) nl p o w Ho); [|unfold stateLine; tidy_line|unfold stateLine; no_break|by right|intros o' Ho'; by apply (state_run _ _ _ _ _ "")].
    unfold state_of. cbn [fst snd globals ov_base]. destruct p as [c st e g r rx tx]. by destruct st.
  - unfold stateLine. by rewrite !sapp_assoc.
  - cbn [for_each]. eapply (run_bind _ _ _ tt _ []).
    { rewrite <- (sapp_nil_r (">STATE:" +:+ t1)). eapply read_one; [done|rewrite <- (sapp_nil_r t1); tidy_line|no_break|by left|]. intros o' _. by apply first_part_run. }
    eapply (run_bind _ _ _ tt _ []); [|done]. eapply read_one; [done|tidy_line|no_break|by right|]. intros o' _. by apply second_part_run.
Qed.

End Properties.

(** ** A concrete host *)

Module SimOpenVpn.
Import SimSecrets SimSettings SimConnection.

#[global] Instance host : OpenVpnHost World := {
  toULongLong s := SimQt.read_decimal s 0;
  openVpnExecPath := "/opt/AmneziaVPN/client/bin/openvpn";
  fileExists _ _ := true;
  writeConfigFile _ w := ("/tmp/config.ovpn", w);
  generate w := (123456789, w);
  portIsFree _ w := (true, w);
  listen _ w := (true, w);
  createProcess w := (Some true, w);
  getTapList w := (["tap0"], w);
  ipcInterface _ := true;
  checkAndInstallDriver w := (true, w);
}.

Definition config : QJsonObject := ("killSwitchOption", JString "true") :: ownServer.
Definition object : OpenVpn := mkOpenVpn config "/tmp/config.ovpn" "" false (Some (transcript "1700000000" "192.168.1.1" "10.8.0.6" "10.8.0.5")) true.
Definition connecting : VpnProtocol := mkProtocol ContainerProps.OpenVpnProtocol Vpn.Connecting None "" "" 0 0.
Definition state : Sys VpnConn (Sys Secure (Sys OpenVpn World)) := mkSys (mkVpnConn (Some connecting) config "203.0.113.7" true 0) (mkSys store (mkSys object opened)).

End SimOpenVpn.

Import SimSecrets SimSettings SimConnection SimOpenVpn.


Lemma openvpn_split_line_witness :
  for_each [">STATE:17000"; ("00000" +:+ ",CONNECTED,SUCCESS," +:+ "10.8.0.6" +:+ ",203.0.113.7,1194,,") +:+ nl] receive
    (mkSys (mkOvObject connecting (OpenVpnProtocol.setSocket (Some "") object)) opened) =
  (Ok tt, mkSys (mkOvObject connecting (OpenVpnProtocol.setSocket (Some "") object)) opened, []).
Proof.
  apply (openvpn_split_line "17000" "00000" "10.8.0.6" connecting (OpenVpnProtocol.setSocket (Some "") object) opened).
  - reflexivity.
  - reflexivity.
  - reflexivity.
  - reflexivity.
Defined.
