(* ===== verification/RemoteServer.v ===== *)
(** * Commands and files on a server

    Models [ServerController] of [src/client/core/controllers/serverController.cpp]: scripts
    run line by line over SSH, variables of the scripts, files of the containers, and the
    steps that install a container; with them [scripts_registry.cpp] and [server_defs.cpp]
    of [src/client/core] and [Utils::getRandomString].

    The class [Ssh] is the client of [sshclient.cpp] (libssh): connecting, running one
    command, copying a file to the host.  A command is heard in chunks, as the callbacks
    get them: all of its standard output, then its errors.  Texts stand for the bytes that
    encode them. *)

From stdpp Require Import prelude strings list gmap pretty.
From Stdlib Require Import ZArith Lia Ascii.
From S2P Require Import Prelude QtJson InterfaceConfig LineProtocol QtText SecureSettings SplitTunnel Containers ServerSettings ServersModel.

Local Open Scope Z_scope.

(** ** What the controller uses *)

Inductive Chunk := StdOut (data : string) | StdErr (data : string).

Class Ssh (W : Type) := {
  connectToHost : ServerCredentials → W → Z * W;
  (** The function is what the callback writes back on a chunk of the standard output. *)
  executeCommand : (string → option string) → string → W → (Z * list Chunk) * W;
  scpFileCopy : bool → string → string → W → Z * W;       (* append; the data and the remote path *)
  randomIndex : W → Z * W;                                 (* QRandomGenerator::global()->generate() *)
  hostAddresses : string → W → list string;                (* QHostInfo::fromName(host).addresses() *)
  sleepWhileBusy : W → bool * W;                           (* ten seconds; whether cancelInstallation ran since the attempt began *)
}.

(** The files compiled into the program, by name. *)
Class Resources := { resource : string → option string }.

Inductive RsEvent :=
| RsSettings (e : SetEvent)
| RsConnect (credentials : ServerCredentials)
| RsCommand (command : string)
| RsCopy (data path : string)
| RsBusy (b : bool).                                       (* serverIsBusy *)

(** The settings and the member of the controller that changes. *)
Record Server := mkServer { sv_settings : Secure; m_cancelInstallation : bool }.

(** *** Error codes *)

Definition InternalError : Z := 101.
Definition ServerPortAlreadyAllocatedError : Z := 201.
Definition ServerContainerMissingError : Z := 202.
Definition ServerDockerFailedError : Z := 203.
Definition ServerCancelInstallation : Z := 204.
Definition ServerUserNotInSudo : Z := 205.
Definition ServerPacketManagerError : Z := 206.
Definition AddressPoolError : Z := 703.

(** *** Texts *)

Definition quote : string := String (ascii_of_nat 34) "".

(** [endsWith(QChar)] *)
Fixpoint endsWithChar (c : ascii) (s : string) : bool :=
  match s with
  | EmptyString => false
  | String a EmptyString => Ascii.eqb a c
  | String _ s => endsWithChar c s
  end.

(** [value(key).toString(d)] and [value(key).toBool(d)] *)
Definition fieldOr (o : QJsonObject) (k d : string) : string := match QtJson.value o k with JString s => s | _ => d end.
Definition flagOr (o : QJsonObject) (k : string) (d : bool) : bool := match QtJson.value o k with JBool b => b | _ => d end.

(** What a callback with [stdOut += data + nl] gathers, from both channels or from the first. *)
Definition gathered (both : bool) (l : list Chunk) : string :=
  joined (map (λ c, match c with StdOut d => d +:+ nl | StdErr d => if both then d +:+ nl else "" end) l).

(** What a callback with [stdOut += data] gathers. *)
Definition gatheredPlain (l : list Chunk) : string := joined (map (λ c, match c with StdOut d => d | StdErr _ => "" end) l).

(** [QByteArray::fromHex]: characters that are no digits are skipped, and of an odd number
    of digits the first is a byte of its own. *)
Definition hexValue (c : ascii) : option Z :=
  let n := Z.of_nat (nat_of_ascii c) in
  if (48 <=? n) && (n <=? 57) then Some (n - 48)
  else if (97 <=? n) && (n <=? 102) then Some (n - 87)
  else if (65 <=? n) && (n <=? 70) then Some (n - 55)
  else None.

(** The digits from the last to the first. *)
Fixpoint bytesFromEnd (digits : list Z) (after : string) : string :=
  match digits with
  | [] => after
  | [d] => String (ascii_of_nat (Z.to_nat d)) after
  | low :: high :: digits => bytesFromEnd digits (String (ascii_of_nat (Z.to_nat (16 * high + low))) after)
  end.

Definition fromHex (s : string) : string := bytesFromEnd (reverse (omap hexValue (String.list_ascii_of_string s))) "".

(** *** Scripts of the program *)

Inductive SharedScriptType :=
| prepare_host | install_docker | build_container | remove_container | remove_all_containers
| setup_host_firewall | check_connection | check_server_is_busy | check_user_in_sudo.

Inductive ProtocolScriptType :=
| dockerfile | run_container | configure_container | container_startup
| openvpn_template | wireguard_template | awg_template | xray_template.

Definition scriptFolder (c : DockerContainer.t) : string :=
  match c with
  | DockerContainer.OpenVpn => "openvpn" | DockerContainer.Cloak => "openvpn_cloak"
  | DockerContainer.ShadowSocks => "openvpn_shadowsocks" | DockerContainer.WireGuard => "wireguard"
  | DockerContainer.Awg => "awg" | DockerContainer.Ipsec => "ipsec" | DockerContainer.Xray => "xray"
  | DockerContainer.TorWebSite => "website_tor" | DockerContainer.Dns => "dns" | DockerContainer.Sftp => "sftp"
  | DockerContainer.Socks5Proxy => "socks5_proxy"
  | DockerContainer.None | DockerContainer.SSXray => ""
  end.

Definition sharedScriptName (t : SharedScriptType) : string :=
  match t with
  | prepare_host => "prepare_host.sh" | install_docker => "install_docker.sh" | build_container => "build_container.sh"
  | remove_container => "remove_container.sh" | remove_all_containers => "remove_all_containers.sh"
  | setup_host_firewall => "setup_host_firewall.sh" | check_connection => "check_connection.sh"
  | check_server_is_busy => "check_server_is_busy.sh" | check_user_in_sudo => "check_user_in_sudo.sh"
  end.

Definition protocolScriptName (t : ProtocolScriptType) : string :=
  match t with
  | dockerfile => "Dockerfile" | run_container => "run_container.sh" | configure_container => "configure_container.sh"
  | container_startup => "start.sh" | openvpn_template => "template.ovpn" | wireguard_template => "template.conf"
  | awg_template => "template.conf" | xray_template => "template.json"
  end.

Definition carriage_return : string := String (ascii_of_nat 13) "".

Definition sharedScriptData {res : Resources} (t : SharedScriptType) : string :=
  default "" (resource (":/server_scripts/" +:+ sharedScriptName t)).

Definition protocolScriptData {res : Resources} (t : ProtocolScriptType) (c : DockerContainer.t) : string :=
  match resource (":/server_scripts/" +:+ scriptFolder c +:+ "/" +:+ protocolScriptName t) with
  | None => ""
  | Some data => replaceText carriage_return "" data
  end.

Definition getDockerfileFolder (c : DockerContainer.t) : string := "/opt/amnezia/" +:+ ContainerProps.containerToString c.

(** *** Addresses *)

(** One part of an address that [ipAddressRegExp] accepts: a number below 256 without
    leading zeros. *)
Definition octetText (s : string) : bool := existsb (λ n, String.eqb s (pretty n)) (seqZ 0 256).

(** The expression also matches before a line break at the end. *)
Definition matchesAddress (host : string) : bool :=
  let s := if endsWithChar newline_char host then chop host else host in
  let parts := splitText "." s in
  (length parts =? 4)%nat && forallb octetText parts.

Module ServerCtrl.
Section ServerCtrl.
  Context {W : Type} {secrets : SecretEnv W} {te : TextEnv} {text : ArrayText} {ssh : Ssh W} {res : Resources}.

Definition RM (A : Type) : Type := M (Sys Server W) RsEvent Undefined A.

Definition settings {A} (m : Servers.SetM W A) : RM A := λ s,
  match m (mkSys (sv_settings (globals s)) (world s)) with
  | (r, s', t) => (r, mkSys (mkServer (globals s') (m_cancelInstallation (globals s))) (world s'), map RsSettings t)
  end.
Definition setCancel (b : bool) : RM unit := modify (λ s, mkSys (mkServer (sv_settings (globals s)) b) (world s)).
Definition draw {A} (f : W → A * W) : RM A := λ s, match f (world s) with (a, w) => (Ok a, mkSys (globals s) w, []) end.

(** ** Running scripts *)

Definition execute (reply : string → option string) (command : string) : RM (Z * list Chunk) :=
  ask (executeCommand reply command) (λ _, RsCommand command).

Fixpoint runLines (reply : string → option string) (totalLine : string) (lines : list string) : RM (Z * list Chunk) :=
  match lines with
  | [] => mret (NoError, [])
  | currentLine :: lines =>
      let totalLine := if String.eqb totalLine "" then currentLine else totalLine +:+ nl +:+ currentLine in
      if endsWithChar "\" currentLine then runLines reply totalLine lines
      else if String.prefix "#" totalLine then runLines reply "" lines
      else
        r ← execute reply totalLine;
        if negb (r.1 =? NoError) then mret r
        else r' ← runLines reply "" lines; mret (r'.1, r.2 ++ r'.2)
  end.

Definition runScriptWith (reply : string → option string) (credentials : ServerCredentials) (script : string) : RM (Z * list Chunk) :=
  error ← ask (connectToHost credentials) (λ _, RsConnect credentials);
  if negb (error =? NoError) then mret (error, [])
  else runLines reply "" (skipEmpty (splitText nl (replaceText carriage_return "" script))).

Definition runScript : ServerCredentials → string → RM (Z * list Chunk) := runScriptWith (λ _, None).

(** *** Variables *)

Definition Vars := list (string * string).

Definition replaceVars (script : string) (vars : Vars) : string := foldl (λ s v, replaceText v.1 v.2 s) script vars.

Definition getIPAddress (host : string) : RM string :=
  if matchesAddress host then mret host
  else addresses ← query (hostAddresses host); mret (default "" (head addresses)).

Definition protoConfig (config : QJsonObject) (p : Proto.t) : QJsonObject := toObject (QtJson.value config (ProtocolProps.protoToString p)).

(** The variables before those the settings decide. *)
Definition fixedVars (credentials : ServerCredentials) (container : DockerContainer.t) (config : QJsonObject) : Vars :=
  let openvpn := protoConfig config Proto.OpenVpn in
  let cloak := protoConfig config Proto.Cloak in
  let ss := protoConfig config Proto.ShadowSocks in
  let wireguard := protoConfig config Proto.WireGuard in
  let xray := protoConfig config Proto.Xray in
  let isTlsAuth := flagOr openvpn "tls_auth" true in
  [("$REMOTE_HOST", cr_hostName credentials);
   ("$OPENVPN_SUBNET_IP", fieldOr openvpn "subnet_address" "10.8.0.0");
   ("$OPENVPN_SUBNET_CIDR", fieldOr openvpn "subnet_cidr" "24");
   ("$OPENVPN_SUBNET_MASK", fieldOr openvpn "subnet_mask" "255.255.255.0");
   ("$OPENVPN_PORT", fieldOr openvpn "port" "1194");
   ("$OPENVPN_TRANSPORT_PROTO", fieldOr openvpn "transport_proto" "udp");
   ("$OPENVPN_NCP_DISABLE", if flagOr openvpn "ncp_disable" false then "ncp-disable" else "");
   ("$OPENVPN_CIPHER", fieldOr openvpn "cipher" "AES-256-GCM");
   ("$OPENVPN_HASH", fieldOr openvpn "hash" "SHA512");
   ("$OPENVPN_TLS_AUTH", if isTlsAuth then "tls-auth /opt/amnezia/openvpn/ta.key 0" else "")] ++
  (if isTlsAuth then [] else [("$OPENVPN_TA_KEY", "")]) ++
  [("$OPENVPN_ADDITIONAL_CLIENT_CONFIG", fieldOr openvpn "additional_client_config" "");
   ("$OPENVPN_ADDITIONAL_SERVER_CONFIG", fieldOr openvpn "additional_server_config" "");
   ("$SHADOWSOCKS_SERVER_PORT", fieldOr ss "port" "6789");
   ("$SHADOWSOCKS_LOCAL_PORT", fieldOr ss "local_port" "8585");
   ("$SHADOWSOCKS_CIPHER", fieldOr ss "cipher" "chacha20-ietf-poly1305");
   ("$CONTAINER_NAME", ContainerProps.containerToString container);
   ("$DOCKERFILE_FOLDER", getDockerfileFolder container);
   ("$CLOAK_SERVER_PORT", fieldOr cloak "port" "443");
   ("$FAKE_WEB_SITE_ADDRESS", fieldOr cloak "site" "tile.openstreetmap.org");
   ("$XRAY_SITE_NAME", fieldOr xray "site" "www.googletagmanager.com");
   ("$XRAY_SERVER_PORT", fieldOr xray "port" "443");
   ("$WIREGUARD_SUBNET_IP", fieldOr wireguard "subnet_address" "10.8.1.0");
   ("$WIREGUARD_SUBNET_CIDR", fieldOr wireguard "subnet_cidr" "24");
   ("$WIREGUARD_SUBNET_MASK", fieldOr wireguard "subnet_mask" "255.255.255.0");
   ("$WIREGUARD_SERVER_PORT", fieldOr wireguard "port" "51820");
   ("$IPSEC_VPN_L2TP_NET", "192.168.42.0/24"); ("$IPSEC_VPN_L2TP_POOL", "192.168.42.10-192.168.42.250");
   ("$IPSEC_VPN_L2TP_LOCAL", "192.168.42.1"); ("$IPSEC_VPN_XAUTH_NET", "192.168.43.0/24");
   ("$IPSEC_VPN_XAUTH_POOL", "192.168.43.10-192.168.43.250"); ("$IPSEC_VPN_SHA2_TRUNCBUG", "yes");
   ("$IPSEC_VPN_VPN_ANDROID_MTU_FIX", "yes"); ("$IPSEC_VPN_DISABLE_IKEV2", "no");
   ("$IPSEC_VPN_DISABLE_L2TP", "no"); ("$IPSEC_VPN_DISABLE_XAUTH", "no"); ("$IPSEC_VPN_C2C_TRAFFIC", "no")].

Definition genVarsForScript (credentials : ServerCredentials) (container : DockerContainer.t) (config : QJsonObject) : RM Vars :=
  let sftp := protoConfig config Proto.Sftp in
  let awg := protoConfig config Proto.Awg in
  let socks5 := protoConfig config Proto.Socks5Proxy in
  primary ← settings Servers.primaryDns;
  secondary ← settings Servers.secondaryDns;
  let username := field socks5 "userName" in
  let password := field socks5 "password" in
  let socks5user := if negb (String.eqb username "") && negb (String.eqb password "") then "users " +:+ username +:+ ":CL:" +:+ password else "" in
  serverIp ← getIPAddress (cr_hostName credentials);
  mret (fixedVars credentials container config ++
    [("$PRIMARY_SERVER_DNS", primary); ("$SECONDARY_SERVER_DNS", secondary);
     ("$SFTP_PORT", fieldOr sftp "port" (pretty (ProtocolProps.defaultPort Proto.Sftp)));
     ("$SFTP_USER", field sftp "userName"); ("$SFTP_PASSWORD", field sftp "password");
     ("$AWG_SERVER_PORT", fieldOr awg "port" "55424");
     ("$JUNK_PACKET_COUNT", field awg "Jc"); ("$JUNK_PACKET_MIN_SIZE", field awg "Jmin");
     ("$JUNK_PACKET_MAX_SIZE", field awg "Jmax"); ("$INIT_PACKET_JUNK_SIZE", field awg "S1");
     ("$RESPONSE_PACKET_JUNK_SIZE", field awg "S2"); ("$INIT_PACKET_MAGIC_HEADER", field awg "H1");
     ("$RESPONSE_PACKET_MAGIC_HEADER", field awg "H2"); ("$UNDERLOAD_PACKET_MAGIC_HEADER", field awg "H3");
     ("$TRANSPORT_PACKET_MAGIC_HEADER", field awg "H4");
     ("$SOCKS5_PROXY_PORT", fieldOr socks5 "port" "38080"); ("$SOCKS5_USER", socks5user);
     ("$SOCKS5_AUTH_TYPE", if String.eqb socks5user "" then "none" else "strong")] ++
    (if String.eqb serverIp "" then [] else [("$SERVER_IP_ADDRESS", serverIp)])).

(** [runScript(credentials, replaceVars(script, genVarsForScript(credentials, container, config)))] *)
Definition runFor (credentials : ServerCredentials) (container : DockerContainer.t) (config : QJsonObject) (script : string) : RM (Z * list Chunk) :=
  vars ← genVarsForScript credentials container config;
  runScript credentials (replaceVars script vars).

(** ** Files *)

Definition possibleCharacters : string := "ABCDEFGHIJKLMNOPQRSTUVWXYZabcdefghijklmnopqrstuvwxyz0123456789".

Fixpoint getRandomString (len : nat) : RM string :=
  match len with
  | O => mret ""
  | S len =>
      index ← draw randomIndex;
      rest ← getRandomString len;
      mret (String (default "A"%char (String.get (Z.to_nat (index mod 62)) possibleCharacters)) rest)
  end.

Definition uploadFileToHost (credentials : ServerCredentials) (data remotePath : string) : RM Z :=
  error ← ask (connectToHost credentials) (λ _, RsConnect credentials);
  if negb (error =? NoError) then mret error
  else ask (scpFileCopy false data remotePath) (λ _, RsCopy data remotePath).

(** The end of the upload: what the copying said, and the temporary file of the host. *)
Definition finishUpload (credentials : ServerCredentials) (container : DockerContainer.t) (tmpFileName stdOut : string) : RM Z :=
  if containsText "Error" stdOut && containsText "No such container" stdOut then mret ServerContainerMissingError
  else runFor credentials container [] ("sudo shred -u " +:+ tmpFileName);; mret NoError.

(** From the temporary file of the host into the container. *)
Definition copyIntoContainer (credentials : ServerCredentials) (container : DockerContainer.t) (tmpFileName path : string) (append : bool) : RM Z :=
  if append then
    r1 ← runFor credentials container [] ("sudo docker cp " +:+ tmpFileName +:+ " $CONTAINER_NAME:/" +:+ tmpFileName);
    if negb (r1.1 =? NoError) then mret r1.1
    else
      r2 ← runFor credentials container []
        ("sudo docker exec -i $CONTAINER_NAME sh -c " +:+ quote +:+ "cat " +:+ tmpFileName +:+ " >> " +:+ path +:+ quote);
      if negb (r2.1 =? NoError) then mret r2.1
      else finishUpload credentials container tmpFileName (gathered true r1.2 +:+ gathered true r2.2)
  else
    r1 ← runFor credentials container [] ("sudo docker cp " +:+ tmpFileName +:+ " $CONTAINER_NAME:/" +:+ path);
    if negb (r1.1 =? NoError) then mret r1.1
    else finishUpload credentials container tmpFileName (gathered true r1.2).

Definition uploadTextFileToContainer (container : DockerContainer.t) (credentials : ServerCredentials) (file path : string)
    (append : bool) : RM Z :=
  name ← getRandomString 16;
  let tmpFileName := "/tmp/" +:+ name +:+ ".tmp" in
  e ← uploadFileToHost credentials file tmpFileName;
  if negb (e =? NoError) then mret e
  else
    r ← runFor credentials container []
      ("sudo docker exec -i $CONTAINER_NAME mkdir -p  " +:+ quote +:+ "$(dirname " +:+ path +:+ ")" +:+ quote);
    if negb (r.1 =? NoError) then mret r.1
    else copyIntoContainer credentials container tmpFileName path append.

Definition getTextFileFromContainer (container : DockerContainer.t) (credentials : ServerCredentials) (path : string) : RM (Z * string) :=
  r ← runScript credentials
    ("sudo docker exec -i " +:+ ContainerProps.containerToString container +:+ " sh -c " +:+ quote +:+ "xxd -p '" +:+ path +:+ "'" +:+ quote);
  mret (r.1, fromHex (gatheredPlain r.2)).

(** The chunks of both commands, as the callbacks get them. *)
Definition runContainerScript (credentials : ServerCredentials) (container : DockerContainer.t) (script : string) : RM (Z * list Chunk) :=
  name ← getRandomString 16;
  let fileName := "/opt/amnezia/" +:+ name +:+ ".sh" in
  e ← uploadTextFileToContainer container credentials script fileName false;
  if negb (e =? NoError) then mret (e, [])
  else
    let shell := if decide (container = DockerContainer.Socks5Proxy) then "sh" else "bash" in
    r ← runFor credentials container [] ("sudo docker exec -i $CONTAINER_NAME " +:+ shell +:+ " " +:+ fileName +:+ " ");
    r' ← runFor credentials container [] ("sudo docker exec -i $CONTAINER_NAME rm " +:+ fileName +:+ " ");
    mret (r.1, r.2 ++ r'.2).

(** ** Containers *)

Definition rebootServer (credentials : ServerCredentials) : RM Z := r ← runScript credentials "sudo reboot"; mret r.1.

Definition removeAllContainers (credentials : ServerCredentials) : RM Z :=
  r ← runScript credentials (sharedScriptData remove_all_containers); mret r.1.

Definition removeContainer (credentials : ServerCredentials) (container : DockerContainer.t) : RM Z :=
  r ← runFor credentials container [] (sharedScriptData remove_container); mret r.1.

Definition isUserInSudo (credentials : ServerCredentials) : RM Z :=
  if String.eqb (cr_userName credentials) "root" then mret NoError
  else
    r ← runFor credentials DockerContainer.None [] (sharedScriptData check_user_in_sudo);
    if negb (containsText "sudo" (gathered true r.2)) then mret ServerUserNotInSudo else mret r.1.

(** What an attempt concludes; nothing while the manager is busy. *)
Definition dpkgVerdict (stdOut : string) : option Z :=
  if containsText "Packet manager not found" stdOut then Some ServerPacketManagerError
  else if containsText "fuser not installed" stdOut then Some NoError
  else if String.eqb stdOut "" then Some NoError
  else None.

(** At most [n] attempts. *)
Fixpoint waitForDpkg (credentials : ServerCredentials) (n : nat) : RM Z :=
  match n with
  | O => mret ServerPacketManagerError
  | S n =>
      cancelled ← gets (λ s, m_cancelInstallation (globals s));
      if cancelled : bool then mret ServerCancelInstallation
      else
        r ← runFor credentials DockerContainer.None [] (sharedScriptData check_server_is_busy);
        match dpkgVerdict (gathered true r.2) with
        | Some e => mret e
        | None =>
            emit (RsBusy true);;
            asked ← draw sleepWhileBusy;
            when asked (setCancel true);;
            waitForDpkg credentials n
        end
  end.

Definition isServerDpkgBusy (credentials : ServerCredentials) : RM Z :=
  setCancel false;;
  e ← waitForDpkg credentials 30;
  emit (RsBusy false);; mret e.

(** The answer to the question of the package manager. *)
Definition dockerReply (data : string) : option string :=
  if containsText "Automatically restart Docker daemon?" data then Some "yes" else None.

Definition installDockerWorker (credentials : ServerCredentials) : RM Z :=
  vars ← genVarsForScript credentials DockerContainer.None [];
  r ← runScriptWith dockerReply credentials (replaceVars (sharedScriptData install_docker) vars);
  let stdOut := gathered true r.2 in
  if containsText "lock" stdOut then mret ServerPacketManagerError
  else if containsText "command not found" stdOut then mret ServerDockerFailedError
  else mret r.1.

Definition prepareHostWorker (credentials : ServerCredentials) (container : DockerContainer.t) : RM Z :=
  r ← runFor credentials container [] (sharedScriptData prepare_host); mret r.1.

Definition buildContainerWorker (credentials : ServerCredentials) (container : DockerContainer.t) (config : QJsonObject) : RM Z :=
  let dockerFilePath := getDockerfileFolder container +:+ "/Dockerfile" in
  r ← runFor credentials container [] ("sudo rm " +:+ dockerFilePath);
  if negb (r.1 =? NoError) then mret r.1
  else
    e ← uploadFileToHost credentials (protocolScriptData dockerfile container) dockerFilePath;
    if negb (e =? NoError) then mret e
    else r ← runFor credentials container config (sharedScriptData build_container); mret r.1.

Definition runContainerWorker (credentials : ServerCredentials) (container : DockerContainer.t) (config : QJsonObject) : RM Z :=
  r ← runFor credentials container config (protocolScriptData run_container container);
  let stdOut := gathered false r.2 in
  if containsText "address already in use" stdOut then mret ServerPortAlreadyAllocatedError
  else if containsText "is already in use by container" stdOut then mret ServerPortAlreadyAllocatedError
  else if containsText "invalid publish" stdOut then mret ServerDockerFailedError
  else mret r.1.

(** [VpnConfigurationsController::updateContainerConfigAfterInstallation] *)
Definition updateContainerConfigAfterInstallation (container : DockerContainer.t) (config : QJsonObject) (stdOut : string) : QJsonObject :=
  if decide (container = DockerContainer.TorWebSite) then
    let mainProto := ContainerProps.defaultProtocol container in
    let protocol := insert_key (protoConfig config mainProto) "site" (JString (replaceText nl "" stdOut)) in
    insert_key config (ProtocolProps.protoToString mainProto) (JObject protocol)
  else config.

Definition configureContainerWorker (credentials : ServerCredentials) (container : DockerContainer.t) (config : QJsonObject)
    : RM (Z * QJsonObject) :=
  vars ← genVarsForScript credentials container config;
  r ← runContainerScript credentials container (replaceVars (protocolScriptData configure_container container) vars);
  mret (r.1, updateContainerConfigAfterInstallation container config (gathered true r.2)).

Definition startupContainerWorker (credentials : ServerCredentials) (container : DockerContainer.t) (config : QJsonObject) : RM Z :=
  let script := protocolScriptData container_startup container in
  if String.eqb script "" then mret NoError
  else
    vars ← genVarsForScript credentials container config;
    e ← uploadTextFileToContainer container credentials (replaceVars script vars) "/opt/amnezia/start.sh" false;
    if negb (e =? NoError) then mret e
    else
      r ← runFor credentials container config
        ("sudo docker exec -d $CONTAINER_NAME sh -c " +:+ quote +:+ "chmod a+x /opt/amnezia/start.sh && /opt/amnezia/start.sh" +:+ quote);
      mret r.1.

Definition setupServerFirewall (credentials : ServerCredentials) : RM Z :=
  r ← runFor credentials DockerContainer.None [] (sharedScriptData setup_host_firewall); mret r.1.

Definition checkSshConnection (credentials : ServerCredentials) : RM (Z * string) :=
  r ← runScript credentials (sharedScriptData check_connection); mret (r.1, gathered true r.2).

(** The search for the ports of the container, without its end. *)
Definition lsofScript (port : string) (fixedPorts : list string) : string :=
  "which lsof &>/dev/null || true && sudo lsof -i -P -n 2>/dev/null | grep -E ':" +:+ port +:+ " " +:+ joined (map (λ p, "|:" +:+ p) fixedPorts).

Definition isServerPortBusy (credentials : ServerCredentials) (container : DockerContainer.t) (config : QJsonObject) : RM Z :=
  if decide (container = DockerContainer.Dns) then mret NoError
  else
    let protocol := ContainerProps.defaultProtocol container in
    let containerConfig := protoConfig config protocol in
    let port := fieldOr containerConfig "port" (pretty (ProtocolProps.defaultPort protocol)) in
    match ProtocolProps.defaultTransportProto protocol with
    | None => throw UndefinedBehaviour
    | Some proto =>
        let transportProto := fieldOr containerConfig "transport_proto" (ProtocolProps.transportProtoToString proto) in
        let script := lsofScript port (ContainerProps.fixedPortsForContainer container) in
        if String.eqb transportProto "tcpandudp" then
          r ← runFor credentials container [] (script +:+ "' | grep -i tcp" +:+ " | grep LISTEN");
          if negb (r.1 =? NoError) then mret r.1
          else
            r' ← runFor credentials container [] (script +:+ "' | grep -i udp");
            if negb (r'.1 =? NoError) then mret r'.1
            else mret (if String.eqb (gathered true (r.2 ++ r'.2)) "" then NoError else ServerPortAlreadyAllocatedError)
        else
          r ← runFor credentials container []
            (script +:+ "' | grep -i " +:+ transportProto +:+ (if String.eqb transportProto "tcp" then " | grep LISTEN" else ""));
          if negb (r.1 =? NoError) then mret r.1
          else mret (if String.eqb (gathered true r.2) "" then NoError else ServerPortAlreadyAllocatedError)
    end.

(** The steps of an installation before the container is removed. *)
Definition checkServer (credentials : ServerCredentials) (container : DockerContainer.t) (config : QJsonObject) (isUpdate : bool) : RM Z :=
  e ← isUserInSudo credentials;
  if negb (e =? NoError) then mret e
  else
    e ← isServerDpkgBusy credentials;
    if negb (e =? NoError) then mret e
    else
      e ← installDockerWorker credentials;
      if negb (e =? NoError) then mret e
      else
        e ← (if isUpdate then mret NoError else isServerPortBusy credentials container config);
        if negb (e =? NoError) then mret e
        else
          e ← (if isUpdate then mret NoError else isServerPortBusy credentials container config);
          if negb (e =? NoError) then mret e
          else prepareHostWorker credentials container.

Definition setupContainer (credentials : ServerCredentials) (container : DockerContainer.t) (config : QJsonObject) (isUpdate : bool)
    : RM (Z * QJsonObject) :=
  e ← checkServer credentials container config isUpdate;
  if negb (e =? NoError) then mret (e, config)
  else
    removeContainer credentials container;;
    e ← buildContainerWorker credentials container config;
    if negb (e =? NoError) then mret (e, config)
    else
      e ← runContainerWorker credentials container config;
      if negb (e =? NoError) then mret (e, config)
      else
        r ← configureContainerWorker credentials container config;
        if negb (r.1 =? NoError) then mret r
        else
          setupServerFirewall credentials;;
          e ← startupContainerWorker credentials container r.2;
          mret (e, r.2).

(** Whether a field of the configuration of the protocol differs. *)
Definition differs (old new : QJsonObject) (k d : string) : bool := negb (String.eqb (fieldOr old k d) (fieldOr new k d)).

Definition isReinstallContainerRequired (container : DockerContainer.t) (oldConfig newConfig : QJsonObject) : bool :=
  let old := protoConfig oldConfig (ContainerProps.defaultProtocol container) in
  let new := protoConfig newConfig (ContainerProps.defaultProtocol container) in
  match container with
  | DockerContainer.OpenVpn => differs old new "transport_proto" "udp" || differs old new "port" "1194"
  | DockerContainer.Cloak => differs old new "port" "443"
  | DockerContainer.ShadowSocks => differs old new "port" "6789"
  | DockerContainer.Awg =>
      existsb (λ f, differs old new f.1 f.2)
        [("port", "55424"); ("Jc", "3"); ("Jmin", "10"); ("Jmax", "30"); ("S1", "15"); ("S2", "18"); ("H1", "1020325451");
         ("H2", "3288052141"); ("H3", "1766607858"); ("H4", "2528465083")]
  | DockerContainer.WireGuard => differs old new "port" "51820"
  | DockerContainer.Socks5Proxy => true
  | _ => false
  end.

Definition updateContainer (credentials : ServerCredentials) (container : DockerContainer.t) (oldConfig newConfig : QJsonObject)
    : RM (Z * QJsonObject) :=
  if isReinstallContainerRequired container oldConfig newConfig then setupContainer credentials container newConfig true
  else
    r ← configureContainerWorker credentials container newConfig;
    if negb (r.1 =? NoError) then mret r
    else e ← startupContainerWorker credentials container r.2; mret (e, r.2).

End ServerCtrl.
End ServerCtrl.
#[global] Arguments ServerCtrl.RM W A : clear implicits.
