(* ===== verification/RemoteSpec.v ===== *)
(** * Files on a server: what the commands promise

    The scripts of [RemoteServer.v] as single commands, and the files they read and write.
    [View] is what matters of a server: its containers and the files in them, with the
    files of the host.  The class [MachineLaws] states the documented behaviour of the
    commands the program runs ([docker], [scp], [cat], [xxd], [rm], [shred], [grep]) on a
    view, for names without special characters.  A command that SSH reports as failed may
    have run or not.

    [fetches] is the logic of the file: an operation on the controller ends, and relates the
    views before and after. *)

From stdpp Require Import prelude strings list gmap pretty.
From Stdlib Require Import ZArith Lia Ascii.
From S2P Require Import Prelude QtJson InterfaceConfig LineProtocol QtText SecureSettings SplitTunnel Containers ServerSettings ServersModel RemoteServer.

Local Open Scope Z_scope.

(** ** Names and variables *)

Definition wordChar (a : ascii) : bool :=
  has_char a "ABCDEFGHIJKLMNOPQRSTUVWXYZabcdefghijklmnopqrstuvwxyz0123456789/._-".
Definition name (s : string) : bool := negb (String.eqb s "") && all_chars wordChar s.

Lemma name_no c s : wordChar c = false → name s = true → has_char c s = false.
Proof. intros Hc [_ Hs]%andb_prop. by apply (all_chars_has wordChar). Qed.

(** The variables of [genVarsForScript] but [$CONTAINER_NAME]. *)
Definition otherKeys : list string :=
  ["$REMOTE_HOST"; "$OPENVPN_SUBNET_IP"; "$OPENVPN_SUBNET_CIDR"; "$OPENVPN_SUBNET_MASK"; "$OPENVPN_PORT"; "$OPENVPN_TRANSPORT_PROTO";
   "$OPENVPN_NCP_DISABLE"; "$OPENVPN_CIPHER"; "$OPENVPN_HASH"; "$OPENVPN_TLS_AUTH"; "$OPENVPN_TA_KEY"; "$OPENVPN_ADDITIONAL_CLIENT_CONFIG";
   "$OPENVPN_ADDITIONAL_SERVER_CONFIG"; "$SHADOWSOCKS_SERVER_PORT"; "$SHADOWSOCKS_LOCAL_PORT"; "$SHADOWSOCKS_CIPHER"; "$DOCKERFILE_FOLDER";
   "$CLOAK_SERVER_PORT"; "$FAKE_WEB_SITE_ADDRESS"; "$XRAY_SITE_NAME"; "$XRAY_SERVER_PORT"; "$WIREGUARD_SUBNET_IP"; "$WIREGUARD_SUBNET_CIDR";
   "$WIREGUARD_SUBNET_MASK"; "$WIREGUARD_SERVER_PORT"; "$IPSEC_VPN_L2TP_NET"; "$IPSEC_VPN_L2TP_POOL"; "$IPSEC_VPN_L2TP_LOCAL";
   "$IPSEC_VPN_XAUTH_NET"; "$IPSEC_VPN_XAUTH_POOL"; "$IPSEC_VPN_SHA2_TRUNCBUG"; "$IPSEC_VPN_VPN_ANDROID_MTU_FIX"; "$IPSEC_VPN_DISABLE_IKEV2";
   "$IPSEC_VPN_DISABLE_L2TP"; "$IPSEC_VPN_DISABLE_XAUTH"; "$IPSEC_VPN_C2C_TRAFFIC"; "$PRIMARY_SERVER_DNS"; "$SECONDARY_SERVER_DNS";
   "$SFTP_PORT"; "$SFTP_USER"; "$SFTP_PASSWORD"; "$AWG_SERVER_PORT"; "$JUNK_PACKET_COUNT"; "$JUNK_PACKET_MIN_SIZE"; "$JUNK_PACKET_MAX_SIZE";
   "$INIT_PACKET_JUNK_SIZE"; "$RESPONSE_PACKET_JUNK_SIZE"; "$INIT_PACKET_MAGIC_HEADER"; "$RESPONSE_PACKET_MAGIC_HEADER";
   "$UNDERLOAD_PACKET_MAGIC_HEADER"; "$TRANSPORT_PACKET_MAGIC_HEADER"; "$SOCKS5_PROXY_PORT"; "$SOCKS5_USER"; "$SOCKS5_AUTH_TYPE";
   "$SERVER_IP_ADDRESS"].

(** A variable that does not occur where another text with a dollar stands. *)
Definition variable (k : string) : bool :=
  match k with String a _ => Ascii.eqb a "$" | EmptyString => false end && diverge k "$(dirname ".

Definition isOther (k : string) : bool := existsb (String.eqb k) otherKeys.

Lemma isOther_in k : isOther k = true → k ∈ otherKeys.
Proof. unfold isOther. rewrite existsb_exists. intros (x & Hx & ->%String.eqb_eq). by apply list_elem_of_In. Qed.

Lemma other_variable k : k ∈ otherKeys → variable k = true ∧ diverge k "$CONTAINER_NAME" = true.
Proof.
  intros Hk%list_elem_of_In. assert (forallb (λ k, variable k && diverge k "$CONTAINER_NAME") otherKeys = true) as H by by vm_compute.
  by apply andb_true_iff, (proj1 (forallb_forall _ _) H).
Qed.

(** A text in which no variable occurs. *)
Definition inert (s : string) : Prop := ∀ k, variable k = true → containsText k s = false.

Lemma variable_head k : variable k = true → ∃ k', k = String "$" k'.
Proof. destruct k as [|a k]; [done|]. intros [->%Ascii.eqb_eq _]%andb_prop. eauto. Qed.

Lemma inert_free s : has_char "$" s = false → inert s.
Proof. intros H k [k' ->]%variable_head. by apply contains_absent. Qed.

Lemma inert_app s t : has_char "$" s = false → inert t → inert (s +:+ t).
Proof. intros Hs Ht k Hk. destruct (variable_head k Hk) as [k' ->]. rewrite contains_skip by done. by apply Ht. Qed.

Lemma inert_dirname s : has_char "$" s = false → inert ("$(dirname " +:+ s).
Proof.
  intros Hs k Hk. change ("$(dirname " +:+ s) with (String "$" ("(dirname " +:+ s)). cbn [containsText].
  change (String "$" ("(dirname " +:+ s)) with ("$(dirname " +:+ s).
  rewrite prefix_diverge by (by apply andb_prop in Hk as [_ ?]). destruct (variable_head k Hk) as [k' ->].
  rewrite contains_skip by done. by apply contains_absent.
Qed.

Lemma vars_inert s vars : inert s → Forall (λ v, variable v.1 = true) vars → ServerCtrl.replaceVars s vars = s.
Proof. intros Hs. induction 1 as [|v vars Hv _ IH]; [done|]. unfold ServerCtrl.replaceVars. cbn [foldl]. rewrite replace_absent by (by apply Hs). apply IH. Qed.

(** Of the variables, the container is the only one in the text. *)
Lemma vars_container pre post l1 c l2 : has_char "$" pre = false → inert post → has_char "$" c = false →
  Forall (λ v, isOther v.1 = true) l1 → Forall (λ v, isOther v.1 = true) l2 →
  ServerCtrl.replaceVars (pre +:+ "$CONTAINER_NAME" +:+ post) (l1 ++ ("$CONTAINER_NAME", c) :: l2) = pre +:+ c +:+ post.
Proof.
  intros Hpre Hpost Hc H1 H2. unfold ServerCtrl.replaceVars. rewrite foldl_app.
  assert (∀ k, isOther k = true → variable k = true) as Hvar by (by intros k [? _]%isOther_in%other_variable).
  assert (foldl (λ s v, replaceText v.1 v.2 s) (pre +:+ "$CONTAINER_NAME" +:+ post) l1 = pre +:+ "$CONTAINER_NAME" +:+ post) as ->.
  { induction H1 as [|v l1 Hv _ IH]; [done|]. cbn [foldl]. rewrite replace_absent; [done|].
    destruct (other_variable _ (isOther_in _ Hv)) as [Hk Hd]. destruct (variable_head _ Hk) as [k' E]. rewrite E in *.
    rewrite contains_skip by done. change ("$CONTAINER_NAME" +:+ post) with (String "$" ("CONTAINER_NAME" +:+ post)). cbn [containsText].
    change (String "$" ("CONTAINER_NAME" +:+ post)) with ("$CONTAINER_NAME" +:+ post).
    rewrite (prefix_diverge _ _ _ Hd), contains_skip by done. by apply Hpost. }
  cbn [foldl fst snd]. rewrite replace_once; [|done|by apply Hpost].
  apply vars_inert; [by repeat apply inert_app|]. eapply Forall_impl; [done|]. intros v Hv. by apply Hvar.
Qed.

Lemma chop_app s a : chop (s +:+ String a "") = s.
Proof. induction s as [|b s IH]; [done|]. cbn. rewrite IH. by destruct s. Qed.

(** ** The dump of a file *)

(** [xxd -p]: thirty bytes to a line. *)
Fixpoint xxdFrom (n : nat) (s : string) : string :=
  match s with
  | EmptyString => if (n =? 0)%nat then "" else nl
  | String a s => SimQt.hex2 (Z.of_nat (nat_of_ascii a)) +:+ (if (n =? 29)%nat then nl +:+ xxdFrom 0 s else xxdFrom (S n) s)
  end.
Definition xxd : string → string := xxdFrom 0.

Definition digitsOf (a : ascii) : list Z := [Z.of_nat (nat_of_ascii a) / 16; Z.of_nat (nat_of_ascii a) mod 16].

Lemma hex_digits_of a : omap hexValue (String.list_ascii_of_string (SimQt.hex2 (Z.of_nat (nat_of_ascii a)))) = digitsOf a ∧
  ascii_of_nat (Z.to_nat (16 * (Z.of_nat (nat_of_ascii a) / 16) + Z.of_nat (nat_of_ascii a) mod 16)) = a.
Proof. by destruct a as [[] [] [] [] [] [] [] []]; vm_compute. Qed.

Lemma list_ascii_app s t : String.list_ascii_of_string (s +:+ t) = String.list_ascii_of_string s ++ String.list_ascii_of_string t.
Proof. induction s as [|a s IH]; [done|]. cbn. by rewrite IH. Qed.

Lemma xxd_digits s n : omap hexValue (String.list_ascii_of_string (xxdFrom n s)) = flat_map digitsOf (String.list_ascii_of_string s).
Proof.
  revert n. induction s as [|a s IH]; intros n; cbn [xxdFrom String.list_ascii_of_string flat_map]; [by destruct n|].
  rewrite list_ascii_app, omap_app, (proj1 (hex_digits_of a)). f_equal. case_match; [|apply IH].
  rewrite list_ascii_app, omap_app, IH. done.
Qed.

Lemma bytes_digits l after : bytesFromEnd (reverse (flat_map digitsOf l)) after = String.string_of_list_ascii l +:+ after.
Proof.
  revert after. induction l as [|a l IH] using rev_ind; intros after; [done|].
  rewrite flat_map_app, reverse_app. cbn [flat_map digitsOf app]. unfold digitsOf.
  change (reverse [?x; ?y]) with [y; x]. cbn [app bytesFromEnd]. rewrite IH, (proj2 (hex_digits_of a)).
  clear. induction l as [|b l IH]; [done|]. cbn. by rewrite IH.
Qed.

Lemma fromHex_xxd s : fromHex (xxd s) = s.
Proof. unfold fromHex, xxd. by rewrite xxd_digits, bytes_digits, String.string_of_list_ascii_of_string, sapp_nil_r. Qed.

(** ** Servers *)

Record View := mkView {
  up : gset string;                          (* the containers *)
  files : gmap (string * string) string;     (* by container and path from the root *)
  hostFiles : gmap string string;
}.

(** Paths of a container start at its root, which is also its working directory. *)
Fixpoint rooted (p : string) : string :=
  match p with String a p' => if Ascii.eqb a "/" then rooted p' else p | EmptyString => "" end.

Definition content (v : View) (C P : string) : string := default "" (files v !! (C, rooted P)).
Definition putFile (C P data : string) (v : View) : View := mkView (up v) (<[(C, rooted P) := data]> (files v)) (hostFiles v).
Definition putHost (T data : string) (v : View) : View := mkView (up v) (files v) (<[T := data]> (hostFiles v)).

Inductive Cmd :=
| CopyIn (T C P : string)
| AppendIn (T C P : string)
| MakeDir (C P : string)
| Dump (C P : string)
| RunBash (C F : string)
| RemoveFile (C F : string)
| Shred (T : string)
| SyncConf (C P : string)
| WgShow (C : string).

Definition inContainer (C command : string) : string := "sudo docker exec -i " +:+ C +:+ " " +:+ command.

Definition cmdText (c : Cmd) : string :=
  match c with
  | CopyIn T C P => "sudo docker cp " +:+ T +:+ " " +:+ C +:+ ":/" +:+ P
  | AppendIn T C P => inContainer C ("sh -c " +:+ quote +:+ "cat " +:+ T +:+ " >> " +:+ P +:+ quote)
  | MakeDir C P => inContainer C ("mkdir -p  " +:+ quote +:+ "$(dirname " +:+ P +:+ ")" +:+ quote)
  | Dump C P => inContainer C ("sh -c " +:+ quote +:+ "xxd -p '" +:+ P +:+ "'" +:+ quote)
  | RunBash C F => inContainer C ("bash " +:+ F +:+ " ")
  | RemoveFile C F => inContainer C ("rm " +:+ F +:+ " ")
  | Shred T => "sudo shred -u " +:+ T
  | SyncConf C P => inContainer C ("bash -c 'wg syncconf wg0 <(wg-quick strip " +:+ P +:+ ")'")
  | WgShow C => inContainer C "bash -c 'wg show all'"
  end.

Definition cmdNames (c : Cmd) : list string :=
  match c with
  | CopyIn T C P | AppendIn T C P => [T; C; P]
  | MakeDir C P | Dump C P | RunBash C P | RemoveFile C P | SyncConf C P => [C; P]
  | Shred T => [T]
  | WgShow C => [C]
  end.
Definition named (c : Cmd) : bool := forallb name (cmdNames c).

Definition cmdEffect (c : Cmd) (v : View) : View :=
  match c with
  | CopyIn T C P =>
      match hostFiles v !! T with Some data => if decide (C ∈ up v) then putFile C P data v else v | None => v end
  | AppendIn T C P => if decide (C ∈ up v) then putFile C P (content v C P +:+ content v C T) v else v
  | RemoveFile C F => if decide (C ∈ up v) then mkView (up v) (delete (C, rooted F) (files v)) (hostFiles v) else v
  | Shred T => mkView (up v) (files v) (delete T (hostFiles v))
  | MakeDir _ _ | Dump _ _ | RunBash _ _ | SyncConf _ _ | WgShow _ => v
  end.

(** The script that looks for the addresses of the clients, and its output. *)
Definition grepScript (P : string) : string := "cat " +:+ P +:+ " | grep AllowedIPs".
Definition textLines (s : string) : list string := lines s ++ (if String.eqb (partial s) "" then [] else [partial s]).
Definition grepped (s : string) : string := unlines (List.filter (containsText "AllowedIPs") (textLines s)).

Inductive outputs : Cmd → View → string → Prop :=
| outputs_dump C P v : C ∈ up v → outputs (Dump C P) v (xxd (content v C P))
| outputs_grep C F P v : name P = true → C ∈ up v → files v !! (C, rooted F) = Some (grepScript P) → outputs (RunBash C F) v (grepped (content v C P))
| outputs_remove C F v : outputs (RemoveFile C F) v "".

(** The container a copy is for. *)
Definition copiesTo (c : Cmd) : option string := match c with CopyIn _ C _ | AppendIn _ C _ => Some C | _ => None end.

Definition complains (l : list Chunk) : bool :=
  containsText "Error" (gathered true l) && containsText "No such container" (gathered true l).

Definition chunkText (c : Chunk) : string := match c with StdOut d | StdErr d => d end.

(** What running a command means. *)
Record ran (c : Cmd) (e : Z) (l : list Chunk) (v v' : View) : Prop := {
  ran_effect : v' = cmdEffect c v ∨ (e ≠ NoError ∧ v' = v);
  ran_output o : e = NoError → outputs c v o → gatheredPlain l = o;
  ran_prefix o : outputs c v o → String.prefix (gatheredPlain l) o = true;
  ran_complains C : e = NoError → copiesTo c = Some C → complains l = negb (bool_decide (C ∈ up v));
  ran_chunks : Forall (λ x, chunkText x ≠ "") l;
}.

Class Machine (W : Type) := { view : W → View }.

Class MachineLaws {W} {ssh : Ssh W} (machine : Machine W) : Prop := {
  connect_view cr w : view (connectToHost cr w).2 = view w;
  random_view w : view (randomIndex w).2 = view w;
  scp_view data T w : name T = true →
    let '(e, w') := scpFileCopy false data T w in
    if e =? NoError then view w' = putHost T data (view w) else up (view w') = up (view w) ∧ files (view w') = files (view w);
  run_view reply c w : named c = true →
    let '((e, l), w') := executeCommand reply (cmdText c) w in ran c e l (view w) (view w');
}.

(** A connection that does not break; a text is appended to a file without a word. *)
Class Dependable {W} {machine : Machine W} (ssh : Ssh W) : Prop := {
  dep_connect cr w : (connectToHost cr w).1 = NoError;
  dep_scp data T w : (scpFileCopy false data T w).1 = NoError;
  dep_run reply command w : (executeCommand reply command w).1.1 = NoError;
  dep_append reply T C P w : named (AppendIn T C P) = true → C ∈ up (view w) → (executeCommand reply (cmdText (AppendIn T C P)) w).1.2 = [];
}.

(** *** Standard output *)

Definition outs (l : list Chunk) : list string := omap (λ c, match c with StdOut d => Some d | StdErr _ => None end) l.

Lemma outs_plain l : gatheredPlain l = joined (outs l).
Proof. induction l as [|[d|d] l IH]; [done| |exact IH]. change (d +:+ gatheredPlain l = d +:+ joined (outs l)). by rewrite IH. Qed.

Lemma outs_gathered l : gathered false l = joined (map (λ d, d +:+ nl) (outs l)).
Proof. induction l as [|[d|d] l IH]; [done| |exact IH]. change ((d +:+ nl) +:+ gathered false l = (d +:+ nl) +:+ joined (map (λ d, d +:+ nl) (outs l))). by rewrite IH. Qed.

(** ** The logic *)

(** The name servers of the settings are stored as texts. *)
Definition plainDns (c : Secure) : Prop := ∀ k b, k ∈ ["Conf/primaryDns"; "Conf/secondaryDns"] → stored c !! k ≠ Some (VBytes b).

Section Logic.
  Context {W : Type} {secrets : SecretEnv W} {te : TextEnv} {text : ArrayText} {ssh : Ssh W} {res : Resources}.
  Context {machine : Machine W}.

Definition plain (s : Sys Server W) : Prop := plainDns (sv_settings (globals s)).

Definition fetches {A} (m : ServerCtrl.RM W A) (Q : A → View → View → Prop) : Prop := ∀ s, plain s →
  ∃ a s' t, m s = (Ok a, s', t) ∧ plain s' ∧ Q a (view (world s)) (view (world s')).

Lemma fetches_mono {A} (m : ServerCtrl.RM W A) (Q R : A → View → View → Prop) :
  fetches m Q → (∀ a v v', Q a v v' → R a v v') → fetches m R.
Proof. intros Hm HQ s Hs. destruct (Hm s Hs) as (a & s' & t & E & H1 & H2). exists a, s', t. auto. Qed.

Lemma fetches_ret {A} (a : A) (Q : A → View → View → Prop) : (∀ v, Q a v v) → fetches (mret a) Q.
Proof. intros HQ s Hs. by exists a, s, []. Qed.

Lemma fetches_bind {A B} (m : ServerCtrl.RM W A) (k : A → ServerCtrl.RM W B) Q (R : A → B → View → View → Prop) (T : B → View → View → Prop) :
  fetches m Q → (∀ a, fetches (k a) (R a)) → (∀ a b v v1 v2, Q a v v1 → R a b v1 v2 → T b v v2) → fetches (m ≫= k) T.
Proof.
  intros Hm Hk HT s Hs. destruct (Hm s Hs) as (a & s1 & t1 & E1 & Hp1 & H1). destruct (Hk a s1 Hp1) as (b & s2 & t2 & E2 & Hp2 & H2).
  exists b, s2, (t1 ++ t2). split; [by eapply run_bind|]. eauto.
Qed.

(** A part that keeps the view. *)
Lemma fetches_bind_same {A B} (m : ServerCtrl.RM W A) (k : A → ServerCtrl.RM W B) (P : A → Prop) T :
  fetches m (λ a v v', P a ∧ v' = v) → (∀ a, P a → fetches (k a) T) → fetches (m ≫= k) T.
Proof.
  intros Hm Hk s Hs. destruct (Hm s Hs) as (a & s1 & t1 & E1 & Hp1 & HP & Hv). destruct (Hk a HP s1 Hp1) as (b & s2 & t2 & E2 & Hp2 & H2).
  exists b, s2, (t1 ++ t2). split; [by eapply run_bind|]. rewrite Hv in H2. eauto.
Qed.

Lemma fetches_if {A} (b : bool) (m1 m2 : ServerCtrl.RM W A) (Q : A → View → View → Prop) :
  (b = true → fetches m1 Q) → (b = false → fetches m2 Q) → fetches (if b then m1 else m2) Q.
Proof. destruct b; auto. Qed.

(** *** Settings and names *)

Lemma plain_read k d : k ∈ ["Conf/primaryDns"; "Conf/secondaryDns"] →
  fetches (ServerCtrl.settings (Servers.readSetting k d)) (λ _ v v', v' = v).
Proof.
  intros Hk s Hs. unfold ServerCtrl.settings, Servers.readSetting, Servers.store, SecureQSettings.value, SecureQSettings.getS.
  run_m. destruct (m_cache (sv_settings (globals s)) !! k); [eexists _, _, _; split; [reflexivity|by split]|].
  cbn [globals]. destruct (stored (sv_settings (globals s)) !! k) as [x|] eqn:E; [|eexists _, _, _; split; [reflexivity|by split]].
  destruct x; try (eexists _, _, _; split; [reflexivity|by split]). by destruct (Hs k b Hk).
Qed.

Lemma plain_text k d : k ∈ ["Conf/primaryDns"; "Conf/secondaryDns"] →
  fetches (ServerCtrl.settings (v ← Servers.readSetting k d; mret (variantText v))) (λ _ v v', v' = v).
Proof.
  intros Hk s Hs. destruct (plain_read k d Hk s Hs) as (a & s' & t & E & Hp & Hv). unfold ServerCtrl.settings in *.
  destruct (Servers.readSetting k d _) as [[r s1] t1] eqn:E1. injection E as -> <- <-.
  exists (variantText a), (mkSys (mkServer (globals s1) (m_cancelInstallation (globals s))) (world s1)), (map RsSettings (t1 ++ [])).
  split; [|done]. by rewrite (run_bind _ _ _ _ _ _ (Ok (variantText a)) s1 [] E1).
Qed.

Definition cname (c : DockerContainer.t) : string := ContainerProps.containerToString c.

Definition containerVars (c : DockerContainer.t) (vars : ServerCtrl.Vars) : Prop :=
  ∃ l1 l2, vars = l1 ++ ("$CONTAINER_NAME", cname c) :: l2 ∧ Forall (λ v, isOther v.1 = true) l1 ∧ Forall (λ v, isOther v.1 = true) l2.

Ltac keys := repeat (apply Forall_cons; split; [cbn [fst]; by vm_compute|]); try apply Forall_nil_2.

Lemma fixedVars_container cr c cfg : containerVars c (ServerCtrl.fixedVars cr c cfg).
Proof.
  unfold ServerCtrl.fixedVars. destruct (flagOr _ "tls_auth" true).
  - eexists [_; _; _; _; _; _; _; _; _; _; _; _; _; _; _], _. split; [reflexivity|]. split; keys.
  - eexists [_; _; _; _; _; _; _; _; _; _; _; _; _; _; _; _], _. split; [reflexivity|]. split; keys.
Qed.

Lemma getIPAddress_fetches host : fetches (ServerCtrl.getIPAddress host) (λ _ v v', True ∧ v' = v).
Proof. unfold ServerCtrl.getIPAddress. apply fetches_if; intros _; [by apply fetches_ret|]. intros s Hs. by eexists _, _, _. Qed.

Lemma genVars_fetches cr c cfg : fetches (ServerCtrl.genVarsForScript cr c cfg) (λ vars v v', containerVars c vars ∧ v' = v).
Proof.
  unfold ServerCtrl.genVarsForScript.
  eapply (fetches_bind_same _ _ (λ _, True)); [eapply fetches_mono; [apply plain_text; by set_solver|done]|intros primary _].
  eapply (fetches_bind_same _ _ (λ _, True)); [eapply fetches_mono; [apply plain_text; by set_solver|done]|intros secondary _].
  eapply fetches_bind_same; [apply getIPAddress_fetches|intros ip _]. apply fetches_ret. intros v. split; [|done].
  destruct (fixedVars_container cr c cfg) as (l1 & l2 & -> & H1 & H2). eexists l1, _. rewrite <- app_assoc. split; [reflexivity|]. split; [done|].
  apply Forall_app. split; [done|]. cbn [app]. destruct (String.eqb ip ""); keys.
Qed.

(** *** Single commands *)

Definition oneLine (s : string) : bool :=
  negb (String.eqb s "") && negb (String.prefix "#" s) && negb (has_char "\" s) && negb (has_char newline_char s) && negb (has_char (ascii_of_nat 13) s).

Lemma endsWith_has c s : has_char c s = false → endsWithChar c s = false.
Proof.
  induction s as [|a s IH]; [done|]. intros [Ha Hs]%has_char_cons. destruct s as [|b s]; [|by apply IH]. cbn. apply Ascii.eqb_neq. congruence.
Qed.

Lemma script_one_line s : oneLine s = true → skipEmpty (splitText nl (replaceText carriage_return "" s)) = [s].
Proof.
  unfold oneLine. rewrite !andb_true_iff, !negb_true_iff. intros [[[[H1 H2] H3] H4] H5].
  rewrite replace_absent by (by apply contains_absent). rewrite split_none by (by apply contains_absent).
  apply String.eqb_neq in H1. by rewrite skipEmpty_cons.
Qed.

Lemma run_one_line cr s : oneLine s = true → ∀ st,
  ServerCtrl.runScript cr s st =
  (error ← ask (connectToHost cr) (λ _, RsConnect cr);
   if negb (error =? NoError) then mret (error, []) else ServerCtrl.execute (λ _, None) s : ServerCtrl.RM W _) st.
Proof.
  intros Hs st. unfold ServerCtrl.runScript, ServerCtrl.runScriptWith. rewrite script_one_line by done.
  unfold oneLine in Hs. rewrite !andb_true_iff, !negb_true_iff in Hs. destruct Hs as [[[[H1 H2] H3] H4] H5].
  cbn [ServerCtrl.runLines String.eqb]. rewrite (endsWith_has _ _ H3), H2. unfold ask, mbind, M_bind.
  destruct (connectToHost cr (world st)) as [e w]. destruct (negb (e =? NoError)); [done|]. unfold ServerCtrl.execute, ask. cbn [world globals].
  destruct (executeCommand _ s w) as [[e' l] w']. cbn [fst snd]. unfold mret, M_ret. destruct (Z.eqb_spec e' NoError) as [->|]; [|done].
  cbn [negb]. by rewrite app_nil_r.
Qed.

Lemma cmd_has x c : x ∈ ["\"%char; newline_char; ascii_of_nat 13] → named c = true → has_char x (cmdText c) = false.
Proof.
  intros Hx Hn. assert (∀ n, n ∈ cmdNames c → has_char x n = false) as H.
  { intros n Hin%list_elem_of_In. apply name_no; [|by apply (proj1 (forallb_forall _ _) Hn)]. by repeat (apply elem_of_cons in Hx as [->|Hx]; [done|]); apply not_elem_of_nil in Hx. }
  clear Hn. destruct c; cbn [cmdNames] in H; cbn [cmdText]; unfold inContainer; rewrite !has_char_app;
    repeat match goal with H : context [?v :: _] |- context [has_char x ?v] => is_var v; rewrite (H v) by set_solver end.
  all: by repeat (apply elem_of_cons in Hx as [->|Hx]; [done|]); apply not_elem_of_nil in Hx.
Qed.

Lemma cmd_one_line c : named c = true → oneLine (cmdText c) = true.
Proof.
  intros Hn. unfold oneLine. rewrite !(cmd_has _ c) by (done || set_solver). by destruct c.
Qed.

  Context {laws : MachineLaws machine}.

(** The chunks come from the server, if it was asked. *)
Definition issued (c : Cmd) (l : list Chunk) : Prop := l = [] ∨ ∃ w e w', executeCommand (λ _, None) (cmdText c) w = ((e, l), w').

(** What a connection that does not break adds to this. *)
Definition smooth (c : Cmd) (e : Z) (l : list Chunk) (v : View) : Prop := Dependable ssh →
  e = NoError ∧ ∀ T C P, c = AppendIn T C P → C ∈ up v → l = [].

Definition did (c : Cmd) (e : Z) (l : list Chunk) (v v' : View) : Prop := ran c e l v v' ∧ issued c l ∧ smooth c e l v.

(** A connection that fails counts as a command that did not run. *)
Lemma runScript_fetches cr c : named c = true → fetches (ServerCtrl.runScript cr (cmdText c)) (λ r, did c r.1 r.2).
Proof.
  intros Hn s Hs. rewrite run_one_line by (by apply cmd_one_line). unfold ask, mbind, M_bind.
  pose proof (connect_view cr (world s)) as Hc. pose proof (λ d : Dependable ssh, dep_connect cr (world s)) as Hd0.
  destruct (connectToHost cr (world s)) as [e w]. cbn [snd fst] in Hc, Hd0.
  destruct (Z.eqb_spec e NoError) as [->|He]; cbn [negb].
  - unfold ServerCtrl.execute, ask. cbn [world globals]. pose proof (run_view (λ _, None) c w Hn) as Hr.
    destruct (executeCommand _ (cmdText c) w) as [[e' l] w'] eqn:Ex. rewrite Hc in Hr. eexists (e', l), _, _. split; [reflexivity|]. split; [done|].
    split; [done|]. split; [right; eauto|]. intros Hdep. cbn [fst snd]. split; [by rewrite <- (dep_run (λ _, None) (cmdText c) w), Ex|].
    intros T C P -> HC. rewrite <- Hc in HC. pose proof (dep_append (λ _, None) T C P w Hn HC) as H. by rewrite Ex in H.
  - eexists (e, []), _, _. split; [reflexivity|]. split; [done|]. cbn [fst snd world]. rewrite Hc. split; [|split; [by left|by intros Hd%Hd0]].
    split; [by right|done|by intros []|done|done].
Qed.

Lemma cname_name c : name (cname c) = true.
Proof. by destruct c; vm_compute. Qed.

Lemma runFor_fetches cr c cfg pre post cmd : named cmd = true → has_char "$" pre = false → inert post →
  cmdText cmd = pre +:+ cname c +:+ post →
  fetches (ServerCtrl.runFor cr c cfg (pre +:+ "$CONTAINER_NAME" +:+ post)) (λ r, did cmd r.1 r.2).
Proof.
  intros Hn Hpre Hpost E. unfold ServerCtrl.runFor. eapply fetches_bind_same; [apply genVars_fetches|].
  intros vars (l1 & l2 & -> & H1 & H2). rewrite vars_container by (done || by apply name_no, cname_name). rewrite <- E. by apply runScript_fetches.
Qed.

Lemma runFor_inert cr c cfg cmd : named cmd = true → inert (cmdText cmd) →
  fetches (ServerCtrl.runFor cr c cfg (cmdText cmd)) (λ r, did cmd r.1 r.2).
Proof.
  intros Hn Hin. unfold ServerCtrl.runFor. eapply fetches_bind_same; [apply genVars_fetches|].
  intros vars (l1 & l2 & -> & H1 & H2). rewrite vars_inert; [by apply runScript_fetches|done|]. apply Forall_app.
  assert (∀ l : ServerCtrl.Vars, Forall (λ v, isOther v.1 = true) l → Forall (λ v, variable v.1 = true) l) as H.
  { intros l Hl. eapply Forall_impl; [done|]. by intros v [? _]%isOther_in%other_variable. }
  split; [by apply H|]. by apply Forall_cons; split; [vm_compute|apply H].
Qed.

Ltac free := rewrite ?has_char_app; repeat match goal with H : name ?s = true |- context [has_char "$" ?s] => rewrite (name_no "$" s) by done end; done.
Ltac names := unfold named; cbn [cmdNames forallb]; rewrite ?cname_name; repeat match goal with H : name ?s = true |- context [name ?s] => rewrite H end; done.

Lemma mkdir_fetches cr c cfg P : name P = true →
  fetches (ServerCtrl.runFor cr c cfg ("sudo docker exec -i $CONTAINER_NAME mkdir -p  " +:+ quote +:+ "$(dirname " +:+ P +:+ ")" +:+ quote))
    (λ r, did (MakeDir (cname c) P) r.1 r.2).
Proof.
  intros HP. apply (runFor_fetches cr c cfg "sudo docker exec -i " (" mkdir -p  " +:+ quote +:+ "$(dirname " +:+ P +:+ ")" +:+ quote)); [names|done| |done].
  apply inert_app, inert_app, inert_dirname; [done|done|free].
Qed.

Lemma copy_fetches cr c cfg T P : name T = true → name P = true →
  fetches (ServerCtrl.runFor cr c cfg ("sudo docker cp " +:+ T +:+ " $CONTAINER_NAME:/" +:+ P)) (λ r, did (CopyIn T (cname c) P) r.1 r.2).
Proof.
  intros HT HP. assert ("sudo docker cp " +:+ T +:+ " $CONTAINER_NAME:/" +:+ P = ("sudo docker cp " +:+ T +:+ " ") +:+ "$CONTAINER_NAME" +:+ (":/" +:+ P)) as ->.
  { by rewrite !sapp_assoc. }
  apply runFor_fetches; [names|free|apply inert_free; free|]. by rewrite !sapp_assoc.
Qed.

Lemma append_fetches cr c cfg T P : name T = true → name P = true →
  fetches (ServerCtrl.runFor cr c cfg ("sudo docker exec -i $CONTAINER_NAME sh -c " +:+ quote +:+ "cat " +:+ T +:+ " >> " +:+ P +:+ quote))
    (λ r, did (AppendIn T (cname c) P) r.1 r.2).
Proof.
  intros HT HP. apply (runFor_fetches cr c cfg "sudo docker exec -i " (" sh -c " +:+ quote +:+ "cat " +:+ T +:+ " >> " +:+ P +:+ quote)); [names|done| |done].
  apply inert_free. free.
Qed.

Lemma bash_fetches cr c cfg F : name F = true →
  fetches (ServerCtrl.runFor cr c cfg ("sudo docker exec -i $CONTAINER_NAME " +:+ "bash" +:+ " " +:+ F +:+ " ")) (λ r, did (RunBash (cname c) F) r.1 r.2).
Proof.
  intros HF. apply (runFor_fetches cr c cfg "sudo docker exec -i " (" bash " +:+ F +:+ " ")); [names|done| |done]. apply inert_free. free.
Qed.

Lemma rm_fetches cr c cfg F : name F = true →
  fetches (ServerCtrl.runFor cr c cfg ("sudo docker exec -i $CONTAINER_NAME rm " +:+ F +:+ " ")) (λ r, did (RemoveFile (cname c) F) r.1 r.2).
Proof.
  intros HF. apply (runFor_fetches cr c cfg "sudo docker exec -i " (" rm " +:+ F +:+ " ")); [names|done| |done]. apply inert_free. free.
Qed.

Lemma sync_fetches cr c cfg P : name P = true →
  fetches (ServerCtrl.runFor cr c cfg ("sudo docker exec -i $CONTAINER_NAME bash -c 'wg syncconf wg0 <(wg-quick strip " +:+ P +:+ ")'"))
    (λ r, did (SyncConf (cname c) P) r.1 r.2).
Proof.
  intros HP. apply (runFor_fetches cr c cfg "sudo docker exec -i " (" bash -c 'wg syncconf wg0 <(wg-quick strip " +:+ P +:+ ")'")); [names|done| |done].
  apply inert_free. free.
Qed.

Lemma wgshow_fetches cr c cfg :
  fetches (ServerCtrl.runFor cr c cfg "sudo docker exec -i $CONTAINER_NAME bash -c 'wg show all'") (λ r, did (WgShow (cname c)) r.1 r.2).
Proof. apply (runFor_fetches cr c cfg "sudo docker exec -i " " bash -c 'wg show all'"); [names|done| |done]. by apply inert_free. Qed.

Lemma shred_fetches cr c cfg T : name T = true →
  fetches (ServerCtrl.runFor cr c cfg ("sudo shred -u " +:+ T)) (λ r, did (Shred T) r.1 r.2).
Proof. intros HT. apply (runFor_inert cr c cfg (Shred T)); [names|]. apply inert_free. cbn [cmdText]. free. Qed.

Lemma possible_char i : let c := default "A"%char (String.get (Z.to_nat (i mod 62)) ServerCtrl.possibleCharacters) in
  wordChar c && negb (Ascii.eqb "/" c) = true.
Proof.
  assert (forallb (λ i, let c := default "A"%char (String.get (Z.to_nat i) ServerCtrl.possibleCharacters) in wordChar c && negb (Ascii.eqb "/" c)) (seqZ 0 62) = true) as H by by vm_compute.
  apply (proj1 (forallb_forall _ _) H), list_elem_of_In, elem_of_seqZ. pose proof (Z.mod_pos_bound i 62). lia.
Qed.

Lemma random_fetches n : fetches (ServerCtrl.getRandomString n) (λ x v v', (all_chars wordChar x = true ∧ has_char "/" x = false ∧ String.length x = n) ∧ v' = v).
Proof.
  induction n as [|n IH]; cbn [ServerCtrl.getRandomString]; [by apply fetches_ret|].
  apply (fetches_bind_same _ _ (λ _, True)).
  { intros s Hs. unfold ServerCtrl.draw. pose proof (random_view (world s)) as H. destruct (randomIndex (world s)) as [i w]. by eexists i, _, _. }
  intros i _. eapply fetches_bind_same; [apply IH|]. intros x (H1 & H2 & H3). apply fetches_ret. intros v. split; [|done].
  pose proof (possible_char i) as [Hc1 Hc2%negb_true_iff]%andb_prop. set (c := default _ _) in *. cbn [all_chars has_char String.length].
  by rewrite Hc1, H1, Hc2, H2, H3.
Qed.

(** *** Operations from a view *)

Definition from {A} (v : View) (m : ServerCtrl.RM W A) (T : A → View → Prop) : Prop := ∀ s, plain s → view (world s) = v →
  ∃ a s' t, m s = (Ok a, s', t) ∧ plain s' ∧ T a (view (world s')).

Lemma from_fetches {A} (m : ServerCtrl.RM W A) (Q : A → View → View → Prop) : (∀ v, from v m (λ a v', Q a v v')) → fetches m Q.
Proof. intros H s Hs. by apply (H (view (world s)) s Hs). Qed.

Lemma from_mono {A} v (m : ServerCtrl.RM W A) (Q : A → View → View → Prop) (T : A → View → Prop) :
  fetches m Q → (∀ a v', Q a v v' → T a v') → from v m T.
Proof. intros Hm HT s Hs <-. destruct (Hm s Hs) as (a & s' & t & ? & ? & ?). exists a, s', t. auto. Qed.

Lemma from_ret {A} v (a : A) (T : A → View → Prop) : T a v → from v (mret a) T.
Proof. intros HT s Hs <-. by exists a, s, []. Qed.

Lemma from_bind {A B} v (m : ServerCtrl.RM W A) (k : A → ServerCtrl.RM W B) Q (T : B → View → Prop) :
  fetches m Q → (∀ a v1, Q a v v1 → from v1 (k a) T) → from v (m ≫= k) T.
Proof.
  intros Hm Hk s Hs <-. destruct (Hm s Hs) as (a & s1 & t1 & E1 & Hp1 & H1).
  destruct (Hk a _ H1 s1 Hp1 eq_refl) as (b & s2 & t2 & E2 & Hp2 & H2). exists b, s2, (t1 ++ t2). split; [by eapply run_bind|done].
Qed.

(** A step whose error ends the operation. *)
Lemma from_step {A B} v (err : A → Z) (m : ServerCtrl.RM W A) (fail : A → B) (k : A → ServerCtrl.RM W B) Q (T : B → View → Prop) :
  fetches m Q → (∀ a v1, Q a v v1 → err a ≠ NoError → T (fail a) v1) →
  (∀ a v1, Q a v v1 → err a = NoError → from v1 (k a) T) →
  from v (a ← m; if negb (err a =? NoError) then mret (fail a) else k a) T.
Proof.
  intros Hm Hfail Hk. eapply from_bind; [done|]. intros a v1 H1. destruct (Z.eqb_spec (err a) NoError) as [He|He]; cbn [negb]; [by apply Hk|].
  by apply from_ret, Hfail.
Qed.

(** *** Files *)

Lemma uploadFileToHost_fetches cr data T : name T = true →
  fetches (ServerCtrl.uploadFileToHost cr data T)
    (λ e v v', (if e =? NoError then v' = putHost T data v else up v' = up v ∧ files v' = files v) ∧ (Dependable ssh → e = NoError)).
Proof.
  intros HT s Hs. unfold ServerCtrl.uploadFileToHost, ask, mbind, M_bind.
  pose proof (connect_view cr (world s)) as Hc. pose proof (λ d : Dependable ssh, dep_connect cr (world s)) as Hd0.
  destruct (connectToHost cr (world s)) as [e w]. cbn [snd fst] in Hc, Hd0. destruct (Z.eqb_spec e NoError) as [->|He]; cbn [negb globals world].
  - pose proof (scp_view data T w HT) as H. rewrite Hc in H. pose proof (λ d : Dependable ssh, dep_scp data T w) as Hd. destruct (scpFileCopy false data T w) as [e' w'].
    by eexists e', _, _.
  - eexists e, _, _. split; [reflexivity|]. split; [done|]. cbn [world]. rewrite Hc. rewrite (proj2 (Z.eqb_neq e NoError) He). done.
Qed.

Lemma finish_fetches cr c T out : name T = true →
  fetches (ServerCtrl.finishUpload cr c T out)
    (λ e v v', (up v' = up v ∧ files v' = files v) ∧
               e = if containsText "Error" out && containsText "No such container" out then ServerContainerMissingError else NoError).
Proof.
  intros HT. apply from_fetches. intros v. unfold ServerCtrl.finishUpload. destruct (_ && _); [by apply from_ret|].
  eapply from_bind; [by apply shred_fetches|]. intros r v1 [[[->|[_ ->]] _ _ _ _] _]; by apply from_ret.
Qed.

Lemma tmp_name x : all_chars wordChar x = true → name ("/tmp/" +:+ x +:+ ".tmp") = true.
Proof. intros H. unfold name. rewrite !all_chars_app, H. by rewrite !andb_true_r. Qed.

(** The temporary file of the host and the directory, before the file is copied. *)
Lemma upload_begins v c cr file P append (T : Z → View → Prop) : name P = true →
  (∀ e v', e ≠ NoError → ¬ Dependable ssh → up v' = up v → files v' = files v → T e v') →
  (∀ x, name ("/tmp/" +:+ x +:+ ".tmp") = true →
    from (putHost ("/tmp/" +:+ x +:+ ".tmp") file v) (ServerCtrl.copyIntoContainer cr c ("/tmp/" +:+ x +:+ ".tmp") P append) T) →
  from v (ServerCtrl.uploadTextFileToContainer c cr file P append) T.
Proof.
  intros HP Herr Hk. unfold ServerCtrl.uploadTextFileToContainer.
  eapply from_bind; [apply random_fetches|]. intros x v1 [(Hx & _) ->]. apply tmp_name in Hx. specialize (Hk x Hx).
  eapply (from_step _ (λ e, e) _ (λ e, e)); [by apply uploadFileToHost_fetches| |].
  { intros e v1 [H Hd] He. cbn beta in H, He. rewrite (proj2 (Z.eqb_neq _ _) He) in H. destruct H. apply Herr; auto. }
  intros e v1 [H _] He. cbn beta in H, He. subst e. cbn in H. subst v1. eapply (from_step _ (λ r, r.1) _ (λ r, r.1)); [by apply mkdir_fetches| |].
  { intros r v1 [[[->|[_ ->]] _ _ _ _] [_ Hsm]] He; (apply Herr; [done| |done|done]); intros [? _]%Hsm; done. }
  intros r v1 [[Hv _ _ _ _] _] _. by assert (v1 = putHost ("/tmp/" +:+ x +:+ ".tmp") file v) as -> by (by destruct Hv as [->|[_ ->]]).
Qed.

(** The copy of the temporary file, and what the program concludes from its output. *)
Lemma copied_view T C P data v : cmdEffect (CopyIn T C P) (putHost T data v) = if decide (C ∈ up v) then putFile C P data (putHost T data v) else putHost T data v.
Proof. cbn [cmdEffect putHost hostFiles up]. by rewrite lookup_insert_eq. Qed.

Lemma upload_fetches c cr file P : name P = true →
  fetches (ServerCtrl.uploadTextFileToContainer c cr file P false)
    (λ e v v', up v' = up v ∧
       (e = NoError → cname c ∈ up v ∧ files v' = <[(cname c, rooted P) := file]> (files v)) ∧
       (files v' = files v ∨ cname c ∈ up v ∧ files v' = <[(cname c, rooted P) := file]> (files v)) ∧
       (Dependable ssh → cname c ∈ up v → e = NoError)).
Proof.
  intros HP. apply from_fetches. intros v. apply upload_begins; [done|by intros e v' He Hd -> ->; split; [done|]; split; [done|]; split; [by left|]|]. intros x HT. unfold ServerCtrl.copyIntoContainer.
  eapply (from_step _ (λ r, r.1) _ (λ r, r.1)); [by apply copy_fetches| |].
  { intros r v1 [[Hv _ _ _ _] [_ Hsm]] He. rewrite copied_view in Hv. assert (Dependable ssh → cname c ∈ up v → r.1 = NoError) by (by intros [? _]%Hsm).
    destruct Hv as [->|[_ ->]]; [case_decide|]; (split; [done|]; split; [done|]; split; [|done]); [by right|by left|by left]. }
  intros r v1 [[Hv _ _ Hc _] _] He. rewrite copied_view in Hv. destruct Hv as [->|[? _]]; [|done].
  eapply from_mono; [by apply finish_fetches|]. intros e v' [[Hu Hf] E].
  specialize (Hc _ He eq_refl). unfold complains in Hc. rewrite Hc in E. clear Hc. rewrite Hu, Hf. cbn [putHost up] in E |- *.
  destruct (decide (cname c ∈ up v)) as [Hup|Hup]; cbn [putFile up files putHost].
  - rewrite bool_decide_true in E by done. split; [done|]. split; [done|]. split; [by right|done].
  - rewrite bool_decide_false in E by done. subst e. split; [done|]. split; [done|]. split; [by left|by intros _ ?].
Qed.

(** Files the operations put down for a moment; the appended text stays in one of them. *)
Definition temporary (p : string) : bool := String.prefix "tmp/" p || containsText ".sh" p.

Definition settled (v v' : View) : Prop := up v' = up v ∧ ∀ C p, temporary p = false → files v' !! (C, p) = files v !! (C, p).

Lemma settled_refl v : settled v v. Proof. done. Qed.
Lemma settled_trans v1 v2 v3 : settled v1 v2 → settled v2 v3 → settled v1 v3.
Proof. intros [H1 H2] [H3 H4]. split; [congruence|]. intros C p Hp. by rewrite H4, H2. Qed.

Lemma settled_content v v' C P : settled v v' → temporary (rooted P) = false → content v' C P = content v C P.
Proof. intros [_ H] HP. unfold content. by rewrite H. Qed.

Lemma settled_put v v' C P d : settled v v' → settled (putFile C P d v) (putFile C P d v').
Proof.
  intros [Hu H]. split; [done|]. intros C' p Hp. cbn [putFile files]. destruct (decide ((C', p) = (C, rooted P))) as [->|Hne].
  - by rewrite !lookup_insert_eq.
  - rewrite !lookup_insert_ne by done. by apply H.
Qed.

Lemma settled_temporary v C p d : temporary (rooted p) = true → settled v (putFile C p d v).
Proof. intros Hp. split; [done|]. intros C' q Hq. cbn [putFile files]. rewrite lookup_insert_ne; [done|]. intros [= <- <-]. congruence. Qed.

Lemma tmp_temporary x : temporary (rooted ("/tmp/" +:+ x)) = true.
Proof. cbn [String.append rooted Ascii.eqb Bool.eqb]. unfold temporary. apply orb_true_iff. left. apply prefix_spec. by exists x. Qed.

(** What an append leaves behind: the file, and the text in the container's [/tmp]. *)
Definition appended (C P file : string) (v v' : View) : Prop := ∃ x,
  files v' = <[(C, rooted P) := content v C P +:+ file]> (<[(C, "tmp/" +:+ x +:+ ".tmp") := file]> (files v)).

Lemma appended_settled C P file v v' : up v' = up v → appended C P file v v' → temporary (rooted P) = false →
  settled (putFile C P (content v C P +:+ file) v) v'.
Proof.
  intros Hu [x Hf] HP. split; [done|]. intros C' p Hp. rewrite Hf. cbn [putFile files]. destruct (decide ((C, rooted P) = (C', p))) as [<-|Hne].
  - by rewrite !lookup_insert_eq.
  - rewrite !lookup_insert_ne; [done|done| |done]. intros [= _ E]. pose proof (tmp_temporary (x +:+ ".tmp")) as H. cbn in H. rewrite E in H. congruence.
Qed.

Lemma append_file_fetches c cr file P : name P = true → temporary (rooted P) = false →
  fetches (ServerCtrl.uploadTextFileToContainer c cr file P true)
    (λ e v v', up v' = up v ∧ (e = NoError → cname c ∈ up v ∧ appended (cname c) P file v v') ∧
       (settled v v' ∨ settled (putFile (cname c) P (content v (cname c) P +:+ file) v) v') ∧ (Dependable ssh → cname c ∈ up v → e = NoError)).
Proof.
  intros HP Ht. apply from_fetches. intros v. apply upload_begins; [done|by intros e v' He Hd Hu Hf; unfold settled; rewrite Hu, Hf; split; [done|]; split; [done|]; split; [by left|]|]. intros x HT. unfold ServerCtrl.copyIntoContainer.
  pose proof (tmp_temporary (x +:+ ".tmp")) as Htmp. change ("/tmp/" +:+ x +:+ ".tmp") with ("/tmp/" +:+ (x +:+ ".tmp")) in *. set (T := "/tmp/" +:+ (x +:+ ".tmp")) in *.
  set (C := cname c).
  assert (settled v (putHost T file v)) as Hs0 by done.
  eapply (from_step _ (λ r, r.1) _ (λ r, r.1)); [by apply copy_fetches| |].
  { intros r v1 [[Hv _ _ _ _] [_ Hsm]] He. rewrite copied_view in Hv. assert (settled v v1) as Hs.
    { destruct Hv as [->|[_ ->]]; [case_decide|]; [|done..]. by eapply settled_trans, settled_temporary. }
    split; [apply Hs|]. split; [done|]. split; [by left|]. by intros [? _]%Hsm. }
  intros r v1 [[Hv _ _ Hc _] _] He. rewrite copied_view in Hv. destruct Hv as [->|[? _]]; [|done]. specialize (Hc _ He eq_refl). cbn [putHost up] in Hc. fold C in Hc |- *.
  destruct (decide (C ∈ up v)) as [Hup|Hup].
  - (* the container is there *)
    rewrite bool_decide_true in Hc by done. cbn [negb] in Hc. set (v1 := putFile C T file (putHost T file v)).
    assert (settled v v1) as Hs1 by (by eapply settled_trans, settled_temporary).
    assert (cmdEffect (AppendIn T C P) v1 = putFile C P (content v C P +:+ file) v1) as Heff.
    { cbn [cmdEffect]. rewrite decide_True by done. f_equal. rewrite (settled_content v v1) by done. f_equal. unfold content, v1. cbn [putFile files]. by rewrite lookup_insert_eq. }
    assert (settled (putFile C P (content v C P +:+ file) v) (putFile C P (content v C P +:+ file) v1)) as Hs2 by (by apply settled_put).
    eapply (from_step _ (λ r, r.1) _ (λ r, r.1)); [by apply append_fetches| |].
    { intros r2 v2 [[Hv _ _ _ _] [_ Hsm]] He2. fold C in Hv. rewrite Heff in Hv. assert (Dependable ssh → C ∈ up v → r2.1 = NoError) by (by intros [? _]%Hsm).
      destruct Hv as [->|[_ ->]]; (split; [done|]; split; [done|]; split; [|done]); [by right|by left]. }
    intros r2 v2 [[Hv _ _ Hc2 _] [_ Hsm]] He2. fold C in Hv. rewrite Heff in Hv. destruct Hv as [->|[? _]]; [|done].
    eapply from_mono; [by apply finish_fetches|]. intros e v' [[Hu Hf] E]. split; [by rewrite Hu|]. split.
    + intros ->. split; [done|]. exists x. rewrite Hf. done.
    + split; [right; split; [by rewrite Hu|]; intros C' p Hp; rewrite Hf; by apply Hs2|].
      intros [_ Hq]%Hsm _. rewrite (Hq T C P eq_refl Hup), sapp_nil_r in E. unfold complains in Hc. by rewrite Hc in E.
  - (* there is no such container *)
    rewrite bool_decide_false in Hc by done. cbn [negb] in Hc.
    eapply (from_step _ (λ r, r.1) _ (λ r, r.1)); [by apply append_fetches| |].
    { intros r2 v2 [[Hv _ _ _ _] _] He2. fold C in Hv. cbn [cmdEffect] in Hv. rewrite decide_False in Hv by done.
      assert (v2 = (putHost T file v)) as -> by (by destruct Hv as [->|[_ ->]]). split; [done|]. split; [done|]. split; [by left|done]. }
    intros r2 v2 [[Hv _ _ Hc2 _] _] He2. fold C in Hv. cbn [cmdEffect] in Hv. rewrite decide_False in Hv by done.
    assert (v2 = (putHost T file v)) as -> by (by destruct Hv as [->|[_ ->]]). eapply from_mono; [by apply finish_fetches|]. intros e v' [[Hu Hf] E].
    unfold complains in Hc. apply andb_prop in Hc as [Hc1 Hc3]. rewrite (contains_app_l _ _ _ Hc1), (contains_app_l _ _ _ Hc3) in E. cbn [andb] in E.
    subst e. split; [by rewrite Hu|]. split; [done|]. split; [|done]. left. split; [by rewrite Hu|]. intros C' p Hp. by rewrite Hf.
Qed.

Lemma get_fetches c cr P : name P = true →
  fetches (ServerCtrl.getTextFileFromContainer c cr P)
    (λ r v v', v' = v ∧ (r.1 = NoError → cname c ∈ up v → r.2 = content v (cname c) P) ∧ (Dependable ssh → r.1 = NoError)).
Proof.
  intros HP. apply from_fetches. intros v. unfold ServerCtrl.getTextFileFromContainer.
  eapply from_bind; [apply (runScript_fetches cr (Dump (cname c) P)); names|]. intros r v1 [[Hv Ho _ _ _] [_ Hsm]]. cbn [cmdEffect] in Hv.
  assert (v1 = v) as -> by (by destruct Hv as [->|[_ ->]]). apply from_ret. split; [done|]. cbn [fst snd]. split; [|by intros [? _]%Hsm]. intros He Hup.
  by rewrite (Ho _ He (outputs_dump _ _ _ Hup)), fromHex_xxd.
Qed.

Lemma joined_app l1 l2 : joined (l1 ++ l2) = joined l1 +:+ joined l2.
Proof. induction l1 as [|x l1 IH]; [done|]. cbn [app joined foldr]. unfold joined in IH. by rewrite IH, sapp_assoc. Qed.

Lemma gatheredPlain_app l1 l2 : gatheredPlain (l1 ++ l2) = gatheredPlain l1 +:+ gatheredPlain l2.
Proof. unfold gatheredPlain. by rewrite map_app, joined_app. Qed.

Lemma prefix_empty s : String.prefix s "" = true → s = "".
Proof. rewrite prefix_spec. intros [t Ht]. by destruct s. Qed.

Lemma script_temporary x : temporary (rooted ("/opt/amnezia/" +:+ x +:+ ".sh")) = true.
Proof.
  cbn [String.append rooted Ascii.eqb Bool.eqb]. unfold temporary. apply orb_true_iff. right.
  change (containsText ".sh" ("opt/amnezia/" +:+ x +:+ ".sh") = true). by do 2 apply contains_app_r.
Qed.

Lemma outs_none l : Forall (λ x, chunkText x ≠ "") l → gatheredPlain l = "" → outs l = [].
Proof.
  rewrite outs_plain. induction 1 as [|[d|d] l Hd _ IH]; [done| |exact IH]. change (outs (StdOut d :: l)) with (d :: outs l).
  change (joined (d :: outs l)) with (d +:+ joined (outs l)). by destruct d.
Qed.

Lemma grep_fetches cr c P : c ≠ DockerContainer.Socks5Proxy → name P = true → temporary (rooted P) = false →
  fetches (ServerCtrl.runContainerScript cr c (grepScript P))
    (λ r v v', settled v v' ∧ (r.1 = NoError → cname c ∈ up v ∧ gatheredPlain r.2 = grepped (content v (cname c) P) ∧
                               ∃ F l l', r.2 = l ++ l' ∧ outs l' = [] ∧ issued (RunBash (cname c) F) l) ∧
               (Dependable ssh → cname c ∈ up v → r.1 = NoError)).
Proof.
  intros Hc HP Ht. apply from_fetches. intros v. unfold ServerCtrl.runContainerScript.
  eapply from_bind; [apply random_fetches|]. intros x v1 [(Hx & _) ->]. pose proof (script_temporary x) as HF.
  assert (name ("/opt/amnezia/" +:+ x +:+ ".sh") = true) as HN by (unfold name; rewrite !all_chars_app, Hx; by rewrite !andb_true_r).
  set (F := "/opt/amnezia/" +:+ x +:+ ".sh") in *. set (C := cname c) in *.
  eapply (from_step _ (λ e, e) _ (λ e, (e, []))); [by apply upload_fetches| |].
  { intros e v1 (Hu & _ & Hf & Hd) He. split; [|split; [done|by intros ? ?%Hd]]. split; [done|]. intros C' p Hp. fold C in Hf. destruct Hf as [->|[_ ->]]; [done|].
    apply lookup_insert_ne. intros E%(f_equal snd). cbn [snd] in E. congruence. }
  intros e v1 (Hu & Hok & _) He. destruct (Hok He) as [Hup Hf]. fold C in Hup, Hf. clear e Hok He. rewrite decide_False by done.
  assert (settled v v1) as Hs1.
  { split; [done|]. intros C' p Hp. rewrite Hf. apply lookup_insert_ne. intros E%(f_equal snd). cbn [snd] in E. congruence. }
  eapply from_bind; [by apply bash_fetches|]. intros r v2 [[Hv Ho _ _ Hne] [Hiss Hsm]]. fold C in Hv, Ho. assert (v2 = v1) as -> by (by destruct Hv as [->|[_ ->]]). clear Hv.
  eapply from_bind; [by apply rm_fetches|]. intros r' v2 [[Hv _ Hpre _ Hne'] _]. apply from_ret. cbn [fst snd]. split.
  { eapply settled_trans; [done|]. destruct Hv as [->|[_ ->]]; [|done]. cbn [cmdEffect]. case_decide; [|done].
    split; [done|]. intros C' p Hp. cbn [files]. apply lookup_delete_ne. intros E%(f_equal snd). cbn [snd] in E. congruence. }
  split; [|by intros [? _]%Hsm]. intros He. split; [done|]. pose proof (prefix_empty _ (Hpre _ (outputs_remove _ _ _))) as Hempty. rewrite gatheredPlain_app, Hempty, sapp_nil_r.
  split; [|exists F, r.2, r'.2; split; [done|]; split; [by apply outs_none|done]]. rewrite <- (settled_content v v1 C P) by done. apply (Ho _ He). apply outputs_grep; [done|by rewrite Hu|].
  rewrite Hf. by rewrite lookup_insert_eq.
Qed.

End Logic.
