(* ===== verification/SimRemote.v ===== *)
(** * A server that runs the commands

    An instance of the classes of [RemoteServer.v] and [RemoteSpec.v]: the commands are read
    back from their texts and act on a [View].  The output comes in chunks of a given
    length. *)

From stdpp Require Import prelude strings list gmap pretty.
From Stdlib Require Import ZArith Lia Ascii.
From S2P Require Import Prelude QtJson InterfaceConfig LineProtocol QtText SecureSettings SplitTunnel Containers ServerSettings ServersModel OpenVpn RemoteServer RemoteSpec.

Local Open Scope Z_scope.

Module SimRemote.

(** ** Words *)

Definition cmdWords (c : Cmd) : list string :=
  match c with
  | CopyIn T C P => ["sudo"; "docker"; "cp"; T; C +:+ ":/" +:+ P]
  | AppendIn T C P => ["sudo"; "docker"; "exec"; "-i"; C; "sh"; "-c"; quote +:+ "cat"; T; ">>"; P +:+ quote]
  | MakeDir C P => ["sudo"; "docker"; "exec"; "-i"; C; "mkdir"; "-p"; ""; quote +:+ "$(dirname"; P +:+ ")" +:+ quote]
  | Dump C P => ["sudo"; "docker"; "exec"; "-i"; C; "sh"; "-c"; quote +:+ "xxd"; "-p"; "'" +:+ P +:+ "'" +:+ quote]
  | RunBash C F => ["sudo"; "docker"; "exec"; "-i"; C; "bash"; F; ""]
  | RemoveFile C F => ["sudo"; "docker"; "exec"; "-i"; C; "rm"; F; ""]
  | Shred T => ["sudo"; "shred"; "-u"; T]
  | SyncConf C P => ["sudo"; "docker"; "exec"; "-i"; C; "bash"; "-c"; "'wg"; "syncconf"; "wg0"; "<(wg-quick"; "strip"; P +:+ ")" +:+ "'"]
  | WgShow C => ["sudo"; "docker"; "exec"; "-i"; C; "bash"; "-c"; "'wg"; "show"; "all'"]
  end.

Definition parseInside (C : string) (ws : list string) : option Cmd :=
  match ws with
  | ["sh"; "-c"; _; T; _; P] => Some (AppendIn T C (chop P))
  | ["sh"; "-c"; _; _; P] => Some (Dump C (chop (chop (dropFirst P))))
  | ["mkdir"; _; _; _; P] => Some (MakeDir C (chop (chop P)))
  | ["bash"; F; _] => Some (RunBash C F)
  | ["rm"; F; _] => Some (RemoveFile C F)
  | [_; _; _; _; _; _; _; P] => Some (SyncConf C (chop (chop P)))
  | [_; _; _; _; _] => Some (WgShow C)
  | _ => None
  end.

Definition parseWords (ws : list string) : option Cmd :=
  match ws with
  | ["sudo"; "docker"; _; T; CP] => match splitText ":/" CP with [C; P] => Some (CopyIn T C P) | _ => None end
  | "sudo" :: "docker" :: _ :: _ :: C :: ws => parseInside C ws
  | [_; _; _; T] => Some (Shred T)
  | _ => None
  end.

Lemma words_text c : cmdText c = join " " (cmdWords c).
Proof. by destruct c. Qed.

Lemma parse_words c : named c = true → parseWords (cmdWords c) = Some c.
Proof.
  intros Hn. destruct c; cbn [cmdWords parseWords parseInside]; unfold quote; rewrite <- ?sapp_assoc, ?chop_app; try done.
  - rewrite sapp_assoc. unfold named in Hn. cbn [cmdNames forallb] in Hn. rewrite !andb_true_iff in Hn. destruct Hn as (_ & HC & HP & _).
    rewrite split_skip by (by apply name_no). rewrite split_none; [done|]. by apply contains_absent, name_no.
  - cbn [String.append dropFirst]. by rewrite !chop_app.
Qed.

Lemma words_spaces c : named c = true → Forall (λ w, has_char " " w = false) (cmdWords c).
Proof.
  intros Hn. assert (∀ n, n ∈ cmdNames c → has_char " " n = false) as H.
  { intros n Hin%list_elem_of_In. apply name_no; [done|]. by apply (proj1 (forallb_forall _ _) Hn). }
  destruct c; cbn [cmdNames cmdWords] in *; repeat (apply Forall_cons; split); try apply Forall_nil_2; try done; rewrite ?has_char_app;
    repeat match goal with |- context [has_char " " ?v] => is_var v; rewrite (H v) by set_solver end; done.
Qed.

Definition parseCmd (s : string) : option Cmd := parseWords (splitText " " s).

Lemma parse_cmdText c : named c = true → parseCmd (cmdText c) = Some c.
Proof.
  intros Hn. unfold parseCmd. rewrite words_text, split_join; [by apply parse_words|by destruct c|by apply words_spaces].
Qed.

(** ** The server *)

(** Pieces of [n + 1] characters; [k] more belong to the first one. *)
Fixpoint pieces (n k : nat) (s : string) : list string :=
  match s with
  | EmptyString => []
  | String a s =>
      match s, k with
      | EmptyString, _ => [String a ""]
      | _, O => String a "" :: pieces n n s
      | _, S k => cons_part a (pieces n k s)
      end
  end.

Lemma pieces_spec n k s : joined (pieces n k s) = s ∧ Forall (λ x, x ≠ "") (pieces n k s).
Proof.
  revert k. induction s as [|a s IH]; intros k; [done|]. cbn [pieces]. destruct s as [|b s]; [by split; [|constructor]|]. destruct k as [|k].
  - destruct (IH n) as [H1 H2]. split; [|by constructor]. change (String a "" +:+ joined (pieces n n (String b s)) = String a (String b s)). by rewrite H1.
  - destruct (IH k) as [H1 H2]. destruct (pieces n k (String b s)) as [|x l]; [done|]. cbn [cons_part]. split.
    + change (String a (joined (x :: l)) = String a (String b s)). by rewrite H1.
    + inversion H2. by constructor.
Qed.

Record Host := mkHost { h_view : View; h_chunk : nat }.

Definition World : Type := Sys Host SimSecrets.World.

(** The file a script of [grepScript] reads. *)
Definition grepTarget (script : string) : option string :=
  match splitText " " script with [_; P; _; _; "AllowedIPs"] => Some P | _ => None end.

Lemma grepTarget_script P : name P = true → grepTarget (grepScript P) = Some P.
Proof.
  intros HP. unfold grepTarget. change (grepScript P) with (join " " ["cat"; P; "|"; "grep"; "AllowedIPs"]). rewrite split_join; [done|done|].
  repeat (apply Forall_cons; split); try done. by apply name_no.
Qed.

Definition stdout (c : Cmd) (v : View) : string :=
  match c with
  | Dump C P => if decide (C ∈ up v) then xxd (content v C P) else ""
  | RunBash C F =>
      if decide (C ∈ up v) then
        match files v !! (C, rooted F) with
        | Some script => match grepTarget script with Some P => grepped (content v C P) | None => "" end
        | None => ""
        end
      else ""
  | _ => ""
  end.

Definition stderr (c : Cmd) (v : View) : list Chunk :=
  match copiesTo c with
  | Some C => if decide (C ∈ up v) then [] else [StdErr "Error: No such container"]
  | None => []
  end.

(** How outputs are cut. *)
Definition Cutting := nat → string → list string.
Definition exact (cut : Cutting) : Prop := ∀ n s, joined (cut n s) = s ∧ Forall (λ x, x ≠ "") (cut n s).

Definition byLength : Cutting := λ n, pieces n n.
Definition inOne : Cutting := λ _ s, if String.eqb s "" then [] else [s].

Lemma byLength_exact : exact byLength.
Proof. intros n s. apply pieces_spec. Qed.
Lemma inOne_exact : exact inOne.
Proof. intros n s. unfold inOne. destruct (String.eqb_spec s "") as [->|Hs]; [done|]. split; [|by constructor]. apply sapp_nil_r. Qed.

Definition perform (cut : Cutting) (command : string) (h : Host) : (Z * list Chunk) * Host :=
  match parseCmd command with
  | Some c => ((NoError, map StdOut (cut (h_chunk h) (stdout c (h_view h))) ++ stderr c (h_view h)),
               mkHost (cmdEffect c (h_view h)) (h_chunk h))
  | None => ((NoError, []), h)
  end.

Definition sshCutting (cut : Cutting) : Ssh World := {|
  connectToHost _ w := (NoError, w);
  executeCommand _ command w := let '(r, h) := perform cut command (globals w) in (r, mkSys h (world w));
  scpFileCopy _ data T w := (NoError, mkSys (mkHost (putHost T data (h_view (globals w))) (h_chunk (globals w))) (world w));
  randomIndex w := (7, w);
  hostAddresses _ _ := [];
  sleepWhileBusy w := (false, w);
|}.

#[global] Instance ssh : Ssh World := sshCutting byLength.

(** The same server, with every output in one chunk. *)
Definition sshWhole : Ssh World := sshCutting inOne.

#[global] Instance secrets : SecretEnv World := liftedSecrets SimSecrets.env.

#[global] Instance machine : Machine World := { view w := h_view (globals w) }.

#[global] Instance resources : Resources := { resource _ := None }.

Lemma plain_out l : gatheredPlain (map StdOut l) = joined l.
Proof. unfold gatheredPlain. rewrite map_map. by rewrite map_id. Qed.

Lemma performed cut c h : exact cut → named c = true →
  let '((e, l), h') := perform cut (cmdText c) h in ran c e l (h_view h) (h_view h').
Proof.
  intros Hcut Hn. unfold perform. rewrite parse_cmdText by done. cbn [h_view]. destruct (Hcut (h_chunk h) (stdout c (h_view h))) as [Hj Hne].
  set (v := h_view h) in *. assert (∀ o, outputs c v o → gatheredPlain (map StdOut (cut (h_chunk h) (stdout c v)) ++ stderr c v) = o) as Ho.
  { intros o Hc. rewrite gatheredPlain_app, plain_out, Hj. destruct Hc; cbn [stdout stderr copiesTo].
    - by rewrite decide_True, sapp_nil_r.
    - rewrite decide_True by done. by rewrite H1, grepTarget_script, sapp_nil_r.
    - done. }
  split.
  - by left.
  - auto.
  - intros o Hc. rewrite (Ho _ Hc). apply prefix_spec. exists "". by rewrite sapp_nil_r.
  - intros C _ HC. unfold stderr. rewrite HC. assert (stdout c v = "") as Hs by (by destruct c). rewrite Hs in *.
    assert (cut (h_chunk h) "" = []) as -> by (destruct (cut (h_chunk h) "") as [|x l]; [done|]; by inversion Hne; destruct x). cbn [map app].
    case_decide; [by rewrite bool_decide_true|by rewrite bool_decide_false].
  - apply Forall_app. split; [by apply Forall_map|]. unfold stderr. destruct (copiesTo c); [|done]. case_decide; [done|]. by constructor.
Qed.

Lemma cutting_laws cut : exact cut → MachineLaws (ssh := sshCutting cut) machine.
Proof.
  intros Hcut. split; try done. intros reply c w Hn. pose proof (performed cut c (globals w) Hcut Hn) as H. cbn [executeCommand sshCutting].
  by destruct (perform cut (cmdText c) (globals w)) as [[e l] h].
Qed.

Lemma cutting_dependable cut : exact cut → Dependable (machine := machine) (sshCutting cut).
Proof.
  intros Hcut. split; try done.
  - intros reply command w. cbn [executeCommand sshCutting]. unfold perform. by destruct (parseCmd command).
  - intros reply T C P w Hn HC. cbn [executeCommand sshCutting]. unfold perform. rewrite parse_cmdText by done. cbn [fst snd stdout stderr copiesTo].
    rewrite decide_True by done. destruct (Hcut (h_chunk (globals w)) "") as [Hj Hne]. destruct (cut (h_chunk (globals w)) "") as [|x l]; [done|]. by inversion Hne; destruct x.
Qed.

#[global] Instance laws : MachineLaws machine := cutting_laws byLength byLength_exact.
#[global] Instance dependable : Dependable ssh := cutting_dependable byLength byLength_exact.
Definition wholeLaws : MachineLaws (ssh := sshWhole) machine := cutting_laws inOne inOne_exact.

(** A server with one container, and a client with empty settings. *)
Definition started (C : string) (fs : gmap (string * string) string) (chunk : nat) : Sys Server World :=
  mkSys (mkServer (mkSecure ∅ ∅ "" "") false) (mkSys (mkHost (mkView {[C]} fs ∅) chunk) (SimSecrets.mkWorld ∅ false)).

Lemma started_plain C fs chunk : plain (started C fs chunk).
Proof. intros k b _. cbn. by rewrite lookup_empty. Qed.

End SimRemote.
