(* ===== verification/RemoteCorrect.v ===== *)
(** * What the controller of a server guarantees

    Theorems about [RemoteServer.v]: which commands a script becomes, files that are read
    back as they were written, what appending leaves behind, and how long an installation
    waits for the package manager. *)

From stdpp Require Import prelude strings list gmap pretty.
From Stdlib Require Import ZArith Lia Ascii.
From S2P Require Import Prelude QtJson InterfaceConfig LineProtocol QtText SecureSettings SplitTunnel SplitTunnelSpec Containers ServerSettings ServersModel ServersCorrect RemoteServer RemoteSpec SimRemote.

Local Open Scope Z_scope.

(** ** Scripts *)

Definition lineText (s : string) : Prop := s ≠ "" ∧ has_char newline_char s = false ∧ has_char (ascii_of_nat 13) s = false.

(** The lines of one command: each but the last goes on in the next. *)
Definition block (ls : list string) : Prop :=
  ∃ init last, ls = init ++ [last] ∧ Forall (λ l, endsWithChar "\" l = true) init ∧ endsWithChar "\" last = false.

(** The commands of a script: comments are left out. *)
Definition commandsOf (blocks : list (list string)) : list string :=
  List.filter (λ c, negb (String.prefix "#" c)) (map (join nl) blocks).

Lemma join_empty l : Forall lineText l → String.eqb (join nl l) "" = true → l = [].
Proof.
  intros [|x l' [Hx _] _]; [done|]. intros E%String.eqb_eq. destruct x as [|a x]; [done|]. by destruct l'.
Qed.

Section Scripts.
  Context {W : Type} {secrets : SecretEnv W} {te : TextEnv} {text : ArrayText} {ssh : Ssh W} {res : Resources}.

(** The line gathered so far, with the next one. *)
Lemma gathered_line acc x : Forall lineText acc →
  (if String.eqb (join nl acc) "" then x else join nl acc +:+ nl +:+ x) = join nl (acc ++ [x]).
Proof.
  intros Hacc. destruct (String.eqb _ "") eqn:E; [by rewrite (join_empty acc Hacc E)|]. rewrite join_snoc; [done|]. by intros ->.
Qed.

Lemma runLines_continued reply acc init ls : Forall lineText acc → Forall lineText init → Forall (λ l, endsWithChar "\" l = true) init →
  ServerCtrl.runLines (W := W) reply (join nl acc) (init ++ ls) = ServerCtrl.runLines reply (join nl (acc ++ init)) ls.
Proof.
  intros Hacc Hinit Hends. revert acc Hacc. induction Hinit as [|x init Hx Hinit IH]; intros acc Hacc; [by rewrite app_nil_r|].
  inversion Hends as [|? ? Hxe Hends']; subst. cbn [app ServerCtrl.runLines]. rewrite Hxe, gathered_line by done.
  rewrite IH; [by rewrite <- app_assoc|done|]. apply Forall_app. split; [done|]. by constructor.
Qed.

Lemma runLines_block reply ls rest : block ls → Forall lineText ls →
  ServerCtrl.runLines (W := W) reply "" (ls ++ rest) =
  if String.prefix "#" (join nl ls) then ServerCtrl.runLines reply "" rest
  else
    r ← ServerCtrl.execute reply (join nl ls);
    if negb (r.1 =? NoError) then mret r
    else r' ← ServerCtrl.runLines reply "" rest; mret (r'.1, r.2 ++ r'.2).
Proof.
  intros (init & last & -> & Hends & Hlast) [Hinit Hl]%Forall_app. change "" with (join nl []) at 1. rewrite <- app_assoc.
  rewrite runLines_continued by done. cbn [app ServerCtrl.runLines]. by rewrite Hlast, gathered_line.
Qed.

(** Commands sent one after the other up to the first that fails: the error and the chunks,
    the server, and how many were sent. *)
Fixpoint sendAll (reply : string → option string) (commands : list string) (w : W) : (Z * list Chunk) * W * nat :=
  match commands with
  | [] => (NoError, [], w, 0%nat)
  | c :: commands =>
      let '(r, w1) := executeCommand reply c w in
      if r.1 =? NoError then let '(r', w2, n) := sendAll reply commands w1 in (r'.1, r.2 ++ r'.2, w2, S n)
      else (r, w1, 1%nat)
  end.

Lemma runLines_sends reply blocks rest s : Forall block blocks → Forall (Forall lineText) blocks →
  Forall lineText rest → Forall (λ l, endsWithChar "\" l = true) rest →
  ServerCtrl.runLines reply "" (concat blocks ++ rest) s =
    let '(r, w, n) := sendAll reply (commandsOf blocks) (world s) in (Ok r, mkSys (globals s) w, map RsCommand (take n (commandsOf blocks))).
Proof.
  intros Hb Hl Hr Hends. revert s. induction Hb as [|ls blocks Hls Hb IH]; intros s.
  - cbn [concat app]. rewrite <- (app_nil_r rest). change "" with (join nl []) at 1. rewrite runLines_continued by done. by destruct s.
  - inversion Hl as [|? ? Hll Hl']; subst. cbn [concat]. rewrite <- app_assoc, runLines_block by done. unfold commandsOf in *. cbn [map List.filter].
    destruct (String.prefix "#" (join nl ls)); cbn [negb]; [by apply IH|]. cbn [sendAll]. unfold mbind, M_bind, ServerCtrl.execute, ask.
    destruct (executeCommand reply (join nl ls) (world s)) as [r w]. destruct (r.1 =? NoError); cbn [negb]; [|done].
    rewrite IH by done. cbn [world globals]. destruct (sendAll reply _ w) as [[r' w2] n]. cbn [take map app]. unfold mret, M_ret. by rewrite app_nil_r.
Qed.

(** [C15] A script runs as its commands: the lines of a command that go on with a backslash
    are joined, comments are skipped, and the commands are sent in order up to the first
    that fails, whose error is the result; the output is that of the commands sent.  Lines
    that end with a backslash at the end of the script are sent to nobody. *)
Theorem script_commands cr blocks rest s : Forall block blocks → Forall (Forall lineText) blocks →
  Forall lineText rest → Forall (λ l, endsWithChar "\" l = true) rest → concat blocks ++ rest ≠ [] →
  (connectToHost cr (world s)).1 = NoError →
  ServerCtrl.runScript cr (join nl (concat blocks ++ rest)) s =
    let '(r, w, n) := sendAll (λ _, None) (commandsOf blocks) (connectToHost cr (world s)).2 in
    (Ok r, mkSys (globals s) w, RsConnect cr :: map RsCommand (take n (commandsOf blocks))).
Proof.
  intros Hb Hl Hr Hends Hne Hc. assert (Forall lineText (concat blocks ++ rest)) as Hall.
  { apply Forall_app. split; [by apply Forall_concat|done]. }
  unfold ServerCtrl.runScript, ServerCtrl.runScriptWith. rewrite replace_absent.
  2: { apply contains_absent. induction Hall as [|x ls (_ & _ & Hx) _ IH]; [done|]. destruct ls as [|y ls]; [done|].
       change (join nl (x :: y :: ls)) with (x +:+ nl +:+ join nl (y :: ls)). rewrite !has_char_app, Hx. cbn. by apply IH. }
  unfold nl. rewrite split_join; [|done|by eapply Forall_impl; [done|]; intros x (_ & ? & _)].
  assert (skipEmpty (concat blocks ++ rest) = concat blocks ++ rest) as ->.
  { clear -Hall. induction Hall as [|x ls (Hx & _) _ IH]; [done|]. by rewrite skipEmpty_cons, IH. }
  unfold mbind, M_bind, ask. destruct (connectToHost cr (world s)) as [e w]. cbn [fst] in Hc. subst e. cbn [negb Z.eqb NoError].
  rewrite (runLines_sends (λ _, None) blocks rest (mkSys (globals s) w) Hb Hl Hr Hends). cbn [world globals snd]. by destruct (sendAll _ _ w) as [[r w2] n].
Qed.

End Scripts.

Lemma script_commands_witness :
  let s := SimRemote.started "c" ∅ 5 in
  ServerCtrl.runScript (mkCredentials "h" "root" "p" 22) (join nl (concat [["docker run \"; "--name x"]; ["# note"]; ["ls"]] ++ ["echo \"])) s =
    let '(r, w, n) := sendAll (λ _, None) (commandsOf [["docker run \"; "--name x"]; ["# note"]; ["ls"]]) (connectToHost (mkCredentials "h" "root" "p" 22) (world s)).2 in
    (Ok r, mkSys (globals s) w, RsConnect (mkCredentials "h" "root" "p" 22) :: map RsCommand (take n (commandsOf [["docker run \"; "--name x"]; ["# note"]; ["ls"]]))).
Proof.
  apply script_commands; try done.
  - repeat apply List.Forall_cons; [by exists ["docker run \"], "--name x"; repeat constructor|by exists [], "# note"|by exists [], "ls"|constructor].
  - by repeat constructor.
  - by repeat constructor.
  - by repeat constructor.
Defined.

(** ** Files *)

Section Files.
  Context {W : Type} {secrets : SecretEnv W} {te : TextEnv} {text : ArrayText} {ssh : Ssh W} {res : Resources}.
  Context {machine : Machine W} {laws : MachineLaws machine}.

(** [C14] A file put into a container is read back as it was written, and no other file of
    the containers changes; without the container the upload reports an error.  If the
    connection does not break and the container is there, both succeed. *)
Theorem upload_roundtrip c cr file P s : plain s → name P = true →
  ∃ e s1 t1, ServerCtrl.uploadTextFileToContainer c cr file P false s = (Ok e, s1, t1) ∧
    (Dependable ssh → cname c ∈ up (view (world s)) → e = NoError) ∧
    (e = NoError → cname c ∈ up (view (world s)) ∧
      ∃ r s2 t2, ServerCtrl.getTextFileFromContainer c cr P s1 = (Ok r, s2, t2) ∧ (Dependable ssh → r.1 = NoError) ∧ (r.1 = NoError → r.2 = file) ∧
        ∀ C p, (C, p) ≠ (cname c, rooted P) → files (view (world s2)) !! (C, p) = files (view (world s)) !! (C, p)).
Proof.
  intros Hs HP. destruct (upload_fetches c cr file P HP s Hs) as (e & s1 & t1 & E1 & Hs1 & Hu & Hok & _ & Hd).
  exists e, s1, t1. split; [done|]. split; [done|]. intros He. destruct (Hok He) as [Hup Hf]. split; [done|].
  destruct (get_fetches c cr P HP s1 Hs1) as (r & s2 & t2 & E2 & _ & Hv & Hr & Hd2). exists r, s2, t2. split; [done|]. split; [done|]. split.
  - intros Hr1. rewrite Hr by (done || by rewrite Hu). unfold content. by rewrite Hf, lookup_insert_eq.
  - intros C p Hne. by rewrite Hv, Hf, lookup_insert_ne.
Qed.

(** Appending to a file of a container adds the text at its end.  A copy of the text
    stays in the directory [/tmp] of the container: only the copy on the host is shredded. *)
Theorem append_leaves_copy c cr file P s : plain s → name P = true → temporary (rooted P) = false →
  ∃ e s1 t1, ServerCtrl.uploadTextFileToContainer c cr file P true s = (Ok e, s1, t1) ∧
    (e = NoError → content (view (world s1)) (cname c) P = content (view (world s)) (cname c) P +:+ file ∧
      ∃ x, files (view (world s1)) !! (cname c, "tmp/" +:+ x +:+ ".tmp") = Some file).
Proof.
  intros Hs HP Ht. destruct (append_file_fetches c cr file P HP Ht s Hs) as (e & s1 & t1 & E1 & _ & _ & Hok & _).
  exists e, s1, t1. split; [done|]. intros He. destruct (Hok He) as [_ [x Hf]]. unfold content at 1. rewrite Hf. split; [by rewrite lookup_insert_eq|].
  exists x. rewrite lookup_insert_ne, lookup_insert_eq; [done|]. intros E%(f_equal snd). cbn [snd] in E. rewrite E in Ht.
  by pose proof (tmp_temporary (x +:+ ".tmp")) as H; cbn in H, Ht; rewrite H in Ht.
Qed.

End Files.

Lemma upload_roundtrip_witness :
  ∃ s1 t1, ServerCtrl.uploadTextFileToContainer DockerContainer.Awg (mkCredentials "h" "root" "p" 22) "data" "/opt/amnezia/awg/x"
      false (SimRemote.started "amnezia-awg" ∅ 5) = (Ok NoError, s1, t1) ∧
    ∃ s2 t2, ServerCtrl.getTextFileFromContainer DockerContainer.Awg (mkCredentials "h" "root" "p" 22) "/opt/amnezia/awg/x" s1 = (Ok (NoError, "data"), s2, t2).
Proof.
  destruct (upload_roundtrip DockerContainer.Awg (mkCredentials "h" "root" "p" 22) "data" "/opt/amnezia/awg/x" (SimRemote.started "amnezia-awg" ∅ 5)
    (SimRemote.started_plain _ _ _) eq_refl) as (e & s1 & t1 & E1 & Hd & Hok).
  assert (e = NoError) as -> by (apply Hd; [apply SimRemote.dependable|by vm_compute]).
  exists s1, t1. split; [exact E1|]. destruct (Hok eq_refl) as (_ & [e2 d] & s2 & t2 & E2 & Hd2 & Hr & _). cbn [fst snd] in *.
  rewrite (Hr (Hd2 SimRemote.dependable)), (Hd2 SimRemote.dependable) in E2. by exists s2, t2.
Defined.

(** ** Waiting for the package manager *)

Definition isConnect (e : RsEvent) : bool := match e with RsConnect _ => true | _ => false end.

(** Every attempt starts with a connection. *)
Definition attempts (t : list RsEvent) : nat := length (List.filter isConnect t).

Lemma attempts_app t1 t2 : attempts (t1 ++ t2) = (attempts t1 + attempts t2)%nat.
Proof. unfold attempts. by rewrite List.filter_app, length_app. Qed.

Lemma attempts_none t : Forall (λ e, isConnect e = false) t → attempts t = 0%nat.
Proof. unfold attempts. induction 1 as [|e t He _ IH]; [done|]. cbn. by rewrite He. Qed.

Section Waiting.
  Context {W : Type} {secrets : SecretEnv W} {te : TextEnv} {text : ArrayText} {ssh : Ssh W} {res : Resources}.

Lemma settings_quiet {A} (m : Servers.SetM W A) : emits (λ e, isConnect e = false) (ServerCtrl.settings m).
Proof.
  intros s. unfold wp, ServerCtrl.settings. destruct (m _) as [[r s'] t]. apply Forall_map. by apply Forall_true.
Qed.

Lemma genVars_quiet cr c cfg : emits (λ e, isConnect e = false) (ServerCtrl.genVarsForScript cr c cfg).
Proof.
  unfold ServerCtrl.genVarsForScript, ServerCtrl.getIPAddress.
  apply emits_bind; [apply settings_quiet|intros primary]. apply emits_bind; [apply settings_quiet|intros secondary].
  apply emits_bind; [|intros ip; apply emits_ret]. destruct (matchesAddress _); [apply emits_ret|].
  apply emits_bind; [apply emits_query|intros a; apply emits_ret].
Qed.

Lemma runLines_quiet reply total ls s : ∃ r w t, ServerCtrl.runLines (W := W) reply total ls s = (Ok r, mkSys (globals s) w, t) ∧ attempts t = 0%nat.
Proof.
  revert total s. induction ls as [|l ls IH]; intros total s; cbn [ServerCtrl.runLines].
  - destruct s as [g w]. by eexists _, w, _.
  - set (total' := if String.eqb total "" then l else total +:+ nl +:+ l). destruct (endsWithChar "\" l); [apply IH|].
    destruct (String.prefix "#" total'); [apply IH|]. unfold ServerCtrl.execute, ask, mbind, M_bind.
    destruct (executeCommand reply total' (world s)) as [[e out] w]. cbn [fst snd globals]. destruct (negb _); [by eexists _, w, _|].
    destruct (IH "" (mkSys (globals s) w)) as (r & w' & t & E & Ht). rewrite E. eexists _, w', _. split; [reflexivity|].
    rewrite app_nil_r. cbn [app]. unfold attempts in *. by cbn.
Qed.

Lemma runFor_once cr c cfg script s : plain s →
  ∃ r s' t, ServerCtrl.runFor cr c cfg script s = (Ok r, s', t) ∧ plain s' ∧ attempts t = 1%nat.
Proof.
  intros Hs. pose (M := {| view := λ _ : W, mkView ∅ ∅ ∅ |}).
  destruct (genVars_fetches (machine := M) cr c cfg s Hs) as (vars & s1 & t1 & E1 & Hs1 & _).
  pose proof (genVars_quiet cr c cfg s) as Hq. unfold wp in Hq. rewrite E1 in Hq. unfold ServerCtrl.runFor, ServerCtrl.runScript, ServerCtrl.runScriptWith.
  destruct (connectToHost cr (world s1)) as [e w] eqn:Ec.
  assert (∃ r s' t, (error ← ask (connectToHost cr) (λ _, RsConnect cr);
    if negb (error =? NoError) then mret (error, [])
    else ServerCtrl.runLines (λ _, None) "" (skipEmpty (splitText nl (replaceText carriage_return "" (ServerCtrl.replaceVars script vars))))
      : ServerCtrl.RM W _) s1 = (Ok r, s', t) ∧ plain s' ∧ attempts t = 1%nat) as (r & s' & t & E & Hs' & Ht).
  { unfold ask, mbind, M_bind. rewrite Ec. destruct (negb _); [by eexists _, _, _|].
    destruct (runLines_quiet (λ _, None) "" (skipEmpty (splitText nl (replaceText carriage_return "" (ServerCtrl.replaceVars script vars)))) (mkSys (globals s1) w)) as (r & w' & t & E & Ht).
    rewrite E. eexists _, _, _. split; [reflexivity|]. split; [done|]. unfold attempts in *. cbn. by rewrite Ht. }
  exists r, s', (t1 ++ t). split; [by eapply run_bind|]. split; [done|]. rewrite attempts_app, Ht. by rewrite attempts_none.
Qed.

Lemma verdict_cases out e : ServerCtrl.dpkgVerdict out = Some e → e = NoError ∨ e = ServerPacketManagerError.
Proof. unfold ServerCtrl.dpkgVerdict. repeat case_match; intros [= <-]; auto. Qed.

(** The wait between two attempts. *)
Lemma busy_runs (k : ServerCtrl.RM W Z) s : plain s → ∃ s2, plain s2 ∧
  (emit (RsBusy true);; asked ← ServerCtrl.draw sleepWhileBusy; when asked (ServerCtrl.setCancel true);; k : ServerCtrl.RM W Z) s =
  let '(r, s', t) := k s2 in (r, s', RsBusy true :: t).
Proof.
  intros Hs. unfold emit, ServerCtrl.draw, ServerCtrl.setCancel, when, modify, mbind, M_bind, mret, M_ret.
  destruct (sleepWhileBusy (world s)) as [asked w]. destruct asked; cbn [globals world].
  - exists (mkSys (mkServer (sv_settings (globals s)) true) w). split; [done|]. by destruct (k _) as [[? ?] ?].
  - exists (mkSys (globals s) w). split; [done|]. by destruct (k _) as [[? ?] ?].
Qed.

Lemma wait_bounded cr n s : plain s →
  ∃ e s' t, ServerCtrl.waitForDpkg cr n s = (Ok e, s', t) ∧ plain s' ∧ (attempts t ≤ n)%nat ∧
    (e = NoError ∧ (1 ≤ attempts t)%nat ∨ e = ServerPacketManagerError ∨ e = ServerCancelInstallation).
Proof.
  revert s. induction n as [|n IH]; intros s Hs; cbn [ServerCtrl.waitForDpkg].
  { exists ServerPacketManagerError, s, []. split; [done|]. split; [done|]. split; [done|auto]. }
  unfold gets at 1, mbind at 1, M_bind at 1. destruct (m_cancelInstallation (globals s)).
  { exists ServerCancelInstallation, s, []. split; [done|]. split; [done|]. split; [cbn; lia|auto]. }
  destruct (runFor_once cr DockerContainer.None [] (sharedScriptData check_server_is_busy) s Hs) as (r & s1 & t1 & E1 & Hs1 & Ht1).
  destruct (ServerCtrl.dpkgVerdict (gathered true r.2)) as [e|] eqn:Ev.
  - erewrite (run_bind _ _ _ _ _ _ (Ok e) s1 [] E1) by (by rewrite Ev). rewrite app_nil_r. exists e, s1, t1. split; [done|]. split; [done|].
    split; [lia|]. destruct (verdict_cases _ _ Ev) as [->| ->]; [left; lia|auto].
  - destruct (busy_runs (ServerCtrl.waitForDpkg cr n) s1 Hs1) as (s2 & Hs2 & Hb). destruct (IH s2 Hs2) as (e & s' & t & E & Hs' & Ht & He).
    rewrite E in Hb. erewrite (run_bind _ _ _ _ _ _ (Ok e) s' (RsBusy true :: t) E1) by (by rewrite Ev). exists e, s', (t1 ++ RsBusy true :: t). split; [done|].
    split; [done|]. rewrite attempts_app. change (attempts (RsBusy true :: t)) with (attempts t). split; [lia|]. destruct He as [[-> ?]|?]; [left; lia|auto].
Qed.

(** An installation asks at most thirty times whether the package manager is busy, and
    ends the question with a verdict; it goes on only after an attempt that found the
    manager free, and always takes the notice of a busy server back. *)
Theorem dpkg_bounded cr s : plain s →
  ∃ e s' t, ServerCtrl.isServerDpkgBusy cr s = (Ok e, s', t ++ [RsBusy false]) ∧ (attempts t ≤ 30)%nat ∧
    (e = NoError ∧ (1 ≤ attempts t)%nat ∨ e = ServerPacketManagerError ∨ e = ServerCancelInstallation).
Proof.
  intros Hs. set (s0 := mkSys (mkServer (sv_settings (globals s)) false) (world s)).
  destruct (wait_bounded cr 30 s0 Hs) as (e & s' & t & E & _ & Ht & He). exists e, s', t. split; [|done].
  unfold ServerCtrl.isServerDpkgBusy. change (t ++ [RsBusy false]) with ([] ++ t ++ [RsBusy false]).
  eapply run_bind; [done|]. by eapply run_bind.
Qed.

End Waiting.

Lemma dpkg_bounded_witness :
  ∃ e s' t, ServerCtrl.isServerDpkgBusy (mkCredentials "h" "root" "p" 22) (SimRemote.started "c" ∅ 5) = (Ok e, s', t ++ [RsBusy false]) ∧ (attempts t ≤ 30)%nat ∧
    (e = NoError ∧ (1 ≤ attempts t)%nat ∨ e = ServerPacketManagerError ∨ e = ServerCancelInstallation).
Proof. apply dpkg_bounded, SimRemote.started_plain. Defined.
