(* ===== verification/WgConfigurator.v ===== *)
(** * Configurations for WireGuard clients

    Models [WireguardConfigurator] and [AwgConfigurator] of [src/client/configurators] with
    their base class: a new client gets keys, the next address of the subnet and a section
    of the configuration file of the server, and the configuration of the client is made
    from a template.  AmneziaWG is WireGuard with the parameters of its obfuscation.

    The class [KeyGen] is OpenSSL; [ObjectText] writes an object as an indented document. *)

From stdpp Require Import prelude strings list gmap pretty.
From Stdlib Require Import ZArith Lia Ascii.
From S2P Require Import Prelude QtJson InterfaceConfig LineProtocol QtText SecureSettings SplitTunnel Containers ServerSettings ServersModel RemoteServer.

Local Open Scope Z_scope.

Class KeyGen (W : Type) := {
  randPrivBytes : W → option string * W;           (* RAND_priv_bytes, 32 bytes *)
  rawPrivateKey : string → string;                 (* of the X25519 key made of the bytes *)
  rawPublicKey : string → string;
  toBase64 : string → string;
}.

Class ObjectText := { objectText : QJsonObject → string }.   (* QJsonDocument(object).toJson() *)

Record ConnectionData := mkConnectionData {
  clientPrivKey : string;
  clientPubKey : string;
  clientIP : string;
  serverPubKey : string;
  pskKey : string;
  cd_host : string;
  cd_port : string;
}.

Definition noConnectionData : ConnectionData := mkConnectionData "" "" "" "" "" "" "".

Module WgConfig.

(** The members of a configurator, which the constructor takes from [m_isAwg]. *)
Definition m_serverConfigPath (isAwg : bool) : string := if isAwg then "/opt/amnezia/awg/wg0.conf" else "/opt/amnezia/wireguard/wg0.conf".
Definition m_serverPublicKeyPath (isAwg : bool) : string :=
  if isAwg then "/opt/amnezia/awg/wireguard_server_public_key.key" else "/opt/amnezia/wireguard/wireguard_server_public_key.key".
Definition m_serverPskKeyPath (isAwg : bool) : string :=
  if isAwg then "/opt/amnezia/awg/wireguard_psk.key" else "/opt/amnezia/wireguard/wireguard_psk.key".
Definition m_configTemplate (isAwg : bool) : ProtocolScriptType := if isAwg then awg_template else wireguard_template.
Definition m_protocolName (isAwg : bool) : string := if isAwg then "awg" else "wireguard".
Definition m_defaultPort (isAwg : bool) : string := if isAwg then "51820" else "55424".

Section WgConfig.
  Context {W : Type} {secrets : SecretEnv W} {te : TextEnv} {text : ArrayText} {ssh : Ssh W} {res : Resources}.
  Context {keys : KeyGen W}.
  Notation RM := (ServerCtrl.RM W).

Definition genClientKeys : RM ConnectionData :=
  b ← ServerCtrl.draw randPrivBytes;
  mret match b with
       | None => noConnectionData
       | Some buff => mkConnectionData (toBase64 (rawPrivateKey buff)) (toBase64 (rawPublicKey buff)) "" "" "" "" ""
       end.

(** The last number of the address of the next client, from what was found in the file. *)
Definition nextIpNumber (stdOut : string) : option string :=
  let stdOut := replaceText "/32" "" (replaceText "AllowedIPs = " "" stdOut) in
  match last (skipEmpty (splitText nl stdOut)) with
  | None => Some "2"
  | Some ip =>
      let next := default 0 (toIntOk (List.last (splitText "." ip) "")) + 1 in
      if 254 <? next then None else Some (pretty next)
  end.

(** The address in the subnet with the given last number. *)
Definition addressIn (subnetIp number : string) : option string :=
  match skipEmpty (splitText "." subnetIp) with
  | [] => None
  | l => Some (join "." (removelast l ++ [number]))
  end.

Definition peerSection (pub psk ip : string) : string :=
  "[Peer]" +:+ nl +:+ "PublicKey = " +:+ pub +:+ nl +:+ "PresharedKey = " +:+ psk +:+ nl +:+ "AllowedIPs = " +:+ ip +:+ "/32" +:+ nl +:+ nl.

(** From the keys of the server on. *)
Definition addPeer (isAwg : bool) (credentials : ServerCredentials) (container : DockerContainer.t) (d : ConnectionData) : RM (Z * ConnectionData) :=
  r ← ServerCtrl.getTextFileFromContainer container credentials (m_serverPublicKeyPath isAwg);
  let d := mkConnectionData (clientPrivKey d) (clientPubKey d) (clientIP d) (replaceText nl "" r.2) (pskKey d) (cd_host d) (cd_port d) in
  if negb (r.1 =? NoError) then mret (r.1, d)
  else
    r ← ServerCtrl.getTextFileFromContainer container credentials (m_serverPskKeyPath isAwg);
    let d := mkConnectionData (clientPrivKey d) (clientPubKey d) (clientIP d) (serverPubKey d) (replaceText nl "" r.2) (cd_host d) (cd_port d) in
    if negb (r.1 =? NoError) then mret (r.1, d)
    else
      e ← ServerCtrl.uploadTextFileToContainer container credentials
        (peerSection (clientPubKey d) (pskKey d) (clientIP d)) (m_serverConfigPath isAwg) true;
      if negb (e =? NoError) then mret (e, d)
      else
        r ← ServerCtrl.runFor credentials container []
          ("sudo docker exec -i $CONTAINER_NAME bash -c 'wg syncconf wg0 <(wg-quick strip " +:+ m_serverConfigPath isAwg +:+ ")'");
        mret (r.1, d).

Definition prepareWireguardConfig (isAwg : bool) (credentials : ServerCredentials) (container : DockerContainer.t)
    (containerConfig : QJsonObject) : RM (Z * ConnectionData) :=
  k ← genClientKeys;
  let port := fieldOr (toObject (QtJson.value containerConfig (m_protocolName isAwg))) "port" (m_defaultPort isAwg) in
  let d := mkConnectionData (clientPrivKey k) (clientPubKey k) "" "" "" (cr_hostName credentials) port in
  if String.eqb (clientPrivKey d) "" || String.eqb (clientPubKey d) "" then mret (InternalError, d)
  else
    r ← ServerCtrl.runContainerScript credentials container ("cat " +:+ m_serverConfigPath isAwg +:+ " | grep AllowedIPs");
    if negb (r.1 =? NoError) then mret (r.1, d)
    else
      match nextIpNumber (gathered false r.2) with
      | None => mret (AddressPoolError, d)
      | Some number =>
          match addressIn (fieldOr containerConfig "subnet_address" "10.8.1.0") number with
          | None => mret (AddressPoolError, d)
          | Some ip => addPeer isAwg credentials container (mkConnectionData (clientPrivKey d) (clientPubKey d) ip "" "" (cd_host d) (cd_port d))
          end
      end.

Section Text.
  Context {jt : JsonText} {ot : ObjectText}.

(** [WireguardConfigurator::createConfig] *)
Definition wgCreateConfig (isAwg : bool) (credentials : ServerCredentials) (container : DockerContainer.t) (containerConfig : QJsonObject)
    : RM (Z * string) :=
  vars ← ServerCtrl.genVarsForScript credentials container containerConfig;
  let config := ServerCtrl.replaceVars (protocolScriptData (m_configTemplate isAwg) container) vars in
  r ← prepareWireguardConfig isAwg credentials container containerConfig;
  let d := r.2 in
  if negb (r.1 =? NoError) then mret (r.1, "")
  else
    let config := replaceText "$WIREGUARD_CLIENT_PRIVATE_KEY" (clientPrivKey d) config in
    let config := replaceText "$WIREGUARD_CLIENT_IP" (clientIP d) config in
    let config := replaceText "$WIREGUARD_SERVER_PUBLIC_KEY" (serverPubKey d) config in
    let config := replaceText "$WIREGUARD_PSK" (pskKey d) config in
    let mtu := fieldOr (ServerCtrl.protoConfig containerConfig Proto.WireGuard) "mtu" "1376" in
    mret (NoError, objectText (inserts []
      [("config", JString config); ("hostName", JString (cd_host d)); ("port", JInt (default 0 (toIntOk (cd_port d))));
       ("client_priv_key", JString (clientPrivKey d)); ("client_ip", JString (clientIP d)); ("client_pub_key", JString (clientPubKey d));
       ("psk_key", JString (pskKey d)); ("server_pub_key", JString (serverPubKey d)); ("mtu", JString mtu);
       ("clientId", JString (clientPubKey d))])).

(** The settings of a configuration: lines with one equals sign between blanks, outside of
    the heads of sections. *)
Definition configPair (line : string) : list (string * string) :=
  let trimmedLine := trimmed line in
  if String.prefix "[" trimmedLine && endsWithChar "]" trimmedLine then []
  else match splitText " = " trimmedLine with [a; b] => [(trimmed a, trimmed b)] | _ => [] end.

Definition configMap (config : string) : gmap string string :=
  foldl (λ m kv, <[kv.1 := kv.2]> m) ∅ (flat_map configPair (splitText nl config)).

Definition awgKeys : list string := ["Jc"; "Jmin"; "Jmax"; "S1"; "S2"; "H1"; "H2"; "H3"; "H4"].

(** [AwgConfigurator::createConfig] *)
Definition awgCreateConfig (credentials : ServerCredentials) (container : DockerContainer.t) (containerConfig : QJsonObject) : RM (Z * string) :=
  r ← wgCreateConfig true credentials container containerConfig;
  let jsonConfig := default [] (fromText r.2) in
  let m := configMap (field jsonConfig "config") in
  let mtu := fieldOr (ServerCtrl.protoConfig containerConfig Proto.Awg) "mtu" "1376" in
  mret (r.1, objectText (inserts jsonConfig
    (map (λ k, (k, JString (default "" (m !! k)))) awgKeys ++ [("mtu", JString mtu)]))).

End Text.
End WgConfig.

(** [processConfigWithDnsSettings], and with it the two functions that only call it. *)
Definition processConfigWithDnsSettings (dns : string * string) (config : string) : string :=
  replaceText "$SECONDARY_DNS" dns.2 (replaceText "$PRIMARY_DNS" dns.1 config).

End WgConfig.
