(* ===== verification/Clients.v ===== *)
(** * The clients of a server

    Models [ClientManagementModel] of [src/client/ui/models/clientManagementModel.cpp]: the
    table of the clients of a container, which is a file of the container, and the commands
    that add, rename and revoke clients.

    The state is the table with the controller of the server; settings are shared.  The
    table is a [QJsonArray]: reading out of its range gives an undefined value, replacing or
    removing there is undefined behaviour. *)

From stdpp Require Import prelude strings list gmap pretty sorting.
From Stdlib Require Import ZArith Lia Ascii.
From S2P Require Import Prelude QtJson InterfaceConfig LineProtocol QtText SecureSettings SplitTunnel Containers ServerSettings ServersModel RemoteServer.

Local Open Scope Z_scope.

Class Calendar (W : Type) := { currentDateTime : W → string }.   (* QDateTime::currentDateTime().toString() *)

Inductive ClEvent :=
| ClRemote (e : RsEvent)
| ClReset
| ClInsertRows (first last : Z)
| ClRemoveRows (first last : Z)
| ClDataChanged (row : Z)
| ClAdminConfigRevoked (container : DockerContainer.t).

Record WgShowData := mkWgShow { wg_clientId : string; wg_latestHandshake : string; wg_dataReceived : string; wg_dataSent : string }.

Inductive ClientRole := ClientNameRole | CreationDateRole | LatestHandshakeRole | DataReceivedRole | DataSentRole.

Module Clients.

(** The containers whose clients are OpenVPN certificates, and those with WireGuard keys. *)
Definition isOpenVpnBased (c : DockerContainer.t) : bool :=
  match c with DockerContainer.OpenVpn | DockerContainer.ShadowSocks | DockerContainer.Cloak => true | _ => false end.
Definition isWireGuardBased (c : DockerContainer.t) : bool :=
  match c with DockerContainer.WireGuard | DockerContainer.Awg => true | _ => false end.

Definition clientsTableFile (c : DockerContainer.t) : string :=
  "/opt/amnezia/" +:+ ContainerProps.containerTypeToString (if isOpenVpnBased c then DockerContainer.OpenVpn else c) +:+ "/clientsTable".

(** The file without the slash in front. *)
Definition wgConfPath (c : DockerContainer.t) : string :=
  "opt/amnezia/" +:+ (if decide (c = DockerContainer.WireGuard) then "wireguard" else "awg") +:+ "/wg0.conf".

Definition userData (client : QJson) : QJsonObject := toObject (QtJson.value (toObject client) "userData").
Definition clientIdOf (client : QJson) : string := field (toObject client) "clientId".

Definition data (table : list QJson) (row : Z) (role : ClientRole) : option string :=
  if (row <? 0) || (Z.of_nat (length table) <=? row) then None
  else
    let user := userData (arrayAt table row) in
    Some (field user match role with
                     | ClientNameRole => "clientName" | CreationDateRole => "creationDate" | LatestHandshakeRole => "latestHandshake"
                     | DataReceivedRole => "dataReceived" | DataSentRole => "dataSent"
                     end).

(** A row of the table. *)
Definition newClient (id : string) (user : list (string * QJson)) : QJson :=
  JObject (inserts [] [("clientId", JString id); ("userData", JObject (inserts [] user))]).

Definition isClientExists (table : list QJson) (clientId : string) : bool :=
  existsb (λ v, isObject v && contains_key (toObject v) "clientId" && String.eqb (clientIdOf v) clientId) table.

(** [keys()]: the keys of an object in ascending order. *)
Definition objectKeys (o : QJsonObject) : list string := merge_sort (λ a b, Is_true (String.leb a b)) (remove_dups o.*1).

(** Tables of old versions: an object with the ids as keys. *)
Definition migration (o : QJsonObject) : list QJson :=
  map (λ id, newClient id [("clientName", QtJson.value (toObject (QtJson.value o id)) "clientName")]) (objectKeys o).

(** The clients that the table does not know, with numbers for names. *)
Fixpoint addMissing (ids : list string) (count : Z) (table : list QJson) : list QJson :=
  match ids with
  | [] => table
  | id :: ids =>
      if isClientExists table id then addMissing ids count table
      else addMissing ids (count + 1) (table ++ [newClient id [("clientName", JString ("Client " +:+ pretty count))]])
  end.

Definition certificateIds (stdOut : string) : list string :=
  map (replaceText ".crt" "") (List.filter (λ x, negb (String.eqb x "AmneziaReq.crt")) (skipEmpty (splitText nl stdOut))).

(** The keys of the peers; a line of separators only has no parts, and reading one of them is
    undefined. *)
Fixpoint wireguardKeys (lines : list string) : option (list string) :=
  match lines with
  | [] => Some []
  | line :: lines =>
      match skipEmpty (splitText " = " line) with
      | [] => None
      | x :: l =>
          rest ← wireguardKeys lines;
          Some (if String.eqb x "PublicKey" then List.last (x :: l) "" :: rest else rest)
      end
  end.

(** *** The output of [wg show] *)

(** [mid(indexOf(c) + 1)] *)
Fixpoint afterChar (c : ascii) (s : string) : option string :=
  match s with
  | EmptyString => None
  | String a s => if Ascii.eqb a c then Some s else afterChar c s
  end.
Definition getStrValue (s : string) : string := trimmed (default s (afterChar ":" s)).

(** [chop(n)] *)
Definition chopN (n : nat) (s : string) : string := String.substring 0 (String.length s - n) s.

Definition changeHandshakeFormat (s : string) : string :=
  foldl (λ s r, replaceText r.1 r.2 s) s
    [(" days", "d"); (" hours", "h"); (" minutes", "m"); (" seconds", "s"); (" day", "d"); (" hour", "h"); (" minute", "m"); (" second", "s")].

Fixpoint showData (peers handshakes transfers : list string) : list WgShowData :=
  match peers, handshakes, transfers with
  | p :: peers, h :: handshakes, t :: transfers =>
      let parts := splitText "," (getStrValue t) in
      let received := chopN 9 (trimmed (default "" (head parts))) in
      let sent := chopN 5 (trimmed (List.last parts "")) in
      mkWgShow (getStrValue p) (changeHandshakeFormat (getStrValue h)) sent received :: showData peers handshakes transfers
  | _, _, _ => []
  end.

Definition parseWgShow (stdOut : string) : list WgShowData :=
  if String.eqb stdOut "" then []
  else
    let parts := splitText nl stdOut in
    showData (List.filter (containsText "peer:") parts) (List.filter (containsText "latest handshake:") parts)
      (List.filter (containsText "transfer:") parts).

(** Puts a value into an object if it says something. *)
Definition insertIf (k v : string) (o : QJsonObject) : QJsonObject := if String.eqb v "" then o else insert_key o k (JString v).

(** The first row of the client. *)
Fixpoint showClient (d : WgShowData) (table : list QJson) : list QJson :=
  match table with
  | [] => []
  | v :: table =>
      if isObject v && contains_key (toObject v) "clientId" && String.eqb (clientIdOf v) (wg_clientId d) then
        let user := insertIf "dataSent" (wg_dataSent d) (insertIf "dataReceived" (wg_dataReceived d) (insertIf "latestHandshake" (wg_latestHandshake d) (userData v))) in
        JObject (insert_key (toObject v) "userData" (JObject user)) :: table
      else v :: showClient d table
  end.

(** The sections of a configuration without the first that mentions the text. *)
Fixpoint removeSection (clientId : string) (sections : list string) : list string :=
  match sections with
  | [] => []
  | x :: l => if containsText clientId x then l else x :: removeSection clientId l
  end.

Definition withoutClient (clientId config : string) : string :=
  "[" +:+ join "[" (removeSection clientId (skipEmpty (splitText "[" config))).

Section Clients.
  Context {W : Type} {secrets : SecretEnv W} {te : TextEnv} {text : ArrayText} {ssh : Ssh W} {res : Resources}.
  Context {jt : JsonText} {calendar : Calendar W}.

Definition ClM (A : Type) : Type := M (Sys (list QJson) (Sys Server W)) ClEvent Undefined A.

Definition remote {A} (m : ServerCtrl.RM W A) : ClM A := λ s,
  match m (world s) with (r, s', t) => (r, mkSys (globals s) s', map ClRemote t) end.
Definition getTable : ClM (list QJson) := gets globals.
Definition setTable (l : list QJson) : ClM unit := modify (λ s, mkSys l (world s)).
Definition now : ClM string := gets (λ s, currentDateTime (world (world s))).

(** ** The table *)

Definition uploadTable (container : DockerContainer.t) (credentials : ServerCredentials) : ClM Z :=
  table ← getTable;
  remote (ServerCtrl.uploadTextFileToContainer container credentials (arrayText table) (clientsTableFile container) false).

Definition getOpenVpnClients (container : DockerContainer.t) (credentials : ServerCredentials) : ClM Z :=
  r ← remote (ServerCtrl.runFor credentials container []
    "sudo docker exec -i $CONTAINER_NAME bash -c 'ls /opt/amnezia/openvpn/pki/issued'");
  if negb (r.1 =? NoError) then mret r.1
  else
    table ← getTable;
    setTable (addMissing (certificateIds (gathered false r.2)) 0 table);; mret NoError.

Definition getWireGuardClients (container : DockerContainer.t) (credentials : ServerCredentials) : ClM Z :=
  r ← remote (ServerCtrl.getTextFileFromContainer container credentials (wgConfPath container));
  if negb (r.1 =? NoError) then mret r.1
  else
    match wireguardKeys (skipEmpty (splitText nl r.2)) with
    | None => throw UndefinedBehaviour
    | Some ids => table ← getTable; setTable (addMissing ids 0 table);; mret NoError
    end.

(** What the server says of the clients; nothing if it does not answer. *)
Definition wgShow (container : DockerContainer.t) (credentials : ServerCredentials) : ClM (list WgShowData) :=
  if negb (isWireGuardBased container) then mret []
  else
    r ← remote (ServerCtrl.runFor credentials container [] "sudo docker exec -i $CONTAINER_NAME bash -c 'wg show all'");
    mret (if negb (r.1 =? NoError) then [] else parseWgShow (gathered false r.2)).

(** The table of a server that has none, from what the server knows; [inl] ends the update. *)
Definition fillTable (container : DockerContainer.t) (credentials : ServerCredentials) (clientsTableString : string) : ClM (Z + Z) :=
  setTable (migration (default [] (fromText clientsTableString)));;
  e ← (if isOpenVpnBased container then getOpenVpnClients container credentials
       else if isWireGuardBased container then getWireGuardClients container credentials
       else mret NoError);
  if negb (e =? NoError) then mret (inl e)
  else
    table ← getTable;
    if String.eqb clientsTableString (arrayText table) then mret (inr NoError)
    else e ← uploadTable container credentials; mret (inr e).

Definition updateModel (container : DockerContainer.t) (credentials : ServerCredentials) : ClM Z :=
  emit ClReset;;
  setTable [];;
  r ← remote (ServerCtrl.getTextFileFromContainer container credentials (clientsTableFile container));
  if negb (r.1 =? NoError) then mret r.1
  else
    setTable (parseArray r.2);;
    table ← getTable;
    filled ← (match table with [] => fillTable container credentials r.2 | _ => mret (inr NoError) end);
    match filled with
    | inl e => mret e
    | inr e =>
        shown ← wgShow container credentials;
        table ← getTable;
        setTable (foldl (λ t d, showClient d t) table shown);;
        mret e
    end.

(** ** Changes *)

(** [QJsonArray::replace] and [QJsonArray::removeAt] *)
Definition replaceRow (row : Z) (v : QJson) : ClM unit :=
  table ← getTable;
  if (row <? 0) || (Z.of_nat (length table) <=? row) then throw UndefinedBehaviour
  else setTable (<[Z.to_nat row := v]> table).
Definition removeRow (row : Z) : ClM unit :=
  table ← getTable;
  if (row <? 0) || (Z.of_nat (length table) <=? row) then throw UndefinedBehaviour
  else emit (ClRemoveRows row row);; setTable (delete (Z.to_nat row) table).

Definition renameClient (row : Z) (clientName : string) (container : DockerContainer.t) (credentials : ServerCredentials) (addTimeStamp : bool) : ClM Z :=
  table ← getTable;
  date ← now;
  let client := arrayAt table row in
  let user := insert_key (userData client) "clientName" (JString clientName) in
  let user := if addTimeStamp then insert_key user "creationDate" (JString date) else user in
  replaceRow row (JObject (insert_key (toObject client) "userData" (JObject user)));;
  emit (ClDataChanged row);;
  uploadTable container credentials.

(** The first row whose id is the text. *)
Fixpoint rowOf (clientId : string) (i : Z) (table : list QJson) : option Z :=
  match table with
  | [] => None
  | v :: table =>
      if match QtJson.value (toObject v) "clientId" with JString s => String.eqb s clientId | _ => false end then Some i
      else rowOf clientId (i + 1) table
  end.

Definition appendClient (clientId clientName : string) (container : DockerContainer.t) (credentials : ServerCredentials) : ClM Z :=
  e ← updateModel container credentials;
  if negb (e =? NoError) then mret e
  else
    table ← getTable;
    match rowOf clientId 0 table with
    | Some i => renameClient i clientName container credentials true
    | None =>
        date ← now;
        let n := Z.of_nat (length table) in
        emit (ClInsertRows n (n + 1));;
        setTable (table ++ [newClient clientId [("clientName", JString clientName); ("creationDate", JString date)]]);;
        uploadTable container credentials
    end.

(** The protocol whose configuration has the id of the client. *)
Definition clientProtocol (container : DockerContainer.t) : option Proto.t :=
  match container with
  | DockerContainer.ShadowSocks | DockerContainer.Cloak => Some Proto.OpenVpn
  | DockerContainer.OpenVpn | DockerContainer.WireGuard | DockerContainer.Awg => Some (ContainerProps.defaultProtocol container)
  | _ => None
  end.

(** [ContainerProps::getProtocolConfigFromContainer] *)
Definition getProtocolConfigFromContainer (protocol : Proto.t) (containerConfig : QJsonObject) : QJsonObject :=
  default [] (fromText (field (toObject (QtJson.value containerConfig (ProtocolProps.protoToString protocol))) "last_config")).

Definition appendClientOf (container : DockerContainer.t) (credentials : ServerCredentials) (containerConfig : QJsonObject) (clientName : string) : ClM Z :=
  match clientProtocol container with
  | None => mret NoError
  | Some protocol => appendClient (field (getProtocolConfigFromContainer protocol containerConfig) "clientId") clientName container credentials
  end.

Definition revokeScript (clientId : string) : string :=
  "sudo docker exec -i $CONTAINER_NAME bash -c 'cd /opt/amnezia/openvpn ;\easyrsa revoke " +:+ clientId +:+
  " ;\easyrsa gen-crl ;\chmod 666 pki/crl.pem ;\cp pki/crl.pem .'".

Definition revokeOpenVpn (row : Z) (container : DockerContainer.t) (credentials : ServerCredentials) : ClM Z :=
  table ← getTable;
  r ← remote (ServerCtrl.runFor credentials container [] (revokeScript (clientIdOf (arrayAt table row))));
  if negb (r.1 =? NoError) then mret r.1
  else
    removeRow row;;
    table ← getTable;
    remote (ServerCtrl.uploadTextFileToContainer container credentials (arrayText table) (clientsTableFile DockerContainer.OpenVpn) false).

Definition revokeWireGuard (row : Z) (container : DockerContainer.t) (credentials : ServerCredentials) : ClM Z :=
  r ← remote (ServerCtrl.getTextFileFromContainer container credentials ("/" +:+ wgConfPath container));
  if negb (r.1 =? NoError) then mret r.1
  else
    table ← getTable;
    e ← remote (ServerCtrl.uploadTextFileToContainer container credentials (withoutClient (clientIdOf (arrayAt table row)) r.2)
                  ("/" +:+ wgConfPath container) false);
    if negb (e =? NoError) then mret e
    else
      removeRow row;;
      e ← uploadTable container credentials;
      if negb (e =? NoError) then mret e
      else
        r ← remote (ServerCtrl.runFor credentials container []
          ("sudo docker exec -i $CONTAINER_NAME bash -c 'wg syncconf wg0 <(wg-quick strip /" +:+ wgConfPath container +:+ ")'"));
        mret r.1.

Definition revoke (row : Z) (container : DockerContainer.t) (credentials : ServerCredentials) : ClM Z :=
  if isOpenVpnBased container then revokeOpenVpn row container credentials
  else if isWireGuardBased container then revokeWireGuard row container credentials
  else mret NoError.

(** Whether the last configuration of the container of this computer is of the client. *)
Definition adminUses (container : DockerContainer.t) (clientId : string) (containerConfig : QJson) : bool :=
  let c := toObject containerConfig in
  bool_decide (ContainerProps.containerFromString (field c "container") = container) &&
  let type := match container with DockerContainer.ShadowSocks | DockerContainer.Cloak => DockerContainer.OpenVpn | _ => container end in
  containsText clientId (field (toObject (QtJson.value c (ContainerProps.containerTypeToString type))) "last_config").

(** [revokeClient] of a row *)
Definition revokeClient (row : Z) (container : DockerContainer.t) (credentials : ServerCredentials) (serverIndex : Z) : ClM Z :=
  table ← getTable;
  let clientId := clientIdOf (arrayAt table row) in
  e ← revoke row container credentials;
  when (e =? NoError) (
    server ← remote (ServerCtrl.settings (Servers.server serverIndex));
    for_each (toArray (QtJson.value server "containers"))
      (λ c, when (adminUses container clientId c) (emit (ClAdminConfigRevoked container))));;
  mret e.

(** The first row with the id as its text. *)
Fixpoint rowWithId (clientId : string) (i : Z) (table : list QJson) : option Z :=
  match table with
  | [] => None
  | v :: table => if String.eqb clientId (clientIdOf v) then Some i else rowWithId clientId (i + 1) table
  end.

(** [revokeClient] of a configuration *)
Definition revokeClientOf (containerConfig : QJsonObject) (container : DockerContainer.t) (credentials : ServerCredentials) : ClM Z :=
  e ← updateModel container credentials;
  if negb (e =? NoError) then mret e
  else
    match clientProtocol container with
    | None => mret NoError
    | Some protocol =>
        table ← getTable;
        match rowWithId (field (getProtocolConfigFromContainer protocol containerConfig) "clientId") 0 table with
        | None => mret e
        | Some row => revoke row container credentials
        end
    end.

End Clients.
End Clients.
#[global] Arguments Clients.ClM W A : clear implicits.
