(* ===== verification/WgAddresses.v ===== *)
(** * The addresses of WireGuard clients

    The configuration file of a WireGuard server as the program keeps it: a head and one
    section for every client.  What a new client finds in it ([WgConfigurator.v]), and what
    is left of it when a client goes ([Clients.v]).

    [WholeLines] is an assumption about the transport: chunks of a command's output end at
    the ends of lines. *)

From stdpp Require Import prelude strings list gmap pretty.
From Stdlib Require Import ZArith Lia Ascii Sorted.
From S2P Require Import Prelude QtJson InterfaceConfig LineProtocol QtText SecureSettings SplitTunnel Containers ServerSettings ServersModel RemoteServer RemoteSpec WgConfigurator Clients.

Local Open Scope Z_scope.

(** ** The file *)

Record Peer := mkPeer { pr_key : string; pr_number : Z }.

Definition ipText (base : string) (n : Z) : string := base +:+ "." +:+ pretty n.

Definition peerText (psk base : string) (p : Peer) : string := WgConfig.peerSection (pr_key p) psk (ipText base (pr_number p)).
Definition wgConf (head psk base : string) (ps : list Peer) : string := head +:+ joined (map (peerText psk base) ps).

(** A number an address of a client may end with. *)
Definition octet (n : Z) : Prop := 2 <= n <= 254.

(** Keys: forty-four characters of Base64. *)
Definition base64Char (a : ascii) : bool := has_char a "ABCDEFGHIJKLMNOPQRSTUVWXYZabcdefghijklmnopqrstuvwxyz0123456789+/=".
Definition keyText (k : string) : bool := (String.length k =? 44)%nat && all_chars base64Char k.

Lemma key_lacks c k : base64Char c = false → keyText k = true → has_char c k = false.
Proof. intros Hc [_ Hk]%andb_prop. by apply (all_chars_has base64Char). Qed.

(** The section of the interface: lines without addresses of clients, and no other section. *)
Record headOk (head : string) : Prop := {
  head_lines : ∃ ls, head = unlines ls ∧ Forall clean ls ∧ Forall (λ l, containsText "AllowedIPs" l = false) ls;
  head_section : ∃ h, head = "[" +:+ h ∧ h ≠ "" ∧ has_char "[" h = false;
}.

Class NumberLaws (te : TextEnv) : Prop := { toInt_octet n : 0 <= n <= 255 → toIntOk (pretty n) = Some n }.

Lemma octet_text n : octet n → numeral (pretty n) = true ∧ has_char "." (pretty n) = false.
Proof.
  intros Hn. assert (forallb (λ n, numeral (pretty n) && negb (has_char "." (pretty n))) (seqZ 0 256) = true) as H by by vm_compute.
  rewrite <- (negb_true_iff (has_char "." (pretty n))). apply andb_prop. apply (proj1 (forallb_forall _ _) H), list_elem_of_In, elem_of_seqZ. unfold octet in Hn. lia.
Qed.

Lemma ip_numeral base n : numeral base = true → octet n → numeral (ipText base n) = true.
Proof.
  intros [Hb1 Hb2]%andb_prop [[_ Hn]%andb_prop _]%octet_text. unfold numeral, ipText. rewrite !all_chars_app, Hb2, Hn.
  by destruct base.
Qed.

(** *** Lines *)

Lemma textLines_unlines ls : Forall clean ls → textLines (unlines ls) = ls.
Proof.
  intros H. unfold textLines, lines, partial, newline_char. rewrite qsplit_unlines by done. rewrite removelast_last, last_last. cbn. by rewrite app_nil_r.
Qed.

Definition peerLines (psk base : string) (p : Peer) : list string :=
  ["[Peer]"; "PublicKey = " +:+ pr_key p; "PresharedKey = " +:+ psk; "AllowedIPs = " +:+ ipText base (pr_number p) +:+ "/32"; ""].

Lemma peerText_lines psk base p : peerText psk base p = unlines (peerLines psk base p).
Proof. unfold peerText, WgConfig.peerSection, peerLines. cbn [unlines]. by rewrite ?sapp_assoc, ?sapp_nil_r. Qed.

Lemma wgConf_lines ls psk base ps : wgConf (unlines ls) psk base ps = unlines (ls ++ flat_map (peerLines psk base) ps).
Proof.
  unfold wgConf. rewrite unlines_app. f_equal. induction ps as [|p ps IH]; [done|]. cbn [flat_map]. rewrite unlines_app, <- IH, <- peerText_lines. reflexivity.
Qed.

Definition goodPeer (base : string) (p : Peer) : Prop := keyText (pr_key p) = true ∧ octet (pr_number p).

Lemma peerLines_clean psk base p : keyText psk = true → numeral base = true → goodPeer base p → Forall clean (peerLines psk base p).
Proof.
  intros Hpsk Hb [Hk Hn]. pose proof (ip_numeral base _ Hb Hn) as Hi. unfold clean, peerLines.
  repeat apply List.Forall_cons; try apply List.Forall_nil; rewrite ?has_char_app, ?(key_lacks (ascii_of_nat 10) _ eq_refl Hpsk), ?(key_lacks (ascii_of_nat 10) _ eq_refl Hk), ?(numeral_char (ascii_of_nat 10) _ Hi eq_refl); done.
Qed.

Lemma contains_at_start p s : containsText p (p +:+ s) = true.
Proof. apply contains_spec. by exists "", s. Qed.

(** What is found in the file ends with the address of the last client. *)
Lemma grepped_conf head psk base ps : headOk head → keyText psk = true → numeral base = true → Forall (goodPeer base) ps →
  ∃ G, grepped (wgConf head psk base ps) = unlines (G ++ match last ps with Some p => ["AllowedIPs = " +:+ ipText base (pr_number p) +:+ "/32"] | None => [] end) ∧
    (last ps = None → G = []).
Proof.
  intros [(ls & -> & Hc & Ha) _] Hpsk Hb Hps. unfold grepped. rewrite wgConf_lines, textLines_unlines.
  2: { apply Forall_app. split; [done|]. clear -Hpsk Hb Hps. induction Hps as [|p ps Hp _ IH]; [done|]. cbn [flat_map]. apply Forall_app. split; [by apply peerLines_clean|done]. }
  rewrite List.filter_app. assert (List.filter (containsText "AllowedIPs") ls = []) as ->.
  { clear -Ha. induction Ha as [|l ls Hl _ IH]; [done|]. cbn [List.filter]. by rewrite Hl. }
  destruct ps as [|p ps] using rev_ind; [by exists []|]. clear IHps. rewrite flat_map_app, List.filter_app, last_snoc. cbn [flat_map app]. rewrite app_nil_r.
  unfold peerLines at 2. cbn [List.filter].
  rewrite (contains_app_l "AllowedIPs" "AllowedIPs = ") by done. change (containsText "AllowedIPs" "[Peer]") with false. change (containsText "AllowedIPs" "") with false. cbn iota.
  exists (List.filter (containsText "AllowedIPs") (flat_map (peerLines psk base) ps) ++ (if containsText "AllowedIPs" ("PublicKey = " +:+ pr_key p) then ["PublicKey = " +:+ pr_key p] else []) ++
               (if containsText "AllowedIPs" ("PresharedKey = " +:+ psk) then ["PresharedKey = " +:+ psk] else [])).
  split; [|done]. f_equal. rewrite <- !app_assoc. f_equal. by do 2 case_match.
Qed.

(** ** The next address *)

(** Texts made of whole lines. *)
Definition closed (s : string) : Prop := s = "" ∨ ∃ r, s = r +:+ nl.

Lemma closed_app s t : closed s → closed t → closed (s +:+ t).
Proof. intros Hs [->|[r ->]]; [by rewrite sapp_nil_r|]. right. exists (s +:+ r). by rewrite sapp_assoc. Qed.

Lemma closed_end s u : closed (s +:+ u) → closed u.
Proof.
  intros [H|[r H]]; [by destruct s, u; [left|..]|]. apply sapp_inv in H as [(x & -> & ->)|(x & -> & H)]; [right; eauto|].
  destruct x as [|a x]; [right; by exists ""|]. injection H as _ H. by destruct x, u; [left|..].
Qed.

(** The last line of a text of whole lines is found from its end. *)
Lemma last_line s L : closed s → numeral L = true →
  last (skipEmpty (splitText nl (s +:+ L +:+ nl +:+ nl))) = Some L.
Proof.
  intros Hs HL. assert (∀ t, splitText nl (L +:+ nl +:+ t) = L :: splitText nl t) as Hsplit.
  { intros t. apply split_skip. by apply numeral_char. }
  assert (skipEmpty (splitText nl (L +:+ nl +:+ nl)) = [L]) as Hend.
  { rewrite Hsplit. rewrite skipEmpty_cons by (by apply numeral_nonempty). done. }
  destruct Hs as [->|[r ->]]; [change ("" +:+ ?x) with x; by rewrite Hend|]. rewrite sapp_assoc.
  change (nl +:+ L +:+ nl +:+ nl) with (String (ascii_of_nat 10) (L +:+ nl +:+ nl)). unfold nl at 1. rewrite split_char_app. fold nl.
  unfold skipEmpty in *. rewrite List.filter_app, Hend. apply last_snoc.
Qed.

Lemma replace_closed before s t : before ≠ "" → has_char (ascii_of_nat 10) before = false → closed s →
  ∃ s', closed s' ∧ replaceText before "" (s +:+ t) = s' +:+ replaceText before "" t.
Proof.
  intros Hb Hc [->|[r ->]]; [exists ""; split; [by left|done]|]. exists (replaceText before "" r +:+ nl). split; [right; eauto|].
  rewrite !sapp_assoc. by apply replace_app.
Qed.

Lemma replace_breaks before L : before ≠ "" → has_char (ascii_of_nat 10) before = false →
  replaceText before "" (L +:+ nl +:+ nl) = replaceText before "" L +:+ nl +:+ nl.
Proof.
  intros Hb Hc. change (nl +:+ nl) with (String (ascii_of_nat 10) nl). rewrite replace_app by done. f_equal. change nl with ("" +:+ String (ascii_of_nat 10) "").
  rewrite replace_app by done. done.
Qed.

Section Next.
  Context {te : TextEnv} {numbers : NumberLaws te}.

(** The number after the last address of a text of whole lines. *)
Lemma nextIp_last s base n : closed s → numeral base = true → octet n →
  WgConfig.nextIpNumber (s +:+ ("AllowedIPs = " +:+ ipText base n +:+ "/32") +:+ nl +:+ nl) =
  if 254 <? n + 1 then None else Some (pretty (n + 1)).
Proof.
  intros Hs Hb Hn. pose proof (ip_numeral base n Hb Hn) as Hi. destruct (octet_text n Hn) as [Hn1 Hn2]. unfold WgConfig.nextIpNumber.
  destruct (replace_closed "AllowedIPs = " s (("AllowedIPs = " +:+ ipText base n +:+ "/32") +:+ nl +:+ nl)) as (s1 & Hs1 & ->); [done|done|done|].
  rewrite replace_breaks by done. assert (replaceText "AllowedIPs = " "" ("AllowedIPs = " +:+ ipText base n +:+ "/32") = ipText base n +:+ "/32") as ->.
  { apply (replace_once "A" "llowedIPs = " "" "" (ipText base n +:+ "/32") eq_refl). apply contains_absent. by rewrite has_char_app, (numeral_char "A" _ Hi). }
  destruct (replace_closed "/32" s1 ((ipText base n +:+ "/32") +:+ nl +:+ nl)) as (s2 & Hs2 & ->); [done|done|done|].
  rewrite replace_breaks by done. pose proof (replace_once "/" "32" "" (ipText base n) "" (numeral_char "/" _ Hi eq_refl) eq_refl) as Hr.
  change (String "/" "32" +:+ "") with "/32" in Hr. rewrite sapp_nil_r in Hr. change ("" +:+ "") with "" in Hr. rewrite Hr, ?sapp_nil_r, last_line by done.
  assert (List.last (splitText "." (ipText base n)) "" = pretty n) as ->.
  { unfold ipText. change ("." +:+ pretty n) with (String "." (pretty n)). rewrite split_char_app.
    rewrite (split_none "." (pretty n)) by (by apply contains_absent). apply last_last. }
  rewrite toInt_octet by (unfold octet in Hn; lia). done.
Qed.

End Next.

(** *** Chunks *)

Definition wholeChunk (c : Chunk) : Prop := match c with StdOut d => ∃ r, d = r +:+ nl | StdErr _ => True end.

Lemma outs_whole l : Forall wholeChunk l → Forall (λ d, ∃ r, d = r +:+ nl) (outs l).
Proof. induction 1 as [|[d|d] l Hc _ IH]; [constructor|by constructor|exact IH]. Qed.

Lemma joined_closed l : Forall (λ d, ∃ r, d = r +:+ nl) l → closed (joined l).
Proof. induction 1 as [|d l [r ->] _ IH]; [by left|]. change (closed ((r +:+ nl) +:+ joined l)). apply closed_app; [right; eauto|done]. Qed.

Lemma joined_breaks_closed l : closed (joined (map (λ d, d +:+ nl) l)).
Proof. apply joined_closed. apply Forall_map. apply Forall_true. intros d. eauto. Qed.

(** Chunks of whole lines keep the last line whole. *)
Lemma chunks_last l s L : Forall wholeChunk l → has_char newline_char L = false → closed s → gatheredPlain l = s +:+ L +:+ nl →
  ∃ s', closed s' ∧ gathered false l = s' +:+ L +:+ nl +:+ nl.
Proof.
  intros Hl%outs_whole HL Hs. rewrite outs_plain, outs_gathered. destruct (outs l) as [|d ds _] using rev_ind.
  { intros H. by destruct s, L. }
  apply Forall_app in Hl as [Hds Hd]. inversion Hd as [|? ? [r Hr] _]; subst. rewrite joined_app, map_app, joined_app. cbn [map joined foldr].
  rewrite !sapp_nil_r. intros H. assert (joined ds +:+ r = s +:+ L) as H'.
  { apply (f_equal chop) in H. unfold nl in H. rewrite <- !sapp_assoc, !chop_app in H. done. }
  pose proof (joined_closed ds Hds) as Hc. apply sapp_inv in H' as [(u & -> & ->)|(u & Hu & ->)].
  - exists (joined (map (λ d, d +:+ nl) ds) +:+ u). split; [|by rewrite !sapp_assoc].
    apply closed_app; [apply joined_breaks_closed|]. by apply closed_end in Hs.
  - rewrite Hu in Hc. apply closed_end in Hc as [->|[x ->]].
    + exists (joined (map (λ d, d +:+ nl) ds)). split; [apply joined_breaks_closed|by rewrite !sapp_assoc].
    + rewrite !has_char_app in HL. cbn in HL. by rewrite orb_true_r in HL.
Qed.

(** ** The file without a client *)

(** The first three numbers of the addresses. *)
Definition baseOk (base : string) : Prop := numeral base = true ∧ (String.length base ≤ 11)%nat.

Definition peerBody (psk base : string) (p : Peer) : string :=
  "Peer]" +:+ nl +:+ "PublicKey = " +:+ pr_key p +:+ nl +:+ "PresharedKey = " +:+ psk +:+ nl +:+
  "AllowedIPs = " +:+ ipText base (pr_number p) +:+ "/32" +:+ nl +:+ nl.

Lemma octet_length n : octet n → (String.length (pretty n) ≤ 3)%nat.
Proof.
  intros Hn. apply Nat.leb_le. assert (forallb (λ n, String.length (pretty n) <=? 3)%nat (seqZ 0 256) = true) as H by by vm_compute.
  apply (proj1 (forallb_forall _ _) H), list_elem_of_In, elem_of_seqZ. unfold octet in Hn. lia.
Qed.

(** A key is found in the section of its client and in no other. *)
Lemma body_contains id psk base p : keyText id = true → keyText psk = true → id ≠ psk → baseOk base → goodPeer base p →
  containsText id (peerBody psk base p) = String.eqb id (pr_key p).
Proof.
  intros Hid Hpsk Hne [Hb Hlen] [Hk Hn]. assert (String.length id = 44%nat ∧ String.length psk = 44%nat ∧ String.length (pr_key p) = 44%nat) as (Lid & Lpsk & Lk).
  { apply andb_prop in Hid as [? _], Hpsk as [? _], Hk as [? _]. repeat split; by apply Nat.eqb_eq. }
  assert (∀ c, base64Char c = false → has_char c id = false) as Hc by (intros c ?; by apply key_lacks).
  assert (id ≠ "") as Hid0 by (by intros ->).
  assert (String.length (ipText base (pr_number p) +:+ "/32" +:+ nl +:+ nl) < 44)%nat as Li.
  { unfold ipText. rewrite !sapp_length. pose proof (octet_length _ Hn). cbn. lia. }
  unfold peerBody. set (tail := ipText base (pr_number p) +:+ "/32" +:+ nl +:+ nl) in *. unfold nl.
  change (containsText id ("Peer" +:+ String "]" ("" +:+ String (ascii_of_nat 10) ("PublicKey" +:+ String " " ("=" +:+ String " " (pr_key p +:+
    String (ascii_of_nat 10) ("PresharedKey" +:+ String " " ("=" +:+ String " " (psk +:+ String (ascii_of_nat 10) ("AllowedIPs" +:+ String " " ("=" +:+ String " " tail)))))))))) = String.eqb id (pr_key p)).
  do 4 (rewrite contains_short by (rewrite ?Lid; cbn; lia || by apply Hc)). rewrite contains_sep by (done || by apply Hc).
  do 2 (rewrite contains_short by (rewrite ?Lid; cbn; lia || by apply Hc)). rewrite contains_sep by (done || by apply Hc).
  do 2 (rewrite contains_short by (rewrite ?Lid; cbn; lia || by apply Hc)). rewrite (contains_long id tail) by lia.
  rewrite (contains_same id psk), (contains_same id (pr_key p)) by congruence. rewrite (proj2 (String.eqb_neq _ _) Hne). by rewrite orb_false_r.
Qed.

Lemma body_section psk base p : keyText psk = true → baseOk base → goodPeer base p → has_char "[" (peerBody psk base p) = false.
Proof.
  intros Hpsk [Hb _] [Hk Hn]. unfold peerBody. rewrite !has_char_app, (key_lacks "[" _ eq_refl Hpsk), (key_lacks "[" _ eq_refl Hk).
  by rewrite (numeral_char "[" _ (ip_numeral base _ Hb Hn) eq_refl).
Qed.

Lemma conf_sections h psk base ps : wgConf ("[" +:+ h) psk base ps = join "[" ("" :: h :: map (peerBody psk base) ps).
Proof.
  unfold wgConf. change (join "[" ("" :: h :: map (peerBody psk base) ps)) with ("[" +:+ join "[" (h :: map (peerBody psk base) ps)).
  rewrite sapp_assoc. f_equal. revert h. induction ps as [|p ps IH]; intros h; [apply sapp_nil_r|].
  change (join "[" (h :: map (peerBody psk base) (p :: ps))) with (h +:+ "[" +:+ join "[" (peerBody psk base p :: map (peerBody psk base) ps)).
  rewrite <- IH. change (joined (map (peerText psk base) (p :: ps))) with (("[" +:+ peerBody psk base p) +:+ joined (map (peerText psk base) ps)).
  by rewrite !sapp_assoc.
Qed.

(** The clients without the first with the key. *)
Fixpoint dropPeer (id : string) (ps : list Peer) : list Peer :=
  match ps with [] => [] | p :: ps => if String.eqb id (pr_key p) then ps else p :: dropPeer id ps end.

Lemma conf_split head psk base ps : headOk head → keyText psk = true → baseOk base → Forall (goodPeer base) ps →
  ∃ h, head = "[" +:+ h ∧ skipEmpty (splitText "[" (wgConf head psk base ps)) = h :: map (peerBody psk base) ps.
Proof.
  intros [_ (h & -> & Hh & Hno)] Hpsk Hb Hps. exists h. split; [done|]. rewrite conf_sections. change "[" with (String "[" ""). rewrite split_join; [|done|].
  2: { repeat (apply Forall_cons; split; [done|]). apply Forall_map. eapply Forall_impl; [done|]. intros p Hp. by apply body_section. }
  change (skipEmpty ("" :: h :: map (peerBody psk base) ps)) with (skipEmpty (h :: map (peerBody psk base) ps)). rewrite skipEmpty_cons by done. f_equal.
  clear. induction ps as [|p ps IH]; [done|]. cbn [map]. by rewrite skipEmpty_cons, IH.
Qed.

Lemma withoutClient_conf id head psk base ps : headOk head → keyText id = true → keyText psk = true → id ≠ psk → baseOk base →
  Forall (goodPeer base) ps → containsText id head = false →
  Clients.withoutClient id (wgConf head psk base ps) = wgConf head psk base (dropPeer id ps).
Proof.
  intros Hhead Hid Hpsk Hne Hb Hps Hno. unfold Clients.withoutClient. destruct (conf_split head psk base ps Hhead Hpsk Hb Hps) as (h & -> & ->).
  rewrite conf_sections. cbn [Clients.removeSection]. assert (containsText id h = false) as ->.
  { apply not_true_is_false. intros H. by rewrite (contains_app_r id "[" h H) in Hno. }
  assert (Clients.removeSection id (map (peerBody psk base) ps) = map (peerBody psk base) (dropPeer id ps)) as ->; [|done].
  clear Hhead Hno. induction Hps as [|p ps Hp _ IH]; [done|]. cbn [map Clients.removeSection dropPeer]. rewrite body_contains by done.
  destruct (String.eqb id (pr_key p)); [done|]. cbn [map]. by rewrite IH.
Qed.

(** The empty text is found in the first section. *)
Lemma withoutClient_empty head psk base ps : headOk head → keyText psk = true → baseOk base → Forall (goodPeer base) ps → ps ≠ [] →
  Clients.withoutClient "" (wgConf head psk base ps) = joined (map (peerText psk base) ps).
Proof.
  intros Hhead Hpsk Hb Hps Hne. unfold Clients.withoutClient. destruct (conf_split head psk base ps Hhead Hpsk Hb Hps) as (h & -> & ->).
  cbn [Clients.removeSection]. assert (containsText "" h = true) as -> by (by destruct h). destruct ps as [|p ps]; [done|].
  change ("[" +:+ join "[" (map (peerBody psk base) (p :: ps))) with (join "[" ("" :: peerBody psk base p :: map (peerBody psk base) ps)). rewrite <- conf_sections. done.
Qed.
