(* ===== verification/ClientsSpec.v ===== *)
(** * The clients of a WireGuard server

    The invariant of the configuration file of a server under the two operations that
    change it, adding a client ([WgConfigurator.v]) and revoking one ([Clients.v]): the
    sections of the clients have numbers that grow, so no two clients have one address. *)

From stdpp Require Import prelude strings list gmap pretty.
From Stdlib Require Import ZArith Lia Ascii Sorted.
From S2P Require Import Prelude QtJson InterfaceConfig LineProtocol QtText SecureSettings SplitTunnel Containers ServerSettings ServersModel RemoteServer RemoteSpec WgConfigurator Clients WgAddresses.

Local Open Scope Z_scope.

(** Chunks of the search for addresses end at the ends of lines. *)
Class WholeLines {W} (ssh : Ssh W) : Prop := {
  whole_lines C F w e l w' : executeCommand (λ _, None) (cmdText (RunBash C F)) w = ((e, l), w') → Forall wholeChunk l;
}.

(** Public keys are Base64 of 32 bytes, private keys are not empty, and making keys does not
    touch the server. *)
Class KeyLaws {W} {machine : Machine W} (keys : KeyGen W) : Prop := {
  public_text b : keyText (toBase64 (rawPublicKey b)) = true;
  private_text b : toBase64 (rawPrivateKey b) ≠ "";
  keys_view w : view (randPrivBytes w).2 = view w;
}.

(** The containers and the configurators for them. *)
Definition wgKind (c : DockerContainer.t) (isAwg : bool) : Prop :=
  c = DockerContainer.Awg ∧ isAwg = true ∨ c = DockerContainer.WireGuard ∧ isAwg = false.

(** The subnet of the configuration, but for the last number. *)
Definition subnetBase (cfg : QJsonObject) (base : string) : Prop :=
  ∃ l x, skipEmpty (splitText "." (fieldOr cfg "subnet_address" "10.8.1.0")) = l ++ [x] ∧ l ≠ [] ∧ join "." l = base.

(** The number of the next client. *)
Definition nextNumber (ps : list Peer) : Z := match last ps with None => 2 | Some p => pr_number p + 1 end.

Lemma subnet_address cfg base n : subnetBase cfg base → WgConfig.addressIn (fieldOr cfg "subnet_address" "10.8.1.0") (pretty n) = Some (ipText base n).
Proof.
  intros (l & x & E & Hl & <-). unfold WgConfig.addressIn. rewrite E. destruct (l ++ [x]) as [|y l'] eqn:E2; [by destruct l|]. rewrite <- E2, removelast_last.
  f_equal. by apply join_snoc.
Qed.

(** *** Growing numbers *)

Lemma sorted_snoc l x : StronglySorted Z.lt l → Forall (λ y, y < x) l → StronglySorted Z.lt (l ++ [x]).
Proof.
  induction 1 as [|y l Hs IH Hy]; intros Hx; [by repeat constructor|]. inversion Hx; subst. cbn. constructor; [by apply IH|].
  apply Forall_app. split; [done|]. by constructor.
Qed.

Lemma sorted_last l x : StronglySorted Z.lt (l ++ [x]) → Forall (λ y, y < x) l.
Proof.
  induction l as [|y l IH]; intros H; [done|]. inversion H as [|? ? Hs Hy]; subst. constructor; [|by apply IH].
  apply Forall_app in Hy as [_ Hy]. by inversion Hy.
Qed.

Lemma next_bound ps base : StronglySorted Z.lt (map pr_number ps) → Forall (goodPeer base) ps →
  Forall (λ y, y < nextNumber ps) (map pr_number ps) ∧ 2 <= nextNumber ps <= 255.
Proof.
  intros Hs Hg. unfold nextNumber. destruct ps as [|p ps] using rev_ind; [done|]. rewrite last_snoc, map_app in *. cbn [map] in *. apply Forall_app in Hg as [_ Hg].
  inversion Hg as [|? ? [_ Hn] _]; subst. unfold octet in Hn. split; [|lia]. apply Forall_app. split; [|repeat constructor; lia].
  eapply Forall_impl; [by apply sorted_last|]. cbn. lia.
Qed.

Lemma drop_sublist id ps : sublist (dropPeer id ps) ps.
Proof. induction ps as [|p ps IH]; [constructor|]. cbn [dropPeer]. destruct (String.eqb _ _); [by apply sublist_cons|by apply sublist_skip]. Qed.

Lemma sublist_map_numbers ps ps' : sublist ps' ps → sublist (map pr_number ps') (map pr_number ps).
Proof. induction 1; cbn; by constructor. Qed.

Lemma sublist_Forall {A} (P : A → Prop) l l' : sublist l' l → Forall P l → Forall P l'.
Proof. rewrite !Forall_forall. intros Hs H x Hx. apply H. by eapply elem_of_submseteq, sublist_submseteq. Qed.

Lemma sublist_sorted l l' : sublist l' l → StronglySorted Z.lt l → StronglySorted Z.lt l'.
Proof.
  induction 1 as [|x l1 l2 Hsub IH|x l1 l2 Hsub IH]; intros H; [constructor| |]; inversion H as [|? ? H2 H3]; subst; [|by apply IH].
  constructor; [by apply IH|]. by eapply sublist_Forall.
Qed.

(** ** The invariant *)

Record WgInv (c : DockerContainer.t) (isAwg : bool) (head psk base : string) (v : View) (ps : list Peer) : Prop := {
  inv_conf : content v (cname c) (WgConfig.m_serverConfigPath isAwg) = wgConf head psk base ps;
  inv_psk : replaceText nl "" (content v (cname c) (WgConfig.m_serverPskKeyPath isAwg)) = psk;
  inv_peers : Forall (goodPeer base) ps;
  inv_sorted : StronglySorted Z.lt (map pr_number ps);
}.

Section Paths.
  Context (c : DockerContainer.t) (isAwg : bool).

Lemma conf_name : name (WgConfig.m_serverConfigPath isAwg) = true.
Proof. by destruct isAwg; vm_compute. Qed.
Lemma conf_settled : temporary (rooted (WgConfig.m_serverConfigPath isAwg)) = false.
Proof. by destruct isAwg; vm_compute. Qed.
Lemma psk_name : name (WgConfig.m_serverPskKeyPath isAwg) = true.
Proof. by destruct isAwg; vm_compute. Qed.
Lemma psk_settled : temporary (rooted (WgConfig.m_serverPskKeyPath isAwg)) = false.
Proof. by destruct isAwg; vm_compute. Qed.
Lemma pub_name : name (WgConfig.m_serverPublicKeyPath isAwg) = true.
Proof. by destruct isAwg; vm_compute. Qed.
Lemma conf_psk : rooted (WgConfig.m_serverConfigPath isAwg) ≠ rooted (WgConfig.m_serverPskKeyPath isAwg).
Proof. by destruct isAwg; vm_compute. Qed.

Lemma kind_path : wgKind c isAwg → "/" +:+ Clients.wgConfPath c = WgConfig.m_serverConfigPath isAwg.
Proof. by intros [[-> ->]|[-> ->]]. Qed.

End Paths.

Lemma inv_settled c isAwg head psk base v v' ps : WgInv c isAwg head psk base v ps → settled v v' → WgInv c isAwg head psk base v' ps.
Proof.
  intros [H1 H2 H3 H4] Hs. split; [| |done|done].
  - by rewrite (settled_content v v') by (done || apply conf_settled).
  - by rewrite (settled_content v v') by (done || apply psk_settled).
Qed.

(** The file with other clients. *)
Lemma inv_put c isAwg head psk base v v' ps ps' : WgInv c isAwg head psk base v ps → Forall (goodPeer base) ps' → StronglySorted Z.lt (map pr_number ps') →
  settled (putFile (cname c) (WgConfig.m_serverConfigPath isAwg) (wgConf head psk base ps') v) v' → WgInv c isAwg head psk base v' ps'.
Proof.
  intros [_ H2 _ _] H3 H4 Hs. split; [| |done|done].
  - rewrite (settled_content _ v' _ _ Hs) by apply conf_settled. unfold content. cbn [putFile files]. by rewrite lookup_insert_eq.
  - rewrite (settled_content _ v' _ _ Hs) by apply psk_settled. unfold content. cbn [putFile files]. rewrite lookup_insert_ne; [done|].
    intros [= E]. by apply (conf_psk isAwg).
Qed.

Lemma wgConf_snoc head psk base ps p : wgConf head psk base (ps ++ [p]) = wgConf head psk base ps +:+ peerText psk base p.
Proof.
  unfold wgConf. rewrite map_app, joined_app, sapp_assoc. cbn [map]. unfold joined at 2. cbn [foldr]. by rewrite sapp_nil_r.
Qed.

Section Operations.
  Context {W : Type} {secrets : SecretEnv W} {te : TextEnv} {text : ArrayText} {ssh : Ssh W} {res : Resources} {keys : KeyGen W}.
  Context {machine : Machine W} {laws : MachineLaws machine} {klaws : KeyLaws keys} {numbers : NumberLaws te}.
  Context (c : DockerContainer.t) (isAwg : bool) (Hkind : wgKind c isAwg).
  Context (head psk base : string) (Hhead : headOk head) (Hpsk : keyText psk = true) (Hbase : baseOk base).
  Notation Inv := (WgInv c isAwg head psk base).

(** ** Adding a client *)

(** The source of random numbers does not fail. *)
Definition randomWorks : Prop := ∀ w : W, (randPrivBytes w).1 ≠ None.

Lemma keys_fetches : fetches (WgConfig.genClientKeys (W := W)) (λ d v v',
  ((clientPubKey d = "" ∧ ¬ randomWorks) ∨ keyText (clientPubKey d) = true ∧ clientPrivKey d ≠ "") ∧ v' = v).
Proof.
  intros s Hs. unfold WgConfig.genClientKeys, ServerCtrl.draw, mbind, M_bind. pose proof (keys_view (world s)) as Hv. pose proof (λ H : randomWorks, H (world s)) as Hrand.
  destruct (randPrivBytes (world s)) as [[b|] w]; eexists _, _, _; (split; [reflexivity|]; split; [done|]; split; [|done]).
  - right. split; [apply public_text|apply private_text].
  - left. split; [done|]. by intros H%Hrand.
Qed.

(** What the search finds decides the number. *)
Lemma next_number {whole : WholeLines ssh} v ps F l l' : Inv v ps →
  gatheredPlain (l ++ l') = grepped (content v (cname c) (WgConfig.m_serverConfigPath isAwg)) →
  outs l' = [] → issued (RunBash (cname c) F) l →
  WgConfig.nextIpNumber (gathered false (l ++ l')) = if 254 <? nextNumber ps then None else Some (pretty (nextNumber ps)).
Proof.
  intros Hinv Hg Hno Hiss. assert (Forall wholeChunk l) as Hw.
  { destruct Hiss as [->|(w & e & w' & E)]; [constructor|]. by eapply whole_lines. }
  rewrite outs_gathered. rewrite outs_plain in Hg. unfold outs in *. rewrite omap_app in *. rewrite Hno, app_nil_r in *. fold (outs l) in *.
  rewrite <- outs_gathered. rewrite <- outs_plain in Hg. rewrite (inv_conf _ _ _ _ _ _ _ Hinv) in Hg.
  destruct (grepped_conf head psk base ps Hhead Hpsk (proj1 Hbase) (inv_peers _ _ _ _ _ _ _ Hinv)) as (G & HG & Hnil). rewrite HG in Hg. clear HG.
  unfold nextNumber. destruct (last ps) as [p|] eqn:Hlast.
  - assert (goodPeer base p) as [_ Hn].
    { apply last_Some in Hlast as [ps' ->]. pose proof (inv_peers _ _ _ _ _ _ _ Hinv) as H. apply Forall_app in H as [_ H]. by inversion H. }
    rewrite unlines_app in Hg. cbn [unlines] in Hg. rewrite sapp_nil_r in Hg.
    destruct (chunks_last l (unlines G) ("AllowedIPs = " +:+ ipText base (pr_number p) +:+ "/32")) as (s' & Hs' & E); [done| | |by rewrite Hg|].
    + by rewrite !has_char_app, (numeral_char newline_char _ (ip_numeral base _ (proj1 Hbase) Hn) eq_refl).
    + clear. induction G as [|x G IH]; [by left|]. cbn [unlines]. rewrite <- sapp_assoc. apply closed_app; [right; by exists x|done].
    + rewrite E. by apply nextIp_last; [|apply Hbase|].
  - rewrite (Hnil eq_refl) in Hg. cbn [app unlines] in Hg. assert (outs l = []) as Ho.
    { rewrite outs_plain in Hg. apply outs_whole in Hw. destruct Hw as [|d ds [r ->] _]; [done|]. by destruct r. }
    rewrite outs_gathered, Ho. done.
Qed.

(** The end of the operation, for a client with the next number. *)
Lemma addPeer_from cr v ps d : Inv v ps → cname c ∈ up v → keyText (clientPubKey d) = true → nextNumber ps <= 254 → clientIP d = ipText base (nextNumber ps) →
  from v (WgConfig.addPeer isAwg cr c d) (λ r v',
    (Inv v' ps ∧ r.1 ≠ NoError ∨ Inv v' (ps ++ [mkPeer (clientPubKey d) (nextNumber ps)])) ∧
    (r.1 = NoError → clientPubKey r.2 = clientPubKey d ∧ clientIP r.2 = clientIP d ∧ pskKey r.2 = psk) ∧
    (Dependable ssh → r.1 = NoError)).
Proof.
  intros Hinv Hup Hkey Hle Hip. unfold WgConfig.addPeer. pose proof (conf_name isAwg) as Hcn. pose proof (conf_settled isAwg) as Hcs.
  pose proof (next_bound ps base (inv_sorted _ _ _ _ _ _ _ Hinv) (inv_peers _ _ _ _ _ _ _ Hinv)) as [Hless [Hge _]].
  eapply from_bind; [apply get_fetches, pub_name|]. intros r v1 (-> & _ & Hd1). destruct (Z.eqb_spec r.1 NoError) as [_|He]; [|by apply from_ret; cbn; split; [left|split]].
  eapply from_bind; [apply get_fetches, psk_name|]. intros r2 v1 (-> & Hr2 & Hd2). destruct (Z.eqb_spec r2.1 NoError) as [He2|He2]; [|by apply from_ret; cbn; split; [left|split]].
  cbn [negb clientPubKey pskKey clientIP]. rewrite (Hr2 He2 Hup), (inv_psk _ _ _ _ _ _ _ Hinv).
  set (part := WgConfig.peerSection (clientPubKey d) psk (clientIP d)). set (p := mkPeer (clientPubKey d) (nextNumber ps)).
  assert (∀ v', settled (putFile (cname c) (WgConfig.m_serverConfigPath isAwg) (content v (cname c) (WgConfig.m_serverConfigPath isAwg) +:+ part) v) v' → Inv v' (ps ++ [p])) as Hput.
  { intros v' Hs. rewrite (inv_conf _ _ _ _ _ _ _ Hinv) in Hs. unfold part in Hs. rewrite Hip in Hs. change (WgConfig.peerSection (clientPubKey d) psk (ipText base (nextNumber ps))) with (peerText psk base p) in Hs.
    rewrite <- wgConf_snoc in Hs. eapply inv_put; [done| | |done].
    - apply Forall_app. split; [apply Hinv|]. constructor; [|done]. split; [done|]. cbn. unfold octet. lia.
    - rewrite map_app. cbn [map]. apply sorted_snoc; [apply Hinv|done]. }
  eapply from_bind; [by apply append_file_fetches|]. intros e v1 (Hu & Hok & Hs & Hd). destruct (Z.eqb_spec e NoError) as [He|He]; cbn [negb].
  - eapply from_bind; [by apply sync_fetches|]. intros r3 v2 [[Hv _ _ _ _] [_ Hsm]]. assert (v2 = v1) as -> by (by destruct Hv as [->|[_ ->]]). apply from_ret.
    split; [|split; [done|by intros [? _]%Hsm]]. right. apply Hput. apply appended_settled; [done|by apply Hok|done].
  - apply from_ret. cbn [fst]. split; [|split; [done|by intros ?%Hd]]. destruct Hs as [Hs|Hs]; [left; split; [by eapply inv_settled|done]|right; by apply Hput].
Qed.

Lemma prepare_from {whole : WholeLines ssh} cr cfg v ps : subnetBase cfg base → Inv v ps →
  from v (WgConfig.prepareWireguardConfig isAwg cr c cfg) (λ r v', ∃ k,
    (Inv v' ps ∧ r.1 ≠ NoError ∨ Inv v' (ps ++ [mkPeer k (nextNumber ps)]) ∧ nextNumber ps <= 254) ∧
    (r.1 = NoError → clientPubKey r.2 = k ∧ clientIP r.2 = ipText base (nextNumber ps) ∧ pskKey r.2 = psk) ∧
    (Dependable ssh → randomWorks → cname c ∈ up v → nextNumber ps <= 254 → r.1 = NoError)).
Proof.
  intros Hsub Hinv. unfold WgConfig.prepareWireguardConfig. eapply from_bind; [apply keys_fetches|]. intros d v1 [Hd ->]. cbn [clientPrivKey clientPubKey].
  destruct (_ || _) eqn:Eempty.
  { apply from_ret. exists "". split; [by left|]. split; [done|]. intros _ Hrand _ _. destruct Hd as [[_ ?]|[Hkey Hpriv]]; [done|].
    apply orb_true_iff in Eempty as [E%String.eqb_eq|E%String.eqb_eq]; [done|]. by rewrite E in Hkey. }
  apply orb_false_iff in Eempty as [_ Epub%String.eqb_neq]. destruct Hd as [[? _]|[Hkey _]]; [done|]. change ("cat " +:+ ?p +:+ " | grep AllowedIPs") with (grepScript p).
  assert (c ≠ DockerContainer.Socks5Proxy) as Hc by (by destruct Hkind as [[-> _]|[-> _]]).
  eapply from_bind; [apply (grep_fetches cr c _ Hc (conf_name isAwg) (conf_settled isAwg))|]. intros r v1 (Hs & Hr & Hd).
  pose proof (inv_settled _ _ _ _ _ _ _ _ Hinv Hs) as Hinv1. destruct (Z.eqb_spec r.1 NoError) as [He|He]; cbn [negb]; [|apply from_ret; exists ""; split; [by left|split; [done|by intros ? _ ?%Hd]]].
  destruct (Hr He) as (Hup & Hg & F & l & l' & E & Hno & Hiss). rewrite E in Hg |- *. clear E. rewrite (next_number v ps F l l' Hinv Hg Hno Hiss).
  destruct (Z.ltb_spec 254 (nextNumber ps)) as [Hgt|Hle]; [apply from_ret; exists ""; split; [by left|split; [done|lia]]|].
  rewrite (subnet_address cfg base _ Hsub). set (d' := mkConnectionData _ _ _ _ _ _ _). intros s Hp Hv.
  destruct (addPeer_from cr v1 ps d' Hinv1 ltac:(by rewrite (proj1 Hs)) Hkey Hle eq_refl s Hp Hv) as (x & s' & t & E & Hp' & H1 & H2 & H3).
  exists x, s', t. split; [done|]. split; [done|]. exists (clientPubKey d). split; [|split; [done|by intros ?%H3]]. destruct H1 as [H1|H1]; [by left|by right].
Qed.

(** ** Revoking a client *)

Lemma remote_run {A} (m : ServerCtrl.RM W A) a s1 t table s : m s = (Ok a, s1, t) → Clients.remote m (mkSys table s) = (Ok a, mkSys table s1, map ClRemote t).
Proof. intros E. unfold Clients.remote. cbn [world globals]. by rewrite E. Qed.

(** An operation of the table on a server seen as [v]. *)
Definition tableFrom {A} (v : View) (table : list QJson) (m : Clients.ClM W A) (T : A → list QJson → View → Prop) : Prop := ∀ s, plain s → view (world s) = v →
  ∃ a table' s' t, m (mkSys table s) = (Ok a, mkSys table' s', t) ∧ plain s' ∧ T a table' (view (world s')).

Lemma table_remote {A B} v table (m : ServerCtrl.RM W A) (k : A → Clients.ClM W B) Q T :
  fetches m Q → (∀ a v1, Q a v v1 → tableFrom v1 table (k a) T) → tableFrom v table (Clients.remote m ≫= k) T.
Proof.
  intros Hm Hk s Hs <-. destruct (Hm s Hs) as (a & s1 & t1 & E1 & Hp1 & H1). destruct (Hk a _ H1 s1 Hp1 eq_refl) as (b & table' & s' & t & E & Hp & HT).
  eexists b, table', s', _. split; [|done]. eapply run_bind; [by apply remote_run|done].
Qed.

Lemma table_ret {A} v table (a : A) (T : A → list QJson → View → Prop) : T a table v → tableFrom v table (mret a) T.
Proof. intros HT s Hs <-. by exists a, table, s, []. Qed.

Lemma table_get {B} v table (k : list QJson → Clients.ClM W B) T : tableFrom v table (k table) T → tableFrom v table (Clients.getTable ≫= k) T.
Proof. intros H s Hs Hv. destruct (H s Hs Hv) as (b & table' & s' & t & E & Hp & HT). exists b, table', s', t. split; [|done]. by eapply (run_bind _ _ _ _ _ []). Qed.

Lemma table_set {B} v table table' (k : unit → Clients.ClM W B) T : tableFrom v table' (k tt) T → tableFrom v table (Clients.setTable table' ≫= k) T.
Proof. intros H s Hs Hv. destruct (H s Hs Hv) as (b & table'' & s' & t & E & Hp & HT). exists b, table'', s', t. split; [|done]. by eapply (run_bind _ _ _ _ _ []). Qed.

Lemma table_emit {B} v table e (k : unit → Clients.ClM W B) T : tableFrom v table (k tt) T → tableFrom v table (emit e ≫= k) T.
Proof. intros H s Hs Hv. destruct (H s Hs Hv) as (b & table' & s' & t & E & Hp & HT). exists b, table', s', ([e] ++ t). split; [|done]. by eapply run_bind. Qed.

(** The last operation on the server. *)
Lemma table_last {A} v table (m : ServerCtrl.RM W A) Q (T : A → list QJson → View → Prop) :
  fetches m Q → (∀ a v1, Q a v v1 → T a table v1) → tableFrom v table (Clients.remote m) T.
Proof.
  intros Hm HT s Hs <-. destruct (Hm s Hs) as (a & s1 & t1 & E1 & Hp1 & H1). eexists a, table, s1, _. split; [by apply remote_run|]. split; [done|]. by apply HT.
Qed.

Lemma table_bind {A B} v table (m : Clients.ClM W A) (k : A → Clients.ClM W B) Q T :
  tableFrom v table m Q → (∀ a table1 v1, Q a table1 v1 → tableFrom v1 table1 (k a) T) → tableFrom v table (m ≫= k) T.
Proof.
  intros Hm Hk s Hs Hv. destruct (Hm s Hs Hv) as (a & table1 & s1 & t1 & E1 & Hp1 & H1).
  destruct (Hk a table1 _ H1 s1 Hp1 eq_refl) as (b & table' & s' & t & E & Hp & HT). exists b, table', s', (t1 ++ t). split; [by eapply run_bind|done].
Qed.

Lemma table_file : name (Clients.clientsTableFile c) = true ∧ temporary (rooted (Clients.clientsTableFile c)) = false ∧
  rooted (Clients.clientsTableFile c) ≠ rooted (WgConfig.m_serverConfigPath isAwg) ∧ rooted (Clients.clientsTableFile c) ≠ rooted (WgConfig.m_serverPskKeyPath isAwg).
Proof. by destruct Hkind as [[-> ->]|[-> ->]]; vm_compute. Qed.

Lemma inv_other v v' ps P d : rooted P ≠ rooted (WgConfig.m_serverConfigPath isAwg) → rooted P ≠ rooted (WgConfig.m_serverPskKeyPath isAwg) →
  Inv v ps → settled (putFile (cname c) P d v) v' → Inv v' ps.
Proof.
  intros H1 H2 Hinv Hs. apply (inv_settled _ _ _ _ _ (putFile (cname c) P d v)); [|done]. destruct Hinv as [H3 H4 H5 H6]. split; [| |done|done].
  - rewrite <- H3. unfold content. cbn [putFile files]. rewrite lookup_insert_ne; [done|]. by intros [= E].
  - rewrite <- H4. unfold content. cbn [putFile files]. rewrite lookup_insert_ne; [done|]. by intros [= E].
Qed.

(** A file replaced, or not. *)
Lemma replaced_settled v v' C P d : up v' = up v → files v' = <[(C, rooted P) := d]> (files v) → settled (putFile C P d v) v'.
Proof. intros Hu Hf. split; [done|]. intros C' p _. by rewrite Hf. Qed.

Lemma uploadTable_from cr v table (T : Z → list QJson → View → Prop) :
  (∀ e v', settled v v' ∧ e ≠ NoError ∨ settled (putFile (cname c) (Clients.clientsTableFile c) (arrayText table) v) v' →
    (Dependable ssh → cname c ∈ up v → e = NoError) → T e table v') →
  tableFrom v table (Clients.uploadTable c cr) T.
Proof.
  intros HT. unfold Clients.uploadTable. apply table_get. destruct table_file as (Hn & _).
  eapply table_last; [by apply upload_fetches|]. intros e v1 (Hu & Hok & Hf & Hd). apply HT; [|done]. destruct (decide (e = NoError)) as [He|He].
  - right. apply replaced_settled; [done|]. by apply Hok.
  - destruct Hf as [Hf|[_ Hf]]; [left|right; by apply replaced_settled]. split; [|done]. split; [done|]. intros C p _. by rewrite Hf.
Qed.

(** A client that can be revoked: a key of its own. *)
Definition revocable (id : string) : Prop := keyText id = true ∧ id ≠ psk ∧ containsText id head = false.

Definition rowIn (row : Z) (table : list QJson) : Prop := 0 <= row < Z.of_nat (length table).

Lemma table_remove {B} v table row (k : unit → Clients.ClM W B) T : rowIn row table →
  tableFrom v (delete (Z.to_nat row) table) (k tt) T → tableFrom v table (Clients.removeRow row ≫= k) T.
Proof.
  intros [H1 H2] Hk s Hs Hv. destruct (Hk s Hs Hv) as (b & table' & s' & t & E & Hp & HT). exists b, table', s', ([ClRemoveRows row row] ++ t). split; [|done].
  eapply run_bind; [|done]. unfold Clients.removeRow, Clients.getTable, Clients.setTable. run_m.
  rewrite (proj2 (Z.ltb_ge row 0)) by lia. rewrite (proj2 (Z.leb_gt _ _)) by lia. done.
Qed.

Lemma revoke_from cr v ps table row : Inv v ps → rowIn row table → revocable (Clients.clientIdOf (arrayAt table row)) →
  tableFrom v table (Clients.revokeWireGuard row c cr) (λ e table' v',
    (Inv v' ps ∧ table' = table ∧ e ≠ NoError ∨
     Inv v' (dropPeer (Clients.clientIdOf (arrayAt table row)) ps) ∧
       (table' = delete (Z.to_nat row) table ∨ table' = table ∧ e ≠ NoError)) ∧
    (e = NoError → content v' (cname c) (Clients.clientsTableFile c) = arrayText table') ∧
    (Dependable ssh → cname c ∈ up v → e = NoError)).
Proof.
  intros Hinv Hrow (Hid & Hne & Hno). unfold Clients.revokeWireGuard. rewrite (kind_path c isAwg Hkind). set (id := Clients.clientIdOf (arrayAt table row)) in *.
  pose proof (conf_name isAwg) as Hcn. destruct table_file as (Htn & Htt & Ht1 & Ht2).
  eapply table_remote; [by apply get_fetches|]. intros r v1 (-> & Hr & Hd0). destruct (Z.eqb_spec r.1 NoError) as [He|He]; cbn [negb]; [|apply table_ret; split; [by left|split; [done|by intros ?%Hd0]]].
  apply table_get. fold id. eapply table_remote; [by apply upload_fetches|]. intros e v1 (Hu & Hok & Hf & Hd).
  assert (cname c ∈ up v → files v1 = <[(cname c, rooted (WgConfig.m_serverConfigPath isAwg)) := Clients.withoutClient id r.2]> (files v) → Inv v1 (dropPeer id ps)) as Hdrop.
  { intros Hup Hf'. rewrite (Hr He Hup), (inv_conf _ _ _ _ _ _ _ Hinv), withoutClient_conf in Hf' by (done || apply Hinv).
    eapply inv_put; [done| | |by apply replaced_settled].
    - eapply sublist_Forall; [apply drop_sublist|apply Hinv].
    - eapply sublist_sorted; [apply sublist_map_numbers, drop_sublist|apply Hinv]. }
  destruct (Z.eqb_spec e NoError) as [He'|He']; cbn [negb].
  - destruct (Hok He') as [Hup Hf']. specialize (Hdrop Hup Hf'). apply table_remove; [done|].
    eapply table_bind; [apply (uploadTable_from cr v1 _ (λ e table' v',
      (settled v1 v' ∧ e ≠ NoError ∨ settled (putFile (cname c) (Clients.clientsTableFile c) (arrayText table') v1) v') ∧ table' = delete (Z.to_nat row) table ∧ (Dependable ssh → cname c ∈ up v1 → e = NoError))); by auto|].
    intros e2 table1 v2 (Hset & -> & Hd2). assert (Inv v2 (dropPeer id ps)) as Hinv2.
    { destruct Hset as [[Hs _]|Hs]; [by eapply inv_settled|by eapply inv_other]. }
    destruct (Z.eqb_spec e2 NoError) as [He2|He2]; cbn [negb]; [|apply table_ret; split; [right; auto|split; [done|by rewrite <- Hu]]].
    eapply table_remote; [apply (sync_fetches cr c [] ("/" +:+ Clients.wgConfPath c)); by rewrite (kind_path c isAwg Hkind)|]. intros r3 v3 [[Hv3 _ _ _ _] [_ Hsm]]. assert (v3 = v2) as -> by (by destruct Hv3 as [->|[_ ->]]).
    apply table_ret. split; [right; auto|]. split; [|by intros [? _]%Hsm]. intros _. destruct Hset as [[_ ?]|Hs]; [done|]. rewrite (settled_content _ _ _ _ Hs) by done.
    unfold content. cbn [putFile files]. by rewrite lookup_insert_eq.
  - apply table_ret. split; [|done]. destruct Hf as [Hf|[Hup Hf]]; [left|right; by auto]. split; [|done]. eapply inv_settled; [done|].
    split; [done|]. intros C p _. by rewrite Hf.
Qed.

(** Whatever the id of the row, the first section with it is gone. *)
Lemma revoke_file cr v table row : rowIn row table →
  tableFrom v table (Clients.revokeWireGuard row c cr) (λ e _ v', (Dependable ssh → cname c ∈ up v → e = NoError) ∧ (e = NoError → content v' (cname c) (WgConfig.m_serverConfigPath isAwg) =
      Clients.withoutClient (Clients.clientIdOf (arrayAt table row)) (content v (cname c) (WgConfig.m_serverConfigPath isAwg)))).
Proof.
  intros Hrow. unfold Clients.revokeWireGuard. rewrite (kind_path c isAwg Hkind). pose proof (conf_name isAwg) as Hcn. destruct table_file as (Htn & Htt & Ht1 & Ht2).
  eapply table_remote; [by apply get_fetches|]. intros r v1 (-> & Hr & Hd0). destruct (Z.eqb_spec r.1 NoError) as [He|He]; cbn [negb]; [|by apply table_ret; split; [intros ?%Hd0|]].
  apply table_get. eapply table_remote; [by apply upload_fetches|]. intros e v1 (Hu & Hok & _ & Hd). destruct (Z.eqb_spec e NoError) as [He'|He']; cbn [negb]; [|by apply table_ret].
  destruct (Hok He') as [Hup Hf]. rewrite (Hr He Hup) in Hf. apply table_remove; [done|].
  eapply table_bind; [apply (uploadTable_from cr v1 _ (λ e table' v', (settled v1 v' ∧ e ≠ NoError ∨ settled (putFile (cname c) (Clients.clientsTableFile c) (arrayText (delete (Z.to_nat row) table)) v1) v') ∧
    (Dependable ssh → cname c ∈ up v1 → e = NoError))); by auto|].
  intros e2 table1 v2 [Hset Hd2]. destruct (Z.eqb_spec e2 NoError) as [He2|He2]; cbn [negb]; [|by apply table_ret; split; [rewrite <- Hu|]].
  eapply table_remote; [apply (sync_fetches cr c [] ("/" +:+ Clients.wgConfPath c)); by rewrite (kind_path c isAwg Hkind)|]. intros r3 v3 [[Hv3 _ _ _ _] [_ Hsm]].
  assert (v3 = v2) as -> by (by destruct Hv3 as [->|[_ ->]]). apply table_ret. split; [by intros [? _]%Hsm|]. intros _. destruct Hset as [[_ ?]|Hs]; [done|].
  rewrite (settled_content _ _ _ _ Hs) by apply conf_settled. unfold content. cbn [putFile files]. rewrite lookup_insert_ne by (by intros [= E]). by rewrite Hf, lookup_insert_eq.
Qed.

(** ** The table *)

Context {jt : JsonText} {calendar : Calendar W}.

Definition idValue (v : QJson) : QJson := QtJson.value (toObject v) "clientId".

Lemma userData_id o x : QtJson.value (insert_key o "userData" (JObject x)) "clientId" = QtJson.value o "clientId".
Proof. by rewrite value_insert. Qed.

Lemma show_ids d table : map idValue (Clients.showClient d table) = map idValue table.
Proof.
  induction table as [|v table IH]; [done|]. cbn [Clients.showClient]. case_match; cbn [map]; [|by rewrite IH]. f_equal. unfold idValue at 1. cbn [toObject]. by rewrite userData_id.
Qed.

Lemma shown_ids l table : map idValue (foldl (λ t d, Clients.showClient d t) table l) = map idValue table.
Proof. revert table. induction l as [|d l IH]; intros table; [done|]. cbn [foldl]. by rewrite IH, show_ids. Qed.

Lemma rowOf_ids id i table table' : map idValue table = map idValue table' → Clients.rowOf id i table = Clients.rowOf id i table'.
Proof.
  revert i table'. induction table as [|v table IH]; intros i [|v' table'] H; try done. injection H as Hv H. cbn [Clients.rowOf]. fold (idValue v) (idValue v'). rewrite Hv.
  by rewrite (IH (i + 1) table' H).
Qed.

Lemma rowOf_range id i table j : Clients.rowOf id i table = Some j → i <= j < i + Z.of_nat (length table).
Proof.
  revert i. induction table as [|v table IH]; intros i; [done|]. cbn [Clients.rowOf length]. case_match; [intros [= <-]; lia|]. intros Hj%IH. lia.
Qed.

(** Reading a table that is not empty: the rows of the file, with what the server shows. *)
Lemma update_from cr v table0 : parseArray (content v (cname c) (Clients.clientsTableFile c)) ≠ [] → cname c ∈ up v →
  tableFrom v table0 (Clients.updateModel c cr) (λ e table v', v' = v ∧
    (e = NoError → map idValue table = map idValue (parseArray (content v (cname c) (Clients.clientsTableFile c))))).
Proof.
  intros Hne Hup. unfold Clients.updateModel. destruct table_file as (Htn & _). apply table_emit, table_set.
  eapply table_remote; [by apply get_fetches|]. intros r v1 (-> & Hr & _). destruct (Z.eqb_spec r.1 NoError) as [He|He]; cbn [negb]; [|by apply table_ret].
  rewrite (Hr He Hup). apply table_set, table_get. set (rows := parseArray _) in *.
  assert (∀ A (x y : A), match rows with [] => x | _ :: _ => y end = y) as Hm by (by intros; destruct rows). rewrite Hm. clear Hm.
  eapply (table_bind _ _ (mret (inr NoError))); [by apply (table_ret v rows _ (λ a t v', a = inr NoError ∧ t = rows ∧ v' = v))|]. intros a t1 v1 (-> & -> & ->).
  eapply (table_bind _ _ _ _ (λ _ t v', t = rows ∧ v' = v)).
  { unfold Clients.wgShow. destruct (negb (Clients.isWireGuardBased c)); [by apply table_ret|]. eapply table_remote; [apply wgshow_fetches|]. intros r2 v2 [[Hv _ _ _ _] _].
    apply table_ret. split; [done|]. by destruct Hv as [->|[_ ->]]. }
  intros shown t1 v1 [-> ->]. apply table_get, table_set, table_ret. split; [done|]. intros _. apply shown_ids.
Qed.

(** The row keeps its id. *)
Lemma rename_from cr v table row clientName stamp : rowIn row table →
  tableFrom v table (Clients.renameClient row clientName c cr stamp) (λ e table' v',
    map idValue table' = map idValue table ∧ (e = NoError → content v' (cname c) (Clients.clientsTableFile c) = arrayText table')).
Proof.
  intros [H1 H2]. unfold Clients.renameClient, Clients.now. apply table_get. destruct table_file as (Htn & Htt & _).
  eapply (table_bind _ _ _ _ (λ _ t v', t = table ∧ v' = v)); [by intros s Hs <-; eexists _, _, _, _|]. intros date t1 v1 [-> ->].
  set (user := if stamp then _ else _). set (new := JObject _).
  eapply (table_bind _ _ _ _ (λ _ t v', t = <[Z.to_nat row := new]> table ∧ v' = v)).
  { unfold Clients.replaceRow. apply table_get. rewrite (proj2 (Z.ltb_ge row 0)), (proj2 (Z.leb_gt _ _)) by lia. cbn [orb]. intros s Hs <-. by eexists _, _, _, _. }
  intros _ t1 v1 [-> ->]. apply table_emit. apply uploadTable_from. intros e v' Hset _. split.
  - assert (idValue new = idValue (arrayAt table row)) as Hid by (unfold idValue, new; cbn [toObject]; apply userData_id).
    unfold arrayAt in Hid. rewrite (proj2 (Z.ltb_ge row 0)) in Hid by lia. destruct (lookup_lt_is_Some_2 table (Z.to_nat row)) as [x Hx]; [lia|].
    rewrite Hx in Hid. cbn [default] in Hid. rewrite <- (list_insert_id table _ _ Hx) at 2. change (idValue <$> <[Z.to_nat row:=new]> table = idValue <$> <[Z.to_nat row:=x]> table).
    by rewrite !list_fmap_insert, Hid.
  - intros He. destruct Hset as [[_ ?]|Hs]; [done|]. rewrite (settled_content _ _ _ _ Hs) by done. unfold content. cbn [putFile files]. by rewrite lookup_insert_eq.
Qed.

Lemma append_from cr v table0 id clientName : parseArray (content v (cname c) (Clients.clientsTableFile c)) ≠ [] → cname c ∈ up v →
  tableFrom v table0 (Clients.appendClient id clientName c cr) (λ e table v',
    let rows := parseArray (content v (cname c) (Clients.clientsTableFile c)) in
    e = NoError → content v' (cname c) (Clients.clientsTableFile c) = arrayText table ∧
      map idValue table = map idValue rows ++ (match Clients.rowOf id 0 rows with Some _ => [] | None => [JString id] end)).
Proof.
  intros Hne Hup. unfold Clients.appendClient. eapply table_bind; [by apply update_from|]. intros e table v1 [-> Hids]. set (rows := parseArray _) in *. cbn zeta.
  destruct (Z.eqb_spec e NoError) as [He|He]; cbn [negb]; [|by apply table_ret]. specialize (Hids He). clear e He. apply table_get.
  rewrite (rowOf_ids id 0 table rows Hids). destruct (Clients.rowOf id 0 rows) as [i|] eqn:Ei.
  - assert (rowIn i table) as Hi.
    { apply rowOf_range in Ei. unfold rowIn. apply (f_equal length) in Hids. rewrite !length_map in Hids. lia. }
    intros s Hs Hv. destruct (rename_from cr v table i clientName true Hi s Hs Hv) as (e & table' & s' & t & E & Hp & H1 & H2). exists e, table', s', t. split; [done|]. split; [done|].
    intros He. split; [by apply H2|]. by rewrite H1, Hids, app_nil_r.
  - unfold Clients.now. eapply (table_bind _ _ _ _ (λ _ t v', t = table ∧ v' = v)); [by intros s Hs <-; eexists _, _, _, _|]. intros date t1 v1 [-> ->].
    apply table_emit, table_set. apply uploadTable_from. intros e v' Hset _ He. destruct Hset as [[_ ?]|Hs]; [done|].
    split; [|by rewrite map_app, Hids]. destruct table_file as (_ & Htt & _). rewrite (settled_content _ _ _ _ Hs) by done.
    unfold content. cbn [putFile files]. by rewrite lookup_insert_eq.
Qed.

End Operations.
