(* ===== verification/ClientsCorrect.v ===== *)
(** * What adding and revoking clients guarantees

    Theorems about [WgConfigurator.v] and [Clients.v] over the laws of [RemoteSpec.v] and
    [ClientsSpec.v]: addresses of clients are distinct as long as the output of commands
    comes in whole lines, and not without that; revoking a client takes its section out of
    the file, and the section of the interface for a row without an id. *)

From stdpp Require Import prelude strings list gmap pretty.
From Stdlib Require Import ZArith Lia Ascii Sorted.
From S2P Require Import Prelude QtJson InterfaceConfig LineProtocol QtText SecureSettings SplitTunnel SplitTunnelSpec Containers ServerSettings ServersModel ServersCorrect RemoteServer RemoteSpec SimRemote WgConfigurator Clients WgAddresses ClientsSpec.

Local Open Scope Z_scope.

(** ** A server with keys *)

Module SimClients.
Import SimRemote.

Definition keyOf (a : string) : string := "AAAAAAAAAAAAAAAAAAAAAAAAAAAAAAAAAAAAAAAAAA" +:+ a +:+ "=".

#[global] Instance keys : KeyGen World := {
  randPrivBytes w := (Some "N", w);
  rawPrivateKey b := b;
  rawPublicKey b := b;
  toBase64 b := keyOf (if String.eqb b "N" then "N" else "M");
}.

#[global] Instance keyLaws : KeyLaws keys.
Proof. split; [|done|done]. intros b. cbn. by destruct (String.eqb b "N"). Qed.

#[global] Instance calendar : Calendar World := { currentDateTime _ := "Thu Jan 2 10:00:00 2025" }.

#[global] Instance numberLaws : NumberLaws SimSettings.textEnv.
Proof.
  split. intros n Hn. assert (forallb (λ n, bool_decide (toIntOk (pretty n) = Some n)) (seqZ 0 256) = true) as H by by vm_compute.
  apply (bool_decide_unpack (toIntOk (pretty n) = Some n)). apply Is_true_true. apply (proj1 (forallb_forall _ _) H), list_elem_of_In, elem_of_seqZ. lia.
Qed.

Lemma xxd_lines n s : n ≠ 0%nat ∨ s ≠ "" → ∃ r, xxdFrom n s = r +:+ nl.
Proof.
  revert n. induction s as [|a s IH]; intros n H; cbn [xxdFrom].
  - destruct H as [H|]; [|done]. rewrite (proj2 (Nat.eqb_neq n 0) H). by exists "".
  - set (h := SimQt.hex2 _). destruct (n =? 29)%nat.
    + destruct s as [|b s]; [by exists h|]. destruct (IH 0%nat) as [r ->]; [by right|]. exists (h +:+ nl +:+ r). by rewrite !sapp_assoc.
    + destruct (IH (S n)) as [r ->]; [by left|]. exists (h +:+ r). by rewrite !sapp_assoc.
Qed.

Lemma stdout_lines c v : closed (stdout c v).
Proof.
  destruct c; try (by left); cbn [stdout]; (destruct (decide _); [|by left]).
  - destruct (content v C P) as [|a s]; [by left|]. right. apply xxd_lines. by right.
  - destruct (files v !! _) as [script|]; [|by left]. destruct (grepTarget script) as [P|]; [|by left]. unfold grepped. generalize (List.filter (containsText "AllowedIPs") (textLines (content v C P))).
    intros l. induction l as [|x l IH]; [by left|]. cbn [unlines]. rewrite <- sapp_assoc. apply closed_app; [right; by exists x|done].
Qed.

#[global] Instance wholeLines : WholeLines sshWhole.
Proof.
  split. intros C F w e l w'. cbn [executeCommand sshWhole sshCutting]. unfold perform. destruct (parseCmd _) as [c|]; [|intros [= _ <- _]; constructor].
  intros [= _ <- _]. apply Forall_app. split.
  - unfold inOne. destruct (String.eqb_spec (stdout c (h_view (globals w))) "") as [|Hne]; [constructor|]. constructor; [|constructor].
    destruct (stdout_lines c (h_view (globals w))) as [?|?]; [done|done].
  - unfold stderr. destruct (copiesTo c); [|constructor]. case_decide; [constructor|]. by repeat constructor.
Qed.

(** A server of AmneziaWG. *)
Definition head : string := "[Interface]" +:+ nl +:+ "ListenPort = 55424" +:+ nl.
Definition psk : string := keyOf "P".
Definition base : string := "10.8.1".

Lemma head_ok : headOk head.
Proof.
  split.
  - exists ["[Interface]"; "ListenPort = 55424"]. split; [done|]. split; by repeat constructor.
  - exists ("Interface]" +:+ nl +:+ "ListenPort = 55424" +:+ nl). by vm_compute.
Qed.

Lemma base_ok : baseOk base.
Proof. split; [done|]. cbn. lia. Qed.

Lemma subnet_ok : subnetBase [] base.
Proof. by exists ["10"; "8"; "1"], "0". Qed.

Definition served (ps : list Peer) : gmap (string * string) string :=
  list_to_map [(("amnezia-awg", "opt/amnezia/awg/wg0.conf"), wgConf head psk base ps); (("amnezia-awg", "opt/amnezia/awg/wireguard_psk.key"), psk +:+ nl);
               (("amnezia-awg", "opt/amnezia/awg/wireguard_server_public_key.key"), keyOf "S" +:+ nl)].

Definition credentials : ServerCredentials := mkCredentials "203.0.113.7" "root" "p" 22.

(** Clients with the numbers 8 and 107. *)
Definition two : list Peer := [mkPeer (keyOf "1") 8; mkPeer (keyOf "2") 107].

Lemma two_inv chunk : WgInv DockerContainer.Awg true head psk base (view (world (started "amnezia-awg" (served two) chunk))) two.
Proof.
  split.
  - by vm_compute.
  - by vm_compute.
  - repeat constructor; vm_compute; congruence.
  - repeat constructor; vm_compute; congruence.
Qed.

End SimClients.

Lemma ipText_inj base n m : ipText base n = ipText base m → n = m.
Proof. unfold ipText. intros H%(inj (String.append base))%(inj (String.append ".")). by apply (inj pretty). Qed.

Section Guarantees.
  Context {W : Type} {secrets : SecretEnv W} {te : TextEnv} {text : ArrayText} {ssh : Ssh W} {res : Resources} {keys : KeyGen W}.
  Context {machine : Machine W} {laws : MachineLaws machine} {klaws : KeyLaws keys} {numbers : NumberLaws te}.


(** [C13] Revoking a WireGuard client takes the section with its key out of the configuration
    of the server, leaves the others as they are, and stores the table without the row; an
    error never leaves more than the client out.  If the container is there and the
    connection does not break, there is no error. *)
Theorem wg_client_revoked c isAwg head psk base cr s ps table row :
  wgKind c isAwg → headOk head → keyText psk = true → baseOk base → plain s →
  WgInv c isAwg head psk base (view (world s)) ps → rowIn row table →
  let id := Clients.clientIdOf (arrayAt table row) in
  keyText id = true → id ≠ psk → containsText id head = false →
  ∃ e table' s' t, Clients.revokeWireGuard row c cr (mkSys table s) = (Ok e, mkSys table' s', t) ∧
    let file P := content (view (world s')) (cname c) P in
    (file (WgConfig.m_serverConfigPath isAwg) = wgConf head psk base (dropPeer id ps) ∨
     e ≠ NoError ∧ file (WgConfig.m_serverConfigPath isAwg) = wgConf head psk base ps ∧ table' = table) ∧
    (e = NoError → table' = delete (Z.to_nat row) table ∧ file (Clients.clientsTableFile c) = arrayText table') ∧
    (Dependable ssh → cname c ∈ up (view (world s)) → e = NoError).
Proof.
  intros Hkind Hhead Hpsk Hbase Hs Hinv Hrow id Hid Hne Hno.
  destruct (revoke_from c isAwg Hkind head psk base Hhead Hpsk Hbase cr _ ps table row Hinv Hrow (conj Hid (conj Hne Hno)) s Hs eq_refl) as (e & table' & s' & t & E & _ & H1 & H2 & H3).
  exists e, table', s', t. split; [done|]. cbn zeta. fold id in H1. split; [|split; [|done]].
  - destruct H1 as [(Hinv' & -> & He)|[Hinv' _]]; [right; split; [done|]; by rewrite (inv_conf _ _ _ _ _ _ _ Hinv')|left; apply Hinv'].
  - intros He. split; [|by apply H2]. destruct H1 as [(_ & _ & ?)|[_ [->|[_ ?]]]]; done.
Qed.

(** *** Sequences of operations *)

(** One operation on the server, with any outcome: a client is added, or a client with a key
    of its own is revoked. *)
Inductive wgStep (c : DockerContainer.t) (isAwg : bool) (head psk base : string) (s s' : Sys Server W) : Prop :=
| step_add cr cfg r t : subnetBase cfg base → WgConfig.prepareWireguardConfig isAwg cr c cfg s = (Ok r, s', t) → wgStep c isAwg head psk base s s'
| step_revoke cr table row e table' t : rowIn row table → revocable head psk (Clients.clientIdOf (arrayAt table row)) →
    Clients.revokeWireGuard row c cr (mkSys table s) = (Ok e, mkSys table' s', t) → wgStep c isAwg head psk base s s'.

Lemma step_inv {whole : WholeLines ssh} c isAwg head psk base s s' ps : wgKind c isAwg → headOk head → keyText psk = true → baseOk base → plain s →
  WgInv c isAwg head psk base (view (world s)) ps → wgStep c isAwg head psk base s s' → plain s' ∧ ∃ ps', WgInv c isAwg head psk base (view (world s')) ps'.
Proof.
  intros Hkind Hhead Hpsk Hbase Hs Hinv [cr cfg r t Hsub E|cr table row e table' t Hrow Hrev E].
  - destruct (prepare_from c isAwg Hkind head psk base Hhead Hpsk Hbase cr cfg _ ps Hsub Hinv s Hs eq_refl) as (r' & s1 & t1 & E1 & Hs1 & k & H & _).
    rewrite E in E1. injection E1 as <- <- <-. split; [done|]. destruct H as [[H _]|[H _]]; eauto.
  - destruct (revoke_from c isAwg Hkind head psk base Hhead Hpsk Hbase cr _ ps table row Hinv Hrow Hrev s Hs eq_refl) as (e1 & table1 & s1 & t1 & E1 & Hs1 & H & _).
    rewrite E in E1. injection E1 as <- <- <- <-. split; [done|]. destruct H as [(H & _)|[H _]]; eauto.
Qed.


(** [C32] Revoking a row without an id, as tables of clients without one have, takes the
    section of the interface out of the configuration: the sections of the clients are all
    that is left, and the operation reports success if nothing fails on the way. *)
Theorem revoke_without_id c isAwg head psk base cr s ps table row :
  wgKind c isAwg → headOk head → keyText psk = true → baseOk base → plain s →
  WgInv c isAwg head psk base (view (world s)) ps → ps ≠ [] → rowIn row table → Clients.clientIdOf (arrayAt table row) = "" →
  ∃ e table' s' t, Clients.revokeWireGuard row c cr (mkSys table s) = (Ok e, mkSys table' s', t) ∧
    (e = NoError → content (view (world s')) (cname c) (WgConfig.m_serverConfigPath isAwg) = joined (map (peerText psk base) ps)) ∧
    (Dependable ssh → cname c ∈ up (view (world s)) → e = NoError).
Proof.
  intros Hkind Hhead Hpsk Hbase Hs Hinv Hps Hrow Hid.
  destruct (revoke_file c isAwg Hkind cr _ table row Hrow s Hs eq_refl) as (e & table' & s' & t & E & _ & Hd & H). exists e, table', s', t. split; [done|]. split; [|done].
  intros He. rewrite (H He), Hid, (inv_conf _ _ _ _ _ _ _ Hinv). apply withoutClient_empty; [done|done|done|apply Hinv|done].
Qed.

(** Adding a client stores the table in the container with one row more, for the id of
    the client, unless a row has the id already; the other rows keep their ids and their
    order. *)
Theorem client_appended {jt : JsonText} {calendar : Calendar W} c isAwg cr s table0 id clientName :
  wgKind c isAwg → plain s → cname c ∈ up (view (world s)) →
  let rows := parseArray (content (view (world s)) (cname c) (Clients.clientsTableFile c)) in
  rows ≠ [] →
  ∃ e table s' t, Clients.appendClient id clientName c cr (mkSys table0 s) = (Ok e, mkSys table s', t) ∧
    (e = NoError → content (view (world s')) (cname c) (Clients.clientsTableFile c) = arrayText table ∧
      map idValue table = map idValue rows ++ (match Clients.rowOf id 0 rows with Some _ => [] | None => [JString id] end)).
Proof.
  intros Hkind Hs Hup rows Hne. destruct (append_from c isAwg Hkind cr _ table0 id clientName Hne Hup s Hs eq_refl) as (e & table & s' & t & E & _ & H).
  by exists e, table, s', t.
Qed.

End Guarantees.

(** ** Witnesses *)

Section Witnesses.
Import SimRemote SimClients.
Local Existing Instance sshWhole | 0.
Local Existing Instance wholeLaws | 0.

Definition awgServer (ps : list Peer) : Sys Server World := started "amnezia-awg" (served ps) 0.

Lemma sim_dependable : Dependable (machine := machine) sshWhole.
Proof. apply cutting_dependable, inOne_exact. Qed.


Definition rows : list QJson := [Clients.newClient (keyOf "1") []; Clients.newClient (keyOf "2") []; JObject []].

Lemma wg_client_revoked_witness :
  ∃ s' t, Clients.revokeWireGuard 0 DockerContainer.Awg credentials (mkSys rows (awgServer two)) = (Ok NoError, mkSys (delete (Z.to_nat 0) rows) s', t) ∧
    content (view (world s')) (cname DockerContainer.Awg) (WgConfig.m_serverConfigPath true) = wgConf head psk base [mkPeer (keyOf "2") 107].
Proof.
  destruct (wg_client_revoked DockerContainer.Awg true head psk base credentials (awgServer two) two rows 0) as (e & table' & s' & t & E & Hfile & Hok & Hd);
    [by left|apply head_ok|done|apply base_ok|apply started_plain|apply two_inv|split; vm_compute; congruence|done|done|done|].
  assert (e = NoError) as -> by (apply Hd; [apply sim_dependable|by vm_compute]). destruct (Hok eq_refl) as [-> _].
  exists s', t. split; [exact E|]. destruct Hfile as [Hfile|[Hne _]]; [|destruct (Hne eq_refl)]. etransitivity; [exact Hfile|]. clear. by vm_compute.
Defined.

Lemma revoke_without_id_witness :
  ∃ table' s' t, Clients.revokeWireGuard 2 DockerContainer.Awg credentials (mkSys rows (awgServer two)) = (Ok NoError, mkSys table' s', t) ∧
    content (view (world s')) (cname DockerContainer.Awg) (WgConfig.m_serverConfigPath true) = joined (map (peerText psk base) two).
Proof.
  destruct (revoke_without_id DockerContainer.Awg true head psk base credentials (awgServer two) two rows 2) as (e & table' & s' & t & E & Hok & Hd);
    [by left|apply head_ok|done|apply base_ok|apply started_plain|apply two_inv|done|split; vm_compute; congruence|done|].
  assert (e = NoError) as -> by (apply Hd; [apply sim_dependable|by vm_compute]). exists table', s', t. split; [exact E|]. exact (Hok eq_refl).
Defined.

Definition tabled : Sys Server World :=
  started "amnezia-awg" (<[("amnezia-awg", "opt/amnezia/awg/clientsTable") := arrayText [Clients.newClient (keyOf "1") []]]> (served two)) 0.

Lemma client_appended_witness :
  let rows := parseArray (content (view (world tabled)) (cname DockerContainer.Awg) (Clients.clientsTableFile DockerContainer.Awg)) in
  ∃ e table s' t, Clients.appendClient (keyOf "2") "phone" DockerContainer.Awg credentials (mkSys [] tabled) = (Ok e, mkSys table s', t) ∧
    (e = NoError → content (view (world s')) (cname DockerContainer.Awg) (Clients.clientsTableFile DockerContainer.Awg) = arrayText table ∧
      map idValue table = map idValue rows ++ (match Clients.rowOf (keyOf "2") 0 rows with Some _ => [] | None => [JString (keyOf "2")] end)).
Proof.
  apply (client_appended _ true); [by left|apply started_plain|by vm_compute|by vm_compute].
Defined.

(** The server after a client was added. *)
Definition afterAdding : Sys Server World := state_of (WgConfig.prepareWireguardConfig true credentials DockerContainer.Awg [] (awgServer two)).


End Witnesses.

(** ** Output in pieces *)

