(* ===== verification/Cxx.v ===== *)
(** * C++ code that computes and throws

    The fragment of C++ that [src/client/3rd/qrcodegen/qrcodegen.cpp] is written in:
    exceptions, counting loops, vectors with checked access, and the bits of
    integers.  A failed [assert] is an exception of its own, so that code which
    returns has passed its assertions. *)

From stdpp Require Import prelude strings list list_numbers.
From Stdlib Require Import ZArith Lia.
From S2P Require Import Prelude.

Local Open Scope Z_scope.

(** ** Exceptions *)

Inductive exn :=
| domain_error (what : string)
| length_error (what : string)
| invalid_argument (what : string)
| overflow_error (what : string)
| data_too_long (what : string)
| out_of_range
| assertion_failed.

#[global] Instance exn_eq_dec : EqDecision exn.
Proof. solve_decision. Defined.

#[global] Instance res_eq_dec {E A} `{EqDecision E, EqDecision A} : EqDecision (res E A).
Proof. solve_decision. Defined.

Definition exc : Type → Type := res exn.

#[global] Instance exc_eq_dec {A} `{EqDecision A} : EqDecision (exc A) := res_eq_dec.

#[export] Instance exc_ret : MRet exc := λ A a, Ok a.

#[export] Instance exc_bind : MBind exc := λ A B k m,
  match m with
  | Ok a => k a
  | Err e => Err e
  | OutOfFuel => OutOfFuel
  end.

Definition raise {A} (e : exn) : exc A := Err e.

Definition assert_that (b : bool) : exc unit := if b then mret tt else raise assertion_failed.

(** ** Loops *)

(** A [for] loop over the elements of a list that updates a state. *)
Fixpoint loop {A S} (l : list A) (f : S → A → exc S) (s : S) : exc S :=
  match l with
  | [] => mret s
  | a :: l => s ← f s a; loop l f s
  end.

(** The values of [i] in [for (int i = lo; i < hi; i++)]. *)
Definition range (lo hi : Z) : list Z := seqZ lo (hi - lo).

(** ** Vectors *)

(** [v.at(i)]; a negative index is converted to a huge one. *)
Definition at_ {A} (v : list A) (i : Z) : exc A :=
  if i <? 0 then raise out_of_range
  else match v !! Z.to_nat i with Some a => mret a | None => raise out_of_range end.

(** [v.at(i) = a]. *)
Definition set_at {A} (v : list A) (i : Z) (a : A) : exc (list A) :=
  if (i <? 0) || (Z.of_nat (length v) <=? i) then raise out_of_range
  else mret (<[Z.to_nat i := a]> v).

(** [v.size()]. *)
Definition size_of {A} (v : list A) : Z := Z.of_nat (length v).

(** ** Reasoning *)

Create HintDb qr.

(** Case analysis on conditions, with contradictory cases closed by arithmetic. *)
Ltac split_ifs :=
  repeat match goal with
  | |- context [if ?b then _ else _] => destruct b eqn:?; try lia
  | H : context [if ?b then _ else _] |- _ => destruct b eqn:?; try lia; try discriminate
  end.

Lemma bind_ok {A B} (m : exc A) (k : A → exc B) b :
  m ≫= k = Ok b → ∃ a, m = Ok a ∧ k a = Ok b.
Proof. destruct m; cbn; eauto; done. Qed.

Lemma bind_Ok {A B} (a : A) (k : A → exc B) : (Ok a : exc A) ≫= k = k a.
Proof. done. Qed.

Lemma bind_mret {A B} (a : A) (k : A → exc B) : mret a ≫= k = k a.
Proof. done. Qed.

Lemma assert_ok {B} (b : bool) (k : unit → exc B) : b = true → assert_that b ≫= k = k tt.
Proof. by intros ->. Qed.

Lemma loop_nil {A S} (f : S → A → exc S) s : loop [] f s = Ok s.
Proof. done. Qed.

Lemma loop_cons {A S} a (l : list A) (f : S → A → exc S) s s' :
  f s a = Ok s' → loop (a :: l) f s = loop l f s'.
Proof. intros H. cbn. by rewrite H. Qed.

Lemma loop_app {A S} (l1 l2 : list A) (f : S → A → exc S) s :
  loop (l1 ++ l2) f s = loop l1 f s ≫= loop l2 f.
Proof.
  revert s. induction l1 as [|a l1 IH]; intros s; [done|]. cbn. destruct (f s a); cbn; [apply IH|done..].
Qed.

(** Nested loops are one loop. *)
Lemma loop_nested {A B S} (l : list A) (g : A → list B) (f : S → B → exc S) s :
  loop l (λ s a, loop (g a) f s) s = loop (l ≫= g) f s.
Proof.
  revert s. induction l as [|a l IH]; intros s; [done|].
  change (loop (a :: l) (λ s a, loop (g a) f s) s) with (loop (g a) f s ≫= loop l (λ s a, loop (g a) f s)).
  cbn [mbind list_bind]. rewrite loop_app. destruct (loop (g a) f s); [apply IH|done..].
Qed.

Lemma loop_map {A B S} (h : A → B) (l : list A) (f : S → B → exc S) s :
  loop (map h l) f s = loop l (λ s a, f s (h a)) s.
Proof. revert s. induction l as [|a l IH]; intros s; [done|]. cbn. by destruct (f s (h a)); cbn. Qed.

Lemma loop_ext {A S} (l : list A) (f g : S → A → exc S) s :
  (∀ s a, a ∈ l → f s a = g s a) → loop l f s = loop l g s.
Proof.
  revert s. induction l as [|a l IH]; intros s H; [done|]. cbn. rewrite H by left.
  destruct (g s a); cbn; [|done..]. apply IH. intros s' b Hb. apply H. by right.
Qed.

(** An invariant of the state for each prefix of the list; the loop returns. *)
Lemma loop_inv {A S} (P : list A → S → Prop) (l : list A) (f : S → A → exc S) s :
  P [] s →
  (∀ p a q s, l = p ++ a :: q → P p s → ∃ s', f s a = Ok s' ∧ P (p ++ [a]) s') →
  ∃ s', loop l f s = Ok s' ∧ P l s'.
Proof.
  intros H0 Hstep.
  assert (∀ q p s, l = p ++ q → P p s → ∃ s', loop q f s = Ok s' ∧ P l s') as H; [|by apply (H l [])].
  clear s H0. induction q as [|a q IH]; intros p s Hl HP.
  - exists s. by rewrite Hl, app_nil_r in *.
  - destruct (Hstep p a q s Hl HP) as (s' & Hf & HP'). cbn. rewrite Hf. cbn.
    apply (IH (p ++ [a])); [|done]. by rewrite <- app_assoc.
Qed.

Lemma at_ok {A} (v : list A) i a : at_ v i = Ok a ↔ 0 <= i ∧ v !! Z.to_nat i = Some a.
Proof.
  unfold at_. destruct (Z.ltb_spec i 0); [split; [done|lia]|].
  destruct (v !! Z.to_nat i); split; [intros [= ->]; auto|intros [_ [= ->]]; done|done|intros [_ ?]; done].
Qed.

Lemma set_at_ok {A} (v : list A) i a :
  0 <= i < size_of v → set_at v i a = Ok (<[Z.to_nat i := a]> v).
Proof. unfold set_at, size_of. intros Hi. case_match; [lia|done]. Qed.

Lemma elem_of_range lo hi i : i ∈ range lo hi ↔ lo <= i < hi.
Proof. unfold range. rewrite elem_of_seqZ. lia. Qed.

Lemma range_snoc lo hi : lo <= hi → range lo (hi + 1) = range lo hi ++ [hi].
Proof.
  intros H. unfold range. replace (hi + 1 - lo) with ((hi - lo) + 1) by lia. rewrite seqZ_app by lia. f_equal.
  rewrite Zplus_minus. rewrite seqZ_cons by lia. by rewrite seqZ_nil by lia.
Qed.

Lemma range_nil lo hi : hi <= lo → range lo hi = [].
Proof. intros H. apply seqZ_nil. lia. Qed.

Lemma range_cons lo hi : lo < hi → range lo hi = lo :: range (lo + 1) hi.
Proof. intros H. unfold range. rewrite seqZ_cons by lia. rewrite Z.add_1_r. do 2 f_equal; lia. Qed.

Lemma range_app lo mid hi : lo <= mid <= hi → range lo hi = range lo mid ++ range mid hi.
Proof.
  intros H. unfold range. replace (hi - lo) with ((mid - lo) + (hi - mid)) by lia. rewrite seqZ_app by lia. by rewrite Zplus_minus.
Qed.

Lemma size_range lo hi : lo <= hi → size_of (range lo hi) = hi - lo.
Proof. intros H. unfold size_of, range. rewrite length_seqZ. lia. Qed.

Lemma lookup_range lo hi i : (Z.of_nat i < hi - lo) → range lo hi !! i = Some (lo + Z.of_nat i).
Proof. intros H. unfold range. rewrite lookup_seqZ_lt by lia. done. Qed.

(** A loop that only appends to its state. *)
Lemma append_loop {A B} (l : list A) (f : list B → A → exc (list B)) (g : A → list B) acc :
  (∀ acc a, a ∈ l → f acc a = Ok (acc ++ g a)) → loop l f acc = Ok (acc ++ (l ≫= g)).
Proof.
  revert acc. induction l as [|a l IH]; intros acc H; [cbn; by rewrite app_nil_r|].
  rewrite (loop_cons _ _ _ _ (acc ++ g a)) by (apply H; left). rewrite IH by (intros; apply H; by right).
  cbn. by rewrite <- app_assoc.
Qed.
