(* ===== verification/ReedSolomon.v ===== *)
(** * Error correction of QR codes

    Models the Reed-Solomon functions of [src/client/3rd/qrcodegen/qrcodegen.cpp]:
    multiplication in the field of 256 elements, the generator polynomial and the
    remainder appended to a block.  A byte is an integer below 256.  A polynomial
    is the list of its coefficients, the highest power first, as in the code. *)

From stdpp Require Import prelude strings list list_numbers.
From Stdlib Require Import ZArith Lia.
From S2P Require Import Prelude Cxx.

Local Open Scope Z_scope.

(** ** The code *)

(** One round of the Russian peasant multiplication. *)
Definition peasantStep (x y z i : Z) : Z :=
  let z := Z.lxor (Z.shiftl z 1) (Z.shiftr z 7 * 0x11D) in
  Z.lxor z (Z.land (Z.shiftr y i) 1 * x).

Definition reedSolomonMultiply (x y : Z) : Z :=
  foldl (peasantStep x y) 0 [7; 6; 5; 4; 3; 2; 1; 0] mod 256.

(** Multiplication by [x - root] in place: an entry takes in its neighbour before
    that one is overwritten. *)
Fixpoint timesRoot (result : list Z) (root : Z) : list Z :=
  match result with
  | [] => []
  | c :: r =>
      match r with
      | [] => reedSolomonMultiply c root
      | c' :: _ => Z.lxor (reedSolomonMultiply c root) c'
      end :: timesRoot r root
  end.

Fixpoint divisorLoop (n : nat) (result : list Z) (root : Z) : list Z :=
  match n with
  | O => result
  | S n => divisorLoop n (timesRoot result root) (reedSolomonMultiply root 2)
  end.

Definition reedSolomonComputeDivisor (degree : Z) : exc (list Z) :=
  if (degree <? 1) || (255 <? degree) then raise (domain_error "Degree out of range")
  else mret (divisorLoop (Z.to_nat degree) (replicate (Z.to_nat degree - 1) 0 ++ [1]) 1).

(** One byte of the polynomial division; the divisor is not empty. *)
Definition remainderStep (divisor result : list Z) (b : Z) : list Z :=
  match result with
  | [] => []
  | r0 :: r =>
      let factor := Z.lxor b r0 in
      zip_with (λ c d, Z.lxor c (reedSolomonMultiply d factor)) (r ++ [0]) divisor
  end.

Definition reedSolomonComputeRemainder (data divisor : list Z) : list Z :=
  foldl (remainderStep divisor) (replicate (length divisor) 0) data.

(** ** Vocabulary *)

Declare Scope gf_scope.
Infix "⊗" := reedSolomonMultiply (at level 40, left associativity) : gf_scope.
Infix "⊕" := Z.lxor (at level 50, left associativity) : gf_scope.
Local Open Scope gf_scope.

Fixpoint gpow (x : Z) (n : nat) : Z := match n with O => 1 | S n => gpow x n ⊗ x end.

(** The value of a polynomial, by Horner's rule. *)
Definition eval (l : list Z) (x : Z) : Z := foldl (λ acc c, acc ⊗ x ⊕ c) 0 l.

(** A block is valid if the powers of 2 below the degree are roots. *)
Definition valid_block (degree : nat) (block : list Z) : Prop :=
  ∀ i, (i < degree)%nat → eval block (gpow 2 i) = 0.

(** The number of positions at which two blocks differ. *)
Fixpoint distance (u v : list Z) : nat :=
  match u, v with
  | a :: u, b :: v => (if a =? b then 0 else 1) + distance u v
  | _, _ => 0
  end.

(** ** Bytes under xor *)

Lemma byte_testbit a : byte a ↔ 0 <= a ∧ ∀ i, 8 <= i → Z.testbit a i = false.
Proof.
  unfold byte. split.
  - intros [H0 H8]. split; [done|]. intros i Hi. destruct (decide (a = 0)) as [->|]; [apply Z.testbit_0_l|].
    apply Z.bits_above_log2; [lia|]. apply (Z.lt_le_trans _ 8); [|lia]. apply Z.log2_lt_pow2; lia.
  - intros [H0 Hb]. split; [done|]. destruct (Z.lt_ge_cases a 256) as [|Hge]; [done|exfalso].
    assert (8 <= Z.log2 a) as Hl by (apply Z.log2_le_pow2; lia).
    specialize (Hb (Z.log2 a) Hl). rewrite Z.bit_log2 in Hb by lia. done.
Qed.

Lemma byte_lxor a b : byte a → byte b → byte (a ⊕ b).
Proof.
  rewrite !byte_testbit. intros [Ha Ha'] [Hb Hb']. split; [by apply Z.lxor_nonneg|].
  intros i Hi. by rewrite Z.lxor_spec, Ha', Hb'.
Qed.

Lemma byte_0 : byte 0.
Proof. unfold byte. lia. Qed.

Lemma lxor_cancel a b : a ⊕ b ⊕ b = a.
Proof. by rewrite Z.lxor_assoc, Z.lxor_nilpotent, Z.lxor_0_r. Qed.

Lemma lxor_swap a b c d : (a ⊕ b) ⊕ (c ⊕ d) = (a ⊕ c) ⊕ (b ⊕ d).
Proof. rewrite !Z.lxor_assoc. f_equal. rewrite <- !Z.lxor_assoc. f_equal. apply Z.lxor_comm. Qed.

Lemma lxor_zero_eq a b : a ⊕ b = 0 → a = b.
Proof. apply Z.lxor_eq. Qed.

(** ** Multiplication is bilinear *)

(** Multiplication by the variable. *)
Definition xtimes (z : Z) : Z := Z.shiftl z 1 ⊕ Z.shiftr z 7 * 0x11D.

Lemma byte_xtimes z : byte z → byte (xtimes z).
Proof.
  intros Hz. pose proof (bytes_spec (λ z, (0 <=? xtimes z) && (xtimes z <? 256)) z Hz eq_refl) as H.
  cbn beta in H. unfold byte. lia.
Qed.

(** The bit of [y] that decides a round. *)
Definition ybit (y i : Z) : Z := Z.land (Z.shiftr y i) 1.

Lemma ybit_b2z y i : 0 <= i → ybit y i = Z.b2z (Z.testbit y i).
Proof.
  intros Hi. unfold ybit. change 1 with (Z.ones 1). rewrite Z.land_ones, Z.pow_1_r by lia.
  rewrite <- Z.bit0_mod, Z.shiftr_spec by lia. done.
Qed.

Lemma scale_lxor_l (b : bool) x x' : Z.b2z b * (x ⊕ x') = Z.b2z b * x ⊕ Z.b2z b * x'.
Proof. destruct b; cbn [Z.b2z]; by rewrite ?Z.mul_1_l, ?Z.mul_0_l. Qed.

Lemma scale_lxor_r (b b' : bool) x : Z.b2z (xorb b b') * x = Z.b2z b * x ⊕ Z.b2z b' * x.
Proof.
  destruct b, b'; cbn [Z.b2z xorb]; rewrite ?Z.mul_1_l, ?Z.mul_0_l, ?Z.lxor_0_r, ?Z.lxor_0_l; try done.
  by rewrite Z.lxor_nilpotent.
Qed.

Lemma byte_top z : byte z → Z.shiftr z 7 = Z.b2z (Z.testbit z 7).
Proof. intros Hz. apply Z.eqb_eq, (bytes_spec (λ z, Z.shiftr z 7 =? Z.b2z (Z.testbit z 7)) z Hz). reflexivity. Qed.

Lemma xtimes_lxor a b : byte a → byte b → xtimes (a ⊕ b) = xtimes a ⊕ xtimes b.
Proof.
  intros Ha Hb. unfold xtimes. rewrite !byte_top by auto using byte_lxor.
  rewrite Z.shiftl_lxor, Z.lxor_spec, scale_lxor_r. symmetry. apply lxor_swap.
Qed.

Lemma byte_scale (b : bool) x : byte x → byte (Z.b2z b * x).
Proof. unfold byte. destruct b; cbn [Z.b2z]; lia. Qed.

Lemma peasant_b2z x y z i : 0 <= i → peasantStep x y z i = xtimes z ⊕ Z.b2z (Z.testbit y i) * x.
Proof. intros Hi. unfold peasantStep, xtimes. by rewrite <- (ybit_b2z y i Hi). Qed.

(** All rounds keep the accumulator a byte. *)
Lemma byte_peasant x y l z :
  byte x → byte z → Forall (Z.le 0) l → byte (foldl (peasantStep x y) z l).
Proof.
  intros Hx Hz Hl. revert z Hz. induction Hl as [|i l Hi Hl IH]; intros z Hz; [done|]. apply IH.
  rewrite peasant_b2z by done. auto using byte_lxor, byte_xtimes, byte_scale.
Qed.

Lemma peasant_lxor x x' y y' l z z' :
  byte x → byte x' → byte z → byte z' → Forall (Z.le 0) l → x = x' ∨ y = y' →
  foldl (peasantStep (if decide (y = y') then x ⊕ x' else x) (if decide (y = y') then y else y ⊕ y')) (z ⊕ z') l =
  foldl (peasantStep x y) z l ⊕ foldl (peasantStep x' y') z' l.
Proof.
  intros Hx Hx' Hz Hz' Hl Hor. revert z z' Hz Hz'. induction Hl as [|i l Hi Hl IH]; intros z z' Hz Hz'; [done|].
  cbn [foldl]. rewrite <- IH by (rewrite peasant_b2z by done; auto using byte_lxor, byte_xtimes, byte_scale).
  f_equal. rewrite !peasant_b2z by done. rewrite xtimes_lxor, lxor_swap by done. f_equal.
  destruct (decide (y = y')) as [->|Hne]; [apply scale_lxor_l|].
  destruct Hor as [<-|?]; [|done]. rewrite Z.lxor_spec. apply scale_lxor_r.
Qed.

Lemma rounds_nonneg : Forall (Z.le 0) [7; 6; 5; 4; 3; 2; 1; 0].
Proof. by apply (bool_decide_unpack _). Qed.

(** The cast to [uint8_t] changes nothing: the assertion before it holds. *)
Lemma mul_fold x y : byte x → x ⊗ y = foldl (peasantStep x y) 0 [7; 6; 5; 4; 3; 2; 1; 0].
Proof.
  intros Hx. unfold reedSolomonMultiply. apply Z.mod_small. apply byte_peasant; auto using byte_0, rounds_nonneg.
Qed.

Lemma byte_mul x y : byte x → byte (x ⊗ y).
Proof. intros Hx. rewrite mul_fold by done. apply byte_peasant; auto using byte_0, rounds_nonneg. Qed.

Lemma mul_lxor_l x x' y : byte x → byte x' → (x ⊕ x') ⊗ y = x ⊗ y ⊕ x' ⊗ y.
Proof.
  intros Hx Hx'. rewrite !mul_fold by auto using byte_lxor.
  pose proof (peasant_lxor x x' y y _ 0 0 Hx Hx' byte_0 byte_0 rounds_nonneg (or_intror eq_refl)) as H.
  by destruct (decide (y = y)).
Qed.

Lemma mul_0_r x : byte x → x ⊗ 0 = 0.
Proof.
  intros Hx. apply Z.eqb_eq, (bytes_spec (λ x, x ⊗ 0 =? 0) x Hx). vm_compute. reflexivity.
Qed.

Lemma mul_lxor_r x y y' : byte x → x ⊗ (y ⊕ y') = x ⊗ y ⊕ x ⊗ y'.
Proof.
  intros Hx. destruct (decide (y = y')) as [<-|Hne].
  - by rewrite !Z.lxor_nilpotent, mul_0_r.
  - rewrite !mul_fold by done.
    pose proof (peasant_lxor x x y y' _ 0 0 Hx Hx byte_0 byte_0 rounds_nonneg (or_introl eq_refl)) as H.
    by destruct (decide (y = y')).
Qed.

(** ** The field *)

(** Linear functions on bytes that agree on the powers of two are equal. *)
Definition linear (f : Z → Z) : Prop := ∀ a b, byte a → byte b → f (a ⊕ b) = f a ⊕ f b.

Definition basis : list Z := [1; 2; 4; 8; 16; 32; 64; 128].

Definition spread (a : Z) : list Z := List.filter (λ p, negb (Z.land a p =? 0)) basis.

Lemma spread_spec a : byte a → foldr Z.lxor 0 (spread a) = a.
Proof.
  intros Ha. apply Z.eqb_eq, (bytes_spec (λ a, foldr Z.lxor 0 (spread a) =? a) a Ha). vm_compute. reflexivity.
Qed.

Lemma basis_bytes : Forall byte basis.
Proof. unfold byte. repeat constructor; lia. Qed.

Lemma linear_ext f g a :
  linear f → linear g → f 0 = g 0 → (∀ p, In p basis → f p = g p) → byte a → f a = g a.
Proof.
  intros Hf Hg H0 Hb Ha. rewrite <- (spread_spec a Ha).
  assert (incl (spread a) basis) as Hincl by (intros p Hp; by apply filter_In in Hp as [Hp _]).
  induction (spread a) as [|p l IH]; [done|]. simpl.
  assert (In p basis) as Hp by (apply Hincl; by left).
  assert (byte (foldr Z.lxor 0 l)) as Hl.
  { clear IH. induction l as [|q l IH]; [apply byte_0|]. simpl. apply byte_lxor.
    - apply (proj1 (List.Forall_forall _ _) basis_bytes). apply Hincl. right. by left.
    - apply IH. intros x [<-|Hx]; apply Hincl; [by left|]. right. by right. }
  rewrite Hf, Hg by (done || by apply (proj1 (List.Forall_forall _ _) basis_bytes)). f_equal.
  - by apply Hb.
  - apply IH. intros x Hx. apply Hincl. by right.
Qed.

Lemma linear_mul_l y : linear (λ x, x ⊗ y).
Proof. intros a b Ha Hb. by apply mul_lxor_l. Qed.

Lemma linear_mul_r x : byte x → linear (λ y, x ⊗ y).
Proof. intros Hx a b _ _. by apply mul_lxor_r. Qed.

Lemma linear_comp f g : linear f → linear g → (∀ a, byte a → byte (g a)) → linear (λ a, f (g a)).
Proof. intros Hf Hg Hb a b Ha Ha'. rewrite Hg by done. by apply Hf; apply Hb. Qed.

Lemma linear_0 f : linear f → f 0 = 0.
Proof. intros Hf. pose proof (Hf 0 0 byte_0 byte_0) as H. by rewrite Z.lxor_nilpotent, Z.lxor_nilpotent in H. Qed.

Lemma byte_basis p : In p basis → byte p.
Proof. apply (proj1 (List.Forall_forall _ _) basis_bytes). Qed.

Lemma mul_comm x y : byte x → byte y → x ⊗ y = y ⊗ x.
Proof.
  intros Hx Hy. refine (linear_ext (λ x, x ⊗ y) (λ x, y ⊗ x) x _ _ _ _ Hx); [| | |intros p Hp].
  - apply linear_mul_l.
  - by apply linear_mul_r.
  - exact (eq_trans (linear_0 _ (linear_mul_l y)) (eq_sym (mul_0_r y Hy))).
  - pose proof (byte_basis p Hp) as Hpb.
    refine (linear_ext (λ y, p ⊗ y) (λ y, y ⊗ p) y _ _ _ _ Hy); [| | |intros q Hq].
    + by apply linear_mul_r.
    + apply linear_mul_l.
    + exact (eq_trans (mul_0_r p Hpb) (eq_sym (linear_0 _ (linear_mul_l p)))).
    + assert (forallb (λ p, forallb (λ q, p ⊗ q =? q ⊗ p) basis) basis = true) as H by (vm_compute; reflexivity).
      rewrite forallb_forall in H. specialize (H p Hp). rewrite forallb_forall in H. apply Z.eqb_eq. exact (H q Hq).
Qed.

Lemma mul_1_r x : byte x → x ⊗ 1 = x.
Proof. intros Hx. apply Z.eqb_eq, (bytes_spec (λ x, x ⊗ 1 =? x) x Hx). vm_compute. reflexivity. Qed.

Lemma mul_0_l y : 0 ⊗ y = 0.
Proof. exact (linear_0 _ (linear_mul_l y)). Qed.

Lemma basis_assoc p q r : In p basis → In q basis → In r basis → (p ⊗ q) ⊗ r = p ⊗ (q ⊗ r).
Proof.
  intros Hp Hq Hr. assert (forallb (λ p, forallb (λ q, forallb (λ r,
    (p ⊗ q) ⊗ r =? p ⊗ (q ⊗ r)) basis) basis) basis = true) as H by (vm_compute; reflexivity).
  rewrite forallb_forall in H. specialize (H p Hp). rewrite forallb_forall in H. specialize (H q Hq).
  rewrite forallb_forall in H. apply Z.eqb_eq. exact (H r Hr).
Qed.

Lemma mul_assoc x y z : byte x → byte y → byte z → (x ⊗ y) ⊗ z = x ⊗ (y ⊗ z).
Proof.
  intros Hx Hy Hz.
  refine (linear_ext (λ x, (x ⊗ y) ⊗ z) (λ x, x ⊗ (y ⊗ z)) x _ _ _ _ Hx); [| | |intros p Hp].
  - apply (linear_comp (λ u, u ⊗ z) (λ u, u ⊗ y)); auto using linear_mul_l, byte_mul.
  - apply linear_mul_l.
  - by rewrite !mul_0_l.
  - pose proof (byte_basis p Hp) as Hpb.
    refine (linear_ext (λ y, (p ⊗ y) ⊗ z) (λ y, p ⊗ (y ⊗ z)) y _ _ _ _ Hy); [| | |intros q Hq].
    + apply (linear_comp (λ u, u ⊗ z) (λ u, p ⊗ u)); auto using linear_mul_l, linear_mul_r, byte_mul.
    + apply (linear_comp (λ u, p ⊗ u) (λ u, u ⊗ z)); auto using linear_mul_l, linear_mul_r, byte_mul.
    + by rewrite (mul_0_r p), !mul_0_l, mul_0_r by done.
    + pose proof (byte_basis q Hq) as Hqb.
      refine (linear_ext (λ z, (p ⊗ q) ⊗ z) (λ z, p ⊗ (q ⊗ z)) z _ _ _ _ Hz); [| | |intros r Hr].
      * auto using linear_mul_r, byte_mul.
      * apply (linear_comp (λ u, p ⊗ u) (λ u, q ⊗ u)); auto using linear_mul_r, byte_mul.
      * by rewrite !mul_0_r by auto using byte_mul.
      * by apply basis_assoc.
Qed.

(** The power 254, by repeated squaring. *)
Definition inverse (x : Z) : Z :=
  let x2 := x ⊗ x in
  let x4 := x2 ⊗ x2 in
  let x8 := x4 ⊗ x4 in
  let x16 := x8 ⊗ x8 in
  let x32 := x16 ⊗ x16 in
  let x64 := x32 ⊗ x32 in
  x2 ⊗ x4 ⊗ x8 ⊗ x16 ⊗ x32 ⊗ x64 ⊗ (x64 ⊗ x64).

Lemma mul_inverse x : byte x → x ≠ 0 → byte (inverse x) ∧ inverse x ⊗ x = 1.
Proof.
  intros Hx Hne.
  pose proof (bytes_spec (λ x, let y := inverse x in (x =? 0) || ((0 <=? y) && (y <? 256) && (y ⊗ x =? 1))) x Hx
    ltac:(vm_compute; reflexivity)) as H.
  cbv beta zeta in H. apply orb_true_iff in H as [H%Z.eqb_eq|H]; [done|].
  apply andb_prop in H as [H H1%Z.eqb_eq]. split; [unfold byte; lia|done].
Qed.

#[local] Opaque inverse.

Lemma mul_zero x y : byte x → byte y → x ⊗ y = 0 → x = 0 ∨ y = 0.
Proof.
  intros Hx Hy H0. destruct (decide (x = 0)) as [|Hne]; [by left|right].
  destruct (mul_inverse x Hx Hne) as [Hi H1]. assert (byte 1) as Hb1 by (unfold byte; lia).
  rewrite <- (mul_1_r y), (mul_comm y 1), <- H1, mul_assoc, H0 by done. by apply mul_0_r.
Qed.

Lemma byte_gpow x n : byte x → byte (gpow x n).
Proof. intros Hx. induction n as [|n IH]; cbn [gpow]; [unfold byte; lia|by apply byte_mul]. Qed.

#[export] Hint Resolve byte_lxor byte_0 byte_mul byte_gpow : qr.
#[local] Opaque reedSolomonMultiply.

Lemma mul_swap x y z : byte x → byte y → byte z → x ⊗ y ⊗ z = x ⊗ z ⊗ y.
Proof. intros Hx Hy Hz. rewrite !mul_assoc, (mul_comm y z) by done. done. Qed.

Lemma gpow_add x m n : byte x → gpow x (m + n) = gpow x m ⊗ gpow x n.
Proof.
  intros Hx. induction n as [|n IH]; cbn [gpow].
  - rewrite Nat.add_0_r, mul_1_r; auto with qr.
  - rewrite Nat.add_succ_r. cbn [gpow]. rewrite IH, mul_assoc; auto with qr.
Qed.

Lemma gpow_gpow x m n : byte x → gpow (gpow x m) n = gpow x (m * n).
Proof.
  intros Hx. induction n as [|n IH]; cbn [gpow]; [by rewrite Nat.mul_0_r|].
  by rewrite IH, <- gpow_add, Nat.mul_succ_r.
Qed.

Lemma byte_2 : byte 2.
Proof. unfold byte. lia. Qed.

#[export] Hint Resolve byte_2 : qr.

Fixpoint powersFrom (x : Z) (n : nat) : list Z :=
  match n with O => [] | S n => x :: powersFrom (x ⊗ 2) n end.

Lemma powersFrom_gpow k n : powersFrom (gpow 2 k) n = map (gpow 2) (seq k n).
Proof. revert k. induction n as [|n IH]; intros k; [done|]. cbn. f_equal. apply (IH (S k)). Qed.

(** The first 255 powers of 2 are distinct and not zero. *)
Lemma gpow_distinct m n : (m < 255)%nat → (n < 255)%nat → gpow 2 m = gpow 2 n → m = n.
Proof.
  intros Hm Hn Heq.
  assert (NoDup (map (gpow 2) (seq 0 255))) as Hd.
  { rewrite <- powersFrom_gpow. apply (bool_decide_unpack _). vm_compute. exact I. }
  refine (proj1 (NoDup_alt _) Hd m n (gpow 2 m) _ _).
  - rewrite list_lookup_fmap, lookup_seq_lt by lia. done.
  - rewrite list_lookup_fmap, lookup_seq_lt, Heq by lia. done.
Qed.

(** ** Values of polynomials *)

Lemma eval_from a l x : byte a → Forall byte l → byte x →
  foldl (λ acc c, acc ⊗ x ⊕ c) a l = a ⊗ gpow x (length l) ⊕ eval l x.
Proof.
  intros Ha Hl Hx. revert a Ha. induction Hl as [|c l Hc Hl IH]; intros a Ha.
  - cbn. by rewrite mul_1_r, Z.lxor_0_r.
  - unfold eval. cbn [foldl length gpow]. rewrite (IH (a ⊗ x ⊕ c)), (IH (0 ⊗ x ⊕ c)) by auto with qr.
    rewrite mul_0_l, Z.lxor_0_l, mul_lxor_l, Z.lxor_assoc by auto with qr. f_equal.
    rewrite mul_assoc, (mul_comm x) by auto with qr. done.
Qed.

Lemma eval_cons c l x : byte c → Forall byte l → byte x →
  eval (c :: l) x = c ⊗ gpow x (length l) ⊕ eval l x.
Proof.
  intros Hc Hl Hx. unfold eval at 1. cbn [foldl]. rewrite mul_0_l, Z.lxor_0_l. by apply eval_from.
Qed.

Lemma byte_eval l x : Forall byte l → byte x → byte (eval l x).
Proof.
  intros Hl Hx. induction Hl as [|c l Hc Hl IH]; [apply byte_0|]. rewrite eval_cons; auto with qr.
Qed.

#[export] Hint Resolve byte_eval : qr.

Lemma eval_app l m x : Forall byte l → Forall byte m → byte x →
  eval (l ++ m) x = eval l x ⊗ gpow x (length m) ⊕ eval m x.
Proof.
  intros Hl Hm Hx. induction Hl as [|c l Hc Hl IH]; [cbn; by rewrite mul_0_l, Z.lxor_0_l|].
  cbn [app]. assert (Forall byte (l ++ m)) by (by apply Forall_app).
  rewrite !eval_cons, IH, length_app, gpow_add by done.
  rewrite mul_lxor_l, <- Z.lxor_assoc by auto with qr. by rewrite mul_assoc by auto with qr.
Qed.

Lemma eval_zeros n x : byte x → eval (replicate n 0) x = 0.
Proof. intros Hx. unfold eval. induction n as [|n IH]; [done|]. cbn. by rewrite mul_0_l. Qed.

Lemma bytes_zip_lxor u v : Forall byte u → Forall byte v → Forall byte (zip_with Z.lxor u v).
Proof.
  intros Hu. revert v. induction Hu as [|a u Ha Hu IH]; intros v Hv; [constructor|].
  destruct Hv as [|b v Hb Hv]; constructor; auto with qr.
Qed.

Lemma eval_lxor u v x : Forall byte u → Forall byte v → length u = length v → byte x →
  eval (zip_with Z.lxor u v) x = eval u x ⊕ eval v x.
Proof.
  intros Hu Hv Hlen Hx. revert v Hv Hlen. induction Hu as [|a u Ha Hu IH]; intros v Hv Hlen.
  - by destruct v.
  - destruct Hv as [|b v Hb Hv]; [done|]. injection Hlen as Hlen. cbn [zip_with].
    rewrite !eval_cons, IH by auto using bytes_zip_lxor with qr.
    rewrite length_zip_with_l_eq, <- Hlen, mul_lxor_l by auto. apply lxor_swap.
Qed.

Lemma bytes_scale l k : Forall byte l → Forall byte (map (λ d, d ⊗ k) l).
Proof. intros Hl. apply Forall_map. eapply Forall_impl; eauto with qr. Qed.

Lemma eval_scale l k x : Forall byte l → byte k → byte x → eval (map (λ d, d ⊗ k) l) x = eval l x ⊗ k.
Proof.
  intros Hl Hk Hx. induction Hl as [|a l Ha Hl IH]; [symmetry; apply mul_0_l|]. cbn [map].
  rewrite !eval_cons, IH, length_map, mul_lxor_l by auto using bytes_scale with qr. f_equal. by apply mul_swap; auto with qr.
Qed.

(** ** The generator polynomial *)

Lemma bytes_timesRoot R root : Forall byte R → Forall byte (timesRoot R root).
Proof.
  intros HR. induction HR as [|c r Hc Hr IH]; [constructor|]. cbn [timesRoot].
  constructor; [|done]. destruct Hr; auto with qr.
Qed.

Lemma length_timesRoot R root : length (timesRoot R root) = length R.
Proof. induction R as [|c r IH]; [done|]. cbn [timesRoot length]. by rewrite IH. Qed.

(** The step multiplies by [x - root]; the highest coefficient of the product falls
    out of the array. *)
Lemma eval_timesRoot R root x : Forall byte R → byte root → byte x →
  hd 0 R ⊗ gpow x (length R) ⊕ eval (timesRoot R root) x = (x ⊕ root) ⊗ eval R x.
Proof.
  intros HR Hroot Hx. induction HR as [|c r Hc Hr IH].
  - cbn. by rewrite mul_0_l, mul_0_r by auto with qr.
  - assert (timesRoot (c :: r) root = (c ⊗ root ⊕ hd 0 r) :: timesRoot r root) as Ht.
    { destruct r; cbn; by rewrite ?Z.lxor_0_r. }
    assert (byte (hd 0 r)) as Hh by (destruct Hr; auto with qr).
    rewrite Ht, !eval_cons, length_timesRoot by auto using bytes_timesRoot with qr.
    rewrite (mul_lxor_l (c ⊗ root)), (Z.lxor_assoc (c ⊗ root ⊗ _)), IH by auto with qr.
    rewrite (mul_lxor_r (x ⊕ root)), <- Z.lxor_assoc by auto with qr. f_equal. cbn [hd length gpow].
    rewrite mul_lxor_l by done. f_equal.
    + rewrite <- mul_assoc, mul_comm by auto with qr. done.
    + rewrite (mul_comm c root), mul_assoc by auto with qr. done.
Qed.

(** The array before the last rounds: the leading coefficient is still inside. *)
Definition unfinished (n : nat) (T : list Z) : list Z := replicate n 0 ++ 1 :: T.

Lemma timesRoot_unfinished n T root : ∃ T', timesRoot (unfinished (S n) T) root = unfinished n T'.
Proof.
  exists (timesRoot (1 :: T) root). unfold unfinished. induction n as [|n IH].
  - cbn. by rewrite mul_0_l.
  - cbn [replicate app timesRoot] in *. by rewrite IH, mul_0_l.
Qed.

Lemma bytes_unfinished n T : Forall byte T → Forall byte (unfinished n T).
Proof.
  intros HT. apply Forall_app. split; [|constructor; [unfold byte; lia|done]].
  apply Forall_replicate, byte_0.
Qed.

Lemma bytes_divisorLoop n R root : Forall byte R → Forall byte (divisorLoop n R root).
Proof.
  revert R root. induction n as [|n IH]; intros R root HR; [done|]. by apply IH, bytes_timesRoot.
Qed.

Lemma length_divisorLoop n R root : length (divisorLoop n R root) = length R.
Proof.
  revert R root. induction n as [|n IH]; intros R root; [done|]. cbn. by rewrite IH, length_timesRoot.
Qed.

Lemma eval_1_cons D x : Forall byte D → byte x → eval (1 :: D) x = 1 ⊗ gpow x (length D) ⊕ eval D x.
Proof. intros HD Hx. by apply eval_cons; [unfold byte; lia| |]. Qed.

(** Each round adds a root and keeps the ones there are. *)
Lemma divisorLoop_roots n T i j :
  Forall byte T → eval (unfinished n T) (gpow 2 j) = 0 ∨ (i <= j <= i + n)%nat →
  eval (1 :: divisorLoop (S n) (unfinished n T) (gpow 2 i)) (gpow 2 j) = 0.
Proof.
  revert T i. induction n as [|n IH]; intros T i HT Hj.
  - pose proof (bytes_unfinished 0 T HT) as HR. cbn [divisorLoop].
    pose proof (eval_timesRoot (unfinished 0 T) (gpow 2 i) (gpow 2 j) HR) as He.
    rewrite eval_1_cons, length_timesRoot by auto using bytes_timesRoot with qr.
    change (hd 0 (unfinished 0 T)) with 1 in He. rewrite He by auto with qr.
    destruct Hj as [Hj|Hj]; [rewrite Hj, mul_0_r; auto with qr|].
    replace j with i by lia. by rewrite Z.lxor_nilpotent, mul_0_l.
  - pose proof (bytes_unfinished (S n) T HT) as HR. cbn [divisorLoop].
    destruct (timesRoot_unfinished n T (gpow 2 i)) as [T' HT'].
    pose proof (bytes_timesRoot _ (gpow 2 i) HR) as HR'. rewrite HT' in HR'.
    assert (Forall byte T') as HTb' by (apply Forall_app in HR' as [_ HR']; by apply Forall_cons in HR' as [_ ?]).
    rewrite HT'. apply (IH T' (S i) HTb').
    destruct (decide (S i <= j <= S i + n)%nat) as [|Hne]; [by right|left].
    pose proof (eval_timesRoot (unfinished (S n) T) (gpow 2 i) (gpow 2 j) HR) as He.
    rewrite HT' in He. change (hd 0 (unfinished (S n) T)) with 0 in He. rewrite mul_0_l, Z.lxor_0_l in He.
    rewrite He by auto with qr. destruct Hj as [Hj|Hj]; [rewrite Hj, mul_0_r; auto with qr|].
    replace j with i by lia. by rewrite Z.lxor_nilpotent, mul_0_l.
Qed.

Lemma divisor_spec degree D :
  reedSolomonComputeDivisor degree = Ok D →
  length D = Z.to_nat degree ∧ (0 < length D)%nat ∧ Forall byte D ∧ valid_block (length D) (1 :: D).
Proof.
  unfold reedSolomonComputeDivisor. destruct ((degree <? 1) || (255 <? degree)) eqn:Hr; [done|].
  destruct (Z.to_nat degree) as [|n] eqn:Hn; [lia|]. replace (S n - 1)%nat with n by lia.
  change (replicate n 0 ++ [1]) with (unfinished n []).
  intros HD. assert (D = divisorLoop (S n) (unfinished n []) (gpow 2 0)) as -> by (by injection HD).
  pose proof (bytes_unfinished n [] (Forall_nil_2 _)) as HR.
  assert (length (unfinished n []) = S n) as Hlen by (unfold unfinished; rewrite length_app, length_replicate; cbn; lia).
  rewrite length_divisorLoop, Hlen.
  split; [lia|]. split; [lia|]. split; [by apply bytes_divisorLoop|].
  intros i Hi. apply (divisorLoop_roots n [] 0 i); [constructor|]. right. lia.
Qed.

(** ** The remainder *)

Lemma length_remainderStep D R b : length R = length D → length (remainderStep D R b) = length D.
Proof.
  destruct R as [|r0 r]; intros Hlen; cbn [remainderStep]; [done|].
  rewrite length_zip_with_r_eq; [done|]. rewrite length_app. cbn in *. lia.
Qed.

Lemma remainderStep_lxor D r0 r b :
  remainderStep D (r0 :: r) b = zip_with Z.lxor (r ++ [0]) (map (λ d, d ⊗ (b ⊕ r0)) D).
Proof. cbn [remainderStep]. by rewrite zip_with_fmap_r. Qed.

Lemma bytes_remainderStep D R b :
  Forall byte D → Forall byte R → byte b → Forall byte (remainderStep D R b).
Proof.
  intros HD HR Hb. destruct HR as [|r0 r H0 HR]; [constructor|]. rewrite remainderStep_lxor.
  apply bytes_zip_lxor; [|by apply bytes_scale]. apply Forall_app. auto using byte_0, Forall_nil.
Qed.

Lemma eval_shift r x : Forall byte r → byte x → eval (r ++ [0]) x = eval r x ⊗ x.
Proof.
  intros Hr Hx. unfold eval. rewrite foldl_app. cbn. apply Z.lxor_0_r.
Qed.

(** At a root of the generator, a step appends a byte to the shifted polynomial. *)
Lemma eval_remainderStep D R b x :
  Forall byte D → Forall byte R → byte b → byte x → length R = length D →
  (0 < length D)%nat → eval (1 :: D) x = 0 →
  eval (remainderStep D R b) x = eval R x ⊗ x ⊕ b ⊗ gpow x (length D).
Proof.
  intros HD HR Hb Hx Hlen Hpos Hroot. destruct HR as [|r0 r H0 HR]; [cbn in Hlen; lia|].
  rewrite eval_1_cons in Hroot by done.
  rewrite (mul_comm 1), mul_1_r in Hroot by (auto with qr; unfold byte; lia).
  apply lxor_zero_eq in Hroot. assert (Forall byte (r ++ [0])) by (apply Forall_app; auto using byte_0, Forall_nil).
  rewrite remainderStep_lxor, eval_lxor, eval_scale, <- Hroot, eval_shift
    by (auto using bytes_scale with qr; rewrite ?length_app, ?length_map; cbn in *; lia).
  rewrite (eval_cons r0 r), <- Hlen by done. cbn [length gpow].
  set (p := gpow x (length r)). assert (byte p) by (unfold p; auto with qr).
  rewrite (mul_lxor_r (p ⊗ x)), mul_lxor_l by auto with qr.
  rewrite (mul_comm r0 p), (mul_comm b), (mul_swap p r0) by auto with qr.
  rewrite (Z.lxor_comm (p ⊗ x ⊗ b)), <- Z.lxor_assoc. f_equal. apply Z.lxor_comm.
Qed.

Lemma remainder_from D data R x :
  Forall byte D → Forall byte R → Forall byte data → byte x → length R = length D →
  (0 < length D)%nat → eval (1 :: D) x = 0 →
  eval (foldl (remainderStep D) R data) x =
  eval R x ⊗ gpow x (length data) ⊕ eval data x ⊗ gpow x (length D).
Proof.
  intros HD HR Hdata Hx Hlen Hpos Hroot. revert R HR Hlen.
  induction Hdata as [|b data Hb Hdata IH]; intros R HR Hlen.
  - cbn [foldl length gpow]. change (eval [] x) with 0. by rewrite mul_0_l, Z.lxor_0_r, mul_1_r by auto with qr.
  - cbn [foldl]. rewrite IH by auto using bytes_remainderStep, length_remainderStep.
    rewrite eval_remainderStep, eval_cons by done. cbn [length gpow].
    rewrite !mul_lxor_l, Z.lxor_assoc by auto with qr. f_equal; [|f_equal].
    + rewrite mul_assoc, (mul_comm x) by auto with qr. done.
    + by apply mul_swap; auto with qr.
Qed.

Lemma bytes_remainder D data :
  Forall byte D → Forall byte data → Forall byte (reedSolomonComputeRemainder data D).
Proof.
  intros HD Hdata. unfold reedSolomonComputeRemainder.
  assert (Forall byte (replicate (length D) 0)) as HR by apply Forall_replicate, byte_0. revert HR.
  generalize (replicate (length D) 0). induction Hdata as [|b data Hb Hdata IH]; intros R HR; [done|].
  apply IH. by apply bytes_remainderStep.
Qed.

Lemma length_remainder D data : length (reedSolomonComputeRemainder data D) = length D.
Proof.
  unfold reedSolomonComputeRemainder. assert (length (replicate (length D) 0) = length D) as Hlen by apply length_replicate.
  revert Hlen. generalize (replicate (length D) 0). induction data as [|b data IH]; intros R Hlen; [done|].
  apply IH. by apply length_remainderStep.
Qed.

Lemma remainder_valid degree D data :
  reedSolomonComputeDivisor degree = Ok D → Forall byte data →
  valid_block (length D) (data ++ reedSolomonComputeRemainder data D).
Proof.
  intros HD Hdata. apply divisor_spec in HD as (_ & Hpos & HDb & Hroots). intros i Hi.
  rewrite eval_app, length_remainder by auto using bytes_remainder with qr.
  unfold reedSolomonComputeRemainder. rewrite remainder_from
    by auto using Forall_replicate, length_replicate with qr.
  rewrite eval_zeros, mul_0_l, Z.lxor_0_l by auto with qr. apply Z.lxor_nilpotent.
Qed.

(** ** The distance of the code *)

(** The syndrome of a list of error values and locators. *)
Definition syndrome (P : list (Z * Z)) (i : nat) : Z :=
  foldr (λ cX acc, cX.1 ⊗ gpow cX.2 i ⊕ acc) 0 P.

Lemma syndrome_cons c X P i : syndrome ((c, X) :: P) i = c ⊗ gpow X i ⊕ syndrome P i.
Proof. done. Qed.

Definition byte_pair (cX : Z * Z) : Prop := byte cX.1 ∧ byte cX.2.

Lemma byte_syndrome P i : Forall byte_pair P → byte (syndrome P i).
Proof. intros HP. induction HP as [|[c X] P [Hc HX] HP IH]; cbn; auto with qr. Qed.

(** The value of a locator is eliminated by combining consecutive syndromes. *)
Definition eliminate (X : Z) (cX : Z * Z) : Z * Z := (cX.1 ⊗ (cX.2 ⊕ X), cX.2).

Lemma byte_eliminate X P : byte X → Forall byte_pair P → Forall byte_pair (map (eliminate X) P).
Proof.
  intros HX HP. apply Forall_map. apply (Forall_impl _ _ _ HP). intros [c Y] [Hc HY]. split; cbn in *; auto with qr.
Qed.

Lemma syndrome_eliminate X P i : byte X → Forall byte_pair P →
  syndrome (map (eliminate X) P) i = syndrome P (S i) ⊕ syndrome P i ⊗ X.
Proof.
  intros HX HP. induction HP as [|[c Y] P [Hc HY] HP IH]; [cbn; by rewrite mul_0_l|].
  cbn [map]. change (eliminate X (c, Y)) with (c ⊗ (Y ⊕ X), Y). cbn [fst snd] in Hc, HY.
  rewrite !syndrome_cons, IH. pose proof (byte_syndrome P i HP) as Hi.
  cbn [gpow].
  rewrite (mul_lxor_l (c ⊗ gpow Y i)), mul_lxor_r, mul_lxor_l, lxor_swap by auto with qr.
  f_equal; f_equal; [|by apply mul_swap; auto with qr].
  rewrite mul_assoc, (mul_comm Y) by auto with qr. done.
Qed.

Lemma syndrome_zero P i : Forall (λ cX, cX.1 = 0) P → syndrome P i = 0.
Proof.
  intros HP. induction HP as [|[c X] P Hc HP IH]; [done|]. cbn in Hc. subst c.
  by rewrite syndrome_cons, IH, mul_0_l.
Qed.

Lemma vandermonde d P :
  (length P <= d)%nat → Forall byte_pair P → NoDup (map snd P) →
  (∀ i, (i < d)%nat → syndrome P i = 0) → Forall (λ cX, cX.1 = 0) P.
Proof.
  remember (length P) as n eqn:Hn. revert d P Hn.
  induction n as [|n IH]; intros d [|[c X] P] Hn Hlen HP HN Hs; try done.
  destruct d as [|d]; [lia|]. apply Forall_cons in HP as [[Hc HX] HP]. cbn in Hc, HX.
  apply NoDup_cons in HN as [HXP HN]. injection Hn as Hn.
  assert (Forall (λ cX, cX.1 = 0) (map (eliminate X) P)) as HE.
  { apply (IH d); [by rewrite length_map|lia|by apply byte_eliminate|by rewrite map_map|].
    intros i Hi. rewrite syndrome_eliminate by done.
    pose proof (Hs (S i) ltac:(lia)) as H1. pose proof (Hs i ltac:(lia)) as H2.
    rewrite syndrome_cons in H1, H2. apply lxor_zero_eq in H1, H2. rewrite <- H1, <- H2. cbn [gpow].
    rewrite mul_assoc by auto with qr. apply Z.lxor_nilpotent. }
  assert (Forall (λ cX, cX.1 = 0) P) as HP0.
  { apply Forall_map in HE. apply Forall_forall. intros [c' Y] Hin.
    pose proof (proj1 (Forall_forall _ _) HE _ Hin) as H0. pose proof (proj1 (Forall_forall _ _) HP _ Hin) as [Hc' HY].
    cbn in H0, Hc', HY |- *. apply mul_zero in H0 as [H0|H0]; auto with qr. exfalso. apply HXP.
    apply lxor_zero_eq in H0 as <-. by apply (list_elem_of_fmap_2 snd P (c', Y)). }
  constructor; [|done]. pose proof (Hs 0%nat ltac:(lia)) as H0. 
  rewrite syndrome_cons in H0. cbn [fst gpow] in H0 |- *. by rewrite mul_1_r, (syndrome_zero P 0 HP0), Z.lxor_0_r in H0.
Qed.

(** The non-zero coefficients of a polynomial with their locators. *)
Fixpoint support (w : list Z) : list (Z * Z) :=
  match w with
  | [] => []
  | c :: w => if c =? 0 then support w else (c, gpow 2 (length w)) :: support w
  end.

Lemma bytes_support w : Forall byte w → Forall byte_pair (support w).
Proof.
  intros Hw. induction Hw as [|c w Hc Hw IH]; [constructor|]. cbn [support].
  case_match; [done|]. constructor; [split; cbn; auto with qr|done].
Qed.

Lemma syndrome_support w i : Forall byte w → syndrome (support w) i = eval w (gpow 2 i).
Proof.
  intros Hw. induction Hw as [|c w Hc Hw IH]; [done|]. rewrite eval_cons, <- IH by auto with qr. cbn [support].
  destruct (Z.eqb_spec c 0) as [->|Hne]; [by rewrite mul_0_l, Z.lxor_0_l|].
  rewrite syndrome_cons. by rewrite !gpow_gpow, Nat.mul_comm by auto with qr.
Qed.

Lemma support_locators w X : X ∈ map snd (support w) → ∃ k, (k < length w)%nat ∧ X = gpow 2 k.
Proof.
  induction w as [|c w IH]; [by intros ?%elem_of_nil|]. cbn [support length]. case_match; cbn [map].
  - intros (k & Hk & ->)%IH. exists k. split; [lia|done].
  - intros [->|(k & Hk & ->)%IH]%elem_of_cons; eexists; (split; [|done]); cbn; lia.
Qed.

Lemma NoDup_support w : (length w <= 255)%nat → NoDup (map snd (support w)).
Proof.
  induction w as [|c w IH]; intros Hlen; [constructor|]. cbn [support length] in *.
  case_match; [apply IH; lia|]. cbn [map]. apply NoDup_cons. split; [|apply IH; lia].
  intros (k & Hk & Heq)%support_locators. apply gpow_distinct in Heq; cbn in *; lia.
Qed.

Lemma length_support u v :
  length u = length v → length (support (zip_with Z.lxor u v)) = distance u v.
Proof.
  revert v. induction u as [|a u IH]; intros [|b v] Hlen; try done. injection Hlen as Hlen.
  cbn [zip_with support distance]. rewrite <- (IH v Hlen).
  destruct (Z.eqb_spec (a ⊕ b) 0) as [H0|H0], (Z.eqb_spec a b) as [->|Hne]; try done.
  - by apply lxor_zero_eq in H0.
  - by rewrite Z.lxor_nilpotent in H0.
Qed.

Lemma support_zero w : Forall (λ cX, cX.1 = 0) (support w) → Forall (λ c, c = 0) w.
Proof.
  induction w as [|c w IH]; [constructor|]. cbn [support]. destruct (Z.eqb_spec c 0) as [->|Hne].
  - intros H. constructor; auto.
  - intros [Hc _]%Forall_cons. done.
Qed.

Lemma zip_lxor_zero u v :
  length u = length v → Forall (λ c, c = 0) (zip_with Z.lxor u v) → u = v.
Proof.
  revert v. induction u as [|a u IH]; intros [|b v] Hlen H; try done. injection Hlen as Hlen.
  cbn in H. apply Forall_cons in H as [H0%lxor_zero_eq H]. f_equal; auto.
Qed.

Lemma valid_blocks_apart d u v :
  Forall byte u → Forall byte v → length u = length v → (length u <= 255)%nat →
  valid_block d u → valid_block d v → (distance u v <= d)%nat → u = v.
Proof.
  intros Hu Hv Hlen H255 Vu Vv Hd. set (w := zip_with Z.lxor u v).
  assert (Forall byte w) as Hw by (by apply bytes_zip_lxor).
  apply zip_lxor_zero; [done|]. apply support_zero, (vandermonde d).
  - by rewrite length_support.
  - by apply bytes_support.
  - apply NoDup_support. unfold w. rewrite length_zip_with_l_eq by done. done.
  - intros i Hi. fold w. rewrite syndrome_support by done. unfold w. rewrite eval_lxor by auto with qr.
    by rewrite Vu, Vv.
Qed.

(** ** What the error correction promises *)

(** A block as it is drawn: the data and its remainder. *)
Definition codeword (data divisor : list Z) : list Z := data ++ reedSolomonComputeRemainder data divisor.

Lemma length_codeword data D : length (codeword data D) = (length data + length D)%nat.
Proof. unfold codeword. by rewrite length_app, length_remainder. Qed.

Lemma distance_comm u v : distance u v = distance v u.
Proof. revert v. induction u as [|a u IH]; intros [|b v]; cbn; [done..|]. by rewrite IH, Z.eqb_sym. Qed.

Lemma distance_triangle u v w :
  length u = length v → (distance u w <= distance u v + distance v w)%nat.
Proof.
  revert v w. induction u as [|a u IH]; intros [|b v] [|c w] Hlen; cbn; try done; try lia.
  injection Hlen as Hlen. specialize (IH v w Hlen).
  destruct (Z.eqb_spec a c), (Z.eqb_spec a b), (Z.eqb_spec b c); subst; try lia; done.
Qed.

Lemma codewords_apart degree D data data' :
  reedSolomonComputeDivisor degree = Ok D → Forall byte data → Forall byte data' →
  length data = length data' → (length data + length D <= 255)%nat →
  (distance (codeword data D) (codeword data' D) <= length D)%nat → data = data'.
Proof.
  intros HD Hd Hd' Hlen H255 Hdist. pose proof (divisor_spec _ _ HD) as (_ & _ & HDb & _).
  assert (codeword data D = codeword data' D) as Heq.
  { apply (valid_blocks_apart (length D)); rewrite ?length_codeword; try done; try lia.
    - apply Forall_app; auto using bytes_remainder.
    - apply Forall_app; auto using bytes_remainder.
    - by apply (remainder_valid degree).
    - by apply (remainder_valid degree). }
  by apply app_inj_1 in Heq as [? _].
Qed.

(** A block with [degree] error correction bytes survives damage to half as many
    of its bytes: whatever was received, at most one data block has its codeword
    within [degree / 2] bytes of it, so the sent data are the only candidate. *)
Lemma block_correctable degree D data data' received :
  reedSolomonComputeDivisor degree = Ok D → Forall byte data → Forall byte data' →
  length data = length data' → (length data + length D <= 255)%nat →
  length received = (length data + length D)%nat →
  2 * Z.of_nat (distance received (codeword data D)) <= degree →
  2 * Z.of_nat (distance received (codeword data' D)) <= degree → data = data'.
Proof.
  intros HD Hd Hd' Hlen H255 Hrec H1 H2. apply (codewords_apart degree D); try done.
  pose proof (divisor_spec _ _ HD) as (HDl & HDp & _ & _).
  pose proof (distance_triangle (codeword data D) received (codeword data' D)) as Ht.
  rewrite length_codeword, (distance_comm (codeword data D) received) in Ht. specialize (Ht (eq_sym Hrec)). lia.
Qed.
