(* ===== verification/QrSegment.v ===== *)
(** * Segments of a QR code

    Models the class [QrSegment] and the class [BitBuffer] of
    [src/client/3rd/qrcodegen/qrcodegen.cpp]: how a text becomes a string of bits.
    A C string is the list of its characters, each a byte other than 0, without the
    terminator.  The reader at the end of the file is the reference for what the
    bits mean: it follows the format of QR codes, not the code. *)

From stdpp Require Import prelude strings list list_numbers.
From Stdlib Require Import ZArith Lia.
From S2P Require Import Prelude Cxx.

Local Open Scope Z_scope.

Definition INT_MAX : Z := 2 ^ 31 - 1.

Definition uint32 (x : Z) : Z := x mod 2 ^ 32.

(** ** BitBuffer *)

Definition bitAt (val i : Z) : bool := negb (Z.land (Z.shiftr val i) 1 =? 0).

Definition appendBits (val len : Z) (bb : list bool) : exc (list bool) :=
  if (len <? 0) || (31 <? len) || negb (Z.shiftr val len =? 0)
  then raise (domain_error "Value out of range")
  else mret (bb ++ map (bitAt val) (rev (range 0 len))).

(** ** Modes *)

Record Mode := mkMode { modeBits : Z; numBitsCharCount : list Z }.

#[global] Instance Mode_eq_dec : EqDecision Mode.
Proof. solve_decision. Defined.

(** The array is read out of bounds for no version from 1 to 40. *)
Definition numCharCountBits (m : Mode) (ver : Z) : Z :=
  default 0 (numBitsCharCount m !! Z.to_nat ((ver + 7) `quot` 17)).

Definition NUMERIC : Mode := mkMode 0x1 [10; 12; 14].
Definition ALPHANUMERIC : Mode := mkMode 0x2 [9; 11; 13].
Definition BYTE : Mode := mkMode 0x4 [8; 16; 16].
Definition KANJI : Mode := mkMode 0x8 [8; 10; 12].
Definition ECI : Mode := mkMode 0x7 [0; 0; 0].

(** ** Segments *)

Record QrSegment := mkSegment { mode : Mode; numChars : Z; data : list bool }.

(** The constructor. *)
Definition newSegment (md : Mode) (numCh : Z) (dt : list bool) : exc QrSegment :=
  if numCh <? 0 then raise (domain_error "Invalid value") else mret (mkSegment md numCh dt).

Definition makeBytes (bs : list Z) : exc QrSegment :=
  if INT_MAX <? size_of bs then raise (length_error "Data too long")
  else
    bb ← loop bs (λ bb b, appendBits b 8 bb) [];
    newSegment BYTE (size_of bs) bb.

(** The local variables of the two loops below. *)
Record accum := mkAccum { acc_bb : list bool; accumData : Z; accumCount : Z; charCount : Z }.

Definition numericStep (st : accum) (c : Z) : exc accum :=
  if (c <? 48) || (57 <? c) then raise (domain_error "String contains non-numeric characters")
  else
    let accumData := accumData st * 10 + (c - 48) in
    let accumCount := accumCount st + 1 in
    if accumCount =? 3 then
      bb ← appendBits (uint32 accumData) 10 (acc_bb st);
      mret (mkAccum bb 0 0 (charCount st + 1))
    else mret (mkAccum (acc_bb st) accumData accumCount (charCount st + 1)).

Definition makeNumeric (digits : list Z) : exc QrSegment :=
  st ← loop digits numericStep (mkAccum [] 0 0 0);
  bb ← (if 0 <? accumCount st
        then appendBits (uint32 (accumData st)) (accumCount st * 3 + 1) (acc_bb st)
        else mret (acc_bb st));
  newSegment NUMERIC (charCount st) bb.

Definition chars (s : string) : list Z := map (λ a, Z.of_nat (Ascii.nat_of_ascii a)) (String.list_ascii_of_string s).

Definition ALPHANUMERIC_CHARSET : list Z := chars "0123456789ABCDEFGHIJKLMNOPQRSTUVWXYZ $%*+-./:".

(** The offset of the first occurrence of the character, which is not 0. *)
Fixpoint strchr (s : list Z) (c : Z) : option Z :=
  match s with
  | [] => None
  | d :: s => if d =? c then Some 0 else Z.succ <$> strchr s c
  end.

Definition alphanumericStep (st : accum) (c : Z) : exc accum :=
  match strchr ALPHANUMERIC_CHARSET c with
  | None => raise (domain_error "String contains unencodable characters in alphanumeric mode")
  | Some temp =>
      let accumData := accumData st * 45 + temp in
      let accumCount := accumCount st + 1 in
      if accumCount =? 2 then
        bb ← appendBits (uint32 accumData) 11 (acc_bb st);
        mret (mkAccum bb 0 0 (charCount st + 1))
      else mret (mkAccum (acc_bb st) accumData accumCount (charCount st + 1))
  end.

Definition makeAlphanumeric (text : list Z) : exc QrSegment :=
  st ← loop text alphanumericStep (mkAccum [] 0 0 0);
  bb ← (if 0 <? accumCount st then appendBits (uint32 (accumData st)) 6 (acc_bb st) else mret (acc_bb st));
  newSegment ALPHANUMERIC (charCount st) bb.

Definition isNumeric (text : list Z) : bool := forallb (λ c, negb ((c <? 48) || (57 <? c))) text.

Definition isAlphanumeric (text : list Z) : bool :=
  forallb (λ c, bool_decide (is_Some (strchr ALPHANUMERIC_CHARSET c))) text.

Definition makeSegments (text : list Z) : exc (list QrSegment) :=
  match text with
  | [] => mret []
  | _ :: _ =>
      if isNumeric text then seg ← makeNumeric text; mret [seg]
      else if isAlphanumeric text then seg ← makeAlphanumeric text; mret [seg]
      else seg ← makeBytes text; mret [seg]
  end.

Definition makeEci (assignVal : Z) : exc QrSegment :=
  bb ← (if assignVal <? 0 then raise (domain_error "ECI assignment value out of range")
        else if assignVal <? Z.shiftl 1 7 then appendBits (uint32 assignVal) 8 []
        else if assignVal <? Z.shiftl 1 14 then
          bb ← appendBits 2 2 [];
          appendBits (uint32 assignVal) 14 bb
        else if assignVal <? 1000000 then
          bb ← appendBits 6 3 [];
          appendBits (uint32 assignVal) 21 bb
        else raise (domain_error "ECI assignment value out of range"));
  newSegment ECI 0 bb.

(** The loop with its early returns of -1. *)
Fixpoint totalBitsFrom (result : Z) (segs : list QrSegment) (version : Z) : Z :=
  match segs with
  | [] => result
  | seg :: segs =>
      let ccbits := numCharCountBits (mode seg) version in
      if Z.shiftl 1 ccbits <=? numChars seg then -1
      else if INT_MAX - result <? 4 + ccbits then -1
      else
        let result := result + (4 + ccbits) in
        if INT_MAX - result <? size_of (data seg) then -1
        else totalBitsFrom (result + size_of (data seg)) segs version
  end.

Definition getTotalBits (segs : list QrSegment) (version : Z) : Z := totalBitsFrom 0 segs version.

(** ** What the bits mean *)

(** A number of the given width, the highest bit first. *)
Definition bits_val (l : list bool) : Z := foldl (λ a b, 2 * a + Z.b2z b) 0 l.

Definition readNumber (n : Z) (bs : list bool) : option (Z * list bool) :=
  if Z.of_nat (length bs) <? n then None
  else Some (bits_val (take (Z.to_nat n) bs), drop (Z.to_nat n) bs).

(** Groups of three digits in 10 bits, two in 7, one in 4. *)
Fixpoint readDigits (count : nat) (bs : list bool) : option (list Z * list bool) :=
  match count with
  | O => Some ([], bs)
  | 1%nat => '(v, bs) ← readNumber 4 bs; Some ([48 + v], bs)
  | 2%nat => '(v, bs) ← readNumber 7 bs; Some ([48 + v / 10; 48 + v mod 10], bs)
  | S (S (S count)) =>
      '(v, bs) ← readNumber 10 bs;
      '(ds, bs) ← readDigits count bs;
      Some (48 + v / 100 :: 48 + v / 10 mod 10 :: 48 + v mod 10 :: ds, bs)
  end.

(** The 45 characters of alphanumeric mode, with their values. *)
Definition alnum (v : Z) : Z := default 0 (ALPHANUMERIC_CHARSET !! Z.to_nat v).

(** Pairs of characters in 11 bits, one in 6. *)
Fixpoint readAlnum (count : nat) (bs : list bool) : option (list Z * list bool) :=
  match count with
  | O => Some ([], bs)
  | 1%nat => '(v, bs) ← readNumber 6 bs; Some ([alnum v], bs)
  | S (S count) =>
      '(v, bs) ← readNumber 11 bs;
      '(cs, bs) ← readAlnum count bs;
      Some (alnum (v / 45) :: alnum (v mod 45) :: cs, bs)
  end.

Fixpoint readBytes (count : nat) (bs : list bool) : option (list Z * list bool) :=
  match count with
  | O => Some ([], bs)
  | S count =>
      '(v, bs) ← readNumber 8 bs;
      '(cs, bs) ← readBytes count bs;
      Some (v :: cs, bs)
  end.

(** The text of the segments up to the terminator, or up to the last three bits.  A
    segment takes at least four bits, which bounds their number. *)
Fixpoint readSegments (fuel : nat) (ver : Z) (bs : list bool) : option (list Z) :=
  match fuel with
  | O => None
  | S fuel =>
      match readNumber 4 bs with
      | None => Some []
      | Some (m, bs) =>
          if m =? 0 then Some []
          else
            let text md (read : nat → list bool → option (list Z * list bool)) :=
              '(n, bs) ← readNumber (numCharCountBits md ver) bs;
              '(cs, bs) ← read (Z.to_nat n) bs;
              app cs <$> readSegments fuel ver bs in
            if m =? modeBits NUMERIC then text NUMERIC readDigits
            else if m =? modeBits ALPHANUMERIC then text ALPHANUMERIC readAlnum
            else if m =? modeBits BYTE then text BYTE readBytes
            else None
      end
  end.

(** ** Numbers as bits *)

Definition bits_of (v n : Z) : list bool := map (bitAt v) (rev (range 0 n)).

Lemma range_succ n : 0 <= n → range 0 (Z.succ n) = 0 :: map Z.succ (range 0 n).
Proof.
  intros Hn. unfold range. rewrite !Z.sub_0_r, seqZ_cons by lia. f_equal. rewrite Z.pred_succ.
  change (map Z.succ (seqZ 0 n)) with (Z.succ <$> seqZ 0 n). apply list_eq. intros i. rewrite list_lookup_fmap.
  destruct (decide (Z.of_nat i < n)).
  - rewrite !lookup_seqZ_lt by lia. cbn. f_equal. lia.
  - rewrite !lookup_seqZ_ge by lia. done.
Qed.

Lemma bitAt_testbit v i : 0 <= i → bitAt v i = Z.testbit v i.
Proof.
  intros Hi. unfold bitAt. change 1 with (Z.ones 1). rewrite Z.land_ones, Z.pow_1_r by lia.
  rewrite <- Z.bit0_mod, Z.shiftr_spec, Z.add_0_l by lia. by destruct (Z.testbit v i).
Qed.

Lemma bits_of_succ v n : 0 <= n → bits_of v (Z.succ n) = bits_of (v / 2) n ++ [Z.odd v].
Proof.
  intros Hn. unfold bits_of. rewrite range_succ by done. cbn [rev]. rewrite map_app. cbn [map]. f_equal.
  - rewrite <- map_rev, map_map. apply map_ext_in. intros i Hi. rewrite <- in_rev, <- list_elem_of_In in Hi.
    apply elem_of_range in Hi. rewrite !bitAt_testbit by lia.
    by rewrite <- Z.div2_div, Z.div2_spec, Z.shiftr_spec, <- Z.add_1_r by lia.
  - by rewrite bitAt_testbit, Z.bit0_odd by lia.
Qed.

Lemma length_bits_of v n : length (bits_of v n) = Z.to_nat n.
Proof. unfold bits_of, range. by rewrite length_map, length_rev, length_seqZ, Z.sub_0_r. Qed.

Lemma bits_val_snoc l b : bits_val (l ++ [b]) = 2 * bits_val l + Z.b2z b.
Proof. unfold bits_val. by rewrite foldl_app. Qed.

Lemma bits_val_of v n : 0 <= n → 0 <= v < 2 ^ n → bits_val (bits_of v n) = v.
Proof.
  intros Hn. revert v. pattern n. apply natlike_ind; [| |done]; clear n Hn.
  - intros v Hv. assert (v = 0) as -> by (rewrite Z.pow_0_r in Hv; lia). done.
  - intros n Hn IH v Hv. rewrite Z.pow_succ_r in Hv by done.
    rewrite bits_of_succ, bits_val_snoc, IH by (lia || (split; [apply Z.div_pos; lia|apply Z.div_lt_upper_bound; lia])).
    pose proof (Z.div_mod v 2). rewrite Zmod_odd in H. destruct (Z.odd v); cbn; lia.
Qed.

Lemma readNumber_bits v n rest : 0 <= n → 0 <= v < 2 ^ n → readNumber n (bits_of v n ++ rest) = Some (v, rest).
Proof.
  intros Hn Hv. pose proof (length_bits_of v n) as Hl. unfold readNumber. rewrite length_app, Hl.
  destruct (Z.ltb_spec (Z.of_nat (Z.to_nat n + length rest)) n); [lia|].
  by rewrite take_app_length', drop_app_length', bits_val_of by done.
Qed.

Lemma appendBits_ok v n bb : 0 <= n <= 31 → 0 <= v < 2 ^ n → appendBits v n bb = Ok (bb ++ bits_of v n).
Proof.
  intros Hn Hv. unfold appendBits. rewrite Z.shiftr_div_pow2, Z.div_small by lia.
  case_match; [lia|done].
Qed.

Lemma uint32_small v : 0 <= v < 2 ^ 32 → uint32 v = v.
Proof. apply Z.mod_small. Qed.

(** A number with a leading zero bit. *)
Lemma bits_of_top v n : 0 <= n → 0 <= v < 2 ^ n → bits_of v (Z.succ n) = false :: bits_of v n.
Proof.
  intros Hn Hv. unfold bits_of, range. rewrite !Z.sub_0_r. rewrite <- (Z.add_1_r n), seqZ_app by lia.
  rewrite (seqZ_cons (0 + n)) by lia. change (seqZ _ (Z.pred 1)) with (@nil Z).
  rewrite rev_app_distr, map_app. cbn [rev app map]. rewrite bitAt_testbit, Z.add_0_l by lia. f_equal.
  rewrite Z.testbit_eqb, Z.div_small by lia. done.
Qed.

(** ** Numeric mode *)

Definition digit (c : Z) : Prop := 48 <= c <= 57.

(** The bits of a list of digits. *)
Fixpoint packDigits (ds : list Z) : list bool :=
  match ds with
  | [] => []
  | [a] => bits_of (a - 48) 4
  | [a; b] => bits_of ((a - 48) * 10 + (b - 48)) 7
  | a :: b :: c :: ds => bits_of (((a - 48) * 10 + (b - 48)) * 10 + (c - 48)) 10 ++ packDigits ds
  end.

Lemma list_ind3 {A} (P : list A → Prop) :
  P [] → (∀ a, P [a]) → (∀ a b, P [a; b]) → (∀ a b c l, P l → P (a :: b :: c :: l)) → ∀ l, P l.
Proof.
  intros H0 H1 H2 H3. fix IH 1. intros [|a [|b [|c l]]]; [apply H0|apply H1|apply H2|apply H3, IH].
Qed.

Lemma numericStep_more bb v k n c : digit c → k + 1 ≠ 3 →
  numericStep (mkAccum bb v k n) c = Ok (mkAccum bb (v * 10 + (c - 48)) (k + 1) (n + 1)).
Proof.
  unfold digit, numericStep. intros Hc Hk. cbn [accumData accumCount acc_bb charCount].
  case_match; [lia|]. case_match; [lia|done].
Qed.

Lemma numericStep_third bb v n c : digit c → 0 <= v <= 99 →
  numericStep (mkAccum bb v 2 n) c = Ok (mkAccum (bb ++ bits_of (v * 10 + (c - 48)) 10) 0 0 (n + 1)).
Proof.
  unfold digit, numericStep. intros Hc Hv. cbn [accumData accumCount acc_bb charCount].
  case_match; [lia|]. change (2 + 1 =? 3) with true. cbn iota.
  by rewrite uint32_small, appendBits_ok by lia.
Qed.

Lemma makeNumeric_from ds bb n : Forall digit ds → 0 <= n →
  (st ← loop ds numericStep (mkAccum bb 0 0 n);
   bb ← (if 0 <? accumCount st
         then appendBits (uint32 (accumData st)) (accumCount st * 3 + 1) (acc_bb st)
         else mret (acc_bb st));
   newSegment NUMERIC (charCount st) bb) = Ok (mkSegment NUMERIC (n + Z.of_nat (length ds)) (bb ++ packDigits ds)).
Proof.
  revert bb n. induction ds as [|a|a b|a b c ds IH] using list_ind3; intros bb n Hds Hn;
    repeat match goal with H : Forall _ (_ :: _) |- _ => apply Forall_cons in H as [? H] end; unfold digit in *.
  - cbn. unfold newSegment. rewrite Z.add_0_r, app_nil_r. by case_match; [lia|].
  - erewrite loop_cons by (apply numericStep_more; unfold digit; lia). rewrite loop_nil, bind_Ok.
    cbn [accumData accumCount acc_bb charCount]. change (0 <? 0 + 1) with true. cbn iota.
    rewrite uint32_small, appendBits_ok, bind_Ok by lia. unfold newSegment. case_match; [lia|].
    cbn [length packDigits]. change ((0 + 1) * 3 + 1) with 4. done.
  - erewrite loop_cons by (apply numericStep_more; unfold digit; lia).
    erewrite loop_cons by (apply numericStep_more; unfold digit; lia). rewrite loop_nil, bind_Ok.
    cbn [accumData accumCount acc_bb charCount]. change (0 <? 0 + 1 + 1) with true. cbn iota.
    rewrite uint32_small, appendBits_ok, bind_Ok by lia. unfold newSegment. case_match; [lia|].
    cbn [length packDigits]. change ((0 + 1 + 1) * 3 + 1) with 7. f_equal. f_equal. lia.
  - erewrite loop_cons by (apply numericStep_more; unfold digit; lia).
    erewrite loop_cons by (apply numericStep_more; unfold digit; lia).
    erewrite loop_cons by (apply numericStep_third; unfold digit; lia).
    rewrite IH by (done || lia). cbn [length packDigits]. rewrite <- app_assoc. f_equal. f_equal. lia.
Qed.

(** ** Alphanumeric mode *)

Definition alnum_value (c v : Z) : Prop := strchr ALPHANUMERIC_CHARSET c = Some v.

Lemma strchr_lookup s c v : strchr s c = Some v → 0 <= v ∧ s !! Z.to_nat v = Some c.
Proof.
  revert v. induction s as [|d s IH]; intros v; [done|]. cbn. destruct (Z.eqb_spec d c) as [->|Hne].
  - by intros [= <-].
  - intros (w & Hw & ->)%fmap_Some. apply IH in Hw as [Hw Hl]. split; [lia|].
    by rewrite Z2Nat.inj_succ by done.
Qed.

Lemma alnum_value_spec c v : alnum_value c v → 0 <= v <= 44 ∧ alnum v = c.
Proof.
  intros [Hv Hl]%strchr_lookup. unfold alnum. rewrite Hl. split; [|done].
  apply lookup_lt_Some in Hl. cbn in Hl. lia.
Qed.

(** The bits of a list of characters. *)
Fixpoint packAlnum (vs : list Z) : list bool :=
  match vs with
  | [] => []
  | [v] => bits_of v 6
  | v :: w :: vs => bits_of (v * 45 + w) 11 ++ packAlnum vs
  end.

Lemma list_ind2 {A} (P : list A → Prop) :
  P [] → (∀ a, P [a]) → (∀ a b l, P l → P (a :: b :: l)) → ∀ l, P l.
Proof. intros H0 H1 H2. fix IH 1. intros [|a [|b l]]; [apply H0|apply H1|apply H2, IH]. Qed.

Lemma alphanumericStep_first bb n c v : alnum_value c v →
  alphanumericStep (mkAccum bb 0 0 n) c = Ok (mkAccum bb v 1 (n + 1)).
Proof. unfold alphanumericStep. by intros ->. Qed.

Lemma alphanumericStep_second bb n c v w : alnum_value c w → 0 <= v <= 44 →
  alphanumericStep (mkAccum bb v 1 n) c = Ok (mkAccum (bb ++ bits_of (v * 45 + w) 11) 0 0 (n + 1)).
Proof.
  unfold alphanumericStep. intros Hc Hv. destruct (alnum_value_spec _ _ Hc) as [Hw _]. rewrite Hc.
  cbn [accumData accumCount acc_bb charCount]. change (1 + 1 =? 2) with true. cbn iota.
  by rewrite uint32_small, appendBits_ok by lia.
Qed.

Lemma makeAlphanumeric_from cs vs bb n : Forall2 alnum_value cs vs → 0 <= n →
  (st ← loop cs alphanumericStep (mkAccum bb 0 0 n);
   bb ← (if 0 <? accumCount st then appendBits (uint32 (accumData st)) 6 (acc_bb st) else mret (acc_bb st));
   newSegment ALPHANUMERIC (charCount st) bb) =
  Ok (mkSegment ALPHANUMERIC (n + Z.of_nat (length cs)) (bb ++ packAlnum vs)).
Proof.
  revert cs bb n. induction vs as [|v|v w vs IH] using list_ind2; intros cs bb n Hcs Hn;
    repeat match goal with H : Forall2 _ _ (_ :: _) |- _ => apply Forall2_cons_inv_r in H as (? & ? & ? & H & ->) end.
  - apply Forall2_nil_inv_r in Hcs as ->. cbn. unfold newSegment. rewrite Z.add_0_r, app_nil_r. by case_match; [lia|].
  - apply Forall2_nil_inv_r in Hcs as ->. erewrite loop_cons by by apply alphanumericStep_first.
    pose proof (alnum_value_spec _ _ H) as [Hv _].
    rewrite loop_nil, bind_Ok. cbn [accumData accumCount acc_bb charCount]. change (0 <? 1) with true. cbn iota.
    rewrite uint32_small, appendBits_ok, bind_Ok by lia. unfold newSegment. case_match; [lia|].
    cbn. repeat f_equal; lia.
  - pose proof (alnum_value_spec _ _ H) as [Hv _]. erewrite loop_cons by by apply alphanumericStep_first.
    erewrite loop_cons by by apply alphanumericStep_second.
    rewrite IH by (done || lia). cbn [length packAlnum]. rewrite <- app_assoc. f_equal. f_equal. lia.
Qed.

(** ** Byte mode *)

Definition packBytes (bs : list Z) : list bool := bs ≫= λ b, bits_of b 8.

Lemma packBytes_from bs bb : Forall byte bs → loop bs (λ bb b, appendBits b 8 bb) bb = Ok (bb ++ packBytes bs).
Proof.
  intros Hbs. revert bb. induction Hbs as [|b bs Hb Hbs IH]; intros bb; [cbn; by rewrite app_nil_r|].
  unfold byte in Hb. erewrite loop_cons by (apply appendBits_ok; lia). rewrite IH. cbn. by rewrite <- app_assoc.
Qed.

(** ** Reading back *)

Lemma readDigits_pack ds rest : Forall digit ds → readDigits (length ds) (packDigits ds ++ rest) = Some (ds, rest).
Proof.
  induction ds as [|a|a b|a b c ds IH] using list_ind3; intros Hds; [done|..];
    repeat match goal with H : Forall _ (_ :: _) |- _ => apply Forall_cons in H as [? H] end; unfold digit in *;
    cbn [length readDigits packDigits]; rewrite <- ?app_assoc, readNumber_bits by lia; cbn [mbind option_bind].
  - do 3 f_equal. lia.
  - rewrite Z.div_add_l, (Z.div_small (b - 48)), (Z.add_comm (_ * 10)), Z.mod_add, Z.mod_small by lia.
    repeat f_equal; lia.
  - rewrite IH by done. cbn.
    assert (((a - 48) * 10 + (b - 48)) * 10 + (c - 48) = (a - 48) * 100 + ((b - 48) * 10 + (c - 48))) as Heq by lia.
    set (v := ((a - 48) * 10 + (b - 48)) * 10 + (c - 48)) in *.
    assert (v / 100 = a - 48) as -> by (symmetry; apply (Z.div_unique _ _ _ ((b - 48) * 10 + (c - 48))); lia).
    assert (v / 10 = (a - 48) * 10 + (b - 48)) as -> by (symmetry; apply (Z.div_unique _ _ _ (c - 48)); lia).
    assert (v mod 10 = c - 48) as -> by (symmetry; apply (Z.mod_unique _ _ ((a - 48) * 10 + (b - 48))); lia).
    assert (((a - 48) * 10 + (b - 48)) mod 10 = b - 48) as -> by (symmetry; apply (Z.mod_unique _ _ (a - 48)); lia).
    rewrite !Zplus_minus. done.
Qed.

Lemma readAlnum_pack cs vs rest : Forall2 alnum_value cs vs →
  readAlnum (length cs) (packAlnum vs ++ rest) = Some (cs, rest).
Proof.
  revert cs. induction vs as [|v|v w vs IH] using list_ind2; intros cs Hcs;
    repeat match goal with H : Forall2 _ _ (_ :: _) |- _ => apply Forall2_cons_inv_r in H as (? & ? & ? & H & ->) end;
    [apply Forall2_nil_inv_r in Hcs as ->; done|..].
  - apply Forall2_nil_inv_r in Hcs as ->. destruct (alnum_value_spec _ _ H) as [Hv <-].
    cbn [length readAlnum packAlnum]. by rewrite readNumber_bits by lia.
  - destruct (alnum_value_spec _ _ H) as [Hv <-]. destruct (alnum_value_spec _ _ H0) as [Hw <-].
    cbn [length readAlnum packAlnum]. rewrite <- app_assoc, readNumber_bits by lia. cbn [mbind option_bind].
    rewrite IH by done. cbn [mbind option_bind].
    assert ((v * 45 + w) / 45 = v) as -> by (symmetry; apply (Z.div_unique _ _ _ w); lia).
    assert ((v * 45 + w) mod 45 = w) as -> by (symmetry; apply (Z.mod_unique _ _ v); lia). done.
Qed.

Lemma readBytes_pack bs rest : Forall byte bs → readBytes (length bs) (packBytes bs ++ rest) = Some (bs, rest).
Proof.
  intros Hbs. induction Hbs as [|b bs Hb Hbs IH]; [done|]. unfold byte in Hb.
  change (packBytes (b :: bs)) with (bits_of b 8 ++ packBytes bs). cbn [length readBytes].
  rewrite <- app_assoc, readNumber_bits by lia. cbn [mbind option_bind]. by rewrite IH.
Qed.

(** ** What a segment promises

    [carries seg text]: the reader of the mode of the segment gets [text] from the data
    bits, whatever follows them. *)
Definition reader (m : Mode) : nat → list bool → option (list Z * list bool) :=
  if decide (m = NUMERIC) then readDigits
  else if decide (m = ALPHANUMERIC) then readAlnum
  else readBytes.

Definition carries (seg : QrSegment) (text : list Z) : Prop :=
  (mode seg = NUMERIC ∨ mode seg = ALPHANUMERIC ∨ mode seg = BYTE) ∧
  numChars seg = size_of text ∧
  ∀ rest, reader (mode seg) (length text) (data seg ++ rest) = Some (text, rest).

Lemma makeNumeric_ok ds : Forall digit ds →
  ∃ seg, makeNumeric ds = Ok seg ∧ carries seg ds ∧ mode seg = NUMERIC ∧ data seg = packDigits ds.
Proof.
  intros Hds. eexists. split; [unfold makeNumeric; by apply makeNumeric_from|]. split; [|done].
  split; [by left|]. split; [done|]. intros rest. by apply readDigits_pack.
Qed.

Lemma makeAlphanumeric_ok cs vs : Forall2 alnum_value cs vs →
  ∃ seg, makeAlphanumeric cs = Ok seg ∧ carries seg cs ∧ mode seg = ALPHANUMERIC ∧ data seg = packAlnum vs.
Proof.
  intros Hcs. eexists. split; [unfold makeAlphanumeric; by apply makeAlphanumeric_from|]. split; [|done].
  split; [by right; left|]. split; [done|]. intros rest. by apply readAlnum_pack.
Qed.

Lemma makeBytes_ok bs : Forall byte bs → size_of bs <= INT_MAX →
  makeBytes bs = Ok (mkSegment BYTE (size_of bs) (packBytes bs)).
Proof.
  intros Hbs Hlen. unfold makeBytes, newSegment, size_of in *. case_match; [lia|].
  rewrite packBytes_from by done. cbn. case_match; [lia|done].
Qed.

Lemma carries_bytes bs : Forall byte bs → carries (mkSegment BYTE (size_of bs) (packBytes bs)) bs.
Proof.
  intros Hbs. split; [by right; right|]. split; [done|]. intros rest. by apply readBytes_pack.
Qed.

(** ** Text that does not fit a mode *)

Definition not_digit_error : exn := domain_error "String contains non-numeric characters".
Definition not_alnum_error : exn := domain_error "String contains unencodable characters in alphanumeric mode".

Lemma isNumeric_spec text : isNumeric text = true ↔ Forall digit text.
Proof.
  unfold isNumeric. rewrite forallb_forall, List.Forall_forall. unfold digit.
  split; intros H c Hc; specialize (H c Hc); lia.
Qed.

Lemma isAlphanumeric_spec text : isAlphanumeric text = true ↔ ∃ vs, Forall2 alnum_value text vs.
Proof.
  unfold isAlphanumeric. rewrite forallb_forall. split.
  - intros H. induction text as [|c text IH]; [by exists []|].
    destruct IH as [vs Hvs]; [intros c' Hc'; apply H; by right|].
    specialize (H c (or_introl eq_refl)). apply bool_decide_eq_true in H as [v Hv]. exists (v :: vs). by constructor.
  - intros [vs Hvs] c Hc. apply bool_decide_eq_true. induction Hvs as [|c' v text vs Hv Hvs IH]; [done|].
    destruct Hc as [<-|Hc]; [by exists v|auto].
Qed.

(** Before a bad character the loop only passes good ones. *)
Lemma numericStep_total bb v k n c :
  0 <= k <= 2 → 0 <= v < 10 ^ k →
  numericStep (mkAccum bb v k n) c = Err not_digit_error ∧ ¬ digit c ∨
  digit c ∧ ∃ bb' v' k', numericStep (mkAccum bb v k n) c = Ok (mkAccum bb' v' k' (n + 1)) ∧ 0 <= k' <= 2 ∧ 0 <= v' < 10 ^ k'.
Proof.
  intros Hk Hv. destruct (decide (48 <= c <= 57)) as [Hc|Hc].
  - right. split; [done|]. destruct (decide (k = 2)) as [->|Hk2].
    + rewrite numericStep_third by (done || lia). do 3 eexists. split; [done|]. lia.
    + rewrite numericStep_more by (done || lia). do 3 eexists. split; [done|]. split; [lia|].
      rewrite Z.pow_add_r, Z.pow_1_r by lia. lia.
  - left. split; [|done]. unfold numericStep. case_match; [done|lia].
Qed.

Lemma makeNumeric_bad ds : ¬ Forall digit ds → makeNumeric ds = Err not_digit_error.
Proof.
  intros Hbad. unfold makeNumeric.
  assert (∀ bb v k n, 0 <= k <= 2 → 0 <= v < 10 ^ k → loop ds numericStep (mkAccum bb v k n) = Err not_digit_error) as H;
    [|by rewrite H by (cbn; lia)].
  induction ds as [|c ds IH]; intros bb v k n Hk Hv; [destruct Hbad; constructor|].
  destruct (numericStep_total bb v k n c Hk Hv) as [[He _]|(Hc & bb' & v' & k' & Hs & Hk' & Hv')].
  - cbn. by rewrite He.
  - rewrite (loop_cons _ _ _ _ _ Hs). apply IH; [|done..]. intros Hds. apply Hbad. by constructor.
Qed.

Lemma alphanumericStep_total bb v k n c :
  0 <= k <= 1 → 0 <= v < 45 ^ k →
  alphanumericStep (mkAccum bb v k n) c = Err not_alnum_error ∧ strchr ALPHANUMERIC_CHARSET c = None ∨
  ∃ w bb' v' k', alnum_value c w ∧ alphanumericStep (mkAccum bb v k n) c = Ok (mkAccum bb' v' k' (n + 1)) ∧
    0 <= k' <= 1 ∧ 0 <= v' < 45 ^ k'.
Proof.
  intros Hk Hv. destruct (strchr ALPHANUMERIC_CHARSET c) as [w|] eqn:Hc.
  - right. pose proof (alnum_value_spec _ _ Hc) as [Hw _]. exists w. destruct (decide (k = 1)) as [->|Hk1].
    + erewrite alphanumericStep_second by (done || lia). do 3 eexists. split; [done|]. split; [done|]. lia.
    + assert (k = 0) as -> by lia. assert (v = 0) as -> by lia.
      erewrite alphanumericStep_first by done. do 3 eexists. split; [done|]. split; [done|]. lia.
  - left. split; [|done]. unfold alphanumericStep. by rewrite Hc.
Qed.

Lemma makeAlphanumeric_bad cs : isAlphanumeric cs = false → makeAlphanumeric cs = Err not_alnum_error.
Proof.
  intros Hbad. unfold makeAlphanumeric.
  assert (∀ bb v k n, 0 <= k <= 1 → 0 <= v < 45 ^ k → loop cs alphanumericStep (mkAccum bb v k n) = Err not_alnum_error) as H;
    [|by rewrite H by (cbn; lia)].
  induction cs as [|c cs IH]; intros bb v k n Hk Hv; [done|].
  destruct (alphanumericStep_total bb v k n c Hk Hv) as [[He _]|(w & bb' & v' & k' & Hc & Hs & Hk' & Hv')].
  - cbn. by rewrite He.
  - rewrite (loop_cons _ _ _ _ _ Hs). apply IH; [|done..]. unfold isAlphanumeric in *. cbn [forallb] in Hbad.
    rewrite bool_decide_true in Hbad by by exists w. done.
Qed.

(** ** The segments of a text *)

(** The bits of the digits left over from the groups of three. *)
Definition digitsTail (r : Z) : Z := if r =? 1 then 4 else if r =? 2 then 7 else 0.

Lemma length_packDigits ds :
  size_of (packDigits ds) = 10 * (size_of ds / 3) + digitsTail (size_of ds mod 3).
Proof.
  unfold size_of. induction ds as [|a|a b|a b c ds IH] using list_ind3; [done|done|done|].
  cbn [packDigits length]. rewrite length_app, length_bits_of.
  replace (Z.of_nat (S (S (S (length ds))))) with (Z.of_nat (length ds) + 1 * 3) by lia.
  rewrite Z.div_add, Z.mod_add by lia. lia.
Qed.

Lemma length_packAlnum vs :
  size_of (packAlnum vs) = 11 * (size_of vs / 2) + 6 * (size_of vs mod 2).
Proof.
  unfold size_of. induction vs as [|v|v w vs IH] using list_ind2; [done|done|].
  cbn [packAlnum length]. rewrite length_app, length_bits_of.
  replace (Z.of_nat (S (S (length vs)))) with (Z.of_nat (length vs) + 1 * 2) by lia.
  rewrite Z.div_add, Z.mod_add by lia. lia.
Qed.

Lemma length_packBytes bs : size_of (packBytes bs) = 8 * size_of bs.
Proof.
  unfold size_of, packBytes. induction bs as [|b bs IH]; [done|]. cbn [mbind list_bind].
  rewrite length_app, length_bits_of. cbn [length]. change (Z.to_nat 8) with 8%nat. cbn [mbind list_bind] in IH. lia.
Qed.

(** The mode [makeSegments] picks, and the number of data bits of [n] characters. *)
Definition textMode (text : list Z) : Mode :=
  if isNumeric text then NUMERIC else if isAlphanumeric text then ALPHANUMERIC else BYTE.

Definition dataBits (m : Mode) (n : Z) : Z :=
  if decide (m = NUMERIC) then 10 * (n / 3) + digitsTail (n mod 3)
  else if decide (m = ALPHANUMERIC) then 11 * (n / 2) + 6 * (n mod 2)
  else 8 * n.

Lemma dataBits_numeric n : dataBits NUMERIC n = 10 * (n / 3) + digitsTail (n mod 3).
Proof. reflexivity. Qed.
Lemma dataBits_alphanumeric n : dataBits ALPHANUMERIC n = 11 * (n / 2) + 6 * (n mod 2).
Proof. reflexivity. Qed.
Lemma dataBits_byte n : dataBits BYTE n = 8 * n.
Proof. reflexivity. Qed.

Definition text_mode (m : Mode) : Prop := m = NUMERIC ∨ m = ALPHANUMERIC ∨ m = BYTE.

Lemma textMode_text text : text_mode (textMode text).
Proof. unfold textMode, text_mode. repeat case_match; auto. Qed.

Lemma mod3_cases n : n mod 3 = 0 ∨ n mod 3 = 1 ∨ n mod 3 = 2.
Proof. pose proof (Z.mod_pos_bound n 3). lia. Qed.

(** Numeric mode is never longer than alphanumeric mode, and that never longer than
    byte mode, the length field included. *)
Lemma numeric_shortest n : 1 <= n →
  10 + dataBits NUMERIC n <= 9 + dataBits ALPHANUMERIC n ∧ 12 + dataBits NUMERIC n <= 11 + dataBits ALPHANUMERIC n ∧
  14 + dataBits NUMERIC n <= 13 + dataBits ALPHANUMERIC n.
Proof.
  intros Hn. rewrite ?dataBits_numeric, ?dataBits_alphanumeric, ?dataBits_byte.
  pose proof (Z.div_mod n 3 ltac:(lia)). pose proof (Z.div_mod n 2 ltac:(lia)). pose proof (Z.mod_pos_bound n 2 ltac:(lia)).
  destruct (mod3_cases n) as [H3|[H3|H3]]; rewrite H3; unfold digitsTail; cbn [Z.eqb Pos.eqb]; lia.
Qed.

Lemma alphanumeric_shortest n : 1 <= n →
  9 + dataBits ALPHANUMERIC n <= 8 + dataBits BYTE n ∧ dataBits ALPHANUMERIC n <= dataBits BYTE n.
Proof.
  intros Hn. rewrite ?dataBits_numeric, ?dataBits_alphanumeric, ?dataBits_byte.
  pose proof (Z.div_mod n 2 ltac:(lia)). pose proof (Z.mod_pos_bound n 2 ltac:(lia)). lia.
Qed.

Lemma dataBits_bounds m n : text_mode m → 0 <= n → 0 <= dataBits m n <= 8 * n.
Proof.
  intros Hm Hn. pose proof (Z.div_mod n 3 ltac:(lia)). pose proof (Z.div_mod n 2 ltac:(lia)).
  pose proof (Z.mod_pos_bound n 2 ltac:(lia)). pose proof (Z.div_pos n 3). pose proof (Z.div_pos n 2).
  unfold dataBits. case_decide; [|case_decide; lia].
  destruct (mod3_cases n) as [Hr|[Hr|Hr]]; rewrite Hr in *; unfold digitsTail; cbn [Z.eqb Pos.eqb]; lia.
Qed.

Lemma makeSegments_spec text : Forall byte text → size_of text <= INT_MAX → text ≠ [] →
  ∃ seg, makeSegments text = Ok [seg] ∧ carries seg text ∧ mode seg = textMode text ∧
    size_of (data seg) = dataBits (textMode text) (size_of text).
Proof.
  intros Hb Hlen Hne. unfold makeSegments, textMode. destruct text as [|c text']; [done|]. set (text := c :: text') in *.
  destruct (isNumeric text) eqn:Hnum.
  - apply isNumeric_spec in Hnum. destruct (makeNumeric_ok text Hnum) as (seg & Hm & Hc & Hmd & Hd).
    exists seg. rewrite Hm. split; [done|]. split; [done|]. split; [done|]. rewrite Hd. apply length_packDigits.
  - destruct (isAlphanumeric text) eqn:Hal.
    + apply isAlphanumeric_spec in Hal as [vs Hvs].
      destruct (makeAlphanumeric_ok text vs Hvs) as (seg & Hm & Hc & Hmd & Hd).
      exists seg. rewrite Hm. split; [done|]. split; [done|]. split; [done|]. rewrite Hd, length_packAlnum.
      apply Forall2_length in Hvs. unfold size_of. by rewrite Hvs.
    + rewrite makeBytes_ok by done. eexists. split; [done|]. split; [by apply carries_bytes|]. split; [done|].
      apply length_packBytes.
Qed.

(** The bits of a segment in a code of the given version. *)
Definition segmentLength (ver : Z) (seg : QrSegment) : Z :=
  4 + numCharCountBits (mode seg) ver + size_of (data seg).

Definition versions : list Z := seqZ 1 40.

(** A property of versions that can be evaluated holds if it does on all of them. *)
Lemma versions_spec (P : Z → bool) v : 1 <= v <= 40 → forallb P versions = true → P v = true.
Proof.
  unfold versions. intros Hv HP. rewrite forallb_forall in HP. apply HP. rewrite <- list_elem_of_In, elem_of_seqZ. lia.
Qed.

Lemma versions_decide (P : Z → Prop) `{∀ v, Decision (P v)} v :
  1 <= v <= 40 → forallb (λ v, bool_decide (P v)) versions = true → P v.
Proof. intros Hv HP. apply (bool_decide_eq_true_1 _), (versions_spec (λ v, bool_decide (P v)) v Hv HP). Qed.

(** The three sets of lengths of the count fields. *)
Lemma ccbits_cases ver : 1 <= ver <= 40 →
  (numCharCountBits NUMERIC ver, numCharCountBits ALPHANUMERIC ver, numCharCountBits BYTE ver) ∈
  [(10, 9, 8); (12, 11, 16); (14, 13, 16)].
Proof.
  intros Hv. apply (versions_decide (λ ver, (numCharCountBits NUMERIC ver, numCharCountBits ALPHANUMERIC ver,
    numCharCountBits BYTE ver) ∈ [(10, 9, 8); (12, 11, 16); (14, 13, 16)]) ver Hv). vm_compute. reflexivity.
Qed.

(** The segment that carries the text in a mode that can hold it. *)
Definition textSegment (m : Mode) (text : list Z) : exc QrSegment :=
  if decide (m = NUMERIC) then makeNumeric text
  else if decide (m = ALPHANUMERIC) then makeAlphanumeric text
  else makeBytes text.

Lemma textSegment_spec m text seg : Forall byte text → text_mode m → textSegment m text = Ok seg →
  mode seg = m ∧ size_of (data seg) = dataBits m (size_of text) ∧
  (m = NUMERIC → isNumeric text = true) ∧ (m = ALPHANUMERIC → isAlphanumeric text = true).
Proof.
  intros Hb Hm. destruct Hm as [->|[->| ->]]; rewrite ?dataBits_numeric, ?dataBits_alphanumeric, ?dataBits_byte;
    [change (textSegment NUMERIC text) with (makeNumeric text)
    |change (textSegment ALPHANUMERIC text) with (makeAlphanumeric text)
    |change (textSegment BYTE text) with (makeBytes text)].
  - destruct (isNumeric text) eqn:Hn.
    + apply isNumeric_spec in Hn. destruct (makeNumeric_ok text Hn) as (seg' & -> & Hc & Hmd & Hd).
      intros [= <-]. rewrite Hd, length_packDigits. done.
    + rewrite makeNumeric_bad; [done|]. intros Hf%isNumeric_spec. congruence.
  - destruct (isAlphanumeric text) eqn:Hn; [|by rewrite makeAlphanumeric_bad].
    apply isAlphanumeric_spec in Hn as [vs Hvs]. destruct (makeAlphanumeric_ok text vs Hvs) as (seg' & -> & Hc & Hmd & Hd).
    intros [= <-]. rewrite Hd, length_packAlnum. apply Forall2_length in Hvs. unfold size_of. by rewrite Hvs.
  - unfold makeBytes. case_match eqn:Hlen; [done|]. rewrite packBytes_from by done. cbn. unfold newSegment.
    case_match; [done|]. intros [= <-]. by rewrite <- length_packBytes.
Qed.

(** The segment chosen for a text is the shortest one: in every version, no mode
    that can hold the text needs fewer bits. *)
Theorem makeSegments_optimal text ver m seg' :
  Forall byte text → size_of text <= INT_MAX → text ≠ [] → 1 <= ver <= 40 →
  text_mode m → textSegment m text = Ok seg' →
  ∃ seg, makeSegments text = Ok [seg] ∧ segmentLength ver seg <= segmentLength ver seg'.
Proof.
  intros Hb Hlen Hne Hv Hm Hs. destruct (makeSegments_spec text Hb Hlen Hne) as (seg & Hseg & _ & Hmd & Hd).
  destruct (textSegment_spec m text seg' Hb Hm Hs) as (Hmd' & Hd' & Hnum & Hal).
  exists seg. split; [done|]. unfold segmentLength. rewrite Hmd, Hmd', Hd, Hd'.
  assert (1 <= size_of text) as Hn by (unfold size_of; destruct text; cbn; [done|lia]).
  pose proof (numeric_shortest _ Hn). pose proof (alphanumeric_shortest _ Hn). pose proof (ccbits_cases ver Hv) as Hcc.
  unfold textMode. destruct (isNumeric text) eqn:HN; [|destruct (isAlphanumeric text) eqn:HA];
    destruct Hm as [->|[->| ->]]; try lia; try (specialize (Hnum eq_refl); congruence);
    try (specialize (Hal eq_refl); congruence);
    repeat (apply elem_of_cons in Hcc as [[= ? ? ?]|Hcc]; [lia|]); by apply elem_of_nil in Hcc.
Qed.

Lemma makeSegments_optimal_witness :
  ∃ seg, makeSegments [49; 50; 51] = Ok [seg] ∧ segmentLength 1 seg <= 4 + 8 + 24.
Proof.
  destruct (makeSegments_optimal [49; 50; 51] 1 BYTE (mkSegment BYTE 3 (packBytes [49; 50; 51]))) as (seg & H1 & H2).
  - repeat constructor; unfold byte; lia.
  - vm_compute. intros [=].
  - done.
  - lia.
  - by right; right.
  - vm_compute. reflexivity.
  - exists seg. split; [exact H1|exact H2].
Defined.

(** ** The total length *)

Definition fitsCount (ver : Z) (seg : QrSegment) : bool := numChars seg <? 2 ^ numCharCountBits (mode seg) ver.

Definition segmentsLength (ver : Z) (segs : list QrSegment) : Z :=
  foldr (λ seg n, segmentLength ver seg + n) 0 segs.

Lemma segmentsLength_cons ver seg segs :
  segmentsLength ver (seg :: segs) = segmentLength ver seg + segmentsLength ver segs.
Proof. done. Qed.

(** The modes of the class. *)
Definition modes : list Mode := [NUMERIC; ALPHANUMERIC; BYTE; KANJI; ECI].

Lemma ccbits_bounds m ver : m ∈ modes → 0 <= numCharCountBits m ver <= 16.
Proof.
  intros Hm. unfold numCharCountBits. generalize (Z.to_nat ((ver + 7) `quot` 17)). intros i.
  assert (Forall (λ m, Forall (λ n, 0 <= n <= 16) (numBitsCharCount m)) modes) as H
    by (repeat (constructor; [repeat constructor; cbn; lia|]); constructor).
  rewrite Forall_forall in H. specialize (H m Hm). destruct (numBitsCharCount m !! i) as [n|] eqn:Hi; [|cbn; lia].
  cbn. by eapply (Forall_lookup_1 _ _ _ _ H Hi).
Qed.

Lemma segmentsLength_nonneg ver segs : Forall (λ seg, mode seg ∈ modes) segs → 0 <= segmentsLength ver segs.
Proof.
  intros Hm. induction Hm as [|seg segs Hs Hm IH]; [done|]. rewrite segmentsLength_cons. pose proof (ccbits_bounds _ ver Hs).
  unfold segmentLength, size_of. lia.
Qed.

Lemma totalBitsFrom_spec r segs ver : Forall (λ seg, mode seg ∈ modes) segs → 0 <= r <= INT_MAX →
  totalBitsFrom r segs ver =
  if forallb (fitsCount ver) segs && (r + segmentsLength ver segs <=? INT_MAX) then r + segmentsLength ver segs else -1.
Proof.
  intros Hm. revert r. induction Hm as [|seg segs Hs Hm IH]; intros r Hr.
  - cbn. rewrite Z.add_0_r. by case_match; [|lia].
  - pose proof (ccbits_bounds _ ver Hs) as Hcc. pose proof (segmentsLength_nonneg ver segs Hm) as H0.
    rewrite segmentsLength_cons. cbn [totalBitsFrom forallb].
    unfold fitsCount at 1, segmentLength. rewrite Z.shiftl_1_l.
    set (cc := numCharCountBits (mode seg) ver) in *. assert (0 <= size_of (data seg)) by (unfold size_of; lia).
    destruct (Z.leb_spec (2 ^ cc) (numChars seg)), (Z.ltb_spec (numChars seg) (2 ^ cc)); try lia; [done|]. cbn [andb].
    destruct (Z.ltb_spec (INT_MAX - r) (4 + cc)).
    { case_match; [|done]. lia. }
    destruct (Z.ltb_spec (INT_MAX - (r + (4 + cc))) (size_of (data seg))).
    { case_match; [|done]. lia. }
    rewrite IH by lia. rewrite !Z.add_assoc. done.
Qed.

(** The number of bits [getTotalBits] returns is exact, or -1 if a segment has too
    many characters for its length field or the sum exceeds an [int]: the checks
    before each addition are exactly the ones that prevent an overflow. *)
Theorem getTotalBits_exact segs ver : Forall (λ seg, mode seg ∈ modes) segs →
  getTotalBits segs ver =
  if forallb (fitsCount ver) segs && (segmentsLength ver segs <=? INT_MAX) then segmentsLength ver segs else -1.
Proof. intros Hm. unfold getTotalBits. rewrite totalBitsFrom_spec by (done || (unfold INT_MAX; lia)). done. Qed.

Lemma getTotalBits_exact_witness :
  getTotalBits [mkSegment BYTE 256 []] 9 = -1 ∧ getTotalBits [mkSegment BYTE 256 []] 10 = 20.
Proof.
  rewrite !getTotalBits_exact by (repeat constructor; apply (bool_decide_unpack _); vm_compute; exact I).
  split; vm_compute; reflexivity.
Defined.

(** ** Reading segments *)

Definition segmentBits (ver : Z) (seg : QrSegment) : list bool :=
  bits_of (modeBits (mode seg)) 4 ++ bits_of (numChars seg) (numCharCountBits (mode seg) ver) ++ data seg.

Lemma length_segmentBits ver seg : mode seg ∈ modes → size_of (segmentBits ver seg) = segmentLength ver seg.
Proof.
  intros Hm. pose proof (ccbits_bounds _ ver Hm). unfold segmentBits, segmentLength, size_of.
  rewrite !length_app, !length_bits_of. lia.
Qed.

Definition segmentsBits (ver : Z) (segs : list QrSegment) : list bool := segs ≫= segmentBits ver.

Lemma length_segmentsBits ver segs : Forall (λ seg, mode seg ∈ modes) segs →
  size_of (segmentsBits ver segs) = segmentsLength ver segs.
Proof.
  intros Hm. induction Hm as [|seg segs Hs Hm IH]; [done|]. rewrite segmentsLength_cons, <- IH, <- length_segmentBits by done.
  change (segmentsBits ver (seg :: segs)) with (segmentBits ver seg ++ segmentsBits ver segs).
  unfold size_of. rewrite length_app. lia.
Qed.

(** What ends the segments: fewer than four bits, or four zero bits. *)
Definition ends (rest : list bool) : Prop := (length rest < 4)%nat ∨ take 4 rest = replicate 4 false.

Lemma readSegments_end fuel ver rest : ends rest → readSegments (S fuel) ver rest = Some [].
Proof.
  intros [Hlen|Htake]; cbn [readSegments]; unfold readNumber.
  - destruct (Z.ltb_spec (Z.of_nat (length rest)) 4); [done|lia].
  - destruct (Z.ltb_spec (Z.of_nat (length rest)) 4); [done|]. change (Z.to_nat 4) with 4%nat. by rewrite Htake.
Qed.

Lemma carries_text_mode seg text : carries seg text → text_mode (mode seg).
Proof. by intros [? _]. Qed.

Lemma text_mode_modes m : text_mode m → m ∈ modes.
Proof. intros [->|[->| ->]]; apply (bool_decide_unpack _); vm_compute; exact I. Qed.

Lemma readSegments_cons fuel ver seg text bs : carries seg text → fitsCount ver seg = true →
  readSegments (S fuel) ver (segmentBits ver seg ++ bs) = app text <$> readSegments fuel ver bs.
Proof.
  intros (Hm & Hn & Hr) Hfit. unfold fitsCount in Hfit. pose proof (ccbits_bounds _ ver (text_mode_modes _ Hm)) as Hcc.
  assert (0 <= numChars seg) by (rewrite Hn; unfold size_of; lia).
  unfold segmentBits. rewrite <- !app_assoc. cbn [readSegments].
  rewrite readNumber_bits by (lia || (destruct Hm as [-> |[-> | ->]]; cbn; lia)).
  specialize (Hr bs). rewrite <- (Nat2Z.id (length text)) in Hr. fold (size_of text) in Hr. rewrite <- Hn in Hr.
  destruct Hm as [Hm|[Hm|Hm]]; rewrite Hm in *; cbn [modeBits NUMERIC ALPHANUMERIC BYTE Z.eqb Pos.eqb];
    rewrite readNumber_bits by lia; cbn [mbind option_bind];
    [change (reader NUMERIC) with readDigits in Hr|change (reader ALPHANUMERIC) with readAlnum in Hr
    |change (reader BYTE) with readBytes in Hr]; by rewrite Hr.
Qed.

Lemma readSegments_ok fuel ver segs texts rest :
  Forall2 carries segs texts → forallb (fitsCount ver) segs = true → ends rest → (length segs < fuel)%nat →
  readSegments fuel ver (segmentsBits ver segs ++ rest) = Some (concat texts).
Proof.
  intros Hc. revert fuel. induction Hc as [|seg text segs texts Hs Hc IH]; intros fuel Hfit Hend Hfuel.
  - destruct fuel; [cbn in Hfuel; lia|]. by apply readSegments_end.
  - destruct fuel as [|fuel]; [cbn in Hfuel; lia|]. cbn in Hfit. apply andb_prop in Hfit as [Hf Hfit].
    change (segmentsBits ver (seg :: segs)) with (segmentBits ver seg ++ segmentsBits ver segs).
    rewrite <- app_assoc, (readSegments_cons _ _ _ text), IH by (done || cbn in Hfuel; lia). done.
Qed.

(** ** Extended channel interpretations *)

(** The designator: one, two or three bytes, told apart by their first bits. *)
Definition readEci (bs : list bool) : option (Z * list bool) :=
  match bs with
  | false :: bs => readNumber 7 bs
  | true :: false :: bs => readNumber 14 bs
  | true :: true :: false :: bs => readNumber 21 bs
  | _ => None
  end.

(** [makeEci] accepts exactly the assignment values from 0 to 999999, and the
    designator it writes is read back as that value. *)
Theorem makeEci_roundtrip v :
  (0 <= v < 1000000 → ∃ seg, makeEci v = Ok seg ∧ mode seg = ECI ∧ numChars seg = 0 ∧
     ∀ rest, readEci (data seg ++ rest) = Some (v, rest)) ∧
  (~ 0 <= v < 1000000 → makeEci v = Err (domain_error "ECI assignment value out of range")).
Proof.
  unfold makeEci. change (Z.shiftl 1 7) with 128. change (Z.shiftl 1 14) with 16384. split; intros Hv.
  - destruct (Z.ltb_spec v 0); [lia|]. rewrite uint32_small by lia.
    destruct (Z.ltb_spec v 128); [|destruct (Z.ltb_spec v 16384); [|destruct (Z.ltb_spec v 1000000); [|lia]]];
      rewrite !appendBits_ok by lia; rewrite ?bind_Ok, ?appendBits_ok, ?bind_Ok by lia;
      (eexists; split; [done|]); (split; [done|]); (split; [done|]); intros rest; cbn [data].
    + change 8 with (Z.succ 7). rewrite bits_of_top, app_nil_l by lia. cbn [app readEci]. by apply readNumber_bits; lia.
    + rewrite app_nil_l, <- app_assoc. by apply readNumber_bits; lia.
    + rewrite app_nil_l, <- app_assoc. by apply readNumber_bits; lia.
  - destruct (Z.ltb_spec v 0); [done|]. destruct (Z.ltb_spec v 128); [lia|]. destruct (Z.ltb_spec v 16384); [lia|].
    destruct (Z.ltb_spec v 1000000); [lia|done].
Qed.
