(* ===== verification/QrCode.v ===== *)
(** * The QR code generator

    Models the class [QrCode] of [src/client/3rd/qrcodegen/qrcodegen.cpp]: choosing
    the version, error correction and interleaving, drawing the symbol and choosing
    its mask.  A member function takes the object and returns it changed.  The grids
    are lists of rows, read and written with bounds checks as in the code. *)

From stdpp Require Import prelude strings list list_numbers pretty.
From Stdlib Require Import ZArith Lia.
From S2P Require Import Prelude Cxx ReedSolomon QrSegment.

Local Open Scope Z_scope.

(** ** Error correction levels and tables *)

Inductive Ecc := LOW | MEDIUM | QUARTILE | HIGH.

#[global] Instance Ecc_eq_dec : EqDecision Ecc.
Proof. solve_decision. Defined.

Definition eccInt (ecl : Ecc) : nat :=
  match ecl with LOW => 0 | MEDIUM => 1 | QUARTILE => 2 | HIGH => 3 end.

Definition getFormatBits (ecl : Ecc) : Z :=
  match ecl with LOW => 1 | MEDIUM => 0 | QUARTILE => 3 | HIGH => 2 end.

Definition MIN_VERSION : Z := 1.
Definition MAX_VERSION : Z := 40.

Definition PENALTY_N1 : Z := 3.
Definition PENALTY_N2 : Z := 3.
Definition PENALTY_N3 : Z := 40.
Definition PENALTY_N4 : Z := 10.

Definition ECC_CODEWORDS_PER_BLOCK : list (list Z) := [
  [-1; 7; 10; 15; 20; 26; 18; 20; 24; 30; 18; 20; 24; 26; 30; 22; 24; 28; 30; 28; 28; 28; 28; 30; 30; 26; 28; 30; 30; 30; 30; 30; 30; 30; 30; 30; 30; 30; 30; 30; 30];
  [-1; 10; 16; 26; 18; 24; 16; 18; 22; 22; 26; 30; 22; 22; 24; 24; 28; 28; 26; 26; 26; 26; 28; 28; 28; 28; 28; 28; 28; 28; 28; 28; 28; 28; 28; 28; 28; 28; 28; 28; 28];
  [-1; 13; 22; 18; 26; 18; 24; 18; 22; 20; 24; 28; 26; 24; 20; 30; 24; 28; 28; 26; 30; 28; 30; 30; 30; 30; 28; 30; 30; 30; 30; 30; 30; 30; 30; 30; 30; 30; 30; 30; 30];
  [-1; 17; 28; 22; 16; 22; 28; 26; 26; 24; 28; 24; 28; 22; 24; 24; 30; 28; 28; 26; 28; 30; 24; 30; 30; 30; 30; 30; 30; 30; 30; 30; 30; 30; 30; 30; 30; 30; 30; 30; 30]].

Definition NUM_ERROR_CORRECTION_BLOCKS : list (list Z) := [
  [-1; 1; 1; 1; 1; 1; 2; 2; 2; 2; 4; 4; 4; 4; 4; 6; 6; 6; 6; 7; 8; 8; 9; 9; 10; 12; 12; 12; 13; 14; 15; 16; 17; 18; 19; 19; 20; 21; 22; 24; 25];
  [-1; 1; 1; 1; 2; 2; 4; 4; 4; 5; 5; 5; 8; 9; 9; 10; 10; 11; 13; 14; 16; 17; 17; 18; 20; 21; 23; 25; 26; 28; 29; 31; 33; 35; 37; 38; 40; 43; 45; 47; 49];
  [-1; 1; 1; 2; 2; 4; 4; 6; 6; 8; 8; 8; 10; 12; 16; 12; 17; 16; 18; 21; 20; 23; 23; 25; 27; 29; 34; 34; 35; 38; 40; 43; 45; 48; 51; 53; 56; 59; 62; 65; 68];
  [-1; 1; 1; 2; 4; 4; 4; 5; 6; 8; 8; 11; 11; 16; 16; 18; 16; 19; 21; 25; 25; 25; 34; 30; 32; 35; 37; 40; 42; 45; 48; 51; 54; 57; 60; 63; 66; 70; 74; 77; 81]].

(** Reading a table; versions are checked before. *)
Definition entry (table : list (list Z)) (ecl : Ecc) (ver : Z) : Z :=
  default 0 (table !! eccInt ecl ≫= λ row, row !! Z.to_nat ver).

Definition getNumRawDataModules (ver : Z) : exc Z :=
  if (ver <? MIN_VERSION) || (MAX_VERSION <? ver) then raise (domain_error "Version number out of range")
  else
    let result := (16 * ver + 128) * ver + 64 in
    let result :=
      if 2 <=? ver then
        let numAlign := ver / 7 + 2 in
        let result := result - ((25 * numAlign - 10) * numAlign - 55) in
        if 7 <=? ver then result - 36 else result
      else result in
    _ ← assert_that ((208 <=? result) && (result <=? 29648));
    mret result.

Definition getNumDataCodewords (ver : Z) (ecl : Ecc) : exc Z :=
  raw ← getNumRawDataModules ver;
  mret (raw / 8 - entry ECC_CODEWORDS_PER_BLOCK ecl ver * entry NUM_ERROR_CORRECTION_BLOCKS ecl ver).

(** ** The object *)

(** [mask] is not initialised before the mask is chosen; it holds -1 until then. *)
Record QrCode := mkQr {
  version : Z;
  size : Z;
  errorCorrectionLevel : Ecc;
  mask : Z;
  modules : list (list bool);
  isFunction : list (list bool)
}.

Definition with_modules (q : QrCode) (g : list (list bool)) : QrCode :=
  mkQr (version q) (size q) (errorCorrectionLevel q) (mask q) g (isFunction q).

(** [grid.at(y).at(x)] and its assignment. *)
Definition at2 (g : list (list bool)) (x y : Z) : exc bool := row ← at_ g y; at_ row x.

Definition set_at2 (g : list (list bool)) (x y : Z) (b : bool) : exc (list (list bool)) :=
  row ← at_ g y;
  row ← set_at row x b;
  set_at g y row.

Definition setFunctionModule (q : QrCode) (x y : Z) (isDark : bool) : exc QrCode :=
  m ← set_at2 (modules q) x y isDark;
  f ← set_at2 (isFunction q) x y true;
  mret (mkQr (version q) (size q) (errorCorrectionLevel q) (mask q) m f).

Definition module (q : QrCode) (x y : Z) : exc bool := at2 (modules q) x y.

(** [false] outside the symbol. *)
Definition getModule (q : QrCode) (x y : Z) : exc bool :=
  if (0 <=? x) && (x <? size q) && (0 <=? y) && (y <? size q) then module q x y else mret false.

Definition getBit (x i : Z) : bool := negb (Z.land (Z.shiftr x i) 1 =? 0).

(** ** Function patterns *)

Definition drawFinderPattern (q : QrCode) (x y : Z) : exc QrCode :=
  loop (range (-4) 5) (λ q dy,
    loop (range (-4) 5) (λ q dx,
      let dist := Z.max (Z.abs dx) (Z.abs dy) in
      let xx := x + dx in
      let yy := y + dy in
      if (0 <=? xx) && (xx <? size q) && (0 <=? yy) && (yy <? size q)
      then setFunctionModule q xx yy (negb (dist =? 2) && negb (dist =? 4))
      else mret q) q) q.

Definition drawAlignmentPattern (q : QrCode) (x y : Z) : exc QrCode :=
  loop (range (-2) 3) (λ q dy,
    loop (range (-2) 3) (λ q dx,
      setFunctionModule q (x + dx) (y + dy) (negb (Z.max (Z.abs dx) (Z.abs dy) =? 1))) q) q.

(** The positions are inserted at the front. *)
Definition getAlignmentPatternPositions (q : QrCode) : list Z :=
  if version q =? 1 then []
  else
    let numAlign := version q / 7 + 2 in
    let step := if version q =? 32 then 26
                else (version q * 4 + numAlign * 2 + 1) / (numAlign * 2 - 2) * 2 in
    let '(result, _) :=
      foldl (λ '(result, pos) _, (pos :: result, pos - step)) ([], size q - 7) (range 0 (numAlign - 1)) in
    6 :: result.

(** The remainder of the format bits, and of the version, in their BCH codes. *)
Definition formatBits (ecl : Ecc) (msk : Z) : Z :=
  let data := Z.lor (Z.shiftl (getFormatBits ecl) 3) msk in
  let rem := foldl (λ rem _, Z.lxor (Z.shiftl rem 1) (Z.shiftr rem 9 * 0x537)) data (range 0 10) in
  Z.lxor (Z.lor (Z.shiftl data 10) rem) 0x5412.

Definition drawFormatBits (q : QrCode) (msk : Z) : exc QrCode :=
  let bits := formatBits (errorCorrectionLevel q) msk in
  _ ← assert_that (Z.shiftr bits 15 =? 0);
  q ← loop (range 0 6) (λ q i, setFunctionModule q 8 i (getBit bits i)) q;
  q ← setFunctionModule q 8 7 (getBit bits 6);
  q ← setFunctionModule q 8 8 (getBit bits 7);
  q ← setFunctionModule q 7 8 (getBit bits 8);
  q ← loop (range 9 15) (λ q i, setFunctionModule q (14 - i) 8 (getBit bits i)) q;
  q ← loop (range 0 8) (λ q i, setFunctionModule q (size q - 1 - i) 8 (getBit bits i)) q;
  q ← loop (range 8 15) (λ q i, setFunctionModule q 8 (size q - 15 + i) (getBit bits i)) q;
  setFunctionModule q 8 (size q - 8) true.

Definition versionBits (version : Z) : Z :=
  let rem := foldl (λ rem _, Z.lxor (Z.shiftl rem 1) (Z.shiftr rem 11 * 0x1F25)) version (range 0 12) in
  Z.lor (Z.shiftl version 12) rem.

Definition drawVersion (q : QrCode) : exc QrCode :=
  if version q <? 7 then mret q
  else
    let bits := versionBits (version q) in
    _ ← assert_that (Z.shiftr bits 18 =? 0);
    loop (range 0 18) (λ q i,
      let bit := getBit bits i in
      let a := size q - 11 + i mod 3 in
      let b := i / 3 in
      q ← setFunctionModule q a b bit;
      setFunctionModule q b a bit) q.

Definition drawFunctionPatterns (q : QrCode) : exc QrCode :=
  q ← loop (range 0 (size q)) (λ q i,
    q ← setFunctionModule q 6 i (i mod 2 =? 0);
    setFunctionModule q i 6 (i mod 2 =? 0)) q;
  q ← drawFinderPattern q 3 3;
  q ← drawFinderPattern q (size q - 4) 3;
  q ← drawFinderPattern q 3 (size q - 4);
  let alignPatPos := getAlignmentPatternPositions q in
  let numAlign := size_of alignPatPos in
  q ← loop (range 0 numAlign) (λ q i,
    loop (range 0 numAlign) (λ q j,
      if negb (((i =? 0) && (j =? 0)) || ((i =? 0) && (j =? numAlign - 1)) || ((i =? numAlign - 1) && (j =? 0)))
      then x ← at_ alignPatPos i;
           y ← at_ alignPatPos j;
           drawAlignmentPattern q x y
      else mret q) q) q;
  q ← drawFormatBits q 0;
  drawVersion q.

(** ** Codewords *)

(** Splits the data into blocks and appends the remainder to each; the state is the
    blocks so far and the position in the data. *)
Definition makeBlock (data rsDiv : list Z) (shortBlockLen blockEccLen numShortBlocks : Z)
    (st : list (list Z) * Z) (i : Z) : list (list Z) * Z :=
  let '(blocks, k) := st in
  let len := shortBlockLen - blockEccLen + (if i <? numShortBlocks then 0 else 1) in
  let dat := take (Z.to_nat len) (drop (Z.to_nat k) data) in
  let k := k + size_of dat in
  let ecc := reedSolomonComputeRemainder dat rsDiv in
  let dat := if i <? numShortBlocks then dat ++ [0] else dat in
  (blocks ++ [dat ++ ecc], k).

Definition interleave (blocks : list (list Z)) (padIndex numShortBlocks : Z) : exc (list Z) :=
  first ← at_ blocks 0;
  loop (range 0 (size_of first)) (λ result i,
    loop (range 0 (size_of blocks)) (λ result j,
      if negb (i =? padIndex) || (numShortBlocks <=? j)
      then block ← at_ blocks j;
           b ← at_ block i;
           mret (result ++ [b])
      else mret result) result) [].

Definition addEccAndInterleave (q : QrCode) (data : list Z) : exc (list Z) :=
  n ← getNumDataCodewords (version q) (errorCorrectionLevel q);
  if negb (size_of data =? n) then raise (invalid_argument "Invalid argument")
  else
    let numBlocks := entry NUM_ERROR_CORRECTION_BLOCKS (errorCorrectionLevel q) (version q) in
    let blockEccLen := entry ECC_CODEWORDS_PER_BLOCK (errorCorrectionLevel q) (version q) in
    raw ← getNumRawDataModules (version q);
    let rawCodewords := raw / 8 in
    let numShortBlocks := numBlocks - rawCodewords mod numBlocks in
    let shortBlockLen := rawCodewords / numBlocks in
    rsDiv ← reedSolomonComputeDivisor blockEccLen;
    let '(blocks, _) :=
      foldl (makeBlock data rsDiv shortBlockLen blockEccLen numShortBlocks) ([], 0) (range 0 numBlocks) in
    result ← interleave blocks (shortBlockLen - blockEccLen) numShortBlocks;
    _ ← assert_that (size_of result =? rawCodewords);
    mret result.

(** The values of [right] in the zigzag scan; the column of the timing pattern is
    skipped by changing the loop variable. *)
Fixpoint rightColumns (fuel : nat) (right : Z) : exc (list Z) :=
  match fuel with
  | O => OutOfFuel
  | S fuel =>
      if right <? 1 then mret []
      else
        let right := if right =? 6 then 5 else right in
        rest ← rightColumns fuel (right - 2);
        mret (right :: rest)
  end.

(** One module of the scan; the state is the grid and the bit index. *)
Definition drawBit (q : QrCode) (data : list Z) (right vert : Z) (st : list (list bool) * Z) (j : Z)
    : exc (list (list bool) * Z) :=
  let '(g, i) := st in
  let x := right - j in
  let upward := Z.land (right + 1) 2 =? 0 in
  let y := if upward then size q - 1 - vert else vert in
  f ← at2 (isFunction q) x y;
  if negb f && (i <? size_of data * 8) then
    b ← at_ data (Z.shiftr i 3);
    g ← set_at2 g x y (getBit b (7 - Z.land i 7));
    mret (g, i + 1)
  else mret (g, i).

Definition drawCodewords (q : QrCode) (data : list Z) : exc QrCode :=
  raw ← getNumRawDataModules (version q);
  if negb (size_of data =? raw / 8) then raise (invalid_argument "Invalid argument")
  else
    rights ← rightColumns (Z.to_nat (size q)) (size q - 1);
    '(g, i) ← loop rights (λ st right,
      loop (range 0 (size q)) (λ st vert,
        loop (range 0 2) (drawBit q data right vert) st) st) (modules q, 0);
    _ ← assert_that (i =? size_of data * 8);
    mret (with_modules q g).

(** ** Masks *)

(** The masks are numbered from 0 to 7. *)
Definition invert (msk x y : Z) : exc bool :=
  match msk with
  | 0 => mret ((x + y) mod 2 =? 0)
  | 1 => mret (y mod 2 =? 0)
  | 2 => mret (x mod 3 =? 0)
  | 3 => mret ((x + y) mod 3 =? 0)
  | 4 => mret ((x / 3 + y / 2) mod 2 =? 0)
  | 5 => mret (x * y mod 2 + x * y mod 3 =? 0)
  | 6 => mret ((x * y mod 2 + x * y mod 3) mod 2 =? 0)
  | 7 => mret (((x + y) mod 2 + x * y mod 3) mod 2 =? 0)
  | _ => raise (domain_error "Unreachable")
  end.

Definition maskModule (q : QrCode) (msk y : Z) (g : list (list bool)) (x : Z) : exc (list (list bool)) :=
  inv ← invert msk x y;
  m ← at2 g x y;
  f ← at2 (isFunction q) x y;
  set_at2 g x y (xorb m (inv && negb f)).

Definition applyMask (q : QrCode) (msk : Z) : exc QrCode :=
  if (msk <? 0) || (7 <? msk) then raise (domain_error "Mask value out of range")
  else
    g ← loop (range 0 (size q)) (λ g y, loop (range 0 (size q)) (maskModule q msk y) g) (modules q);
    mret (with_modules q g).

(** ** The penalty of a mask *)

Definition finderPenaltyCountPatterns (q : QrCode) (runHistory : list Z) : exc Z :=
  n ← at_ runHistory 1;
  _ ← assert_that (n <=? size q * 3);
  h0 ← at_ runHistory 0;
  h2 ← at_ runHistory 2;
  h3 ← at_ runHistory 3;
  h4 ← at_ runHistory 4;
  h5 ← at_ runHistory 5;
  h6 ← at_ runHistory 6;
  let core := (0 <? n) && (h2 =? n) && (h3 =? n * 3) && (h4 =? n) && (h5 =? n) in
  mret ((if core && (n * 4 <=? h0) && (n <=? h6) then 1 else 0)
        + (if core && (n * 4 <=? h6) && (n <=? h0) then 1 else 0)).

(** The entries move one place back, the last one falls out. *)
Definition finderPenaltyAddHistory (q : QrCode) (currentRunLength : Z) (runHistory : list Z) : exc (list Z) :=
  h0 ← at_ runHistory 0;
  let currentRunLength := if h0 =? 0 then currentRunLength + size q else currentRunLength in
  let shifted := take 1 runHistory ++ take (length runHistory - 1) runHistory in
  set_at shifted 0 currentRunLength.

Definition finderPenaltyTerminateAndCount (q : QrCode) (currentRunColor : bool) (currentRunLength : Z)
    (runHistory : list Z) : exc Z :=
  '(currentRunLength, runHistory) ←
    (if currentRunColor then
       h ← finderPenaltyAddHistory q currentRunLength runHistory;
       mret (0, h)
     else mret (currentRunLength, runHistory));
  let currentRunLength := currentRunLength + size q in
  runHistory ← finderPenaltyAddHistory q currentRunLength runHistory;
  finderPenaltyCountPatterns q runHistory.

(** The local variables of the scan of a row or a column. *)
Record scan := mkScan { sc_result : Z; runColor : bool; runLen : Z; runHistory : list Z }.

Definition scanStep (q : QrCode) (get : Z → exc bool) (st : scan) (i : Z) : exc scan :=
  c ← get i;
  if eqb c (runColor st) then
    let runLen := runLen st + 1 in
    let result :=
      if runLen =? 5 then sc_result st + PENALTY_N1
      else if 5 <? runLen then sc_result st + 1
      else sc_result st in
    mret (mkScan result (runColor st) runLen (runHistory st))
  else
    h ← finderPenaltyAddHistory q (runLen st) (runHistory st);
    result ← (if negb (runColor st)
              then n ← finderPenaltyCountPatterns q h; mret (sc_result st + n * PENALTY_N3)
              else mret (sc_result st));
    mret (mkScan result c 1 h).

Definition scanLine (q : QrCode) (get : Z → exc bool) (result : Z) : exc Z :=
  st ← loop (range 0 (size q)) (scanStep q get) (mkScan result false 0 (replicate 7 0));
  n ← finderPenaltyTerminateAndCount q (runColor st) (runLen st) (runHistory st);
  mret (sc_result st + n * PENALTY_N3).

Definition blockPenalty (q : QrCode) (y : Z) (result x : Z) : exc Z :=
  color ← module q x y;
  c1 ← module q (x + 1) y;
  c2 ← module q x (y + 1);
  c3 ← module q (x + 1) (y + 1);
  mret (if eqb color c1 && eqb color c2 && eqb color c3 then result + PENALTY_N2 else result).

Definition countDark (g : list (list bool)) : Z :=
  foldl (λ dark row, foldl (λ dark (color : bool), if color then dark + 1 else dark) dark row) 0 g.

Definition getPenaltyScore (q : QrCode) : exc Z :=
  result ← loop (range 0 (size q)) (λ result y, scanLine q (λ x, module q x y) result) 0;
  result ← loop (range 0 (size q)) (λ result x, scanLine q (λ y, module q x y) result) result;
  result ← loop (range 0 (size q - 1)) (λ result y, loop (range 0 (size q - 1)) (blockPenalty q y) result) result;
  let dark := countDark (modules q) in
  let total := size q * size q in
  let k := (Z.abs (dark * 20 - total * 10) + total - 1) / total - 1 in
  _ ← assert_that ((0 <=? k) && (k <=? 9));
  let result := result + k * PENALTY_N4 in
  _ ← assert_that ((0 <=? result) && (result <=? 2568888));
  mret result.

(** ** The constructor *)

Definition LONG_MAX : Z := 2 ^ 63 - 1.

(** One round of the choice of a mask; the state is the object, the best mask so far
    and its penalty. *)
Definition tryMask (st : QrCode * Z * Z) (i : Z) : exc (QrCode * Z * Z) :=
  let '(q, msk, minPenalty) := st in
  q ← applyMask q i;
  q ← drawFormatBits q i;
  penalty ← getPenaltyScore q;
  let '(msk, minPenalty) := if penalty <? minPenalty then (i, penalty) else (msk, minPenalty) in
  q ← applyMask q i;
  mret (q, msk, minPenalty).

Definition newQrCode (ver : Z) (ecl : Ecc) (dataCodewords : list Z) (msk : Z) : exc QrCode :=
  if (ver <? MIN_VERSION) || (MAX_VERSION <? ver) then raise (domain_error "Version value out of range")
  else if (msk <? -1) || (7 <? msk) then raise (domain_error "Mask value out of range")
  else
    let size := ver * 4 + 17 in
    let light := replicate (Z.to_nat size) (replicate (Z.to_nat size) false) in
    let q := mkQr ver size ecl (-1) light light in
    q ← drawFunctionPatterns q;
    allCodewords ← addEccAndInterleave q dataCodewords;
    q ← drawCodewords q allCodewords;
    '(q, msk, _) ← (if msk =? -1 then loop (range 0 8) tryMask (q, msk, LONG_MAX) else mret (q, msk, LONG_MAX));
    _ ← assert_that ((0 <=? msk) && (msk <=? 7));
    let q := mkQr (version q) size (errorCorrectionLevel q) msk (modules q) (isFunction q) in
    q ← applyMask q msk;
    q ← drawFormatBits q msk;
    mret (mkQr (version q) size (errorCorrectionLevel q) (mask q) (modules q) []).

(** ** Encoding *)

(** The search for the smallest version; [n] is the number of versions left. *)
Fixpoint findVersion (n : nat) (segs : list QrSegment) (ecl : Ecc) (version : Z) : exc (Z * Z) :=
  codewords ← getNumDataCodewords version ecl;
  let dataCapacityBits := codewords * 8 in
  let dataUsedBits := getTotalBits segs version in
  if negb (dataUsedBits =? -1) && (dataUsedBits <=? dataCapacityBits) then mret (version, dataUsedBits)
  else
    match n with
    | O =>
        raise (data_too_long (if dataUsedBits =? -1 then "Segment too long"
          else "Data length = " +:+ pretty dataUsedBits +:+ " bits, " +:+
               "Max capacity = " +:+ pretty dataCapacityBits +:+ " bits"))
    | S n => findVersion n segs ecl (version + 1)
    end.

Definition boost (version dataUsedBits : Z) (boostEcl : bool) (ecl newEcl : Ecc) : exc Ecc :=
  if boostEcl then
    n ← getNumDataCodewords version newEcl;
    mret (if dataUsedBits <=? n * 8 then newEcl else ecl)
  else mret ecl.

Definition appendSegment (version : Z) (bb : list bool) (seg : QrSegment) : exc (list bool) :=
  bb ← appendBits (uint32 (modeBits (QrSegment.mode seg))) 4 bb;
  bb ← appendBits (uint32 (numChars seg)) (numCharCountBits (QrSegment.mode seg) version) bb;
  mret (bb ++ QrSegment.data seg).

(** The padding with alternating bytes. *)
Fixpoint padBytes (fuel : nat) (padByte dataCapacityBits : Z) (bb : list bool) : exc (list bool) :=
  match fuel with
  | O => OutOfFuel
  | S fuel =>
      if size_of bb <? dataCapacityBits then
        bb ← appendBits padByte 8 bb;
        padBytes fuel (Z.lxor padByte (Z.lxor 0xEC 0x11)) dataCapacityBits bb
      else mret bb
  end.

(** Packs the bits into bytes. *)
Definition packBit (bb : list bool) (dataCodewords : list Z) (i : Z) : exc (list Z) :=
  b ← at_ bb i;
  w ← at_ dataCodewords (Z.shiftr i 3);
  set_at dataCodewords (Z.shiftr i 3) (Z.lor w (Z.shiftl (if b : bool then 1 else 0) (7 - Z.land i 7))).

Definition encodeSegments (segs : list QrSegment) (ecl : Ecc) (minVersion maxVersion mask : Z) (boostEcl : bool)
    : exc QrCode :=
  if negb ((MIN_VERSION <=? minVersion) && (minVersion <=? maxVersion) && (maxVersion <=? MAX_VERSION))
     || (mask <? -1) || (7 <? mask)
  then raise (invalid_argument "Invalid value")
  else
    '(version, dataUsedBits) ← findVersion (Z.to_nat (maxVersion - minVersion)) segs ecl minVersion;
    _ ← assert_that (negb (dataUsedBits =? -1));
    ecl ← loop [MEDIUM; QUARTILE; HIGH] (boost version dataUsedBits boostEcl) ecl;
    bb ← loop segs (appendSegment version) [];
    _ ← assert_that (size_of bb =? dataUsedBits);
    codewords ← getNumDataCodewords version ecl;
    let dataCapacityBits := codewords * 8 in
    _ ← assert_that (size_of bb <=? dataCapacityBits);
    bb ← appendBits 0 (Z.min 4 (dataCapacityBits - size_of bb)) bb;
    bb ← appendBits 0 ((8 - size_of bb mod 8) mod 8) bb;
    _ ← assert_that (size_of bb mod 8 =? 0);
    bb ← padBytes (S (Z.to_nat dataCapacityBits)) 0xEC dataCapacityBits bb;
    dataCodewords ← loop (range 0 (size_of bb)) (packBit bb) (replicate (Z.to_nat (size_of bb / 8)) 0);
    newQrCode version ecl dataCodewords mask.

(** The default arguments of [encodeSegments]. *)
Definition encodeDefault (segs : list QrSegment) (ecl : Ecc) : exc QrCode := encodeSegments segs ecl 1 40 (-1) true.

Definition encodeText (text : list Z) (ecl : Ecc) : exc QrCode :=
  segs ← makeSegments text;
  encodeDefault segs ecl.

Definition encodeBinary (data : list Z) (ecl : Ecc) : exc QrCode :=
  seg ← makeBytes data;
  encodeDefault [seg] ecl.
