(* ===== verification/QrMatrix.v ===== *)
(** * The symbol of a QR code

    What the drawing functions of [QrCode] do to the two grids.  A position is a pair
    of a column and a row.  The layout of the symbol is described independently of
    the code, after the standard: which modules are reserved, in which order the
    others are filled, and where the format is written. *)

From stdpp Require Import prelude strings list list_numbers.
From Stdlib Require Import ZArith Lia.
From S2P Require Import Prelude Cxx ReedSolomon QrSegment QrCode.

Local Open Scope Z_scope.

(** ** Grids *)

(** The module at a position, if it is in the grid. *)
Definition cell (g : list (list bool)) (p : Z * Z) : option bool :=
  if (p.1 <? 0) || (p.2 <? 0) then None else g !! Z.to_nat p.2 ≫= λ row, row !! Z.to_nat p.1.

Definition upd (g : list (list bool)) (p : Z * Z) (b : bool) : list (list bool) :=
  alter (λ row, <[Z.to_nat p.1 := b]> row) (Z.to_nat p.2) g.

Definition square (n : Z) (g : list (list bool)) : Prop := size_of g = n ∧ Forall (λ row, size_of row = n) g.

Definition inside (n : Z) (p : Z * Z) : Prop := 0 <= p.1 < n ∧ 0 <= p.2 < n.

#[global] Instance inside_dec n p : Decision (inside n p).
Proof. unfold inside. apply _. Defined.

Lemma square_row n g y : square n g → 0 <= y < n → ∃ row, g !! Z.to_nat y = Some row ∧ size_of row = n.
Proof.
  intros [Hn Hr] Hy. destruct (g !! Z.to_nat y) as [row|] eqn:Hrow.
  - exists row. split; [done|]. exact (Forall_lookup_1 _ _ _ _ Hr Hrow).
  - apply lookup_ge_None in Hrow. unfold size_of in Hn. lia.
Qed.

Lemma cell_inside n g p : square n g → inside n p → ∃ b, cell g p = Some b.
Proof.
  intros Hg [Hx Hy]. destruct (square_row n g p.2 Hg Hy) as (row & Hrow & Hlen). unfold cell.
  case_match; [lia|]. rewrite Hrow. cbn. apply lookup_lt_is_Some. unfold size_of in Hlen. lia.
Qed.

Lemma cell_outside n g p : square n g → ¬ inside n p → cell g p = None.
Proof.
  intros [Hn Hr] Hp. unfold cell. case_match; [done|]. destruct (g !! Z.to_nat p.2) as [row|] eqn:Hrow; [|done].
  cbn. apply lookup_ge_None. pose proof (Forall_lookup_1 _ _ _ _ Hr Hrow). apply lookup_lt_Some in Hrow.
  unfold inside, size_of in *. lia.
Qed.

Lemma at2_ok g x y b : cell g (x, y) = Some b → at2 g x y = Ok b.
Proof.
  unfold cell, at2. cbn [fst snd]. case_match; [done|]. destruct (g !! Z.to_nat y) as [row|] eqn:Hrow; [|done].
  cbn [mbind option_bind]. intros Hx.
  rewrite (proj2 (at_ok g y row)), bind_Ok by (split; [lia|done]). apply at_ok. split; [lia|done].
Qed.

Lemma set_at2_ok n g x y b : square n g → inside n (x, y) → set_at2 g x y b = Ok (upd g (x, y) b).
Proof.
  intros Hg [Hx Hy]. cbn in Hx, Hy. destruct (square_row n g y Hg Hy) as (row & Hrow & Hlen). unfold set_at2, upd.
  rewrite (proj2 (at_ok g y row)), bind_Ok by (split; [lia|done]).
  rewrite set_at_ok, bind_Ok by lia. rewrite set_at_ok by (destruct Hg; lia). cbn [fst snd]. f_equal.
  apply list_eq. intros i. destruct (decide (i = Z.to_nat y)) as [->|Hi].
  - rewrite list_lookup_insert_eq, list_lookup_alter_eq, Hrow; [done|]. by eapply lookup_lt_Some.
  - by rewrite list_lookup_insert_ne, list_lookup_alter_ne by done.
Qed.

Lemma square_upd n g p b : square n g → square n (upd g p b).
Proof.
  intros [Hn Hr]. unfold square, upd, size_of in *. rewrite length_alter. split; [done|].
  apply Forall_alter; [done|]. intros row _ Hrow. by rewrite length_insert.
Qed.

Lemma cell_upd n g p b p' : square n g → inside n p →
  cell (upd g p b) p' = if decide (p' = p) then Some b else cell g p'.
Proof.
  intros Hg Hp. destruct (square_row n g p.2 Hg (proj2 Hp)) as (row & Hrow & Hlen). destruct Hp as [Hx Hy].
  unfold cell, upd. destruct p as [x y], p' as [x' y']. cbn [fst snd] in *. case_decide as Heq.
  - injection Heq as -> ->. case_match; [lia|]. rewrite list_lookup_alter_eq, Hrow. cbn.
    apply list_lookup_insert_eq. unfold size_of in Hlen. lia.
  - case_match; [done|]. destruct (decide (y' = y)) as [->|Hy'].
    + rewrite list_lookup_alter_eq, Hrow. cbn. apply list_lookup_insert_ne. intros ?. apply Heq. f_equal. lia.
    + by rewrite list_lookup_alter_ne by lia.
Qed.

(** Grids of the same size with the same modules are equal. *)
Lemma grid_ext n g g' : square n g → square n g' → (∀ p, inside n p → cell g p = cell g' p) → g = g'.
Proof.
  intros Hg Hg' Heq. apply list_eq. intros i. destruct (decide (Z.of_nat i < n)) as [Hi|Hi].
  - destruct (square_row n g (Z.of_nat i) Hg ltac:(lia)) as (row & Hrow & Hlen).
    destruct (square_row n g' (Z.of_nat i) Hg' ltac:(lia)) as (row' & Hrow' & Hlen').
    rewrite Nat2Z.id in *. rewrite Hrow, Hrow'. f_equal. apply list_eq. intros j.
    destruct (decide (Z.of_nat j < n)) as [Hj|Hj].
    + specialize (Heq (Z.of_nat j, Z.of_nat i) ltac:(split; cbn; lia)). unfold cell in Heq. cbn [fst snd] in Heq.
      rewrite !Nat2Z.id, Hrow, Hrow' in Heq. case_match; [lia|done].
    + rewrite !lookup_ge_None_2 by (unfold size_of in *; lia). done.
  - destruct Hg as [Hn _], Hg' as [Hn' _]. rewrite !lookup_ge_None_2 by (unfold size_of in *; lia). done.
Qed.

(** ** Objects under construction *)

Definition ready (q : QrCode) : Prop :=
  1 <= version q <= 40 ∧ size q = 4 * version q + 17 ∧ square (size q) (modules q) ∧ square (size q) (isFunction q).

(** The object with other grids. *)
Definition with_grids (q : QrCode) (g f : list (list bool)) : QrCode :=
  mkQr (version q) (size q) (errorCorrectionLevel q) (mask q) g f.

Lemma setFunctionModule_ok q p b : ready q → inside (size q) p →
  setFunctionModule q p.1 p.2 b = Ok (with_grids q (upd (modules q) p b) (upd (isFunction q) p true)).
Proof.
  intros (_ & _ & Hm & Hf) Hp. unfold setFunctionModule. destruct p as [x y]. cbn [fst snd].
  by rewrite (set_at2_ok _ _ _ _ _ Hm Hp), bind_Ok, (set_at2_ok _ _ _ _ _ Hf Hp), bind_Ok.
Qed.

Lemma ready_with_grids q g f : ready q → square (size q) g → square (size q) f → ready (with_grids q g f).
Proof. intros (Hv & Hs & _ & _) Hg Hf. repeat split; try apply Hv; try apply Hg; try apply Hf; done. Qed.

(** Setting a list of function modules, in order. *)
Definition setCells (cells : list (Z * Z * bool)) (q : QrCode) : exc QrCode :=
  loop cells (λ q c, setFunctionModule q c.1.1 c.1.2 c.2) q.

Definition updCells (cells : list (Z * Z * bool)) (g : list (list bool)) : list (list bool) := foldl (λ g c, upd g c.1 c.2) g cells.

Lemma setCells_cons p b cells q q' :
  setFunctionModule q p.1 p.2 b = Ok q' → setCells ((p, b) :: cells) q = setCells cells q'.
Proof. intros H. by apply loop_cons. Qed.

Lemma setCells_ok cells q : ready q → Forall (λ c, inside (size q) c.1) cells →
  setCells cells q =
  Ok (with_grids q (updCells cells (modules q)) (updCells (map (λ c, (c.1, true)) cells) (isFunction q))).
Proof.
  intros Hq Hc. revert q Hq Hc. induction cells as [|[p b] cells IH]; intros q Hq Hc.
  - by destruct q.
  - apply Forall_cons in Hc as [Hp Hc]. erewrite setCells_cons by by apply setFunctionModule_ok.
    rewrite IH; [done| |done].
    apply ready_with_grids; [done|..]; apply square_upd; apply Hq.
Qed.

Lemma square_updCells n cells g : square n g → square n (updCells cells g).
Proof. revert g. induction cells as [|c cells IH]; intros g Hg; [done|]. by apply IH, square_upd. Qed.

Lemma cell_updCells_other n cells g p : square n g → Forall (λ c, inside n c.1) cells → p ∉ map fst cells →
  cell (updCells cells g) p = cell g p.
Proof.
  intros Hg Hc Hp. revert g Hg. induction Hc as [|c cells Hin Hc IH]; intros g Hg; [done|].
  cbn in Hp. apply not_elem_of_cons in Hp as [Hne Hp]. cbn [updCells foldl]. fold (updCells cells (upd g c.1 c.2)).
  rewrite IH by (auto using square_upd). erewrite cell_upd by done. by rewrite decide_False.
Qed.

Lemma cell_updCells n cells g p b : square n g → Forall (λ c, inside n c.1) cells → NoDup (map fst cells) →
  (p, b) ∈ cells → cell (updCells cells g) p = Some b.
Proof.
  intros Hg Hc Hd. revert g Hg. induction Hc as [|[p' b'] cells Hin Hc IH]; intros g Hg Hp; [by apply elem_of_nil in Hp|].
  apply NoDup_cons in Hd as [Hnin Hd]. cbn [updCells foldl fst snd]. fold (updCells cells (upd g p' b')).
  apply elem_of_cons in Hp as [[= <- <-]|Hp].
  - rewrite (cell_updCells_other n) by auto using square_upd. erewrite cell_upd by done. by rewrite decide_True.
  - apply IH; auto using square_upd.
Qed.

(** *** The cells of a loop *)

(** Drawing changes only the grids. *)
Definition same (q q' : QrCode) : Prop :=
  version q' = version q ∧ size q' = size q ∧ errorCorrectionLevel q' = errorCorrectionLevel q.

Lemma same_trans q1 q2 q3 : same q1 q2 → same q2 q3 → same q1 q3.
Proof. intros (H1 & H2 & H3) (H4 & H5 & H6). repeat split; congruence. Qed.

Lemma setFunctionModule_same q x y b q' : setFunctionModule q x y b = Ok q' → same q q'.
Proof.
  unfold setFunctionModule. intros (m & _ & H)%bind_ok. apply bind_ok in H as (f & _ & H). by injection H as <-.
Qed.

Lemma setCells_same cells q q' : setCells cells q = Ok q' → same q q'.
Proof.
  revert q. induction cells as [|c cells IH]; intros q; [by intros [= <-]|].
  unfold setCells. cbn [loop]. intros (q1 & H1 & H2)%bind_ok. apply IH in H2. apply setFunctionModule_same in H1.
  by eapply same_trans.
Qed.

Lemma setCells_then l1 l2 q k : (∀ q', same q q' → k q' = setCells l2 q') →
  setCells l1 q ≫= k = setCells (l1 ++ l2) q.
Proof.
  intros Hk. unfold setCells at 2. rewrite loop_app. fold (setCells l1 q) (setCells l2).
  destruct (setCells l1 q) as [q'|e|] eqn:H1; [|done..]. cbn. apply Hk. by eapply setCells_same.
Qed.

(** A loop whose rounds set lists of modules. *)
Lemma loop_setCells {A} (l : list A) (body : QrCode → A → exc QrCode) (f : A → list (Z * Z * bool)) q :
  (∀ q' a, same q q' → a ∈ l → body q' a = setCells (f a) q') → loop l body q = setCells (l ≫= f) q.
Proof.
  revert q. induction l as [|a l IH]; intros q Hb; [done|].
  change ((a :: l) ≫= f) with (f a ++ (l ≫= f)). rewrite <- (setCells_then (f a) (l ≫= f) q (loop l body)).
  - cbn [loop]. rewrite Hb; [done|done|left].
  - intros q' Hs. apply IH. intros q'' b Hs' Hin. apply Hb; [by eapply same_trans|by right].
Qed.

(** A loop that sets one module per round, at places that depend on the size. *)
Lemma loop_cells (l : list Z) (pos : Z → Z → Z * Z) (b : Z → bool) q :
  loop l (λ q i, setFunctionModule q (pos (size q) i).1 (pos (size q) i).2 (b i)) q =
  setCells (map (λ i, (pos (size q) i, b i)) l) q.
Proof.
  revert q. induction l as [|i l IH]; intros q; [done|]. unfold setCells. cbn [loop map fst snd].
  destruct (setFunctionModule q _ _ (b i)) as [q'|e|] eqn:H1; [|done..]. cbn.
  rewrite IH. by destruct (setFunctionModule_same _ _ _ _ _ H1) as (_ & -> & _).
Qed.

Lemma setCells_single q p b : setCells [(p, b)] q = setFunctionModule q p.1 p.2 b.
Proof. unfold setCells. cbn. by destruct (setFunctionModule q p.1 p.2 b). Qed.

(** ** The format *)

(** The modules of the two copies of bit [i] of the format. *)
Definition format1 (i : Z) : Z * Z :=
  if i <? 6 then (8, i) else if i =? 6 then (8, 7) else if i =? 7 then (8, 8) else if i =? 8 then (7, 8) else (14 - i, 8).

Definition format2 (n i : Z) : Z * Z := if i <? 8 then (n - 1 - i, 8) else (8, n - 15 + i).

Definition formatCells (n : Z) (bits : Z) : list (Z * Z * bool) :=
  map (λ i, (format1 i, getBit bits i)) (range 0 15) ++
  map (λ i, (format2 n i, getBit bits i)) (range 0 15) ++ [((8, n - 8), true)].

Definition formatPlaces (n : Z) : list (Z * Z) :=
  map format1 (range 0 15) ++ map (format2 n) (range 0 15) ++ [(8, n - 8)].

Lemma formatPlaces_spec n bits : map fst (formatCells n bits) = formatPlaces n.
Proof. unfold formatCells, formatPlaces. by rewrite !map_app, !map_map. Qed.

(** The same cells in the order in which they are drawn. *)
Lemma formatCells_drawn n bits : formatCells n bits =
  map (λ i, ((8, i), getBit bits i)) (range 0 6) ++ [((8, 7), getBit bits 6)] ++ [((8, 8), getBit bits 7)] ++
  [((7, 8), getBit bits 8)] ++ map (λ i, ((14 - i, 8), getBit bits i)) (range 9 15) ++
  map (λ i, ((n - 1 - i, 8), getBit bits i)) (range 0 8) ++
  map (λ i, ((8, n - 15 + i), getBit bits i)) (range 8 15) ++ [((8, n - 8), true)].
Proof. reflexivity. Qed.

Lemma drawFormatBits_cells q msk :
  Z.shiftr (formatBits (errorCorrectionLevel q) msk) 15 = 0 →
  drawFormatBits q msk = setCells (formatCells (size q) (formatBits (errorCorrectionLevel q) msk)) q.
Proof.
  intros Hbits. unfold drawFormatBits. cbv zeta. rewrite Hbits. set (bits := formatBits _ _). cbn [Z.eqb assert_that].
  change (mret tt ≫= ?k) with (k tt). cbn beta. rewrite formatCells_drawn.
  rewrite (loop_cells _ (λ _ i, (8, i)) (getBit bits)). apply setCells_then. intros q1 (_ & H1 & _).
  rewrite <- (setCells_single q1 (8, 7)). apply setCells_then. intros q2 (_ & H2 & _).
  rewrite <- (setCells_single q2 (8, 8)). apply setCells_then. intros q3 (_ & H3 & _).
  rewrite <- (setCells_single q3 (7, 8)). apply setCells_then. intros q4 (_ & H4 & _).
  rewrite (loop_cells _ (λ _ i, (14 - i, 8)) (getBit bits)). apply setCells_then. intros q5 (_ & H5 & _).
  rewrite (loop_cells _ (λ n i, (n - 1 - i, 8)) (getBit bits)), H5, H4, H3, H2, H1. apply setCells_then. intros q6 (_ & H6 & _).
  rewrite (loop_cells _ (λ n i, (8, n - 15 + i)) (getBit bits)), H6, H5, H4, H3, H2, H1. apply setCells_then. intros q7 (_ & H7 & _).
  rewrite H7, H6, H5, H4, H3, H2, H1. symmetry. apply (setCells_single q7 (8, size q - 8)).
Qed.

(** The format word of each level and mask: the level and the mask in the upper five
    bits, xored with the mask of the standard. *)
Definition eccs : list Ecc := [LOW; MEDIUM; QUARTILE; HIGH].

Lemma elem_of_eccs ecl : In ecl eccs.
Proof. destruct ecl; cbn; auto. Qed.

Definition masks8 : list Z := range 0 8.

Lemma formats_spec (P : Ecc → Z → bool) ecl msk : 0 <= msk <= 7 →
  forallb (λ ecl, forallb (P ecl) masks8) eccs = true → P ecl msk = true.
Proof.
  intros Hm H. rewrite forallb_forall in H. specialize (H ecl (elem_of_eccs ecl)). rewrite forallb_forall in H.
  apply H. rewrite <- list_elem_of_In. apply elem_of_range. lia.
Qed.

Lemma formatBits_bounds ecl msk : 0 <= msk <= 7 → Z.shiftr (formatBits ecl msk) 15 = 0 ∧ 0 <= formatBits ecl msk.
Proof.
  intros Hm. pose proof (formats_spec (λ ecl msk, (Z.shiftr (formatBits ecl msk) 15 =? 0) && (0 <=? formatBits ecl msk))
    ecl msk Hm ltac:(vm_compute; reflexivity)) as H. cbn beta in H. lia.
Qed.

Definition sizes : list Z := map (λ v, 4 * v + 17) versions.

Lemma formatPlaces_layout v : 1 <= v <= 40 →
  NoDup (formatPlaces (4 * v + 17)) ∧ Forall (inside (4 * v + 17)) (formatPlaces (4 * v + 17)).
Proof.
  intros Hv. apply (versions_decide (λ v, NoDup (formatPlaces (4 * v + 17)) ∧
    Forall (inside (4 * v + 17)) (formatPlaces (4 * v + 17))) v Hv). vm_compute. reflexivity.
Qed.

(** What [drawFormatBits] does to an object whose format area is already reserved. *)
Definition formatted (q : QrCode) (msk : Z) : QrCode :=
  with_grids q (updCells (formatCells (size q) (formatBits (errorCorrectionLevel q) msk)) (modules q)) (isFunction q).

Lemma formatCells_in v bits : 1 <= v <= 40 →
  Forall (λ c, inside (4 * v + 17) c.1) (formatCells (4 * v + 17) bits).
Proof.
  intros Hv. destruct (formatPlaces_layout _ Hv) as [_ Hin]. rewrite <- (formatPlaces_spec _ bits) in Hin.
  exact (proj1 (Forall_map _ _ _) Hin).
Qed.

Lemma formatCells_inside q bits : ready q → Forall (λ c, inside (size q) c.1) (formatCells (size q) bits).
Proof. intros (Hv & -> & _). by apply formatCells_in. Qed.

Lemma drawFormatBits_ok q msk : ready q → 0 <= msk <= 7 →
  Forall (λ p, cell (isFunction q) p = Some true) (formatPlaces (size q)) →
  drawFormatBits q msk = Ok (formatted q msk).
Proof.
  intros Hq Hm Hf. rewrite drawFormatBits_cells by by apply formatBits_bounds. set (cells := formatCells _ _).
  pose proof (formatCells_inside q (formatBits (errorCorrectionLevel q) msk) Hq) as Hin. fold cells in Hin.
  rewrite setCells_ok by done. unfold formatted. fold cells. do 2 f_equal. destruct Hq as (Hv & Hs & Hsm & Hsf).
  assert (map fst (map (λ c : Z * Z * bool, (c.1, true)) cells) = formatPlaces (size q)) as Hfst
    by (rewrite map_map; apply formatPlaces_spec).
  assert (Forall (λ c, inside (size q) c.1) (map (λ c : Z * Z * bool, (c.1, true)) cells)) as Hin' by (by apply Forall_map).
  apply (grid_ext (size q)); [by apply square_updCells|done|]. intros p Hp.
  destruct (decide (p ∈ formatPlaces (size q))) as [Hpl|Hpl].
  - rewrite Forall_forall in Hf. rewrite (Hf p Hpl). rewrite <- (formatPlaces_spec _ (formatBits (errorCorrectionLevel q) msk)) in Hpl.
    apply list_elem_of_fmap in Hpl as ([p' b] & -> & Hpl).
    apply (cell_updCells (size q)); [done..| |]; [rewrite Hfst, Hs; by apply formatPlaces_layout|].
    apply list_elem_of_fmap. by exists (p', b).
  - apply (cell_updCells_other (size q)); [done..|]. by rewrite Hfst.
Qed.

Lemma ready_formatted q msk : ready q → ready (formatted q msk).
Proof. intros Hq. apply ready_with_grids; [done|apply square_updCells; apply Hq|apply Hq]. Qed.

(** ** Masks *)

(** The mask conditions of the standard. *)
Definition dataMask (m : Z) (p : Z * Z) : bool :=
  let '(j, i) := p in
  if m =? 0 then (i + j) mod 2 =? 0
  else if m =? 1 then i mod 2 =? 0
  else if m =? 2 then j mod 3 =? 0
  else if m =? 3 then (i + j) mod 3 =? 0
  else if m =? 4 then (i / 2 + j / 3) mod 2 =? 0
  else if m =? 5 then (i * j) mod 2 + (i * j) mod 3 =? 0
  else if m =? 6 then ((i * j) mod 2 + (i * j) mod 3) mod 2 =? 0
  else ((i * j) mod 3 + (i + j) mod 2) mod 2 =? 0.

Lemma invert_ok m x y : 0 <= m <= 7 → invert m x y = Ok (dataMask m (x, y)).
Proof.
  intros Hm. assert (m ∈ range 0 8) as Hin by (apply elem_of_range; lia). unfold dataMask.
  change (range 0 8) with [0; 1; 2; 3; 4; 5; 6; 7] in Hin.
  repeat (apply elem_of_cons in Hin as [->|Hin];
    [cbn; rewrite ?(Z.add_comm x y), ?(Z.mul_comm x y), ?(Z.add_comm (x / 3) (y / 2)),
       ?(Z.add_comm ((y + x) mod 2) ((y * x) mod 3)); done|]).
  by apply elem_of_nil in Hin.
Qed.

Definition row_cells (n y : Z) : list (Z * Z) := map (λ x, (x, y)) (range 0 n).
Definition all_cells (n : Z) : list (Z * Z) := range 0 n ≫= row_cells n.

Lemma elem_of_all_cells n p : p ∈ all_cells n ↔ inside n p.
Proof.
  unfold all_cells, row_cells, inside. rewrite list_elem_of_bind. destruct p as [x y]. cbn. split.
  - intros (y' & Hin & Hy). apply list_elem_of_fmap in Hin as (x' & [= -> ->] & Hx).
    apply elem_of_range in Hx, Hy. lia.
  - intros [Hx Hy]. exists y. split; [|by apply elem_of_range]. apply list_elem_of_fmap. exists x.
    split; [done|by apply elem_of_range].
Qed.

Lemma NoDup_all_cells n : NoDup (all_cells n).
Proof.
  unfold all_cells, row_cells. apply NoDup_bind.
  - intros y1 y2 p _ _ Hp1 Hp2. apply list_elem_of_fmap in Hp1 as (x1 & -> & _), Hp2 as (x2 & [= _ ->] & _). done.
  - intros y _. apply NoDup_fmap_2; [|apply NoDup_seqZ]. by intros ?? [= ->].
  - apply NoDup_seqZ.
Qed.

(** A loop that changes each module of a list once. *)
Lemma update_loop n (L : list (Z * Z)) (f : list (list bool) → Z * Z → exc (list (list bool))) (h : Z * Z → bool → bool) g :
  (∀ g p b, square n g → p ∈ L → cell g p = Some b → f g p = Ok (upd g p (h p b))) →
  Forall (inside n) L → NoDup L → square n g →
  ∃ g', loop L f g = Ok g' ∧ square n g' ∧ ∀ p, cell g' p = if decide (p ∈ L) then h p <$> cell g p else cell g p.
Proof.
  intros Hf Hin Hd Hg. revert g Hg. induction L as [|p L IH]; intros g Hg.
  - by exists g.
  - apply Forall_cons in Hin as [Hp Hin]. apply NoDup_cons in Hd as [Hnin Hd].
    destruct (cell_inside n g p Hg Hp) as [b Hb].
    destruct (IH ltac:(intros; apply Hf; [done|by right|done]) Hin Hd (upd g p (h p b)) (square_upd _ _ _ _ Hg))
      as (g' & Hl & Hg' & Hc).
    exists g'. split; [erewrite loop_cons; [done|apply Hf; [done|by left|done]]|]. split; [done|].
    intros p'. rewrite Hc. rewrite !(cell_upd n) by done. destruct (decide (p' = p)) as [->|Hne].
    + destruct (decide (p ∈ L)); [done|]. destruct (decide (p ∈ p :: L)) as [|Hp']; [by rewrite Hb|].
      destruct Hp'. by left.
    + destruct (decide (p' ∈ L)) as [HL|HL], (decide (p' ∈ p :: L)) as [HpL|HpL]; try done.
      * destruct HpL. by right.
      * by apply elem_of_cons in HpL as [?|?].
Qed.

Definition flip (f : option bool) (m : Z) (p : Z * Z) (b : bool) : bool := xorb b (dataMask m p && negb (default true f)).

(** [masked q m q']: the object with the mask [m] applied. *)
Definition masked (q : QrCode) (m : Z) (q' : QrCode) : Prop :=
  ∃ g, q' = with_modules q g ∧ square (size q) g ∧
    ∀ p, cell g p = flip (cell (isFunction q) p) m p <$> cell (modules q) p.

Lemma applyMask_ok q m : ready q → 0 <= m <= 7 → ∃ q', applyMask q m = Ok q' ∧ masked q m q'.
Proof.
  intros (Hv & Hs & Hm & Hf) Hmsk. unfold applyMask. case_match; [lia|].
  set (n := size q) in *. set (f := λ g p, maskModule q m p.2 g p.1).
  rewrite (loop_ext _ _ (λ g y, loop (row_cells n y) f g)) by (intros; unfold row_cells; by rewrite loop_map).
  rewrite loop_nested. fold (all_cells n).
  destruct (update_loop n (all_cells n) f (λ p b, flip (cell (isFunction q) p) m p b) (modules q)) as (g' & Hl & Hg' & Hc).
  - intros g [x y] b Hg Hp Hb. apply elem_of_all_cells in Hp. destruct (cell_inside n _ _ Hf Hp) as [fb Hfb].
    unfold f, maskModule. cbn [fst snd]. rewrite invert_ok, bind_Ok by done.
    rewrite (at2_ok _ _ _ _ Hb), bind_Ok, (at2_ok _ _ _ _ Hfb), bind_Ok.
    rewrite (set_at2_ok n) by done. unfold flip. by rewrite Hfb.
  - apply Forall_forall. intros p. apply elem_of_all_cells.
  - apply NoDup_all_cells.
  - done.
  - rewrite Hl, bind_Ok. eexists. split; [done|]. exists g'. split; [done|]. split; [done|].
    intros p. rewrite Hc. destruct (decide (p ∈ all_cells n)) as [Hp|Hp]; [done|].
    rewrite elem_of_all_cells in Hp. by rewrite (cell_outside n _ _ Hm Hp).
Qed.

Lemma ready_masked q m q' : ready q → masked q m q' → ready q'.
Proof. intros (Hv & Hs & Hm & Hf) (g & -> & Hg & _). by repeat split; try apply Hv; try apply Hg; try apply Hf. Qed.
