(* ===== verification/QrDraw.v ===== *)
(** * The zigzag scan of a QR code

    The order in which the modules for data are filled, and what drawing the codewords
    along it does to the symbol. *)

From stdpp Require Import prelude strings list list_numbers.
From Stdlib Require Import ZArith Lia.
From S2P Require Import Prelude Cxx ReedSolomon QrSegment QrCode QrMatrix.

Local Open Scope Z_scope.

(** ** The zigzag scan *)

(** The right columns of the column pairs, from right to left; column 6 is the
    timing pattern. *)
Definition columnPairs (n : Z) : list Z := map (λ k, n - 1 - 2 * k) (range 0 ((n - 7) / 2)) ++ [5; 3; 1].

(** A pair is scanned upwards or downwards. *)
Definition upward (right : Z) : bool := Z.land (right + 1) 2 =? 0.

Definition scanPair (n right vert : Z) : list (Z * Z) :=
  map (λ j, (right - j, if upward right then n - 1 - vert else vert)) (range 0 2).

Definition zigzag (n : Z) : list (Z * Z) := columnPairs n ≫= λ right, range 0 n ≫= scanPair n right.

(** The pairs are scanned in alternating directions, the first one upwards. *)
Lemma directions_alternate v : 1 <= v <= 40 →
  map upward (columnPairs (4 * v + 17)) = imap (λ k _, Nat.even k) (columnPairs (4 * v + 17)).
Proof.
  intros Hv. apply (versions_decide (λ v, map upward (columnPairs (4 * v + 17)) =
    imap (λ k _, Nat.even k) (columnPairs (4 * v + 17))) v Hv). vm_compute. reflexivity.
Qed.

(** The loop that computes the columns ends, with these columns. *)
Lemma rightColumns_ok v : 1 <= v <= 40 →
  rightColumns (Z.to_nat (4 * v + 17)) (4 * v + 17 - 1) = Ok (columnPairs (4 * v + 17)).
Proof.
  intros Hv. apply (versions_decide (λ v, rightColumns (Z.to_nat (4 * v + 17)) (4 * v + 17 - 1) =
    Ok (columnPairs (4 * v + 17))) v Hv). vm_compute. reflexivity.
Qed.

Lemma columnPairs_spec v : 1 <= v <= 40 →
  NoDup (columnPairs (4 * v + 17)) ∧ Forall (λ r, 1 <= r < 4 * v + 17) (columnPairs (4 * v + 17)) ∧
  Forall (λ r, Forall (λ r', r = r' ∨ Z.abs (r - r') > 1) (columnPairs (4 * v + 17))) (columnPairs (4 * v + 17)).
Proof.
  intros Hv. apply (versions_decide (λ v, NoDup (columnPairs (4 * v + 17)) ∧
    Forall (λ r, 1 <= r < 4 * v + 17) (columnPairs (4 * v + 17)) ∧
    Forall (λ r, Forall (λ r', r = r' ∨ Z.abs (r - r') > 1) (columnPairs (4 * v + 17))) (columnPairs (4 * v + 17))) v Hv).
  vm_compute. reflexivity.
Qed.

Lemma elem_of_scanPair n right vert p : p ∈ scanPair n right vert ↔
  (p.1 = right ∨ p.1 = right - 1) ∧ p.2 = if upward right then n - 1 - vert else vert.
Proof.
  unfold scanPair. change (range 0 2) with [0; 1]. cbn [map]. rewrite !elem_of_cons, elem_of_nil.
  destruct p as [x y]. cbn [fst snd]. rewrite Z.sub_0_r. split.
  - intros [[= -> ->]|[[= -> ->]|[]]]; auto.
  - intros [[->| ->] ->]; auto.
Qed.

Lemma elem_of_zigzag v p : 1 <= v <= 40 → p ∈ zigzag (4 * v + 17) → inside (4 * v + 17) p.
Proof.
  intros Hv Hp. destruct (columnPairs_spec v Hv) as (_ & Hb & _). rewrite Forall_forall in Hb.
  apply list_elem_of_bind in Hp as (r & Hp & Hr). apply list_elem_of_bind in Hp as (vert & Hp & Hvert).
  apply elem_of_scanPair in Hp as [Hx Hy]. apply elem_of_range in Hvert. specialize (Hb r Hr).
  split; [|rewrite Hy; case_match]; lia.
Qed.

(** The scan visits no module twice. *)
Lemma NoDup_zigzag v : 1 <= v <= 40 → NoDup (zigzag (4 * v + 17)).
Proof.
  intros Hv. destruct (columnPairs_spec v Hv) as (Hd & _ & Hapart). rewrite Forall_forall in Hapart.
  unfold zigzag. apply NoDup_bind; [| |done].
  - intros r1 r2 p Hr1 Hr2 Hp1 Hp2. specialize (Hapart r1 Hr1). rewrite Forall_forall in Hapart.
    destruct (Hapart r2 Hr2) as [|Hne]; [done|]. exfalso.
    apply list_elem_of_bind in Hp1 as (v1 & Hp1 & _), Hp2 as (v2 & Hp2 & _).
    apply elem_of_scanPair in Hp1 as [Hx1 _], Hp2 as [Hx2 _]. lia.
  - intros r Hr. apply NoDup_bind; [| |apply NoDup_seqZ].
    + intros v1 v2 p _ _ Hp1 Hp2. apply elem_of_scanPair in Hp1 as [_ Hy1], Hp2 as [_ Hy2].
      rewrite Hy1 in Hy2. case_match; lia.
    + intros vert _. unfold scanPair. apply NoDup_fmap_2; [|apply NoDup_seqZ]. intros j1 j2 [= ?]. lia.
Qed.

(** ** Codewords along the scan *)

(** One module of the scan, by its position. *)
Definition drawAt (q : QrCode) (data : list Z) (st : list (list bool) * Z) (p : Z * Z) : exc (list (list bool) * Z) :=
  let '(g, i) := st in
  f ← at2 (isFunction q) p.1 p.2;
  if negb f && (i <? size_of data * 8) then
    b ← at_ data (Z.shiftr i 3);
    g ← set_at2 g p.1 p.2 (getBit b (7 - Z.land i 7));
    mret (g, i + 1)
  else mret (g, i).

Lemma drawCodewords_scan q data st :
  loop (columnPairs (size q)) (λ st right,
    loop (range 0 (size q)) (λ st vert, loop (range 0 2) (drawBit q data right vert) st) st) st =
  loop (zigzag (size q)) (drawAt q data) st.
Proof.
  unfold zigzag. rewrite <- loop_nested. apply loop_ext. intros st1 right _. rewrite <- loop_nested.
  apply loop_ext. intros st2 vert _. unfold scanPair. rewrite loop_map. apply loop_ext. intros [g i] j _. done.
Qed.

(** The bits of the codewords, in the order in which they are drawn. *)
Lemma codeword_bit data i : Forall byte data → 0 <= i < size_of data * 8 →
  ∃ b, at_ data (Z.shiftr i 3) = Ok b ∧ packBytes data !! Z.to_nat i = Some (getBit b (7 - Z.land i 7)).
Proof.
  intros Hb Hi. unfold size_of in Hi. rewrite Z.shiftr_div_pow2 by lia. change 7 with (Z.ones 3) at 2.
  rewrite Z.land_ones by lia. change (2 ^ 3) with 8.
  pose proof (Z.div_mod i 8 ltac:(lia)) as Hdm. pose proof (Z.mod_pos_bound i 8 ltac:(lia)) as Hr.
  set (k := i / 8) in *. set (r := i mod 8) in *. assert (0 <= k) by lia.
  assert (∃ b, data !! Z.to_nat k = Some b) as [b Hk] by (apply lookup_lt_is_Some; lia).
  exists b. split; [by apply at_ok|].
  replace (Z.to_nat i) with (Z.to_nat k * 8 + Z.to_nat r)%nat by lia. clear Hi Hdm. clearbody k r.
  revert Hk. generalize (Z.to_nat k). clear k H. intros k. revert data Hb.
  induction k as [|k IH]; intros [|c data] Hb Hk; try done; apply Forall_cons in Hb as [Hc Hb].
  - injection Hk as ->. change (packBytes (b :: data)) with (bits_of b 8 ++ packBytes data).
    rewrite lookup_app_l by (rewrite length_bits_of; lia).
    assert (r ∈ range 0 8) as Hin by (apply elem_of_range; lia).
    change (range 0 8) with [0; 1; 2; 3; 4; 5; 6; 7] in Hin.
    repeat (apply elem_of_cons in Hin as [->|Hin]; [reflexivity|]). by apply elem_of_nil in Hin.
  - change (packBytes (c :: data)) with (bits_of c 8 ++ packBytes data).
    rewrite lookup_app_r by (rewrite length_bits_of; lia). rewrite length_bits_of.
    replace (S k * 8 + Z.to_nat r - Z.to_nat 8)%nat with (k * 8 + Z.to_nat r)%nat by lia. by apply IH.
Qed.

(** The modules of the scan that are not reserved. *)
Definition is_open (f : list (list bool)) (p : Z * Z) : bool := bool_decide (cell f p = Some false).

Definition open_cells (f : list (list bool)) (L : list (Z * Z)) : list (Z * Z) := List.filter (is_open f) L.

Lemma open_cells_sub f L p : p ∈ open_cells f L → p ∈ L.
Proof. unfold open_cells. rewrite !list_elem_of_In, filter_In. tauto. Qed.

Lemma map_cell_upd n g p b L : square n g → inside n p → p ∉ L → map (cell (upd g p b)) L = map (cell g) L.
Proof.
  intros Hg Hp Hnin. apply map_ext_in. intros p' Hp'. rewrite (cell_upd n) by done. rewrite <- list_elem_of_In in Hp'.
  case_decide; [by subst|done].
Qed.

(** What one step draws. *)
Lemma drawAt_ok q data g i p : ready q → square (size q) g → inside (size q) p → Forall byte data → 0 <= i →
  drawAt q data (g, i) p =
  if is_open (isFunction q) p && (i <? size_of data * 8)
  then Ok (upd g p (packBytes data !!! Z.to_nat i), i + 1) else Ok (g, i).
Proof.
  intros (Hv & Hs & Hm & Hf) Hg Hp Hb Hi. destruct (cell_inside _ _ _ Hf Hp) as [fb Hfb]. unfold drawAt, is_open.
  rewrite (at2_ok _ p.1 p.2 fb), bind_Ok by by destruct p.
  assert (bool_decide (cell (isFunction q) p = Some false) = negb fb) as -> by (rewrite Hfb; by destruct fb).
  destruct (negb fb && (i <? size_of data * 8)) eqn:Hc; [|done].
  destruct (codeword_bit data i Hb ltac:(lia)) as (b & Hat & Hbit). rewrite Hat, bind_Ok.
  rewrite (set_at2_ok (size q)), bind_Ok by by destruct p. rewrite (list_lookup_total_correct _ _ _ Hbit). by destruct p.
Qed.

Lemma drop_cons_lookup {A} `{Inhabited A} (l : list A) i : (i < length l)%nat → drop i l = l !!! i :: drop (S i) l.
Proof.
  intros Hi. destruct (lookup_lt_is_Some_2 l i Hi) as [a Ha]. rewrite (list_lookup_total_correct _ _ _ Ha).
  by apply drop_S.
Qed.

Lemma draw_loop q data L g i : ready q → square (size q) g → Forall (inside (size q)) L → NoDup L → Forall byte data →
  0 <= i <= size_of data * 8 →
  ∃ g', loop L (drawAt q data) (g, i) = Ok (g', Z.min (size_of data * 8) (i + size_of (open_cells (isFunction q) L))) ∧
    square (size q) g' ∧ (∀ p, p ∉ open_cells (isFunction q) L → cell g' p = cell g p) ∧
    map (cell g') (open_cells (isFunction q) L) =
      map Some (take (length (open_cells (isFunction q) L)) (drop (Z.to_nat i) (packBytes data))) ++
      map (cell g) (drop (Z.to_nat (size_of data * 8 - i)) (open_cells (isFunction q) L)).
Proof.
  intros Hq Hg Hin Hd Hb. revert g Hg i. induction L as [|p L IH]; intros g Hg i Hi.
  { exists g. change (size_of (open_cells (isFunction q) [])) with 0. rewrite Z.add_0_r, Z.min_r by lia.
    split; [done|]. split; [done|]. split; [done|]. cbn [open_cells List.filter]. by rewrite drop_nil. }
  apply Forall_cons in Hin as [Hp Hin]. apply NoDup_cons in Hd as [Hnin Hd]. specialize (IH Hin Hd).
  pose proof (drawAt_ok q data g i p Hq Hg Hp Hb ltac:(lia)) as Hdraw. pose proof (length_packBytes data) as Hlen.
  cbn [open_cells List.filter]. fold (open_cells (isFunction q) L). set (D := open_cells (isFunction q) L) in *.
  assert (p ∉ D) as HpD by (intros ?; by apply Hnin, (open_cells_sub (isFunction q))).
  destruct (is_open (isFunction q) p) eqn:Hopen; cbn [andb] in Hdraw.
  2: { destruct (IH g Hg i Hi) as (g' & Hl & Hrest). exists g'. split; [by erewrite loop_cons|done]. }
  destruct (Z.ltb_spec i (size_of data * 8)) as [Hlt|Hge].
  - destruct (IH (upd g p (packBytes data !!! Z.to_nat i)) (square_upd _ _ _ _ Hg) (i + 1) ltac:(lia))
      as (g' & Hl & Hg' & Hother & Hmap).
    exists g'. split; [erewrite loop_cons by done; rewrite Hl; do 2 f_equal; unfold size_of; cbn; lia|]. split; [done|]. split.
    + intros p' Hp'. apply not_elem_of_cons in Hp' as [Hne Hp']. rewrite Hother, (cell_upd (size q)) by done.
      by rewrite decide_False.
    + cbn [map length]. rewrite Hmap, Hother, (cell_upd (size q)), decide_True by done.
      rewrite (drop_cons_lookup _ (Z.to_nat i)) by (unfold size_of in *; lia). cbn [take map app].
      replace (Z.to_nat (size_of data * 8 - i)) with (S (Z.to_nat (size_of data * 8 - (i + 1)))) by lia. cbn [drop].
      replace (S (Z.to_nat i)) with (Z.to_nat (i + 1)) by lia. rewrite (map_cell_upd (size q)); [done..|].
      intros Hdr. apply HpD. rewrite <- (take_drop (Z.to_nat (size_of data * 8 - (i + 1))) D). apply elem_of_app. by right.
  - destruct (IH g Hg i Hi) as (g' & Hl & Hg' & Hother & Hmap). exists g'.
    assert (i = size_of data * 8) as -> by lia. rewrite Z.sub_diag in *. change (Z.to_nat 0) with 0%nat in *.
    rewrite drop_0 in Hmap |- *. rewrite drop_ge in Hmap |- * by (unfold size_of in *; lia). rewrite !take_nil in *.
    split; [erewrite loop_cons by done; rewrite Hl; do 2 f_equal; unfold size_of; cbn; lia|]. split; [done|]. split.
    + intros p' Hp'. apply not_elem_of_cons in Hp' as [Hne Hp']. by apply Hother.
    + cbn [map app] in Hmap |- *. by rewrite Hmap, Hother.
Qed.
