(* ===== verification/QrLayout.v ===== *)
(** * The function patterns of a QR code

    The finder, alignment and timing patterns, the format and the version, described
    after the standard by the color of each module, and the proof that the code draws
    exactly these. *)

From stdpp Require Import prelude strings list list_numbers.
From Stdlib Require Import ZArith Lia.
From S2P Require Import Prelude Cxx ReedSolomon QrSegment QrCode QrMatrix QrDraw.

Local Open Scope Z_scope.

(** ** The patterns of the standard *)

(** The centres of the alignment patterns, by version (Annex E of the standard). *)
Definition alignmentTable : list (list Z) := [
  []; []; [6; 18]; [6; 22]; [6; 26]; [6; 30]; [6; 34]; [6; 22; 38]; [6; 24; 42]; [6; 26; 46]; [6; 28; 50]; [6; 30; 54];
  [6; 32; 58]; [6; 34; 62]; [6; 26; 46; 66]; [6; 26; 48; 70]; [6; 26; 50; 74]; [6; 30; 54; 78]; [6; 30; 56; 82];
  [6; 30; 58; 86]; [6; 34; 62; 90]; [6; 28; 50; 72; 94]; [6; 26; 50; 74; 98]; [6; 30; 54; 78; 102]; [6; 28; 54; 80; 106];
  [6; 32; 58; 84; 110]; [6; 30; 58; 86; 114]; [6; 34; 62; 90; 118]; [6; 26; 50; 74; 98; 122]; [6; 30; 54; 78; 102; 126];
  [6; 26; 52; 78; 104; 130]; [6; 30; 56; 82; 108; 134]; [6; 34; 60; 86; 112; 138]; [6; 30; 58; 86; 114; 142];
  [6; 34; 62; 90; 118; 146]; [6; 30; 54; 78; 102; 126; 150]; [6; 24; 50; 76; 102; 128; 154]; [6; 28; 54; 80; 106; 132; 158];
  [6; 32; 58; 84; 110; 136; 162]; [6; 26; 54; 82; 110; 138; 166]; [6; 30; 58; 86; 114; 142; 170]].

Definition alignmentCentres (v : Z) : list Z := alignmentTable !!! Z.to_nat v.

(** The distance of a module from a centre. *)
Definition ring (p c : Z * Z) : Z := Z.max (Z.abs (p.1 - c.1)) (Z.abs (p.2 - c.2)).

Definition finderCentres (n : Z) : list (Z * Z) := [(3, 3); (n - 4, 3); (3, n - 4)].

(** A finder pattern with its light border. *)
Definition finderColor (n : Z) (p : Z * Z) : option bool :=
  match List.find (λ c, ring p c <=? 4) (finderCentres n) with
  | Some c => Some (negb (ring p c =? 2) && negb (ring p c =? 4))
  | None => None
  end.

(** The coordinate of an alignment pattern that covers a coordinate. *)
Definition axis (l : list Z) (x : Z) : option Z := List.find (λ c, Z.abs (x - c) <=? 2) l.

(** The centres in the corners of the finder patterns are left out. *)
Definition corner (n cx cy : Z) : bool :=
  ((cx =? 6) && (cy =? 6)) || ((cx =? 6) && (cy =? n - 7)) || ((cx =? n - 7) && (cy =? 6)).

Definition alignmentColor (v n : Z) (p : Z * Z) : option bool :=
  match axis (alignmentCentres v) p.1, axis (alignmentCentres v) p.2 with
  | Some cx, Some cy => if corner n cx cy then None else Some (negb (ring p (cx, cy) =? 1))
  | _, _ => None
  end.

Definition timingColor (p : Z * Z) : option bool :=
  if (p.1 =? 6) || (p.2 =? 6) then Some (Z.even (p.1 + p.2)) else None.

(** The bit of the format that a module shows; the dark module is 15. *)
Definition formatIndex (n : Z) (p : Z * Z) : option Z :=
  let '(x, y) := p in
  if (x =? 8) && (y <? 6) then Some y
  else if (x =? 8) && (y =? 7) then Some 6
  else if (x =? 8) && (y =? 8) then Some 7
  else if (x =? 7) && (y =? 8) then Some 8
  else if (x <? 6) && (y =? 8) then Some (14 - x)
  else if (n - 8 <=? x) && (y =? 8) then Some (n - 1 - x)
  else if (x =? 8) && (n - 7 <=? y) then Some (y - (n - 15))
  else if (x =? 8) && (y =? n - 8) then Some 15
  else None.

Definition formatColor (n bits : Z) (p : Z * Z) : option bool :=
  i ← formatIndex n p; Some ((i =? 15) || getBit bits i).

(** The version, from version 7 on, in two copies. *)
Definition versionIndex (v n : Z) (p : Z * Z) : option Z :=
  let '(x, y) := p in
  if v <? 7 then None
  else if (n - 11 <=? x) && (x <? n - 8) && (y <? 6) then Some (3 * y + (x - (n - 11)))
  else if (n - 11 <=? y) && (y <? n - 8) && (x <? 6) then Some (3 * x + (y - (n - 11)))
  else None.

Definition versionColor (v n : Z) (p : Z * Z) : option bool :=
  i ← versionIndex v n p; Some (getBit (versionBits v) i).

(** The first of two colors. *)
Definition over (a b : option bool) : option bool := match a with Some _ => a | None => b end.

(** The color of a function module; no color is a module for data. *)
Definition functionColor (v : Z) (ecl : Ecc) (msk : Z) (p : Z * Z) : option bool :=
  let n := 4 * v + 17 in
  over (versionColor v n p) (over (formatColor n (formatBits ecl msk) p)
    (over (alignmentColor v n p) (over (finderColor n p) (timingColor p)))).

(** ** What a list of cells draws *)

(** The last color a list of cells gives to a module. *)
Definition lastColor (cells : list (Z * Z * bool)) (p : Z * Z) : option bool :=
  foldl (λ acc c, if decide (c.1 = p) then Some c.2 else acc) None cells.

Lemma lastColor_snoc cells c p : lastColor (cells ++ [c]) p = if decide (c.1 = p) then Some c.2 else lastColor cells p.
Proof. unfold lastColor. by rewrite foldl_app. Qed.

Lemma lastColor_app l1 l2 p : lastColor (l1 ++ l2) p = over (lastColor l2 p) (lastColor l1 p).
Proof.
  induction l2 as [|c l2 IH] using rev_ind; [by rewrite app_nil_r|].
  rewrite app_assoc, !lastColor_snoc, IH. by case_decide.
Qed.

Lemma cell_lastColor n cells g p : square n g → Forall (λ c, inside n c.1) cells →
  cell (updCells cells g) p = over (lastColor cells p) (cell g p).
Proof.
  intros Hg. induction cells as [|c cells IH] using rev_ind; intros Hin; [done|].
  apply Forall_app in Hin as [Hin Hc]. apply Forall_cons in Hc as [Hc _]. unfold updCells. rewrite foldl_app.
  fold (updCells cells g). cbn [foldl]. rewrite (cell_upd n), IH, lastColor_snoc by auto using square_updCells.
  repeat case_decide; by subst.
Qed.

(** The colors of a list whose cells are colored by a function. *)
Lemma lastColor_fun (color : Z * Z → bool) cells p : Forall (λ c, c.2 = color c.1) cells →
  lastColor cells p = if decide (p ∈ map fst cells) then Some (color p) else None.
Proof.
  induction cells as [|c cells IH] using rev_ind; intros Hc; [done|].
  apply Forall_app in Hc as [Hcs Hc]. apply Forall_cons in Hc as [Hc _]. rewrite lastColor_snoc, IH by done.
  rewrite map_app. cbn [map]. destruct (decide (c.1 = p)) as [<-|Hne].
  - rewrite decide_True; [by rewrite Hc|]. apply elem_of_app. right. by left.
  - destruct (decide (p ∈ map fst cells)) as [Hp|Hp].
    + rewrite decide_True; [done|]. apply elem_of_app. by left.
    + rewrite decide_False; [done|]. rewrite elem_of_app. intros [?|[?|?%elem_of_nil]%elem_of_cons]; done.
Qed.

(** The same, for a known set of modules. *)
Lemma lastColor_spec (color : Z * Z → bool) (P : bool) cells p :
  Forall (λ c, c.2 = color c.1) cells → (p ∈ map fst cells ↔ P = true) →
  lastColor cells p = if P then Some (color p) else None.
Proof.
  intros Hc HP. rewrite (lastColor_fun color) by done. destruct P; [rewrite decide_True; tauto|].
  rewrite decide_False; [done|]. by intros ?%HP.
Qed.

Lemma elem_of_places {A} (l : list A) (f : A → list (Z * Z * bool)) p :
  p ∈ map fst (l ≫= f) ↔ ∃ a, a ∈ l ∧ p ∈ map fst (f a).
Proof.
  rewrite list_elem_of_fmap. split.
  - intros (c & -> & Hc). apply list_elem_of_bind in Hc as (a & Hc & Ha). exists a. split; [done|].
    apply list_elem_of_fmap. by exists c.
  - intros (a & Ha & Hp). apply list_elem_of_fmap in Hp as (c & -> & Hc). exists c. split; [done|].
    apply list_elem_of_bind. by exists a.
Qed.

Lemma elem_of_places_one (c : Z * Z * bool) p : p ∈ map fst [c] ↔ p = c.1.
Proof. cbn. apply list_elem_of_singleton. Qed.

Lemma Forall_bind' {A B} (P : B → Prop) (l : list A) (f : A → list B) :
  (∀ a, a ∈ l → Forall P (f a)) → Forall P (l ≫= f).
Proof.
  intros H. apply Forall_forall. intros b (a & Hb & Ha)%list_elem_of_bind.
  specialize (H a Ha). rewrite Forall_forall in H. by apply H.
Qed.

Lemma setCells_two q p1 b1 p2 b2 :
  setCells [(p1, b1); (p2, b2)] q = setFunctionModule q p1.1 p1.2 b1 ≫= λ q, setFunctionModule q p2.1 p2.2 b2.
Proof.
  unfold setCells. cbn. destruct (setFunctionModule q p1.1 p1.2 b1) as [q'|e|]; [|done..]. cbn.
  by destruct (setFunctionModule q' p2.1 p2.2 b2).
Qed.

(** *** Timing patterns *)

Definition timingCells (n : Z) : list (Z * Z * bool) :=
  range 0 n ≫= λ i, [((6, i), i mod 2 =? 0); ((i, 6), i mod 2 =? 0)].

Lemma timing_drawn q :
  loop (range 0 (size q)) (λ q i,
    q ← setFunctionModule q 6 i (i mod 2 =? 0);
    setFunctionModule q i 6 (i mod 2 =? 0)) q = setCells (timingCells (size q)) q.
Proof. apply loop_setCells. intros q' i _ _. by rewrite setCells_two. Qed.

Lemma timingCells_inside n : 7 <= n → Forall (λ c, inside n c.1) (timingCells n).
Proof.
  intros Hn. apply Forall_bind'. intros i Hi%elem_of_range.
  apply Forall_cons. split; [|apply Forall_cons; split; [|constructor]]; unfold inside; cbn; lia.
Qed.

Lemma timing_last n p : inside n p → lastColor (timingCells n) p = timingColor p.
Proof.
  intros Hp. apply (lastColor_spec (λ p, Z.even (p.1 + p.2)) ((p.1 =? 6) || (p.2 =? 6))).
  - apply Forall_bind'. intros i _. apply Forall_cons. split; [|apply Forall_cons; split; [|constructor]];
      cbn [fst snd]; rewrite Z.even_add, (Zeven_mod i); by destruct (i mod 2 =? 0).
  - unfold timingCells. rewrite elem_of_places. destruct p as [x y], Hp as [Hx Hy]. cbn [fst snd] in *. split.
    + intros (i & _ & Hi). cbn in Hi. rewrite !elem_of_cons, elem_of_nil in Hi. destruct Hi as [[= -> ->]|[[= -> ->]|[]]]; lia.
    + intros H. destruct (Z.eqb_spec x 6) as [->|Hx6].
      * exists y. split; [by apply elem_of_range|]. cbn. by left.
      * assert (y = 6) as -> by lia. exists x. split; [by apply elem_of_range|]. cbn. right. by left.
Qed.

(** *** Finder patterns *)

Definition finderCell (n x y dy dx : Z) : list (Z * Z * bool) :=
  let dist := Z.max (Z.abs dx) (Z.abs dy) in
  if (0 <=? x + dx) && (x + dx <? n) && (0 <=? y + dy) && (y + dy <? n)
  then [((x + dx, y + dy), negb (dist =? 2) && negb (dist =? 4))] else [].

Definition finderCells (n x y : Z) : list (Z * Z * bool) :=
  range (-4) 5 ≫= λ dy, range (-4) 5 ≫= finderCell n x y dy.

Lemma finder_drawn q x y : drawFinderPattern q x y = setCells (finderCells (size q) x y) q.
Proof.
  apply loop_setCells. intros q1 dy (_ & Hs1 & _) _. apply loop_setCells. intros q2 dx (_ & Hs2 & _) _.
  unfold finderCell. rewrite Hs2, Hs1. case_match; [|done]. by rewrite setCells_single.
Qed.

Lemma finderCells_inside n x y : Forall (λ c, inside n c.1) (finderCells n x y).
Proof.
  apply Forall_bind'. intros dy _. apply Forall_bind'. intros dx _. unfold finderCell.
  case_match; constructor; [|constructor]. unfold inside. cbn. lia.
Qed.

Lemma finder_last n x y p : inside n p →
  lastColor (finderCells n x y) p =
  if ring p (x, y) <=? 4 then Some (negb (ring p (x, y) =? 2) && negb (ring p (x, y) =? 4)) else None.
Proof.
  intros Hp. apply (lastColor_spec (λ p, negb (ring p (x, y) =? 2) && negb (ring p (x, y) =? 4))).
  - apply Forall_bind'. intros dy _. apply Forall_bind'. intros dx _. unfold finderCell, ring.
    case_match; constructor; [|constructor]. cbn [fst snd]. by rewrite !Z.add_simpl_l.
  - unfold finderCells. rewrite elem_of_places. destruct p as [px py], Hp as [Hx Hy]. unfold ring. cbn [fst snd] in *. split.
    + intros (dy & Hdy%elem_of_range & Hp). apply elem_of_places in Hp as (dx & Hdx%elem_of_range & Hp).
      unfold finderCell in Hp. case_match; [|by apply elem_of_nil in Hp].
      apply elem_of_places_one in Hp. cbn in Hp. injection Hp as -> ->. lia.
    + intros H. exists (py - y). split; [apply elem_of_range; lia|]. apply elem_of_places. exists (px - x).
      split; [apply elem_of_range; lia|]. unfold finderCell. case_match; [|lia].
      apply elem_of_places_one. cbn. f_equal; lia.
Qed.

Lemma finders_last n p : 21 <= n → inside n p →
  over (lastColor (finderCells n 3 (n - 4)) p) (over (lastColor (finderCells n (n - 4) 3) p) (lastColor (finderCells n 3 3) p))
  = finderColor n p.
Proof.
  intros Hn Hp. rewrite !finder_last by done. unfold finderColor, finderCentres. cbn [List.find].
  destruct (Z.leb_spec (ring p (3, 3)) 4), (Z.leb_spec (ring p (n - 4, 3)) 4), (Z.leb_spec (ring p (3, n - 4)) 4);
    try done; unfold ring in *; cbn [fst snd] in *; lia.
Qed.

(** *** Alignment patterns *)

Definition alignmentCells (x y : Z) : list (Z * Z * bool) :=
  range (-2) 3 ≫= λ dy, range (-2) 3 ≫= λ dx, [((x + dx, y + dy), negb (Z.max (Z.abs dx) (Z.abs dy) =? 1))].

Lemma alignment_drawn q x y : drawAlignmentPattern q x y = setCells (alignmentCells x y) q.
Proof.
  apply loop_setCells. intros q1 dy _ _. apply loop_setCells. intros q2 dx _ _. by rewrite setCells_single.
Qed.

Lemma alignmentCells_places x y p : p ∈ map fst (alignmentCells x y) ↔ ring p (x, y) <= 2.
Proof.
  unfold alignmentCells. rewrite elem_of_places. destruct p as [px py]. unfold ring. cbn [fst snd]. split.
  - intros (dy & Hdy%elem_of_range & Hp). apply elem_of_places in Hp as (dx & Hdx%elem_of_range & Hp).
    apply elem_of_places_one in Hp. cbn in Hp. injection Hp as -> ->. lia.
  - intros H. exists (py - y). split; [apply elem_of_range; lia|]. apply elem_of_places. exists (px - x).
    split; [apply elem_of_range; lia|]. apply elem_of_places_one. cbn. f_equal; lia.
Qed.

Lemma alignmentCells_color x y : Forall (λ c, c.2 = negb (ring c.1 (x, y) =? 1)) (alignmentCells x y).
Proof.
  apply Forall_bind'. intros dy _. apply Forall_bind'. intros dx _. apply Forall_cons. split; [|constructor].
  unfold ring. cbn [fst snd]. by rewrite !Z.add_simpl_l.
Qed.

(** Facts about the table: the positions the code computes are those of the standard,
    they are apart, and the first and the last are those of the finder patterns. *)
Definition centresOk (v : Z) : Prop :=
  let l := alignmentCentres v in
  let n := 4 * v + 17 in
  (∀ q, version q = v → size q = n → getAlignmentPatternPositions q = l) ∧
  Forall (λ c, 6 <= c <= n - 7) l ∧
  Forall (λ c, Forall (λ c', c = c' ∨ Z.abs (c - c') > 4) l) l ∧
  Forall (λ i, (l !!! Z.to_nat i =? 6) = (i =? 0) ∧ (l !!! Z.to_nat i =? n - 7) = (i =? size_of l - 1)) (range 0 (size_of l)).

Lemma centres_ok v : 1 <= v <= 40 → centresOk v.
Proof.
  intros Hv. unfold centresOk. cbv zeta. split.
  - intros q Hq Hn. pose proof (versions_decide (λ v, getAlignmentPatternPositions (mkQr v (4 * v + 17) LOW 0 [] []) =
      alignmentCentres v) v Hv eq_refl) as H. rewrite <- H. unfold getAlignmentPatternPositions. cbn [version size].
    by rewrite Hq, Hn.
  - apply (versions_decide (λ v, Forall (λ c, 6 <= c <= 4 * v + 17 - 7) (alignmentCentres v) ∧
      Forall (λ c, Forall (λ c', c = c' ∨ Z.abs (c - c') > 4) (alignmentCentres v)) (alignmentCentres v) ∧
      Forall (λ i, (alignmentCentres v !!! Z.to_nat i =? 6) = (i =? 0) ∧
        (alignmentCentres v !!! Z.to_nat i =? 4 * v + 17 - 7) = (i =? size_of (alignmentCentres v) - 1))
        (range 0 (size_of (alignmentCentres v)))) v Hv). vm_compute. reflexivity.
Qed.

Lemma axis_spec v x c : 1 <= v <= 40 →
  axis (alignmentCentres v) x = Some c ↔ c ∈ alignmentCentres v ∧ Z.abs (x - c) <= 2.
Proof.
  intros Hv. destruct (centres_ok v Hv) as (_ & _ & Hapart & _). rewrite Forall_forall in Hapart. unfold axis. split.
  - intros [Hin H]%find_some. rewrite list_elem_of_In. split; [done|lia].
  - intros [Hin Hc]. destruct (List.find _ _) as [c'|] eqn:Hf.
    + apply find_some in Hf as [Hin' H']. rewrite <- list_elem_of_In in Hin'. specialize (Hapart c Hin).
      rewrite Forall_forall in Hapart. destruct (Hapart c' Hin') as [->|?]; [done|lia].
    + rewrite list_elem_of_In in Hin. apply (find_none _ _ Hf) in Hin. lia.
Qed.

Definition alignmentsCells (l : list Z) : list (Z * Z * bool) :=
  let numAlign := size_of l in
  range 0 numAlign ≫= λ i, range 0 numAlign ≫= λ j,
    if negb (((i =? 0) && (j =? 0)) || ((i =? 0) && (j =? numAlign - 1)) || ((i =? numAlign - 1) && (j =? 0)))
    then alignmentCells (l !!! Z.to_nat i) (l !!! Z.to_nat j) else [].

Lemma at_total (l : list Z) i : 0 <= i < size_of l → at_ l i = Ok (l !!! Z.to_nat i).
Proof.
  intros Hi. apply at_ok. split; [lia|]. apply list_lookup_lookup_total_lt. unfold size_of in Hi. lia.
Qed.

Lemma alignments_drawn q l :
  loop (range 0 (size_of l)) (λ q i,
    loop (range 0 (size_of l)) (λ q j,
      if negb (((i =? 0) && (j =? 0)) || ((i =? 0) && (j =? size_of l - 1)) || ((i =? size_of l - 1) && (j =? 0)))
      then x ← at_ l i; y ← at_ l j; drawAlignmentPattern q x y
      else mret q) q) q = setCells (alignmentsCells l) q.
Proof.
  apply loop_setCells. intros q1 i _ Hi%elem_of_range. apply loop_setCells. intros q2 j _ Hj%elem_of_range.
  case_match; [|done]. rewrite !at_total, !bind_Ok by done. apply alignment_drawn.
Qed.

Lemma elem_of_centres (l : list Z) c : c ∈ l ↔ ∃ i, i ∈ range 0 (size_of l) ∧ l !!! Z.to_nat i = c.
Proof.
  rewrite list_elem_of_lookup. unfold size_of. split.
  - intros (i & Hi). exists (Z.of_nat i). pose proof (lookup_lt_Some _ _ _ Hi). rewrite elem_of_range, Nat2Z.id.
    split; [lia|]. by apply list_lookup_total_correct.
  - intros (i & Hi%elem_of_range & <-). exists (Z.to_nat i). apply list_lookup_lookup_total_lt. lia.
Qed.

(** The pairs of centres that are drawn. *)
Lemma elem_of_alignmentsCells v c : 1 <= v <= 40 → c ∈ alignmentsCells (alignmentCentres v) ↔
  ∃ cx cy, cx ∈ alignmentCentres v ∧ cy ∈ alignmentCentres v ∧ corner (4 * v + 17) cx cy = false ∧ c ∈ alignmentCells cx cy.
Proof.
  intros Hv. destruct (centres_ok v Hv) as (_ & _ & _ & Hends). rewrite Forall_forall in Hends.
  unfold alignmentsCells. set (l := alignmentCentres v) in *. rewrite list_elem_of_bind. split.
  - intros (i & Hc & Hi). apply list_elem_of_bind in Hc as (j & Hc & Hj).
    destruct (Hends i Hi) as [Hi0 Hi1], (Hends j Hj) as [Hj0 Hj1].
    case_match eqn:Hcorner; [|by apply elem_of_nil in Hc].
    exists (l !!! Z.to_nat i), (l !!! Z.to_nat j). split; [apply elem_of_centres; eauto|]. split; [apply elem_of_centres; eauto|].
    split; [|done]. unfold corner. rewrite Hi0, Hi1, Hj0, Hj1. by apply negb_true_iff.
  - intros (cx & cy & Hx & Hy & Hcorner & Hc). apply elem_of_centres in Hx as (i & Hi & <-), Hy as (j & Hj & <-).
    destruct (Hends i Hi) as [Hi0 Hi1], (Hends j Hj) as [Hj0 Hj1]. unfold corner in Hcorner.
    rewrite Hi0, Hi1, Hj0, Hj1 in Hcorner. exists i. split; [|done]. apply list_elem_of_bind. exists j. split; [|done].
    by rewrite Hcorner.
Qed.

Lemma alignmentsCells_inside v : 1 <= v <= 40 →
  Forall (λ c, inside (4 * v + 17) c.1) (alignmentsCells (alignmentCentres v)).
Proof.
  intros Hv. destruct (centres_ok v Hv) as (_ & Hb & _ & _). rewrite Forall_forall in Hb.
  apply Forall_forall. intros c (cx & cy & Hx & Hy & _ & Hc)%elem_of_alignmentsCells; [|done].
  assert (c.1 ∈ map fst (alignmentCells cx cy)) as Hp by (apply list_elem_of_fmap; eauto).
  apply alignmentCells_places in Hp. pose proof (Hb cx Hx). pose proof (Hb cy Hy). unfold ring, inside in *. cbn [fst snd] in *. lia.
Qed.

Lemma alignments_last v p : 1 <= v <= 40 →
  lastColor (alignmentsCells (alignmentCentres v)) p = alignmentColor v (4 * v + 17) p.
Proof.
  intros Hv. pose proof (λ x c, axis_spec v x c Hv) as Haxis. unfold alignmentColor.
  rewrite (lastColor_spec (λ p, match axis (alignmentCentres v) p.1, axis (alignmentCentres v) p.2 with
      | Some cx, Some cy => negb (ring p (cx, cy) =? 1) | _, _ => false end)
    (match axis (alignmentCentres v) p.1, axis (alignmentCentres v) p.2 with
      | Some cx, Some cy => negb (corner (4 * v + 17) cx cy) | _, _ => false end)).
  - destruct (axis _ p.1) as [cx|]; [|done]. destruct (axis _ p.2) as [cy|]; [|done]. by destruct (corner _ cx cy).
  - apply Forall_forall. intros c (cx & cy & Hx & Hy & _ & Hc)%elem_of_alignmentsCells; [|done].
    assert (c.1 ∈ map fst (alignmentCells cx cy)) as Hp by (apply list_elem_of_fmap; eauto).
    apply alignmentCells_places in Hp. unfold ring in Hp. cbn [fst snd] in Hp.
    rewrite (proj2 (Haxis c.1.1 cx)), (proj2 (Haxis c.1.2 cy)) by (split; [done|lia]).
    pose proof (alignmentCells_color cx cy) as Hcol. rewrite Forall_forall in Hcol. by apply Hcol.
  - rewrite list_elem_of_fmap. split.
    + intros (c & -> & Hc). apply elem_of_alignmentsCells in Hc as (cx & cy & Hx & Hy & Hcorner & Hc); [|done].
      assert (c.1 ∈ map fst (alignmentCells cx cy)) as Hp by (apply list_elem_of_fmap; eauto).
      apply alignmentCells_places in Hp. unfold ring in Hp. cbn [fst snd] in Hp.
      rewrite (proj2 (Haxis c.1.1 cx)), (proj2 (Haxis c.1.2 cy)) by (split; [done|lia]). by rewrite Hcorner.
    + destruct (axis _ p.1) as [cx|] eqn:Hx; [|done]. destruct (axis _ p.2) as [cy|] eqn:Hy; [|done].
      intros Hcorner%negb_true_iff. apply Haxis in Hx as [Hx Hdx], Hy as [Hy Hdy].
      assert (p ∈ map fst (alignmentCells cx cy)) as Hp by (apply alignmentCells_places; unfold ring; cbn [fst snd]; lia).
      apply list_elem_of_fmap in Hp as (c & -> & Hc). exists c. split; [done|].
      apply elem_of_alignmentsCells; [done|]. by exists cx, cy.
Qed.

(** *** Format and version *)

Lemma formatIndex_places n i : 21 <= n → 0 <= i < 15 →
  formatIndex n (format1 i) = Some i ∧ formatIndex n (format2 n i) = Some i.
Proof.
  intros Hn Hi. unfold format1, format2, formatIndex. split; split_ifs; f_equal; lia.
Qed.

Lemma formatIndex_inv n p i : 21 <= n → inside n p → formatIndex n p = Some i →
  (0 <= i < 15 ∧ (p = format1 i ∨ p = format2 n i)) ∨ (i = 15 ∧ p = (8, n - 8)).
Proof.
  intros Hn [Hx Hy]. destruct p as [x y]. cbn [fst snd] in *. unfold formatIndex, format1, format2. intros H.
  split_ifs; injection H as <-.
  all: try (right; split; [lia|f_equal; lia]).
  all: left; split; [lia|].
  all: split_ifs; (left; f_equal; lia) || (right; f_equal; lia).
Qed.

Lemma formatPlaces_index n p : 21 <= n → inside n p → p ∈ formatPlaces n ↔ is_Some (formatIndex n p).
Proof.
  intros Hn Hp. unfold formatPlaces. rewrite !elem_of_app, !list_elem_of_fmap, list_elem_of_singleton. split.
  - intros [(i & -> & Hi%elem_of_range)|[(i & -> & Hi%elem_of_range)| ->]].
    + exists i. by apply formatIndex_places.
    + exists i. by apply formatIndex_places.
    + exists 15. unfold formatIndex. split_ifs; f_equal; lia.
  - intros [i Hi]. destruct (formatIndex_inv n p i Hn Hp Hi) as [[Hr [->| ->]]|[_ ->]].
    + left. exists i. split; [done|by apply elem_of_range].
    + right. left. exists i. split; [done|by apply elem_of_range].
    + by right; right.
Qed.

Lemma format_last n bits p : 21 <= n → inside n p → lastColor (formatCells n bits) p = formatColor n bits p.
Proof.
  intros Hn Hp. unfold formatColor. pose (color := λ p, match formatIndex n p with Some i => (i =? 15) || getBit bits i | None => false end).
  rewrite (lastColor_spec color (bool_decide (is_Some (formatIndex n p)))).
  - unfold color. destruct (formatIndex n p); done.
  - unfold formatCells. rewrite !Forall_app. split; [|split].
    + apply Forall_map, Forall_forall. intros i Hi%elem_of_range. unfold color. cbn [fst snd].
      rewrite (proj1 (formatIndex_places n i Hn Hi)). destruct (Z.eqb_spec i 15); [lia|done].
    + apply Forall_map, Forall_forall. intros i Hi%elem_of_range. unfold color. cbn [fst snd].
      rewrite (proj2 (formatIndex_places n i Hn Hi)). destruct (Z.eqb_spec i 15); [lia|done].
    + apply Forall_cons. split; [|constructor]. unfold color. cbn [fst snd].
      assert (formatIndex n (8, n - 8) = Some 15) as ->; [|done]. unfold formatIndex. split_ifs; f_equal; lia.
  - rewrite formatPlaces_spec, bool_decide_eq_true. by apply formatPlaces_index.
Qed.

Definition versionCells (n bits : Z) : list (Z * Z * bool) :=
  range 0 18 ≫= λ i, [((n - 11 + i mod 3, i / 3), getBit bits i); ((i / 3, n - 11 + i mod 3), getBit bits i)].

Lemma versionBits_bounds v : 1 <= v <= 40 → Z.shiftr (versionBits v) 18 = 0.
Proof. intros Hv. apply (versions_decide (λ v, Z.shiftr (versionBits v) 18 = 0) v Hv). vm_compute. reflexivity. Qed.

Lemma version_drawn q : 1 <= version q <= 40 →
  drawVersion q = setCells (if version q <? 7 then [] else versionCells (size q) (versionBits (version q))) q.
Proof.
  intros Hv. unfold drawVersion. case_match; [done|]. cbv zeta. rewrite versionBits_bounds by done. cbn [Z.eqb assert_that].
  change (mret tt ≫= ?k) with (k tt). cbn beta. apply loop_setCells. intros q' i (_ & Hs & _) _. rewrite Hs.
  by rewrite setCells_two.
Qed.

Lemma versionCells_inside n bits : 21 <= n → Forall (λ c, inside n c.1) (versionCells n bits).
Proof.
  intros Hn. apply Forall_bind'. intros i Hi%elem_of_range.
  pose proof (Z.mod_pos_bound i 3 ltac:(lia)). pose proof (Z.div_mod i 3 ltac:(lia)).
  apply Forall_cons. split; [|apply Forall_cons; split; [|constructor]]; unfold inside; cbn [fst snd]; lia.
Qed.

Lemma version_last v p : 7 <= v → inside (4 * v + 17) p →
  lastColor (versionCells (4 * v + 17) (versionBits v)) p = versionColor v (4 * v + 17) p.
Proof.
  intros Hv Hp. unfold versionColor. set (n := 4 * v + 17) in *. set (bits := versionBits v).
  pose (color := λ p, match versionIndex v n p with Some i => getBit bits i | None => false end).
  assert (∀ i, 0 <= i < 18 → versionIndex v n (n - 11 + i mod 3, i / 3) = Some i ∧
    versionIndex v n (i / 3, n - 11 + i mod 3) = Some i) as Hidx.
  { intros i Hi. pose proof (Z.mod_pos_bound i 3 ltac:(lia)). pose proof (Z.div_mod i 3 ltac:(lia)).
    unfold versionIndex. split; split_ifs; f_equal; lia. }
  rewrite (lastColor_spec color (bool_decide (is_Some (versionIndex v n p)))).
  - unfold color. destruct (versionIndex v n p); done.
  - apply Forall_bind'. intros i Hi%elem_of_range. destruct (Hidx i Hi) as [H1 H2].
    apply Forall_cons. split; [|apply Forall_cons; split; [|constructor]]; unfold color; cbn [fst snd]; by rewrite ?H1, ?H2.
  - unfold versionCells. rewrite elem_of_places, bool_decide_eq_true. split.
    + intros (i & Hi%elem_of_range & Hin). destruct (Hidx i Hi) as [H1 H2]. cbn in Hin.
      rewrite !elem_of_cons, elem_of_nil in Hin. destruct Hin as [->|[->|[]]]; eauto.
    + intros [i Hi]. destruct p as [x y], Hp as [Hx Hy]. cbn [fst snd] in *. unfold versionIndex in Hi.
      split_ifs; injection Hi as Hi.
      * assert (i mod 3 = x - (n - 11)) as Hm by (symmetry; apply (Z.mod_unique _ _ y); lia).
        assert (i / 3 = y) as Hd by (symmetry; apply (Z.div_unique _ _ _ (x - (n - 11))); lia).
        exists i. split; [apply elem_of_range; lia|]. cbn. rewrite Hm, Hd, Zplus_minus. by left.
      * assert (i mod 3 = y - (n - 11)) as Hm by (symmetry; apply (Z.mod_unique _ _ x); lia).
        assert (i / 3 = x) as Hd by (symmetry; apply (Z.div_unique _ _ _ (y - (n - 11))); lia).
        exists i. split; [apply elem_of_range; lia|]. cbn. rewrite Hm, Hd, Zplus_minus. right. by left.
Qed.

(** ** All function patterns *)

(** The object before anything is drawn. *)
Definition blank (v : Z) (ecl : Ecc) : QrCode :=
  let size := v * 4 + 17 in
  let light := replicate (Z.to_nat size) (replicate (Z.to_nat size) false) in
  mkQr v size ecl (-1) light light.

Definition patternCells (v : Z) (ecl : Ecc) : list (Z * Z * bool) :=
  let n := 4 * v + 17 in
  timingCells n ++ finderCells n 3 3 ++ finderCells n (n - 4) 3 ++ finderCells n 3 (n - 4) ++
  alignmentsCells (alignmentCentres v) ++ formatCells n (formatBits ecl 0) ++
  (if v <? 7 then [] else versionCells n (versionBits v)).

Lemma patterns_drawn v ecl : 1 <= v <= 40 → drawFunctionPatterns (blank v ecl) = setCells (patternCells v ecl) (blank v ecl).
Proof.
  intros Hv. unfold drawFunctionPatterns, patternCells. rewrite timing_drawn. cbv zeta.
  assert (size (blank v ecl) = 4 * v + 17) as Hn by (cbn; lia). rewrite Hn. set (n := 4 * v + 17) in *.
  apply setCells_then. intros q1 (Hv1 & Hs1 & He1). rewrite Hn in Hs1.
  rewrite finder_drawn, Hs1. apply setCells_then. intros q2 (Hv2 & Hs2 & He2). rewrite Hs1 in Hs2.
  rewrite finder_drawn, Hs2. apply setCells_then. intros q3 (Hv3 & Hs3 & He3). rewrite Hs2 in Hs3.
  rewrite finder_drawn, Hs3. apply setCells_then. intros q4 (Hv4 & Hs4 & He4). rewrite Hs3 in Hs4.
  assert (version q4 = v) as Hver by (rewrite Hv4, Hv3, Hv2, Hv1; done).
  rewrite (proj1 (centres_ok v Hv) q4 Hver Hs4), alignments_drawn.
  apply setCells_then. intros q5 (Hv5 & Hs5 & He5). rewrite Hs4 in Hs5.
  assert (errorCorrectionLevel q5 = ecl) as Hecl by (rewrite He5, He4, He3, He2, He1; done).
  rewrite drawFormatBits_cells by (apply formatBits_bounds; lia). rewrite Hecl, Hs5.
  apply setCells_then. intros q6 (Hv6 & Hs6 & He6). rewrite Hs5 in Hs6.
  assert (version q6 = v) as Hver6 by (rewrite Hv6, Hv5; done). rewrite version_drawn by lia. by rewrite Hver6, Hs6.
Qed.

Lemma patternCells_inside v ecl : 1 <= v <= 40 → Forall (λ c, inside (4 * v + 17) c.1) (patternCells v ecl).
Proof.
  intros Hv. unfold patternCells. cbv zeta. rewrite !Forall_app. split; [apply timingCells_inside; lia|].
  do 3 (split; [apply finderCells_inside|]). split; [by apply alignmentsCells_inside|]. split.
  - by apply formatCells_in.
  - case_match; [constructor|]. apply versionCells_inside. lia.
Qed.

Lemma patterns_last v ecl p : 1 <= v <= 40 → inside (4 * v + 17) p →
  lastColor (patternCells v ecl) p = functionColor v ecl 0 p.
Proof.
  intros Hv Hp. unfold patternCells, functionColor. cbv zeta. set (n := 4 * v + 17) in *. assert (21 <= n) as Hn by lia.
  rewrite !lastColor_app, timing_last, alignments_last, format_last by done. rewrite <- (finders_last n p Hn Hp). fold n.
  assert (lastColor (if v <? 7 then [] else versionCells n (versionBits v)) p = versionColor v n p) as ->.
  { destruct (Z.ltb_spec v 7); [|by apply version_last]. unfold versionColor, versionIndex. destruct p.
    by rewrite (proj2 (Z.ltb_lt v 7)). }
  destruct (versionColor v n p), (formatColor n _ p), (alignmentColor v n p), (lastColor (finderCells n 3 (n - 4)) p),
    (lastColor (finderCells n (n - 4) 3) p), (lastColor (finderCells n 3 3) p); done.
Qed.

Lemma lastColor_true cells p : lastColor (map (λ c, (c.1, true)) cells) p = (λ _, true) <$> lastColor cells p.
Proof.
  induction cells as [|c cells IH] using rev_ind; [done|]. rewrite map_app. cbn [map].
  rewrite !lastColor_snoc, IH. cbn [fst snd]. by case_decide.
Qed.

Lemma square_light n : 0 <= n → square n (replicate (Z.to_nat n) (replicate (Z.to_nat n) false)).
Proof.
  intros Hn. split; [unfold size_of; rewrite length_replicate; lia|]. apply Forall_replicate. unfold size_of.
  rewrite length_replicate. lia.
Qed.

Lemma cell_light n p : inside n p → cell (replicate (Z.to_nat n) (replicate (Z.to_nat n) false)) p = Some false.
Proof.
  intros [Hx Hy]. unfold cell. case_match; [lia|]. rewrite lookup_replicate_2 by lia. cbn. apply lookup_replicate_2. lia.
Qed.

Lemma ready_blank v ecl : 1 <= v <= 40 → ready (blank v ecl).
Proof. intros Hv. unfold ready. cbn. split; [done|]. split; [lia|]. split; apply square_light; lia. Qed.

(** The symbol with its function patterns, before the data. *)
Definition patterned (v : Z) (ecl : Ecc) (q : QrCode) : Prop :=
  version q = v ∧ size q = 4 * v + 17 ∧ errorCorrectionLevel q = ecl ∧ mask q = -1 ∧ ready q ∧
  ∀ p, inside (4 * v + 17) p →
    cell (modules q) p = Some (default false (functionColor v ecl 0 p)) ∧
    cell (isFunction q) p = Some (bool_decide (is_Some (functionColor v ecl 0 p))).

Lemma drawFunctionPatterns_ok v ecl : 1 <= v <= 40 →
  ∃ q, drawFunctionPatterns (blank v ecl) = Ok q ∧ patterned v ecl q.
Proof.
  intros Hv. assert (size (blank v ecl) = 4 * v + 17) as Hn by (cbn; lia). pose proof (ready_blank v ecl Hv) as Hb.
  pose proof (patternCells_inside v ecl Hv) as Hin. pose proof (Hb) as (_ & _ & Hm & Hf). rewrite Hn in Hm, Hf.
  rewrite patterns_drawn, setCells_ok by (done || by rewrite Hn). eexists. split; [done|].
  split; [done|]. split; [done|]. split; [done|]. split; [done|]. split.
  { apply ready_with_grids; [done|..]; rewrite Hn; by apply square_updCells. }
  intros p Hp. cbn [with_grids modules isFunction]. rewrite !(cell_lastColor (4 * v + 17)) by (done || by apply Forall_map).
  rewrite lastColor_true, patterns_last by done. cbn [blank modules isFunction]. rewrite Z.mul_comm, cell_light by done.
  by destruct (functionColor v ecl 0 p).
Qed.
