(* ===== verification/QrCapacity.v ===== *)
(** * The capacity of a QR code

    The number of modules that the function patterns leave for data is the one
    [getNumRawDataModules] computes by a formula.  The modules are counted for each of
    the 40 versions, column by column. *)

From stdpp Require Import prelude strings list list_numbers.
From Stdlib Require Import ZArith Lia.
From S2P Require Import Prelude Cxx ReedSolomon QrSegment QrCode QrMatrix QrDraw QrLayout.

Local Open Scope Z_scope.

(** ** Reserved modules *)

(** The areas of the standard, for a column; [a] is the alignment pattern that covers
    the column, if there is one. *)
Definition reservedIn (v n : Z) (l : list Z) (x : Z) (a : option Z) (y : Z) : bool :=
  if (x <? 9) && ((y <? 9) || (n - 8 <=? y)) then true
  else if (n - 8 <=? x) && (y <? 9) then true
  else if (x =? 6) || (y =? 6) then true
  else if (7 <=? v) && (((n - 11 <=? x) && (y <? 6)) || ((n - 11 <=? y) && (x <? 6))) then true
  else match a with
       | None => false
       | Some cx => match axis l y with None => false | Some cy => negb (corner n cx cy) end
       end.

Definition reserved (v : Z) (p : Z * Z) : bool :=
  reservedIn v (4 * v + 17) (alignmentCentres v) p.1 (axis (alignmentCentres v) p.1) p.2.

Lemma is_Some_over a b : is_Some (over a b) ↔ is_Some a ∨ is_Some b.
Proof. destruct a, b; cbn; split; intros H; try destruct H as [H|H]; eauto; destruct H; done. Qed.

Lemma finderColor_is_Some n p : is_Some (finderColor n p) ↔
  ring p (3, 3) <= 4 ∨ ring p (n - 4, 3) <= 4 ∨ ring p (3, n - 4) <= 4.
Proof.
  unfold finderColor, finderCentres. cbn [List.find].
  destruct (Z.leb_spec (ring p (3, 3)) 4), (Z.leb_spec (ring p (n - 4, 3)) 4), (Z.leb_spec (ring p (3, n - 4)) 4);
    split; intros H'; try (by destruct H'); try lia; eauto.
Qed.

Lemma reserved_spec v ecl msk p : 1 <= v <= 40 → inside (4 * v + 17) p →
  reserved v p = bool_decide (is_Some (functionColor v ecl msk p)).
Proof.
  intros Hv Hp. apply eq_bool_prop_intro. rewrite bool_decide_spec. unfold functionColor. cbv zeta.
  rewrite !is_Some_over, finderColor_is_Some. unfold reserved, reservedIn, versionColor, formatColor, alignmentColor, timingColor.
  set (n := 4 * v + 17) in *. destruct p as [x y], Hp as [Hx Hy]. cbn [fst snd] in *. unfold ring. cbn [fst snd].
  assert (is_Some (formatIndex n (x, y) ≫= λ i, Some ((i =? 15) || getBit (formatBits ecl msk) i)) ↔
    (x = 8 ∧ (y < 6 ∨ y = 7 ∨ y = 8 ∨ n - 8 <= y)) ∨ (y = 8 ∧ (x < 6 ∨ x = 7 ∨ n - 8 <= x))) as ->.
  { unfold formatIndex. split; intros H.
    - destruct H as [b H]. split_ifs.
    - split_ifs; cbn; eauto. }
  assert (is_Some (versionIndex v n (x, y) ≫= λ i, Some (getBit (versionBits v) i)) ↔
    7 <= v ∧ ((n - 11 <= x < n - 8 ∧ y < 6) ∨ (n - 11 <= y < n - 8 ∧ x < 6))) as ->.
  { unfold versionIndex. split; intros H.
    - destruct H as [b H]. split_ifs.
    - split_ifs; cbn; eauto. }
  assert (is_Some (if (x =? 6) || (y =? 6) then Some (Z.even (x + y)) else None) ↔ x = 6 ∨ y = 6) as ->.
  { split; intros H; [destruct H as [b H]|]; split_ifs; eauto. }
  set (A := match axis (alignmentCentres v) x with None => false | Some cx =>
    match axis (alignmentCentres v) y with None => false | Some cy => negb (corner n cx cy) end end).
  match goal with |- _ ↔ _ ∨ _ ∨ is_Some ?a ∨ _ => assert (is_Some a ↔ A = true) as -> end.
  { unfold A. destruct (axis _ x) as [cx|]; [|by split; [intros [? ?]|]]. destruct (axis _ y) as [cy|]; [|by split; [intros [? ?]|]].
    destruct (corner n cx cy); cbn; split; intros H; try done; try (by destruct H); eauto. }
  clearbody A. destruct A; split_ifs; split; intros H; try done; try lia; try (by apply Is_true_true; lia).
Qed.

(** ** Counting *)

Definition count {A} (P : A → bool) (l : list A) : Z := size_of (List.filter P l).

Lemma count_app {A} (P : A → bool) l1 l2 : count P (l1 ++ l2) = count P l1 + count P l2.
Proof. unfold count, size_of. rewrite List.filter_app, length_app. lia. Qed.

Lemma count_perm {A} (P : A → bool) l1 l2 : l1 ≡ₚ l2 → count P l1 = count P l2.
Proof.
  intros H. unfold count, size_of. induction H as [|a l1 l2 H IH|a b l|l1 l2 l3 _ IH1 _ IH2]; cbn.
  - done.
  - destruct (P a); cbn; lia.
  - destruct (P a), (P b); done.
  - congruence.
Qed.

Lemma count_ext {A} (P Q : A → bool) l : (∀ a, a ∈ l → P a = Q a) → count P l = count Q l.
Proof.
  intros H. unfold count. f_equal. apply filter_ext_in. intros a Ha. apply H. by apply list_elem_of_In.
Qed.

Lemma count_map {A B} (P : B → bool) (f : A → B) l : count P (map f l) = count (λ a, P (f a)) l.
Proof.
  unfold count, size_of. induction l as [|a l IH]; [done|]. cbn. destruct (P (f a)); cbn; lia.
Qed.

(** The columns of the scan. *)
Definition columns (n : Z) : list Z := columnPairs n ≫= λ r, [r; r - 1].

Definition column (n x : Z) : list (Z * Z) := map (λ y, (x, y)) (range 0 n).

(** The scan visits every module of its columns. *)
Lemma zigzag_columns v : 1 <= v <= 40 → zigzag (4 * v + 17) ≡ₚ (columns (4 * v + 17) ≫= column (4 * v + 17)).
Proof.
  intros Hv. set (n := 4 * v + 17). destruct (columnPairs_spec v Hv) as (Hd & _ & Hapart). fold n in Hd, Hapart.
  rewrite Forall_forall in Hapart. apply NoDup_Permutation; [by apply NoDup_zigzag| |].
  - apply NoDup_bind.
    + intros x1 x2 p _ _ Hp1 Hp2. apply list_elem_of_fmap in Hp1 as (y1 & -> & _), Hp2 as (y2 & [= -> _] & _). done.
    + intros x _. apply NoDup_fmap_2; [|apply NoDup_seqZ]. by intros ?? [= ->].
    + apply NoDup_bind; [| |done].
      * intros r1 r2 x Hr1 Hr2 H1 H2. specialize (Hapart r1 Hr1). rewrite Forall_forall in Hapart.
        destruct (Hapart r2 Hr2) as [|Hne]; [done|]. rewrite !elem_of_cons, elem_of_nil in H1, H2. lia.
      * intros r _. apply NoDup_cons. rewrite list_elem_of_singleton. split; [lia|]. apply NoDup_singleton.
  - intros p. unfold zigzag, columns. rewrite !list_elem_of_bind. split.
    + intros (r & Hp & Hr). apply list_elem_of_bind in Hp as (vert & Hp & Hvert%elem_of_range).
      apply elem_of_scanPair in Hp as [Hx Hy]. exists p.1. split.
      * apply list_elem_of_fmap. exists p.2. split; [by destruct p|]. apply elem_of_range. rewrite Hy. case_match; lia.
      * apply list_elem_of_bind. exists r. split; [|done]. rewrite !elem_of_cons. tauto.
    + intros (x & Hp & Hx). apply list_elem_of_fmap in Hp as (y & -> & Hy%elem_of_range).
      apply list_elem_of_bind in Hx as (r & Hx & Hr). exists r. split; [|done]. apply list_elem_of_bind.
      exists (if upward r then n - 1 - y else y). split; [|apply elem_of_range; case_match; lia].
      apply elem_of_scanPair. cbn. rewrite !elem_of_cons, elem_of_nil in Hx. split; [tauto|]. case_match; lia.
Qed.

Lemma count_columns (P : Z * Z → bool) n l :
  count P (l ≫= column n) = foldr (λ x k, count (λ y, P (x, y)) (range 0 n) + k) 0 l.
Proof.
  induction l as [|x l IH]; [done|]. change ((x :: l) ≫= column n) with (column n x ++ (l ≫= column n)).
  rewrite count_app, IH. unfold column. by rewrite count_map.
Qed.

(** A column between the finder patterns without alignment patterns has one reserved
    module, in the timing pattern. *)
Definition plain (v n : Z) (l : list Z) (x : Z) : bool :=
  (9 <=? x) && (x <? n - 11) && match axis l x with None => true | Some _ => false end.

Lemma count_others n c : 0 <= c < n → count (λ y, negb (y =? c)) (range 0 n) = n - 1.
Proof.
  intros Hc. assert (range 0 n = range 0 c ++ [c] ++ range (c + 1) n) as ->.
  { rewrite app_assoc, <- range_snoc by lia. unfold range. rewrite Z.sub_0_r.
    replace n with ((c + 1) + (n - (c + 1))) at 1 by lia. rewrite seqZ_app by lia. by rewrite !Z.sub_0_r, Z.add_0_l. }
  rewrite !count_app.
  assert (∀ lo hi, lo <= hi → (hi <= c ∨ c < lo) → count (λ y, negb (y =? c)) (range lo hi) = hi - lo) as Hall.
  { intros lo hi Hlo Hne. unfold count. assert (List.filter (λ y, negb (y =? c)) (range lo hi) = range lo hi) as ->.
    - apply forallb_filter_id, forallb_forall. intros y Hy. rewrite <- list_elem_of_In in Hy. apply elem_of_range in Hy. lia.
    - unfold size_of, range. rewrite length_seqZ. lia. }
  rewrite !Hall by lia. unfold count. cbn [List.filter]. rewrite Z.eqb_refl. cbn [negb].
  change (size_of (@nil Z)) with 0. lia.
Qed.

Definition countColumn (v n : Z) (l : list Z) (x : Z) : Z :=
  if plain v n l x then n - 1
  else let a := axis l x in foldl (λ k y, if reservedIn v n l x a y then k else k + 1) 0 (range 0 n).

Lemma count_foldl (P : Z → bool) l k : foldl (λ k y, if P y then k else k + 1) k l = k + count (λ y, negb (P y)) l.
Proof.
  revert k. induction l as [|y l IH]; intros k; [symmetry; apply Z.add_0_r|]. cbn [foldl]. rewrite IH. unfold count, size_of.
  cbn [List.filter]. destruct (P y); cbn [negb length]; lia.
Qed.

Lemma countColumn_spec v x : 1 <= v →
  countColumn v (4 * v + 17) (alignmentCentres v) x = count (λ y, negb (reserved v (x, y))) (range 0 (4 * v + 17)).
Proof.
  intros Hv. unfold countColumn, reserved. cbn [fst snd]. set (n := 4 * v + 17). destruct (plain v n _ x) eqn:Hplain.
  - rewrite <- (count_others n 6) by lia. apply count_ext. intros y Hy%elem_of_range. unfold plain in Hplain.
    destruct (axis _ x); [lia|]. unfold reservedIn. split_ifs; lia.
  - by rewrite count_foldl.
Qed.

Definition countOpen (v : Z) : Z :=
  foldr (λ x k, countColumn v (4 * v + 17) (alignmentCentres v) x + k) 0 (columns (4 * v + 17)).

Lemma countOpen_raw v : 1 <= v <= 40 → getNumRawDataModules v = Ok (countOpen v).
Proof. intros Hv. apply (versions_decide (λ v, getNumRawDataModules v = Ok (countOpen v)) v Hv). vm_compute. reflexivity. Qed.

(** ** The modules for data *)

(** The modules for data, in the order of the scan. *)
Definition dataCells (v : Z) : list (Z * Z) := List.filter (λ p, negb (reserved v p)) (zigzag (4 * v + 17)).

Lemma dataCells_count v : 1 <= v <= 40 → getNumRawDataModules v = Ok (size_of (dataCells v)).
Proof.
  intros Hv. rewrite countOpen_raw by done. f_equal. unfold dataCells. fold (count (λ p, negb (reserved v p)) (zigzag (4 * v + 17))).
  rewrite (count_perm _ _ _ (zigzag_columns v Hv)), count_columns. unfold countOpen.
  induction (columns (4 * v + 17)) as [|x l IH]; [done|]. cbn [foldr]. by rewrite IH, countColumn_spec by lia.
Qed.

Lemma dataCells_open v ecl q : 1 <= v <= 40 → patterned v ecl q →
  open_cells (isFunction q) (zigzag (4 * v + 17)) = dataCells v.
Proof.
  intros Hv (_ & _ & _ & _ & _ & Hcells). apply filter_ext_in. intros p Hp. rewrite <- list_elem_of_In in Hp.
  pose proof (elem_of_zigzag v p Hv Hp) as Hin. unfold is_open. rewrite (proj2 (Hcells p Hin)).
  rewrite (reserved_spec v ecl 0) by done. destruct (bool_decide (is_Some (functionColor v ecl 0 p))); done.
Qed.

Lemma elem_of_dataCells v p : 1 <= v <= 40 → p ∈ dataCells v → inside (4 * v + 17) p ∧ reserved v p = false.
Proof.
  intros Hv Hp. unfold dataCells in Hp. rewrite list_elem_of_In, filter_In, <- list_elem_of_In in Hp. destruct Hp as [Hp Hr].
  split; [by apply elem_of_zigzag|by apply negb_true_iff].
Qed.

(** In each of the 40 versions the function patterns are drawn without an
    exception, every module gets the color the standard gives it, and the modules the
    zigzag scan finds free number exactly what [getNumRawDataModules] computes. *)
Theorem function_patterns_standard v ecl : 1 <= v <= 40 →
  ∃ q, drawFunctionPatterns (blank v ecl) = Ok q ∧
    (∀ p, inside (4 * v + 17) p →
       cell (modules q) p = Some (default false (functionColor v ecl 0 p)) ∧
       cell (isFunction q) p = Some (bool_decide (is_Some (functionColor v ecl 0 p)))) ∧
    getNumRawDataModules v = Ok (size_of (open_cells (isFunction q) (zigzag (4 * v + 17)))).
Proof.
  intros Hv. destruct (drawFunctionPatterns_ok v ecl Hv) as (q & Hd & Hq). exists q. split; [done|].
  split; [apply Hq|]. rewrite (dataCells_open v ecl q Hv Hq). by apply dataCells_count.
Qed.

Lemma function_patterns_standard_witness :
  ∃ q, drawFunctionPatterns (blank 7 LOW) = Ok q ∧ cell (modules q) (0, 0) = Some true.
Proof.
  destruct (function_patterns_standard 7 LOW ltac:(lia)) as (q & Hd & Hc & _). exists q. split; [exact Hd|].
  rewrite (proj1 (Hc (0, 0) ltac:(split; cbn; lia))). vm_compute. reflexivity.
Defined.
