(* ===== verification/QrPenalty.v ===== *)
(** * The penalty of a mask

    [getPenaltyScore] returns a score for every symbol: no access is out of range, and
    the bounds it asserts hold.  The scan of a line is analysed by amortization: a
    finder-like pattern that ends in a light run is paid by the modules of that run
    and of the dark run before it. *)

From stdpp Require Import prelude strings list list_numbers.
From Stdlib Require Import ZArith Lia.
From S2P Require Import Prelude Cxx ReedSolomon QrSegment QrCode QrMatrix.

Local Open Scope Z_scope.

(** ** The run history *)

Definition history (b : Z) (h : list Z) : Prop := length h = 7%nat ∧ Forall (λ r, 0 <= r <= b) h.

Lemma history_mono b b' h : history b h → b <= b' → history b' h.
Proof. intros [Hlen Hb] Hle. split; [done|]. apply (Forall_impl _ _ _ Hb). cbn. lia. Qed.

Lemma history_explicit n h : history n h → ∃ a b c d e f g, h = [a; b; c; d; e; f; g].
Proof. intros [Hlen _]. do 7 (destruct h as [|? h]; [done|]). destruct h; [|done]. by do 7 eexists. Qed.

Lemma addHistory_ok q b len h : history b h → 0 <= len → 0 <= size q → len + size q <= b →
  ∃ h', finderPenaltyAddHistory q len h = Ok h' ∧ history b h' ∧ h' !! 1%nat = h !! 0%nat ∧
    h' !! 0%nat = Some (if decide (h !! 0%nat = Some 0) then len + size q else len).
Proof.
  intros Hh Hl Hs Hlb. destruct (history_explicit _ _ Hh) as (a & b1 & c & d & e & f & g & ->). destruct Hh as [_ Hb].
  repeat (apply Forall_cons in Hb as [? Hb]). unfold finderPenaltyAddHistory. cbn.
  eexists. split; [done|]. split; [|split; [done|]].
  - split; [done|]. repeat constructor; try lia; case_match; lia.
  - destruct (Z.eqb_spec a 0) as [->|Hne]; [by rewrite decide_True|]. rewrite decide_False; [done|congruence].
Qed.

(** At most two patterns are counted; one needs a last run as long as the one before
    it, two need one four times as long. *)
Lemma countPatterns_ok q h : history (3 * size q) h → 0 <= size q →
  ∃ k, finderPenaltyCountPatterns q h = Ok k ∧ 0 <= k <= 2 ∧
    (∀ h0 h1, h !! 0%nat = Some h0 → h !! 1%nat = Some h1 → k = 0 ∨ (1 <= h1 ∧ k = 1 ∧ h1 <= h0) ∨ (1 <= h1 ∧ 4 * h1 <= h0)).
Proof.
  intros Hh Hn. destruct (history_explicit _ _ Hh) as (a & b & c & d & e & f & g & ->). destruct Hh as [_ Hb].
  repeat (apply Forall_cons in Hb as [? Hb]). unfold finderPenaltyCountPatterns.
  set (h := [a; b; c; d; e; f; g]). change (at_ h 0) with (Ok a : exc Z). change (at_ h 1) with (Ok b : exc Z).
  change (at_ h 2) with (Ok c : exc Z). change (at_ h 3) with (Ok d : exc Z). change (at_ h 4) with (Ok e : exc Z).
  change (at_ h 5) with (Ok f : exc Z). change (at_ h 6) with (Ok g : exc Z).
  rewrite bind_Ok, assert_ok by (apply Z.leb_le; lia). rewrite !bind_Ok. eexists. split; [done|]. split; [repeat case_match; lia|].
  intros h0 h1 [= <-] [= <-]. destruct (_ && _ && _ && _ && (f =? b)) eqn:Hcore; [|by left].
  cbn [andb]. repeat case_match; lia.
Qed.

(** ** The scan of a line *)

(** The penalty of a run of modules of one color. *)
Definition runPenalty (r : Z) : Z := if 5 <=? r then r - 2 else 0.

(** After [i] modules, for a line that started with the result [r0]. *)
Definition scanned (q : QrCode) (r0 i : Z) (st : scan) : Prop :=
  history (2 * size q) (runHistory st) ∧ 0 <= runLen st <= i ∧ r0 <= sc_result st ∧
  (if runColor st
   then 1 <= runLen st ∧ sc_result st <= r0 + 21 * (i - runLen st) + 21 + runPenalty (runLen st)
   else sc_result st <= r0 + 21 * (i - runLen st) + runPenalty (runLen st)).

Lemma scanStep_ok q get r0 i st b : scanned q r0 i st → 0 <= i < size q → get i = Ok b →
  ∃ st', scanStep q get st i = Ok st' ∧ scanned q r0 (i + 1) st'.
Proof.
  intros (Hh & Hlen & Hr0 & Hpot) Hi Hget. destruct st as [r c len h]. cbn [runHistory runLen sc_result runColor] in *.
  unfold scanStep. rewrite Hget, bind_Ok. cbn [runHistory runLen sc_result runColor]. destruct (eqb b c) eqn:Hbc.
  - eexists. split; [done|]. split; [done|]. cbn [runHistory runLen sc_result runColor]. unfold runPenalty in *.
    split; [lia|]. change PENALTY_N1 with 3. destruct c; split_ifs; repeat case_match; lia.
  - destruct (addHistory_ok q (2 * size q) len h Hh) as (h' & -> & Hh' & H1 & H0); [lia..|]. rewrite bind_Ok.
    destruct c; cbn [negb].
    + rewrite bind_mret. eexists. split; [done|]. split; [done|]. cbn [runHistory runLen sc_result runColor].
      destruct b; [done|]. unfold runPenalty in *. split; [lia|]. repeat case_match; lia.
    + destruct (countPatterns_ok q h' (history_mono (2 * size q) (3 * size q) _ Hh' ltac:(lia)) ltac:(lia)) as (k & -> & Hk & Hcost). rewrite bind_Ok, bind_mret.
      eexists. split; [done|]. split; [done|]. cbn [runHistory runLen sc_result runColor]. destruct b; [|done].
      assert (k * 40 <= 20 * (len + 1)) as Hc.
      { destruct (history_explicit _ _ Hh) as (a & ? & ? & ? & ? & ? & ? & ->). cbn in H1, H0.
        specialize (Hcost _ _ H0 H1). case_decide as Hz; [injection Hz as ->|]; lia. }
      change PENALTY_N3 with 40. unfold runPenalty in *. split; [lia|]. split; [lia|]. split; [lia|]. repeat case_match; lia.
Qed.

Lemma terminate_ok q c len h : history (2 * size q) h → 0 <= len <= size q →
  ∃ k, finderPenaltyTerminateAndCount q c len h = Ok k ∧ 0 <= k <= 2.
Proof.
  intros Hh Hl. unfold finderPenaltyTerminateAndCount.
  assert (∃ len' h', (if c then h ← finderPenaltyAddHistory q len h; mret (0, h) else mret (len, h)) = Ok (len', h') ∧
    history (2 * size q) h' ∧ 0 <= len' <= size q) as (len' & h' & -> & Hh' & Hl').
  { destruct c; [|by exists len, h]. destruct (addHistory_ok q (2 * size q) len h Hh) as (h' & -> & Hh' & _); [lia..|].
    exists 0, h'. split; [done|]. split; [done|lia]. }
  rewrite bind_Ok. destruct (addHistory_ok q (3 * size q) (len' + size q) h') as (h'' & -> & Hh'' & _); [|lia..|].
  { apply (history_mono _ _ _ Hh'). lia. }
  rewrite bind_Ok. destruct (countPatterns_ok q h'' Hh'' ltac:(lia)) as (k & -> & Hk & _). by exists k.
Qed.

Lemma scanLine_ok q get r : 0 <= size q → (∀ i, 0 <= i < size q → ∃ b, get i = Ok b) →
  ∃ r', scanLine q get r = Ok r' ∧ r <= r' <= r + 21 * size q + 101.
Proof.
  intros Hn Hget. unfold scanLine.
  destruct (loop_inv (λ p st, scanned q r (size_of p) st) (range 0 (size q)) (scanStep q get)
    (mkScan r false 0 (replicate 7 0))) as (st & -> & Hst).
  - split; [split; [done|]; apply Forall_replicate; lia|]. cbn [runLen sc_result runColor].
    change (size_of (@nil Z)) with 0. change (runPenalty 0) with 0. lia.
  - intros p i l st Hl Hst. assert (size_of p = i) as Hi.
    { assert (range 0 (size q) !! length p = Some i) as Hlk by (rewrite Hl; by apply list_lookup_middle).
      unfold range in Hlk. apply lookup_seqZ in Hlk. unfold size_of. lia. }
    assert (0 <= i < size q) as Hr by (apply elem_of_range; rewrite Hl; apply elem_of_app; right; left).
    destruct (Hget i Hr) as [b Hb]. rewrite Hi in Hst. destruct (scanStep_ok q get r i st b Hst Hr Hb) as (st' & Hs & Hst').
    exists st'. split; [done|]. replace (size_of (p ++ [i])) with (i + 1); [done|].
    unfold size_of in *. rewrite length_app. cbn. lia.
  - assert (size_of (range 0 (size q)) = size q) as Hsz by (unfold size_of, range; rewrite length_seqZ; lia).
    rewrite Hsz in Hst. destruct Hst as (Hh & Hlen & Hr0 & Hpot). rewrite bind_Ok.
    destruct (terminate_ok q (runColor st) (runLen st) (runHistory st) Hh Hlen) as (k & -> & Hk). rewrite bind_Ok.
    eexists. split; [done|]. change PENALTY_N3 with 40. unfold runPenalty in Hpot. split; [lia|]. destruct (runColor st); split_ifs; lia.
Qed.

(** A loop that adds a bounded amount to a result in each round. *)
Lemma sum_loop {A} (l : list A) (f : Z → A → exc Z) (b : Z) r :
  (∀ r a, a ∈ l → ∃ r', f r a = Ok r' ∧ r <= r' <= r + b) →
  ∃ r', loop l f r = Ok r' ∧ r <= r' <= r + b * size_of l.
Proof.
  intros Hf. destruct (loop_inv (λ p r', r <= r' <= r + b * size_of p) l f r) as (r' & Hl & Hr).
  - unfold size_of. cbn [length]. lia.
  - intros p a q r1 Hl Hr1. destruct (Hf r1 a) as (r2 & Hfa & Hr2); [rewrite Hl; apply elem_of_app; right; left|].
    exists r2. split; [done|]. unfold size_of in *. rewrite length_app. cbn [length]. lia.
  - by exists r'.
Qed.

Lemma module_ok q x y : ready q → inside (size q) (x, y) → ∃ b, module q x y = Ok b.
Proof.
  intros (_ & _ & Hm & _) Hp. destruct (cell_inside _ _ _ Hm Hp) as [b Hb]. exists b. by apply at2_ok.
Qed.

Lemma countDark_bounds n g : square n g → 0 <= countDark g <= n * n.
Proof.
  intros [Hn Hr]. unfold countDark.
  assert (∀ row d, d <= foldl (λ dark (color : bool), if color then dark + 1 else dark) d row <= d + size_of row) as Hrow.
  { intros row. induction row as [|c row IH]; intros d; [unfold size_of; cbn; lia|]. cbn [foldl].
    specialize (IH (if c then d + 1 else d)). unfold size_of in *. cbn [length]. destruct c; lia. }
  assert (∀ g d, Forall (λ row, size_of row = n) g → d <= foldl (λ dark row,
    foldl (λ dark (color : bool), if color then dark + 1 else dark) dark row) d g <= d + n * size_of g) as Hg.
  { clear g Hn Hr. intros g. induction g as [|row g IH]; intros d Hr; [unfold size_of; cbn [foldl length]; lia|].
    apply Forall_cons in Hr as [Hrw Hr]. cbn [foldl]. specialize (Hrow row d). specialize (IH
      (foldl (λ dark (color : bool), if color then dark + 1 else dark) d row) Hr). unfold size_of in *. cbn [length]. lia. }
  specialize (Hg g 0 Hr). rewrite Hn in Hg. lia.
Qed.

(** ** The score *)

Lemma blockPenalty_ok q y r x : ready q → 0 <= y < size q - 1 → 0 <= x < size q - 1 →
  ∃ r', blockPenalty q y r x = Ok r' ∧ r <= r' <= r + 3.
Proof.
  intros Hq Hy Hx. unfold blockPenalty.
  destruct (module_ok q x y Hq) as [b0 ->]; [split; cbn; lia|]. destruct (module_ok q (x + 1) y Hq) as [b1 ->]; [split; cbn; lia|].
  destruct (module_ok q x (y + 1) Hq) as [b2 ->]; [split; cbn; lia|].
  destruct (module_ok q (x + 1) (y + 1) Hq) as [b3 ->]; [split; cbn; lia|]. rewrite !bind_Ok.
  eexists. split; [done|]. change PENALTY_N2 with 3. case_match; lia.
Qed.

(** The share of dark modules is never exactly a half, because the size is odd. *)
Lemma balance_bounds n dark : 1 <= n → Z.odd n = true → 0 <= dark <= n * n →
  0 <= (Z.abs (dark * 20 - n * n * 10) + n * n - 1) / (n * n) - 1 <= 9.
Proof.
  intros Hn Hodd Hd. set (t := n * n) in *. assert (1 <= t) as Ht by nia.
  assert (Z.odd t = true) as Hto by (unfold t; by rewrite Z.odd_mul, Hodd).
  apply Z.odd_spec in Hto as [k Hk]. split.
  - assert (1 <= (Z.abs (dark * 20 - t * 10) + t - 1) / t); [|lia]. apply Z.div_le_lower_bound; lia.
  - assert ((Z.abs (dark * 20 - t * 10) + t - 1) / t < 11); [|lia]. apply Z.div_lt_upper_bound; lia.
Qed.

Lemma getPenaltyScore_ok q : ready q → ∃ s, getPenaltyScore q = Ok s ∧ 0 <= s <= 2568888.
Proof.
  intros Hq. pose proof Hq as (Hv & Hs & Hm & _). assert (21 <= size q <= 177) as Hn by lia. unfold getPenaltyScore.
  destruct (sum_loop (range 0 (size q)) (λ r y, scanLine q (λ x, module q x y) r) (21 * size q + 101) 0) as (r1 & -> & H1).
  { intros r y Hy%elem_of_range. destruct (scanLine_ok q (λ x, module q x y) r) as (r' & Hr' & Hb); [lia| |by exists r'; split; [|lia]].
    intros x Hx. apply module_ok; [done|]. by split. }
  rewrite bind_Ok.
  destruct (sum_loop (range 0 (size q)) (λ r x, scanLine q (λ y, module q x y) r) (21 * size q + 101) r1) as (r2 & -> & H2).
  { intros r x Hx%elem_of_range. destruct (scanLine_ok q (λ y, module q x y) r) as (r' & Hr' & Hb); [lia| |by exists r'; split; [|lia]].
    intros y Hy. apply module_ok; [done|]. by split. }
  rewrite bind_Ok.
  destruct (sum_loop (range 0 (size q - 1)) (λ r y, loop (range 0 (size q - 1)) (blockPenalty q y) r) (3 * (size q - 1)) r2)
    as (r3 & -> & H3).
  { intros r y Hy%elem_of_range. destruct (sum_loop (range 0 (size q - 1)) (blockPenalty q y) 3 r) as (r' & Hr' & Hb).
    - intros r0 x Hx%elem_of_range. by apply blockPenalty_ok.
    - rewrite size_range, Z.sub_0_r in Hb by lia. by exists r'. }
  rewrite bind_Ok. rewrite size_range, Z.sub_0_r in H1, H2, H3 by lia. cbv zeta.
  pose proof (balance_bounds (size q) (countDark (modules q))) as Hk. specialize (Hk ltac:(lia)).
  specialize (Hk ltac:(rewrite Hs; by rewrite Z.odd_add, Z.odd_mul)). specialize (Hk (countDark_bounds _ _ Hm)).
  set (k := _ / (size q * size q) - 1) in *. rewrite assert_ok by lia. change PENALTY_N4 with 10.
  assert (0 <= r3 + k * 10 <= 2568888) as Hb.
  { clear - H1 H2 H3 Hk Hn. assert ((21 * size q + 101) * size q <= 3818 * 177) by nia.
    assert (3 * (size q - 1) * (size q - 1) <= 3 * 176 * 176) by nia. lia. }
  rewrite assert_ok by lia. by eexists.
Qed.
