(* ===== verification/QrBlocks.v ===== *)
(** * Blocks and interleaving

    The codewords of a QR code are split into blocks, each with its own error
    correction, and interleaved.  The reader of the blocks follows the standard: it
    takes the codewords of a block from their places in the sequence. *)

From stdpp Require Import prelude strings list list_numbers.
From Stdlib Require Import ZArith Lia.
From S2P Require Import Prelude Cxx ReedSolomon QrSegment QrCode QrMatrix.

Local Open Scope Z_scope.

(** ** The block structure *)

Record blocks := mkBlocks {
  numBlocks : Z;       (** the number of blocks *)
  eccLen : Z;          (** error correction codewords of a block *)
  longBlocks : Z;      (** the number of blocks with one more data codeword *)
  shortData : Z        (** data codewords of the other blocks *)
}.

Definition blocksOf (v : Z) (ecl : Ecc) : blocks :=
  let nb := entry NUM_ERROR_CORRECTION_BLOCKS ecl v in
  let ecc := entry ECC_CODEWORDS_PER_BLOCK ecl v in
  let codewords := match getNumRawDataModules v with Ok raw => raw / 8 | _ => 0 end in
  mkBlocks nb ecc (codewords mod nb) (codewords / nb - ecc).

Definition shortBlocks (b : blocks) : Z := numBlocks b - longBlocks b.

(** The data codewords and all codewords. *)
Definition dataLen (b : blocks) : Z := numBlocks b * shortData b + longBlocks b.
Definition totalLen (b : blocks) : Z := dataLen b + numBlocks b * eccLen b.

(** The position of a block in the data, and its length. *)
Definition blockStart (b : blocks) (j : Z) : Z := j * shortData b + Z.max 0 (j - shortBlocks b).
Definition blockLen (b : blocks) (j : Z) : Z := shortData b + (if j <? shortBlocks b then 0 else 1).

Definition dataBlock (b : blocks) (data : list Z) (j : Z) : list Z :=
  take (Z.to_nat (blockLen b j)) (drop (Z.to_nat (blockStart b j)) data).

(** *** Reading *)

Definition readBlock (b : blocks) (cw : list Z) (j : Z) : list Z :=
  map (λ i, cw !!! Z.to_nat (i * numBlocks b + j)) (range 0 (shortData b)) ++
  (if j <? shortBlocks b then [] else [cw !!! Z.to_nat (shortData b * numBlocks b + (j - shortBlocks b))]).

Definition readEcc (b : blocks) (cw : list Z) (j : Z) : list Z :=
  map (λ i, cw !!! Z.to_nat (dataLen b + i * numBlocks b + j)) (range 0 (eccLen b)).

Definition deinterleave (b : blocks) (cw : list Z) : list Z := range 0 (numBlocks b) ≫= readBlock b cw.

(** ** Facts for all versions and levels *)

Lemma levels_decide (P : Z → Ecc → Prop) `{∀ v ecl, Decision (P v ecl)} v ecl : 1 <= v <= 40 →
  forallb (λ v, forallb (λ ecl, bool_decide (P v ecl)) eccs) versions = true → P v ecl.
Proof.
  intros Hv HP. pose proof (versions_spec (λ v, forallb (λ ecl, bool_decide (P v ecl)) eccs) v Hv HP) as H'.
  cbv beta in H'. rewrite forallb_forall in H'. specialize (H' ecl (elem_of_eccs ecl)). by apply bool_decide_eq_true in H'.
Qed.

Definition goodBlocks (b : blocks) : Prop :=
  1 <= numBlocks b ∧ 1 <= eccLen b ∧ 1 <= shortData b ∧ 0 <= longBlocks b < numBlocks b ∧
  shortData b + 1 + eccLen b <= 255.

Lemma blocksOf_good v ecl : 1 <= v <= 40 → goodBlocks (blocksOf v ecl).
Proof. intros Hv. apply (levels_decide (λ v ecl, goodBlocks (blocksOf v ecl)) v ecl Hv). vm_compute. reflexivity. Qed.

Lemma raw_ok v : 1 <= v <= 40 → ∃ raw, getNumRawDataModules v = Ok raw ∧ 208 <= raw <= 29648.
Proof.
  intros Hv. assert (∃ raw, getNumRawDataModules v = Ok raw) as [raw Hraw].
  { pose proof (versions_spec (λ v, match getNumRawDataModules v with Ok _ => true | _ => false end) v Hv eq_refl) as H.
    cbn beta in H. destruct (getNumRawDataModules v); [eauto|done..]. }
  exists raw. split; [done|]. unfold getNumRawDataModules in Hraw. case_match; [done|]. cbv zeta in Hraw.
  apply bind_ok in Hraw as ([] & Ha & Hr). injection Hr as <-. unfold assert_that in Ha. case_match; [lia|done].
Qed.

Lemma blocksOf_total v ecl raw : 1 <= v <= 40 → getNumRawDataModules v = Ok raw →
  totalLen (blocksOf v ecl) = raw / 8 ∧ getNumDataCodewords v ecl = Ok (dataLen (blocksOf v ecl)).
Proof.
  intros Hv Hraw. pose proof (blocksOf_good v ecl Hv) as (Hnb & _). revert Hnb.
  unfold totalLen, dataLen, getNumDataCodewords, blocksOf. rewrite Hraw. cbn [numBlocks eccLen longBlocks shortData].
  rewrite bind_Ok. set (nb := entry NUM_ERROR_CORRECTION_BLOCKS ecl v). set (ecc := entry ECC_CODEWORDS_PER_BLOCK ecl v).
  intros Hnb. pose proof (Z.div_mod (raw / 8) nb ltac:(lia)). split; [|unfold mret, exc_ret; f_equal]; lia.
Qed.

(** ** Splitting *)

Section Split.
  Context (b : blocks) (Hb : goodBlocks b) (data rsDiv : list Z) (Hlen : size_of data = dataLen b).

Lemma blockStart_succ j : blockStart b (j + 1) = blockStart b j + blockLen b j.
Proof. unfold blockStart, blockLen. destruct (Z.ltb_spec j (shortBlocks b)); lia. Qed.

Lemma blockStart_bounds j : 0 <= j < numBlocks b → 0 <= blockStart b j ∧ 1 <= blockLen b j ∧
  blockStart b j + blockLen b j <= size_of data.
Proof.
  destruct Hb as (Hnb & _ & Hs & Hl & _). rewrite Hlen. intros Hj. unfold blockStart, blockLen, dataLen, shortBlocks in *.
  destruct (Z.ltb_spec j (numBlocks b - longBlocks b)).
  - assert ((j + 1) * shortData b <= numBlocks b * shortData b) by nia. nia.
  - assert ((j + 1) * shortData b <= numBlocks b * shortData b) by nia. nia.
Qed.

Lemma size_dataBlock j : 0 <= j < numBlocks b → size_of (dataBlock b data j) = blockLen b j.
Proof.
  intros Hj. pose proof (blockStart_bounds j Hj). unfold dataBlock, size_of in *. rewrite length_take, length_drop. lia.
Qed.

(** The blocks make up the data. *)
Lemma dataBlocks_concat m : 0 <= m <= numBlocks b →
  (range 0 m ≫= dataBlock b data) = take (Z.to_nat (blockStart b m)) data.
Proof.
  intros Hm. assert (∃ k, m = Z.of_nat k) as [k ->] by (exists (Z.to_nat m); lia). revert Hm.
  induction k as [|k IH]; intros Hm.
  - destruct Hb as (Hnb & _ & Hs & Hl & _). unfold blockStart, shortBlocks.
    replace (Z.to_nat _) with 0%nat by lia. done.
  - rewrite Nat2Z.inj_succ, <- Z.add_1_r, range_snoc, bind_app, IH by lia. cbn. rewrite app_nil_r.
    pose proof (blockStart_bounds (Z.of_nat k) ltac:(lia)) as (H0 & H1 & H2). unfold dataBlock.
    rewrite blockStart_succ, Z2Nat.inj_add by lia. rewrite take_take_drop. done.
Qed.

Lemma dataBlocks_all : (range 0 (numBlocks b) ≫= dataBlock b data) = data.
Proof.
  destruct Hb as (Hnb & _ & Hs & Hl & _). rewrite dataBlocks_concat by lia. apply take_ge.
  unfold size_of, dataLen, blockStart, shortBlocks in *. lia.
Qed.

(** A block with its padding and its error correction. *)
Definition fullBlock (j : Z) : list Z :=
  (if j <? shortBlocks b then dataBlock b data j ++ [0] else dataBlock b data j) ++
  reedSolomonComputeRemainder (dataBlock b data j) rsDiv.

Lemma makeBlocks_spec m : 0 <= m <= numBlocks b →
  foldl (makeBlock data rsDiv (shortData b + eccLen b) (eccLen b) (shortBlocks b)) ([], 0) (range 0 m) =
  (map fullBlock (range 0 m), blockStart b m).
Proof.
  intros Hm. assert (∃ k, m = Z.of_nat k) as [k ->] by (exists (Z.to_nat m); lia). revert Hm.
  induction k as [|k IH]; intros Hm.
  - destruct Hb as (Hnb & _ & Hs & Hl & _). change (range 0 (Z.of_nat 0)) with (@nil Z).
    cbn [foldl map]. f_equal. unfold blockStart, shortBlocks. lia.
  - rewrite Nat2Z.inj_succ, <- Z.add_1_r, range_snoc, foldl_app, map_app, IH by lia. cbn [foldl map]. unfold makeBlock.
    rewrite Z.add_simpl_r. fold (blockLen b (Z.of_nat k)). fold (dataBlock b data (Z.of_nat k)).
    rewrite size_dataBlock, blockStart_succ by lia. unfold fullBlock at 3. done.
Qed.

Lemma size_fullBlock j : 0 <= j < numBlocks b → size_of rsDiv = eccLen b →
  size_of (fullBlock j) = shortData b + 1 + eccLen b.
Proof.
  intros Hj Hdiv. pose proof (size_dataBlock j Hj) as Hd. unfold fullBlock, size_of, blockLen in *.
  rewrite length_app, length_remainder. case_match; rewrite ?length_app; cbn [length]; lia.
Qed.

(** What the block holds at each index. *)
Lemma fullBlock_data j i : 0 <= j < numBlocks b → 0 <= i < blockLen b j →
  fullBlock j !! Z.to_nat i = dataBlock b data j !! Z.to_nat i.
Proof.
  intros Hj Hi. pose proof (size_dataBlock j Hj) as Hd. unfold size_of in Hd. unfold fullBlock.
  rewrite lookup_app_l by (case_match; rewrite ?length_app; lia). case_match; [|done]. rewrite lookup_app_l by lia. done.
Qed.

Lemma fullBlock_ecc j i : 0 <= j < numBlocks b → 0 <= i →
  fullBlock j !! Z.to_nat (shortData b + 1 + i) = reedSolomonComputeRemainder (dataBlock b data j) rsDiv !! Z.to_nat i.
Proof.
  intros Hj Hi. destruct Hb as (_ & _ & Hs & _). pose proof (size_dataBlock j Hj) as Hd. unfold size_of, blockLen in Hd.
  unfold fullBlock. case_match; (rewrite lookup_app_r; rewrite ?length_app; cbn [length]; [f_equal; lia|lia]).
Qed.

End Split.

(** ** Interleaving *)

Lemma bind_one {A B} (l : list A) (f : A → B) : (l ≫= λ a, [f a]) = map f l.
Proof. induction l as [|a l IH]; [done|]. cbn. by f_equal. Qed.

Lemma bind_none {A B} (l : list A) (f : A → list B) : (∀ a, a ∈ l → f a = []) → (l ≫= f) = [].
Proof.
  induction l as [|a l IH]; intros H; [done|]. cbn. rewrite H by left. apply IH. intros; apply H; by right.
Qed.

Lemma bind_ext_in {A B} (l : list A) (f g : A → list B) : (∀ a, a ∈ l → f a = g a) → (l ≫= f) = (l ≫= g).
Proof.
  induction l as [|a l IH]; intros H; [done|]. cbn. rewrite H by left. f_equal. apply IH. intros; apply H; by right.
Qed.

(** Rows of the same width, one after the other. *)
Lemma size_rows (f : Z → Z → Z) lo hi w : lo <= hi → 0 <= w →
  size_of (range lo hi ≫= λ i, map (f i) (range 0 w)) = (hi - lo) * w.
Proof.
  intros Hlo Hw. pose proof (size_range lo hi Hlo) as Hsz. revert Hsz. generalize (range lo hi). intros l Hsz. rewrite <- Hsz.
  clear Hsz. unfold size_of. induction l as [|i l IH]; [done|]. cbn [mbind list_bind] in *. rewrite length_app, length_map.
  pose proof (size_range 0 w Hw) as Hr. unfold size_of in Hr. cbn [length]. lia.
Qed.

Lemma lookup_rows (f : Z → Z → Z) lo hi w i j : lo <= i < hi → 0 <= j < w →
  (range lo hi ≫= λ i, map (f i) (range 0 w)) !! Z.to_nat ((i - lo) * w + j) = Some (f i j).
Proof.
  intros Hi Hj. rewrite (range_app lo i hi) by lia. rewrite bind_app.
  pose proof (size_rows f lo i w ltac:(lia) ltac:(lia)) as Hsz. unfold size_of in Hsz.
  rewrite lookup_app_r by lia. replace (Z.to_nat ((i - lo) * w + j) - _)%nat with (Z.to_nat j) by lia.
  rewrite (range_cons i hi) by lia. rewrite bind_cons.
  pose proof (size_range 0 w ltac:(lia)) as Hr. unfold size_of in Hr. rewrite lookup_app_l by (rewrite length_map; lia).
  rewrite list_lookup_fmap, lookup_range by lia. cbn. do 2 f_equal. lia.
Qed.

Section Interleave.
  Context (b : blocks) (Hb : goodBlocks b) (data rsDiv : list Z) (Hlen : size_of data = dataLen b).
  Context (Hdiv : size_of rsDiv = eccLen b).

Definition blockByte (i j : Z) : Z := fullBlock b data rsDiv j !!! Z.to_nat i.

(** The sequence of codewords: the data codewords all blocks have, those of the long
    blocks, and the error correction. *)
Definition interleaved : list Z :=
  (range 0 (shortData b) ≫= λ i, map (blockByte i) (range 0 (numBlocks b))) ++
  map (blockByte (shortData b)) (range (shortBlocks b) (numBlocks b)) ++
  (range (shortData b + 1) (shortData b + 1 + eccLen b) ≫= λ i, map (blockByte i) (range 0 (numBlocks b))).

Lemma interleave_ok :
  interleave (map (fullBlock b data rsDiv) (range 0 (numBlocks b))) (shortData b) (shortBlocks b) = Ok interleaved.
Proof.
  pose proof Hb as (Hnb & He & Hs & Hl & _). unfold interleave.
  pose proof (λ j Hj, size_fullBlock b Hb data rsDiv Hlen j Hj Hdiv) as Hfull.
  set (bl := map (fullBlock b data rsDiv) (range 0 (numBlocks b))).
  assert (size_of bl = numBlocks b) as Hbl by (unfold bl, size_of; rewrite length_map; fold (size_of (range 0 (numBlocks b))); rewrite size_range; lia).
  assert (∀ j, 0 <= j < numBlocks b → at_ bl j = Ok (fullBlock b data rsDiv j)) as Hat.
  { intros j Hj. apply at_ok. split; [lia|]. unfold bl. rewrite list_lookup_fmap, lookup_range, Z.add_0_l, Z2Nat.id by lia. done. }
  rewrite Hat, bind_Ok, Hfull, Hbl by lia.
  rewrite (append_loop _ _ (λ i, range 0 (numBlocks b) ≫= λ j,
    if negb (i =? shortData b) || (shortBlocks b <=? j) then [blockByte i j] else [])).
  - f_equal. cbn [app]. unfold interleaved.
    rewrite (range_app 0 (shortData b) (shortData b + 1 + eccLen b)),
      (range_app (shortData b) (shortData b + 1) (shortData b + 1 + eccLen b)), !bind_app by lia. f_equal; [|f_equal].
    + apply bind_ext_in. intros i Hi%elem_of_range. rewrite <- bind_one. apply bind_ext_in. intros j _. case_match; [done|lia].
    + rewrite range_snoc, (range_nil _ (shortData b)) by lia. cbn. rewrite app_nil_r, <- bind_one.
      rewrite (range_app 0 (shortBlocks b) (numBlocks b)), bind_app by (unfold shortBlocks; lia).
      rewrite bind_none by (intros j Hj%elem_of_range; case_match; [lia|done]). cbn.
      apply bind_ext_in. intros j Hj%elem_of_range. case_match; [done|lia].
    + apply bind_ext_in. intros i Hi%elem_of_range. rewrite <- bind_one. apply bind_ext_in. intros j _. case_match; [done|lia].
  - intros acc i Hi%elem_of_range. apply append_loop. intros acc' j Hj%elem_of_range.
    case_match; [|by rewrite app_nil_r]. rewrite Hat, bind_Ok by lia. unfold blockByte.
    rewrite (proj2 (at_ok _ i (fullBlock b data rsDiv j !!! Z.to_nat i))), bind_Ok; [done|]. split; [lia|].
    apply list_lookup_lookup_total_lt. specialize (Hfull j ltac:(lia)). unfold size_of in Hfull. lia.
Qed.

Lemma size_interleaved : size_of interleaved = totalLen b.
Proof.
  pose proof Hb as (Hnb & He & Hs & Hl & _). unfold interleaved, totalLen, dataLen.
  pose proof (size_rows blockByte 0 (shortData b) (numBlocks b) ltac:(lia) ltac:(lia)) as HA.
  pose proof (size_rows blockByte (shortData b + 1) (shortData b + 1 + eccLen b) (numBlocks b) ltac:(lia) ltac:(lia)) as HC.
  pose proof (size_range (shortBlocks b) (numBlocks b) ltac:(unfold shortBlocks; lia)) as HB. unfold size_of, shortBlocks in *.
  rewrite !length_app, length_map. lia.
Qed.

(** The places of the codewords. *)
Lemma interleaved_data i j : 0 <= i < shortData b → 0 <= j < numBlocks b →
  interleaved !!! Z.to_nat (i * numBlocks b + j) = blockByte i j.
Proof.
  intros Hi Hj. apply list_lookup_total_correct. unfold interleaved.
  pose proof (size_rows blockByte 0 (shortData b) (numBlocks b) ltac:(lia) ltac:(lia)) as HA. unfold size_of in HA.
  rewrite lookup_app_l by nia. pose proof (lookup_rows blockByte 0 (shortData b) (numBlocks b) i j Hi Hj) as H.
  by rewrite Z.sub_0_r in H.
Qed.

Lemma interleaved_extra j : shortBlocks b <= j < numBlocks b →
  interleaved !!! Z.to_nat (shortData b * numBlocks b + (j - shortBlocks b)) = blockByte (shortData b) j.
Proof.
  intros Hj. pose proof Hb as (Hnb & He & Hs & Hl & _). apply list_lookup_total_correct. unfold interleaved.
  pose proof (size_rows blockByte 0 (shortData b) (numBlocks b) ltac:(lia) ltac:(lia)) as HA. unfold size_of in HA.
  pose proof (size_range (shortBlocks b) (numBlocks b) ltac:(unfold shortBlocks; lia)) as HB. unfold size_of in HB.
  rewrite lookup_app_r by nia. rewrite lookup_app_l by (rewrite length_map; nia).
  rewrite list_lookup_fmap, lookup_range by nia. cbn [fmap option_fmap option_map]. do 2 f_equal. nia.
Qed.

Lemma interleaved_ecc i j : 0 <= i < eccLen b → 0 <= j < numBlocks b →
  interleaved !!! Z.to_nat (dataLen b + i * numBlocks b + j) = blockByte (shortData b + 1 + i) j.
Proof.
  intros Hi Hj. pose proof Hb as (Hnb & He & Hs & Hl & _). apply list_lookup_total_correct. unfold interleaved, dataLen.
  pose proof (size_rows blockByte 0 (shortData b) (numBlocks b) ltac:(lia) ltac:(lia)) as HA. unfold size_of in HA.
  pose proof (size_range (shortBlocks b) (numBlocks b) ltac:(unfold shortBlocks; lia)) as HB. unfold size_of in HB.
  assert (shortBlocks b = numBlocks b - longBlocks b) as HS by done. assert (0 <= i * numBlocks b) by nia.
  assert (0 <= shortData b * numBlocks b) by nia.
  rewrite lookup_app_r by nia. rewrite lookup_app_r by (rewrite length_map; nia). rewrite length_map.
  pose proof (lookup_rows blockByte (shortData b + 1) (shortData b + 1 + eccLen b) (numBlocks b)
    (shortData b + 1 + i) j ltac:(lia) Hj) as Hlk.
  rewrite <- Hlk. f_equal. replace (shortData b + 1 + i - (shortData b + 1)) with i by lia. lia.
Qed.

Lemma total_range (l : list Z) : map (λ i, l !!! Z.to_nat i) (range 0 (size_of l)) = l.
Proof.
  apply list_eq. intros i. rewrite list_lookup_fmap. destruct (decide (i < length l)%nat) as [Hi|Hi].
  - rewrite lookup_range by (unfold size_of; lia). cbn [fmap option_fmap option_map].
    rewrite Z.add_0_l, Nat2Z.id. symmetry. by apply list_lookup_lookup_total_lt.
  - rewrite !lookup_ge_None_2; [done|lia|]. pose proof (size_range 0 (size_of l) ltac:(unfold size_of; lia)) as Hr.
    unfold size_of in *. lia.
Qed.

Lemma readBlock_ok j : 0 <= j < numBlocks b → readBlock b interleaved j = dataBlock b data j.
Proof.
  intros Hj. pose proof Hb as (Hnb & He & Hs & Hl & _). pose proof (size_dataBlock b Hb data Hlen j Hj) as Hsz.
  rewrite <- (total_range (dataBlock b data j)), Hsz. unfold readBlock.
  assert (∀ i, 0 <= i < blockLen b j → blockByte i j = dataBlock b data j !!! Z.to_nat i) as Hbyte.
  { intros i Hi. unfold blockByte. rewrite !list_lookup_total_alt.
    by rewrite (fullBlock_data b Hb data rsDiv Hlen j i Hj Hi). }
  unfold blockLen in *. destruct (Z.ltb_spec j (shortBlocks b)).
  - rewrite app_nil_r, Z.add_0_r in *. apply map_ext_in. intros i Hi. rewrite <- list_elem_of_In in Hi. apply elem_of_range in Hi.
    rewrite interleaved_data by lia. apply Hbyte. lia.
  - rewrite range_snoc, map_app by lia. f_equal.
    + apply map_ext_in. intros i Hi. rewrite <- list_elem_of_In in Hi. apply elem_of_range in Hi.
      rewrite interleaved_data by lia. apply Hbyte. lia.
    + cbn [map]. f_equal. rewrite interleaved_extra by lia. apply Hbyte. lia.
Qed.

Lemma readEcc_ok j : 0 <= j < numBlocks b →
  readEcc b interleaved j = reedSolomonComputeRemainder (dataBlock b data j) rsDiv.
Proof.
  intros Hj. set (ecc := reedSolomonComputeRemainder (dataBlock b data j) rsDiv).
  assert (size_of ecc = eccLen b) as Hsz by (unfold ecc, size_of in *; by rewrite length_remainder).
  rewrite <- (total_range ecc), Hsz. apply map_ext_in. intros i Hi. rewrite <- list_elem_of_In in Hi. apply elem_of_range in Hi.
  rewrite interleaved_ecc by lia. unfold blockByte. rewrite !list_lookup_total_alt.
  by rewrite (fullBlock_ecc b Hb data rsDiv Hlen j i Hj) by lia.
Qed.

Lemma deinterleave_ok : deinterleave b interleaved = data.
Proof.
  transitivity (range 0 (numBlocks b) ≫= dataBlock b data); [|by apply dataBlocks_all]. apply bind_ext_in. intros j Hj%elem_of_range. by apply readBlock_ok.
Qed.

Lemma bytes_interleaved : Forall byte data → Forall byte rsDiv → Forall byte interleaved.
Proof.
  intros Hd Hr. pose proof Hb as (Hnb & He & Hs & Hl & _).
  assert (∀ i j, 0 <= i < shortData b + 1 + eccLen b → 0 <= j < numBlocks b → byte (blockByte i j)) as Hbyte.
  { intros i j Hi Hj. pose proof (size_fullBlock b Hb data rsDiv Hlen j Hj Hdiv) as Hsz. unfold size_of in Hsz.
    assert (Forall byte (fullBlock b data rsDiv j)) as Hf.
    { assert (Forall byte (dataBlock b data j)) as Hdb by (apply Forall_take, Forall_drop; done). unfold fullBlock.
      apply Forall_app. split; [|by apply bytes_remainder]. case_match; [|done].
      apply Forall_app. split; [done|]. constructor; [apply byte_0|constructor]. }
    unfold blockByte. apply (Forall_lookup_total_1 _ _ _ Hf). lia. }
  unfold interleaved. rewrite !Forall_app. split; [|split].
  - apply Forall_forall. intros x (i & Hx & Hi%elem_of_range)%list_elem_of_bind.
    apply list_elem_of_fmap in Hx as (j & -> & Hj%elem_of_range). apply Hbyte; lia.
  - apply Forall_forall. intros x Hx. apply list_elem_of_fmap in Hx as (j & -> & Hj%elem_of_range).
    unfold shortBlocks in Hj. apply Hbyte; lia.
  - apply Forall_forall. intros x (i & Hx & Hi%elem_of_range)%list_elem_of_bind.
    apply list_elem_of_fmap in Hx as (j & -> & Hj%elem_of_range). apply Hbyte; lia.
Qed.

End Interleave.

(** ** The codewords of a symbol *)

Lemma addEccAndInterleave_ok q data : 1 <= version q <= 40 →
  let b := blocksOf (version q) (errorCorrectionLevel q) in
  size_of data = dataLen b →
  ∃ rsDiv, reedSolomonComputeDivisor (eccLen b) = Ok rsDiv ∧ size_of rsDiv = eccLen b ∧ Forall byte rsDiv ∧
    addEccAndInterleave q data = Ok (interleaved b data rsDiv).
Proof.
  intros Hv b Hlen. pose proof (blocksOf_good (version q) (errorCorrectionLevel q) Hv) as Hb. fold b in Hb.
  destruct (raw_ok (version q) Hv) as (raw & Hraw & _).
  destruct (blocksOf_total _ (errorCorrectionLevel q) raw Hv Hraw) as [Htot Hdata]. fold b in Htot, Hdata.
  assert (∃ rsDiv, reedSolomonComputeDivisor (eccLen b) = Ok rsDiv) as [rsDiv Hdiv].
  { destruct Hb as (_ & He & Hs & _ & H255). unfold reedSolomonComputeDivisor. case_match; [lia|]. by eexists. }
  pose proof (divisor_spec _ _ Hdiv) as (Hdl & _ & Hdb & _). pose proof Hb as (Hnb & He & Hs & Hl & H255).
  assert (size_of rsDiv = eccLen b) as Hsz by (unfold size_of; lia). exists rsDiv. split; [done|]. split; [done|]. split; [done|].
  unfold addEccAndInterleave. rewrite Hdata, bind_Ok, Hlen, Z.eqb_refl. cbn [negb]. cbv zeta. rewrite Hraw, bind_Ok.
  change (entry NUM_ERROR_CORRECTION_BLOCKS (errorCorrectionLevel q) (version q)) with (numBlocks b).
  change (entry ECC_CODEWORDS_PER_BLOCK (errorCorrectionLevel q) (version q)) with (eccLen b).
  assert (numBlocks b - (raw / 8) mod numBlocks b = shortBlocks b) as ->.
  { unfold shortBlocks, b, blocksOf. by rewrite Hraw. }
  assert (raw / 8 / numBlocks b = shortData b + eccLen b) as ->.
  { unfold b, blocksOf. rewrite Hraw. cbn [numBlocks eccLen shortData]. by rewrite Z.sub_add. }
  rewrite Hdiv, bind_Ok, makeBlocks_spec by (done || lia). rewrite Z.add_simpl_r.
  rewrite interleave_ok, bind_Ok by done. rewrite size_interleaved, Htot by done. by rewrite assert_ok by lia.
Qed.

(** The codewords of a block, as they are read from a symbol. *)
Definition readCodeword (b : blocks) (cw : list Z) (j : Z) : list Z := readBlock b cw j ++ readEcc b cw j.

Lemma length_readCodeword b cw j : goodBlocks b → size_of (readCodeword b cw j) = blockLen b j + eccLen b.
Proof.
  intros (Hnb & He & Hs & Hl & _). unfold readCodeword, readBlock, readEcc, blockLen, size_of.
  pose proof (size_range 0 (shortData b) ltac:(lia)) as H1. pose proof (size_range 0 (eccLen b) ltac:(lia)) as H2.
  unfold size_of in *. rewrite !length_app, !length_map. case_match; cbn [length]; lia.
Qed.

(** The codewords of a symbol: they are made without an exception from any data of
    the right length, number exactly what the symbol holds, give the data back when
    read in the order of the standard, and each block is a polynomial that the powers
    of 2 up to the number of its error correction codewords are roots of. *)
Theorem codewords_roundtrip q data raw : 1 <= version q <= 40 → Forall byte data →
  size_of data = dataLen (blocksOf (version q) (errorCorrectionLevel q)) →
  getNumRawDataModules (version q) = Ok raw →
  ∃ cw, addEccAndInterleave q data = Ok cw ∧ Forall byte cw ∧ size_of cw = raw / 8 ∧
    let b := blocksOf (version q) (errorCorrectionLevel q) in
    deinterleave b cw = data ∧
    ∀ j, 0 <= j < numBlocks b → valid_block (Z.to_nat (eccLen b)) (readCodeword b cw j).
Proof.
  intros Hv Hd Hlen Hraw. destruct (addEccAndInterleave_ok q data Hv Hlen) as (rsDiv & Hdiv & Hsz & Hrb & Hadd).
  pose proof (blocksOf_good _ (errorCorrectionLevel q) Hv) as Hb.
  exists (interleaved (blocksOf (version q) (errorCorrectionLevel q)) data rsDiv). split; [done|].
  split; [by apply bytes_interleaved|]. split.
  { rewrite size_interleaved by done. by apply blocksOf_total. }
  cbv zeta. split; [by apply deinterleave_ok|]. intros j Hj. unfold readCodeword.
  rewrite readBlock_ok, readEcc_ok by done.
  replace (Z.to_nat (eccLen _)) with (length rsDiv) by (unfold size_of in Hsz; lia).
  apply (remainder_valid _ _ _ Hdiv). by apply Forall_take, Forall_drop.
Qed.

Lemma codewords_roundtrip_witness :
  ∃ cw, addEccAndInterleave (mkQr 1 21 HIGH 0 [] []) [65; 66; 67; 68; 69; 70; 71; 72; 73] = Ok cw ∧ size_of cw = 26.
Proof.
  destruct (codewords_roundtrip (mkQr 1 21 HIGH 0 [] []) [65; 66; 67; 68; 69; 70; 71; 72; 73] 208) as (cw & H1 & _ & H2 & _).
  - cbn. lia.
  - repeat constructor; lia.
  - vm_compute. reflexivity.
  - vm_compute. reflexivity.
  - exists cw. split; [exact H1|exact H2].
Defined.

(** [C20] A symbol survives damage: whatever codewords are read from it, there is at most
    one content whose symbol agrees with them, block by block, in all but half as many
    codewords as the block has for error correction.  So a symbol damaged no more than
    that determines its content. *)
Theorem symbol_correctable q data data' cw cw' received :
  1 <= version q <= 40 → Forall byte data → Forall byte data' →
  addEccAndInterleave q data = Ok cw → addEccAndInterleave q data' = Ok cw' →
  let b := blocksOf (version q) (errorCorrectionLevel q) in
  (∀ j, 0 <= j < numBlocks b →
     2 * Z.of_nat (distance (readCodeword b received j) (readCodeword b cw j)) <= eccLen b ∧
     2 * Z.of_nat (distance (readCodeword b received j) (readCodeword b cw' j)) <= eccLen b) →
  data = data'.
Proof.
  intros Hv Hd Hd' Ha Ha' b Hdist. pose proof (blocksOf_good _ (errorCorrectionLevel q) Hv) as Hb. fold b in Hb.
  assert (∀ d c, addEccAndInterleave q d = Ok c → size_of d = dataLen b) as Hsize.
  { intros d c Hadd. unfold addEccAndInterleave in Hadd. destruct (raw_ok _ Hv) as (raw & Hraw & _).
    rewrite (proj2 (blocksOf_total _ (errorCorrectionLevel q) raw Hv Hraw)), bind_Ok in Hadd. fold b in Hadd.
    destruct (Z.eqb_spec (size_of d) (dataLen b)); [done|]. done. }
  pose proof (Hsize _ _ Ha) as Hl. pose proof (Hsize _ _ Ha') as Hl'.
  destruct (addEccAndInterleave_ok q data Hv Hl) as (rsDiv & Hdiv & Hsz & Hrb & Hadd).
  destruct (addEccAndInterleave_ok q data' Hv Hl') as (rsDiv' & Hdiv' & Hsz' & Hrb' & Hadd'). fold b in Hdiv, Hsz, Hadd, Hdiv', Hsz', Hadd'.
  assert (rsDiv' = rsDiv) as -> by congruence. rewrite Ha in Hadd. rewrite Ha' in Hadd'. injection Hadd as ->. injection Hadd' as ->.
  rewrite <- (dataBlocks_all b Hb data Hl), <- (dataBlocks_all b Hb data' Hl'). apply bind_ext_in. intros j Hj%elem_of_range.
  destruct (Hdist j Hj) as [H1 H2]. unfold readCodeword in H1 at 2, H2 at 2.
  rewrite readBlock_ok, readEcc_ok in H1, H2 by done.
  pose proof (size_dataBlock b Hb data Hl j Hj) as Hs1. pose proof (size_dataBlock b Hb data' Hl' j Hj) as Hs2.
  pose proof (length_readCodeword b received j Hb) as Hs3. pose proof Hb as (_ & _ & Hs & _ & H255). unfold blockLen, size_of in *.
  apply (block_correctable (eccLen b) rsDiv _ _ (readCodeword b received j)); try done; try lia.
  - by apply Forall_take, Forall_drop.
  - by apply Forall_take, Forall_drop.
  - case_match; lia.
Qed.

Lemma symbol_correctable_witness : [65; 66; 67; 68; 69; 70; 71; 72; 73] = [65; 66; 67; 68; 69; 70; 71; 72; 73].
Proof.
  pose (q := mkQr 1 21 HIGH 0 [] []). pose (d := [65; 66; 67; 68; 69; 70; 71; 72; 73]).
  pose (cw := match addEccAndInterleave q d with Ok c => c | _ => [] end).
  apply (symbol_correctable q d d cw cw (0 :: 0 :: 0 :: drop 3 cw)).
  - cbn. lia.
  - repeat constructor; lia.
  - repeat constructor; lia.
  - vm_compute. reflexivity.
  - vm_compute. reflexivity.
  - intros j Hj. change (0 <= j < 1) in Hj. assert (j = 0) as -> by lia. vm_compute. split; intros [=].
Defined.
