(* ===== verification/QrSymbol.v ===== *)
(** * The constructor of a QR code

    The finished symbol: function patterns, codewords and the mask with the lowest
    penalty.  [symbolGrid] says what every module of it is. *)

From stdpp Require Import prelude strings list list_numbers.
From Stdlib Require Import ZArith Lia.
From S2P Require Import Prelude Cxx ReedSolomon QrSegment QrCode QrMatrix QrDraw QrLayout QrCapacity QrPenalty QrBlocks.

Local Open Scope Z_scope.

(** ** Grids by their modules *)

Definition gridOf (n : Z) (f : Z * Z → bool) : list (list bool) :=
  map (λ y, map (λ x, f (x, y)) (range 0 n)) (range 0 n).

Lemma square_gridOf n f : 0 <= n → square n (gridOf n f).
Proof.
  intros Hn. pose proof (size_range 0 n Hn) as Hr. unfold gridOf, square, size_of in *. rewrite length_map. split; [lia|].
  apply Forall_map, Forall_forall. intros y _. rewrite length_map. lia.
Qed.

Lemma cell_gridOf n f p : inside n p → cell (gridOf n f) p = Some (f p).
Proof.
  intros [Hx Hy]. unfold cell, gridOf. case_match; [lia|]. rewrite list_lookup_fmap, lookup_range, Z.add_0_l, Z2Nat.id by lia.
  cbn [fmap option_fmap option_map mbind option_bind]. rewrite list_lookup_fmap, lookup_range, Z.add_0_l, Z2Nat.id by lia.
  by destruct p.
Qed.

(** ** The codewords in the symbol *)

Lemma drawCodewords_ok v ecl q cw raw : 1 <= v <= 40 → patterned v ecl q → Forall byte cw →
  getNumRawDataModules v = Ok raw → size_of cw = raw / 8 →
  ∃ g, drawCodewords q cw = Ok (with_modules q g) ∧ square (4 * v + 17) g ∧
    (∀ p, p ∉ dataCells v → cell g p = cell (modules q) p) ∧
    ∃ rest, map (cell g) (dataCells v) = map Some (packBytes cw) ++ rest.
Proof.
  intros Hv Hq Hcw Hraw Hlen. pose proof Hq as (Hver & Hsz & _ & _ & Hready & _). unfold drawCodewords.
  rewrite Hver, Hraw, bind_Ok, Hlen, Z.eqb_refl. cbn [negb]. rewrite Hsz, rightColumns_ok, bind_Ok by done.
  rewrite <- Hsz, drawCodewords_scan, Hsz.
  pose proof (dataCells_count v Hv) as Hcount. rewrite Hraw in Hcount. injection Hcount as Hcount.
  pose proof (Z.div_mod raw 8 ltac:(lia)) as Hdm. pose proof (Z.mod_pos_bound raw 8 ltac:(lia)) as Hmb.
  assert (0 <= size_of cw) by (unfold size_of; lia).
  destruct (draw_loop q cw (zigzag (4 * v + 17)) (modules q) 0) as (g & Hl & Hg & Hother & Hmap).
  - done.
  - apply Hready.
  - rewrite Hsz. apply Forall_forall. intros p Hp. by apply elem_of_zigzag.
  - by apply NoDup_zigzag.
  - done.
  - lia.
  - rewrite (dataCells_open v ecl q Hv Hq) in Hl, Hother, Hmap. rewrite Hl, bind_Ok. cbn beta iota.
    rewrite assert_ok by lia. exists g. rewrite Hsz in Hg. split; [done|]. split; [done|]. split; [done|].
    eexists. rewrite Hmap. f_equal. rewrite drop_0, take_ge; [done|]. pose proof (length_packBytes cw) as Hpl.
    unfold size_of in *. lia.
Qed.

(** ** Mask and format *)

(** An object whose reserved modules are those of the standard. *)
Definition fixed (v : Z) (ecl : Ecc) (q : QrCode) : Prop :=
  version q = v ∧ size q = 4 * v + 17 ∧ errorCorrectionLevel q = ecl ∧ ready q ∧
  ∀ p, inside (4 * v + 17) p → cell (isFunction q) p = Some (reserved v p).

Lemma fixed_with_modules v ecl q g : fixed v ecl q → square (4 * v + 17) g → fixed v ecl (with_modules q g).
Proof.
  intros (Hv & Hs & He & Hr & Hf) Hg. split; [done|]. split; [done|]. split; [done|]. split; [|done].
  apply (ready_with_grids q g (isFunction q) Hr); [by rewrite Hs|apply Hr].
Qed.

Lemma patterned_fixed v ecl q : 1 <= v <= 40 → patterned v ecl q → fixed v ecl q.
Proof.
  intros Hv (Hver & Hs & He & _ & Hr & Hc). split; [done|]. split; [done|]. split; [done|]. split; [done|].
  intros p Hp. rewrite (proj2 (Hc p Hp)). by rewrite (reserved_spec v ecl 0).
Qed.

(** The finished symbol for a mask, from the grid with the codewords. *)
Definition symbolColor (v : Z) (ecl : Ecc) (m : Z) (g : list (list bool)) (p : Z * Z) : bool :=
  match formatColor (4 * v + 17) (formatBits ecl m) p with
  | Some b => b
  | None => xorb (default false (cell g p)) (dataMask m p && negb (reserved v p))
  end.

Definition symbolGrid (v : Z) (ecl : Ecc) (m : Z) (g : list (list bool)) : list (list bool) :=
  gridOf (4 * v + 17) (symbolColor v ecl m g).

(** Grids that differ only in the format. *)
Definition agree (v : Z) (g g' : list (list bool)) : Prop :=
  ∀ p, inside (4 * v + 17) p → p ∉ formatPlaces (4 * v + 17) → cell g p = cell g' p.

Lemma formatColor_places v bits p : 1 <= v <= 40 → inside (4 * v + 17) p →
  p ∈ formatPlaces (4 * v + 17) ↔ is_Some (formatColor (4 * v + 17) bits p).
Proof.
  intros Hv Hp. rewrite formatPlaces_index by (done || lia). unfold formatColor.
  destruct (formatIndex (4 * v + 17) p); cbn; split; eauto; intros H; by destruct H.
Qed.

Lemma symbolGrid_agree v ecl m g g' : 1 <= v <= 40 → agree v g g' → symbolGrid v ecl m g = symbolGrid v ecl m g'.
Proof.
  intros Hv Hag. apply (grid_ext (4 * v + 17)); [apply square_gridOf; lia..|]. intros p Hp. unfold symbolGrid.
  rewrite !cell_gridOf by done. f_equal. unfold symbolColor. destruct (formatColor _ _ p) eqn:Hf; [done|].
  rewrite Hag; [done|done|]. intros Hpl%(formatColor_places v (formatBits ecl m) p Hv Hp). rewrite Hf in Hpl. by destruct Hpl.
Qed.

Lemma format_reserved v p : 1 <= v <= 40 → p ∈ formatPlaces (4 * v + 17) → inside (4 * v + 17) p ∧ reserved v p = true.
Proof.
  intros Hv Hpl. assert (inside (4 * v + 17) p) as Hp.
  { destruct (formatPlaces_layout v Hv) as [_ Hin]. rewrite Forall_forall in Hin. by apply Hin. }
  split; [done|]. rewrite (reserved_spec v LOW 0) by done. apply bool_decide_eq_true. unfold functionColor. cbv zeta.
  rewrite !is_Some_over. right. left. by apply formatColor_places.
Qed.

Lemma mask_format_ok v ecl q m : 1 <= v <= 40 → fixed v ecl q → 0 <= m <= 7 →
  ∃ q1, applyMask q m = Ok q1 ∧ drawFormatBits q1 m = Ok (with_modules q (symbolGrid v ecl m (modules q))).
Proof.
  intros Hv Hq Hm. pose proof Hq as (Hver & Hs & He & Hr & Hf).
  destruct (applyMask_ok q m Hr Hm) as (q1 & Ha & Hmask). exists q1. split; [done|].
  pose proof (ready_masked q m q1 Hr Hmask) as Hr1. destruct Hmask as (g1 & -> & Hg1 & Hc1).
  rewrite drawFormatBits_ok; [|done|done|].
  - unfold formatted, with_grids, with_modules. cbn. do 2 f_equal. rewrite Hs, He in *.
    pose proof (formatCells_in v (formatBits ecl m) Hv) as Hin.
    apply (grid_ext (4 * v + 17)); [by apply square_updCells|apply square_gridOf; lia|]. intros p Hp.
    unfold symbolGrid. rewrite cell_gridOf, (cell_lastColor (4 * v + 17)), format_last by (done || lia). unfold symbolColor.
    destruct (formatColor _ _ p); [done|]. cbn [over]. rewrite Hc1, Hf by done.
    destruct Hr as (_ & _ & Hsm & _). rewrite Hs in Hsm. by destruct (cell_inside _ _ _ Hsm Hp) as [b ->].
  - apply Forall_forall. cbn [with_modules size isFunction]. rewrite Hs. intros p Hpl.
    destruct (format_reserved v p Hv Hpl) as [Hp Hres]. rewrite Hf, Hres by done. done.
Qed.

(** Applying the mask again undoes it, except for the format. *)
Lemma unmask_ok v ecl q m : 1 <= v <= 40 → fixed v ecl q → 0 <= m <= 7 →
  ∃ g, applyMask (with_modules q (symbolGrid v ecl m (modules q))) m = Ok (with_modules q g) ∧
    square (4 * v + 17) g ∧ agree v g (modules q).
Proof.
  intros Hv Hq Hm. assert (square (4 * v + 17) (symbolGrid v ecl m (modules q))) as Hsq by (apply square_gridOf; lia).
  pose proof (fixed_with_modules _ _ _ _ Hq Hsq) as (_ & Hs' & _ & Hr' & Hf').
  destruct (applyMask_ok _ m Hr' Hm) as (q1 & Ha & g & -> & Hg & Hc). exists g. split; [done|].
  rewrite Hs' in Hg. split; [done|]. intros p Hp Hpl. rewrite Hc. rewrite (Hf' p Hp). cbn [with_modules modules].
  unfold symbolGrid. rewrite cell_gridOf by done. cbn [fmap option_fmap option_map]. unfold symbolColor, flip.
  destruct (formatColor _ _ p) eqn:Hfc.
  { destruct Hpl. apply (formatColor_places v (formatBits ecl m) p Hv Hp). rewrite Hfc. eauto. }
  destruct Hq as (_ & Hs & _ & (_ & _ & Hsm & _) & _). rewrite Hs in Hsm. destruct (cell_inside _ _ _ Hsm Hp) as [b Hb].
  rewrite Hb. cbn [default]. by rewrite xorb_assoc, xorb_nilpotent, xorb_false_r.
Qed.

(** ** The choice of the mask *)

(** The penalty of the symbol with a mask. *)
Definition penalty (v : Z) (ecl : Ecc) (q : QrCode) (g : list (list bool)) (m : Z) : exc Z :=
  getPenaltyScore (with_modules q (symbolGrid v ecl m g)).

Lemma penalty_ok v ecl q g m : 1 <= v <= 40 → fixed v ecl q → ∃ s, penalty v ecl q g m = Ok s ∧ 0 <= s <= 2568888.
Proof.
  intros Hv Hq. apply getPenaltyScore_ok.
  assert (square (4 * v + 17) (symbolGrid v ecl m g)) as Hsq by (apply square_gridOf; lia).
  apply (fixed_with_modules _ _ _ _ Hq Hsq).
Qed.

Lemma tryMask_ok v ecl q g0 msk mp i s : 1 <= v <= 40 → fixed v ecl q → agree v (modules q) g0 → 0 <= i <= 7 →
  penalty v ecl q g0 i = Ok s →
  ∃ g, tryMask (q, msk, mp) i = Ok (with_modules q g, (if s <? mp then i else msk), (if s <? mp then s else mp)) ∧
    square (4 * v + 17) g ∧ agree v g g0.
Proof.
  intros Hv Hq Hag Hi Hs. destruct (mask_format_ok v ecl q i Hv Hq Hi) as (q1 & Ha & Hf).
  destruct (unmask_ok v ecl q i Hv Hq Hi) as (g & Hu & Hg & Hag'). exists g.
  unfold tryMask. rewrite Ha, bind_Ok, Hf, bind_Ok. unfold penalty in Hs.
  rewrite (symbolGrid_agree v ecl i (modules q) g0 Hv Hag) in *. rewrite Hs, bind_Ok.
  split; [|split; [done|]].
  - by destruct (s <? mp); rewrite Hu, bind_Ok.
  - intros p Hp Hpl. rewrite Hag' by done. by apply Hag.
Qed.

(** The mask chosen after trying the first [i]. *)
Definition best (v : Z) (ecl : Ecc) (q : QrCode) (g0 : list (list bool)) (i msk mp : Z) : Prop :=
  if i =? 0 then msk = -1 ∧ mp = LONG_MAX
  else 0 <= msk < i ∧ penalty v ecl q g0 msk = Ok mp ∧
    (∀ j s, 0 <= j < i → penalty v ecl q g0 j = Ok s → mp <= s) ∧
    (∀ j s, 0 <= j < msk → penalty v ecl q g0 j = Ok s → mp < s).

Lemma best_step v ecl q g0 i msk mp s : 0 <= i → best v ecl q g0 i msk mp → penalty v ecl q g0 i = Ok s → s <= 2568888 →
  best v ecl q g0 (i + 1) (if s <? mp then i else msk) (if s <? mp then s else mp).
Proof.
  intros Hi Hbest Hs Hb. unfold best in *. destruct (Z.eqb_spec (i + 1) 0); [lia|].
  destruct (Z.eqb_spec i 0) as [->|Hne].
  - destruct Hbest as [-> ->]. destruct (Z.ltb_spec s LONG_MAX); [|unfold LONG_MAX in *; lia].
    split; [lia|]. split; [done|]. split; [|intros; lia]. intros j s' Hj Hs'. assert (j = 0) as -> by lia. rewrite Hs in Hs'.
    injection Hs' as <-. lia.
  - destruct Hbest as (Hmsk & Hmp & Hmin & Hfirst). destruct (Z.ltb_spec s mp) as [Hlt|Hge].
    + split; [lia|]. split; [done|]. split.
      * intros j s' Hj Hs'. destruct (decide (j = i)) as [->|]; [rewrite Hs in Hs'; injection Hs' as <-; lia|].
        specialize (Hmin j s' ltac:(lia) Hs'). lia.
      * intros j s' Hj Hs'. specialize (Hmin j s' ltac:(lia) Hs'). lia.
    + split; [lia|]. split; [done|]. split; [|done]. intros j s' Hj Hs'.
      destruct (decide (j = i)) as [->|]; [rewrite Hs in Hs'; injection Hs' as <-; lia|]. apply (Hmin j s'); [lia|done].
Qed.

Lemma chooseMask_ok v ecl q : 1 <= v <= 40 → fixed v ecl q →
  ∃ g msk mp, loop (range 0 8) tryMask (q, -1, LONG_MAX) = Ok (with_modules q g, msk, mp) ∧
    square (4 * v + 17) g ∧ agree v g (modules q) ∧ best v ecl q (modules q) 8 msk mp.
Proof.
  intros Hv Hq. set (g0 := modules q).
  destruct (loop_inv (λ l st, ∃ g msk mp, st = (with_modules q g, msk, mp) ∧ square (4 * v + 17) g ∧ agree v g g0 ∧
    best v ecl q g0 (size_of l) msk mp) (range 0 8) tryMask (q, -1, LONG_MAX)) as (st & Hl & g & msk & mp & -> & H).
  - exists g0, (-1), LONG_MAX. split; [by destruct q|]. split; [|done].
    destruct Hq as (_ & Hs & _ & (_ & _ & Hm & _) & _). by rewrite Hs in Hm.
  - intros p i l st Hl (g & msk & mp & -> & Hg & Hag & Hbest).
    assert (range 0 8 !! length p = Some i) as Hlk by (rewrite Hl; by apply list_lookup_middle).
    unfold range in Hlk. apply lookup_seqZ in Hlk. assert (size_of p = i) as Hi by (unfold size_of; lia).
    rewrite Hi in Hbest. destruct (penalty_ok v ecl q g0 i Hv Hq) as (s & Hs & Hb).
    destruct (tryMask_ok v ecl (with_modules q g) g0 msk mp i s Hv) as (g' & Ht & Hg' & Hag');
      [by apply fixed_with_modules|done|lia|done|].
    eexists. split; [exact Ht|]. exists g', (if s <? mp then i else msk), (if s <? mp then s else mp).
    split; [done|]. split; [done|]. split; [done|].
    replace (size_of (p ++ [i])) with (i + 1) by (unfold size_of in *; rewrite length_app; cbn [length]; lia).
    apply best_step; [lia|done|done|lia].
  - by exists g, msk, mp.
Qed.

(** ** The constructor *)

(** The grid with the function patterns and the codewords of some data. *)
Definition holds (v : Z) (ecl : Ecc) (data : list Z) (g : list (list bool)) : Prop :=
  square (4 * v + 17) g ∧
  (∀ p, inside (4 * v + 17) p → reserved v p = true → cell g p = functionColor v ecl 0 p) ∧
  ∃ cw rest, map (cell g) (dataCells v) = map Some (packBytes cw) ++ rest ∧ Forall byte cw ∧
    size_of cw = totalLen (blocksOf v ecl) ∧ deinterleave (blocksOf v ecl) cw = data ∧
    addEccAndInterleave (blank v ecl) data = Ok cw.

(** The object that the constructor returns for a mask. *)
Definition finished (v : Z) (ecl : Ecc) (g : list (list bool)) (m : Z) : QrCode :=
  mkQr v (4 * v + 17) ecl m (symbolGrid v ecl m g) [].

(** The penalty does not depend on the mask that is recorded. *)
Lemma penalty_finished v ecl q g m : size q = 4 * v + 17 → penalty v ecl q g m = getPenaltyScore (finished v ecl g m).
Proof. intros Hs. unfold penalty, finished, with_modules. by rewrite Hs. Qed.

(** The end of the constructor, once the mask is known. *)
Lemma finish_ok v ecl q g m : 1 <= v <= 40 → fixed v ecl q → agree v (modules q) g → 0 <= m <= 7 →
  (q ← applyMask (mkQr (version q) (v * 4 + 17) (errorCorrectionLevel q) m (modules q) (isFunction q)) m;
   q ← drawFormatBits q m;
   mret (mkQr (version q) (v * 4 + 17) (errorCorrectionLevel q) (mask q) (modules q) [])) = Ok (finished v ecl g m).
Proof.
  intros Hv Hq Hag Hm. pose proof Hq as (Hver & Hs & He & Hr & Hf). rewrite Hver, He, Z.mul_comm.
  set (q' := mkQr v (4 * v + 17) ecl m (modules q) (isFunction q)).
  assert (fixed v ecl q') as Hq'.
  { split; [done|]. split; [done|]. split; [done|]. split; [|done]. destruct Hr as (_ & _ & H1 & H2). rewrite Hs in H1, H2.
    by split; [|split]. }
  destruct (mask_format_ok v ecl q' m Hv Hq' Hm) as (q1 & -> & Hf1). rewrite bind_Ok, Hf1, bind_Ok.
  cbn [with_modules version errorCorrectionLevel mask modules q']. unfold finished. by rewrite (symbolGrid_agree v ecl m (modules q) g).
Qed.

Lemma newQrCode_ok v ecl data : 1 <= v <= 40 → Forall byte data → size_of data = dataLen (blocksOf v ecl) →
  ∃ g, holds v ecl data g ∧
    (∀ m, 0 <= m <= 7 → newQrCode v ecl data m = Ok (finished v ecl g m)) ∧
    ∃ m s, newQrCode v ecl data (-1) = Ok (finished v ecl g m) ∧ 0 <= m <= 7 ∧ getPenaltyScore (finished v ecl g m) = Ok s ∧
      ∀ m' s', 0 <= m' <= 7 → getPenaltyScore (finished v ecl g m') = Ok s' → s <= s' ∧ (m' < m → s < s').
Proof.
  intros Hv Hd Hlen. destruct (drawFunctionPatterns_ok v ecl Hv) as (q & Hdraw & Hq).
  pose proof Hq as (Hver & Hs & He & Hmk & Hr & Hc). destruct (raw_ok v Hv) as (raw & Hraw & _).
  destruct (blocksOf_total v ecl raw Hv Hraw) as [Htot _]. pose proof (blocksOf_good v ecl Hv) as Hb.
  destruct (addEccAndInterleave_ok q data) as (rsDiv & Hdiv & Hdsz & Hrb & Hadd); [by rewrite Hver|by rewrite Hver, He|].
  destruct (addEccAndInterleave_ok (blank v ecl) data Hv Hlen) as (rsDiv' & Hdiv' & _ & _ & Hadd').
  rewrite Hver, He in Hdiv, Hdsz, Hadd. cbn [blank version errorCorrectionLevel] in Hdiv', Hadd'.
  assert (rsDiv' = rsDiv) as -> by congruence. set (cw := interleaved (blocksOf v ecl) data rsDiv) in *.
  assert (Forall byte cw) as Hcw by (by apply bytes_interleaved).
  assert (size_of cw = totalLen (blocksOf v ecl)) as Hcwl by (by apply size_interleaved).
  destruct (drawCodewords_ok v ecl q cw raw Hv Hq Hcw Hraw) as (g & Hdc & Hg & Hother & rest & Hmap); [lia|].
  set (q2 := with_modules q g). assert (fixed v ecl q2) as Hq2 by (by apply fixed_with_modules; [apply patterned_fixed|]).
  exists g. split; [|split].
  - split; [done|]. split; [|exists cw, rest; split; [done|split; [done|split; [done|split; [by apply deinterleave_ok|done]]]]].
    intros p Hp Hres. rewrite Hother by (intros Hin; apply elem_of_dataCells in Hin as [_ ?]; [congruence|done]).
    rewrite (proj1 (Hc p Hp)). rewrite (reserved_spec v ecl 0) in Hres by done.
    apply bool_decide_eq_true in Hres as [b ->]. done.
  - intros m Hm. unfold newQrCode. destruct ((v <? MIN_VERSION) || (MAX_VERSION <? v)) eqn:H1; [unfold MIN_VERSION, MAX_VERSION in H1; lia|].
    destruct ((m <? -1) || (7 <? m)) eqn:H2; [lia|]. cbv zeta. fold (blank v ecl).
    rewrite Hdraw, bind_Ok, Hadd, bind_Ok, Hdc, bind_Ok. destruct (Z.eqb_spec m (-1)); [lia|]. rewrite bind_mret. cbn beta iota.
    rewrite assert_ok by lia. fold q2. by apply finish_ok.
  - destruct (chooseMask_ok v ecl q2 Hv Hq2) as (g' & m & s & Hl & Hg' & Hag & Hbest). exists m, s.
    unfold best in Hbest. cbn [Z.eqb] in Hbest. destruct Hbest as (Hm & Hpen & Hmin & Hfirst).
    change (modules q2) with g in *. rewrite penalty_finished in Hpen by done. split; [|split; [lia|split; [done|]]].
    + unfold newQrCode. destruct ((v <? MIN_VERSION) || (MAX_VERSION <? v)) eqn:H1; [unfold MIN_VERSION, MAX_VERSION in H1; lia|].
      destruct ((-1 <? -1) || (7 <? -1)) eqn:H2; [lia|]. cbv zeta. fold (blank v ecl).
      rewrite Hdraw, bind_Ok, Hadd, bind_Ok, Hdc, bind_Ok. change (-1 =? -1) with true. cbn iota. fold q2.
      rewrite Hl, bind_Ok. cbn beta iota. rewrite assert_ok by lia.
      apply (finish_ok v ecl (with_modules q2 g')); [done|by apply fixed_with_modules|done|lia].
    + intros m' s' Hm' Hs'. rewrite <- (penalty_finished v ecl q2) in Hs' by done. split; [apply (Hmin m'); [lia|done]|].
      intros Hlt. apply (Hfirst m'); [lia|done].
Qed.

(** A symbol that can be shown: its grid is complete and its first module is dark. *)
Definition displayable (q : QrCode) : Prop :=
  square (size q) (modules q) ∧ 21 <= size q <= 177 ∧ cell (modules q) (0, 0) = Some true.

(** Every symbol of the constructor can be shown. *)
Lemma finished_displayable v ecl data g m : 1 <= v <= 40 → holds v ecl data g → displayable (finished v ecl g m).
Proof.
  intros Hv (Hsq & Hres & _). split; [apply square_gridOf; lia|]. cbn [finished size modules]. split; [lia|].
  assert (inside (4 * v + 17) (0, 0)) as Hin by (split; cbn; lia). unfold symbolGrid. rewrite cell_gridOf by done. f_equal.
  assert (functionColor v ecl 0 (0, 0) = Some true) as Hcol.
  { unfold functionColor. cbv zeta. set (n := 4 * v + 17) in *.
    assert (versionColor v n (0, 0) = None) as -> by (unfold versionColor, versionIndex; split_ifs; done).
    assert (formatColor n (formatBits ecl 0) (0, 0) = None) as -> by (unfold formatColor, formatIndex; split_ifs; done).
    assert (alignmentColor v n (0, 0) = None) as ->; [|done]. unfold alignmentColor. cbn [fst snd].
    destruct (axis (alignmentCentres v) 0) as [c|] eqn:Hax; [|done]. apply axis_spec in Hax as [Hc Hd]; [|done].
    destruct (centres_ok v Hv) as (_ & Hb & _). rewrite Forall_forall in Hb. specialize (Hb c Hc). lia. }
  assert (reserved v (0, 0) = true) as Hr by (rewrite (reserved_spec v ecl 0), Hcol by done; by apply bool_decide_true).
  unfold symbolColor. assert (formatColor (4 * v + 17) (formatBits ecl m) (0, 0) = None) as -> by (unfold formatColor, formatIndex; split_ifs; done).
  rewrite Hres, Hcol, Hr by done. by rewrite andb_false_r.
Qed.

(** The type invariant of [QrCode], as the comments of its fields state it. *)
Definition wellTyped (q : QrCode) : Prop :=
  1 <= version q <= 40 ∧ size q = 4 * version q + 17 ∧ 0 <= mask q <= 7 ∧ square (size q) (modules q) ∧ isFunction q = [].

Lemma finished_wellTyped v ecl g m : 1 <= v <= 40 → 0 <= m <= 7 → wellTyped (finished v ecl g m).
Proof. intros Hv Hm. unfold wellTyped. cbn [finished version size mask modules isFunction]. split_and!; try (done || lia). apply square_gridOf. lia. Qed.



(** The automatic choice of a mask: the symbol that is returned is the one for its
    mask, and no other mask has a lower penalty; of several with the same penalty the
    first is taken.  The penalties are computed for all masks without an exception. *)
Theorem mask_minimal v ecl data n : 1 <= v <= 40 → Forall byte data →
  getNumDataCodewords v ecl = Ok n → size_of data = n →
  ∃ q s, newQrCode v ecl data (-1) = Ok q ∧ getPenaltyScore q = Ok s ∧ newQrCode v ecl data (mask q) = Ok q ∧
    ∀ m, 0 <= m <= 7 → ∃ q' s', newQrCode v ecl data m = Ok q' ∧ getPenaltyScore q' = Ok s' ∧ s <= s' ∧ (m < mask q → s < s').
Proof.
  intros Hv Hd Hn Hlen. destruct (raw_ok v Hv) as (raw & Hraw & _). destruct (blocksOf_total v ecl raw Hv Hraw) as [_ Hdl].
  rewrite Hn in Hdl. injection Hdl as ->. destruct (newQrCode_ok v ecl data Hv Hd Hlen) as (g & _ & Hany & m & s & Hauto & Hm & Hs & Hmin).
  exists (finished v ecl g m), s. split; [done|]. split; [done|]. split; [by apply Hany|]. intros m' Hm'.
  assert (∃ s', getPenaltyScore (finished v ecl g m') = Ok s') as [s' Hs'].
  { destruct (drawFunctionPatterns_ok v ecl Hv) as (q & _ & Hq). pose proof (patterned_fixed v ecl q Hv Hq) as Hf.
    destruct (penalty_ok v ecl q g m' Hv Hf) as (s' & Hs' & _). exists s'. rewrite <- Hs'. symmetry. apply penalty_finished. apply Hq. }
  exists (finished v ecl g m'), s'. split; [by apply Hany|]. split; [done|]. by apply Hmin.
Qed.

Lemma mask_minimal_witness : ∃ q s, newQrCode 1 HIGH [65; 66; 67; 68; 69; 70; 71; 72; 73] (-1) = Ok q ∧ getPenaltyScore q = Ok s.
Proof.
  destruct (mask_minimal 1 HIGH [65; 66; 67; 68; 69; 70; 71; 72; 73] 9) as (q & s & H1 & H2 & _).
  - lia.
  - repeat constructor; lia.
  - vm_compute. reflexivity.
  - reflexivity.
  - exists q, s. split; [exact H1|exact H2].
Defined.

(** Only the format depends on the mask. *)
Lemma functionColor_mask v ecl m p : 1 <= v <= 40 → inside (4 * v + 17) p →
  functionColor v ecl m p = match formatColor (4 * v + 17) (formatBits ecl m) p with
    | Some b => Some b | None => functionColor v ecl 0 p end.
Proof.
  intros Hv Hp. unfold functionColor. cbv zeta. set (n := 4 * v + 17) in *. unfold formatColor, versionColor.
  destruct (formatIndex n p) as [i|] eqn:Hi; [|done]. cbn [mbind option_bind over].
  assert (versionIndex v n p = None) as ->; [|done]. destruct p as [x y], Hp as [Hx Hy]. cbn [fst snd] in *.
  unfold formatIndex in Hi. unfold versionIndex. split_ifs; try done.
Qed.

(** What a finished symbol shows: outside the format and the modules for data every
    module has the color of the standard; the format shows the level and the mask in
    use; and taking the mask away from the modules for data leaves the bits of the
    codewords, in the order of the scan. *)
Theorem symbol_modules v ecl data n m : 1 <= v <= 40 → Forall byte data → 0 <= m <= 7 →
  getNumDataCodewords v ecl = Ok n → size_of data = n →
  ∃ q cw, newQrCode v ecl data m = Ok q ∧ mask q = m ∧ size q = 4 * v + 17 ∧
    addEccAndInterleave (blank v ecl) data = Ok cw ∧
    (∀ p, inside (4 * v + 17) p → reserved v p = true → cell (modules q) p = functionColor v ecl m p) ∧
    (∀ i b, packBytes cw !! i = Some b → ∃ p, dataCells v !! i = Some p ∧
       cell (modules q) p = Some (xorb b (dataMask m p))).
Proof.
  intros Hv Hd Hm Hn Hlen. destruct (raw_ok v Hv) as (raw & Hraw & _). destruct (blocksOf_total v ecl raw Hv Hraw) as [_ Hdl].
  rewrite Hn in Hdl. injection Hdl as ->.
  destruct (newQrCode_ok v ecl data Hv Hd Hlen) as (g & (Hg & Hres & cw & rest & Hmap & _ & _ & _ & Hadd) & Hany & _).
  exists (finished v ecl g m), cw. split; [by apply Hany|]. split; [done|]. split; [done|]. split; [done|].
  cbn [finished modules]. unfold symbolGrid. split.
  - intros p Hp Hr. rewrite cell_gridOf by done. unfold symbolColor. rewrite Hr, andb_false_r, xorb_false_r.
    rewrite (functionColor_mask v ecl m p Hv Hp). destruct (formatColor _ _ p) eqn:Hf; [done|].
    rewrite Hres by done. rewrite (reserved_spec v ecl 0) in Hr by done. apply bool_decide_eq_true in Hr as [b Hb]. by rewrite Hb.
  - intros i b Hi. assert (map (cell g) (dataCells v) !! i = Some (Some b)) as Hlk.
    { rewrite Hmap. apply lookup_app_l_Some. by rewrite list_lookup_fmap, Hi. }
    rewrite list_lookup_fmap in Hlk. apply fmap_Some in Hlk as (p & Hp & Hb). exists p. split; [done|].
    destruct (elem_of_dataCells v p Hv) as [Hin Hr]; [by eapply list_elem_of_lookup_2|].
    rewrite cell_gridOf by done. unfold symbolColor. destruct (formatColor _ _ p) eqn:Hf.
    + exfalso. assert (p ∈ formatPlaces (4 * v + 17)) as Hpl by (apply (formatColor_places v (formatBits ecl m)); [done..|rewrite Hf; eauto]).
      apply format_reserved in Hpl as [_ ?]; [congruence|done].
    + rewrite <- Hb, Hr. cbn [negb]. by rewrite andb_true_r.
Qed.

Lemma symbol_modules_witness : ∃ q, newQrCode 1 HIGH [65; 66; 67; 68; 69; 70; 71; 72; 73] 3 = Ok q ∧ mask q = 3.
Proof.
  destruct (symbol_modules 1 HIGH [65; 66; 67; 68; 69; 70; 71; 72; 73] 9 3) as (q & cw & H1 & H2 & _).
  - lia.
  - repeat constructor; lia.
  - lia.
  - vm_compute. reflexivity.
  - reflexivity.
  - exists q. split; [exact H1|exact H2].
Defined.
