(* ===== verification/QrText.v ===== *)
(** * From text to symbol and back

    [encodeSegments] fits segments into the smallest version.  A reader of the standard
    gets the text back from the modules of the symbol alone. *)

From stdpp Require Import prelude strings list list_numbers.
From Stdlib Require Import ZArith Lia.
From S2P Require Import Prelude Cxx ReedSolomon QrSegment QrCode QrMatrix QrDraw QrLayout QrCapacity QrPenalty QrBlocks QrSymbol.

Local Open Scope Z_scope.

(** ** The version *)

(** The bits a symbol holds. *)
Definition capacity (v : Z) (ecl : Ecc) : Z := 8 * dataLen (blocksOf v ecl).

Definition fits (segs : list QrSegment) (v : Z) (ecl : Ecc) : bool :=
  negb (getTotalBits segs v =? -1) && (getTotalBits segs v <=? capacity v ecl).

Lemma getNumDataCodewords_ok v ecl : 1 <= v <= 40 → getNumDataCodewords v ecl = Ok (dataLen (blocksOf v ecl)).
Proof. intros Hv. destruct (raw_ok v Hv) as (raw & Hraw & _). by apply (blocksOf_total v ecl raw). Qed.

Lemma findVersion_ok n segs ecl v0 : 1 <= v0 → v0 + Z.of_nat n <= 40 →
  (∃ v, findVersion n segs ecl v0 = Ok (v, getTotalBits segs v) ∧ v0 <= v <= v0 + Z.of_nat n ∧ fits segs v ecl = true ∧
     ∀ v', v0 <= v' < v → fits segs v' ecl = false) ∨
  (∃ what, findVersion n segs ecl v0 = Err (data_too_long what) ∧ ∀ v', v0 <= v' <= v0 + Z.of_nat n → fits segs v' ecl = false).
Proof.
  revert v0. induction n as [|n IH]; intros v0 Hv0 Hmax; cbn [findVersion]; rewrite getNumDataCodewords_ok, bind_Ok by lia;
    rewrite (Z.mul_comm (dataLen _) 8); fold (capacity v0 ecl); fold (fits segs v0 ecl); destruct (fits segs v0 ecl) eqn:Hfit.
  - left. exists v0. split; [done|]. split; [lia|]. split; [done|]. intros; lia.
  - right. eexists. split; [done|]. intros v' Hv'. by replace v' with v0 by lia.
  - left. exists v0. split; [done|]. split; [lia|]. split; [done|]. intros; lia.
  - destruct (IH (v0 + 1) ltac:(lia) ltac:(lia)) as [(v & Hf & Hv & Hfv & Hmin)|(what & Hf & Hnone)].
    + left. exists v. split; [done|]. split; [lia|]. split; [done|]. intros v' Hv'.
      destruct (decide (v' = v0)) as [->|]; [done|]. apply Hmin. lia.
    + right. exists what. split; [done|]. intros v' Hv'. destruct (decide (v' = v0)) as [->|]; [done|]. apply Hnone. lia.
Qed.

(** The level is only raised to one that still fits. *)
Lemma boost_ok v u b ecl : 1 <= v <= 40 → u <= capacity v ecl →
  ∃ ecl', loop [MEDIUM; QUARTILE; HIGH] (boost v u b) ecl = Ok ecl' ∧ u <= capacity v ecl' ∧ (eccInt ecl <= eccInt ecl' ∨ b = true)%nat ∧
    (b = false → ecl' = ecl).
Proof.
  intros Hv Hu. destruct (loop_inv (λ _ e, u <= capacity v e ∧ (b = false → e = ecl)) [MEDIUM; QUARTILE; HIGH] (boost v u b) ecl)
    as (e & Hl & He & Hb).
  - done.
  - intros p e' l e _ [He Hb]. unfold boost. destruct b; [|by exists e].
    rewrite getNumDataCodewords_ok, bind_Ok by done. eexists. split; [done|]. split; [|done].
    destruct (Z.leb_spec u (dataLen (blocksOf v e') * 8)); [unfold capacity; lia|done].
  - exists e. split; [done|]. split; [done|]. split; [|done]. destruct b; [by right|]. left. by rewrite Hb.
Qed.

(** ** The bit string *)

Lemma appendSegment_ok v bb seg : mode seg ∈ modes → 0 <= numChars seg → fitsCount v seg = true →
  appendSegment v bb seg = Ok (bb ++ segmentBits v seg).
Proof.
  intros Hm Hn Hfit. unfold fitsCount in Hfit. pose proof (ccbits_bounds _ v Hm) as Hcc.
  assert (0 <= modeBits (mode seg) < 16) as Hmb.
  { assert (Forall (λ m, 0 <= modeBits m < 16) modes) as H by (repeat (constructor; [cbn; lia|]); constructor).
    rewrite Forall_forall in H. by apply H. }
  apply Z.ltb_lt in Hfit.
  assert (2 ^ numCharCountBits (mode seg) v <= 65536) by (apply (Z.pow_le_mono_r 2 _ 16); lia).
  unfold appendSegment. rewrite (uint32_small (modeBits _)) by lia. rewrite appendBits_ok, bind_Ok by lia.
  rewrite (uint32_small (numChars _)) by lia. rewrite appendBits_ok, bind_Ok by lia. unfold segmentBits. by rewrite <- !app_assoc.
Qed.

(** Segments as the class makes them. *)
Definition goodSegment (seg : QrSegment) : Prop := mode seg ∈ modes ∧ 0 <= numChars seg.

Lemma appendSegments_ok v segs : Forall goodSegment segs → forallb (fitsCount v) segs = true →
  loop segs (appendSegment v) [] = Ok (segmentsBits v segs).
Proof.
  intros Hg Hfit. rewrite (append_loop _ _ (segmentBits v)); [done|]. intros acc seg Hseg.
  rewrite Forall_forall in Hg. destruct (Hg seg Hseg) as [Hm Hn]. apply appendSegment_ok; [done..|].
  rewrite forallb_forall in Hfit. apply Hfit. by apply list_elem_of_In.
Qed.

Lemma bits_of_zero n : bits_of 0 n = replicate (Z.to_nat n) false.
Proof.
  symmetry. apply replicate_as_elem_of. split; [apply length_bits_of|]. intros b Hb. unfold bits_of in Hb.
  apply list_elem_of_fmap in Hb as (i & -> & _). unfold bitAt. by rewrite Z.shiftr_0_l.
Qed.

Lemma appendZeros_ok n bb : 0 <= n <= 31 → appendBits 0 n bb = Ok (bb ++ replicate (Z.to_nat n) false).
Proof.
  intros Hn. rewrite appendBits_ok, bits_of_zero; [done|lia|]. split; [done|]. apply Z.pow_pos_nonneg; lia.
Qed.

(** The padding fills the capacity, in whole bytes. *)
Lemma padBytes_ok fuel pad cap bb : pad = 0xEC ∨ pad = 0x11 → (cap - size_of bb) mod 8 = 0 → size_of bb <= cap →
  cap - size_of bb < 8 * Z.of_nat fuel → ∃ rest, padBytes fuel pad cap bb = Ok (bb ++ rest) ∧ size_of (bb ++ rest) = cap.
Proof.
  revert pad bb. induction fuel as [|fuel IH]; intros pad bb Hpad Hmod Hle Hfuel; [lia|]. cbn [padBytes].
  destruct (Z.ltb_spec (size_of bb) cap) as [Hlt|Hge].
  - rewrite appendBits_ok, bind_Ok by lia. assert (size_of (bb ++ bits_of pad 8) = size_of bb + 8) as Hs.
    { unfold size_of. rewrite length_app, length_bits_of. lia. }
    pose proof (Z.div_mod (cap - size_of bb) 8 ltac:(lia)).
    destruct (IH (Z.lxor pad (Z.lxor 0xEC 0x11)) (bb ++ bits_of pad 8)) as (rest & Hp & Hr).
    + destruct Hpad as [->| ->]; [right|left]; reflexivity.
    + rewrite Hs. replace (cap - (size_of bb + 8)) with (cap - size_of bb + (-1) * 8) by lia. by rewrite Z.mod_add.
    + lia.
    + lia.
    + exists (bits_of pad 8 ++ rest). rewrite app_assoc. done.
  - exists []. rewrite app_nil_r. split; [done|lia].
Qed.

(** ** Packing bits into bytes *)

Definition setBitOk (w r : Z) (b : bool) : Prop :=
  let w' := Z.lor w (Z.shiftl (if b then 1 else 0) (7 - r)) in
  0 <= w' < 256 ∧ bits_of w' 8 = <[Z.to_nat r := b || (bits_of w 8 !!! Z.to_nat r)]> (bits_of w 8).

Lemma setBit_ok w r b : byte w → 0 <= r < 8 → setBitOk w r b.
Proof.
  intros Hw Hr. assert (r ∈ [0; 1; 2; 3; 4; 5; 6; 7]) as Hin by (apply (elem_of_range 0 8); lia).
  assert (forallb (λ w, bool_decide (Forall (λ r, Forall (setBitOk w r) [false; true]) [0; 1; 2; 3; 4; 5; 6; 7])) bytes = true) as Hall.
  { unfold setBitOk. vm_compute. reflexivity. }
  apply (bytes_spec _ w Hw) in Hall. apply bool_decide_eq_true in Hall. rewrite Forall_forall in Hall. specialize (Hall r Hin).
  rewrite Forall_forall in Hall. apply Hall. destruct b; [right|]; left.
Qed.

Lemma packBytes_lookup cw k r : (r < 8)%nat → (k < length cw)%nat → packBytes cw !! (k * 8 + r)%nat = bits_of (cw !!! k) 8 !! r.
Proof.
  revert cw. induction k as [|k IH]; intros [|c cw] Hr Hk; cbn in Hk; try lia.
  - change (packBytes (c :: cw)) with (bits_of c 8 ++ packBytes cw). rewrite lookup_app_l by (rewrite length_bits_of; lia). done.
  - change (packBytes (c :: cw)) with (bits_of c 8 ++ packBytes cw). rewrite lookup_app_r by (rewrite length_bits_of; lia).
    rewrite length_bits_of. replace (S k * 8 + r - Z.to_nat 8)%nat with (k * 8 + r)%nat by lia. apply IH; lia.
Qed.

Lemma packBytes_insert cw k r w' b : (r < 8)%nat → (k < length cw)%nat → bits_of w' 8 = <[r := b]> (bits_of (cw !!! k) 8) →
  packBytes (<[k := w']> cw) = <[(k * 8 + r)%nat := b]> (packBytes cw).
Proof.
  revert cw. induction k as [|k IH]; intros [|c cw] Hr Hk Hw; cbn in Hk; try lia.
  - change (packBytes (<[0%nat := w']> (c :: cw))) with (bits_of w' 8 ++ packBytes cw).
    change (packBytes (c :: cw)) with (bits_of c 8 ++ packBytes cw). rewrite Hw, insert_app_l by (rewrite length_bits_of; lia). done.
  - change (packBytes (<[S k := w']> (c :: cw))) with (bits_of c 8 ++ packBytes (<[k := w']> cw)).
    change (packBytes (c :: cw)) with (bits_of c 8 ++ packBytes cw). rewrite (IH cw) by (done || lia).
    replace (S k * 8 + r)%nat with (length (bits_of c 8) + (k * 8 + r))%nat by (rewrite length_bits_of; lia).
    by rewrite insert_app_r.
Qed.

(** After [i] rounds the first [i] bits are in place. *)
Definition packed (bb : list bool) (i : nat) (cw : list Z) : Prop :=
  Forall byte cw ∧ (length cw * 8 = length bb)%nat ∧ packBytes cw = take i bb ++ replicate (length bb - i) false.

Lemma packBit_ok bb i cw : packed bb i cw → (i < length bb)%nat →
  ∃ cw', packBit bb cw (Z.of_nat i) = Ok cw' ∧ packed bb (S i) cw'.
Proof.
  intros (Hcw & Hlen & Hpack) Hi. destruct (lookup_lt_is_Some_2 bb i Hi) as [b Hb]. unfold packBit.
  rewrite (proj2 (at_ok bb _ b)), bind_Ok by (rewrite Nat2Z.id; split; [lia|done]).
  rewrite Z.shiftr_div_pow2 by lia. change 7 with (Z.ones 3) at 2. rewrite Z.land_ones by lia. change (2 ^ 3) with 8.
  pose proof (Nat.div_mod i 8 ltac:(lia)) as Hdm. pose proof (Nat.mod_upper_bound i 8 ltac:(lia)) as Hr.
  assert (Z.of_nat i / 8 = Z.of_nat (i / 8)) as -> by (rewrite Nat2Z.inj_div; done).
  assert (Z.of_nat i mod 8 = Z.of_nat (i mod 8)) as -> by (rewrite Nat2Z.inj_mod; done).
  set (k := (i / 8)%nat) in *. set (r := (i mod 8)%nat) in *. assert (k < length cw)%nat as Hk by lia.
  pose proof (list_lookup_lookup_total_lt cw k Hk) as Hw. pose proof (Forall_lookup_1 _ _ _ _ Hcw Hw) as Hwb.
  rewrite (proj2 (at_ok cw _ (cw !!! k))), bind_Ok by (rewrite Nat2Z.id; split; [lia|done]).
  destruct (setBit_ok (cw !!! k) (Z.of_nat r) b Hwb ltac:(lia)) as [Hb' Hbits]. rewrite Nat2Z.id in Hbits.
  rewrite set_at_ok by (unfold size_of; lia). rewrite Nat2Z.id. eexists. split; [done|].
  assert (bits_of (cw !!! k) 8 !!! r = false) as Hold.
  { apply list_lookup_total_correct. rewrite <- packBytes_lookup by done. rewrite Hpack.
    rewrite lookup_app_r by (rewrite length_take; lia). apply lookup_replicate_2. rewrite length_take. lia. }
  rewrite Hold, orb_false_r in Hbits. split; [|split].
  - by apply Forall_insert.
  - by rewrite length_insert.
  - rewrite (packBytes_insert cw k r _ b Hr Hk Hbits), Hpack. replace (k * 8 + r)%nat with i by lia.
    rewrite insert_app_r_alt by (rewrite length_take; lia). rewrite length_take, Nat.min_l, Nat.sub_diag by lia.
    replace (length bb - i)%nat with (S (length bb - S i)) by lia. cbn [replicate]. cbn [insert list_insert].
    rewrite (take_S_r bb i b Hb), <- app_assoc. done.
Qed.

Lemma packBits_ok bb : (length bb mod 8 = 0)%nat →
  ∃ cw, loop (range 0 (size_of bb)) (packBit bb) (replicate (Z.to_nat (size_of bb / 8)) 0) = Ok cw ∧
    Forall byte cw ∧ packBytes cw = bb.
Proof.
  intros Hmod. pose proof (Nat.div_mod (length bb) 8 ltac:(lia)) as Hdm.
  assert (Z.to_nat (size_of bb / 8) = (length bb / 8)%nat) as -> by (unfold size_of; change 8 with (Z.of_nat 8); rewrite <- Nat2Z.inj_div; lia).
  destruct (loop_inv (λ p cw, packed bb (length p) cw) (range 0 (size_of bb)) (packBit bb) (replicate (length bb / 8) 0)) as (cw & Hl & Hp).
  - split; [apply Forall_replicate, byte_0|]. split; [rewrite length_replicate; lia|]. cbn [length take app]. rewrite Nat.sub_0_r.
    assert (∀ k, packBytes (replicate k 0) = replicate (k * 8) false) as Hz.
    { intros k. induction k as [|k IH]; [done|]. cbn [replicate]. change (packBytes (0 :: ?l)) with (bits_of 0 8 ++ packBytes l).
      rewrite IH, bits_of_zero. by rewrite <- replicate_add. }
    rewrite Hz, take_0. cbn [app]. f_equal. lia.
  - intros p i l cw Hl Hp. assert (range 0 (size_of bb) !! length p = Some i) as Hlk by (rewrite Hl; by apply list_lookup_middle).
    unfold range in Hlk. apply lookup_seqZ in Hlk. replace i with (Z.of_nat (length p)) by lia. rewrite length_app, Nat.add_1_r.
    apply packBit_ok; [done|]. unfold size_of in Hlk. lia.
  - exists cw. split; [done|]. destruct Hp as (Hb & _ & Hpk). pose proof (size_range 0 (size_of bb) ltac:(unfold size_of; lia)) as Hsz.
    unfold size_of in Hsz at 1. split; [done|]. rewrite Hpk, take_ge by (unfold size_of in *; lia).
    replace (length bb - _)%nat with 0%nat by (unfold size_of in *; lia). apply app_nil_r.
Qed.

(** ** Encoding *)

(** The data codewords of segments. *)
Definition codes (v : Z) (ecl : Ecc) (segs : list QrSegment) (data : list Z) : Prop :=
  Forall byte data ∧ size_of data = dataLen (blocksOf v ecl) ∧ forallb (fitsCount v) segs = true ∧
  ∃ rest, packBytes data = segmentsBits v segs ++ rest ∧ ends rest.

Lemma goodSegment_modes segs : Forall goodSegment segs → Forall (λ seg, mode seg ∈ modes) segs.
Proof. intros H. apply (Forall_impl _ _ _ H). by intros seg [? _]. Qed.

Lemma fits_spec segs v ecl : Forall goodSegment segs → fits segs v ecl = true →
  forallb (fitsCount v) segs = true ∧ getTotalBits segs v = segmentsLength v segs ∧ 0 <= segmentsLength v segs <= capacity v ecl.
Proof.
  intros Hg Hf. pose proof (goodSegment_modes segs Hg) as Hm. unfold fits in Hf. unfold getTotalBits in *.
  pose proof (segmentsLength_nonneg v segs Hm) as H0.
  rewrite totalBitsFrom_spec in * by (done || (unfold INT_MAX; lia)). rewrite Z.add_0_l in *.
  destruct (forallb (fitsCount v) segs && (segmentsLength v segs <=? INT_MAX)) eqn:Hc; [|done].
  apply andb_prop in Hc as [Hc1 _]. split; [done|]. split; [done|]. lia.
Qed.

(** The terminator and the padding. *)
Lemma padding_ok v segs ecl : 1 <= v <= 40 → Forall goodSegment segs → forallb (fitsCount v) segs = true →
  segmentsLength v segs <= capacity v ecl →
  ∃ data, codes v ecl segs data ∧ ∀ (k : list Z → exc QrCode),
    (let bb := segmentsBits v segs in
     let cap := dataLen (blocksOf v ecl) * 8 in
     _ ← assert_that (size_of bb <=? cap);
     bb ← appendBits 0 (Z.min 4 (cap - size_of bb)) bb;
     bb ← appendBits 0 ((8 - size_of bb mod 8) mod 8) bb;
     _ ← assert_that (size_of bb mod 8 =? 0);
     bb ← padBytes (S (Z.to_nat cap)) 0xEC cap bb;
     dataCodewords ← loop (range 0 (size_of bb)) (packBit bb) (replicate (Z.to_nat (size_of bb / 8)) 0);
     k dataCodewords) = k data.
Proof.
  intros Hv Hg Hfit Hcap. pose proof (length_segmentsBits v segs (goodSegment_modes segs Hg)) as Hlen.
  unfold capacity in Hcap. set (n := dataLen (blocksOf v ecl)) in *. set (bb := segmentsBits v segs) in *.
  assert (0 <= size_of bb) as H0 by (unfold size_of; lia). rewrite <- Hlen in Hcap.
  set (t := Z.min 4 (n * 8 - size_of bb)). set (bb1 := bb ++ replicate (Z.to_nat t) false).
  assert (size_of bb1 = size_of bb + t) as H1 by (unfold bb1, size_of; rewrite length_app, length_replicate; lia).
  set (z := (8 - size_of bb1 mod 8) mod 8). pose proof (Z.mod_pos_bound (8 - size_of bb1 mod 8) 8 ltac:(lia)) as Hz. fold z in Hz.
  set (bb2 := bb1 ++ replicate (Z.to_nat z) false).
  assert (size_of bb2 = size_of bb1 + z) as H2 by (unfold bb2, size_of; rewrite length_app, length_replicate; lia).
  pose proof (Z.div_mod (size_of bb1) 8 ltac:(lia)) as Hd1. pose proof (Z.mod_pos_bound (size_of bb1) 8 ltac:(lia)) as Hm1.
  pose proof (Z.div_mod (8 - size_of bb1 mod 8) 8 ltac:(lia)) as Hd2. fold z in Hd2.
  assert (size_of bb2 mod 8 = 0) as Hmod2.
  { symmetry. apply (Z.mod_unique _ _ (size_of bb1 / 8 + (1 - (8 - size_of bb1 mod 8) / 8))); lia. }
  pose proof (Z.div_mod (size_of bb2) 8 ltac:(lia)) as Hd3.
  assert (size_of bb2 <= n * 8) as Hle2 by lia.
  destruct (padBytes_ok (S (Z.to_nat (n * 8))) 0xEC (n * 8) bb2) as (rest & Hpad & Hsz).
  - by left.
  - symmetry. apply (Z.mod_unique _ _ (n - size_of bb2 / 8)); lia.
  - done.
  - lia.
  - set (bb3 := bb2 ++ rest) in *.
    assert (length bb3 mod 8 = 0)%nat as Hmod3.
    { unfold size_of in Hsz. apply Nat2Z.inj. rewrite Nat2Z.inj_mod, Hsz. change (Z.of_nat 8) with 8. by apply Z.mod_mul. }
    destruct (packBits_ok bb3 Hmod3) as (data & Hpk & Hdb & Hpb). exists data. split.
    + split; [done|]. pose proof (length_packBytes data) as Hpl. rewrite Hpb in Hpl. split; [lia|]. split; [done|].
      exists (replicate (Z.to_nat t) false ++ replicate (Z.to_nat z) false ++ rest). split.
      { rewrite Hpb. unfold bb3, bb2, bb1. by rewrite <- !app_assoc. }
      destruct (decide (t = 4)) as [Ht|Ht].
      * right. rewrite Ht. reflexivity.
      * left. assert (size_of rest = 0) as Hr by (unfold bb3, size_of in *; rewrite length_app in Hsz; lia).
        unfold size_of in Hr. rewrite !length_app, !length_replicate. lia.
    + intros k. cbv zeta. rewrite assert_ok by lia. rewrite appendZeros_ok, bind_Ok by lia. fold t. fold bb1. fold z.
      rewrite appendZeros_ok, bind_Ok by lia. fold bb2. rewrite assert_ok by lia. rewrite Hpad, bind_Ok. fold bb3.
      by rewrite Hpk, bind_Ok.
Qed.

Lemma encodeSegments_ok segs ecl minVersion maxVersion mask boostEcl :
  Forall goodSegment segs → 1 <= minVersion <= maxVersion → maxVersion <= 40 → -1 <= mask <= 7 →
  (∃ v ecl' data, encodeSegments segs ecl minVersion maxVersion mask boostEcl = newQrCode v ecl' data mask ∧
     minVersion <= v <= maxVersion ∧ fits segs v ecl = true ∧ (∀ v', minVersion <= v' < v → fits segs v' ecl = false) ∧
     codes v ecl' segs data ∧ (boostEcl = false → ecl' = ecl)) ∨
  (∃ what, encodeSegments segs ecl minVersion maxVersion mask boostEcl = Err (data_too_long what) ∧
     ∀ v', minVersion <= v' <= maxVersion → fits segs v' ecl = false).
Proof.
  intros Hg Hmin Hmax Hmask. unfold encodeSegments. unfold MIN_VERSION, MAX_VERSION.
  destruct (negb _ || _ || _) eqn:Hargs; [lia|].
  destruct (findVersion_ok (Z.to_nat (maxVersion - minVersion)) segs ecl minVersion ltac:(lia) ltac:(lia))
    as [(v & Hf & Hv & Hfit & Hfirst)|(what & Hf & Hnone)]; rewrite Hf.
  - left. destruct (fits_spec segs v ecl Hg Hfit) as (Hcount & Htot & Hcap). rewrite bind_Ok, Htot. cbn beta iota.
    rewrite assert_ok by lia.
    destruct (boost_ok v (segmentsLength v segs) boostEcl ecl ltac:(lia) (proj2 Hcap)) as (ecl' & -> & Hcap' & _ & Hb).
    rewrite bind_Ok, appendSegments_ok, bind_Ok by done.
    rewrite length_segmentsBits by by apply goodSegment_modes. rewrite assert_ok by apply Z.eqb_refl.
    rewrite getNumDataCodewords_ok, bind_Ok by lia. cbv zeta.
    destruct (padding_ok v segs ecl' ltac:(lia) Hg Hcount Hcap') as (data & Hdata & Hk).
    specialize (Hk (λ d, newQrCode v ecl' d mask)). cbv zeta in Hk.
    rewrite (length_segmentsBits v segs (goodSegment_modes segs Hg)) in Hk.
    exists v, ecl', data. split; [exact Hk|]. split; [lia|]. split; [done|]. split; [done|]. split; [done|done].
  - right. exists what. split; [done|]. intros v' Hv'. apply Hnone. lia.
Qed.

(** ** A reader *)

Definition levelOf (d : Z) : option Ecc :=
  if d =? 1 then Some LOW else if d =? 0 then Some MEDIUM else if d =? 3 then Some QUARTILE else if d =? 2 then Some HIGH else None.

(** The level and the mask in a format word. *)
Definition decodeFormat (w : Z) : option (Ecc * Z) :=
  let d := Z.shiftr (Z.lxor w 0x5412) 10 in
  ecl ← levelOf (Z.shiftr d 3);
  Some (ecl, Z.land d 7).

(** The format word, from the copy beside the first finder pattern. *)
Definition readFormat (g : list (list bool)) : Z :=
  bits_val (map (λ i, default false (cell g (format1 i))) (rev (range 0 15))).

Fixpoint toBytes (n : nat) (bs : list bool) : list Z :=
  match n with O => [] | S n => bits_val (take 8 bs) :: toBytes n (drop 8 bs) end.

(** The text of a symbol, from its modules alone: the size gives the version, the
    format the level and the mask; the modules for data, without the mask and in the
    order of the scan, give the codewords, and their data part the segments. *)
Definition readSymbol (g : list (list bool)) : option (list Z) :=
  let v := (size_of g - 17) / 4 in
  '(ecl, m) ← decodeFormat (readFormat g);
  let bits := map (λ p, xorb (default false (cell g p)) (dataMask m p)) (dataCells v) in
  let b := blocksOf v ecl in
  let bits := packBytes (deinterleave b (toBytes (Z.to_nat (totalLen b)) bits)) in
  readSegments (S (length bits)) v bits.

Lemma toBytes_pack cw rest : Forall byte cw → toBytes (length cw) (packBytes cw ++ rest) = cw.
Proof.
  intros Hcw. induction Hcw as [|c cw Hc Hcw IH]; [done|]. change (packBytes (c :: cw)) with (bits_of c 8 ++ packBytes cw).
  pose proof (length_bits_of c 8) as Hl. cbn [length toBytes]. rewrite <- app_assoc.
  rewrite take_app_length', drop_app_length' by done. rewrite bits_val_of, IH by (done || lia). done.
Qed.

Lemma decodeFormat_ok ecl m : 0 <= m <= 7 → decodeFormat (formatBits ecl m) = Some (ecl, m).
Proof.
  intros Hm. pose proof (formats_spec (λ ecl m, match decodeFormat (formatBits ecl m) with
    | Some (e, m') => (eccInt e =? eccInt ecl)%nat && (m' =? m) | None => false end) ecl m Hm ltac:(vm_compute; reflexivity)) as H.
  cbv beta in H. destruct (decodeFormat _) as [[e m']|]; [|done]. apply andb_prop in H as [He Hm'%Z.eqb_eq]. subst m'.
  do 2 f_equal. apply Nat.eqb_eq in He. by destruct e, ecl.
Qed.

Lemma readFormat_ok v ecl m g : 1 <= v <= 40 → 0 <= m <= 7 → readFormat (symbolGrid v ecl m g) = formatBits ecl m.
Proof.
  intros Hv Hm. destruct (formatBits_bounds ecl m Hm) as [Hb H0]. unfold readFormat.
  rewrite (map_ext_in _ (bitAt (formatBits ecl m))).
  - apply (bits_val_of (formatBits ecl m) 15); [lia|]. split; [done|].
    rewrite Z.shiftr_div_pow2 in Hb by lia. apply Z.div_small_iff in Hb; lia.
  - intros i Hi. rewrite <- in_rev, <- list_elem_of_In in Hi. apply elem_of_range in Hi.
    assert (format1 i ∈ formatPlaces (4 * v + 17)) as Hpl.
    { unfold formatPlaces. apply elem_of_app. left. apply list_elem_of_fmap. exists i. split; [done|by apply elem_of_range]. }
    destruct (format_reserved v _ Hv Hpl) as [Hin _]. unfold symbolGrid. rewrite cell_gridOf by done. cbn [default].
    unfold symbolColor, formatColor. rewrite (proj1 (formatIndex_places (4 * v + 17) i ltac:(lia) Hi)). cbn.
    destruct (Z.eqb_spec i 15); [lia|done].
Qed.

Lemma segments_fuel v segs : (length segs <= length (segmentsBits v segs))%nat.
Proof.
  induction segs as [|seg segs IH]; [done|]. change (segmentsBits v (seg :: segs)) with (segmentBits v seg ++ segmentsBits v segs).
  unfold segmentBits. rewrite !length_app, length_bits_of. cbn [length]. lia.
Qed.

Lemma readSymbol_ok v ecl m g data segs texts : 1 <= v <= 40 → 0 <= m <= 7 → holds v ecl data g → codes v ecl segs data →
  Forall2 carries segs texts → readSymbol (symbolGrid v ecl m g) = Some (concat texts).
Proof.
  intros Hv Hm (Hsq & _ & cw & rest & Hmap & Hcw & Hcwl & Hde & _) (Hdb & Hdl & Hcount & rest' & Hpk & Hend) Hc. unfold readSymbol.
  assert (size_of (symbolGrid v ecl m g) = 4 * v + 17) as -> by (apply (square_gridOf (4 * v + 17)); lia).
  replace ((4 * v + 17 - 17) / 4) with v by (rewrite Z.add_simpl_r, Z.mul_comm, Z.div_mul; lia).
  rewrite readFormat_ok, decodeFormat_ok by done. cbn [mbind option_bind]. cbv zeta.
  rewrite (map_ext_in _ (λ p, default false (cell g p))).
  - rewrite <- (map_map (cell g) (default false)), Hmap, map_app, map_map, (map_id (packBytes cw) : map (λ x, default false (Some x)) _ = _).
    replace (Z.to_nat (totalLen (blocksOf v ecl))) with (length cw) by (unfold size_of in Hcwl; lia).
    rewrite toBytes_pack, Hde, Hpk by done. apply readSegments_ok; [done..|].
    pose proof (segments_fuel v segs). rewrite length_app. lia.
  - intros p Hp. rewrite <- list_elem_of_In in Hp. destruct (elem_of_dataCells v p Hv Hp) as [Hin Hres].
    unfold symbolGrid. rewrite cell_gridOf by done. cbn [default]. unfold symbolColor.
    destruct (formatColor _ _ p) eqn:Hf.
    + exfalso. assert (p ∈ formatPlaces (4 * v + 17)) as Hpl by (apply (formatColor_places v (formatBits ecl m)); [done..|rewrite Hf; eauto]).
      apply format_reserved in Hpl as [_ ?]; [congruence|done].
    + change (id ?x) with x. rewrite Hres. cbn [negb]. by rewrite andb_true_r, xorb_assoc, xorb_nilpotent, xorb_false_r.
Qed.

(** ** What the encoder promises *)

Lemma carries_good seg text : carries seg text → goodSegment seg.
Proof. intros (Hm & Hn & _). split; [by apply text_mode_modes|]. rewrite Hn. unfold size_of. lia. Qed.

Lemma encode_reads segs texts ecl minVersion maxVersion mask boostEcl :
  Forall2 carries segs texts → 1 <= minVersion <= maxVersion → maxVersion <= 40 → -1 <= mask <= 7 →
  (∃ q, encodeSegments segs ecl minVersion maxVersion mask boostEcl = Ok q ∧ readSymbol (modules q) = Some (concat texts) ∧
     minVersion <= version q <= maxVersion ∧ fits segs (version q) ecl = true ∧
     (∀ v', minVersion <= v' < version q → fits segs v' ecl = false) ∧
     (boostEcl = false → errorCorrectionLevel q = ecl) ∧ (mask ≠ -1 → QrCode.mask q = mask) ∧ displayable q) ∨
  (∃ what, encodeSegments segs ecl minVersion maxVersion mask boostEcl = Err (data_too_long what) ∧
     ∀ v', minVersion <= v' <= maxVersion → fits segs v' ecl = false).
Proof.
  intros Hc Hmin Hmax Hmask. assert (Forall goodSegment segs) as Hg.
  { clear - Hc. induction Hc as [|seg text segs texts Hs Hc IH]; constructor; [by eapply carries_good|done]. }
  destruct (encodeSegments_ok segs ecl minVersion maxVersion mask boostEcl Hg Hmin Hmax Hmask)
    as [(v & ecl' & data & Henc & Hv & Hfit & Hfirst & Hcodes & Hb)|?]; [left|by right].
  pose proof Hcodes as (Hdb & Hdl & _). destruct (newQrCode_ok v ecl' data ltac:(lia) Hdb Hdl) as (g & Hg' & Hany & m & s & Hauto & Hm & _).
  assert (∃ m, newQrCode v ecl' data mask = Ok (finished v ecl' g m) ∧ 0 <= m <= 7 ∧ (mask ≠ -1 → m = mask)) as (m' & Hnew & Hm' & Hmm).
  { destruct (decide (mask = -1)) as [->|Hne]; [by exists m|]. exists mask. split; [apply Hany; lia|]. split; [lia|done]. }
  exists (finished v ecl' g m'). rewrite Henc. split; [done|].
  split; [apply (readSymbol_ok v ecl' m' g data segs texts); (done || lia)|]. split; [done|]. split; [done|]. split; [done|]. split; [done|].
  split; [done|]. eapply finished_displayable; [lia|done].
Qed.

(** *** Text *)

(** The text fits a symbol: its length fits the count field, and its bits the symbol. *)
Definition textFits (text : list Z) (v : Z) (ecl : Ecc) : bool :=
  match text with
  | [] => true
  | _ => (size_of text <? 2 ^ numCharCountBits (textMode text) v) &&
         (4 + numCharCountBits (textMode text) v + dataBits (textMode text) (size_of text) <=? capacity v ecl)
  end.

Lemma capacity_bounds v ecl : 1 <= v <= 40 → 0 <= capacity v ecl <= 23648.
Proof. intros Hv. apply (levels_decide (λ v ecl, 0 <= capacity v ecl <= 23648) v ecl Hv). vm_compute. reflexivity. Qed.

Lemma fits_single seg v ecl : 1 <= v <= 40 → goodSegment seg →
  fits [seg] v ecl = (numChars seg <? 2 ^ numCharCountBits (mode seg) v) && (segmentLength v seg <=? capacity v ecl).
Proof.
  intros Hv [Hm Hn]. pose proof (capacity_bounds v ecl Hv) as Hcap. unfold fits, getTotalBits.
  rewrite totalBitsFrom_spec by ((constructor; [done|constructor]) || (unfold INT_MAX; lia)). rewrite Z.add_0_l.
  rewrite segmentsLength_cons. change (segmentsLength v []) with 0. rewrite Z.add_0_r. cbn [forallb]. rewrite andb_true_r.
  pose proof (ccbits_bounds _ v Hm) as Hcc. assert (0 <= segmentLength v seg) as H0 by (unfold segmentLength, size_of; lia).
  unfold fitsCount. destruct (numChars seg <? 2 ^ _); cbn [andb]; [|done].
  destruct (Z.leb_spec (segmentLength v seg) INT_MAX); unfold INT_MAX in *; destruct (Z.leb_spec (segmentLength v seg) (capacity v ecl)); try lia.
Qed.

Lemma text_segments text : Forall byte text → size_of text <= INT_MAX →
  ∃ segs texts, makeSegments text = Ok segs ∧ Forall2 carries segs texts ∧ concat texts = text ∧
    ∀ v ecl, 1 <= v <= 40 → fits segs v ecl = textFits text v ecl.
Proof.
  intros Hb Hlen. destruct (decide (text = [])) as [->|Hne].
  - exists [], []. split; [done|]. split; [constructor|]. split; [done|]. intros v ecl Hv.
    pose proof (capacity_bounds v ecl Hv). unfold fits. change (getTotalBits [] v) with 0. cbn. lia.
  - destruct (makeSegments_spec text Hb Hlen Hne) as (seg & Hs & Hc & Hm & Hd). exists [seg], [text].
    split; [done|]. split; [constructor; [done|constructor]|]. split; [apply app_nil_r|]. intros v ecl Hv.
    rewrite fits_single by (done || by eapply carries_good). destruct Hc as (_ & Hn & _). unfold textFits, segmentLength.
    rewrite Hn, Hm, Hd. by destruct text.
Qed.

(** [C19] Encoding a text: either the text fits a symbol, and the result is a symbol of the
    smallest version it fits, whose modules a reader of the standard turns back into
    the text; or it fits none of the 40 versions, and [data_too_long] is thrown.  No
    other exception and no failed assertion is possible. *)
Theorem encodeText_readable text ecl : Forall byte text → size_of text <= INT_MAX →
  (∃ q, encodeText text ecl = Ok q ∧ readSymbol (modules q) = Some text ∧
     1 <= version q <= 40 ∧ textFits text (version q) ecl = true ∧
     (∀ v, 1 <= v < version q → textFits text v ecl = false)) ∨
  (∃ what, encodeText text ecl = Err (data_too_long what) ∧ ∀ v, 1 <= v <= 40 → textFits text v ecl = false).
Proof.
  intros Hb Hlen. destruct (text_segments text Hb Hlen) as (segs & texts & Hs & Hc & <- & Hfit). unfold encodeText, encodeDefault.
  rewrite Hs, bind_Ok.
  destruct (encode_reads segs texts ecl 1 40 (-1) true Hc) as [(q & He & Hr & Hv & Hf & Hfirst & _)|(what & He & Hnone)]; [lia..| |].
  - left. exists q. split; [done|]. split; [done|]. split; [done|]. rewrite <- Hfit by lia. split; [done|].
    intros v Hv'. rewrite <- Hfit by lia. apply Hfirst. lia.
  - right. exists what. split; [done|]. intros v Hv'. rewrite <- Hfit by lia. by apply Hnone.
Qed.

Lemma encodeText_readable_witness :
  ∃ q, encodeText (chars "HELLO WORLD") LOW = Ok q ∧ readSymbol (modules q) = Some (chars "HELLO WORLD").
Proof.
  destruct (encodeText_readable (chars "HELLO WORLD") LOW) as [(q & H1 & H2 & _)|(what & _ & Hnone)].
  - repeat constructor; unfold byte; cbn; lia.
  - vm_compute. intros [=].
  - exists q. split; [exact H1|exact H2].
  - specialize (Hnone 1 ltac:(lia)). vm_compute in Hnone. discriminate.
Defined.

(** *** Limits *)

Lemma byte_capacity : capacity 40 LOW = 23648 ∧ numCharCountBits NUMERIC 40 = 14 ∧ numCharCountBits ALPHANUMERIC 40 = 13 ∧
  numCharCountBits BYTE 40 = 16.
Proof. vm_compute. done. Qed.

Lemma textFits_2953 text : size_of text <= 2953 → textFits text 40 LOW = true.
Proof.
  intros Hlen. destruct byte_capacity as (Hcap & H1 & H2 & H3). unfold textFits. destruct text as [|c text]; [done|].
  set (t := c :: text) in *. assert (0 <= size_of t) as H0 by (unfold size_of; lia).
  pose proof (textMode_text t) as Hm. pose proof (dataBits_bounds _ (size_of t) Hm H0) as Hd. rewrite Hcap.
  apply andb_true_intro. split.
  - apply Z.ltb_lt. destruct Hm as [->|[->| ->]]; rewrite ?H1, ?H2, ?H3; lia.
  - destruct Hm as [Hm|[Hm|Hm]]; rewrite Hm in *; rewrite ?H1, ?H2, ?H3; lia.
Qed.

(** Every text of at most 2953 bytes has a symbol that can be read and shown. *)
Lemma encodeText_short text : Forall byte text → size_of text <= 2953 →
  ∃ q, encodeText text LOW = Ok q ∧ readSymbol (modules q) = Some text ∧ displayable q.
Proof.
  intros Hb Hlen. destruct (text_segments text Hb) as (segs & texts & Hs & Hc & <- & Hfit); [unfold INT_MAX; lia|].
  unfold encodeText, encodeDefault. rewrite Hs, bind_Ok.
  destruct (encode_reads segs texts LOW 1 40 (-1) true Hc) as [(q & He & Hr & Hd)|(what & _ & Hnone)]; [lia..| |].
  - exists q. split; [done|]. split; [done|]. apply Hd.
  - specialize (Hnone 40 ltac:(lia)). rewrite Hfit, textFits_2953 in Hnone by (done || lia). done.
Qed.

Lemma encodeText_displayable text ecl q : Forall byte text → size_of text <= INT_MAX → encodeText text ecl = Ok q → displayable q.
Proof.
  intros Hb Hlen. destruct (text_segments text Hb Hlen) as (segs & texts & Hs & Hc & _). unfold encodeText, encodeDefault.
  rewrite Hs, bind_Ok. destruct (encode_reads segs texts ecl 1 40 (-1) true Hc) as [(q' & -> & Hd)|(what & -> & _)]; [lia..| |done].
  intros [= <-]. apply Hd.
Qed.

(** At the low level every text of at most 2953 bytes is encoded, as the header
    promises. *)
Theorem encodeText_2953 text : Forall byte text → size_of text <= 2953 →
  ∃ q, encodeText text LOW = Ok q ∧ readSymbol (modules q) = Some text.
Proof. intros Hb Hlen. destruct (encodeText_short text Hb Hlen) as (q & He & Hr & _). by exists q. Qed.

Lemma encodeText_2953_witness :
  ∃ q, encodeText (replicate 2953 255) LOW = Ok q ∧ readSymbol (modules q) = Some (replicate 2953 255).
Proof.
  apply encodeText_2953.
  - apply Forall_replicate. unfold byte. lia.
  - vm_compute. intros [=].
Defined.

(** Binary data is encoded at the low level exactly up to the 2953 bytes that the
    header names; more is refused with [data_too_long]. *)
Theorem encodeBinary_limit data : Forall byte data → size_of data <= INT_MAX →
  if size_of data <=? 2953 then ∃ q, encodeBinary data LOW = Ok q ∧ readSymbol (modules q) = Some data
  else ∃ what, encodeBinary data LOW = Err (data_too_long what).
Proof.
  intros Hb Hlen. unfold encodeBinary, encodeDefault. rewrite makeBytes_ok, bind_Ok by done.
  set (seg := mkSegment BYTE (size_of data) (packBytes data)). pose proof (carries_bytes data Hb) as Hc. fold seg in Hc.
  pose proof (carries_good _ _ Hc) as Hg. destruct byte_capacity as (Hcap & _ & _ & Hcc).
  assert (∀ v, 1 <= v <= 40 → fits [seg] v LOW = true → size_of data <= 2953) as Hmax.
  { intros v Hv Hf. rewrite fits_single in Hf by done. apply andb_prop in Hf as [_ Hf%Z.leb_le]. unfold segmentLength in Hf.
    cbn [mode QrSegment.data seg] in Hf. rewrite length_packBytes in Hf. pose proof (capacity_bounds v LOW Hv) as Hcv.
    pose proof (ccbits_bounds BYTE v ltac:(apply (bool_decide_unpack _); vm_compute; exact I)).
    assert (size_of data < 2954); [|lia]. pose proof (ccbits_cases v Hv) as Hcs.
    assert (numCharCountBits BYTE v = 16 ∨ capacity v LOW <= 1856) as [|]; [|lia..].
    apply (versions_decide (λ v, numCharCountBits BYTE v = 16 ∨ capacity v LOW <= 1856) v Hv). vm_compute. reflexivity. }
  assert (Forall2 carries [seg] [data]) as Hc2 by (constructor; [done|constructor]).
  destruct (encode_reads [seg] [data] LOW 1 40 (-1) true Hc2) as [(q & He & Hr & Hv & Hf & _)|(what & He & Hnone)]; [lia..| |].
  - specialize (Hmax _ Hv Hf). destruct (Z.leb_spec (size_of data) 2953); [|lia]. exists q. split; [done|].
    cbn [concat] in Hr. by rewrite app_nil_r in Hr.
  - destruct (Z.leb_spec (size_of data) 2953); [|by exists what]. specialize (Hnone 40 ltac:(lia)).
    rewrite fits_single in Hnone by (done || lia). unfold segmentLength in Hnone. cbn [mode numChars QrSegment.data seg] in Hnone.
    rewrite length_packBytes, Hcap, Hcc in Hnone. lia.
Qed.

Lemma encodeBinary_limit_witness :
  (∃ q, encodeBinary (replicate 2953 7) LOW = Ok q) ∧ ∃ what, encodeBinary (replicate 2954 7) LOW = Err (data_too_long what).
Proof.
  pose proof (encodeBinary_limit (replicate 2953 7)) as H1. pose proof (encodeBinary_limit (replicate 2954 7)) as H2.
  split.
  - destruct H1 as (q & Hq & _); [apply Forall_replicate; unfold byte; lia|vm_compute; intros [=]|]. exists q. exact Hq.
  - apply H2; [apply Forall_replicate; unfold byte; lia|vm_compute; intros [=]].
Defined.
