(* ===== verification/QrSvg.v ===== *)
(** * QR codes as SVG images

    Models [toSvgString] of [src/client/3rd/qrcodegen/qrcodegen.cpp].  The text of the
    image is built with an output stream; here the stream is a string. *)

From stdpp Require Import prelude strings list list_numbers pretty.
From Stdlib Require Import ZArith Lia.
From S2P Require Import Prelude QtJson Cxx ReedSolomon QrSegment QrCode QrMatrix QrDraw QrLayout QrCapacity QrBlocks QrSymbol QrText.

Local Open Scope Z_scope.

Definition dquote : string := String (Ascii.ascii_of_nat 34) "".
Definition newline : string := String (Ascii.ascii_of_nat 10) "".
Definition tab : string := String (Ascii.ascii_of_nat 9) "".

(** The lines before the path, for an image of the given width. *)
Definition svgHead (width : Z) : string :=
  "<?xml version=" +:+ dquote +:+ "1.0" +:+ dquote +:+ " encoding=" +:+ dquote +:+ "UTF-8" +:+ dquote +:+ "?>" +:+ newline +:+
  "<!DOCTYPE svg PUBLIC " +:+ dquote +:+ "-//W3C//DTD SVG 1.1//EN" +:+ dquote +:+ " " +:+ dquote +:+
  "http://www.w3.org/Graphics/SVG/1.1/DTD/svg11.dtd" +:+ dquote +:+ ">" +:+ newline +:+
  "<svg xmlns=" +:+ dquote +:+ "http://www.w3.org/2000/svg" +:+ dquote +:+ " version=" +:+ dquote +:+ "1.1" +:+ dquote +:+
  " viewBox=" +:+ dquote +:+ "0 0 " +:+ pretty width +:+ " " +:+ pretty width +:+ dquote +:+
  " stroke=" +:+ dquote +:+ "none" +:+ dquote +:+ ">" +:+ newline +:+
  tab +:+ "<rect width=" +:+ dquote +:+ "100%" +:+ dquote +:+ " height=" +:+ dquote +:+ "100%" +:+ dquote +:+
  " fill=" +:+ dquote +:+ "#FFFFFF" +:+ dquote +:+ "/>" +:+ newline +:+
  tab +:+ "<path d=" +:+ dquote.

Definition svgTail : string := dquote +:+ " fill=" +:+ dquote +:+ "#000000" +:+ dquote +:+ "/>" +:+ newline +:+ "</svg>" +:+ newline.

(** A dark module of the path. *)
Definition svgModule (border x y : Z) : string := "M" +:+ pretty (x + border) +:+ "," +:+ pretty (y + border) +:+ "h1v1h-1z".

Definition svgStep (q : QrCode) (border y : Z) (sb : string) (x : Z) : exc string :=
  dark ← getModule q x y;
  mret (if dark : bool then
          (if negb (x =? 0) || negb (y =? 0) then sb +:+ " " else sb) +:+ svgModule border x y
        else sb).

Definition toSvgString (q : QrCode) (border : Z) : exc string :=
  if border <? 0 then raise (domain_error "Border must be non-negative")
  else if (INT_MAX / 2 <? border) || (INT_MAX - size q <? border * 2) then raise (overflow_error "Border too large")
  else
    sb ← loop (range 0 (size q)) (λ sb y, loop (range 0 (size q)) (svgStep q border y) sb) (svgHead (size q + border * 2));
    mret (sb +:+ svgTail).

(** ** What the image shows *)

(** The dark modules, row by row. *)
Definition darkModules (q : QrCode) : list (Z * Z) :=
  List.filter (λ p, bool_decide (cell (modules q) p = Some true)) (all_cells (size q)).

Definition svgPath (border : Z) (l : list (Z * Z)) : string := join " " (map (λ p, svgModule border p.1 p.2) l).

Lemma toSvgString_ok q border : displayable q → 0 <= border → size q + border * 2 <= INT_MAX →
  toSvgString q border = Ok (svgHead (size q + border * 2) +:+ svgPath border (darkModules q) +:+ svgTail).
Proof.
  intros (Hsq & Hn & H0) Hb Hmax. unfold toSvgString. destruct (Z.ltb_spec border 0); [lia|].
  destruct ((INT_MAX / 2 <? border) || (INT_MAX - size q <? border * 2)) eqn:Hover.
  { change (INT_MAX / 2) with 1073741823 in Hover. unfold INT_MAX in *. lia. }
  set (f := λ sb p, svgStep q border p.2 sb p.1).
  rewrite (loop_ext _ _ (λ sb y, loop (row_cells (size q) y) f sb)) by (intros; unfold row_cells; by rewrite loop_map).
  rewrite loop_nested. fold (all_cells (size q)). unfold darkModules.
  set (dark := λ p, bool_decide (cell (modules q) p = Some true)).
  destruct (loop_inv (λ l sb, sb = svgHead (size q + border * 2) +:+ svgPath border (List.filter dark l)) (all_cells (size q)) f
    (svgHead (size q + border * 2))) as (sb & -> & ->).
  - cbn. by rewrite sapp_nil_r.
  - intros l [x y] rest sb Hl ->. assert (inside (size q) (x, y)) as Hin.
    { apply elem_of_all_cells. rewrite Hl. apply elem_of_app. right. left. }
    destruct (cell_inside _ _ _ Hsq Hin) as [b Hcell]. destruct Hin as [Hx Hy]. cbn in Hx, Hy. unfold f, svgStep, getModule. cbn [fst snd].
    destruct ((0 <=? x) && (x <? size q) && (0 <=? y) && (y <? size q)) eqn:Hr; [|lia].
    rewrite (at2_ok _ _ _ _ Hcell : module q x y = Ok b), bind_Ok. eexists. split; [done|].
    rewrite List.filter_app. cbn [List.filter]. assert (dark (x, y) = b) as -> by (unfold dark; rewrite Hcell; by destruct b).
    destruct b; [|by rewrite app_nil_r]. unfold svgPath. rewrite map_app. cbn [map fst snd].
    destruct l as [|p0 l].
    + assert (all_cells (size q) !! 0%nat = Some (x, y)) as Hfirst by (rewrite Hl; done).
      assert (all_cells (size q) !! 0%nat = Some (0, 0)) as Hfirst0.
      { unfold all_cells, row_cells. rewrite (range_cons 0 (size q)) by lia. done. }
      rewrite Hfirst0 in Hfirst. injection Hfirst as <- <-. cbn. by rewrite sapp_nil_r.
    + assert (p0 = (0, 0)) as ->.
      { assert (all_cells (size q) !! 0%nat = Some p0) as Hf by (rewrite Hl; done).
        unfold all_cells, row_cells in Hf. rewrite (range_cons 0 (size q)) in Hf by lia. by injection Hf as <-. }
      assert (dark (0, 0) = true) as Hd0 by (unfold dark; by rewrite H0).
      rewrite join_snoc by (cbn [List.filter]; rewrite Hd0; done).
      assert (negb (x =? 0) || negb (y =? 0) = true) as ->.
      { destruct (Z.eqb_spec x 0) as [->|]; [|done]. destruct (Z.eqb_spec y 0) as [->|]; [|done]. exfalso.
        pose proof (NoDup_all_cells (size q)) as Hnd. rewrite Hl in Hnd. cbn in Hnd. apply NoDup_cons in Hnd as [Hnin _].
        apply Hnin, elem_of_app. right. left. }
      by rewrite !sapp_assoc.
  - rewrite bind_Ok, sapp_assoc. done.
Qed.

(** The image of a symbol that was encoded: a border is refused exactly if it is
    negative or the width is not an [int]; otherwise the image has the width of the
    symbol with its borders, and its path is one unit square per dark module, row by
    row, with single spaces between them. *)
Theorem toSvgString_spec text ecl q border : Forall byte text → size_of text <= INT_MAX → encodeText text ecl = Ok q →
  toSvgString q border =
    if border <? 0 then Err (domain_error "Border must be non-negative")
    else if INT_MAX <? size q + border * 2 then Err (overflow_error "Border too large")
    else Ok (svgHead (size q + border * 2) +:+ svgPath border (darkModules q) +:+ svgTail).
Proof.
  intros Hb Hlen He. assert (displayable q) as Hd by (by eapply encodeText_displayable). pose proof Hd as (_ & Hn & _).
  destruct (Z.ltb_spec border 0) as [H0|H0]; [unfold toSvgString; by rewrite (proj2 (Z.ltb_lt _ _) H0)|].
  destruct (Z.ltb_spec INT_MAX (size q + border * 2)) as [H1|H1]; [|by apply toSvgString_ok].
  unfold toSvgString. destruct (Z.ltb_spec border 0); [lia|].
  destruct ((INT_MAX / 2 <? border) || (INT_MAX - size q <? border * 2)) eqn:Hover; [done|lia].
Qed.

Lemma toSvgString_spec_witness : ∃ q, encodeText [72; 73] LOW = Ok q ∧ toSvgString q 1073741823 = Err (overflow_error "Border too large").
Proof.
  assert (Forall byte [72; 73]) as Hb by (repeat constructor; lia).
  destruct (encodeText_short [72; 73] Hb) as (q & He & _ & _ & Hn & _); [vm_compute; intros [=]|].
  exists q. split; [exact He|]. rewrite (toSvgString_spec [72; 73] LOW q 1073741823).
  - rewrite (proj2 (Z.ltb_lt INT_MAX _)); [reflexivity|unfold INT_MAX; lia].
  - exact Hb.
  - vm_compute. intros [=].
  - exact He.
Defined.
