(* ===== verification/QrSeries.v ===== *)
(** * Transfer of a configuration by a series of QR codes

    Models [generateQrCodeImageSeries] and [svgToBase64] of
    [src/client/ui/controllers/exportController.cpp], which split a configuration over
    several QR codes, and the code of [src/client/ui/controllers/importController.cpp]
    that scans them: [decodeQrCode], [startDecodingQr], [stopDecodingQr],
    [parseQrCodeChunk], [extractConfigFromQr] and the progress text.

    Byte arrays are lists of bytes; the text of a scanned code is the list of its UTF-8
    bytes.  The functions of Qt are the operations of the class [QtBytes], and what the
    code relies on is the class [QtBytesLaws]. *)

From stdpp Require Import prelude strings list list_numbers pretty gmap.
From Stdlib Require Import ZArith Lia.
From S2P Require Import Prelude QtJson Cxx ReedSolomon QrSegment QrCode QrMatrix QrSymbol QrText QrSvg.

Local Open Scope Z_scope.

(** ** Qt *)

Class QtBytes := {
  (** [QByteArray::toBase64] and [fromBase64] with [Base64UrlEncoding | OmitTrailingEquals] *)
  toBase64Url : list Z → list Z;
  fromBase64Url : list Z → list Z;
  (** [image.toUtf8().toBase64()] *)
  utf8Base64 : string → string;
  (** [QDataStream]: what [<<] appends, and the value and rest of [>>] *)
  writeInt16 : Z → list Z;
  writeUInt8 : Z → list Z;
  writeByteArray : list Z → list Z;
  readInt16 : list Z → Z * list Z;
  readUInt8 : list Z → Z * list Z;
  readByteArray : list Z → list Z * list Z;
  (** the conversion of a [double] with an integral value to [quint8] *)
  quint8OfDouble : Z → Z;
  (** [qUncompress], empty if the data is invalid *)
  qUncompress : list Z → list Z;
  (** [QJsonDocument::fromJson(_).object()], empty if the text is not an object *)
  fromJson : list Z → QJsonObject
}.

(** Base64 turns three bytes into four; a stream is read back as it was written, with the
    sizes of the serialization format; a conversion keeps a value in range. *)
Class QtBytesLaws (Q : QtBytes) : Prop := {
  base64_roundtrip bs : Forall byte bs → fromBase64Url (toBase64Url bs) = bs;
  base64_chars bs : Forall byte bs → Forall (λ c, 0 < c < 256) (toBase64Url bs);
  base64_length bs : Forall byte bs → size_of (toBase64Url bs) <= (4 * size_of bs + 2) / 3;
  int16_roundtrip z rest : -32768 <= z < 32768 → readInt16 (writeInt16 z ++ rest) = (z, rest);
  int16_bytes z : Forall byte (writeInt16 z) ∧ size_of (writeInt16 z) = 2;
  uint8_roundtrip z rest : byte z → readUInt8 (writeUInt8 z ++ rest) = (z, rest);
  uint8_bytes z : Forall byte (writeUInt8 z) ∧ size_of (writeUInt8 z) = 1;
  array_roundtrip bs rest : Forall byte bs → size_of bs <= INT_MAX → readByteArray (writeByteArray bs ++ rest) = (bs, rest);
  array_bytes bs : Forall byte bs → Forall byte (writeByteArray bs) ∧ size_of (writeByteArray bs) = 4 + size_of bs;
  quint8_small z : byte z → quint8OfDouble z = z
}.

Section Series.
  Context `{QtBytes}.

(** ** Export *)

(** A byte array that is passed as a C string: what stands before the first 0. *)
Fixpoint c_str (bs : list Z) : list Z :=
  match bs with
  | [] => []
  | b :: bs => if b =? 0 then [] else b :: c_str bs
  end.

Definition qrMagicCode : Z := 1984.

(** The constant [k], the bytes of a chunk. *)
Definition chunkSize : Z := 850.

(** [QByteArray::mid] *)
Definition mid (bs : list Z) (pos len : Z) : list Z := take (Z.to_nat len) (drop (Z.to_nat pos) bs).

(** [std::ceil(n / k)] *)
Definition ceilDiv (n k : Z) : Z := (n + k - 1) / k.
(** [std::round(n / k)] for [0 <= n] *)
Definition roundDiv (n k : Z) : Z := (2 * n + k) / (2 * k).

Definition svgToBase64 (image : string) : string := "data:image/svg;base64," +:+ utf8Base64 image.

(** The text of the code for the bytes from [i]. *)
Definition seriesText (data : list Z) (chunksCount i : Z) : list Z :=
  let chunk := writeInt16 qrMagicCode ++ writeUInt8 chunksCount ++ writeUInt8 (quint8OfDouble (roundDiv i chunkSize)) ++
    writeByteArray (mid data i chunkSize) in
  toBase64Url chunk.

Fixpoint seriesFrom (fuel : nat) (data : list Z) (chunksCount i : Z) (chunks : list string) : exc (list string) :=
  match fuel with
  | O => OutOfFuel
  | S fuel =>
      if i <? size_of data then
        qr ← encodeText (c_str (seriesText data chunksCount i)) LOW;
        svg ← toSvgString qr 1;
        seriesFrom fuel data chunksCount (i + chunkSize) (chunks ++ [svgToBase64 svg])
      else mret chunks
  end.

(** One step per chunk and the last test: never more than the bytes and one. *)
Definition generateQrCodeImageSeries (data : list Z) : exc (list string) :=
  let chunksCount := quint8OfDouble (ceilDiv (size_of data) chunkSize) in
  seriesFrom (S (length data)) data chunksCount 0 [].

(** ** Import *)

(** The members of [ImportController] that scanning uses. *)
Record Importer := mkImporter {
  m_config : QJsonObject;
  m_qrCodeChunks : gmap Z (list Z);
  m_isQrCodeProcessed : bool;
  m_totalQrCodeChunksCount : Z;
  m_receivedQrCodeChunksCount : Z
}.

Inductive QrEvent := qrDecodingFinished | startQrReaderActivity.

(** [Q_OS_ANDROID] or [Q_OS_IOS] *)
Inductive MobileOs := Android | Ios.

(** None of this code throws. *)
Abbreviation Scan := (M Importer QrEvent Empty_set).

Definition set_config (o : QJsonObject) : Scan unit := modify (λ s,
  mkImporter o (m_qrCodeChunks s) (m_isQrCodeProcessed s) (m_totalQrCodeChunksCount s) (m_receivedQrCodeChunksCount s)).
Definition set_chunks (f : gmap Z (list Z) → gmap Z (list Z)) : Scan unit := modify (λ s,
  mkImporter (m_config s) (f (m_qrCodeChunks s)) (m_isQrCodeProcessed s) (m_totalQrCodeChunksCount s) (m_receivedQrCodeChunksCount s)).
Definition set_processed (b : bool) : Scan unit := modify (λ s,
  mkImporter (m_config s) (m_qrCodeChunks s) b (m_totalQrCodeChunksCount s) (m_receivedQrCodeChunksCount s)).
Definition set_total (n : Z) : Scan unit := modify (λ s,
  mkImporter (m_config s) (m_qrCodeChunks s) (m_isQrCodeProcessed s) n (m_receivedQrCodeChunksCount s)).
Definition set_received (n : Z) : Scan unit := modify (λ s,
  mkImporter (m_config s) (m_qrCodeChunks s) (m_isQrCodeProcessed s) (m_totalQrCodeChunksCount s) n).

Definition isEmpty {A} (l : list A) : bool := match l with [] => true | _ => false end.

Definition extractConfigFromQr (data : list Z) : Scan bool :=
  let dataObj := fromJson data in
  if negb (isEmpty dataObj) then set_config dataObj ≫= λ _, mret true
  else
    let ba_uncompressed := qUncompress data in
    if negb (isEmpty ba_uncompressed) then set_config (fromJson ba_uncompressed) ≫= λ _, mret true
    else mret false.

Definition stopDecodingQr : Scan unit := emit qrDecodingFinished.

(** The tail of both branches of [parseQrCodeChunk]. *)
Definition finishDecoding : Scan bool :=
  set_processed false ≫= λ _, stopDecodingQr ≫= λ _, mret true.

(** [m_qrCodeChunks.value(i)] for every index below the total, appended. *)
Definition joinChunks (chunks : gmap Z (list Z)) (total : Z) : list Z :=
  fold_left (λ bs i, bs ++ default [] (chunks !! i)) (range 0 total) [].

Definition parseQrCodeChunk (code : list Z) : Scan bool :=
  processed ← gets m_isQrCodeProcessed;
  if negb processed then mret false
  else
    let ba := fromBase64Url code in
    let '(magic, s) := readInt16 ba in
    if magic =? qrMagicCode then
      let '(chunksCount, s) := readUInt8 s in
      total ← gets m_totalQrCodeChunksCount;
      _ ← when (negb (total =? chunksCount)) (set_chunks (λ _, ∅));
      _ ← set_total chunksCount;
      let '(chunkId, s) := readUInt8 s in
      _ ← set_chunks (λ m, <[chunkId := (readByteArray s).1]> m);
      chunks ← gets m_qrCodeChunks;
      _ ← set_received (Z.of_nat (base.size chunks));
      if Z.of_nat (base.size chunks) =? chunksCount then
        ok ← extractConfigFromQr (joinChunks chunks chunksCount);
        if ok : bool then finishDecoding
        else
          _ ← set_chunks (λ _, ∅);
          _ ← set_total 0;
          _ ← set_received 0;
          mret false
      else mret false
    else
      ok ← extractConfigFromQr ba;
      if ok : bool then finishDecoding else mret false.

(** Android: the entry point for the text of a scanned code. *)
Definition decodeQrCode (code : list Z) : Scan bool :=
  processed ← gets m_isQrCodeProcessed;
  _ ← when (negb processed)
        (set_chunks (λ _, ∅) ≫= λ _, set_processed true ≫= λ _, set_total 0 ≫= λ _, set_received 0);
  parseQrCodeChunk code.

Definition startDecodingQr (p : MobileOs) : Scan unit :=
  _ ← set_chunks (λ _, ∅);
  _ ← set_total 0;
  _ ← set_received 0;
  match p with
  | Ios => set_processed true
  | Android => emit startQrReaderActivity
  end.

(** The text in the source language of the translations. *)
Definition getQrCodeScanProgressString : Scan string :=
  received ← gets m_receivedQrCodeChunksCount;
  total ← gets m_totalQrCodeChunksCount;
  mret ("Scanned " +:+ pretty received +:+ " of " +:+ pretty total +:+ ".").

(** What a scanned code is given to. *)
Definition scanCode (p : MobileOs) : list Z → Scan bool :=
  match p with Android => decodeQrCode | Ios => parseQrCodeChunk end.

(** Codes that are scanned one after the other, and what each scan answers. *)
Fixpoint scanAll (p : MobileOs) (codes : list (list Z)) : Scan (list bool) :=
  match codes with
  | [] => mret []
  | code :: codes =>
      b ← scanCode p code;
      bs ← scanAll p codes;
      mret (b :: bs)
  end.

(** A session of the scanner. *)
Definition session (p : MobileOs) (codes : list (list Z)) : Scan (list bool) :=
  startDecodingQr p ≫= λ _, scanAll p codes.

(** ** The contract *)

(** The chunks of a series, and the text of one. *)
Definition chunkCount (data : list Z) : Z := ceilDiv (size_of data) chunkSize.
Definition chunkOf (data : list Z) (i : Z) : list Z := mid data (i * chunkSize) chunkSize.
Definition codeOf (data : list Z) (i : Z) : list Z := seriesText data (quint8OfDouble (chunkCount data)) (i * chunkSize).

(** The configuration that data stands for. *)
Definition configOf (data : list Z) : option QJsonObject :=
  if isEmpty (fromJson data) then
    if isEmpty (qUncompress data) then None else Some (fromJson (qUncompress data))
  else Some (fromJson data).

(** A series that can be transferred. *)
Definition transferable (data : list Z) : Prop := Forall byte data ∧ 1 <= size_of data <= 255 * chunkSize.

(** A scan order in which the last code is the first to complete the series. *)
Definition completes (n : Z) (ids : list Z) (last : Z) : Prop :=
  Forall (λ i, 0 <= i < n) (ids ++ [last]) ∧ last ∉ ids ∧ ∀ i, 0 <= i < n → i ∈ ids ++ [last].

(** The image of a symbol. *)
Definition imageOf (q : QrCode) : string :=
  svgToBase64 (svgHead (size q + 2) +:+ svgPath 1 (darkModules q) +:+ svgTail).

End Series.

Section Transfer.
  Context {Q : QtBytes} {L : QtBytesLaws Q}.

(** *** Chunks *)

Lemma chunkCount_spec data n : (chunkCount data = n) ↔ ((n - 1) * chunkSize < size_of data <= n * chunkSize).
Proof.
  unfold chunkCount, ceilDiv, chunkSize. pose proof (Z.div_mod (size_of data + 850 - 1) 850).
  pose proof (Z.mod_pos_bound (size_of data + 850 - 1) 850). split; lia.
Qed.

Lemma chunkCount_bounds data : transferable data → 1 <= chunkCount data <= 255.
Proof.
  intros [_ Hsz]. pose proof (proj1 (chunkCount_spec data _) eq_refl). unfold chunkSize in *. lia.
Qed.

Lemma Forall_mid {P : Z → Prop} bs pos len : Forall P bs → Forall P (mid bs pos len).
Proof. intros Hb. by apply Forall_take, Forall_drop. Qed.

Lemma size_mid bs pos len : 0 <= len → size_of (mid bs pos len) <= len.
Proof. intros Hlen. unfold mid, size_of. rewrite length_take. lia. Qed.

Lemma roundDiv_exact i k : 0 < k → roundDiv (i * k) k = i.
Proof. intros Hk. unfold roundDiv. symmetry. apply (Z.div_unique _ _ _ k); lia. Qed.

(** What a code of the series contains. *)
Lemma codeOf_bytes data i : transferable data → 0 <= i < chunkCount data →
  ∃ bs, codeOf data i = toBase64Url bs ∧ Forall byte bs ∧ size_of bs <= 858 ∧
    bs = writeInt16 qrMagicCode ++ writeUInt8 (chunkCount data) ++ writeUInt8 i ++ writeByteArray (chunkOf data i).
Proof.
  intros Ht Hi. pose proof (chunkCount_bounds data Ht) as Hn. destruct Ht as [Hb _]. eexists. split; [|split; [|split; [|reflexivity]]].
  - unfold codeOf, seriesText, chunkOf. cbv zeta. rewrite roundDiv_exact, !quint8_small by (unfold byte, chunkSize; lia). done.
  - rewrite !Forall_app. split; [apply int16_bytes|]. split; [apply uint8_bytes|]. split; [apply uint8_bytes|].
    apply array_bytes. by apply Forall_mid.
  - pose proof (proj2 (array_bytes (chunkOf data i) (Forall_mid _ _ _ Hb))) as Ha.
    pose proof (size_mid data (i * chunkSize) chunkSize) as Hm. fold (chunkOf data i) in Hm.
    pose proof (proj2 (int16_bytes qrMagicCode)). pose proof (proj2 (uint8_bytes (chunkCount data))). pose proof (proj2 (uint8_bytes i)).
    unfold size_of, chunkSize in *. rewrite !length_app. lia.
Qed.

Lemma c_str_id bs : Forall (λ c, 0 < c < 256) bs → c_str bs = bs.
Proof. intros Hb. induction Hb as [|b bs Hb Hbs IH]; [done|]. cbn [c_str]. destruct (Z.eqb_spec b 0); [lia|]. by rewrite IH. Qed.

(** The code is a C string that is short enough for a symbol. *)
Lemma codeOf_short data i : transferable data → 0 <= i < chunkCount data →
  c_str (codeOf data i) = codeOf data i ∧ Forall byte (codeOf data i) ∧ size_of (codeOf data i) <= 1144.
Proof.
  intros Ht Hi. destruct (codeOf_bytes data i Ht Hi) as (bs & -> & Hb & Hsz & _). pose proof (base64_chars bs Hb) as Hc.
  split; [by apply c_str_id|]. split; [eapply Forall_impl; [exact Hc|]; unfold byte; cbn; lia|].
  etransitivity; [by apply base64_length|]. apply Z.lt_succ_r, Z.div_lt_upper_bound; lia.
Qed.

(** *** Export *)

Lemma seriesFrom_ok data i fuel chunks : transferable data → 0 <= i <= chunkCount data →
  (Z.to_nat (chunkCount data - i) < fuel)%nat →
  ∃ qs, seriesFrom fuel data (quint8OfDouble (chunkCount data)) (i * chunkSize) chunks = Ok (chunks ++ map imageOf qs) ∧
    Forall2 (λ j q, readSymbol (modules q) = Some (codeOf data j)) (range i (chunkCount data)) qs.
Proof.
  intros Ht. pose proof (proj1 (chunkCount_spec data _) eq_refl) as Hsz. revert i chunks.
  induction fuel as [|fuel IH]; intros i chunks Hi Hf; [lia|]. cbn [seriesFrom]. unfold chunkSize in Hsz.
  destruct (Z.ltb_spec (i * chunkSize) (size_of data)) as [Hlt|Hge]; unfold chunkSize in *.
  - destruct (codeOf_short data i Ht ltac:(lia)) as (Hcs & Hb & Hl).
    destruct (encodeText_short (codeOf data i) Hb ltac:(lia)) as (q & He & Hr & Hd).
    destruct (IH (i + 1) (chunks ++ [imageOf q])) as (qs & Hs & Hqs); [lia..|]. exists (q :: qs). split.
    + change (i * 850) with (i * chunkSize). fold (codeOf data i). rewrite Hcs, He, bind_Ok, (toSvgString_ok q 1) by (done || (destruct Hd as (_ & ? & _); unfold INT_MAX; lia)).
      rewrite bind_Ok. replace (i * chunkSize + 850) with ((i + 1) * 850) by (unfold chunkSize; lia).
      change (size q + 1 * 2) with (size q + 2). fold (imageOf q). rewrite Hs, <- app_assoc. done.
    + rewrite range_cons by lia. by constructor.
  - exists []. split; [by rewrite app_nil_r|]. rewrite range_nil by lia. constructor.
Qed.

(** *** Import *)

Lemma joinChunks_eq chunks n : joinChunks chunks n = concat (map (λ i, default [] (chunks !! i)) (range 0 n)).
Proof.
  unfold joinChunks. enough (∀ l acc, fold_left (λ bs i, bs ++ default [] (chunks !! i)) l acc =
    acc ++ concat (map (λ i, default [] (chunks !! i)) l)) as Hgen by apply Hgen.
  induction l as [|i l IH]; intros acc; cbn [fold_left map concat]; [by rewrite app_nil_r|]. by rewrite IH, <- app_assoc.
Qed.

Lemma concat_chunks data n : 0 <= n → concat (map (chunkOf data) (range 0 n)) = take (Z.to_nat (n * chunkSize)) data.
Proof.
  intros Hn. pattern n. apply natlike_ind; [done| |done]. clear n Hn. intros n Hn IH. change (Z.succ n) with (n + 1). rewrite range_snoc by lia.
  rewrite map_app, concat_app, IH. cbn [map concat]. rewrite app_nil_r. unfold chunkOf, mid.
  replace (Z.to_nat ((n + 1) * chunkSize)) with (Z.to_nat (n * chunkSize) + Z.to_nat chunkSize)%nat by (unfold chunkSize; lia).
  by rewrite take_take_drop.
Qed.

(** The chunks of [data] with the given numbers. *)
Definition collected (data : list Z) (ids : list Z) (chunks : gmap Z (list Z)) : Prop :=
  ∀ i, chunks !! i = if decide (i ∈ ids) then Some (chunkOf data i) else None.

Lemma collected_insert data ids chunks i : collected data ids chunks → collected data (ids ++ [i]) (<[i := chunkOf data i]> chunks).
Proof.
  intros Hc j. destruct (decide (i = j)) as [<-|Hne].
  - rewrite lookup_insert_eq, decide_True; [done|]. apply elem_of_app. right. left.
  - rewrite lookup_insert_ne, Hc by done. apply decide_ext. rewrite elem_of_app, list_elem_of_singleton. naive_solver.
Qed.

Lemma collected_size data ids chunks n : 0 <= n → collected data ids chunks → Forall (λ i, 0 <= i < n) ids →
  (Z.of_nat (base.size chunks) = n) ↔ (∀ i, 0 <= i < n → i ∈ ids).
Proof.
  intros Hn Hc Hids. rewrite Forall_forall in Hids.
  assert (dom chunks = list_to_set ids :> gset Z) as Hdom.
  { apply set_eq. intros i. rewrite elem_of_dom, elem_of_list_to_set, Hc. case_decide; split; naive_solver. }
  rewrite <- size_dom, Hdom.
  assert (base.size (list_to_set (range 0 n) : gset Z) = Z.to_nat n) as Hsz.
  { rewrite size_list_to_set by apply NoDup_seqZ. pose proof (size_range 0 n ltac:(lia)) as Hr. unfold size_of in Hr. lia. }
  assert ((list_to_set ids : gset Z) ⊆ list_to_set (range 0 n)) as Hsub.
  { intros i. rewrite !elem_of_list_to_set, elem_of_range. apply Hids. }
  split.
  - intros Hs i Hi. apply (elem_of_list_to_set (C := gset Z)). rewrite (set_subseteq_size_eq _ _ Hsub) by lia.
    by rewrite elem_of_list_to_set, elem_of_range.
  - intros Hall. assert ((list_to_set ids : gset Z) = list_to_set (range 0 n)) as ->; [|lia].
    apply set_eq. intros i. rewrite !elem_of_list_to_set, elem_of_range. split; [apply Hids|apply Hall].
Qed.

Lemma collected_all data chunks ids : transferable data → collected data ids chunks →
  (∀ i, 0 <= i < chunkCount data → i ∈ ids) → joinChunks chunks (chunkCount data) = data.
Proof.
  intros Ht Hc Hall. pose proof (chunkCount_bounds data Ht) as Hn. pose proof (proj1 (chunkCount_spec data _) eq_refl) as Hsz.
  rewrite joinChunks_eq, (map_ext_in _ (chunkOf data)).
  - rewrite concat_chunks by lia. apply take_ge. unfold size_of in Hsz. lia.
  - intros i Hi. rewrite <- list_elem_of_In, elem_of_range in Hi. rewrite Hc, decide_True by auto. done.
Qed.

Lemma extract_eq data st : extractConfigFromQr data st =
  match configOf data with
  | Some cfg => (Ok true, mkImporter cfg (m_qrCodeChunks st) (m_isQrCodeProcessed st) (m_totalQrCodeChunksCount st) (m_receivedQrCodeChunksCount st), [])
  | None => (Ok false, st, [])
  end.
Proof. unfold extractConfigFromQr, configOf. by destruct (isEmpty (fromJson data)), (isEmpty (qUncompress data)). Qed.

(** One code of the series. *)
Lemma parse_code data i st : transferable data → 0 <= i < chunkCount data → m_isQrCodeProcessed st = true →
  let n := chunkCount data in
  let chunks := <[i := chunkOf data i]> (if m_totalQrCodeChunksCount st =? n then m_qrCodeChunks st else ∅) in
  parseQrCodeChunk (codeOf data i) st =
    if Z.of_nat (base.size chunks) =? n then
      match configOf (joinChunks chunks n) with
      | Some cfg => (Ok true, mkImporter cfg chunks false n n, [qrDecodingFinished])
      | None => (Ok false, mkImporter (m_config st) ∅ true 0 0, [])
      end
    else (Ok false, mkImporter (m_config st) chunks true n (Z.of_nat (base.size chunks)), []).
Proof.
  intros Ht Hi Hp n chunks. pose proof (chunkCount_bounds data Ht) as Hn.
  destruct (codeOf_bytes data i Ht Hi) as (bs & Hcode & Hbs & _ & Hbsdef). unfold parseQrCodeChunk, mbind, M_bind, gets. rewrite Hp, Hcode. cbn [negb].
  rewrite base64_roundtrip, Hbsdef, int16_roundtrip by (done || (unfold qrMagicCode; lia)). rewrite Z.eqb_refl.
  rewrite uint8_roundtrip by (unfold byte; lia). rewrite uint8_roundtrip by (unfold byte; lia).
  rewrite <- (app_nil_r (writeByteArray _)), array_roundtrip.
  2: { destruct Ht. by apply Forall_mid. }
  2: { pose proof (size_mid data (i * chunkSize) chunkSize). unfold chunkOf, INT_MAX, chunkSize in *. lia. }
  fold n. destruct st as [cfg0 chunks0 p0 total0 received0]. cbn in Hp, chunks. subst p0.
  unfold when, set_chunks, set_total, set_received, modify. cbn [m_totalQrCodeChunksCount fst].
  destruct (Z.eqb_spec total0 n) as [->|Hne]; cbn [negb]; cbn -[Z.of_nat Z.eqb base.size insert joinChunks extractConfigFromQr finishDecoding];
    fold chunks; destruct (Z.eqb_spec (Z.of_nat (base.size chunks)) n) as [Hs|Hs]; try done;
    rewrite extract_eq; destruct (configOf (joinChunks chunks n)) as [cfg|]; cbn -[Z.of_nat base.size insert]; by rewrite ?Hs.
Qed.

Lemma scanCode_parse p code st : m_isQrCodeProcessed st = true → scanCode p code st = parseQrCodeChunk code st.
Proof.
  intros Hp. destruct p; [|done]. unfold scanCode, decodeQrCode, mbind, M_bind, gets. rewrite Hp. cbn. by destruct (parseQrCodeChunk code st) as [[r s] t].
Qed.

(** Codes that leave the series incomplete. *)
Definition collecting (data : list Z) (seen : list Z) (st : Importer) : Prop :=
  m_isQrCodeProcessed st = true ∧ collected data seen (m_qrCodeChunks st) ∧
  (seen = [] ∨ m_totalQrCodeChunksCount st = chunkCount data).

Lemma collecting_next data seen st i : collecting data seen st →
  collected data (seen ++ [i]) (<[i := chunkOf data i]> (if m_totalQrCodeChunksCount st =? chunkCount data then m_qrCodeChunks st else ∅)).
Proof.
  intros (_ & Hc & Ht). apply collected_insert. destruct (Z.eqb_spec (m_totalQrCodeChunksCount st) (chunkCount data)); [done|].
  destruct Ht as [->|]; [|done]. intros j. rewrite lookup_empty. by destruct (decide (j ∈ [])) as [Hj%elem_of_nil|].
Qed.

Lemma scan_incomplete p data last pre : transferable data → 0 <= last < chunkCount data → ∀ seen st,
  last ∉ seen ++ pre → Forall (λ i, 0 <= i < chunkCount data) (seen ++ pre) → collecting data seen st →
  ∃ st', scanAll p (map (codeOf data) pre) st = (Ok (replicate (length pre) false), st', []) ∧
    collecting data (seen ++ pre) st' ∧ m_config st' = m_config st.
Proof.
  intros Ht Hlast. induction pre as [|i pre IH]; intros seen st Hnin Hids Hst.
  - exists st. rewrite app_nil_r. done.
  - replace (seen ++ i :: pre) with ((seen ++ [i]) ++ pre) in * by (by rewrite <- app_assoc).
    apply Forall_app in Hids as Hids1. destruct Hids1 as [Hids1 _]. pose proof Hst as (Hp & _).
    assert (0 <= i < chunkCount data) as Hi. { rewrite Forall_app, Forall_singleton in Hids1. apply Hids1. }
    pose proof (collecting_next data seen st i Hst) as Hc. pose proof (parse_code data i st Ht Hi Hp) as Hpc. cbv zeta in Hpc.
    set (chunks := <[i := chunkOf data i]> _) in *.
    destruct (Z.eqb_spec (Z.of_nat (base.size chunks)) (chunkCount data)) as [Hs|Hs].
    { exfalso. apply Hnin, elem_of_app. left. refine (proj1 (collected_size data _ chunks (chunkCount data) _ Hc Hids1) Hs last Hlast). lia. }
    destruct (IH (seen ++ [i]) (mkImporter (m_config st) chunks true (chunkCount data) (Z.of_nat (base.size chunks)))) as (st' & Hscan & Hst' & Hcfg);
      [done..|by split_and!; [| |right]|].
    exists st'. split; [|done]. cbn [map scanAll]. unfold mbind, M_bind. by rewrite scanCode_parse, Hpc, Hscan.
Qed.

Lemma scan_snoc p codes code st bs st' b st'' ev : scanAll p codes st = (Ok bs, st', []) → scanCode p code st' = (Ok b, st'', ev) →
  scanAll p (codes ++ [code]) st = (Ok (bs ++ [b]), st'', ev).
Proof.
  revert st bs. induction codes as [|c codes IH]; intros st bs Hs Hp.
  - injection Hs as <- <-. cbn [app scanAll]. unfold mbind, M_bind. rewrite Hp. cbn. by rewrite app_nil_r.
  - cbn [scanAll app] in *. unfold mbind, M_bind in *. destruct (scanCode p c st) as [[[b1|e|] s1] t1]; try done.
    destruct (scanAll p codes s1) as [[[bs1|e|] s2] t2] eqn:Hcs; try done. cbn in Hs. injection Hs as <- <- Ht.
    rewrite app_nil_r in Ht. apply app_nil in Ht as [-> ->]. rewrite (IH s1 bs1) by done. cbn. by rewrite app_nil_r.
Qed.

(** A whole series, from a state in which nothing has been scanned. *)
Lemma scan_series p data ids last st : transferable data → completes (chunkCount data) ids last →
  m_isQrCodeProcessed st = true → m_qrCodeChunks st = ∅ →
  ∃ st', match configOf data with
  | Some cfg => scanAll p (map (codeOf data) (ids ++ [last])) st = (Ok (replicate (length ids) false ++ [true]), st', [qrDecodingFinished]) ∧
      m_config st' = cfg ∧ m_isQrCodeProcessed st' = false
  | None => scanAll p (map (codeOf data) (ids ++ [last])) st = (Ok (replicate (length ids) false ++ [false]), st', []) ∧
      st' = mkImporter (m_config st) ∅ true 0 0
  end.
Proof.
  intros Ht (Hids & Hnin & Hall) Hp Hempty. apply Forall_app in Hids as Hids1. destruct Hids1 as [Hids1 Hl]. rewrite Forall_singleton in Hl.
  destruct (scan_incomplete p data last ids Ht Hl [] st) as (st1 & Hscan & Hst1 & Hcfg); [done..| |].
  { split; [done|]. split; [|by left]. rewrite Hempty. intros j. rewrite lookup_empty. by destruct (decide (j ∈ [])) as [Hj%elem_of_nil|]. }
  pose proof (collecting_next data ids st1 last Hst1) as Hc. pose proof (parse_code data last st1 Ht Hl ltac:(apply Hst1)) as Hpc.
  cbv zeta in Hpc. rewrite <- (scanCode_parse p) in Hpc by apply Hst1. set (chunks := <[last := chunkOf data last]> _) in *. pose proof (chunkCount_bounds data Ht) as Hn.
  rewrite (proj2 (Z.eqb_eq _ _)) in Hpc by (apply (collected_size data (ids ++ [last])); (done || lia)).
  rewrite (collected_all data chunks (ids ++ [last])), Hcfg in Hpc by done. rewrite map_app. destruct (configOf data) as [cfg|].
  - eexists. split; [by eapply scan_snoc|done].
  - eexists. split; [by eapply scan_snoc|done].
Qed.

Lemma session_scan p codes st : codes ≠ [] →
  session p codes st =
    let '(r, st', ev) := scanAll p codes (mkImporter (m_config st) ∅ true 0 0) in
    (r, st', match p with Android => [startQrReaderActivity] | Ios => [] end ++ ev).
Proof.
  intros Hne. destruct codes as [|code codes]; [done|]. unfold session, mbind, M_bind. destruct p; [|done].
  change (startDecodingQr Android st) with
    (Ok (E := Empty_set) tt, mkImporter (m_config st) ∅ (m_isQrCodeProcessed st) 0 0, [startQrReaderActivity]).
  cbn [scanAll scanCode]. unfold mbind, M_bind.
  assert (decodeQrCode code (mkImporter (m_config st) ∅ (m_isQrCodeProcessed st) 0 0) =
    decodeQrCode code (mkImporter (m_config st) ∅ true 0 0)) as -> by (by destruct (m_isQrCodeProcessed st)).
  done.
Qed.

(** Symbols that are read in some order. *)
Lemma read_codes data qs ids :
  Forall2 (λ j q, readSymbol (modules q) = Some (codeOf data j)) (range 0 (chunkCount data)) qs →
  Forall (λ i, 0 <= i < chunkCount data) ids →
  mapM (λ i, qs !! Z.to_nat i ≫= λ q, readSymbol (modules q)) ids = Some (map (codeOf data) ids).
Proof.
  intros Hqs Hids. apply mapM_Some_2. induction Hids as [|i l Hi Hl IH]; constructor; [|done].
  destruct (Forall2_lookup_l _ _ _ (Z.to_nat i) i Hqs) as (q & -> & Hread); [|done]. rewrite lookup_range by lia. f_equal. lia.
Qed.

(** [C9] Transfer of a configuration: data of 1 to 255 * 850 bytes is exported as one image
    per chunk, each showing a symbol that can be read.  Whoever scans the symbols, in any
    order and some of them more than once, gets no answer before the last missing one;
    then the importer has exactly the exported data.  If it is a configuration, the scan
    ends with it, else everything scanned is forgotten and scanning goes on. *)
Theorem series_transfer data : transferable data →
  ∃ qs, generateQrCodeImageSeries data = Ok (map imageOf qs) ∧ size_of qs = chunkCount data ∧
    ∀ p ids last st, completes (chunkCount data) ids last →
      ∃ texts st' ev, mapM (λ i, qs !! Z.to_nat i ≫= λ q, readSymbol (modules q)) (ids ++ [last]) = Some texts ∧
        session p texts st = (Ok (replicate (length ids) false ++ [bool_decide (is_Some (configOf data))]), st', ev) ∧
        match configOf data with
        | Some cfg => m_config st' = cfg ∧ m_isQrCodeProcessed st' = false ∧ List.last ev startQrReaderActivity = qrDecodingFinished
        | None => st' = mkImporter (m_config st) ∅ true 0 0 ∧ qrDecodingFinished ∉ ev
        end.
Proof.
  intros Ht. destruct (seriesFrom_ok data 0 (S (length data)) [] Ht) as (qs & Hgen & Hqs).
  { pose proof (chunkCount_bounds data Ht). lia. }
  { pose proof (proj1 (chunkCount_spec data _) eq_refl). unfold size_of, chunkSize in *. lia. }
  pose proof (Forall2_length _ _ _ Hqs) as Hlen. pose proof (chunkCount_bounds data Ht) as Hn.
  pose proof (size_range 0 (chunkCount data) ltac:(lia)) as Hr. exists qs. split; [exact Hgen|]. split; [unfold size_of in *; lia|].
  intros p ids last st Hc. exists (map (codeOf data) (ids ++ [last])). rewrite session_scan by (by rewrite map_app; destruct (map _ ids)).
  destruct (scan_series p data ids last (mkImporter (m_config st) ∅ true 0 0) Ht Hc) as (st' & Hscan); [done..|].
  pose proof (read_codes data qs (ids ++ [last]) Hqs (proj1 Hc)) as HmapM.
  destruct (configOf data) as [cfg|]; destruct Hscan as (Hs & Hst); eexists st', _; (split; [exact HmapM|]); (split; [rewrite Hs; done|]).
  - destruct Hst. split; [done|]. split; [done|]. by destruct p.
  - split; [done|]. destruct p; cbn; [intros [[=]|[]%elem_of_nil]%elem_of_cons|apply not_elem_of_nil].
Qed.

End Transfer.

(** ** A concrete codec *)

(** Base64 with the alphabet for URLs. *)
Definition symbol64 (v : Z) : Z := if v <? 26 then v + 65 else if v <? 52 then v + 71 else if v <? 62 then v - 4 else if v =? 62 then 45 else 95.
Definition value64 (c : Z) : Z :=
  if c =? 45 then 62 else if c =? 95 then 63 else if c <? 65 then c + 4 else if c <? 97 then c - 65 else c - 71.

Fixpoint encode64 (bs : list Z) : list Z :=
  match bs with
  | a :: b :: c :: bs =>
      symbol64 (a / 4) :: symbol64 (a mod 4 * 16 + b / 16) :: symbol64 (b mod 16 * 4 + c / 64) :: symbol64 (c mod 64) :: encode64 bs
  | [a; b] => [symbol64 (a / 4); symbol64 (a mod 4 * 16 + b / 16); symbol64 (b mod 16 * 4)]
  | [a] => [symbol64 (a / 4); symbol64 (a mod 4 * 16)]
  | [] => []
  end.

Fixpoint decode64 (cs : list Z) : list Z :=
  match cs with
  | p :: q :: r :: t :: cs =>
      let '(p, q, r, t) := (value64 p, value64 q, value64 r, value64 t) in
      p * 4 + q / 16 :: q mod 16 * 16 + r / 4 :: r mod 4 * 64 + t :: decode64 cs
  | [p; q; r] => let '(p, q, r) := (value64 p, value64 q, value64 r) in [p * 4 + q / 16; q mod 16 * 16 + r / 4]
  | [p; q] => let '(p, q) := (value64 p, value64 q) in [p * 4 + q / 16]
  | _ => []
  end.

Lemma value64_symbol64 v : 0 <= v < 64 → value64 (symbol64 v) = v.
Proof. intros Hv. unfold value64, symbol64. split_ifs; lia. Qed.

Lemma symbol64_char v : 0 <= v < 64 → 0 < symbol64 v < 256.
Proof. intros Hv. unfold symbol64. split_ifs; lia. Qed.

(** The six-bit groups of three bytes. *)
Lemma groups64 a b c : byte a → byte b → byte c →
  0 <= a / 4 < 64 ∧ 0 <= a mod 4 * 16 + b / 16 < 64 ∧ 0 <= b mod 16 * 4 + c / 64 < 64 ∧ 0 <= c mod 64 < 64 ∧
  a / 4 * 4 + (a mod 4 * 16 + b / 16) / 16 = a ∧
  (a mod 4 * 16 + b / 16) mod 16 * 16 + (b mod 16 * 4 + c / 64) / 4 = b ∧
  (b mod 16 * 4 + c / 64) mod 4 * 64 + c mod 64 = c.
Proof.
  unfold byte. intros Ha Hb Hc.
  assert (0 <= a mod 4 < 4 ∧ a = 4 * (a / 4) + a mod 4) as [? ?] by (pose proof (Z.mod_pos_bound a 4); pose proof (Z.div_mod a 4); lia).
  assert (0 <= b mod 16 < 16 ∧ b = 16 * (b / 16) + b mod 16) as [? ?] by (pose proof (Z.mod_pos_bound b 16); pose proof (Z.div_mod b 16); lia).
  assert (0 <= c mod 64 < 64 ∧ c = 64 * (c / 64) + c mod 64) as [? ?] by (pose proof (Z.mod_pos_bound c 64); pose proof (Z.div_mod c 64); lia).
  rewrite !Z.div_add_l, (Z.add_comm (a mod 4 * 16)), (Z.add_comm (b mod 16 * 4)), !Z.mod_add by lia.
  rewrite (Z.div_small (b / 16) 16), (Z.div_small (c / 64) 4), (Z.mod_small (b / 16) 16), (Z.mod_small (c / 64) 4) by lia. lia.
Qed.

Lemma decode64_encode64 bs : Forall byte bs → decode64 (encode64 bs) = bs ∧ Forall (λ c, 0 < c < 256) (encode64 bs) ∧
  3 * size_of (encode64 bs) <= 4 * size_of bs + 2.
Proof.
  unfold size_of. revert bs. fix IH 1. intros [|a [|b [|c bs]]] Hb.
  - cbn. done.
  - apply Forall_cons in Hb as [Ha _]. destruct (groups64 a 0 0 Ha) as (H1 & H2 & _ & _ & H3 & _); [done..|].
    rewrite Z.div_0_l, Z.add_0_r in * by done. cbn [encode64 decode64]. rewrite !value64_symbol64, H3 by done.
    split; [done|]. split; [|cbn; lia]. repeat constructor; by apply symbol64_char.
  - apply Forall_cons in Hb as [Ha [Hb _]%Forall_cons]. destruct (groups64 a b 0 Ha Hb) as (H1 & H2 & H3 & _ & H4 & H5 & _); [done|].
    rewrite Z.div_0_l, Z.add_0_r in * by done. cbn [encode64 decode64]. rewrite !value64_symbol64, H4, H5 by done.
    split; [done|]. split; [|cbn; lia]. repeat constructor; by apply symbol64_char.
  - apply Forall_cons in Hb as [Ha [Hb [Hc Hbs]%Forall_cons]%Forall_cons].
    destruct (groups64 a b c Ha Hb Hc) as (H1 & H2 & H3 & H4 & H5 & H6 & H7). destruct (IH bs Hbs) as (IH1 & IH2 & IH3).
    cbn [encode64 decode64]. rewrite !value64_symbol64, H5, H6, H7, IH1 by done. split; [done|].
    split; [|cbn [length]; lia]. repeat (constructor; [by apply symbol64_char|]). done.
Qed.

(** Big-endian integers, as the stream writes them. *)
#[local] Instance SimBytes : QtBytes := {
  toBase64Url := encode64;
  fromBase64Url := decode64;
  utf8Base64 := λ s, s;
  writeInt16 := λ z, [z / 256 mod 256; z mod 256];
  writeUInt8 := λ z, [z mod 256];
  writeByteArray := λ bs, let n := size_of bs in [n / 16777216 mod 256; n / 65536 mod 256; n / 256 mod 256; n mod 256] ++ bs;
  readInt16 := λ bs, match bs with
    | hi :: lo :: rest => let z := hi * 256 + lo in (if 32768 <=? z then z - 65536 else z, rest)
    | _ => (0, []) end;
  readUInt8 := λ bs, match bs with b :: rest => (b, rest) | [] => (0, []) end;
  readByteArray := λ bs, match bs with
    | a :: b :: c :: d :: rest => let n := Z.to_nat (((a * 256 + b) * 256 + c) * 256 + d) in (take n rest, drop n rest)
    | _ => ([], []) end;
  quint8OfDouble := λ z, z mod 256;
  qUncompress := λ bs, tl bs;
  fromJson := λ bs, match bs with 123 :: _ => [("bytes", JString (pretty (length bs)))] | _ => [] end
}.

#[local] Instance SimBytesLaws : QtBytesLaws SimBytes.
Proof.
  split.
  - intros bs Hb. by apply decode64_encode64.
  - intros bs Hb. by apply decode64_encode64.
  - intros bs Hb. apply Z.div_le_lower_bound; [lia|]. by apply decode64_encode64.
  - intros z rest Hz. cbn. assert (z / 256 mod 256 * 256 + z mod 256 = z mod 65536) as ->.
    { pose proof (Z.rem_mul_r z 256 256 ltac:(lia) ltac:(lia)) as Hm. change (256 * 256) with 65536 in Hm. lia. }
    destruct (Z.leb_spec 32768 (z mod 65536)); f_equal; Z.div_mod_to_equations; lia.
  - intros z. cbn. split; [|done]. repeat constructor; apply Z.mod_pos_bound; lia.
  - intros z rest Hz. cbn. f_equal. apply Z.mod_small, Hz.
  - intros z. cbn. split; [|done]. repeat constructor; apply Z.mod_pos_bound; lia.
  - intros bs rest Hb Hl. cbn. unfold INT_MAX in Hl. set (n := size_of bs) in *.
    assert (Z.to_nat (((n / 16777216 mod 256 * 256 + n / 65536 mod 256) * 256 + n / 256 mod 256) * 256 + n mod 256) = length bs) as ->.
    { assert (0 <= n) by (unfold n, size_of; lia). transitivity (Z.to_nat n); [f_equal|unfold n, size_of; lia].
      change 16777216 with (256 * 256 * 256). change 65536 with (256 * 256). rewrite <- !Z.div_div by lia.
      rewrite (Z.mod_small (n / 256 / 256 / 256)).
      - pose proof (Z.div_mod n 256). pose proof (Z.div_mod (n / 256) 256). pose proof (Z.div_mod (n / 256 / 256) 256). lia.
      - split; [by repeat apply Z.div_pos|]. repeat (apply Z.div_lt_upper_bound; [done|]). lia. }
    by rewrite take_app_length, drop_app_length.
  - intros bs Hb. cbn. split; [repeat constructor; (done || (apply Z.mod_pos_bound; lia))|]. unfold size_of. cbn [length]. lia.
  - intros z Hz. cbn. apply Z.mod_small, Hz.
Qed.

Lemma twice_completes : completes 2 [1; 1] 0.
Proof.
  split; [cbn; repeat constructor; lia|]. split; [set_solver|].
  intros i Hi. assert (i = 0 ∨ i = 1) as [-> | ->] by lia; set_solver.
Qed.

(** Two chunks; the second is scanned twice before the first. *)
Lemma series_transfer_witness :
  ∃ qs, generateQrCodeImageSeries (0 :: 123 :: replicate 998 7) = Ok (map imageOf qs) ∧
    ∃ texts st' ev, mapM (λ i, qs !! Z.to_nat i ≫= λ q, readSymbol (modules q)) [1; 1; 0] = Some texts ∧
      session Ios texts (mkImporter [] ∅ false 0 0) = (Ok [false; false; true], st', ev) ∧
      m_config st' = [("bytes", JString "999")].
Proof.
  destruct (series_transfer (0 :: 123 :: replicate 998 7)) as (qs & Hg & Hl & Hscan).
  - split; [|vm_compute; split; intros [=]]. constructor; [unfold byte; lia|]. constructor; [unfold byte; lia|].
    apply Forall_replicate. unfold byte. lia.
  - exists qs. split; [exact Hg|].
    destruct (Hscan Ios [1; 1] 0 (mkImporter [] ∅ false 0 0)) as (texts & st' & ev & Hm & Hs & Hcfg & _).
    + exact twice_completes.
    + exists texts, st', ev. split; [exact Hm|]. split; [exact Hs|]. rewrite Hcfg. vm_compute. reflexivity.
Defined.
